(* ===== verification/_CoqProject ===== *)
-Q . S2P
Prelude.v
PyData.v
PyStr.v
Json.v
PyTime.v
Content.v
Plan.v
Authority.v
Message.v
Session.v
SessionProps.v
SessionState.v
Recovery.v
SessionThms.v
PyText.v
JsonText.v
Jsonl.v
SessionStore.v
SessionStoreThms.v
Projection.v
Llm.v
ContextManager.v
ContextThms.v
TurnControl.v
LoopPolicy.v
Tools.v
ToolBatch.v
ToolBatchThms.v
Jobs.v
JobThms.v
Frames.v
Agent.v
AgentThms.v
Patch.v
PatchThms.v
TextView.v
TextViewThms.v
FileTools.v
FileToolsThms.v
Normalizer.v
NormalizerThms.v
Permissions.v
PermissionThms.v
ToolStream.v
ToolStreamThms.v
TurnRunner.v
TurnRunnerThms.v
Runtime.v
RuntimeThms.v
Protocol.v
SessionHost.v
SessionHostThms.v
Transport.v
TransportThms.v
Bridge.v
BridgeThms.v
BridgeServer.v
Delivery.v
Scheduler.v
SchedulerThms.v
Memory.v
MemoryThms.v
Config.v
Mcp.v
McpThms.v
Models.v
Settings.v
SettingsThms.v
ChunkStream.v
ChunkThms.v
Subagent.v
SubagentThms.v
Skills.v
