(* ===== verification/Prelude.v ===== *)
(** * Nosis: verification library of the agent runtime

    Nosis runs conversations between a user, a language model and tools.  This
    library models the Python of src/agent_core, the turn runner, planes, host and
    settings of src/agent_runtime, and the bridge between the runtime process and
    its front ends (src/interfaces) as Rocq functions and proves what they rely on.

    ** The program and how its parts interact

    A [Session] (agent_core/session.py) is an append-only journal and the state
    that folding the journal gives.  The agent (agent.py) runs a turn: it asks
    the context manager (context_manager.py) for a request, which is built from
    the projection (projection.py) of the session's items, the plan (plan.py) and
    the running jobs; it calls the provider (llm.py), appends the answer, hands
    tool calls to the batch executor (tool_batch.py), which asks the tool set
    (tools/catalog.py) to route (execution/router.py), authorize (permissions.py,
    tools/policy.py, approval.py) and execute each call between hooks (hooks.py);
    background work goes to the job manager (jobs.py); the continuation policy
    (loop_policy.py) and the turn control (turn_control.py) decide when the turn
    ends while the user steers or cancels it from other threads.  The built-in
    tools read, write, edit and patch files of the workspace; a result that is too
    long is normalised (tool_result.py) to a summary and a file that is read page
    by page (tools/text.py).  The session store (session_store.py) keeps the
    journals on disk, the long-term memory (memory.py) keeps what is worth keeping
    over sessions, and the scheduler (scheduler.py) starts turns at their times from
    a file of its own.

    What an agent may use is configured: agent_config.json (config.py) names its
    tools, its roles of subagents (subagent.py) and the MCP servers (mcp/) whose
    tools join the catalog; provider_config.json (agent_runtime/config.py) routes
    agents and roles to models; role_tools.py resolves a role against the catalog;
    settings.py shows the configuration to interfaces and saves what they change.

    In the runtime process, a host (agent_runtime/host.py) owns the session, the
    execution plane (what a turn runs on) and the turn runner, and an adapter
    (interfaces/bridge/bridge.py) makes commands into operations of the host and
    what happens into numbered events.  The server (bridge/server.py) runs one
    adapter per channel behind standard input and output; in the front end,
    bridge_process.py sorts the output by channel, and session_host.py keeps the
    sessions that are open and the client that is attached to each.

    ** How the code is modelled

    Pure code is a function; fallible code returns [res A], a value or a Python
    exception (class and message).  Stateful code is a function of the state
    monad with exceptions [M S A], in which the state survives an exception, as
    a Python object does.  Dicts are association lists in insertion order
    ([PyData]), strings are strings of code points below 256 ([PyStr]), integers
    are [Z], floats their binary64 bits, datetimes microseconds since the first
    day of year 1 with an offset ([PyTime]).  What the process draws from outside
    (uuids, the clock, the outcome of a disk write, the provider, the answer of
    the user, the tools) are classes or arguments, indexed by a counter that each
    draw advances.  Threads: an operation under a lock is one atomic step, and
    theorems quantify over all interleavings of steps ([TurnControl], [Jobs],
    [ChunkStream], [Memory]),
    over the schedule of a batch ([ToolBatch]) or over what arrives between two
    accesses ([LoopPolicy], [Agent]).

    ** Files

    - Prelude: exceptions, [res], [M], notations, tactics, the hint database.
    - PyData, PyStr, PyText, Json, JsonText, PyTime: the part of Python's library
      the code uses (dicts and slices, strings, renderings such as json.dumps and
      repr, JSON values, json.loads, datetimes and time_utils.py).
    - Content, Plan, Authority, Message: content.py, usage.py, errors.py,
      tools/base.py; plan.py; execution/authority.py, execution/router.py and the
      presets of permissions.py; the message type of session.py with its codec.
    - Session (session.py, PlanManager), SessionProps (event sourcing),
      SessionState (well-formed states), Recovery, SessionThms (the claims).
    - Jsonl (the journal files of session_store.py, in bytes), SessionStore
      (session_store.py, session_paths.py, the initial title), SessionStoreThms.
    - Projection (projection.py), Llm (llm.py, auxiliary.py), ContextManager
      (context_manager.py), ContextThms.
    - TurnControl (turn_control.py), LoopPolicy (loop_policy.py).
    - Tools (tools/catalog.py, hooks.py), ToolBatch and ToolBatchThms
      (tool_batch.py), Jobs and JobThms (jobs.py).
    - Frames: the class [Stays] and the instances that say what the operations of
      a turn leave alone.  Agent and AgentThms (agent.py).
    - Patch and PatchThms (tools/builtin/apply_patch.py).
    - Permissions and PermissionThms (permissions.py, tools/policy.py,
      approval.py, the policy of agent_runtime/host.py).
    - ToolStream and ToolStreamThms (providers/tool_call_stream.py).
    - TextView and TextViewThms (tools/text.py, tools/budget.py, read_file.py),
      Normalizer and NormalizerThms (tool_result.py), FileTools and FileToolsThms
      (atomic.py, edit_file.py, write_file.py, tools/paths.py).
    - TurnRunner and TurnRunnerThms (agent_runtime/turn_runner.py), Runtime and
      RuntimeThms (session_controller.py, execution_plane.py, plane_manager.py,
      host.py: which resources are open).
    - Protocol (bridge/protocol.py, event_stream.py), SessionHost and
      SessionHostThms (session_host.py), Transport and TransportThms
      (bridge_process.py), Bridge and BridgeThms (bridge/bridge.py), BridgeServer
      (bridge/server.py), Delivery (the parts put together).
    - Scheduler and SchedulerThms (scheduler.py).
    - Memory and MemoryThms (memory.py).
    - Config (agent_core/config.py, tools/config.py, mcp/config.py), Mcp and McpThms
      (mcp/manager.py, mcp/tool.py, agent_runtime/role_tools.py).
    - Models (providers/reasoning.py, agent_runtime/config.py), Settings and
      SettingsThms (agent_runtime/settings.py).
    - ChunkStream and ChunkThms (the cancellable stream of providers/base.py).
    - Subagent and SubagentThms (subagent.py, tools/builtin/subagent.py), Skills
      (skills.py).

    ** What the theorems show

    Sessions: the live state is always the replay of the journal, a refused write
    changes nothing, replay gives well-formed states, recovery settles what a
    crash left open, turns are never taken over, messages survive their encoding.
    Context: the projection tiles the history and shows complete tool batches
    only, archiving is exact, makes progress and keeps the user's recent input,
    the compression threshold computed in binary64 lies in the window.
    Turns: steering is delivered exactly once, a turn stops only when it is
    quiet, the repetition guard counts runs, and (composing all parts) a turn is
    settled however it ends and its history holds the input, the answer and all
    accepted steering.  Tools: no body runs without admission, every started call
    of a batch is closed, jobs are delivered exactly once and cancellation makes
    progress; a submission the journal refuses is shown to block its turn for
    ever (a finding).  Permissions: the meet of authorities, routing within the
    authority, the approval gate on every branch.  Patches: a patch does what its
    hunks say and nothing else, an ambiguous hunk is refused, and a failed patch
    reports exactly what it has written.  Files: a journal file refines a list of
    events under appends and interruptions (simulation), a fork is the conversation
    before the edited turn.  Schedules: the next occurrence is the earliest one,
    polls move every due schedule forward, a schedule has one run at a time, the
    schedule file holds what was written to it.  Findings: a character cut in two
    makes a session unreadable, a line separator or an interrupted write makes the
    schedule file unreadable, the repeated hour of a time zone sends cron triggers
    back.  Streams: an indexed stream of tool call deltas is accepted exactly when
    its deltas agree and then gives what they say, whatever the batches.  Results
    and files: a view stays within its budget, a spilled result can be read back in
    full, a result is normalised with one cleanup on every path, an atomic write is
    the old file or the complete new one, an edit replaces one occurrence or
    nothing.  Runtime: accepted steering arrives, a turn releases the runner and
    settles the memory however it ends, the host holds exactly the resources that
    are in use.  Bridge: a question is answered only by a response to it or woken
    by the cancellation, a channel gets exactly its events however the bytes are
    cut, a session has one runtime, an attached client misses no event within the
    replay limit, and (composing these) the events an adapter publishes reach the
    clients in order.  Memory: a document that is written is read back, and the
    reconciliations of any number of managers amount to a sequence of them, each
    made against what the one before left.  Configuration: an MCP tool is offered and
    asks for approval as the file says, a role gets exactly the tools it selects,
    whatever order the catalog has; whatever is saved, every role can load its
    provider; what is shown can be saved without a change and contains no secret; the
    environment follows .env.  Providers: a stream that is read by a thread is handed
    over in order, completely and with its error at the end, and a cancellation does
    not wait for it.  Subagents: a child cannot delegate, and its progress does not
    contain its answer; the first of two skills of one name is registered.

    ** Fuel and bounds

    [Projection.project_go] takes the length of the history as fuel, which is
    proved to be enough.  [JsonText.read_value] takes twice the length of the
    text, enough for everything json.dumps writes ([loads_dumps]);
    [Jsonl.line_start] takes the position it starts from ([line_start_spec]); the
    search for a cron occurrence is bounded by the code itself (370 days of
    minutes).  The loops over the text of a file ([TextView.page_loop] and the like)
    and over the bytes of the pipe ([Transport.dispatch_buffered]) take one more
    than its length, which is proved to be enough.  The loops of a turn ([LoopPolicy.wait_for_jobs],
    [Agent.turn_loop], [Agent.wait_for_turn]) have no bound in the code: they take
    fuel, [None] is a turn that is still running, and the theorems about a turn
    that ended hold for every fuel.

    ** Not modelled

    The clients of model services and the conversion of messages for them, the
    connections and calls of the MCP client, the operating-system sandboxes and
    process execution, plugins and computer use, the other built-in tools, the web
    server and the mobile gateway: third-party protocols, operating-system calls and
    presentation around the
    core.  Of the session store, the search in message texts and the Windows file
    handle; of the bridge process, how it is started, awaited and killed.  File
    operations succeed or fail as a whole, except the append of a journal, which
    may be interrupted.  Characters above code point 255, the text of floats and
    the rules of time zones other than UTC are left to parameters. *)

From stdpp Require Import base list strings pretty.
From Stdlib Require Import ZArith Lia Ascii.
From Stdlib Require String.

#[global] Set Default Goal Selector "!".
#[global] Open Scope string_scope.
#[global] Open Scope list_scope.
#[global] Open Scope Z_scope.

(** ** Exceptions

    A Python exception is its class and its message. [EUntyped] is no Python
    class: the model returns it when a stored JSON value has not the annotated
    type in a place where the source does not check it. *)

Inductive exc_class :=
| EValueError
| EKeyError
| EOverflow
| ETypeError
| EIndexError
| EStopIteration
| EPermissionError
| ERuntimeError
| EOSError
| EFileNotFound
| EFileExists
| ENotADirectory
| EIsADirectory
| EJSONDecode
| EProtocol
| ESessionInUse
| ESessionRunning
| EUnicodeDecode
| EBlockingIO
| EAssertion
| EToolExecution
| EToolCallLimitExceeded
| EContextWindowExceeded
| EProviderProtocol
| EProviderRequest
| EProviderStream
| EHookExecution
| EHookRejected
| EAgentCancelled
| EKeyboardInterrupt
| EJobCancelled
| ESystemExit
| EUntyped.

#[export] Instance exc_class_eq_dec : EqDecision exc_class.
Proof. solve_decision. Defined.

Record exn := Exn { exn_class : exc_class; exn_msg : string }.

#[export] Instance exn_eq_dec : EqDecision exn.
Proof. solve_decision. Defined.

(** [isinstance(e, Exception)]: the classes that derive from [BaseException]
    directly are not caught by [except Exception]. *)
Definition is_exception (e : exn) : bool :=
  match exn_class e with
  | EAgentCancelled | EKeyboardInterrupt | EJobCancelled | ESystemExit => false
  | _ => true
  end.

Definition is_class (c : exc_class) (e : exn) : bool := bool_decide (exn_class e = c).

(** ** Results of fallible pure code *)

Inductive res (A : Type) :=
| Ok (a : A)
| Err (e : exn).
Arguments Ok {A} _.
Arguments Err {A} _.

#[export] Instance res_eq_dec {A} `{EqDecision A} : EqDecision (res A).
Proof. solve_decision. Defined.

Definition res_bind {A B} (c : res A) (k : A -> res B) : res B :=
  match c with
  | Ok a => k a
  | Err e => Err e
  end.

Definition raise {A} (c : exc_class) (m : string) : res A := Err (Exn c m).
Definition value_error {A} (m : string) : res A := raise EValueError m.
Definition key_error {A} (m : string) : res A := raise EKeyError m.
Definition untyped {A} (m : string) : res A := raise EUntyped m.

Definition is_ok {A} (r : res A) : bool := match r with Ok _ => true | Err _ => false end.

Declare Scope py_scope.
Delimit Scope py_scope with py.
Notation "x <~ c ;; k" := (res_bind c (fun x => k))
  (at level 100, c at next level, right associativity) : py_scope.
#[global] Open Scope py_scope.

Lemma res_bind_ok {A B} (c : res A) (k : A -> res B) b :
  res_bind c k = Ok b <-> exists a, c = Ok a /\ k a = Ok b.
Proof.
  destruct c as [a|e]; simpl; [|split; [discriminate|intros (?&?&?); discriminate]].
  split; [eauto|]. intros (?&[= <-]&?); done.
Qed.

Lemma res_bind_assoc {A B C} (c : res A) (f : A -> res B) (g : B -> res C) :
  res_bind (res_bind c f) g = res_bind c (fun a => res_bind (f a) g).
Proof. by destruct c. Qed.

Fixpoint res_map {A B} (f : A -> res B) (l : list A) : res (list B) :=
  match l with
  | [] => Ok []
  | x :: l' => y <~ f x ;; ys <~ res_map f l' ;; Ok (y :: ys)
  end.

Fixpoint res_fold {A S} (f : S -> A -> res S) (s : S) (l : list A) : res S :=
  match l with
  | [] => Ok s
  | x :: l' => s' <~ f s x ;; res_fold f s' l'
  end.

Lemma res_fold_app {A S} (f : S -> A -> res S) l1 l2 s :
  res_fold f s (l1 ++ l2) = res_bind (res_fold f s l1) (fun s' => res_fold f s' l2).
Proof.
  revert s; induction l1 as [|x l1 IH]; intros s; simpl; [done|].
  destruct (f s x); simpl; [apply IH|done].
Qed.

Lemma res_fold_snoc {A S} (f : S -> A -> res S) l x s s1 s2 :
  res_fold f s l = Ok s1 -> f s1 x = Ok s2 -> res_fold f s (l ++ [x]) = Ok s2.
Proof. intros H1 H2. rewrite res_fold_app, H1; simpl. by rewrite H2. Qed.

Lemma res_map_ok {A B} (f : A -> res B) (g : A -> B) l :
  Forall (fun x => f x = Ok (g x)) l -> res_map f l = Ok (map g l).
Proof. induction 1 as [|x l Hx _ IH]; simpl; [done|]. by rewrite Hx, IH. Qed.

Lemma res_map_Forall2 {A B} (f : A -> res B) l l' : res_map f l = Ok l' -> Forall2 (fun x y => f x = Ok y) l l'.
Proof.
  revert l'. induction l as [|x l IH]; intros l'; cbn [res_map]; [intros [= <-]; constructor|]. destruct (f x) as [y|] eqn:E; [|done]. cbn [res_bind].
  destruct (res_map f l) as [ys|]; [|done]. intros [= <-]. constructor; [done|by apply IH].
Qed.

Lemma elem_of_filter_bool {A} (f : A -> bool) l x : x ∈ List.filter f l <-> x ∈ l /\ f x = true.
Proof. by rewrite !list_elem_of_In, filter_In. Qed.

Lemma filter_sublist {A} (p : A -> bool) l : List.filter p l `sublist_of` l.
Proof. induction l as [|x l IH]; simpl; [done|]. destruct (p x); by constructor. Qed.

(** ** Stateful code that may raise

    Python keeps the mutations made before an exception, so an action returns
    the state in both cases. *)

Definition M (S A : Type) : Type := S -> S * res A.

Definition ret {S A} (a : A) : M S A := fun s => (s, Ok a).
Definition fail {S A} (e : exn) : M S A := fun s => (s, Err e).
Definition bind {S A B} (c : M S A) (k : A -> M S B) : M S B :=
  fun s => match c s with
           | (s', Ok a) => k a s'
           | (s', Err e) => (s', Err e)
           end.
Definition get {S} : M S S := fun s => (s, Ok s).
Definition modify {S} (f : S -> S) : M S unit := fun s => (f s, Ok tt).
Definition lift {S A} (r : res A) : M S A := fun s => (s, r).

(** [try: c except BaseException as e: h(e)] *)
Definition catch {S A} (c : M S A) (h : exn -> M S A) : M S A :=
  fun s => match c s with
           | (s', Ok a) => (s', Ok a)
           | (s', Err e) => h e s'
           end.

(** [try: c finally: f]: an exception of [f] replaces the outcome of [c]. *)
Definition finally {S A} (c : M S A) (f : M S unit) : M S A :=
  fun s => match c s with
           | (s', r) => match f s' with
                        | (s'', Ok _) => (s'', r)
                        | (s'', Err e) => (s'', Err e)
                        end
           end.

Notation "x <- c ;; k" := (bind c (fun x => k))
  (at level 100, c at next level, right associativity) : py_scope.
Notation "c ;;; k" := (bind c (fun _ => k))
  (at level 100, right associativity) : py_scope.

Fixpoint for_each {S A} (f : A -> M S unit) (l : list A) : M S unit :=
  match l with
  | [] => ret tt
  | x :: l' => f x ;;; for_each f l'
  end.

(** [preserves P c]: whatever [c] returns, it keeps the state invariant. *)
Definition preserves {S A} (P : S -> Prop) (c : M S A) : Prop :=
  forall s, P s -> P (fst (c s)).

Lemma preserves_ret {S A} (P : S -> Prop) (a : A) : preserves P (ret a).
Proof. by intros s Hs. Qed.

Lemma preserves_fail {S A} (P : S -> Prop) e : preserves P (@fail S A e).
Proof. by intros s Hs. Qed.

Lemma preserves_lift {S A} (P : S -> Prop) (r : res A) : preserves P (lift r).
Proof. by intros s Hs. Qed.

Lemma preserves_get {S} (P : S -> Prop) : preserves P get.
Proof. by intros s Hs. Qed.

Lemma preserves_bind {S A B} (P : S -> Prop) (c : M S A) (k : A -> M S B) :
  preserves P c -> (forall a, preserves P (k a)) -> preserves P (bind c k).
Proof.
  intros Hc Hk s Hs. unfold bind. specialize (Hc s Hs).
  destruct (c s) as [s' [a|e]]; simpl in *; [by apply Hk|done].
Qed.

Lemma preserves_modify {S} (P : S -> Prop) f : (forall s, P s -> P (f s)) -> preserves P (modify f).
Proof. intros H s Hs. by apply H. Qed.

Lemma preserves_catch {S A} (P : S -> Prop) (c : M S A) h :
  preserves P c -> (forall e, preserves P (h e)) -> preserves P (catch c h).
Proof.
  intros Hc Hh s Hs. unfold catch. specialize (Hc s Hs).
  destruct (c s) as [s' [a|e]]; simpl in *; [done|by apply Hh].
Qed.

Lemma preserves_finally {S A} (P : S -> Prop) (c : M S A) f :
  preserves P c -> preserves P f -> preserves P (finally c f).
Proof.
  intros Hc Hf s Hs. unfold finally. specialize (Hc s Hs).
  destruct (c s) as [s' r]; simpl in *. specialize (Hf s' Hc).
  by destruct (f s') as [s'' [?|?]].
Qed.

Lemma preserves_for_each {S A} (P : S -> Prop) (f : A -> M S unit) l :
  (forall x, preserves P (f x)) -> preserves P (for_each f l).
Proof.
  intros Hf. induction l; simpl; [apply preserves_ret|].
  apply preserves_bind; auto.
Qed.

Create HintDb nosis.
#[export] Hint Resolve preserves_ret preserves_fail preserves_lift preserves_get
  preserves_bind preserves_modify preserves_catch preserves_finally preserves_for_each : nosis.

(** ** Tactics *)

(** [lia] with the quotients and remainders of the context expanded. *)
Ltac zdiv := Z.div_mod_to_equations; lia.

(** Take an action apart, down to the state changes that an invariant must survive. *)
Ltac preserve_steps :=
  repeat lazymatch goal with
  | |- preserves _ (bind _ _) => apply preserves_bind; [|intros ?]
  | |- preserves _ (ret _) => apply preserves_ret
  | |- preserves _ (fail _) => apply preserves_fail
  | |- preserves _ (lift _) => apply preserves_lift
  | |- preserves _ get => apply preserves_get
  | |- preserves _ (modify _) => apply preserves_modify; intros ? ?
  | |- preserves _ (match ?x with _ => _ end) => destruct x
  end.

(** Split every boolean conjunction, disjunction and comparison of the context. *)
Ltac bsimp :=
  repeat match goal with
  | H : _ && _ = true |- _ => apply andb_true_iff in H as [? ?]
  | H : _ || _ = false |- _ => apply orb_false_iff in H as [? ?]
  | H : negb _ = true |- _ => apply negb_true_iff in H
  | H : negb _ = false |- _ => apply negb_false_iff in H
  | H : (_ =? _)%Z = true |- _ => apply Z.eqb_eq in H
  | H : (_ =? _)%Z = false |- _ => apply Z.eqb_neq in H
  | H : (_ <=? _)%Z = true |- _ => apply Z.leb_le in H
  | H : (_ <=? _)%Z = false |- _ => apply Z.leb_gt in H
  | H : (_ <? _)%Z = true |- _ => apply Z.ltb_lt in H
  | H : (_ <? _)%Z = false |- _ => apply Z.ltb_ge in H
  | H : String.eqb _ _ = true |- _ => apply String.eqb_eq in H
  | H : String.eqb _ _ = false |- _ => apply String.eqb_neq in H
  | H : bool_decide _ = true |- _ => apply bool_decide_eq_true in H
  | H : bool_decide _ = false |- _ => apply bool_decide_eq_false in H
  end.

(** Open the successful steps of a [res] computation in the context. *)
Ltac inv_ok :=
  repeat match goal with
  | H : res_bind _ _ = Ok _ |- _ => apply res_bind_ok in H as (? & ? & ?)
  | H : Ok _ = Ok _ |- _ => injection H as H; try subst
  | H : Err _ = Ok _ |- _ => discriminate H
  | H : raise _ _ = Ok _ |- _ => discriminate H
  | H : value_error _ = Ok _ |- _ => discriminate H
  | H : key_error _ = Ok _ |- _ => discriminate H
  | H : untyped _ = Ok _ |- _ => discriminate H
  end.
