(* ===== verification/PyData.v ===== *)
(** * Python containers used by the sources

    [odict V]: a [dict] with string keys, in insertion order, as an
    association list.  Assigning an existing key keeps its position, [pop]
    removes it, iteration follows the list.  [slice], [slice_from]: list
    slicing with Python's treatment of negative and out-of-range bounds. *)

From stdpp Require Import base sets list strings.
From Stdlib Require Import ZArith Lia.
From S2P Require Import Prelude.

#[local] Open Scope Z_scope.

(** ** Ordered dictionaries *)

Section odict.
Context {V : Type}.
Implicit Types (d : list (string * V)) (k : string) (v : V).

Fixpoint dget k d : option V :=
  match d with
  | [] => None
  | (k', v) :: d' => if String.eqb k k' then Some v else dget k d'
  end.

Fixpoint dset k v d : list (string * V) :=
  match d with
  | [] => [(k, v)]
  | (k', v') :: d' => if String.eqb k k' then (k', v) :: d' else (k', v') :: dset k v d'
  end.

Fixpoint dpop k d : list (string * V) :=
  match d with
  | [] => []
  | (k', v') :: d' => if String.eqb k k' then d' else (k', v') :: dpop k d'
  end.

Definition dhas k d : bool := match dget k d with Some _ => true | None => false end.
Definition dkeys d : list string := map fst d.
Definition dvalues d : list V := map snd d.

Lemma dget_dset_eq k v d : dget k (dset k v d) = Some v.
Proof.
  induction d as [|[k' v'] d IH]; simpl; [by rewrite String.eqb_refl|].
  destruct (String.eqb k k') eqn:E; simpl; by rewrite E.
Qed.

Lemma dget_dset_ne k k' v d : k <> k' -> dget k' (dset k v d) = dget k' d.
Proof.
  intros Hne. induction d as [|[k1 v1] d IH]; simpl.
  - destruct (String.eqb_spec k' k); congruence.
  - destruct (String.eqb_spec k k1) as [->|]; simpl; [|by rewrite IH].
    destruct (String.eqb_spec k' k1); congruence.
Qed.

Lemma dget_dset k k' v d :
  dget k' (dset k v d) = if decide (k = k') then Some v else dget k' d.
Proof. case_decide; [subst; apply dget_dset_eq|by apply dget_dset_ne]. Qed.

Lemma dkeys_dset k v d : dkeys (dset k v d) = if dhas k d then dkeys d else dkeys d ++ [k].
Proof.
  unfold dkeys, dhas. induction d as [|[k1 v1] d IH]; simpl; [done|].
  destruct (String.eqb_spec k k1); simpl; [done|]. rewrite IH. by destruct (dget k d).
Qed.

Lemma dget_Some_in k v d : dget k d = Some v -> (k, v) ∈ d.
Proof.
  induction d as [|[k1 v1] d IH]; simpl; [done|].
  destruct (String.eqb_spec k k1) as [->|]; intros; simplify_eq; rewrite elem_of_cons; auto.
Qed.

Lemma dget_None_not_in k d : dget k d = None <-> k ∉ dkeys d.
Proof.
  unfold dkeys. induction d as [|[k1 v1] d IH]; simpl.
  - split; [intros _; apply not_elem_of_nil|done].
  - destruct (String.eqb_spec k k1) as [->|Hne]; rewrite not_elem_of_cons; naive_solver.
Qed.

Lemma dget_in_NoDup k v d : NoDup (dkeys d) -> (k, v) ∈ d -> dget k d = Some v.
Proof.
  unfold dkeys. induction d as [|[k1 v1] d IH]; simpl; [by intros _ ?%not_elem_of_nil|].
  rewrite NoDup_cons. intros [Hn Hd] [Heq|Hin]%elem_of_cons.
  - simplify_eq. by rewrite String.eqb_refl.
  - destruct (String.eqb_spec k k1) as [->|]; [|by apply IH].
    exfalso. apply Hn. apply list_elem_of_fmap. by exists (k1, v).
Qed.

Lemma dset_NoDup k v d : NoDup (dkeys d) -> NoDup (dkeys (dset k v d)).
Proof.
  intros Hd. rewrite dkeys_dset. unfold dhas. destruct (dget k d) eqn:E; [done|].
  apply NoDup_app. split; [done|]. split; [|apply NoDup_singleton].
  intros x Hx ->%list_elem_of_singleton. by apply dget_None_not_in in E.
Qed.

Lemma dset_fresh k v d : dget k d = None -> dset k v d = d ++ [(k, v)].
Proof.
  induction d as [|[k1 v1] d IH]; simpl; [done|].
  destruct (String.eqb k k1); intros; [done|]. by rewrite IH.
Qed.

Lemma dset_in k v d x : x ∈ dset k v d -> x = (k, v) \/ x ∈ d.
Proof.
  induction d as [|[k1 v1] d IH]; simpl; [rewrite list_elem_of_singleton; auto|].
  destruct (String.eqb_spec k k1) as [->|]; rewrite !elem_of_cons; naive_solver.
Qed.

Lemma dget_dpop_ne k k' d : k <> k' -> dget k' (dpop k d) = dget k' d.
Proof.
  intros Hne. induction d as [|[k1 v1] d IH]; simpl; [done|].
  destruct (String.eqb_spec k k1) as [->|]; simpl.
  - destruct (String.eqb_spec k' k1); congruence.
  - by rewrite IH.
Qed.

Lemma dpop_sublist k d : dpop k d `sublist_of` d.
Proof.
  induction d as [|[k1 v1] d IH]; simpl; [done|].
  destruct (String.eqb k k1); [by apply sublist_cons|by apply sublist_skip].
Qed.

Lemma dpop_NoDup k d : NoDup (dkeys d) -> NoDup (dkeys (dpop k d)).
Proof.
  intros Hd. apply (sublist_NoDup _ (dkeys d)); [done|].
  apply fmap_sublist, dpop_sublist.
Qed.

Lemma dget_dpop_eq k d : NoDup (dkeys d) -> dget k (dpop k d) = None.
Proof.
  unfold dkeys. induction d as [|[k1 v1] d IH]; simpl; [done|].
  rewrite NoDup_cons. intros [Hn Hd].
  destruct (String.eqb_spec k k1) as [->|Hne]; simpl.
  - by apply dget_None_not_in.
  - destruct (String.eqb_spec k k1); [done|]. by apply IH.
Qed.

Lemma dpop_in k d x : x ∈ dpop k d -> x ∈ d.
Proof.
  induction d as [|[k1 v1] d IH]; simpl; [done|].
  destruct (String.eqb k k1); rewrite !elem_of_cons; [by right|].
  intros [->|?]; auto.
Qed.

Lemma Forall_dset (P : string * V -> Prop) k v d :
  Forall P d -> P (k, v) -> Forall P (dset k v d).
Proof.
  rewrite !Forall_forall. intros Hd Hk x [->|Hx]%dset_in; auto.
Qed.

Lemma Forall_dpop (P : string * V -> Prop) k d : Forall P d -> Forall P (dpop k d).
Proof. rewrite !Forall_forall. intros Hd x Hx%dpop_in; auto. Qed.
End odict.

#[export] Hint Resolve dset_NoDup dpop_NoDup : nosis.

(** ** Slices *)

Section slices.
Context {A : Type}.
Implicit Types l : list A.

Definition zlen l : Z := Z.of_nat (length l).

(** A slice bound [i] of a sequence of length [n], clipped to [0, n]. *)
Definition slice_bound (n i : Z) : Z := Z.max 0 (Z.min n (if i <? 0 then i + n else i)).

Definition slice (i j : Z) l : list A :=
  let n := zlen l in
  let i := slice_bound n i in
  let j := slice_bound n j in
  take (Z.to_nat (j - i)) (drop (Z.to_nat i) l).

Definition slice_from (i : Z) l : list A := slice i (zlen l) l.
Definition slice_to (j : Z) l : list A := slice 0 j l.

(** [l[i]], [None] standing for [IndexError]. *)
Definition index (i : Z) l : option A :=
  let i := if i <? 0 then i + zlen l else i in
  if i <? 0 then None else l !! Z.to_nat i.

Lemma zlen_nonneg l : 0 <= zlen l.
Proof. unfold zlen. lia. Qed.

Lemma slice_bound_nat (n i : nat) :
  slice_bound (Z.of_nat n) (Z.of_nat i) = Z.of_nat (Nat.min i n).
Proof. unfold slice_bound. rewrite (proj2 (Z.ltb_ge _ _)) by lia. lia. Qed.

Lemma slice_nat (i j : nat) l :
  (j <= length l)%nat -> slice (Z.of_nat i) (Z.of_nat j) l = take (j - i) (drop i l).
Proof.
  intros Hj. unfold slice, zlen. rewrite !slice_bound_nat, Nat2Z.id.
  destruct (decide (i <= length l)%nat).
  - f_equal; [lia|]. f_equal. lia.
  - rewrite !drop_ge by lia. by rewrite !take_nil.
Qed.

Lemma slice_from_nat (i : nat) l : slice_from (Z.of_nat i) l = drop i l.
Proof.
  unfold slice_from, zlen. rewrite slice_nat by lia.
  apply take_ge. rewrite length_drop. lia.
Qed.

Lemma slice_to_nat (j : nat) l : (j <= length l)%nat -> slice_to (Z.of_nat j) l = take j l.
Proof.
  intros Hj. unfold slice_to. change 0 with (Z.of_nat 0). rewrite slice_nat by done.
  by rewrite drop_0, Nat.sub_0_r.
Qed.

Lemma slice_to_from (i : nat) l :
  (i <= length l)%nat -> slice_to (Z.of_nat i) l ++ slice_from (Z.of_nat i) l = l.
Proof. intros. rewrite slice_to_nat, slice_from_nat by done. apply take_drop. Qed.

Lemma index_nat (i : nat) l : index (Z.of_nat i) l = l !! i.
Proof.
  unfold index. destruct (Z.ltb_spec (Z.of_nat i) 0); [lia|].
  rewrite (proj2 (Z.ltb_ge _ _)) by lia. by rewrite Nat2Z.id.
Qed.
End slices.

Lemma last_snoc_eq {A} (l : list A) (x : A) : last (l ++ [x]) = Some x.
Proof. by rewrite last_snoc. Qed.
