(* ===== verification/PyStr.v ===== *)
(** * Python strings

    A [str] is a [string] of the Standard Library: a sequence of the code points
    0 to 255.  The [str] methods the sources call are defined on it with
    Python's behaviour for those code points (white space and line boundaries
    of Latin-1 included). *)

From stdpp Require Import base list strings.
From Stdlib Require Import ZArith Lia Ascii.
From Stdlib Require String.
Import String.StringSyntax.
From S2P Require Import Prelude PyData.

#[local] Open Scope string_scope.
#[local] Open Scope list_scope.
#[local] Open Scope bool_scope.
#[local] Open Scope Z_scope.

#[global] Arguments String.append : simpl nomatch.

Definition scode (c : ascii) : Z := Z.of_nat (nat_of_ascii c).

(** ** Empty strings, prefixes, slices *)

Definition nonempty (s : string) : bool := match s with "" => false | String _ _ => true end.

Definition slen (s : string) : Z := Z.of_nat (String.length s).

Fixpoint sdrop (n : nat) (s : string) : string :=
  match n, s with
  | O, _ => s
  | S n', String _ s' => sdrop n' s'
  | S _, "" => ""
  end.

Fixpoint stake (n : nat) (s : string) : string :=
  match n, s with
  | O, _ => ""
  | S n', String c s' => String c (stake n' s')
  | S _, "" => ""
  end.

Fixpoint startswith (p s : string) : bool :=
  match p, s with
  | "", _ => true
  | String a p', String b s' => Ascii.eqb a b && startswith p' s'
  | String _ _, "" => false
  end.

Fixpoint endswith_char (c : ascii) (s : string) : bool :=
  match s with
  | "" => false
  | String a "" => Ascii.eqb a c
  | String _ s' => endswith_char c s'
  end.

Fixpoint has_char (c : ascii) (s : string) : bool :=
  match s with
  | "" => false
  | String a s' => Ascii.eqb a c || has_char c s'
  end.

(** ** Stripping *)

(** [str.isspace] on one character. *)
Definition is_space (c : ascii) : bool :=
  let z := scode c in
  ((9 <=? z) && (z <=? 13)) || ((28 <=? z) && (z <=? 32)) || (z =? 133) || (z =? 160).

Fixpoint lstrip_by (p : ascii -> bool) (s : string) : string :=
  match s with
  | "" => ""
  | String c s' => if p c then lstrip_by p s' else s
  end.

Fixpoint rstrip_by (p : ascii -> bool) (s : string) : string :=
  match s with
  | "" => ""
  | String c s' =>
      match rstrip_by p s' with
      | "" => if p c then "" else String c ""
      | r => String c r
      end
  end.

Definition strip_by (p : ascii -> bool) (s : string) : string := rstrip_by p (lstrip_by p s).
Definition strip (s : string) : string := strip_by is_space s.
Definition one_of (cs : list ascii) (c : ascii) : bool := existsb (Ascii.eqb c) cs.

(** ** Splitting and joining *)

Definition CR : ascii := "013"%char.
Definition LF : ascii := "010"%char.
Definition NL : string := String LF "".
Definition SPC : ascii := " "%char.
Definition TAB : ascii := "009"%char.

(** [s.split(c)] for a one-character separator: never empty. *)
Fixpoint split_char (c : ascii) (s : string) : list string :=
  match s with
  | "" => [""]
  | String a s' =>
      if Ascii.eqb a c then "" :: split_char c s'
      else match split_char c s' with
           | w :: ws => String a w :: ws
           | [] => [String a ""]
           end
  end.

Definition sjoin (sep : string) (l : list string) : string := String.concat sep l.

(** [s.split()]: maximal runs of non-space characters. *)
Fixpoint split_ws_go (cur : string) (s : string) : list string :=
  match s with
  | "" => if nonempty cur then [cur] else []
  | String a s' =>
      if is_space a then (if nonempty cur then cur :: split_ws_go "" s' else split_ws_go "" s')
      else split_ws_go (cur +:+ String a "") s'
  end.
Definition split_ws (s : string) : list string := split_ws_go "" s.

(** Line boundaries of [str.splitlines] below code point 256. *)
Definition is_line_boundary (c : ascii) : bool :=
  let z := scode c in
  ((10 <=? z) && (z <=? 13)) || ((28 <=? z) && (z <=? 30)) || (z =? 133).

(** [s.splitlines()]; [pending] says whether a line is open. *)
Fixpoint splitlines_go (cur : string) (pending : bool) (s : string) : list string :=
  match s with
  | "" => if pending then [cur] else []
  | String a s' =>
      if is_line_boundary a then
        match s' with
        | String b s'' =>
            if Ascii.eqb a CR && Ascii.eqb b LF then cur :: splitlines_go "" false s''
            else cur :: splitlines_go "" false s'
        | "" => [cur]
        end
      else splitlines_go (cur +:+ String a "") true s'
  end.
Definition splitlines (s : string) : list string := splitlines_go "" false s.

(** ** Lemmas *)

Lemma sapp_assoc (a b c : string) : (a +:+ b) +:+ c = a +:+ (b +:+ c).
Proof. induction a as [|x a IH]; simpl in *; congruence. Qed.

Lemma sapp_nil_r (a : string) : a +:+ "" = a.
Proof. induction a as [|x a IH]; simpl in *; congruence. Qed.

Lemma startswith_app p s : startswith p (p +:+ s) = true.
Proof. induction p as [|x p IH]; simpl; [done|]. by rewrite Ascii.eqb_refl, IH. Qed.

Lemma startswith_sdrop p s :
  startswith p s = true -> s = p +:+ sdrop (String.length p) s.
Proof.
  revert s; induction p as [|x p IH]; intros [|y s]; simpl; try done.
  intros [->%Ascii.eqb_eq H]%andb_true_iff. f_equal. by apply IH.
Qed.

Lemma sdrop_app p s : sdrop (String.length p) (p +:+ s) = s.
Proof. by induction p. Qed.

Lemma nonempty_true s : nonempty s = true <-> s <> "".
Proof. destruct s; simpl; naive_solver. Qed.

Lemma nonempty_false s : nonempty s = false <-> s = "".
Proof. destruct s; simpl; naive_solver. Qed.

Lemma slen_nonneg s : 0 <= slen s.
Proof. unfold slen. lia. Qed.

Lemma slen_app a b : slen (a +:+ b) = slen a + slen b.
Proof.
  unfold slen. induction a as [|x a IH]; [done|]. simpl in *. lia.
Qed.

Lemma slen_stake n s : (String.length (stake n s) <= n)%nat.
Proof.
  revert s; induction n as [|n IH]; intros [|c s]; simpl; [lia..|].
  specialize (IH s). lia.
Qed.

(** A character the predicate rejects stops the stripping on either side. *)
Lemma rstrip_by_cons p c s : p c = false -> exists r, rstrip_by p (String c s) = String c r.
Proof. intros Hc. simpl. destruct (rstrip_by p s); [rewrite Hc|]; eauto. Qed.

Lemma lstrip_by_spec p s : lstrip_by p s = "" \/ exists c s', lstrip_by p s = String c s' /\ p c = false.
Proof.
  induction s as [|c s IH]; simpl; [by left|].
  destruct (p c) eqn:E; [done|right; eauto].
Qed.

Lemma rstrip_by_idem p s : rstrip_by p (rstrip_by p s) = rstrip_by p s.
Proof.
  induction s as [|c s IH]; simpl; [done|].
  destruct (rstrip_by p s) as [|c' r] eqn:E.
  - destruct (p c) eqn:Hc; simpl; [done|]. by rewrite Hc.
  - remember (String c' r) as t. simpl. rewrite IH. by subst t.
Qed.

Lemma strip_by_idem p s : strip_by p (strip_by p s) = strip_by p s.
Proof.
  unfold strip_by. destruct (lstrip_by_spec p s) as [->|(c&s'&->&Hc)]; [done|].
  destruct (rstrip_by_cons p c s' Hc) as [r Hr]. rewrite Hr. simpl lstrip_by. rewrite Hc.
  rewrite <-Hr. apply rstrip_by_idem.
Qed.

Lemma strip_idem s : strip (strip s) = strip s.
Proof. apply strip_by_idem. Qed.

Lemma rstrip_by_length p s : (String.length (rstrip_by p s) <= String.length s)%nat.
Proof.
  induction s as [|c s IH]; simpl; [lia|].
  destruct (rstrip_by p s); [destruct (p c)|]; simpl in *; lia.
Qed.

Lemma lstrip_by_length p s : (String.length (lstrip_by p s) <= String.length s)%nat.
Proof. induction s as [|c s IH]; simpl; [lia|]. destruct (p c); simpl; lia. Qed.

Lemma strip_length s : (String.length (strip s) <= String.length s)%nat.
Proof.
  unfold strip, strip_by. pose proof (rstrip_by_length is_space (lstrip_by is_space s)).
  pose proof (lstrip_by_length is_space s). lia.
Qed.

Lemma split_char_nonnil c s : split_char c s <> [].
Proof. destruct s as [|a s]; simpl; [done|]. destruct (Ascii.eqb a c); [done|]. by destruct (split_char c s). Qed.

Lemma sjoin_cons sep w ws : ws <> [] -> sjoin sep (w :: ws) = w +:+ sep +:+ sjoin sep ws.
Proof. by destruct ws. Qed.

(** Splitting on a character and joining with it gives the text back. *)
Lemma sjoin_split_char c s : sjoin (String c "") (split_char c s) = s.
Proof.
  induction s as [|a s IH]; simpl; [done|].
  pose proof (split_char_nonnil c s) as Hn.
  destruct (Ascii.eqb_spec a c) as [->|Hne].
  - rewrite sjoin_cons by done. by rewrite IH.
  - destruct (split_char c s) as [|w ws]; [done|].
    transitivity (String a (sjoin (String c "") (w :: ws))); [by destruct ws|by rewrite IH].
Qed.

Lemma has_char_app c a b : has_char c (a +:+ b) = has_char c a || has_char c b.
Proof.
  induction a as [|x a IH]; [done|]. simpl in *. rewrite IH. by rewrite orb_assoc.
Qed.

Lemma split_char_app_sep c w s :
  has_char c w = false -> split_char c (w +:+ String c s) = w :: split_char c s.
Proof.
  induction w as [|a w IH]; simpl; [by rewrite Ascii.eqb_refl|].
  intros [Ha Hw]%orb_false_iff. by rewrite Ha, IH.
Qed.

Lemma split_char_no_sep c w : has_char c w = false -> split_char c w = [w].
Proof.
  induction w as [|a w IH]; simpl; [done|].
  intros [Ha Hw]%orb_false_iff. by rewrite Ha, IH.
Qed.

(** Joining separator-free pieces and splitting gives the pieces back. *)
Lemma split_char_sjoin c ws :
  ws <> [] -> Forall (fun w => has_char c w = false) ws ->
  split_char c (sjoin (String c "") ws) = ws.
Proof.
  intros Hn H. induction H as [|w ws Hw Hws IH]; [done|].
  destruct ws as [|w' ws]; [by apply split_char_no_sep|].
  transitivity (split_char c (w +:+ String c (sjoin (String c "") (w' :: ws)))); [done|].
  rewrite split_char_app_sep by done. f_equal. by apply IH.
Qed.

Lemma string_eqb_neq (a b : string) : String.eqb a b = false <-> a <> b.
Proof. destruct (String.eqb_spec a b); naive_solver. Qed.

(** ** Lines *)

Fixpoint one_line (s : string) : bool := match s with "" => true | String c s' => negb (is_line_boundary c) && one_line s' end.

Lemma one_line_app a b : one_line (a +:+ b) = one_line a && one_line b.
Proof. induction a as [|c a IH]; [done|]. cbn [String.append one_line]. by rewrite IH, andb_assoc. Qed.

Lemma splitlines_line l : forall cur pending b rest, one_line l = true -> is_line_boundary b = true -> Ascii.eqb b CR = false ->
  splitlines_go cur pending (l +:+ String b rest) = (cur +:+ l) :: splitlines_go "" false rest.
Proof.
  induction l as [|c l IH]; intros cur pending b rest.
  - intros _ Hb Hcr. cbn [String.append splitlines_go]. rewrite Hb, sapp_nil_r. destruct rest; [done|]. by rewrite Hcr.
  - cbn [one_line]. intros [Hc%negb_true_iff Hl]%andb_true_iff Hb Hcr. cbn [String.append splitlines_go]. rewrite Hc, IH by done.
    by rewrite sapp_assoc.
Qed.
