(* ===== verification/Json.v ===== *)
(** * JSON values

    [JSONValue] of tools/base.py: the values [json.loads] can return.  An
    object keeps its keys in insertion order.  A float is its IEEE 754 binary64
    bit pattern: the sources only store floats in JSON and read them back. *)

From stdpp Require Import base list strings.
From Stdlib Require Import ZArith Lia.
From S2P Require Import Prelude PyData PyStr.

Inductive json :=
| JNull
| JBool (b : bool)
| JInt (z : Z)
| JFloat (bits : Z)
| JStr (s : string)
| JArr (l : list json)
| JObj (d : list (string * json)).

(** The float [0.0]. *)
Definition jzero : json := JFloat 0.

Section json_ind.
Variable P : json -> Prop.
Hypothesis Hnull : P JNull.
Hypothesis Hbool : forall b, P (JBool b).
Hypothesis Hint : forall z, P (JInt z).
Hypothesis Hfloat : forall z, P (JFloat z).
Hypothesis Hstr : forall s, P (JStr s).
Hypothesis Harr : forall l, Forall P l -> P (JArr l).
Hypothesis Hobj : forall d, Forall (fun kv => P (snd kv)) d -> P (JObj d).

Fixpoint json_ind' (j : json) : P j :=
  match j with
  | JNull => Hnull
  | JBool b => Hbool b
  | JInt z => Hint z
  | JFloat z => Hfloat z
  | JStr s => Hstr s
  | JArr l =>
      Harr l ((fix go l := match l return Forall P l with
                           | [] => Forall_nil_2 P
                           | x :: l' => Forall_cons_2 P x l' (json_ind' x) (go l')
                           end) l)
  | JObj d =>
      Hobj d ((fix go d := match d return Forall (fun kv => P (snd kv)) d with
                           | [] => Forall_nil_2 _
                           | kv :: d' => Forall_cons_2 (fun kv => P (snd kv)) kv d'
                                           (json_ind' (snd kv)) (go d')
                           end) d)
  end.
End json_ind.

Fixpoint json_eqb (a b : json) : bool :=
  match a, b with
  | JNull, JNull => true
  | JBool x, JBool y => Bool.eqb x y
  | JInt x, JInt y => Z.eqb x y
  | JFloat x, JFloat y => Z.eqb x y
  | JStr x, JStr y => String.eqb x y
  | JArr x, JArr y =>
      (fix go x y := match x, y with
                     | [], [] => true
                     | u :: x', v :: y' => json_eqb u v && go x' y'
                     | _, _ => false
                     end) x y
  | JObj x, JObj y =>
      (fix go x y := match x, y with
                     | [], [] => true
                     | (k, u) :: x', (l, v) :: y' => String.eqb k l && json_eqb u v && go x' y'
                     | _, _ => false
                     end) x y
  | _, _ => false
  end.

Lemma json_eqb_eq a b : json_eqb a b = true <-> a = b.
Proof.
  revert b; induction a as [|x|x|x|x|l IH|d IH] using json_ind'; intros [|y|y|y|y|m|e]; simpl;
    try (split; intros; (done || discriminate)).
  - rewrite Bool.eqb_true_iff. naive_solver.
  - rewrite Z.eqb_eq. naive_solver.
  - rewrite Z.eqb_eq. naive_solver.
  - rewrite String.eqb_eq. naive_solver.
  - transitivity (l = m); [|naive_solver].
    revert m; induction IH as [|u l Hu _ IHl]; intros [|v m]; try (split; intros; (done || discriminate)).
    rewrite andb_true_iff, Hu, IHl. naive_solver.
  - transitivity (d = e); [|naive_solver].
    revert e; induction IH as [|[k u] d Hu _ IHd]; intros [|[k' v] e];
      try (split; intros; (done || discriminate)).
    simpl in Hu. rewrite !andb_true_iff, Hu, IHd, String.eqb_eq. naive_solver.
Qed.

#[export] Instance json_eq_dec : EqDecision json.
Proof.
  intros a b. destruct (json_eqb a b) eqn:E; [left|right].
  - by apply json_eqb_eq.
  - intros H%json_eqb_eq. congruence.
Defined.

(** ** Access *)

Definition jstr (j : json) : option string := match j with JStr s => Some s | _ => None end.
Definition jint (j : json) : option Z := match j with JInt z => Some z | _ => None end.
Definition jobj (j : json) : option (list (string * json)) := match j with JObj d => Some d | _ => None end.
Definition jarr (j : json) : option (list json) := match j with JArr l => Some l | _ => None end.

Definition ostr (o : option string) : json := match o with Some s => JStr s | None => JNull end.
Definition oint (o : option Z) : json := match o with Some z => JInt z | None => JNull end.

(** [d[k]] *)
Definition jindex (k : string) (d : list (string * json)) : res json :=
  match dget k d with Some v => Ok v | None => key_error k end.

(** [d.get(k)]: a missing key reads as [None]. *)
Definition jget (k : string) (d : list (string * json)) : json :=
  match dget k d with Some v => v | None => JNull end.

Definition get_str (k : string) (d : list (string * json)) : option string := jstr (jget k d).

(** A field annotated [str], [int], [int | None], [str | None] that the source
    reads without a check. *)
Definition typed_str (j : json) : res string :=
  match j with JStr s => Ok s | _ => untyped "str" end.
Definition typed_int (j : json) : res Z :=
  match j with JInt z => Ok z | _ => untyped "int" end.
Definition typed_ostr (j : json) : res (option string) :=
  match j with JStr s => Ok (Some s) | JNull => Ok None | _ => untyped "str | None" end.
Definition typed_oint (j : json) : res (option Z) :=
  match j with JInt z => Ok (Some z) | JNull => Ok None | _ => untyped "int | None" end.
Definition typed_obj (j : json) : res (list (string * json)) :=
  match j with JObj d => Ok d | _ => untyped "dict" end.

(** [bool(j)] *)
Definition truthy (j : json) : bool :=
  match j with
  | JNull => false
  | JBool b => b
  | JInt z => negb (z =? 0)
  | JFloat bits => negb (Z.eqb bits 0 || Z.eqb bits (2 ^ 63))
  | JStr s => nonempty s
  | JArr l => match l with [] => false | _ => true end
  | JObj d => match d with [] => false | _ => true end
  end.

(** ** Canonical form under [sort_keys=True]

    [json.dumps(j, sort_keys=True, separators=...)] is injective on the values
    with sorted keys, so comparing the texts is comparing [sort_keys j]. *)

Fixpoint string_leb (a b : string) : bool :=
  match a, b with
  | EmptyString, _ => true
  | String _ _, EmptyString => false
  | String x a', String y b' =>
      if scode x <? scode y then true
      else if scode y <? scode x then false
      else string_leb a' b'
  end.

Fixpoint insert_key (kv : string * json) (d : list (string * json)) : list (string * json) :=
  match d with
  | [] => [kv]
  | kv' :: d' => if string_leb (fst kv) (fst kv') then kv :: d else kv' :: insert_key kv d'
  end.

Fixpoint sort_keys (j : json) : json :=
  match j with
  | JArr l => JArr (map sort_keys l)
  | JObj d => JObj (fold_right insert_key [] (map (fun kv => (fst kv, sort_keys (snd kv))) d))
  | _ => j
  end.

Lemma typed_ostr_ostr o : typed_ostr (ostr o) = Ok o.
Proof. by destruct o. Qed.

Lemma typed_oint_oint o : typed_oint (oint o) = Ok o.
Proof. by destruct o. Qed.
