(* ===== verification/PyTime.v ===== *)
(** * Datetimes

    The part of Python's [datetime] the sources use, and agent_core/time_utils.py.
    A datetime is its wall clock, in microseconds since 0001-01-01T00:00:00, and
    its UTC offset in microseconds ([None]: naive).  [isoformat] writes the
    extended ISO 8601 form; [fromisoformat] reads dates with an optional time of
    the form HH:MM, HH:MM:SS or HH:MM:SS.ffffff and an optional offset, which
    includes everything [isoformat] writes. *)

From stdpp Require Import base list strings.
From Stdlib Require Import ZArith Lia Ascii.
From S2P Require Import Prelude PyData PyStr.

(** ** Calendar: proleptic Gregorian ordinals, as in CPython's [_ord2ymd] *)

Definition is_leap (y : Z) : bool :=
  (y mod 4 =? 0) && (negb (y mod 100 =? 0) || (y mod 400 =? 0)).

Definition days_before_year (year : Z) : Z :=
  let y := year - 1 in y * 365 + y / 4 - y / 100 + y / 400.

Definition leap_day (leap : bool) : Z := if leap then 1 else 0.

Definition days_in_month (leap : bool) (m : Z) : Z :=
  if m =? 2 then 28 + leap_day leap
  else if (m =? 4) || (m =? 6) || (m =? 9) || (m =? 11) then 30 else 31.

Definition days_before_month (leap : bool) (m : Z) : Z :=
  (nth (Z.to_nat m) [0; 0; 31; 59; 90; 120; 151; 181; 212; 243; 273; 304; 334] 0)
  + (if 2 <? m then leap_day leap else 0).

Definition ymd2ord (y m d : Z) : Z :=
  days_before_year y + days_before_month (is_leap y) m + d.

(** Month and day of the zero-based day [n] of a year. *)
Definition month_day (leap : bool) (n : Z) : Z * Z :=
  let month := Z.shiftr (n + 50) 5 in
  let preceding := days_before_month leap month in
  if n <? preceding then
    let month := month - 1 in
    (month, n - (preceding - days_in_month leap month) + 1)
  else (month, n - preceding + 1).

Definition ord2ymd (ord : Z) : Z * Z * Z :=
  let n := ord - 1 in
  let n400 := n / 146097 in let n := n mod 146097 in
  let n100 := n / 36524 in let n := n mod 36524 in
  let n4 := n / 1461 in let n := n mod 1461 in
  let n1 := n / 365 in let n := n mod 365 in
  let year := n400 * 400 + 1 + n100 * 100 + n4 * 4 + n1 in
  if (n1 =? 4) || (n100 =? 4) then (year - 1, 12, 31)
  else
    let leap := (n1 =? 3) && (negb (n4 =? 24) || (n100 =? 3)) in
    let '(m, d) := month_day leap n in (year, m, d).

Definition month_day_ok (leap : bool) (n : Z) : bool :=
  let '(m, d) := month_day leap n in
  (1 <=? m) && (m <=? 12) && (1 <=? d) && (d <=? days_in_month leap m)
  && (days_before_month leap m + d =? n + 1).

Lemma month_day_table : forallb (fun i =>
  month_day_ok false (Z.of_nat i) && month_day_ok true (Z.of_nat i)) (seq 0 365) = true.
Proof. vm_compute. reflexivity. Qed.

Lemma month_day_spec leap n : 0 <= n < 365 -> month_day_ok leap n = true.
Proof.
  intros Hn. pose proof month_day_table as H. rewrite forallb_forall in H.
  specialize (H (Z.to_nat n)). rewrite Z2Nat.id in H by lia.
  apply andb_true_iff in H as [H1 H2]; [by destruct leap|].
  apply in_seq. lia.
Qed.

(** The year, month and day of an ordinal are in range and give it back. *)
Lemma month_day_leap_last : month_day_ok true 365 = true.
Proof. reflexivity. Qed.

Definition ymd_valid (y m d : Z) : bool :=
  (1 <=? y) && (y <=? 9999) && (1 <=? m) && (m <=? 12) && (1 <=? d) && (d <=? days_in_month (is_leap y) m).

Lemma ord2ymd_spec n y m d :
  1 <= n -> ord2ymd n = (y, m, d) ->
  1 <= y /\ 1 <= m <= 12 /\ 1 <= d <= days_in_month (is_leap y) m /\ ymd2ord y m d = n.
Proof.
  intros Hn. unfold ord2ymd.
  set (a := (n - 1) / 146097). set (r1 := (n - 1) mod 146097).
  set (b := r1 / 36524). set (r2 := r1 mod 36524).
  set (c := r2 / 1461). set (r3 := r2 mod 1461).
  set (e := r3 / 365). set (r4 := r3 mod 365).
  assert (Ha : n - 1 = 146097 * a + r1 /\ 0 <= r1 < 146097 /\ 0 <= a)
    by (subst a r1; pose proof (Z.div_mod (n - 1) 146097); pose proof (Z.mod_pos_bound (n - 1) 146097);
        pose proof (Z.div_pos (n - 1) 146097); lia).
  assert (Hb : r1 = 36524 * b + r2 /\ 0 <= r2 < 36524 /\ 0 <= b <= 4) by (subst b r2; zdiv).
  assert (Hc : r2 = 1461 * c + r3 /\ 0 <= r3 < 1461 /\ 0 <= c <= 24) by (subst c r3; zdiv).
  assert (He : r3 = 365 * e + r4 /\ 0 <= r4 < 365 /\ 0 <= e <= 4) by (subst e r4; zdiv).
  clearbody a r1 b r2 c r3 e r4.
  destruct ((e =? 4) || (b =? 4)) eqn:E.
  - intros [= <- <- <-].
    assert (Hcase : (e = 4 /\ r4 = 0 /\ (b = 3 \/ c < 24) /\ 0 <= b <= 3) \/ (b = 4 /\ e = 0 /\ r4 = 0 /\ c = 0))
      by (apply orb_true_iff in E as [?%Z.eqb_eq|?%Z.eqb_eq]; lia).
    set (y := a * 400 + 1 + b * 100 + c * 4 + e - 1).
    assert (Hl : is_leap y = true).
    { unfold is_leap. apply andb_true_iff. rewrite orb_true_iff, negb_true_iff, Z.eqb_eq, Z.eqb_neq, Z.eqb_eq.
      subst y. zdiv. }
    unfold ymd2ord. rewrite Hl. split; [subst y; lia|]. split; [lia|].
    split; [vm_compute; split; discriminate|].
    change (days_before_month true 12) with 335. unfold days_before_year. subst y. zdiv.
  - apply orb_false_iff in E as [He4%Z.eqb_neq Hb4%Z.eqb_neq].
    set (yr := a * 400 + 1 + b * 100 + c * 4 + e).
    assert (Hl : is_leap yr = (e =? 3) && (negb (c =? 24) || (b =? 3))).
    { apply Bool.eq_iff_eq_true. unfold is_leap. rewrite !andb_true_iff, !orb_true_iff, !negb_true_iff.
      rewrite !Z.eqb_eq, !Z.eqb_neq. subst yr. zdiv. }
    rewrite <-Hl. destruct (month_day (is_leap yr) r4) as [m' d'] eqn:Emd. intros [= <- <- <-].
    assert (Hok : month_day_ok (is_leap yr) r4 = true) by (apply month_day_spec; lia).
    unfold month_day_ok in Hok. rewrite Emd in Hok.
    rewrite !andb_true_iff, !Z.leb_le, Z.eqb_eq in Hok.
    split; [subst yr; lia|]. split; [lia|]. split; [lia|].
    unfold ymd2ord. assert (days_before_year yr = n - 1 - r4) by (unfold days_before_year; subst yr; zdiv).
    lia.
Qed.

(** ** Datetimes *)

Record datetime := Datetime { wall : Z; utcoffset : option Z }.

#[export] Instance datetime_eq_dec : EqDecision datetime.
Proof. solve_decision. Defined.

Definition us_second : Z := 1000000.
Definition us_minute : Z := 60 * us_second.
Definition us_hour : Z := 60 * us_minute.
Definition us_day : Z := 24 * us_hour.
(** One past the wall clock of 9999-12-31T23:59:59.999999. *)
Definition max_wall : Z := 3652059 * us_day.

(** The instant of an aware datetime, which comparisons and differences use. *)
Definition instant (d : datetime) : Z := wall d - default 0 (utcoffset d).

Definition add_us (d : datetime) (us : Z) : datetime := Datetime (wall d + us) (utcoffset d).
Definition utc (t : Z) : datetime := Datetime t (Some 0).

Definition ordinal (d : datetime) : Z := wall d / us_day + 1.
Definition year_of (d : datetime) : Z := fst (fst (ord2ymd (ordinal d))).
Definition month_of (d : datetime) : Z := snd (fst (ord2ymd (ordinal d))).
Definition day_of (d : datetime) : Z := snd (ord2ymd (ordinal d)).
Definition hour_of (d : datetime) : Z := wall d / us_hour mod 24.
Definition minute_of (d : datetime) : Z := wall d / us_minute mod 60.
Definition second_of (d : datetime) : Z := wall d / us_second mod 60.
Definition microsecond_of (d : datetime) : Z := wall d mod us_second.
(** [weekday()]: Monday is 0. *)
Definition weekday (d : datetime) : Z := (ordinal d + 6) mod 7.

(** ** Decimal fields of fixed width *)

Definition digit (z : Z) : ascii := ascii_of_nat (48 + Z.to_nat z).
Definition digit_value (c : ascii) : option Z :=
  let z := scode c - 48 in if (0 <=? z) && (z <=? 9) then Some z else None.

Fixpoint pad (n : nat) (z : Z) : string :=
  match n with
  | O => ""
  | S n' => pad n' (z / 10) +:+ String (digit (z mod 10)) ""
  end.

Fixpoint read_digits (n : nat) (acc : Z) (s : string) : option (Z * string) :=
  match n with
  | O => Some (acc, s)
  | S n' =>
      match s with
      | "" => None
      | String c s' => match digit_value c with
                       | Some v => read_digits n' (acc * 10 + v) s'
                       | None => None
                       end
      end
  end.

Definition expect (c : ascii) (s : string) : option string :=
  match s with
  | String a s' => if Ascii.eqb a c then Some s' else None
  | "" => None
  end.

(** HH:MM with optional :SS and .ffffff, as microseconds. *)
Definition print_clock (us : Z) (always_seconds : bool) : string :=
  let f := us mod us_second in
  let s := us / us_second mod 60 in
  pad 2 (us / us_hour) +:+ ":" +:+ pad 2 (us / us_minute mod 60)
  +:+ (if always_seconds || negb (s =? 0) || negb (f =? 0)
       then ":" +:+ pad 2 s +:+ (if f =? 0 then "" else "." +:+ pad 6 f) else "").

Definition read_clock (s : string) : option (Z * string) :=
  '(h, s) ← read_digits 2 0 s; s ← expect ":" s; '(m, s) ← read_digits 2 0 s;
  if negb ((h <? 24) && (m <? 60)) then None
  else match expect ":" s with
       | None => Some (h * us_hour + m * us_minute, s)
       | Some s =>
           '(sec, s) ← read_digits 2 0 s;
           if negb (sec <? 60) then None
           else match expect "." s with
                | None => Some (h * us_hour + m * us_minute + sec * us_second, s)
                | Some s => '(f, s) ← read_digits 6 0 s;
                            Some (h * us_hour + m * us_minute + sec * us_second + f, s)
                end
       end.

Definition print_offset (o : option Z) : string :=
  match o with
  | None => ""
  | Some us => (if us <? 0 then "-" else "+") +:+ print_clock (Z.abs us) false
  end.

Definition read_offset (s : string) : option (option Z) :=
  match s with
  | "" => Some None
  | String c s' =>
      if Ascii.eqb c "Z" then (if nonempty s' then None else Some (Some 0))
      else if Ascii.eqb c "+" || Ascii.eqb c "-" then
        '(us, rest) ← read_clock s';
        if nonempty rest then None
        else Some (Some (if Ascii.eqb c "-" then - us else us))
      else None
  end.

Definition isoformat (d : datetime) : string :=
  let '(y, m, day) := ord2ymd (ordinal d) in
  pad 4 y +:+ "-" +:+ pad 2 m +:+ "-" +:+ pad 2 day +:+ "T"
  +:+ print_clock (wall d mod us_day) true +:+ print_offset (utcoffset d).

Definition read_date (s : string) : option (Z * string) :=
  '(y, s) ← read_digits 4 0 s; s ← expect "-" s; '(m, s) ← read_digits 2 0 s;
  s ← expect "-" s; '(d, s) ← read_digits 2 0 s;
  if ymd_valid y m d then Some ((ymd2ord y m d - 1) * us_day, s) else None.

Definition fromisoformat (s : string) : option datetime :=
  '(days, s) ← read_date s;
  match s with
  | "" => Some (Datetime days None)
  | String _ s => '(us, s) ← read_clock s; o ← read_offset s; Some (Datetime (days + us) o)
  end.

(** ** Reading back what was written *)

Lemma digit_value_digit z : 0 <= z < 10 -> digit_value (digit z) = Some z.
Proof.
  intros Hz. unfold digit_value, digit, scode. rewrite nat_ascii_embedding by lia.
  replace (Z.of_nat (48 + Z.to_nat z) - 48) with z by lia.
  by rewrite (proj2 (andb_true_iff _ _)) by (rewrite !Z.leb_le; lia).
Qed.

Lemma read_digits_snoc n acc s c r v :
  read_digits n acc s = Some (v, String c r) ->
  read_digits (S n) acc s = (w ← digit_value c; Some (v * 10 + w, r)).
Proof.
  revert acc s; induction n as [|n IH]; intros acc s; simpl.
  - intros [= -> ->]. by destruct (digit_value c).
  - destruct s as [|a s]; [done|]. destruct (digit_value a) as [w|]; [|done].
    intros H. apply IH in H. simpl in H. done.
Qed.

Lemma read_digits_pad n acc z r :
  0 <= z -> read_digits n acc (pad n z +:+ r) = Some (acc * 10 ^ Z.of_nat n + z mod 10 ^ Z.of_nat n, r).
Proof.
  revert z r; induction n as [|n IH]; intros z r Hz.
  - simpl. do 2 f_equal. rewrite Z.mod_1_r. lia.
  - simpl pad. rewrite sapp_assoc. simpl String.append.
    rewrite (read_digits_snoc _ _ _ _ _ _ (IH _ _ (Z.div_pos z 10 Hz eq_refl))).
    rewrite digit_value_digit by (apply Z.mod_pos_bound; lia). simpl.
    do 2 f_equal. rewrite Nat2Z.inj_succ, Z.pow_succ_r by lia.
    assert (0 < 10 ^ Z.of_nat n) by (apply Z.pow_pos_nonneg; lia).
    rewrite Z.rem_mul_r by lia. lia.
Qed.

Lemma read_digits_pad_small n z r :
  0 <= z < 10 ^ Z.of_nat n -> read_digits n 0 (pad n z +:+ r) = Some (z, r).
Proof. intros Hz. rewrite read_digits_pad by lia. by rewrite Z.mod_small, Z.add_0_l by lia. Qed.

Lemma expect_cons c s : expect c (String c s) = Some s.
Proof. simpl. by rewrite Ascii.eqb_refl. Qed.

(** What may follow a clock: nothing that continues it. *)
Definition clock_end (r : string) : bool :=
  match r with
  | "" => true
  | String c _ => negb (Ascii.eqb c ":") && negb (Ascii.eqb c ".")
  end.

Lemma expect_clock_end r :
  clock_end r = true -> expect ":" r = None /\ expect "." r = None.
Proof.
  destruct r as [|c r]; simpl; [done|].
  intros [->%negb_true_iff ->%negb_true_iff]%andb_true_iff. done.
Qed.

Lemma read_clock_print us b r :
  0 <= us < us_day -> clock_end r = true -> read_clock (print_clock us b +:+ r) = Some (us, r).
Proof.
  intros Hus Hr. destruct (expect_clock_end r Hr) as [Hr1 Hr2].
  unfold us_day, us_hour, us_minute, us_second in *.
  unfold read_clock, print_clock, us_hour, us_minute, us_second.
  set (h := us / _). set (m := us / _ mod 60). set (s := us / _ mod 60). set (f := us mod _).
  assert (Hu : us = h * (60 * (60 * 1000000)) + m * (60 * 1000000) + s * 1000000 + f /\
               0 <= h < 24 /\ 0 <= m < 60 /\ 0 <= s < 60 /\ 0 <= f < 1000000)
    by (subst h m s f; zdiv).
  clearbody h m s f.
  rewrite !sapp_assoc. rewrite read_digits_pad_small by (simpl; lia). cbn [mbind option_bind].
  cbn [String.append]. rewrite expect_cons. cbn [mbind option_bind].
  rewrite read_digits_pad_small by (simpl; lia). cbn [mbind option_bind].
  rewrite (proj2 (Z.ltb_lt h 24)), (proj2 (Z.ltb_lt m 60)) by lia. simpl negb. cbv iota.
  destruct (b || negb (s =? 0) || negb (f =? 0)) eqn:E; cbn [String.append].
  - rewrite expect_cons. rewrite sapp_assoc.
    rewrite read_digits_pad_small by (simpl; lia). cbn [mbind option_bind].
    rewrite (proj2 (Z.ltb_lt s 60)) by lia. simpl negb. cbv iota.
    destruct (Z.eqb_spec f 0) as [Hf|Hf]; cbn [String.append].
    + rewrite Hr2. do 2 f_equal. lia.
    + rewrite expect_cons, read_digits_pad_small by (simpl; lia). simpl. do 2 f_equal. lia.
  - bsimp. rewrite Hr1. do 2 f_equal. lia.
Qed.

Lemma read_offset_print o :
  (forall us, o = Some us -> - us_day < us < us_day) -> read_offset (print_offset o) = Some o.
Proof.
  destruct o as [us|]; [|done]. intros H. specialize (H us eq_refl).
  unfold read_offset, print_offset. rewrite <-(sapp_nil_r (print_clock _ _)).
  destruct (Z.ltb_spec us 0); cbn [String.append]; simpl Ascii.eqb; cbn [orb];
    rewrite read_clock_print by (done || lia); simpl; do 2 f_equal; lia.
Qed.

Definition datetime_valid (d : datetime) : Prop :=
  0 <= wall d < max_wall /\ (forall us, utcoffset d = Some us -> - us_day < us < us_day).

Lemma clock_end_offset o : clock_end (print_offset o) = true.
Proof. destruct o as [us|]; [|done]. unfold print_offset. by destruct (us <? 0). Qed.

Lemma ordinal_bounds d : 0 <= wall d < max_wall -> 1 <= ordinal d <= 3652059.
Proof. unfold ordinal, max_wall, us_day, us_hour, us_minute, us_second. zdiv. Qed.

Lemma ord2ymd_year n y m d : 1 <= n <= 3652059 -> ord2ymd n = (y, m, d) -> y <= 9999.
Proof.
  intros Hn E. destruct (ord2ymd_spec n y m d) as (Hy & Hm & Hd & Ho); [lia|done|].
  unfold ymd2ord in Ho. assert (0 <= days_before_month (is_leap y) m).
  { assert (Hm' : exists k, m = Z.of_nat k /\ (1 <= k <= 12)%nat) by (exists (Z.to_nat m); lia).
    destruct Hm' as (k & -> & Hk). destruct (is_leap y); do 13 (destruct k as [|k]; [vm_compute; congruence|]); lia. }
  unfold days_before_year in Ho. zdiv.
Qed.

(** [fromisoformat(d.isoformat()) == d], offset included. *)
Lemma fromisoformat_isoformat d : datetime_valid d -> fromisoformat (isoformat d) = Some d.
Proof.
  intros [Hw Ho]. pose proof (ordinal_bounds d Hw) as Hord. unfold isoformat, fromisoformat.
  destruct (ord2ymd (ordinal d)) as [[y m] day] eqn:E.
  destruct (ord2ymd_spec _ _ _ _ (proj1 Hord) E) as (Hy & Hm & Hday & Heq).
  pose proof (ord2ymd_year _ _ _ _ Hord E) as Hy'.
  assert (day <= 31) by (unfold days_in_month, leap_day in Hday; repeat case_match; lia).
  unfold read_date. rewrite !read_digits_pad_small by (simpl; lia). cbn [mbind option_bind].
  cbn [String.append]. rewrite expect_cons. cbn [mbind option_bind].
  rewrite read_digits_pad_small by (simpl; lia). cbn [mbind option_bind]. cbn [String.append].
  rewrite expect_cons. cbn [mbind option_bind]. rewrite read_digits_pad_small by (simpl; lia). cbn [mbind option_bind].
  assert (Hv : ymd_valid y m day = true)
    by (unfold ymd_valid; rewrite !andb_true_iff, !Z.leb_le; lia).
  rewrite Hv, Heq. cbn [String.append mbind option_bind].
  rewrite read_clock_print; [|apply Z.mod_pos_bound; done|apply clock_end_offset]. cbn [mbind option_bind].
  rewrite read_offset_print by done. simpl. destruct d as [w o]; simpl in *. do 2 f_equal.
  unfold ordinal; simpl. rewrite Z.add_simpl_r, Z.mul_comm. symmetry. by apply Z.div_mod.
Qed.

(** ** Substring replacement, [str.replace] with a non-empty pattern *)

Fixpoint replace_go (old new : string) (skip : nat) (s : string) : string :=
  match s with
  | "" => ""
  | String c s' =>
      match skip with
      | S k => replace_go old new k s'
      | O => if startswith old s then new +:+ replace_go old new (String.length old - 1) s'
             else String c (replace_go old new 0 s')
      end
  end.
Definition str_replace (old new s : string) : string := replace_go old new 0 s.

(** Text without the first character of the pattern is kept. *)
Lemma str_replace_skip c old new p s :
  has_char c p = false ->
  str_replace (String c old) new (p +:+ s) = p +:+ str_replace (String c old) new s.
Proof.
  unfold str_replace. induction p as [|a p IH]; [done|].
  cbn [has_char String.append]. intros [Ha Hp]%orb_false_iff. cbn [replace_go startswith].
  rewrite Ascii.eqb_sym, Ha. cbn [andb]. by rewrite IH.
Qed.

(** ** agent_core/time_utils.py

    The sources keep UTC timestamps: a timestamp is its instant, in
    microseconds since 0001-01-01T00:00:00Z. *)

Definition format_utc (t : Z) : string := str_replace "+00:00" "Z" (isoformat (utc t)).

Definition parse_utc (s : string) : res Z :=
  match fromisoformat (str_replace "Z" "+00:00" s) with
  | None => value_error "Invalid isoformat string"
  | Some d =>
      match utcoffset d with
      | None => untyped "aware datetime"
      | Some o =>
          if (0 <=? wall d - o) && (wall d - o <? max_wall) then Ok (wall d - o)
          else raise EOverflow "date value out of range"
      end
  end.

Definition timestamp_valid (t : Z) : Prop := 0 <= t < max_wall.

Lemma digit_no_sign z c : 0 <= z < 10 -> (scode c < 48 \/ 57 < scode c) -> Ascii.eqb (digit z) c = false.
Proof.
  intros Hz Hc. destruct (Ascii.eqb_spec (digit z) c) as [<-|]; [|done].
  unfold digit, scode in Hc. rewrite nat_ascii_embedding in Hc by lia. lia.
Qed.

Lemma pad_no_char n z c : (scode c < 48 \/ 57 < scode c) -> has_char c (pad n z) = false.
Proof.
  intros Hc. revert z; induction n as [|n IH]; intros z; [done|]. cbn [pad].
  rewrite has_char_app, IH. cbn [has_char].
  rewrite digit_no_sign; [done|apply Z.mod_pos_bound; lia|done].
Qed.

Lemma print_clock_no_char us b c :
  (scode c < 46 \/ 58 < scode c) -> has_char c (print_clock us b) = false.
Proof.
  intros Hc. unfold print_clock.
  assert (H1 : Ascii.eqb ":" c = false) by (destruct (Ascii.eqb_spec ":" c) as [<-|]; [by destruct Hc as [Hc|Hc]; vm_compute in Hc|done]).
  assert (H2 : Ascii.eqb "." c = false) by (destruct (Ascii.eqb_spec "." c) as [<-|]; [by destruct Hc as [Hc|Hc]; vm_compute in Hc|done]).
  repeat first [rewrite has_char_app | rewrite pad_no_char by lia | progress cbn [has_char orb String.append]
    | rewrite H1 | rewrite H2 | case_match | done].
Qed.

Lemma isoformat_utc_shape t : exists p, isoformat (utc t) = p +:+ "+00:00" /\
  has_char "+" p = false /\ has_char "Z" p = false.
Proof.
  unfold isoformat. destruct (ord2ymd (ordinal (utc t))) as [[y m] d].
  exists (pad 4 y +:+ "-" +:+ pad 2 m +:+ "-" +:+ pad 2 d +:+ "T"
          +:+ print_clock (wall (utc t) mod us_day) true).
  split; [by rewrite !sapp_assoc|].
  split; repeat first [rewrite has_char_app | rewrite pad_no_char by (vm_compute; auto)
    | rewrite print_clock_no_char by (vm_compute; auto) | progress cbn [has_char orb] | done].
Qed.

(** A formatted timestamp parses to the same instant. *)
Lemma parse_format_utc t : timestamp_valid t -> parse_utc (format_utc t) = Ok t.
Proof.
  intros Ht. unfold parse_utc, format_utc.
  destruct (isoformat_utc_shape t) as (p & Hp & Hplus & HZ). rewrite Hp.
  rewrite (str_replace_skip "+" _ _ p) by done. change (str_replace "+00:00" "Z" "+00:00") with "Z".
  rewrite (str_replace_skip "Z" _ _ p) by done. change (str_replace "Z" "+00:00" "Z") with "+00:00".
  rewrite <-Hp, fromisoformat_isoformat.
  - simpl. rewrite Z.sub_0_r. destruct Ht. by rewrite (proj2 (Z.leb_le _ _)), (proj2 (Z.ltb_lt _ _)).
  - split; [done|]. intros us [= <-]. by vm_compute.
Qed.
