(* ===== verification/Content.v ===== *)
(** * Message contents, tool calls, token usage and runtime errors

    agent_core/content.py, agent_core/usage.py, agent_core/errors.py and the
    data types of agent_core/tools/base.py, with their JSON representations. *)

From stdpp Require Import base list strings pretty.
From Stdlib Require Import ZArith Lia.
From S2P Require Import Prelude PyData PyStr Json PyTime.

(** ** agent_core/content.py *)

Inductive ContentPart :=
| TextPart (text : string)
| ImagePart (path mime_type filename : string) (size_bytes : Z)
| FilePart (path filename mime_type : string) (size_bytes : Z).

#[export] Instance ContentPart_eq_dec : EqDecision ContentPart.
Proof. solve_decision. Defined.

(** [Content = str | tuple[ContentPart, ...] | None] *)
Inductive Content :=
| CNone
| CStr (s : string)
| CParts (ps : list ContentPart).

#[export] Instance Content_eq_dec : EqDecision Content.
Proof. solve_decision. Defined.

Definition is_text (p : ContentPart) : bool := match p with TextPart _ => true | _ => false end.
Definition is_image (p : ContentPart) : bool := match p with ImagePart _ _ _ _ => true | _ => false end.
Definition is_file (p : ContentPart) : bool := match p with FilePart _ _ _ _ => true | _ => false end.
Definition is_attachment (p : ContentPart) : bool := negb (is_text p).
Definition part_text (p : ContentPart) : string := match p with TextPart t => t | _ => "" end.

Definition content_parts (c : Content) : list ContentPart :=
  match c with
  | CNone => []
  | CStr s => [TextPart s]
  | CParts ps => ps
  end.

(** [text or None]: the empty string counts as no text. *)
Definition or_none (s : string) : option string := if nonempty s then Some s else None.

Definition text_content (c : Content) : option string :=
  match content_parts c with
  | [] => None
  | ps => or_none (sjoin "" (map part_text (List.filter is_text ps)))
  end.

Definition file_line (p : ContentPart) : string :=
  match p with
  | FilePart path filename mime size =>
      "- " +:+ filename +:+ " (" +:+ path +:+ ", " +:+ mime +:+ ", " +:+ pretty size +:+ " bytes)"
  | _ => ""
  end.

Definition historical_content (c : Content) : option string :=
  let parts := content_parts c in
  let text := text_content c in
  let has_image := existsb is_image parts in
  let files := List.filter is_file parts in
  let sections := match text with Some t => [t] | None => [] end in
  let sections := if has_image
                  then sections ++ ["[Image attachment omitted from historical context]"]
                  else sections in
  let sections := match files with
                  | [] => sections
                  | _ => sections ++ ["Attached files:" +:+ NL +:+ sjoin NL (map file_line files)]
                  end in
  or_none (sjoin NL sections).

(** ** Tool calls and results, agent_core/tools/base.py *)

Record ToolError := MkToolError {
  te_type : string;
  te_message : string;
  te_details : option (list (string * json));
}.

#[export] Instance ToolError_eq_dec : EqDecision ToolError.
Proof. solve_decision. Defined.

Definition ToolError_to_dict (e : ToolError) : list (string * json) :=
  [("type", JStr (te_type e)); ("message", JStr (te_message e))]
  ++ match te_details e with Some d => [("details", JObj d)] | None => [] end.

(** [ToolError] applied to the fields of a dict: an unknown or a missing keyword is a [TypeError]. *)
Definition ToolError_from_kwargs (d : list (string * json)) : res ToolError :=
  if forallb (fun k => existsb (String.eqb k) ["type"; "message"; "details"]) (dkeys d) then
    match dget "type" d, dget "message" d with
    | Some t, Some m =>
        t <~ typed_str t ;; m <~ typed_str m ;;
        match jget "details" d with
        | JNull => Ok (MkToolError t m None)
        | j => o <~ typed_obj j ;; Ok (MkToolError t m (Some o))
        end
    | _, _ => raise ETypeError "missing required argument"
    end
  else raise ETypeError "unexpected keyword argument".

(** [arguments: dict | str] *)
Inductive Arguments_ :=
| ArgsDict (d : list (string * json))
| ArgsRaw (s : string).

#[export] Instance Arguments_eq_dec : EqDecision Arguments_.
Proof. solve_decision. Defined.

Record ToolCall := MkToolCall {
  tc_id : string;
  tc_name : string;
  tc_arguments : Arguments_;
  tc_argument_error : option ToolError;
}.

#[export] Instance ToolCall_eq_dec : EqDecision ToolCall.
Proof. solve_decision. Defined.

Definition args_to_json (a : Arguments_) : json :=
  match a with ArgsDict d => JObj d | ArgsRaw s => JStr s end.

Definition args_from_json (j : json) : res Arguments_ :=
  match j with
  | JObj d => Ok (ArgsDict d)
  | JStr s => Ok (ArgsRaw s)
  | _ => untyped "dict | str"
  end.

Definition ToolCall_to_dict (c : ToolCall) : json :=
  JObj ([("id", JStr (tc_id c)); ("name", JStr (tc_name c)); ("arguments", args_to_json (tc_arguments c))]
        ++ match tc_argument_error c with
           | Some e => [("argument_error", JObj (ToolError_to_dict e))]
           | None => []
           end).

Definition ToolCall_from_dict (j : json) : res ToolCall :=
  d <~ typed_obj j ;;
  id <~ res_bind (jindex "id" d) typed_str ;;
  name <~ res_bind (jindex "name" d) typed_str ;;
  args <~ res_bind (jindex "arguments" d) args_from_json ;;
  match jget "argument_error" d with
  | JNull => Ok (MkToolCall id name args None)
  | e => e <~ res_bind (typed_obj e) ToolError_from_kwargs ;; Ok (MkToolCall id name args (Some e))
  end.

(** [json.loads] of an argument text: the value, or the message of the decode error. *)
Definition from_raw_arguments (loads : string -> json + string) (id name raw : string) : ToolCall :=
  let bad message :=
    MkToolCall id name (ArgsRaw raw)
      (Some (MkToolError "invalid_tool_arguments"
               ("Invalid arguments for tool '" +:+ name +:+ "': " +:+ message
                +:+ ". Send a valid JSON object and call the tool again.") None)) in
  match loads raw with
  | inl (JObj d) => MkToolCall id name (ArgsDict d) None
  | inl _ => bad "arguments must be a JSON object"
  | inr message => bad message
  end.

Record ToolResult := MkToolResult {
  tr_tool_call_id : string;
  tr_name : string;
  tr_output : json;
  tr_error : option ToolError;
  tr_attachments : list ContentPart;
  tr_present_to_user : bool;
  tr_executed : bool;
  tr_hook_feedback : list string;
  (* handle of the spooled artifact, which its writer, preview and cleanup act on *)
  tr_artifact : option string;
}.

(** The value [ToolResult.to_content] serializes. *)
Definition to_content_json (r : ToolResult) : json :=
  match tr_error r with
  | Some e => JObj [("ok", JBool false); ("error", JObj (ToolError_to_dict e))]
  | None => JObj [("ok", JBool true); ("output", tr_output r)]
  end.

(** ** agent_core/usage.py *)

Record InputTokenAnchor := MkAnchor { ita_fingerprint : string; ita_local_tokens : Z; ita_input_tokens : Z }.

#[export] Instance InputTokenAnchor_eq_dec : EqDecision InputTokenAnchor.
Proof. solve_decision. Defined.

Record TokenUsage := MkUsage {
  tu_input_tokens : option Z;
  tu_output_tokens : option Z;
  tu_total_tokens : option Z;
  tu_cache_read_tokens : option Z;
  tu_cache_write_tokens : option Z;
}.

Record InputTokenEstimate := MkEstimate { est_fingerprint : string; est_local_tokens : Z; est_tokens : Z }.

Definition estimate_anchor (e : InputTokenEstimate) (u : option TokenUsage) : option InputTokenAnchor :=
  match u with
  | None => None
  | Some u => match tu_input_tokens u with
              | None => None
              | Some n => Some (MkAnchor (est_fingerprint e) (est_local_tokens e) n)
              end
  end.

Record CacheUsage := MkCacheUsage { cu_input_tokens : Z; cu_cache_read_tokens : Z }.

#[export] Instance CacheUsage_eq_dec : EqDecision CacheUsage.
Proof. solve_decision. Defined.

Definition cache_usage_to_dict (u : option CacheUsage) : json :=
  match u with
  | None => JNull
  | Some u => JObj [("input_tokens", JInt (cu_input_tokens u));
                    ("cache_read_tokens", JInt (cu_cache_read_tokens u))]
  end.

Definition usage_to_dict (u : option TokenUsage) : json :=
  match u with
  | None => JNull
  | Some u => JObj [("input_tokens", oint (tu_input_tokens u));
                    ("output_tokens", oint (tu_output_tokens u));
                    ("total_tokens", oint (tu_total_tokens u));
                    ("cache_read_tokens", oint (tu_cache_read_tokens u));
                    ("cache_write_tokens", oint (tu_cache_write_tokens u))]
  end.

Definition anchor_to_json (a : option InputTokenAnchor) : json :=
  match a with
  | None => JNull
  | Some a => JObj [("fingerprint", JStr (ita_fingerprint a));
                    ("local_tokens", JInt (ita_local_tokens a));
                    ("input_tokens", JInt (ita_input_tokens a))]
  end.

(** [InputTokenAnchor] applied to the fields of a dict. *)
Definition anchor_from_kwargs (j : json) : res InputTokenAnchor :=
  d <~ typed_obj j ;;
  if forallb (fun k => existsb (String.eqb k) ["fingerprint"; "local_tokens"; "input_tokens"]) (dkeys d) then
    match dget "fingerprint" d, dget "local_tokens" d, dget "input_tokens" d with
    | Some f, Some l, Some i =>
        f <~ typed_str f ;; l <~ typed_int l ;; i <~ typed_int i ;; Ok (MkAnchor f l i)
    | _, _, _ => raise ETypeError "missing required argument"
    end
  else raise ETypeError "unexpected keyword argument".

(** ** agent_core/errors.py *)

Record RuntimeErrorInfo := MkErrorInfo {
  rei_type : string;
  rei_message : string;
  rei_details : list (string * json);
}.

#[export] Instance RuntimeErrorInfo_eq_dec : EqDecision RuntimeErrorInfo.
Proof. solve_decision. Defined.

Definition runtime_error_from_dict (j : json) : res RuntimeErrorInfo :=
  match j with
  | JObj d =>
      match jget "type" d with
      | JStr t =>
          if negb (nonempty t) then value_error "runtime error type must be a non-empty string"
          else match jget "message" d with
               | JStr m =>
                   match jget "details" d with
                   | JObj ds => Ok (MkErrorInfo t m ds)
                   | _ => value_error "runtime error details must be an object"
                   end
               | _ => value_error "runtime error message must be a string"
               end
      | _ => value_error "runtime error type must be a non-empty string"
      end
  | _ => value_error "runtime error must be an object"
  end.

(** [type(error).__name__] of the modelled classes. *)
Definition class_name (c : exc_class) : string :=
  match c with
  | EValueError => "ValueError" | EKeyError => "KeyError" | EOverflow => "OverflowError"
  | ETypeError => "TypeError" | EIndexError => "IndexError" | EPermissionError => "PermissionError"
  | ERuntimeError => "RuntimeError" | EOSError => "OSError" | EFileNotFound => "FileNotFoundError"
  | EFileExists => "FileExistsError" | ENotADirectory => "NotADirectoryError" | EIsADirectory => "IsADirectoryError"
  | EStopIteration => "StopIteration" | EUnicodeDecode => "UnicodeDecodeError" | EBlockingIO => "BlockingIOError"
  | EJSONDecode => "JSONDecodeError" | EProtocol => "ProtocolError" | ESessionInUse => "SessionInUseError"
  | ESessionRunning => "SessionRunningError" | EAssertion => "AssertionError"
  | EToolExecution => "ToolExecutionError"
  | EToolCallLimitExceeded => "ToolCallLimitExceededError"
  | EContextWindowExceeded => "ContextWindowExceededError"
  | EProviderProtocol => "ProviderProtocolError" | EProviderRequest => "ProviderRequestError"
  | EProviderStream => "ProviderStreamError" | EHookExecution => "HookExecutionError"
  | EHookRejected => "HookRejectedError" | EAgentCancelled => "AgentCancelled"
  | EKeyboardInterrupt => "KeyboardInterrupt" | EJobCancelled => "JobCancelled"
  | ESystemExit => "SystemExit" | EUntyped => "TypeError"
  end.

Definition is_provider_error (e : exn) : bool :=
  match exn_class e with EProviderProtocol | EProviderRequest | EProviderStream => true | _ => false end.

(** The [details] a provider error carries are an argument: other errors have none. *)
Definition runtime_error_info (e : exn) (details : list (string * json)) : RuntimeErrorInfo :=
  MkErrorInfo (class_name (exn_class e)) (exn_msg e) (if is_provider_error e then details else []).

Definition error_info_to_dict (e : RuntimeErrorInfo) : json :=
  JObj [("type", JStr (rei_type e)); ("message", JStr (rei_message e)); ("details", JObj (rei_details e))].

(** ** Round trips *)

Lemma ToolError_roundtrip e : ToolError_from_kwargs (ToolError_to_dict e) = Ok e.
Proof. by destruct e as [t m [d|]]. Qed.

Lemma ToolCall_roundtrip c : ToolCall_from_dict (ToolCall_to_dict c) = Ok c.
Proof. by destruct c as [id name [d|s] [[t m [d'|]]|]]. Qed.

Lemma anchor_roundtrip a : anchor_from_kwargs (anchor_to_json (Some a)) = Ok a.
Proof. by destruct a. Qed.

Lemma runtime_error_roundtrip e :
  nonempty (rei_type e) = true -> runtime_error_from_dict (error_info_to_dict e) = Ok e.
Proof. destruct e as [t m d]; simpl. by intros ->. Qed.

Lemma runtime_error_info_type e d : nonempty (rei_type (runtime_error_info e d)) = true.
Proof. by destruct e as [[] ?]. Qed.
