(* ===== verification/Plan.v ===== *)
(** * Plans: agent_core/plan.py

    Plan steps with the validation of [PlanStep.__post_init__], plan snapshots
    and their JSON form.  The manager, which owns the plan of a Session, is in
    Session.v next to the journal it writes to. *)

From stdpp Require Import base list strings pretty.
From Stdlib Require Import ZArith Lia.
From S2P Require Import Prelude PyData PyStr Json.

Inductive PlanStepStatus := Pending | InProgress | StepCompleted | Blocked.

#[export] Instance PlanStepStatus_eq_dec : EqDecision PlanStepStatus.
Proof. solve_decision. Defined.

Definition step_status_str (s : PlanStepStatus) : string :=
  match s with
  | Pending => "pending" | InProgress => "in_progress"
  | StepCompleted => "completed" | Blocked => "blocked"
  end.

Definition step_status_of (s : string) : option PlanStepStatus :=
  if String.eqb s "pending" then Some Pending
  else if String.eqb s "in_progress" then Some InProgress
  else if String.eqb s "completed" then Some StepCompleted
  else if String.eqb s "blocked" then Some Blocked
  else None.

Definition MAX_PLAN_STEP_OUTCOME_CHARS : Z := 500.

Record PlanStep := MkStep {
  ps_id : string;
  ps_title : string;
  ps_status : PlanStepStatus;
  ps_outcome : option string;
}.

#[export] Instance PlanStep_eq_dec : EqDecision PlanStep.
Proof. solve_decision. Defined.

(** [PlanStep(id, title, status, outcome)] with [__post_init__]. *)
Definition make_step (id title status : string) (outcome : option string) : res PlanStep :=
  let step_id := strip id in
  let title := strip title in
  if negb (nonempty step_id) then value_error "plan step id must be a non-empty string"
  else if negb (nonempty title) then value_error "plan step title must be a non-empty string"
  else match step_status_of status with
       | None => value_error ("invalid plan step status: " +:+ status)
       | Some st =>
           let outcome := match outcome with
                          | Some o => if nonempty (strip o) then Some (strip o) else None
                          | None => None
                          end in
           match outcome with
           | None => Ok (MkStep step_id title st None)
           | Some o =>
               if MAX_PLAN_STEP_OUTCOME_CHARS <? slen o
               then value_error "plan step outcome exceeds maximum length of 500 characters"
               else match st with
                    | StepCompleted | Blocked => Ok (MkStep step_id title st (Some o))
                    | _ => value_error "plan step outcome is allowed only for completed or blocked steps"
                    end
           end
       end.

Record PlanSnapshot := MkPlan {
  pl_plan_id : string;
  pl_goal : string;
  pl_revision : Z;
  pl_steps : list PlanStep;
}.

#[export] Instance PlanSnapshot_eq_dec : EqDecision PlanSnapshot.
Proof. solve_decision. Defined.

Definition is_active (p : PlanSnapshot) : bool :=
  existsb (fun s => negb (bool_decide (ps_status s = StepCompleted))) (pl_steps p).

Definition step_to_dict (s : PlanStep) : json :=
  JObj ([("id", JStr (ps_id s)); ("title", JStr (ps_title s));
         ("status", JStr (step_status_str (ps_status s)))]
        ++ match ps_outcome s with Some o => [("outcome", JStr o)] | None => [] end).

Definition plan_snapshot_to_dict (p : PlanSnapshot) : json :=
  JObj [("plan_id", JStr (pl_plan_id p)); ("goal", JStr (pl_goal p));
        ("revision", JInt (pl_revision p)); ("steps", JArr (map step_to_dict (pl_steps p)))].

(** [str(value[...])] and [int(value[...])] of the fields the writer emits as
    strings and integers. *)
Definition step_from_dict (j : json) : res PlanStep :=
  match j with
  | JObj d =>
      match jget "status" d with
      | JStr status =>
          outcome <~ match jget "outcome" d with
                     | JNull => Ok None
                     | JStr o => Ok (Some o)
                     | _ => value_error "plan step outcome must be a string"
                     end ;;
          id <~ res_bind (jindex "id" d) typed_str ;;
          title <~ res_bind (jindex "title" d) typed_str ;;
          make_step id title status outcome
      | _ => value_error "plan step status must be a string"
      end
  | _ => value_error "plan step must be an object"
  end.

Definition plan_snapshot_from_dict (d : list (string * json)) : res PlanSnapshot :=
  match jget "steps" d with
  | JArr l =>
      steps <~ res_map step_from_dict l ;;
      plan_id <~ res_bind (jindex "plan_id" d) typed_str ;;
      goal <~ res_bind (jindex "goal" d) typed_str ;;
      revision <~ res_bind (jindex "revision" d) typed_int ;;
      Ok (MkPlan plan_id goal revision steps)
  | _ => value_error "plan steps must be an array"
  end.

(** ** Well-formed steps: what the constructor guarantees *)

Definition step_wf (s : PlanStep) : Prop :=
  strip (ps_id s) = ps_id s /\ ps_id s <> "" /\
  strip (ps_title s) = ps_title s /\ ps_title s <> "" /\
  match ps_outcome s with
  | None => True
  | Some o => strip o = o /\ o <> "" /\ slen o <= MAX_PLAN_STEP_OUTCOME_CHARS /\
              (ps_status s = StepCompleted \/ ps_status s = Blocked)
  end.

Definition plan_wf (p : PlanSnapshot) : Prop := Forall step_wf (pl_steps p).

Lemma step_status_of_str s : step_status_of (step_status_str s) = Some s.
Proof. by destruct s. Qed.

(** Every step the constructor accepts is well formed. *)
Lemma make_step_wf id title status outcome s :
  make_step id title status outcome = Ok s -> step_wf s.
Proof.
  unfold make_step. intros H. repeat case_match; inv_ok; bsimp;
    repeat match goal with H : nonempty _ = true |- _ => apply nonempty_true in H end;
    unfold step_wf; simpl; rewrite ?strip_idem; simplify_eq; auto 10;
    repeat split; rewrite ?strip_idem; auto.
Qed.

(** The constructor leaves a well-formed step as it is. *)
Lemma make_step_id s :
  step_wf s -> make_step (ps_id s) (ps_title s) (step_status_str (ps_status s)) (ps_outcome s) = Ok s.
Proof.
  destruct s as [id title st o]; unfold step_wf, make_step; simpl.
  intros (-> & ?%nonempty_true & -> & ?%nonempty_true & Ho).
  rewrite step_status_of_str. rewrite H, H0. simpl.
  destruct o as [o|]; [|done]. destruct Ho as (-> & ->%nonempty_true & Hlen & Hst).
  rewrite (proj2 (Z.ltb_ge _ _)) by lia. by destruct Hst as [->| ->].
Qed.

Lemma step_roundtrip s : step_wf s -> step_from_dict (step_to_dict s) = Ok s.
Proof.
  intros Hs. rewrite <-(make_step_id s Hs). by destruct s as [id title st [o|]].
Qed.

Lemma plan_roundtrip p d :
  plan_wf p -> plan_snapshot_to_dict p = JObj d -> plan_snapshot_from_dict d = Ok p.
Proof.
  intros Hp [= <-]. destruct p as [pid goal rev steps]. unfold plan_snapshot_from_dict; simpl.
  assert (Hm : res_map step_from_dict (map step_to_dict steps) = Ok steps).
  { unfold plan_wf in Hp; simpl in Hp. induction Hp as [|s l Hs _ IH]; [done|]. cbn [map res_map].
    by rewrite step_roundtrip, IH by done. }
  by rewrite Hm.
Qed.

(** Whatever a stored plan holds, the plan read from it is well formed. *)
Lemma plan_snapshot_from_dict_wf d p : plan_snapshot_from_dict d = Ok p -> plan_wf p.
Proof.
  unfold plan_snapshot_from_dict. destruct (jget "steps" d); intros H; inv_ok.
  unfold plan_wf; simpl. clear -H. rename H into Hm. revert x Hm.
  induction l as [|j l IH]; intros steps Hm; simpl in Hm; inv_ok; [done|].
  constructor; [|by apply IH].
  unfold step_from_dict in H. repeat case_match; inv_ok; eauto using make_step_wf.
Qed.
