(* ===== verification/Authority.v ===== *)
(** * Execution authority

    agent_core/execution/authority.py, the permission presets of
    agent_core/permissions.py and the routing of agent_core/execution/router.py:
    which scope a call runs in, whether the authority allows it and whether it
    may run without asking the user. *)

From stdpp Require Import base list strings.
From Stdlib Require Import ZArith Lia.
From S2P Require Import Prelude PyData PyStr Json Content.

(** ** Scopes and authorities *)

Inductive ExecutionScope := WORKSPACE | HOST.

#[export] Instance ExecutionScope_eq_dec : EqDecision ExecutionScope.
Proof. solve_decision. Defined.

Definition scope_value (s : ExecutionScope) : string :=
  match s with WORKSPACE => "workspace" | HOST => "host" end.

Definition scope_of (s : string) : option ExecutionScope :=
  if String.eqb s "workspace" then Some WORKSPACE
  else if String.eqb s "host" then Some HOST else None.

Definition SCOPE_RANK (s : ExecutionScope) : Z := match s with WORKSPACE => 0 | HOST => 1 end.

Record ExecutionAuthority := MkAuthority {
  default_scope : ExecutionScope;
  maximum_scope : ExecutionScope;
  unattended_scope : option ExecutionScope;
}.

#[export] Instance ExecutionAuthority_eq_dec : EqDecision ExecutionAuthority.
Proof. solve_decision. Defined.

Definition allows (a : ExecutionAuthority) (s : ExecutionScope) : bool :=
  SCOPE_RANK s <=? SCOPE_RANK (maximum_scope a).

Definition allows_unattended (a : ExecutionAuthority) (s : ExecutionScope) : bool :=
  match unattended_scope a with
  | None => false
  | Some u => SCOPE_RANK s <=? SCOPE_RANK u
  end.

(** [ExecutionAuthority(...)] with [__post_init__]. *)
Definition make_authority (d m : ExecutionScope) (u : option ExecutionScope) : res ExecutionAuthority :=
  let a := MkAuthority d m u in
  if negb (allows a d) then value_error "default execution scope exceeds authority"
  else match u with
       | Some s => if negb (allows a s) then value_error "unattended execution scope exceeds authority"
                   else Ok a
       | None => Ok a
       end.

Definition scopes (a : ExecutionAuthority) : list ExecutionScope :=
  List.filter (allows a) [WORKSPACE; HOST].

(** [min(a, b, key=_SCOPE_RANK.__getitem__)]: the first of the smallest. *)
Definition scope_min (a b : ExecutionScope) : ExecutionScope :=
  if SCOPE_RANK a <=? SCOPE_RANK b then a else b.

Definition intersect (self other : ExecutionAuthority) : res ExecutionAuthority :=
  let maximum := scope_min (maximum_scope self) (maximum_scope other) in
  let default_ := scope_min (scope_min (default_scope self) (default_scope other)) maximum in
  let unattended := match unattended_scope self, unattended_scope other with
                    | Some a, Some b => Some (scope_min (scope_min a b) maximum)
                    | _, _ => None
                    end in
  make_authority default_ maximum unattended.

Definition APPROVAL_REQUIRED_AUTHORITY := MkAuthority WORKSPACE HOST None.
Definition WORKSPACE_ACCESS_AUTHORITY := MkAuthority WORKSPACE HOST (Some WORKSPACE).
Definition WORKSPACE_ONLY_AUTHORITY := MkAuthority WORKSPACE WORKSPACE (Some WORKSPACE).
Definition FULL_ACCESS_AUTHORITY := MkAuthority HOST HOST (Some HOST).

(** ** Permission presets *)

Inductive PermissionPreset := ASK_FOR_APPROVAL | WORKSPACE_ACCESS | FULL_ACCESS.

#[export] Instance PermissionPreset_eq_dec : EqDecision PermissionPreset.
Proof. solve_decision. Defined.

Definition preset_value (p : PermissionPreset) : string :=
  match p with
  | ASK_FOR_APPROVAL => "ask_for_approval"
  | WORKSPACE_ACCESS => "workspace_access"
  | FULL_ACCESS => "full_access"
  end.

(** [PermissionPreset(value)] *)
Definition preset_of (s : string) : res PermissionPreset :=
  if String.eqb s "ask_for_approval" then Ok ASK_FOR_APPROVAL
  else if String.eqb s "workspace_access" then Ok WORKSPACE_ACCESS
  else if String.eqb s "full_access" then Ok FULL_ACCESS
  else value_error ("'" +:+ s +:+ "' is not a valid PermissionPreset").

Definition preset_authority (p : PermissionPreset) : ExecutionAuthority :=
  match p with
  | ASK_FOR_APPROVAL => APPROVAL_REQUIRED_AUTHORITY
  | WORKSPACE_ACCESS => WORKSPACE_ACCESS_AUTHORITY
  | FULL_ACCESS => FULL_ACCESS_AUTHORITY
  end.

(** ** Routing: ExecutionRouter.resolve

    [Executor] abstracts the two command executors the router was built with. *)

Inductive Executor := WorkspaceExecutor | HostExecutor.

#[export] Instance Executor_eq_dec : EqDecision Executor.
Proof. solve_decision. Defined.

Record ResolvedExecution := MkResolved {
  re_scope : option ExecutionScope;
  re_authority : ExecutionAuthority;
  re_executor : option Executor;
}.

Definition WORKSPACE_WRITE_TOOLS : list string := ["apply_patch"; "edit_file"; "write_file"].

Definition name_in (name : string) (names : list string) : bool := existsb (String.eqb name) names.

Definition shell_scope (arguments : list (string * json)) (a : ExecutionAuthority) : res ExecutionScope :=
  match default (JStr (scope_value (default_scope a))) (dget "scope" arguments) with
  | JStr value =>
      match scope_of value with
      | None => value_error "execution scope must be 'workspace' or 'host'"
      | Some scope =>
          if negb (allows a scope)
          then raise EPermissionError ("execution scope '" +:+ scope_value scope +:+ "' exceeds authority")
          else Ok scope
      end
  | _ => value_error "execution scope must be 'workspace' or 'host'"
  end.

(** [call.arguments] of a call without argument error is a dict. *)
Definition args_dict (a : Arguments_) : res (list (string * json)) :=
  match a with
  | ArgsDict d => Ok d
  | ArgsRaw _ => raise ETypeError "'str' object has no attribute 'get'"
  end.

Definition resolve (authority : ExecutionAuthority) (host_tool : string -> bool) (call : ToolCall) :
    res ResolvedExecution :=
  if name_in (tc_name call) ["shell"; "_hook_command"] then
    d <~ args_dict (tc_arguments call) ;;
    scope <~ shell_scope d authority ;;
    Ok (MkResolved (Some scope) authority
          (Some (if bool_decide (scope = WORKSPACE) then WorkspaceExecutor else HostExecutor)))
  else
    let scope :=
      if name_in (tc_name call) WORKSPACE_WRITE_TOOLS then Some WORKSPACE
      else if name_in (tc_name call) ["computer_action"; "computer_screenshot"]
              || host_tool (tc_name call) then Some HOST
      else None in
    match scope with
    | Some s => if negb (allows authority s)
                then raise EPermissionError ("execution scope '" +:+ scope_value s +:+ "' exceeds authority")
                else Ok (MkResolved scope authority None)
    | None => Ok (MkResolved None authority None)
    end.

(** ** Invariant and lemmas *)

(** What [__post_init__] checks. *)
Definition authority_wf (a : ExecutionAuthority) : Prop :=
  allows a (default_scope a) = true /\
  (forall u, unattended_scope a = Some u -> allows a u = true).

Lemma make_authority_wf d m u a : make_authority d m u = Ok a -> authority_wf a.
Proof.
  unfold make_authority, authority_wf. intros H.
  destruct u as [u|]; repeat case_match; inv_ok; bsimp; simpl in *;
    split; try done; intros ? [= <-]; done.
Qed.

Lemma authority_wf_make a :
  authority_wf a -> make_authority (default_scope a) (maximum_scope a) (unattended_scope a) = Ok a.
Proof.
  intros [Hd Hu]. unfold make_authority. destruct a as [d m [u|]]; simpl in *.
  - specialize (Hu u eq_refl). by rewrite Hd, Hu.
  - by rewrite Hd.
Qed.

Lemma preset_authority_wf p : authority_wf (preset_authority p).
Proof. split; [by destruct p|]. intros u. by destruct p; intros [= <-]. Qed.

Lemma preset_of_value p : preset_of (preset_value p) = Ok p.
Proof. by destruct p. Qed.

(** The intersection of two authorities allows exactly what both allow, and
    runs unattended exactly what both run unattended. *)
Lemma intersect_spec a b :
  authority_wf a -> authority_wf b ->
  exists c, intersect a b = Ok c /\ authority_wf c /\
    (forall s, allows c s = allows a s && allows b s) /\
    (forall s, allows_unattended c s = allows_unattended a s && allows_unattended b s).
Proof.
  intros [Hda Hua] [Hdb Hub].
  destruct a as [[] [] [[]|]], b as [[] [] [[]|]]; simpl in *;
    try discriminate; try (specialize (Hua _ eq_refl); discriminate);
    try (specialize (Hub _ eq_refl); discriminate);
    (eexists; split; [reflexivity|split; [split; [done|intros ? [= <-]; done]|split; by intros []]]).
Qed.

(** A resolved call has a scope its authority allows. *)
Lemma resolve_allowed a ht call r :
  resolve a ht call = Ok r ->
  re_authority r = a /\ (forall s, re_scope r = Some s -> allows a s = true).
Proof.
  unfold resolve, shell_scope. intros H.
  repeat case_match; inv_ok; repeat case_match; inv_ok; bsimp; simplify_eq;
    simpl; split; intros; simplify_eq; try done.
Qed.

(** The executor of a resolved command is the one of its scope. *)
Lemma resolve_executor a ht call r e :
  resolve a ht call = Ok r -> re_executor r = Some e ->
  (e = WorkspaceExecutor <-> re_scope r = Some WORKSPACE).
Proof.
  unfold resolve. intros H He.
  repeat case_match; inv_ok; simpl in *; simplify_eq.
  case_bool_decide; naive_solver.
Qed.
