(* ===== verification/Message.v ===== *)
(** * Messages: agent_core/session.py, lines 23-73 and 639-772

    The message type of a Session and its JSON codec. *)

From stdpp Require Import base list strings pretty.
From Stdlib Require Import ZArith Lia.
From S2P Require Import Prelude PyData PyStr Json PyTime Content.

Inductive MessageRole := RSystem | RUser | RAssistant | RTool.
Inductive MessageOrigin :=
| OConversation | OToolMedia | OToolDelivery | OJobResult | OUserInteraction | OHookFeedback.

#[export] Instance MessageRole_eq_dec : EqDecision MessageRole.
Proof. solve_decision. Defined.
#[export] Instance MessageOrigin_eq_dec : EqDecision MessageOrigin.
Proof. solve_decision. Defined.

Definition role_str (r : MessageRole) : string :=
  match r with RSystem => "system" | RUser => "user" | RAssistant => "assistant" | RTool => "tool" end.

Definition role_of (s : string) : option MessageRole :=
  if String.eqb s "system" then Some RSystem
  else if String.eqb s "user" then Some RUser
  else if String.eqb s "assistant" then Some RAssistant
  else if String.eqb s "tool" then Some RTool else None.

Definition origin_str (o : MessageOrigin) : string :=
  match o with
  | OConversation => "conversation" | OToolMedia => "tool_media" | OToolDelivery => "tool_delivery"
  | OJobResult => "job_result" | OUserInteraction => "user_interaction" | OHookFeedback => "hook_feedback"
  end.

(** [data["origin"] if data.get("origin") in {...} else "conversation"] *)
Definition origin_of (j : json) : MessageOrigin :=
  match j with
  | JStr s =>
      if String.eqb s "tool_media" then OToolMedia
      else if String.eqb s "tool_delivery" then OToolDelivery
      else if String.eqb s "job_result" then OJobResult
      else if String.eqb s "user_interaction" then OUserInteraction
      else if String.eqb s "hook_feedback" then OHookFeedback
      else OConversation
  | _ => OConversation
  end.

Record Message := MkMessage {
  m_role : MessageRole;
  m_content : Content;
  m_timestamp_utc : option Z;
  m_tool_calls : list ToolCall;
  m_tool_call_id : option string;
  m_reasoning : option string;
  m_origin : MessageOrigin;
  m_provider_data : list (string * json);
}.

#[export] Instance Message_eq_dec : EqDecision Message.
Proof. solve_decision. Defined.

(** [Message(role=..., content=...)] with the dataclass defaults. *)
Definition plain_message (r : MessageRole) (c : Content) : Message :=
  MkMessage r c None [] None None OConversation [].

Definition m_parts (m : Message) : list ContentPart := content_parts (m_content m).
Definition is_tool_media (m : Message) : bool := bool_decide (m_origin m = OToolMedia).
Definition is_user_authored (m : Message) : bool :=
  bool_decide (m_role m = RUser) &&
  match m_origin m with OConversation | OUserInteraction => true | _ => false end.

(** ** Encoding *)

Definition part_to_dict (p : ContentPart) : json :=
  match p with
  | TextPart t => JObj [("type", JStr "text"); ("text", JStr t)]
  | ImagePart path mime filename size =>
      JObj [("type", JStr "image"); ("path", JStr path); ("filename", JStr filename);
            ("mime_type", JStr mime); ("size_bytes", JInt size)]
  | FilePart path filename mime size =>
      JObj [("type", JStr "file"); ("path", JStr path); ("filename", JStr filename);
            ("mime_type", JStr mime); ("size_bytes", JInt size)]
  end.

Definition content_to_dict (m : Message) : json :=
  match m_parts m with
  | [] => JNull
  | ps => if forallb is_text ps then JStr (sjoin "" (map part_text ps)) else JArr (map part_to_dict ps)
  end.

Definition message_to_dict (include_provider_data : bool) (m : Message) : list (string * json) :=
  [("role", JStr (role_str (m_role m))); ("content", content_to_dict m)]
  ++ match m_timestamp_utc m with Some t => [("timestamp_utc", JStr (format_utc t))] | None => [] end
  ++ match m_tool_calls m with [] => [] | cs => [("tool_calls", JArr (map ToolCall_to_dict cs))] end
  ++ match m_tool_call_id m with Some i => [("tool_call_id", JStr i)] | None => [] end
  ++ match m_reasoning m with Some r => [("reasoning", JStr r)] | None => [] end
  ++ (if include_provider_data && match m_provider_data m with [] => false | _ => true end
      then [("provider_data", JObj (m_provider_data m))] else [])
  ++ (if bool_decide (m_origin m = OConversation) then []
      else [("origin", JStr (origin_str (m_origin m)))]).

(** ** Decoding *)

Definition nonempty_field (k : string) (d : list (string * json)) : res string :=
  match jget k d with
  | JStr s => if nonempty s then Ok s
              else value_error ("attachment " +:+ k +:+ " must be a non-empty string")
  | _ => value_error ("attachment " +:+ k +:+ " must be a non-empty string")
  end.

(** [str(part.get("text", ""))] of a text part. *)
Definition part_from_dict (j : json) : res ContentPart :=
  match j with
  | JObj d =>
      match jget "type" d with
      | JStr ty =>
          if String.eqb ty "text" then
            t <~ typed_str (default (JStr "") (dget "text" d)) ;; Ok (TextPart t)
          else if String.eqb ty "image" || String.eqb ty "file" then
            path <~ nonempty_field "path" d ;;
            filename <~ nonempty_field "filename" d ;;
            mime_type <~ nonempty_field "mime_type" d ;;
            size <~ match jget "size_bytes" d with
                    | JInt z => if z <? 0
                                then value_error "attachment size_bytes must be a non-negative integer"
                                else Ok z
                    | _ => value_error "attachment size_bytes must be a non-negative integer"
                    end ;;
            Ok (if String.eqb ty "image" then ImagePart path mime_type filename size
                else FilePart path filename mime_type size)
          else value_error "unknown message content part type"
      | _ => value_error "unknown message content part type"
      end
  | _ => value_error "message content part must be an object"
  end.

Definition content_from_json (j : json) : res Content :=
  match j with
  | JArr l => ps <~ res_map part_from_dict l ;; Ok (CParts ps)
  | JStr s => Ok (CStr s)
  | JNull => Ok CNone
  | _ => untyped "content"
  end.

Definition calls_from_json (j : json) : res (list ToolCall) :=
  match j with
  | JArr l => res_map ToolCall_from_dict l
  | _ => untyped "tool_calls"
  end.

Definition timestamp_from_json (j : json) : res (option Z) :=
  match j with
  | JStr s => t <~ parse_utc s ;; Ok (Some t)
  | _ => Ok None
  end.

Definition role_from_json (j : json) : res MessageRole :=
  s <~ typed_str j ;; match role_of s with Some r => Ok r | None => untyped "role" end.

Definition message_from_dict (d : list (string * json)) : res Message :=
  content <~ content_from_json (jget "content" d) ;;
  calls <~ calls_from_json (default (JArr []) (dget "tool_calls" d)) ;;
  role <~ res_bind (jindex "role" d) role_from_json ;;
  timestamp <~ timestamp_from_json (jget "timestamp_utc" d) ;;
  tool_call_id <~ typed_ostr (jget "tool_call_id" d) ;;
  provider_data <~ typed_obj (default (JObj []) (dget "provider_data" d)) ;;
  Ok (MkMessage role content timestamp calls tool_call_id (jstr (jget "reasoning" d))
        (origin_of (jget "origin" d)) provider_data).

(** ** What the codec preserves

    Text-only contents are stored as one string, an empty tuple as [null]. *)

Definition canon_content (c : Content) : Content :=
  match content_parts c with
  | [] => CNone
  | ps => if forallb is_text ps then CStr (sjoin "" (map part_text ps)) else CParts ps
  end.

Definition canon (m : Message) : Message :=
  MkMessage (m_role m) (canon_content (m_content m)) (m_timestamp_utc m) (m_tool_calls m)
    (m_tool_call_id m) (m_reasoning m) (m_origin m) (m_provider_data m).

Definition part_wf (p : ContentPart) : Prop :=
  match p with
  | TextPart _ => True
  | ImagePart path mime filename size | FilePart path filename mime size =>
      path <> "" /\ mime <> "" /\ filename <> "" /\ 0 <= size
  end.

Definition message_wf (m : Message) : Prop :=
  Forall part_wf (m_parts m) /\ (forall t, m_timestamp_utc m = Some t -> timestamp_valid t).

Lemma part_roundtrip p : part_wf p -> part_from_dict (part_to_dict p) = Ok p.
Proof.
  destruct p as [t|path mime filename size|path filename mime size]; simpl; [done|..];
    intros (?%nonempty_true & ?%nonempty_true & ?%nonempty_true & ?);
    unfold nonempty_field; simpl; rewrite H, H0, H1; simpl;
    by rewrite (proj2 (Z.ltb_ge _ _)) by lia.
Qed.

Lemma content_roundtrip m :
  Forall part_wf (m_parts m) -> content_from_json (content_to_dict m) = Ok (canon_content (m_content m)).
Proof.
  intros H. unfold content_to_dict, canon_content, m_parts in *.
  destruct (content_parts (m_content m)) as [|p ps]; [done|].
  destruct (forallb is_text (p :: ps)); [done|]. cbn [content_from_json].
  assert (res_map part_from_dict (map part_to_dict (p :: ps)) = Ok (p :: ps)) as Hm.
  { induction H as [|x l Hx _ IH]; [done|]. cbn [map res_map]. by rewrite part_roundtrip, IH. }
  by rewrite Hm.
Qed.

Lemma tool_calls_roundtrip cs : res_map ToolCall_from_dict (map ToolCall_to_dict cs) = Ok cs.
Proof. induction cs as [|c cs IH]; [done|]. cbn [map res_map]. by rewrite ToolCall_roundtrip, IH. Qed.

Lemma origin_of_str o : origin_of (JStr (origin_str o)) = o.
Proof. by destruct o. Qed.

Lemma role_of_str r : role_of (role_str r) = Some r.
Proof. by destruct r. Qed.

(** The fields of an encoded message, whatever optional keys it has. *)
Lemma message_to_dict_fields b m :
  let d := message_to_dict b m in
  dget "role" d = Some (JStr (role_str (m_role m))) /\
  dget "content" d = Some (content_to_dict m) /\
  dget "timestamp_utc" d = (JStr ∘ format_utc) <$> m_timestamp_utc m /\
  dget "tool_calls" d = match m_tool_calls m with [] => None | cs => Some (JArr (map ToolCall_to_dict cs)) end /\
  dget "tool_call_id" d = JStr <$> m_tool_call_id m /\
  dget "reasoning" d = JStr <$> m_reasoning m /\
  dget "provider_data" d = (if b then match m_provider_data m with [] => None | pd => Some (JObj pd) end else None) /\
  dget "origin" d = (if bool_decide (m_origin m = OConversation) then None
                     else Some (JStr (origin_str (m_origin m)))).
Proof.
  destruct m as [r c ts cs ti rs o pd]. unfold message_to_dict; simpl.
  destruct ts, cs, ti, rs, b, pd, o; simpl; auto 10.
Qed.

Lemma calls_from_json_ok m :
  calls_from_json (default (JArr []) match m_tool_calls m with
    | [] => None | cs => Some (JArr (map ToolCall_to_dict cs)) end) = Ok (m_tool_calls m).
Proof. destruct (m_tool_calls m); [done|apply tool_calls_roundtrip]. Qed.

Lemma role_from_json_ok r : role_from_json (JStr (role_str r)) = Ok r.
Proof. by destruct r. Qed.

Lemma timestamp_from_json_ok o :
  (forall t, o = Some t -> timestamp_valid t) ->
  timestamp_from_json match (JStr ∘ format_utc) <$> o with Some v => v | None => JNull end = Ok o.
Proof. destruct o as [t|]; [|done]. intros H. simpl. by rewrite parse_format_utc by auto. Qed.

(** A well-formed message read back from its dict is the message, with its
    content in canonical form. *)
Lemma message_roundtrip m :
  message_wf m -> message_from_dict (message_to_dict true m) = Ok (canon m).
Proof.
  intros [Hp Ht]. destruct (message_to_dict_fields true m) as (H1&H2&H3&H4&H5&H6&H7&H8).
  unfold message_from_dict, jget, jindex. rewrite H1, H2, H3, H4, H5, H6, H7, H8. clear H1 H2 H3 H4 H5 H6 H7 H8.
  rewrite content_roundtrip by done. cbn [res_bind].
  rewrite (calls_from_json_ok m). cbn [res_bind]. rewrite role_from_json_ok. cbn [res_bind].
  rewrite timestamp_from_json_ok by done. unfold canon.
  destruct m as [r c ts cs ti rs o pd]; simpl.
  destruct ti, rs, pd; simpl; destruct o; reflexivity.
Qed.

Lemma filter_text_all ps : forallb is_text ps = true -> List.filter is_text ps = ps.
Proof. induction ps as [|x l IH]; [done|]. simpl. intros H. bsimp. rewrite H. f_equal. auto. Qed.

(** The parts survive up to joining adjacent text. *)
Lemma canon_text m : text_content (m_content (canon m)) = text_content (m_content m).
Proof.
  destruct m as [r c ts cs ti rs o pd]. unfold text_content, canon, canon_content. cbn [m_content].
  destruct (content_parts c) as [|p ps] eqn:E; [done|].
  destruct (forallb is_text (p :: ps)) eqn:F; [|done]. by rewrite (filter_text_all _ F).
Qed.

Lemma canon_authored m : is_user_authored (canon m) = is_user_authored m.
Proof. done. Qed.
