(* ===== verification/Session.v ===== *)
(** * Sessions: agent_core/session.py

    The runtime state of a conversation as a fold over an append-only journal.
    [SessionState] holds the fields [Session.apply_event] projects, [Session]
    adds the journal, the sink and the current turn.  The environment of a
    session (fresh ids, the clock, the outcome of writing to the sink) is a
    record of functions of a counter that each draw advances; [durable] is what
    the sink has accepted.

    The second half is [PlanManager] of agent_core/plan.py. *)

From stdpp Require Import base list strings pretty.
From Stdlib Require Import ZArith Lia.
From S2P Require Import Prelude PyData PyStr Json PyTime Content Plan Authority Message.

(** ** Enumerations *)

Inductive UserAnchorSource := SrcUserInput | SrcSteering | SrcQuestion | SrcApproval.
Inductive TurnStatus :=
| TRunning | TCompleted | TCancelled | TInterrupted | TUnknown | TFailed.
Inductive ToolExecutionStatus := XStarted | XCompleted | XFailed | XCancelled | XUnknown.
Inductive JobExecutionStatus :=
| JSubmitted | JRunning | JCompleted | JFailed | JCancelled | JInterrupted.

#[export] Instance UserAnchorSource_eq_dec : EqDecision UserAnchorSource.
Proof. solve_decision. Defined.
#[export] Instance TurnStatus_eq_dec : EqDecision TurnStatus.
Proof. solve_decision. Defined.
#[export] Instance ToolExecutionStatus_eq_dec : EqDecision ToolExecutionStatus.
Proof. solve_decision. Defined.
#[export] Instance JobExecutionStatus_eq_dec : EqDecision JobExecutionStatus.
Proof. solve_decision. Defined.

Definition source_str (s : UserAnchorSource) : string :=
  match s with
  | SrcUserInput => "user_input" | SrcSteering => "steering"
  | SrcQuestion => "question_response" | SrcApproval => "approval_response"
  end.
Definition source_of (s : string) : option UserAnchorSource :=
  if String.eqb s "user_input" then Some SrcUserInput
  else if String.eqb s "steering" then Some SrcSteering
  else if String.eqb s "question_response" then Some SrcQuestion
  else if String.eqb s "approval_response" then Some SrcApproval else None.

Definition turn_status_str (s : TurnStatus) : string :=
  match s with
  | TRunning => "running" | TCompleted => "completed" | TCancelled => "cancelled"
  | TInterrupted => "interrupted" | TUnknown => "unknown" | TFailed => "failed"
  end.
Definition turn_status_of (s : string) : option TurnStatus :=
  if String.eqb s "running" then Some TRunning
  else if String.eqb s "completed" then Some TCompleted
  else if String.eqb s "cancelled" then Some TCancelled
  else if String.eqb s "interrupted" then Some TInterrupted
  else if String.eqb s "unknown" then Some TUnknown
  else if String.eqb s "failed" then Some TFailed else None.

Definition tool_status_str (s : ToolExecutionStatus) : string :=
  match s with
  | XStarted => "started" | XCompleted => "completed" | XFailed => "failed"
  | XCancelled => "cancelled" | XUnknown => "unknown"
  end.
Definition tool_status_of (s : string) : option ToolExecutionStatus :=
  if String.eqb s "started" then Some XStarted
  else if String.eqb s "completed" then Some XCompleted
  else if String.eqb s "failed" then Some XFailed
  else if String.eqb s "cancelled" then Some XCancelled
  else if String.eqb s "unknown" then Some XUnknown else None.

Definition job_status_str (s : JobExecutionStatus) : string :=
  match s with
  | JSubmitted => "submitted" | JRunning => "running" | JCompleted => "completed"
  | JFailed => "failed" | JCancelled => "cancelled" | JInterrupted => "interrupted"
  end.
Definition job_status_of (s : string) : option JobExecutionStatus :=
  if String.eqb s "submitted" then Some JSubmitted
  else if String.eqb s "running" then Some JRunning
  else if String.eqb s "completed" then Some JCompleted
  else if String.eqb s "failed" then Some JFailed
  else if String.eqb s "cancelled" then Some JCancelled
  else if String.eqb s "interrupted" then Some JInterrupted else None.

(** ** Records *)

Record JournalEvent := MkEvent {
  ev_seq : Z;
  ev_event_id : string;
  ev_event_type : string;
  ev_turn_id : option string;
  ev_timestamp_utc : Z;
  ev_tool_call_id : option string;
  ev_payload : list (string * json);
}.

#[export] Instance JournalEvent_eq_dec : EqDecision JournalEvent.
Proof. solve_decision. Defined.

Record Turn := MkTurn {
  t_turn_id : string;
  t_status : TurnStatus;
  t_started_at : option Z;
  t_finished_at : option Z;
  t_error : option RuntimeErrorInfo;
}.

Record ToolExecution := MkExecution {
  x_tool_call_id : string;
  x_turn_id : option string;
  x_name : string;
  x_arguments : Arguments_;
  x_status : ToolExecutionStatus;
  x_started_at : option Z;
  x_completed_at : option Z;
  x_error : option string;
}.

Record JobExecution := MkJobExecution {
  j_job_id : string;
  j_turn_id : string;
  j_kind : string;
  j_status : JobExecutionStatus;
  j_submitted_at : option Z;
  j_started_at : option Z;
  j_completed_at : option Z;
  j_error : option string;
  j_details : list (string * json);
  j_elapsed_seconds : json;
  j_progress : json;
  j_result_summary : json;
}.

Record UserAnchor := MkUserAnchor {
  ua_turn_id : string;
  ua_content : Content;
  ua_timestamp_utc : Z;
  ua_source : UserAnchorSource;
  ua_item_index : Z;
}.

Record SessionState := MkState {
  items : list Message;
  archived_summary : option string;
  archived_item_cursor : Z;
  compression_count : Z;
  permission_preset : PermissionPreset;
  plan : option PlanSnapshot;
  cache_usage : option CacheUsage;
  input_token_anchor : option InputTokenAnchor;
  turns : list (string * Turn);
  tool_executions : list (string * ToolExecution);
  jobs : list (string * JobExecution);
  user_anchors : list UserAnchor;
}.

Definition initial_state (preset : PermissionPreset) : SessionState :=
  MkState [] None 0 0 preset None None None [] [] [] [].

Definition set_items v s := MkState v (archived_summary s) (archived_item_cursor s) (compression_count s)
  (permission_preset s) (plan s) (cache_usage s) (input_token_anchor s) (turns s) (tool_executions s) (jobs s) (user_anchors s).
Definition set_archive a c n s := MkState (items s) a c n
  (permission_preset s) (plan s) (cache_usage s) (input_token_anchor s) (turns s) (tool_executions s) (jobs s) (user_anchors s).
Definition set_preset_ v s := MkState (items s) (archived_summary s) (archived_item_cursor s) (compression_count s)
  v (plan s) (cache_usage s) (input_token_anchor s) (turns s) (tool_executions s) (jobs s) (user_anchors s).
Definition set_plan_ v s := MkState (items s) (archived_summary s) (archived_item_cursor s) (compression_count s)
  (permission_preset s) v (cache_usage s) (input_token_anchor s) (turns s) (tool_executions s) (jobs s) (user_anchors s).
Definition set_cache v s := MkState (items s) (archived_summary s) (archived_item_cursor s) (compression_count s)
  (permission_preset s) (plan s) v (input_token_anchor s) (turns s) (tool_executions s) (jobs s) (user_anchors s).
Definition set_token_anchor v s := MkState (items s) (archived_summary s) (archived_item_cursor s) (compression_count s)
  (permission_preset s) (plan s) (cache_usage s) v (turns s) (tool_executions s) (jobs s) (user_anchors s).
Definition set_turns v s := MkState (items s) (archived_summary s) (archived_item_cursor s) (compression_count s)
  (permission_preset s) (plan s) (cache_usage s) (input_token_anchor s) v (tool_executions s) (jobs s) (user_anchors s).
Definition set_executions v s := MkState (items s) (archived_summary s) (archived_item_cursor s) (compression_count s)
  (permission_preset s) (plan s) (cache_usage s) (input_token_anchor s) (turns s) v (jobs s) (user_anchors s).
Definition set_jobs v s := MkState (items s) (archived_summary s) (archived_item_cursor s) (compression_count s)
  (permission_preset s) (plan s) (cache_usage s) (input_token_anchor s) (turns s) (tool_executions s) v (user_anchors s).
Definition set_anchors v s := MkState (items s) (archived_summary s) (archived_item_cursor s) (compression_count s)
  (permission_preset s) (plan s) (cache_usage s) (input_token_anchor s) (turns s) (tool_executions s) (jobs s) v.

(** ** Session.apply_event *)

Definition otruthy (o : option string) : option string :=
  match o with Some s => if nonempty s then Some s else None | None => None end.

(** [payload.get("status", "unknown")] of an annotated status. *)
Definition status_field {A} (dec : string -> option A) (payload : list (string * json)) : res A :=
  s <~ typed_str (default (JStr "unknown") (dget "status" payload)) ;;
  match dec s with Some x => Ok x | None => untyped "status" end.

(** [str(payload.get(k, ""))] of an annotated string. *)
Definition str_field (k : string) (payload : list (string * json)) : res string :=
  typed_str (default (JStr "") (dget k payload)).

Definition apply_message (e : JournalEvent) (data : list (string * json)) : M SessionState unit :=
  message <- lift (message_from_dict data) ;;
  s <- get ;;
  let item_index := zlen (items s) in
  modify (set_items (items s ++ [message])) ;;;
  match ev_turn_id e with
  | None => ret tt
  | Some turn_id =>
      if is_user_authored message then
        source <- lift (match default (JStr "user_input") (dget "user_source" (ev_payload e)) with
                        | JStr src => match source_of src with
                                      | Some x => Ok x
                                      | None => value_error ("invalid user anchor source: " +:+ src)
                                      end
                        | _ => value_error "invalid user anchor source"
                        end) ;;
        modify (fun s => set_anchors (user_anchors s ++
          [MkUserAnchor turn_id (m_content message)
             (default (ev_timestamp_utc e) (m_timestamp_utc message)) source item_index]) s)
      else ret tt
  end.

Definition apply_model_completed (e : JournalEvent) : M SessionState unit :=
  (if String.eqb (ev_event_type e) "model_completed" then
     anchor <- lift (match jget "input_token_anchor" (ev_payload e) with
                     | JNull => Ok None
                     | j => a <~ anchor_from_kwargs j ;; Ok (Some a)
                     end) ;;
     modify (set_token_anchor anchor)
   else ret tt) ;;;
  usage <- lift (jindex "usage" (ev_payload e)) ;;
  match usage with
  | JNull => ret tt
  | _ =>
      u <- lift (typed_obj usage) ;;
      input_tokens <- lift (res_bind (jindex "input_tokens" u) typed_oint) ;;
      cache_read <- lift (res_bind (jindex "cache_read_tokens" u) typed_oint) ;;
      match input_tokens, cache_read with
      | Some i, Some c =>
          modify (fun s =>
            let previous := default (MkCacheUsage 0 0) (cache_usage s) in
            set_cache (Some (MkCacheUsage (cu_input_tokens previous + i)
                                          (cu_cache_read_tokens previous + c))) s)
      | _, _ => ret tt
      end
  end.

Definition apply_turn_started (e : JournalEvent) (turn_id : string) : M SessionState unit :=
  modify (fun s => set_turns (dset turn_id
    (MkTurn turn_id TRunning (Some (ev_timestamp_utc e)) None None) (turns s)) s).

Definition apply_turn_finished (e : JournalEvent) (turn_id : string) : M SessionState unit :=
  s <- get ;;
  let turn := default (MkTurn turn_id TUnknown None None None) (dget turn_id (turns s)) in
  modify (set_turns (dset turn_id turn (turns s))) ;;;
  status <- lift (status_field turn_status_of (ev_payload e)) ;;
  let turn := MkTurn (t_turn_id turn) status (t_started_at turn) (Some (ev_timestamp_utc e)) (t_error turn) in
  modify (fun s => set_turns (dset turn_id turn (turns s)) s) ;;;
  error <- lift (match dget "error" (ev_payload e) with
                 | Some j => err <~ runtime_error_from_dict j ;; Ok (Some err)
                 | None => Ok None
                 end) ;;
  modify (fun s => set_turns (dset turn_id
    (MkTurn (t_turn_id turn) status (t_started_at turn) (t_finished_at turn) error) (turns s)) s).

Definition apply_tool_started (e : JournalEvent) (id : string) : M SessionState unit :=
  arguments <- lift (res_bind (jindex "arguments" (ev_payload e)) args_from_json) ;;
  name <- lift (str_field "name" (ev_payload e)) ;;
  modify (fun s => set_executions (dset id
    (MkExecution id (ev_turn_id e) name arguments XStarted (Some (ev_timestamp_utc e)) None None)
    (tool_executions s)) s).

Definition apply_tool_finished (e : JournalEvent) (id : string) : M SessionState unit :=
  s <- get ;;
  execution <- match dget id (tool_executions s) with
               | Some x => ret x
               | None => name <- lift (str_field "name" (ev_payload e)) ;;
                         ret (MkExecution id (ev_turn_id e) name (ArgsDict []) XUnknown None None None)
               end ;;
  modify (fun s => set_executions (dset id execution (tool_executions s)) s) ;;;
  status <- lift (status_field tool_status_of (ev_payload e)) ;;
  modify (fun s => set_executions (dset id
    (MkExecution (x_tool_call_id execution) (x_turn_id execution) (x_name execution)
       (x_arguments execution) status (x_started_at execution) (Some (ev_timestamp_utc e))
       (get_str "error" (ev_payload e))) (tool_executions s)) s).

Definition apply_tool_recovered (e : JournalEvent) (id : string) : M SessionState unit :=
  modify (fun s => match dget id (tool_executions s) with
                   | None => s
                   | Some x => set_executions (dset id
                       (MkExecution (x_tool_call_id x) (x_turn_id x) (x_name x) (x_arguments x) XUnknown
                          (x_started_at x) (Some (ev_timestamp_utc e)) (x_error x)) (tool_executions s)) s
                   end).

Definition apply_job_submitted (e : JournalEvent) : M SessionState unit :=
  match get_str "job_id" (ev_payload e), ev_turn_id e with
  | Some job_id, Some turn_id =>
      kind <- lift (str_field "kind" (ev_payload e)) ;;
      details <- lift (res_bind (jindex "details" (ev_payload e)) typed_obj) ;;
      modify (fun s => set_jobs (dset job_id
        (MkJobExecution job_id turn_id kind JSubmitted (Some (ev_timestamp_utc e)) None None None
           details jzero JNull JNull) (jobs s)) s)
  | _, _ => ret tt
  end.

(** The record of a job, created with [st] when the journal has not submitted it. *)
Definition job_record (e : JournalEvent) (job_id turn_id : string) (st : JobExecutionStatus) :
    M SessionState JobExecution :=
  s <- get ;;
  match dget job_id (jobs s) with
  | Some j => ret j
  | None =>
      kind <- lift (str_field "kind" (ev_payload e)) ;;
      let j := MkJobExecution job_id turn_id kind st None None None None [] jzero JNull JNull in
      modify (set_jobs (dset job_id j (jobs s))) ;;; ret j
  end.

Definition apply_job_started (e : JournalEvent) : M SessionState unit :=
  match get_str "job_id" (ev_payload e), ev_turn_id e with
  | Some job_id, Some turn_id =>
      j <- job_record e job_id turn_id JRunning ;;
      modify (fun s => set_jobs (dset job_id
        (MkJobExecution (j_job_id j) (j_turn_id j) (j_kind j) JRunning (j_submitted_at j)
           (Some (ev_timestamp_utc e)) (j_completed_at j) (j_error j) (j_details j)
           (j_elapsed_seconds j) (j_progress j) (j_result_summary j)) (jobs s)) s)
  | _, _ => ret tt
  end.

(** Each assignment is visible before the next lookup can raise. *)
Definition apply_job_finished (e : JournalEvent) : M SessionState unit :=
  match get_str "job_id" (ev_payload e), ev_turn_id e with
  | Some job_id, Some turn_id =>
      j <- job_record e job_id turn_id JInterrupted ;;
      let status := default JInterrupted
                      (match get_str "status" (ev_payload e) with Some s => job_status_of s | None => None end) in
      let put j := modify (fun s => set_jobs (dset job_id j (jobs s)) s) in
      let j := MkJobExecution (j_job_id j) (j_turn_id j) (j_kind j) status (j_submitted_at j)
                 (j_started_at j) (Some (ev_timestamp_utc e)) (j_error j) (j_details j)
                 (j_elapsed_seconds j) (j_progress j) (j_result_summary j) in
      put j ;;;
      elapsed <- lift (jindex "elapsed_seconds" (ev_payload e)) ;;
      let j := MkJobExecution (j_job_id j) (j_turn_id j) (j_kind j) status (j_submitted_at j)
                 (j_started_at j) (j_completed_at j) (j_error j) (j_details j)
                 elapsed (j_progress j) (j_result_summary j) in
      put j ;;;
      summary <- lift (jindex "result_summary" (ev_payload e)) ;;
      let j := MkJobExecution (j_job_id j) (j_turn_id j) (j_kind j) status (j_submitted_at j)
                 (j_started_at j) (j_completed_at j) (j_error j) (j_details j)
                 elapsed (j_progress j) summary in
      put j ;;;
      progress <- lift (jindex "progress" (ev_payload e)) ;;
      put (MkJobExecution (j_job_id j) (j_turn_id j) (j_kind j) status (j_submitted_at j)
             (j_started_at j) (j_completed_at j) (get_str "error" (ev_payload e)) (j_details j)
             elapsed progress summary)
  | _, _ => ret tt
  end.

Definition apply_context_archived (e : JournalEvent) : M SessionState unit :=
  modify (fun s => set_token_anchor None
                     (set_archive (get_str "summary" (ev_payload e)) (archived_item_cursor s) (compression_count s) s)) ;;;
  cursor <- lift (res_bind (jindex "item_cursor" (ev_payload e)) typed_int) ;;
  modify (fun s => set_archive (archived_summary s) cursor (compression_count s + 1) s).

Definition apply_preset_changed (e : JournalEvent) : M SessionState unit :=
  p <- lift (v <~ res_bind (jindex "preset" (ev_payload e)) typed_str ;; preset_of v) ;;
  modify (set_preset_ p).

Definition type_in (e : JournalEvent) (names : list string) : bool := name_in (ev_event_type e) names.

(** The chain of [if]/[elif] branches, in order. *)
Definition apply_event (e : JournalEvent) : M SessionState unit :=
  match (if type_in e ["message_appended"] then jobj (jget "message" (ev_payload e)) else None) with
  | Some data => apply_message e data
  | None =>
  if type_in e ["model_completed"; "compression_completed"] then apply_model_completed e else
  match (if type_in e ["turn_started"] then otruthy (ev_turn_id e) else None) with
  | Some turn_id => apply_turn_started e turn_id
  | None =>
  match (if startswith "turn_" (ev_event_type e) then otruthy (ev_turn_id e) else None) with
  | Some turn_id => apply_turn_finished e turn_id
  | None =>
  match (if type_in e ["tool_started"] then otruthy (ev_tool_call_id e) else None) with
  | Some id => apply_tool_started e id
  | None =>
  match (if type_in e ["tool_completed"; "tool_failed"; "tool_cancelled"; "tool_unknown"]
         then otruthy (ev_tool_call_id e) else None) with
  | Some id => apply_tool_finished e id
  | None =>
  match (if type_in e ["tool_recovered"] then otruthy (ev_tool_call_id e) else None) with
  | Some id => apply_tool_recovered e id
  | None =>
  if type_in e ["job_submitted"] then apply_job_submitted e else
  if type_in e ["job_started"] then apply_job_started e else
  if type_in e ["job_completed"; "job_failed"; "job_cancelled"; "job_interrupted"]
  then apply_job_finished e else
  if type_in e ["context_archived"] then apply_context_archived e else
  if type_in e ["permission_preset_changed"] then apply_preset_changed e else
  match (if type_in e ["plan_updated"] then jobj (jget "plan" (ev_payload e)) else None) with
  | Some data => p <- lift (plan_snapshot_from_dict data) ;; modify (set_plan_ (Some p))
  | None => ret tt
  end end end end end end end.

(** Replaying a journal, as [JsonlSessionStore.load] does. *)
Definition replay (events : list JournalEvent) : M SessionState unit := for_each apply_event events.

(** ** The live session *)

Record Session := MkSession {
  session_id : string;
  workspace : option string;
  st : SessionState;
  journal : list JournalEvent;
  has_sink : bool;
  current_turn_id : option string;
  tick : nat;
  durable : list JournalEvent;
}.

(** What the session draws from its surroundings: [uuid4()], the UTC clock and
    the outcome of the n-th call of the sink ([None]: accepted). *)
Class Env := {
  uuid4 : nat -> string;
  utcnow : nat -> Z;
  sink_result : nat -> option exn;
}.

Definition set_st v s := MkSession (session_id s) (workspace s) v (journal s) (has_sink s)
  (current_turn_id s) (tick s) (durable s).
Definition set_current v s := MkSession (session_id s) (workspace s) (st s) (journal s) (has_sink s)
  v (tick s) (durable s).
Definition attach_journal_sink (b : bool) s := MkSession (session_id s) (workspace s) (st s) (journal s) b
  (current_turn_id s) (tick s) (durable s).
Definition advance n s := MkSession (session_id s) (workspace s) (st s) (journal s) (has_sink s)
  (current_turn_id s) (tick s + n)%nat (durable s).
Definition append_durable es s := MkSession (session_id s) (workspace s) (st s) (journal s) (has_sink s)
  (current_turn_id s) (tick s) (durable s ++ es).
Definition append_journal es s := MkSession (session_id s) (workspace s) (st s) (journal s ++ es) (has_sink s)
  (current_turn_id s) (tick s) (durable s).

Definition last_seq (j : list JournalEvent) : Z :=
  match last j with Some e => ev_seq e | None => 0 end.
(** [self.journal[-1].seq + 1 if self.journal else 1] *)
Definition next_seq (s : Session) : Z := last_seq (journal s) + 1.

(** Run an action of the projected state inside the session. *)
Definition on_state {A} (c : M SessionState A) : M Session A :=
  fun s => let '(x, r) := c (st s) in (set_st x s, r).

Section ops.
Context `{Env}.

(** The call of the sink, when one is attached. *)
Definition write_sink (es : list JournalEvent) : M Session unit :=
  fun s => if has_sink s then
             match sink_result (tick s) with
             | Some e => (advance 1 s, Err e)
             | None => (append_durable es (advance 1 s), Ok tt)
             end
           else (s, Ok tt).

(** Session._event *)
Definition event (event_type : string) (turn_id : option string) (payload : list (string * json))
    (tool_call_id : option string) : M Session JournalEvent :=
  s <- get ;;
  let e := MkEvent (next_seq s) (uuid4 (tick s)) event_type turn_id (utcnow (tick s)) tool_call_id payload in
  modify (advance 1) ;;;
  write_sink [e] ;;;
  modify (append_journal [e]) ;;;
  on_state (apply_event e) ;;;
  ret e.

Definition event_ (event_type : string) (turn_id : option string) (payload : list (string * json))
    (tool_call_id : option string) : M Session unit :=
  event event_type turn_id payload tool_call_id ;;; ret tt.

(** [turn_id or self._current_turn_id] *)
Definition or_current (turn_id : option string) (s : Session) : option string :=
  match otruthy turn_id with Some t => Some t | None => current_turn_id s end.

Definition begin_turn (turn_id : option string) : M Session string :=
  s <- get ;;
  turn_id <- match turn_id with
             | Some t => if dhas t (turns (st s)) then modify (advance 1) ;;; ret (uuid4 (tick s)) else ret t
             | None => modify (advance 1) ;;; ret (uuid4 (tick s))
             end ;;
  event_ "turn_started" (Some turn_id) [("status", JStr "running")] None ;;;
  modify (set_current (Some turn_id)) ;;;
  ret turn_id.

Definition finish_turn (status : TurnStatus) (turn_id : option string) (error : option RuntimeErrorInfo) :
    M Session unit :=
  s <- get ;;
  match or_current turn_id s with
  | None => ret tt
  | Some turn_id =>
      let payload := [("status", JStr (turn_status_str status))]
                     ++ match error with Some e => [("error", error_info_to_dict e)] | None => [] end in
      event_ ("turn_" +:+ turn_status_str status) (Some turn_id) payload None ;;;
      s <- get ;;
      if bool_decide (Some turn_id = current_turn_id s) then modify (set_current None) else ret tt
  end.

Definition tool_started (call : ToolCall) (turn_id : option string) : M Session unit :=
  s <- get ;;
  event_ "tool_started" (or_current turn_id s)
    [("name", JStr (tc_name call)); ("arguments", args_to_json (tc_arguments call))] (Some (tc_id call)).

Definition tool_finished (call : ToolCall) (status : ToolExecutionStatus) (error : option string)
    (turn_id : option string) : M Session unit :=
  s <- get ;;
  event_ ("tool_" +:+ tool_status_str status) (or_current turn_id s)
    ([("status", JStr (tool_status_str status)); ("name", JStr (tc_name call))]
     ++ match error with Some e => [("error", JStr e)] | None => [] end) (Some (tc_id call)).

Definition model_completed (index : Z) (usage : option TokenUsage) (has_tool_calls : bool)
    (anchor : option InputTokenAnchor) : M Session unit :=
  s <- get ;;
  event_ "model_completed" (current_turn_id s)
    [("model_call_index", JInt index); ("has_tool_calls", JBool has_tool_calls);
     ("usage", usage_to_dict usage); ("input_token_anchor", anchor_to_json anchor)] None.

(** agent_core/llm.py: AuxiliaryModelCall *)
Record AuxiliaryModelCall := MkAuxCall {
  aux_task : string;
  aux_scope : option string;
  aux_attempt : Z;
  aux_status : string;
  aux_started_at_utc : Z;
  aux_duration_ms : Z;
  aux_usage : option TokenUsage;
  aux_error : option string;
}.

Definition auxiliary_model_completed (call : AuxiliaryModelCall) (model : option string)
    (turn_id : option string) : M Session unit :=
  s <- get ;;
  event_ (aux_task call +:+ "_completed")
    (match turn_id with Some t => Some t | None => current_turn_id s end)
    [("model", ostr model); ("scope", ostr (aux_scope call)); ("attempt", JInt (aux_attempt call));
     ("status", JStr (aux_status call)); ("started_at_utc", JStr (format_utc (aux_started_at_utc call)));
     ("duration_ms", JInt (aux_duration_ms call)); ("usage", usage_to_dict (aux_usage call));
     ("error", ostr (aux_error call))] None.

Definition job_submitted (job_id kind turn_id : string) (details : list (string * json)) : M Session unit :=
  event_ "job_submitted" (Some turn_id)
    [("job_id", JStr job_id); ("kind", JStr kind); ("status", JStr "submitted"); ("details", JObj details)] None.

Definition job_started (job_id kind turn_id : string) : M Session unit :=
  event_ "job_started" (Some turn_id)
    [("job_id", JStr job_id); ("kind", JStr kind); ("status", JStr "running")] None.

Definition job_finished (job_id kind : string) (status : JobExecutionStatus) (turn_id : string)
    (elapsed_seconds result_summary progress : json) (error : option string) : M Session unit :=
  event_ ("job_" +:+ job_status_str status) (Some turn_id)
    ([("job_id", JStr job_id); ("kind", JStr kind); ("status", JStr (job_status_str status));
      ("elapsed_seconds", elapsed_seconds); ("result_summary", result_summary); ("progress", progress)]
     ++ match error with Some e => [("error", JStr e)] | None => [] end) None.

Definition set_archived_summary (summary : string) (item_cursor : Z) : M Session unit :=
  s <- get ;;
  let item_cursor := Z.max 0 (Z.min item_cursor (zlen (items (st s)))) in
  event_ "context_archived" (current_turn_id s)
    [("summary", JStr summary); ("item_cursor", JInt item_cursor)] None.

Definition set_permission_preset (preset : PermissionPreset) : M Session unit :=
  s <- get ;;
  if bool_decide (preset = permission_preset (st s)) then ret tt
  else event_ "permission_preset_changed" (current_turn_id s) [("preset", JStr (preset_value preset))] None.

Definition set_plan (snapshot : PlanSnapshot) : M Session unit :=
  event_ "plan_updated" None [("plan", plan_snapshot_to_dict snapshot)] None.

(** The content of a new item: attachments turn it into parts. *)
Definition with_attachments (content : Content) (attachments : list ContentPart) : Content :=
  match attachments with
  | [] => content
  | _ => CParts (content_parts content ++ attachments)
  end.

Definition add_message (message : Message) (source : UserAnchorSource) : M Session unit :=
  s <- get ;;
  event_ "message_appended" (current_turn_id s)
    ([("message", JObj (message_to_dict true message))]
     ++ (if bool_decide (source = SrcUserInput) then [] else [("user_source", JStr (source_str source))]))
    (m_tool_call_id message).

(** Session.add_item: [m] carries the other arguments. *)
Definition add_item (m : Message) (attachments : list ContentPart) (source : UserAnchorSource) : M Session unit :=
  add_message (MkMessage (m_role m) (with_attachments (m_content m) attachments) (m_timestamp_utc m)
                 (m_tool_calls m) (m_tool_call_id m) (m_reasoning m) (m_origin m) (m_provider_data m)) source.

Definition record_user_interaction (content : string) (source : UserAnchorSource) : M Session unit :=
  s <- get ;;
  match current_turn_id s with
  | None => ret tt
  | Some _ => add_item (MkMessage RUser (CStr content) None [] None None OUserInteraction []) [] source
  end.

Definition record_hook (status : string) (payload : list (string * json)) (tool_call_id : option string) :
    M Session unit :=
  s <- get ;;
  event_ ("hook_" +:+ status) (current_turn_id s) payload tool_call_id.

(** ** Session.recover *)

(** The recovery facts of the projected state: turns, then tool executions,
    then jobs, each with type, turn, tool call and payload. *)
Definition recovery_facts (x : SessionState) :
    list (string * option string * option string * list (string * json)) :=
  map (fun t => ("turn_recovered", Some (t_turn_id t), None, [("status", JStr "unknown")]))
    (List.filter (fun t => bool_decide (t_status t = TRunning)) (dvalues (turns x)))
  ++ map (fun e => ("tool_recovered", x_turn_id e, Some (x_tool_call_id e), [("status", JStr "unknown")]))
    (List.filter (fun e => bool_decide (x_status e = XStarted)) (dvalues (tool_executions x)))
  ++ map (fun j => ("job_interrupted", Some (j_turn_id j), None,
        [("job_id", JStr (j_job_id j)); ("kind", JStr (j_kind j)); ("status", JStr "interrupted");
         ("elapsed_seconds", match j_started_at j with Some _ => JNull | None => jzero end);
         ("result_summary", JNull); ("progress", JNull)]))
    (List.filter (fun j => bool_decide (j_status j = JSubmitted) || bool_decide (j_status j = JRunning))
       (dvalues (jobs x))).

Fixpoint number_facts (seq : Z) (n : nat)
    (facts : list (string * option string * option string * list (string * json))) : list JournalEvent :=
  match facts with
  | [] => []
  | (ty, turn, call, payload) :: facts' =>
      MkEvent seq (uuid4 n) ty turn (utcnow n) call payload :: number_facts (seq + 1) (S n) facts'
  end.

Definition recover : M Session (list JournalEvent) :=
  s <- get ;;
  let recovered := number_facts (next_seq s) (tick s) (recovery_facts (st s)) in
  modify (advance (length recovered)) ;;;
  match recovered with [] => ret tt | _ => write_sink recovered end ;;;
  modify (append_journal recovered) ;;;
  on_state (replay recovered) ;;;
  ret recovered.

(** ** PlanManager.update

    [on_update] runs after the revision is in the journal. *)
Definition plan_update (on_update : option (PlanSnapshot -> M Session unit))
    (goal : string) (steps : list PlanStep) : M Session PlanSnapshot :=
  s <- get ;;
  snapshot <- match plan (st s) with
              | Some current =>
                  if String.eqb (pl_goal current) goal
                  then ret (MkPlan (pl_plan_id current) goal (pl_revision current + 1) steps)
                  else modify (advance 1) ;;; ret (MkPlan (uuid4 (tick s)) goal 1 steps)
              | None => modify (advance 1) ;;; ret (MkPlan (uuid4 (tick s)) goal 1 steps)
              end ;;
  set_plan snapshot ;;;
  match on_update with Some f => f snapshot | None => ret tt end ;;;
  ret snapshot.
End ops.
