(* ===== verification/SessionProps.v ===== *)
(** * Properties of sessions

    Event sourcing: every operation keeps the live state equal to the replay of
    the journal, with consecutive sequence numbers and the durable log equal to
    the journal.  Well-formedness of the projected state, crash recovery,
    turn identities, write-ahead failures. *)

From stdpp Require Import base list strings pretty.
From Stdlib Require Import ZArith Lia.
From S2P Require Import Prelude PyData PyStr Json PyTime Content Plan Authority Message Session.

(** ** Dispatch of apply_event *)

Ltac dispatch := unfold apply_event, type_in, name_in; simpl; try reflexivity.

Section dispatch.
Implicit Types (e : JournalEvent) (x : SessionState).

Lemma apply_message_event seq id turn ts call payload data x :
  jget "message" payload = JObj data ->
  apply_event (MkEvent seq id "message_appended" turn ts call payload) x =
  apply_message (MkEvent seq id "message_appended" turn ts call payload) data x.
Proof. intros H. unfold apply_event, type_in, name_in. simpl. by rewrite H. Qed.

Lemma apply_turn_status_event seq id status turn ts call payload x :
  turn <> "" ->
  apply_event (MkEvent seq id ("turn_" +:+ turn_status_str status) (Some turn) ts call payload) x =
  apply_turn_finished (MkEvent seq id ("turn_" +:+ turn_status_str status) (Some turn) ts call payload) turn x.
Proof.
  intros Ht%nonempty_true. unfold apply_event, type_in, name_in. destruct status; simpl; by rewrite Ht.
Qed.

Lemma apply_tool_status_event seq id status turn ts call payload x :
  call <> "" -> status <> XStarted ->
  apply_event (MkEvent seq id ("tool_" +:+ tool_status_str status) turn ts (Some call) payload) x =
  apply_tool_finished (MkEvent seq id ("tool_" +:+ tool_status_str status) turn ts (Some call) payload) call x.
Proof.
  intros Hc%nonempty_true Hs. unfold apply_event, type_in, name_in. destruct status; simpl; by rewrite ?Hc.
Qed.
End dispatch.

(** ** When an event applies without raising *)

Definition apply_ok (ty : string) (turn : option string) (payload : list (string * json))
    (call : option string) (x : SessionState) : Prop :=
  forall seq id ts, snd (apply_event (MkEvent seq id ty turn ts call payload) x) = Ok tt.

Definition user_source_payload (source : UserAnchorSource) : list (string * json) :=
  if bool_decide (source = SrcUserInput) then [] else [("user_source", JStr (source_str source))].

Lemma source_payload_decode data source :
  match default (JStr "user_input") (dget "user_source" ([("message", data)] ++ user_source_payload source)) with
  | JStr src => match source_of src with
                | Some v => Ok v
                | None => value_error ("invalid user anchor source: " +:+ src)
                end
  | _ => value_error "invalid user anchor source"
  end = Ok source.
Proof. by destruct source. Qed.

(** The state after a message event. *)
Definition after_message (m : Message) (turn : option string) (source : UserAnchorSource) (ts : Z)
    (x : SessionState) : SessionState :=
  let x' := set_items (items x ++ [m]) x in
  match turn with
  | Some t => if is_user_authored m
              then set_anchors (user_anchors x ++
                     [MkUserAnchor t (m_content m) (default ts (m_timestamp_utc m)) source (zlen (items x))]) x'
              else x'
  | None => x'
  end.

Lemma apply_message_ok seq id turn ts call m source x :
  message_wf m ->
  apply_event (MkEvent seq id "message_appended" turn ts call
    ([("message", JObj (message_to_dict true m))] ++ user_source_payload source)) x =
  (after_message (canon m) turn source ts x, Ok tt).
Proof.
  intros Hm. rewrite (apply_message_event _ _ _ _ _ _ (message_to_dict true m)) by done.
  unfold apply_message, bind, lift, get, modify. rewrite message_roundtrip by done.
  cbn [ev_turn_id ev_payload ev_timestamp_utc]. unfold after_message.
  destruct turn as [t|]; [|done]. destruct (is_user_authored (canon m)); [|done].
  rewrite source_payload_decode. done.
Qed.

Lemma apply_ok_message turn call m source x :
  message_wf m ->
  apply_ok "message_appended" turn ([("message", JObj (message_to_dict true m))] ++ user_source_payload source)
    call x.
Proof. intros Hm seq id ts. by rewrite apply_message_ok. Qed.

Lemma apply_ok_turn_started turn call payload x : apply_ok "turn_started" (Some turn) payload call x.
Proof.
  intros seq id ts. unfold apply_event, type_in, name_in. simpl.
  destruct (nonempty turn); reflexivity.
Qed.

Definition turn_payload (status : TurnStatus) (error : option RuntimeErrorInfo) : list (string * json) :=
  [("status", JStr (turn_status_str status))]
  ++ match error with Some e => [("error", error_info_to_dict e)] | None => [] end.

(** The turn after a [turn_<status>] event. *)
Definition finished_turn (turn : string) (status : TurnStatus) (error : option RuntimeErrorInfo) (ts : Z)
    (x : SessionState) : Turn :=
  let t := default (MkTurn turn TUnknown None None None) (dget turn (turns x)) in
  MkTurn (t_turn_id t) status (t_started_at t) (Some ts) error.

Lemma dset_dset {V} k (v w : V) d : dset k v (dset k w d) = dset k v d.
Proof.
  induction d as [|[k1 v1] d IH]; simpl; [by rewrite String.eqb_refl|].
  destruct (String.eqb k k1) eqn:E; simpl; rewrite E; [done|]. by rewrite IH.
Qed.

Lemma apply_turn_finished_ok seq id turn status error ts call x :
  turn <> "" -> (forall e, error = Some e -> nonempty (rei_type e) = true) ->
  apply_event (MkEvent seq id ("turn_" +:+ turn_status_str status) (Some turn) ts call
    (turn_payload status error)) x =
  (set_turns (dset turn (finished_turn turn status error ts x) (turns x)) x, Ok tt).
Proof.
  intros Ht He. rewrite apply_turn_status_event by done.
  unfold apply_turn_finished, bind, lift, get, modify.
  cbn [ev_payload ev_timestamp_utc].
  assert (status_field turn_status_of (turn_payload status error) = Ok status) as Hs
    by (destruct status; reflexivity).
  rewrite Hs.
  assert (match dget "error" (turn_payload status error) with
          | Some j => err <~ runtime_error_from_dict j ;; Ok (Some err)
          | None => Ok None end = Ok error) as Herr.
  { destruct error as [e|]; [|done]. cbn -[runtime_error_from_dict error_info_to_dict].
    by rewrite runtime_error_roundtrip by auto. }
  rewrite Herr. unfold set_turns at 1 3 5; simpl. by rewrite !dset_dset.
Qed.

(** An event whose id is falsy changes nothing. *)
Lemma apply_turn_empty seq id status ts call payload x :
  apply_event (MkEvent seq id ("turn_" +:+ turn_status_str status) (Some "") ts call payload) x = (x, Ok tt).
Proof. destruct status; reflexivity. Qed.

Lemma apply_ok_turn_status status turn error call x :
  (forall e, error = Some e -> nonempty (rei_type e) = true) ->
  apply_ok ("turn_" +:+ turn_status_str status) (Some turn) (turn_payload status error) call x.
Proof.
  intros He seq id ts. destruct (decide (turn = "")) as [->|Hn].
  - by rewrite apply_turn_empty.
  - by rewrite apply_turn_finished_ok.
Qed.

Definition tool_payload (name : string) (status : ToolExecutionStatus) (error : option string) :
    list (string * json) :=
  [("status", JStr (tool_status_str status)); ("name", JStr name)]
  ++ match error with Some e => [("error", JStr e)] | None => [] end.

Lemma apply_ok_tool_started turn name args call x :
  apply_ok "tool_started" turn [("name", JStr name); ("arguments", args_to_json args)] (Some call) x.
Proof.
  intros seq id ts. unfold apply_event, type_in, name_in. simpl.
  destruct (nonempty call); [|reflexivity]. by destruct args.
Qed.

Lemma apply_tool_finished_ok seq id turn name status error ts call x :
  call <> "" -> status <> XStarted ->
  exists t, apply_event (MkEvent seq id ("tool_" +:+ tool_status_str status) turn ts (Some call)
      (tool_payload name status error)) x =
    (set_executions (dset call t (tool_executions x)) x, Ok tt) /\
    x_status t = status /\ x_completed_at t = Some ts /\ x_error t = error /\
    x_tool_call_id t = default call (x_tool_call_id <$> dget call (tool_executions x)).
Proof.
  intros Hc Hs. rewrite apply_tool_status_event by done.
  unfold apply_tool_finished, bind, lift, get, modify, ret. cbn [ev_payload ev_timestamp_utc ev_turn_id].
  assert (status_field tool_status_of (tool_payload name status error) = Ok status) as ->
    by (destruct status; reflexivity).
  assert (get_str "error" (tool_payload name status error) = error) as ->
    by (destruct error; reflexivity).
  destruct (dget call (tool_executions x)) as [t|] eqn:E.
  - eexists; split; [unfold set_executions; simpl; rewrite dset_dset; reflexivity|done].
  - assert (str_field "name" (tool_payload name status error) = Ok name) as -> by reflexivity.
    eexists; split; [unfold set_executions; simpl; rewrite dset_dset; reflexivity|done].
Qed.

Lemma apply_ok_tool_finished turn name status error call x :
  status <> XStarted ->
  apply_ok ("tool_" +:+ tool_status_str status) turn (tool_payload name status error) (Some call) x.
Proof.
  intros Hs seq id ts. destruct (decide (call = "")) as [->|Hn].
  - destruct status; try reflexivity; done.
  - destruct (apply_tool_finished_ok seq id turn name status error ts call x Hn Hs) as (t & -> & _). done.
Qed.

Lemma apply_ok_usage ty turn usage rest call x :
  (ty = "model_completed" /\ exists a, jget "input_token_anchor" rest = anchor_to_json a)
    \/ ty = "compression_completed" ->
  jindex "usage" rest = Ok (usage_to_dict usage) ->
  apply_ok ty turn rest call x.
Proof.
  intros Hty Hu seq id ts. unfold apply_event, type_in, name_in.
  destruct Hty as [[-> [a Ha]]| ->]; simpl; unfold apply_model_completed, bind, lift, modify, ret;
    cbn [ev_event_type ev_payload]; simpl.
  - rewrite Ha. destruct a as [[f l i]|]; simpl; rewrite Hu;
      destruct usage as [[[i1|] o t [c|] w]|]; reflexivity.
  - rewrite Hu. destruct usage as [[[i1|] o t [c|] w]|]; reflexivity.
Qed.

Lemma apply_ok_job_submitted job_id kind turn details call x :
  apply_ok "job_submitted" (Some turn)
    [("job_id", JStr job_id); ("kind", JStr kind); ("status", JStr "submitted"); ("details", JObj details)] call x.
Proof. intros seq id ts. reflexivity. Qed.

Lemma apply_ok_job_started job_id kind turn call x :
  apply_ok "job_started" (Some turn)
    [("job_id", JStr job_id); ("kind", JStr kind); ("status", JStr "running")] call x.
Proof.
  intros seq id ts. unfold apply_event, type_in, name_in; simpl.
  unfold apply_job_started, job_record, bind, get, lift, modify, ret; simpl.
  by destruct (dget job_id (jobs x)).
Qed.

Definition job_terminal (s : JobExecutionStatus) : bool :=
  match s with JCompleted | JFailed | JCancelled | JInterrupted => true | _ => false end.

Definition job_payload (job_id kind : string) (status : JobExecutionStatus) (elapsed summary progress : json)
    (error : option string) : list (string * json) :=
  [("job_id", JStr job_id); ("kind", JStr kind); ("status", JStr (job_status_str status));
   ("elapsed_seconds", elapsed); ("result_summary", summary); ("progress", progress)]
  ++ match error with Some e => [("error", JStr e)] | None => [] end.

(** The record a terminal job event leaves. *)
Definition finished_job (job_id kind turn : string) (status : JobExecutionStatus) (elapsed summary progress : json)
    (error : option string) (ts : Z) (x : SessionState) : JobExecution :=
  let j := default (MkJobExecution job_id turn kind JInterrupted None None None None [] jzero JNull JNull)
             (dget job_id (jobs x)) in
  MkJobExecution (j_job_id j) (j_turn_id j) (j_kind j) status (j_submitted_at j) (j_started_at j) (Some ts)
    error (j_details j) elapsed progress summary.

Lemma apply_job_finished_ok seq id job_id kind turn status elapsed summary progress error ts call x :
  job_terminal status = true ->
  apply_event (MkEvent seq id ("job_" +:+ job_status_str status) (Some turn) ts call
    (job_payload job_id kind status elapsed summary progress error)) x =
  (set_jobs (dset job_id (finished_job job_id kind turn status elapsed summary progress error ts x) (jobs x)) x,
   Ok tt).
Proof.
  intros Hs.
  assert (apply_event (MkEvent seq id ("job_" +:+ job_status_str status) (Some turn) ts call
    (job_payload job_id kind status elapsed summary progress error)) x =
    apply_job_finished (MkEvent seq id ("job_" +:+ job_status_str status) (Some turn) ts call
    (job_payload job_id kind status elapsed summary progress error)) x) as -> by (by destruct status).
  unfold apply_job_finished, job_record, bind, get, lift, modify, ret.
  cbn [ev_payload ev_turn_id ev_timestamp_utc].
  assert (get_str "error" (job_payload job_id kind status elapsed summary progress error) = error) as ->
    by (destruct error; reflexivity).
  unfold finished_job. destruct status; try discriminate; simpl;
    destruct (dget job_id (jobs x)) as [j|]; unfold set_jobs; simpl; by rewrite !dset_dset.
Qed.

Lemma apply_ok_job_finished job_id kind turn status elapsed summary progress error call x :
  job_terminal status = true ->
  apply_ok ("job_" +:+ job_status_str status) (Some turn)
    (job_payload job_id kind status elapsed summary progress error) call x.
Proof. intros Hs seq id ts. by rewrite apply_job_finished_ok. Qed.

Lemma apply_ok_archived turn summary cursor call x :
  apply_ok "context_archived" turn [("summary", JStr summary); ("item_cursor", JInt cursor)] call x.
Proof. intros seq id ts. reflexivity. Qed.

Lemma apply_ok_preset turn p call x :
  apply_ok "permission_preset_changed" turn [("preset", JStr (preset_value p))] call x.
Proof. intros seq id ts. by destruct p. Qed.

Lemma apply_plan_event seq id turn ts call p x :
  plan_wf p ->
  apply_event (MkEvent seq id "plan_updated" turn ts call [("plan", plan_snapshot_to_dict p)]) x =
  (set_plan_ (Some p) x, Ok tt).
Proof.
  intros Hp. unfold apply_event, type_in, name_in.
  destruct (plan_snapshot_to_dict p) as [| | | | | |d] eqn:E; try discriminate.
  pose proof (plan_roundtrip p d Hp E) as Hr.
  cbn -[plan_snapshot_from_dict]. unfold bind, lift. by rewrite Hr.
Qed.

Lemma apply_ok_plan turn p call x :
  plan_wf p -> apply_ok "plan_updated" turn [("plan", plan_snapshot_to_dict p)] call x.
Proof. intros Hp seq id ts. by rewrite apply_plan_event. Qed.

Lemma apply_hook_noop seq id status turn ts call payload x :
  apply_event (MkEvent seq id ("hook_" +:+ status) turn ts call payload) x = (x, Ok tt).
Proof. reflexivity. Qed.

Lemma apply_auxiliary_noop seq id task turn ts call payload x :
  task = "memory" \/ task = "session_title" ->
  apply_event (MkEvent seq id (task +:+ "_completed") turn ts call payload) x = (x, Ok tt).
Proof. by intros [->| ->]. Qed.

(** ** The journal invariant *)

Definition seqs_ok (j : list JournalEvent) : Prop :=
  forall i e, j !! i = Some e -> ev_seq e = Z.of_nat i + 1.

(** The live state is the replay of the journal from [x0], the sequence numbers
    are 1, 2, 3, ..., and an attached sink has accepted exactly the journal. *)
Definition journaled (x0 : SessionState) (s : Session) : Prop :=
  replay (journal s) x0 = (st s, Ok tt) /\ seqs_ok (journal s) /\
  (has_sink s = true -> durable s = journal s).

Lemma seqs_ok_next j : seqs_ok j -> last_seq j = zlen j.
Proof.
  intros Hj. unfold last_seq, zlen. destruct (last j) as [e|] eqn:E.
  - rewrite last_lookup in E. apply Hj in E as Hs. apply lookup_lt_Some in E. lia.
  - apply last_None in E as ->. done.
Qed.

Lemma seqs_ok_snoc j e : seqs_ok j -> ev_seq e = last_seq j + 1 -> seqs_ok (j ++ [e]).
Proof.
  intros Hj He i e' [Hi|[Hi Heq]]%lookup_app_Some; [by apply Hj|].
  apply list_lookup_singleton_Some in Heq as [Hi0 <-].
  rewrite He, (seqs_ok_next j Hj). unfold zlen. lia.
Qed.

Lemma replay_app l1 l2 x :
  replay (l1 ++ l2) x = match replay l1 x with
                        | (y, Ok _) => replay l2 y
                        | (y, Err e) => (y, Err e)
                        end.
Proof.
  unfold replay. revert x; induction l1 as [|e l1 IH]; intros x; [done|]. simpl.
  unfold bind. destruct (apply_event e x) as [y [[]|?]]; [apply IH|done].
Qed.

Lemma replay_snoc j e x0 x x' :
  replay j x0 = (x, Ok tt) -> apply_event e x = (x', Ok tt) -> replay (j ++ [e]) x0 = (x', Ok tt).
Proof.
  intros H1 H2. rewrite replay_app, H1. unfold replay; simpl. unfold bind. by rewrite H2.
Qed.

Section live.
Context `{Env}.

(** The event the next call of [_event] creates. *)
Definition next_event (ty : string) (turn : option string) (payload : list (string * json))
    (call : option string) (s : Session) : JournalEvent :=
  MkEvent (next_seq s) (uuid4 (tick s)) ty turn (utcnow (tick s)) call payload.

(** The sink refuses: nothing changes but the counter. *)
Definition refused (s : Session) : Session := advance 1 (advance 1 s).

(** The event is accepted: durable first, then journal and state. *)
Definition accepted (e : JournalEvent) (x : SessionState) (s : Session) : Session :=
  set_st x (append_journal [e]
    (if has_sink s then append_durable [e] (advance 1 (advance 1 s)) else advance 1 s)).

Lemma event_cases ty turn payload call s :
  event ty turn payload call s =
  match (if has_sink s then sink_result (S (tick s)) else None) with
  | Some err => (refused s, Err err)
  | None =>
      let e := next_event ty turn payload call s in
      let '(x, r) := apply_event e (st s) in
      (accepted e x s, match r with Ok _ => Ok e | Err err => Err err end)
  end.
Proof.
  unfold event, bind, get, modify, write_sink, on_state, ret, accepted, refused, next_event, advance, append_durable, append_journal, set_st. simpl.
  replace (tick s + 1)%nat with (S (tick s)) by lia.
  destruct (has_sink s) eqn:Hs; simpl.
  - destruct (sink_result (S (tick s))); [done|].
    destruct (apply_event _ _) as [x [[]|err]]; reflexivity.
  - destruct (apply_event _ _) as [x [[]|err]]; reflexivity.
Qed.

(** Every event operation keeps the invariant: the event is refused by the
    sink, or it is journaled and applied. *)
Lemma event_journaled x0 ty turn payload call s :
  journaled x0 s -> apply_ok ty turn payload call (st s) ->
  journaled x0 (fst (event ty turn payload call s)).
Proof.
  intros (Hr & Hq & Hd) Hok. rewrite event_cases. cbv zeta.
  destruct (if has_sink s then _ else _); [done|].
  destruct (apply_event (next_event ty turn payload call s) (st s)) as [x r] eqn:E.
  assert (r = Ok tt) as -> by (pose proof (Hok (next_seq s) (uuid4 (tick s)) (utcnow (tick s))) as Hk;
    unfold next_event in E; rewrite E in Hk; done).
  unfold accepted. split; [|split]; simpl.
  - destruct (has_sink s); simpl; by eapply replay_snoc.
  - destruct (has_sink s); simpl; by apply seqs_ok_snoc.
  - destruct (has_sink s) eqn:Hs; simpl; [|congruence]. intros _. by rewrite Hd.
Qed.

(** A sink that accepts everything. *)
Definition accepting : Prop := forall n, sink_result n = None.

(** An event the sink accepts and the state takes. *)
Lemma event_accepted ty turn payload call s x :
  accepting -> apply_event (next_event ty turn payload call s) (st s) = (x, Ok tt) ->
  exists s', event_ ty turn payload call s = (s', Ok tt) /\ st s' = x /\ current_turn_id s' = current_turn_id s.
Proof.
  intros Hs Ha. unfold event_, bind. rewrite event_cases, Hs.
  assert (Hif : (if has_sink s then @None exn else None) = None) by (by destruct (has_sink s)). rewrite Hif.
  cbv zeta. rewrite Ha. eexists. split; [done|]. unfold accepted. by destruct (has_sink s).
Qed.

Lemma event__state ty turn payload call s :
  fst (event_ ty turn payload call s) = fst (event ty turn payload call s).
Proof. unfold event_, bind. by destruct (event ty turn payload call s) as [s' [?|?]]. Qed.

Lemma event__journaled x0 ty turn payload call s :
  journaled x0 s -> apply_ok ty turn payload call (st s) ->
  journaled x0 (fst (event_ ty turn payload call s)).
Proof. rewrite event__state. apply event_journaled. Qed.

Lemma advance_journaled x0 n s : journaled x0 s -> journaled x0 (advance n s).
Proof. done. Qed.

Lemma set_current_journaled x0 t s : journaled x0 s -> journaled x0 (set_current t s).
Proof. done. Qed.

(** ** Operations as steps *)

(** One public operation on a session, with arguments of its annotated types:
    a finished tool call has a final status, a finished job one of the three
    outcomes, messages and plans are well formed, an auxiliary call is one of
    the three tasks. *)
Inductive session_step : Session -> Session -> Prop :=
| step_begin_turn t s : session_step s (fst (begin_turn t s))
| step_finish_turn status t err s :
    (forall e, err = Some e -> nonempty (rei_type e) = true) ->
    session_step s (fst (finish_turn status t err s))
| step_add_item m atts src s :
    message_wf (MkMessage (m_role m) (with_attachments (m_content m) atts) (m_timestamp_utc m)
                 (m_tool_calls m) (m_tool_call_id m) (m_reasoning m) (m_origin m) (m_provider_data m)) ->
    session_step s (fst (add_item m atts src s))
| step_interaction text src s : session_step s (fst (record_user_interaction text src s))
| step_tool_started c t s : session_step s (fst (tool_started c t s))
| step_tool_finished c status err t s :
    status <> XStarted -> session_step s (fst (tool_finished c status err t s))
| step_model_completed i u b a s : session_step s (fst (model_completed i u b a s))
| step_auxiliary c m t s :
    name_in (aux_task c) ["compression"; "memory"; "session_title"] = true ->
    session_step s (fst (auxiliary_model_completed c m t s))
| step_job_submitted id k t d s : session_step s (fst (job_submitted id k t d s))
| step_job_started id k t s : session_step s (fst (job_started id k t s))
| step_job_finished id k status t el rs pr err s :
    job_terminal status = true -> session_step s (fst (job_finished id k status t el rs pr err s))
| step_archive summary cursor s : session_step s (fst (set_archived_summary summary cursor s))
| step_preset p s : session_step s (fst (set_permission_preset p s))
| step_plan p s : plan_wf p -> session_step s (fst (set_plan p s))
| step_hook status payload call s : session_step s (fst (record_hook status payload call s))
| step_recover s : session_step s (fst (recover s)).

Lemma bind_fst_ok {S A B} (P : S -> Prop) (c : M S A) (k : A -> M S B) s :
  P (fst (c s)) -> (forall a s', c s = (s', Ok a) -> P s' -> P (fst (k a s'))) -> P (fst (bind c k s)).
Proof. intros H1 H2. unfold bind. destruct (c s) as [s' [a|e]]; simpl in *; auto. Qed.

Lemma begin_turn_journaled x0 t s : journaled x0 s -> journaled x0 (fst (begin_turn t s)).
Proof.
  intros Hj. unfold begin_turn. apply bind_fst_ok; [done|]. intros ? ? [= <- <-] _.
  apply bind_fst_ok; [by destruct t as [t|]; [destruct (dhas t (turns (st s)))|]|].
  intros t' s' _ Hj'. apply bind_fst_ok; [|intros; by apply bind_fst_ok].
  apply event__journaled; [done|apply apply_ok_turn_started].
Qed.

Lemma finish_turn_journaled x0 status t err s :
  (forall e, err = Some e -> nonempty (rei_type e) = true) ->
  journaled x0 s -> journaled x0 (fst (finish_turn status t err s)).
Proof.
  intros He Hj. unfold finish_turn. apply bind_fst_ok; [done|]. intros ? ? [= <- <-] _.
  destruct (or_current t s) as [t'|]; [|done].
  apply bind_fst_ok; [|intros; apply bind_fst_ok; [done|]; intros; by case_bool_decide].
  apply event__journaled; [done|by apply apply_ok_turn_status].
Qed.

Lemma add_item_journaled x0 m atts src s :
  message_wf (MkMessage (m_role m) (with_attachments (m_content m) atts) (m_timestamp_utc m)
               (m_tool_calls m) (m_tool_call_id m) (m_reasoning m) (m_origin m) (m_provider_data m)) ->
  journaled x0 s -> journaled x0 (fst (add_item m atts src s)).
Proof.
  intros Hm Hj. unfold add_item, add_message. apply bind_fst_ok; [done|]. intros ? ? [= <- <-] _.
  apply event__journaled; [done|by apply apply_ok_message].
Qed.

(** The events of [number_facts] apply in every state. *)
Lemma recovery_applies x n seq y : snd (replay (number_facts seq n (recovery_facts x)) y) = Ok tt.
Proof.
  assert (Forall (fun f => forall s i ts w, snd (apply_event (MkEvent s i (fst (fst (fst f)))
            (snd (fst (fst f))) ts (snd (fst f)) (snd f)) w) = Ok tt) (recovery_facts x)) as HF.
  { unfold recovery_facts. apply Forall_app; split; [|apply Forall_app; split];
      apply Forall_forall; intros f (a & -> & _)%list_elem_of_fmap; simpl; intros s i ts w.
    - unfold apply_event, type_in, name_in; simpl. by destruct (nonempty (t_turn_id a)).
    - unfold apply_event, type_in, name_in; simpl. by destruct (nonempty (x_tool_call_id a)).
    - exact (apply_ok_job_finished (j_job_id a) (j_kind a) (j_turn_id a) JInterrupted _ JNull JNull None None w eq_refl s i ts). }
  revert seq n y. induction HF as [|[[[ty tu] ca] pa] l Hf _ IH]; intros seq n y; [done|].
  cbn [number_facts]. unfold replay. cbn [for_each]. unfold bind.
  specialize (Hf seq (uuid4 n) (utcnow n) y). cbn [fst snd] in Hf.
  destruct (apply_event _ y) as [y' [[]|?]]; [|done]. apply IH.
Qed.

Lemma number_facts_seq seq n facts i e :
  number_facts seq n facts !! i = Some e -> ev_seq e = seq + Z.of_nat i.
Proof.
  revert seq n i; induction facts as [|[[[ty tu] ca] pa] l IH]; intros seq n [|i]; simpl; intros Hl;
    simplify_eq; simpl; [lia|]. apply IH in Hl. lia.
Qed.

Lemma recover_journaled x0 s : journaled x0 s -> journaled x0 (fst (recover s)).
Proof.
  intros (Hr & Hq & Hd). unfold recover. apply bind_fst_ok; [done|]. intros ? ? [= <- <-] _.
  set (rec := number_facts (next_seq s) (tick s) (recovery_facts (st s))).
  pose proof (recovery_applies (st s) (tick s) (next_seq s) (st s)) as Hok.
  fold rec in Hok. apply bind_fst_ok; [done|]. intros ? ? [= <- <-] _.
  destruct (replay rec (st s)) as [x r] eqn:E; simpl in Hok; subst r.
  assert (Hseq : seqs_ok (journal s ++ rec)).
  { intros i e [Hi|[Hi He]]%lookup_app_Some; [by apply Hq|]. apply number_facts_seq in He.
    unfold next_seq in He. rewrite (seqs_ok_next _ Hq) in He. unfold zlen in He. lia. }
  assert (Hrep : replay (journal s ++ rec) x0 = (x, Ok tt)) by (by rewrite replay_app, Hr).
  unfold bind, modify, write_sink, on_state, ret, advance, append_durable, append_journal, set_st; simpl.
  destruct rec as [|e0 rec'] eqn:Erec.
  - cbn in E. injection E as <-. cbn. rewrite app_nil_r in *. done.
  - destruct (has_sink s) eqn:Hs; simpl.
    + destruct (sink_result _); simpl; [by split; [|split; [|intros; auto]]|].
      rewrite E. simpl. split; [|split]; simpl; [done|done|]. intros _. by rewrite Hd.
    + rewrite E. simpl. split; [|split]; simpl; [done|done|congruence].
Qed.

(** Every operation keeps the journal invariant. *)
Lemma session_step_journaled x0 s s' : session_step s s' -> journaled x0 s -> journaled x0 s'.
Proof.
  destruct 1; intros Hj.
  - by apply begin_turn_journaled.
  - by apply finish_turn_journaled.
  - by apply add_item_journaled.
  - unfold record_user_interaction. apply bind_fst_ok; [done|]. intros ? ? [= <- <-] _.
    destruct (current_turn_id s); [|done]. apply add_item_journaled; [|done].
    split; [by repeat constructor|done].
  - unfold tool_started. apply bind_fst_ok; [done|]. intros ? ? [= <- <-] _.
    apply event__journaled; [done|apply apply_ok_tool_started].
  - unfold tool_finished. apply bind_fst_ok; [done|]. intros ? ? [= <- <-] _.
    apply event__journaled; [done|by apply apply_ok_tool_finished].
  - unfold model_completed. apply bind_fst_ok; [done|]. intros ? ? [= <- <-] _.
    apply event__journaled; [done|]. eapply apply_ok_usage; [left; split; [done|by exists a]|done].
  - unfold auxiliary_model_completed. apply bind_fst_ok; [done|]. intros ? ? [= <- <-] _.
    apply event__journaled; [done|]. destruct c as [task scope att status sa dm u err]; simpl in *.
    unfold name_in in H0; simpl in H0. rewrite !orb_true_iff, !String.eqb_eq in H0.
    destruct H0 as [->|[->|[->|?]]]; [|intros ? ? ?; reflexivity..|done].
    eapply apply_ok_usage; [by right|done].
  - apply event__journaled; [done|apply apply_ok_job_submitted].
  - apply event__journaled; [done|apply apply_ok_job_started].
  - apply event__journaled; [done|by apply apply_ok_job_finished].
  - unfold set_archived_summary. apply bind_fst_ok; [done|]. intros ? ? [= <- <-] _.
    apply event__journaled; [done|apply apply_ok_archived].
  - unfold set_permission_preset. apply bind_fst_ok; [done|]. intros ? ? [= <- <-] _.
    case_bool_decide; [done|]. apply event__journaled; [done|apply apply_ok_preset].
  - apply event__journaled; [done|by apply apply_ok_plan].
  - unfold record_hook. apply bind_fst_ok; [done|]. intros ? ? [= <- <-] _.
    apply event__journaled; [done|]. intros ? ? ?. by rewrite apply_hook_noop.
  - by apply recover_journaled.
Qed.
End live.
