(* ===== verification/SessionState.v ===== *)
(** * Well-formed session states

    The invariant of the projected state that every event of any journal keeps,
    well typed or not: the dictionaries are keyed by the ids of their records,
    and every user anchor points at the user-authored item it was taken from. *)

From stdpp Require Import base list strings pretty.
From Stdlib Require Import ZArith Lia Sorted.
From S2P Require Import Prelude PyData PyStr Json PyTime Content Plan Authority Message Session SessionProps.

Definition turns_wf (d : list (string * Turn)) : Prop :=
  NoDup (dkeys d) /\ Forall (fun kt => t_turn_id (snd kt) = fst kt /\ fst kt <> "") d.
Definition executions_wf (d : list (string * ToolExecution)) : Prop :=
  NoDup (dkeys d) /\ Forall (fun kx => x_tool_call_id (snd kx) = fst kx /\ fst kx <> "") d.
Definition jobs_wf (d : list (string * JobExecution)) : Prop :=
  NoDup (dkeys d) /\ Forall (fun kj => j_job_id (snd kj) = fst kj) d.

Definition anchor_wf (its : list Message) (a : UserAnchor) : Prop :=
  exists i m, ua_item_index a = Z.of_nat i /\ its !! i = Some m /\
              is_user_authored m = true /\ ua_content a = m_content m.

Record state_wf (x : SessionState) : Prop := {
  wf_turns : turns_wf (turns x);
  wf_executions : executions_wf (tool_executions x);
  wf_jobs : jobs_wf (jobs x);
  wf_anchors : Forall (anchor_wf (items x)) (user_anchors x);
  wf_anchor_order : StronglySorted Z.lt (map ua_item_index (user_anchors x));
  wf_plan : forall p, plan x = Some p -> plan_wf p;
}.

Lemma initial_state_wf p : state_wf (initial_state p).
Proof. split; try done; try (split; constructor); constructor. Qed.

(** ** Updates that keep it *)

Lemma wf_set_turn k t x :
  state_wf x -> t_turn_id t = k -> k <> "" -> state_wf (set_turns (dset k t (turns x)) x).
Proof.
  intros [[Hn Hf] Hx Hj Ha Ho Hp] Hk Hne. split; try done. split; [by apply dset_NoDup|].
  apply Forall_dset; auto.
Qed.

Lemma wf_set_execution k t x :
  state_wf x -> x_tool_call_id t = k -> k <> "" -> state_wf (set_executions (dset k t (tool_executions x)) x).
Proof.
  intros [Ht [Hn Hf] Hj Ha Ho Hp] Hk Hne. split; try done. split; [by apply dset_NoDup|].
  apply Forall_dset; auto.
Qed.

Lemma wf_set_job k j x :
  state_wf x -> j_job_id j = k -> state_wf (set_jobs (dset k j (jobs x)) x).
Proof.
  intros [Ht Hx [Hn Hf] Ha Ho Hp] Hk. split; try done. split; [by apply dset_NoDup|].
  apply Forall_dset; auto.
Qed.

Lemma wf_turn_lookup x k t : state_wf x -> dget k (turns x) = Some t -> t_turn_id t = k.
Proof.
  intros [[_ Hf] _ _ _ _ _] H%dget_Some_in. rewrite Forall_forall in Hf. by apply Hf in H as [? _].
Qed.

Lemma wf_execution_lookup x k t : state_wf x -> dget k (tool_executions x) = Some t -> x_tool_call_id t = k.
Proof.
  intros [_ [_ Hf] _ _ _ _] H%dget_Some_in. rewrite Forall_forall in Hf. by apply Hf in H as [? _].
Qed.

Lemma wf_job_lookup x k j : state_wf x -> dget k (jobs x) = Some j -> j_job_id j = k.
Proof.
  intros [_ _ [_ Hf] _ _ _] H%dget_Some_in. rewrite Forall_forall in Hf. by apply Hf in H.
Qed.

Lemma anchor_wf_app its m a : anchor_wf its a -> anchor_wf (its ++ [m]) a.
Proof.
  intros (i & m' & Hi & Hl & Hm). exists i, m'. split; [done|]. split; [|done].
  by apply lookup_app_l_Some.
Qed.

Lemma wf_add_item m x : state_wf x -> state_wf (set_items (items x ++ [m]) x).
Proof.
  intros [Ht Hx Hj Ha Ho Hp]. split; try done. simpl.
  eapply Forall_impl; [done|]. intros a. apply anchor_wf_app.
Qed.

Lemma StronglySorted_snoc l (z : Z) :
  StronglySorted Z.lt l -> Forall (fun y => y < z) l -> StronglySorted Z.lt (l ++ [z]).
Proof.
  induction 1 as [|y l Hl IH Hy]; intros Hz; simpl; [by repeat constructor|].
  apply Forall_cons_1 in Hz as [Hyz Hz]. constructor; [by apply IH|].
  apply Forall_app; split; [done|by constructor].
Qed.

Lemma wf_add_anchor m t ts src x :
  state_wf x -> is_user_authored m = true ->
  state_wf (set_anchors (user_anchors x ++ [MkUserAnchor t (m_content m) ts src (zlen (items x))])
              (set_items (items x ++ [m]) x)).
Proof.
  intros Hx Hm. pose proof (wf_add_item m x Hx) as Hx'. destruct Hx as [Ht Hx Hj Ha Ho Hp].
  split; try apply Hx'; simpl.
  - apply Forall_app; split; [apply Hx'|]. constructor; [|done].
    exists (length (items x)), m. split; [done|]. split; [|done].
    by rewrite lookup_app_r, Nat.sub_diag by lia.
  - rewrite map_app. apply StronglySorted_snoc; [done|]. apply Forall_forall.
    intros z (a & -> & Hin)%list_elem_of_fmap. rewrite Forall_forall in Ha.
    destruct (Ha a Hin) as (i & m' & -> & Hl & _). apply lookup_lt_Some in Hl.
    simpl. unfold zlen. lia.
Qed.

(** Setters of the other fields. *)
Lemma wf_neutral x y :
  state_wf x -> turns y = turns x -> tool_executions y = tool_executions x -> jobs y = jobs x ->
  items y = items x -> user_anchors y = user_anchors x -> plan y = plan x -> state_wf y.
Proof.
  intros [] H1 H2 H3 H4 H5 H6.
  split; [rewrite H1|rewrite H2|rewrite H3|rewrite H4, H5|rewrite H5|rewrite H6]; done.
Qed.

Ltac wf_neutral := eapply wf_neutral; [eassumption|reflexivity..].

(** ** Every event keeps it *)

Lemma otruthy_some o t : otruthy o = Some t -> t <> "".
Proof. destruct o as [s|]; simpl; [|done]. destruct (nonempty s) eqn:E; [|done]. intros [= <-]. by apply nonempty_true. Qed.

Lemma apply_message_wf e data : preserves state_wf (apply_message e data).
Proof.
  intros x Hx. unfold apply_message, bind, lift, get, modify, ret.
  destruct (message_from_dict data) as [m|]; [|done].
  destruct (ev_turn_id e) as [t|]; [|by apply wf_add_item].
  destruct (is_user_authored m) eqn:Hm; [|by apply wf_add_item].
  repeat case_match; simplify_eq; simpl; try (by apply wf_add_item).
  by apply wf_add_anchor.
Qed.

Lemma apply_model_completed_wf e : preserves state_wf (apply_model_completed e).
Proof.
  intros x Hx. unfold apply_model_completed, bind, lift, get, modify, ret.
  repeat case_match; simplify_eq; simpl; try done; wf_neutral.
Qed.

Lemma apply_turn_finished_wf e t : t <> "" -> preserves state_wf (apply_turn_finished e t).
Proof.
  intros Ht x Hx. unfold apply_turn_finished, bind, lift, get, modify, ret.
  set (t0 := default (MkTurn t TUnknown None None None) (dget t (turns x))).
  assert (t_turn_id t0 = t) as Hid.
  { subst t0. destruct (dget t (turns x)) eqn:E; [by eapply wf_turn_lookup|done]. }
  clearbody t0. pose proof (wf_set_turn t t0 x Hx Hid Ht) as H1.
  destruct (status_field _ _) as [status|]; [|done].
  set (t1 := MkTurn (t_turn_id t0) _ _ _ _).
  pose proof (wf_set_turn t t1 _ H1 Hid Ht) as H2.
  destruct (match dget "error" (ev_payload e) with Some _ => _ | None => _ end); [|done].
  by apply (wf_set_turn t (MkTurn (t_turn_id t1) status _ _ _) _ H2).
Qed.

Lemma apply_tool_finished_wf e c : c <> "" -> preserves state_wf (apply_tool_finished e c).
Proof.
  intros Hc x Hx. unfold apply_tool_finished, bind, lift, get, modify, ret.
  destruct (dget c (tool_executions x)) as [t|] eqn:E.
  - pose proof (wf_execution_lookup _ _ _ Hx E) as Hid.
    pose proof (wf_set_execution c t x Hx Hid Hc) as H1.
    destruct (status_field _ _); [|done]. by apply wf_set_execution.
  - destruct (str_field _ _) as [name|]; [|done].
    set (t := MkExecution c _ _ _ _ _ _ _).
    pose proof (wf_set_execution c t x Hx eq_refl Hc) as H1.
    destruct (status_field _ _); [|done]. by apply wf_set_execution.
Qed.

Lemma job_record_wf e id t s0 x :
  state_wf x ->
  match job_record e id t s0 x with
  | (y, Ok j) => state_wf y /\ j_job_id j = id
  | (y, Err _) => state_wf y
  end.
Proof.
  intros Hx. unfold job_record, bind, lift, get, modify, ret.
  destruct (dget id (jobs x)) as [j|] eqn:E; [split; [done|by eapply wf_job_lookup]|].
  destruct (str_field _ _); [|done]. split; [by apply wf_set_job|done].
Qed.

Lemma apply_job_started_wf e : preserves state_wf (apply_job_started e).
Proof.
  intros x Hx. unfold apply_job_started.
  destruct (get_str "job_id" _) as [id|]; [|done]. destruct (ev_turn_id e) as [t|]; [|done].
  pose proof (job_record_wf e id t JRunning x Hx) as H. unfold bind.
  destruct (job_record e id t JRunning x) as [y [j|]]; [|done]. destruct H as [Hy Hid].
  by apply wf_set_job.
Qed.

Lemma apply_job_finished_wf e : preserves state_wf (apply_job_finished e).
Proof.
  intros x Hx. unfold apply_job_finished.
  destruct (get_str "job_id" _) as [id|]; [|done]. destruct (ev_turn_id e) as [t|]; [|done].
  pose proof (job_record_wf e id t JInterrupted x Hx) as H. unfold bind at 1.
  destruct (job_record e id t JInterrupted x) as [y [j|]]; [|done]. destruct H as [Hy Hid].
  unfold bind, lift, modify. simpl.
  repeat (match goal with |- context [jindex ?k ?p] => destruct (jindex k p) end; simpl);
    repeat apply wf_set_job; done.
Qed.

Lemma if_some {A} (b : bool) (o : option A) a : (if b then o else None) = Some a -> o = Some a.
Proof. by destruct b. Qed.

(** Any event, applied to a well-formed state, leaves a well-formed state, even
    when it raises. *)
Ltac take_guard E := match goal with
  |- context [match (if ?b then ?o else None) with Some _ => _ | None => _ end] =>
    destruct (if b then o else None) eqn:E; [apply if_some in E|clear E]
  end.
Ltac branch := match goal with |- context [if type_in ?e ?l then _ else _] => destruct (type_in e l) end.

Lemma apply_event_wf e : preserves state_wf (apply_event e).
Proof.
  intros x Hx. unfold apply_event.
  take_guard E; [by apply apply_message_wf|]. branch; [by apply apply_model_completed_wf|].
  take_guard E; [apply otruthy_some in E; by apply wf_set_turn|].
  take_guard E; [apply otruthy_some in E; by apply apply_turn_finished_wf|].
  take_guard E.
  { apply otruthy_some in E. unfold apply_tool_started, bind, lift, modify.
    repeat case_match; simplify_eq; try done. by apply wf_set_execution. }
  take_guard E; [apply otruthy_some in E; by apply apply_tool_finished_wf|].
  take_guard E.
  { apply otruthy_some in E. unfold apply_tool_recovered, modify; simpl.
    destruct (dget _ _) eqn:Ed; [|done]. apply wf_set_execution; [done| |done].
    by eapply wf_execution_lookup in Ed. }
  branch.
  { unfold apply_job_submitted, bind, lift, modify. repeat case_match; simplify_eq; try done.
    by apply wf_set_job. }
  branch; [by apply apply_job_started_wf|]. branch; [by apply apply_job_finished_wf|].
  branch.
  { unfold apply_context_archived, bind, lift, modify; repeat case_match; simplify_eq; simpl; wf_neutral. }
  branch.
  { unfold apply_preset_changed, bind, lift, modify; repeat case_match; simplify_eq; simpl; try done; wf_neutral. }
  take_guard E; [|done]. unfold bind, lift, modify. destruct (plan_snapshot_from_dict _) as [p|] eqn:Ep; [|done].
  destruct Hx. split; try done. simpl. intros ? [= <-]. by eapply plan_snapshot_from_dict_wf.
Qed.

Lemma replay_wf es : preserves state_wf (replay es).
Proof. apply preserves_for_each, apply_event_wf. Qed.
