(* ===== verification/Recovery.v ===== *)
(** * Crash recovery: Session.recover

    Recovery settles what a crash left open: running turns and started tool
    executions become [unknown], submitted or running jobs [interrupted];
    everything else stays as it is.  The three groups of facts act on three
    dictionaries in the same way, so the argument is made once, over a lens. *)

From stdpp Require Import base list strings pretty.
From Stdlib Require Import ZArith Lia.
From S2P Require Import Prelude PyData PyStr Json PyTime Content Plan Authority Message.
From S2P Require Import Session SessionProps SessionState.

Notation fact := (string * option string * option string * list (string * json))%type.

Definition fact_event (seq : Z) (id : string) (ts : Z) (f : fact) : JournalEvent :=
  let '(ty, turn, call, payload) := f in MkEvent seq id ty turn ts call payload.

Section component.
Context `{Env} {V : Type} (key : V -> string) (proj : SessionState -> list (string * V))
  (put : list (string * V) -> SessionState -> SessionState) (mk : V -> fact) (upd : Z -> V -> V)
  (good : V -> Prop).
Hypothesis proj_put : forall d y, proj (put d y) = d.
Hypothesis put_put : forall d d' y, put d (put d' y) = put d y.
Hypothesis put_proj : forall y, put (proj y) y = y.
Hypothesis step : forall seq id ts y v,
  dget (key v) (proj y) = Some v -> good v ->
  apply_event (fact_event seq id ts (mk v)) y = (put (dset (key v) (upd ts v) (proj y)) y, Ok tt).

Lemma replay_component vs seq n y :
  Forall (fun v => dget (key v) (proj y) = Some v /\ good v) vs -> NoDup (map key vs) ->
  exists d, replay (number_facts seq n (map mk vs)) y = (put d y, Ok tt) /\
    dkeys d = dkeys (proj y) /\
    (forall v, v ∈ vs -> exists ts, dget (key v) d = Some (upd ts v)) /\
    (forall k, k ∉ map key vs -> dget k d = dget k (proj y)).
Proof.
  revert seq n y; induction vs as [|v vs IH]; intros seq n y Hvs Hnd.
  - exists (proj y). cbn. rewrite put_proj. split; [done|]. split; [done|].
    split; [intros v Hv; by apply not_elem_of_nil in Hv|done].
  - cbn [map] in Hnd. apply NoDup_cons in Hnd as [Hni Hnd]. apply Forall_cons_1 in Hvs as [[Hv Hg] Hvs].
    set (d1 := dset (key v) (upd (utcnow n) v) (proj y)).
    destruct (IH (seq + 1) (S n) (put d1 y)) as (d & Hd & Hk & Hin & Hout); [|done|].
    { apply Forall_forall. intros w Hw. rewrite Forall_forall in Hvs. destruct (Hvs w Hw) as [Hg1 Hg2].
      rewrite proj_put. split; [|done]. unfold d1. rewrite dget_dset_ne; [done|].
      intros Heq. apply Hni. rewrite Heq. apply list_elem_of_fmap. eauto. }
    rewrite put_put in Hd. rewrite proj_put in Hk, Hout. exists d. split; [|split; [|split]].
    + cbn [map number_facts]. pose proof (step seq (uuid4 n) (utcnow n) y v Hv Hg) as Hs.
      destruct (mk v) as [[[ty tu] ca] pa]. unfold replay in *. cbn [for_each]. unfold bind.
      cbn [fact_event] in Hs. rewrite Hs. exact Hd.
    + rewrite Hk. unfold d1. rewrite dkeys_dset. unfold dhas. by rewrite Hv.
    + intros w [->|Hw]%elem_of_cons; [|by apply Hin]. exists (utcnow n).
      rewrite Hout by done. unfold d1. apply dget_dset_eq.
    + intros k Hk'. cbn [map] in Hk'. apply not_elem_of_cons in Hk' as [Hne Hk'].
      rewrite Hout by done. unfold d1. by apply dget_dset_ne.
Qed.
End component.

(** What a dictionary of well-keyed records gives to the lemma above. *)
Lemma values_lookup {V} (key : V -> string) (P : V -> bool) (d : list (string * V)) (Q : V -> Prop) :
  NoDup (dkeys d) -> Forall (fun kv => key (snd kv) = fst kv /\ Q (snd kv)) d ->
  Forall (fun v => dget (key v) d = Some v /\ Q v) (List.filter P (dvalues d)) /\
  NoDup (map key (List.filter P (dvalues d))) /\
  (forall v, v ∈ List.filter P (dvalues d) <-> dget (key v) d = Some v /\ P v = true).
Proof.
  intros Hnd Hf. assert (Hval : forall v, v ∈ dvalues d -> dget (key v) d = Some v /\ Q v).
  { intros v ([k v'] & -> & Hin)%list_elem_of_fmap. rewrite Forall_forall in Hf.
    destruct (Hf _ Hin) as [Hk HQ]; simpl in *. split; [|done]. rewrite Hk. by apply dget_in_NoDup. }
  split; [|split].
  - apply Forall_forall. intros v Hv. apply Hval. apply list_elem_of_In, filter_In in Hv as [Hv _].
    by apply list_elem_of_In.
  - assert (Hk : map key (dvalues d) = dkeys d).
    { unfold dvalues, dkeys. rewrite map_map. clear Hnd Hval. induction Hf as [|kv d [Hkv _] _ IH]; [done|].
      simpl. by rewrite Hkv, IH. }
    rewrite <-Hk in Hnd. clear -Hnd. induction (dvalues d) as [|v l IH]; [done|]. simpl in *.
    apply NoDup_cons in Hnd as [Hni Hnd]. specialize (IH Hnd). destruct (P v); [|done]. simpl.
    constructor; [|done]. intros Hin. apply Hni.
    apply list_elem_of_fmap in Hin as (w & -> & Hw). apply list_elem_of_fmap. exists w. split; [done|].
    apply list_elem_of_In, filter_In in Hw as [Hw _]. by apply list_elem_of_In.
  - intros v. rewrite !list_elem_of_In, filter_In. rewrite <-list_elem_of_In. split.
    + intros [Hv HP]. split; [by apply Hval|done].
    + intros [Hv HP]. split; [|done]. apply dget_Some_in in Hv. apply list_elem_of_fmap.
      by exists (key v, v).
Qed.

(** ** The three groups *)

Definition open_turn (t : Turn) : bool := bool_decide (t_status t = TRunning).
Definition open_execution (e : ToolExecution) : bool := bool_decide (x_status e = XStarted).
Definition open_job (j : JobExecution) : bool :=
  bool_decide (j_status j = JSubmitted) || bool_decide (j_status j = JRunning).

Definition turn_fact (t : Turn) : fact := ("turn_recovered", Some (t_turn_id t), None, [("status", JStr "unknown")]).
Definition execution_fact (e : ToolExecution) : fact :=
  ("tool_recovered", x_turn_id e, Some (x_tool_call_id e), [("status", JStr "unknown")]).
Definition job_fact (j : JobExecution) : fact :=
  ("job_interrupted", Some (j_turn_id j), None,
   [("job_id", JStr (j_job_id j)); ("kind", JStr (j_kind j)); ("status", JStr "interrupted");
    ("elapsed_seconds", match j_started_at j with Some _ => JNull | None => jzero end);
    ("result_summary", JNull); ("progress", JNull)]).

Definition settle_turn (ts : Z) (t : Turn) : Turn :=
  MkTurn (t_turn_id t) TUnknown (t_started_at t) (Some ts) None.
Definition settle_execution (ts : Z) (e : ToolExecution) : ToolExecution :=
  MkExecution (x_tool_call_id e) (x_turn_id e) (x_name e) (x_arguments e) XUnknown (x_started_at e) (Some ts)
    (x_error e).
Definition settle_job (ts : Z) (j : JobExecution) : JobExecution :=
  MkJobExecution (j_job_id j) (j_turn_id j) (j_kind j) JInterrupted (j_submitted_at j) (j_started_at j) (Some ts)
    None (j_details j) (match j_started_at j with Some _ => JNull | None => jzero end) JNull JNull.

Lemma step_turn seq id ts y t :
  dget (t_turn_id t) (turns y) = Some t -> t_turn_id t <> "" ->
  apply_event (fact_event seq id ts (turn_fact t)) y =
  (set_turns (dset (t_turn_id t) (settle_turn ts t) (turns y)) y, Ok tt).
Proof.
  intros Hg Hne%nonempty_true. unfold apply_event, type_in, name_in. simpl. rewrite Hne.
  unfold apply_turn_finished, bind, get, modify, lift. simpl. rewrite Hg. simpl.
  unfold set_turns; simpl. by rewrite !dset_dset.
Qed.

Lemma step_execution seq id ts y e :
  dget (x_tool_call_id e) (tool_executions y) = Some e -> x_tool_call_id e <> "" ->
  apply_event (fact_event seq id ts (execution_fact e)) y =
  (set_executions (dset (x_tool_call_id e) (settle_execution ts e) (tool_executions y)) y, Ok tt).
Proof.
  intros Hg Hne%nonempty_true. unfold apply_event, type_in, name_in. simpl. rewrite Hne.
  unfold apply_tool_recovered, modify. simpl. by rewrite Hg.
Qed.

Lemma step_job seq id ts y j :
  dget (j_job_id j) (jobs y) = Some j -> True ->
  apply_event (fact_event seq id ts (job_fact j)) y =
  (set_jobs (dset (j_job_id j) (settle_job ts j) (jobs y)) y, Ok tt).
Proof.
  intros Hg _. pose proof (apply_job_finished_ok seq id (j_job_id j) (j_kind j) (j_turn_id j) JInterrupted
    (match j_started_at j with Some _ => JNull | None => jzero end) JNull JNull None ts None y eq_refl) as Hs.
  unfold finished_job in Hs. rewrite Hg in Hs. exact Hs.
Qed.

(** Each record of [d] is kept in [d'] when closed, settled when open. *)
Definition settled_in {V} (is_open : V -> bool) (upd : Z -> V -> V) (d d' : list (string * V)) : Prop :=
  dkeys d' = dkeys d /\
  forall k v, dget k d = Some v ->
    if is_open v then exists ts, dget k d' = Some (upd ts v) else dget k d' = Some v.

Definition recovered_from (x y : SessionState) : Prop :=
  settled_in open_turn settle_turn (turns x) (turns y) /\
  settled_in open_execution settle_execution (tool_executions x) (tool_executions y) /\
  settled_in open_job settle_job (jobs x) (jobs y) /\
  y = set_jobs (jobs y) (set_executions (tool_executions y) (set_turns (turns y) x)).

Lemma number_facts_app `{Env} seq n l1 l2 :
  number_facts seq n (l1 ++ l2) =
  number_facts seq n l1 ++ number_facts (seq + Z.of_nat (length l1)) (n + length l1) l2.
Proof.
  revert seq n; induction l1 as [|[[[a b] c] d] l1 IH]; intros seq n; simpl.
  - by rewrite Z.add_0_r, Nat.add_0_r.
  - rewrite IH. do 3 f_equal; lia.
Qed.

Lemma settled_in_intro {V} (key : V -> string) (is_open : V -> bool) upd (Q : V -> Prop) (d d' : list (string * V)) :
  NoDup (dkeys d) -> Forall (fun kv => key (snd kv) = fst kv /\ Q (snd kv)) d ->
  dkeys d' = dkeys d ->
  (forall v, v ∈ List.filter is_open (dvalues d) -> exists ts, dget (key v) d' = Some (upd ts v)) ->
  (forall k, k ∉ map key (List.filter is_open (dvalues d)) -> dget k d' = dget k d) ->
  settled_in is_open upd d d'.
Proof.
  intros Hnd Hf Hk Hin Hout. split; [done|]. intros k v Hv.
  destruct (values_lookup key is_open d Q Hnd Hf) as (_ & _ & Hiff).
  assert (Hkey : key v = k).
  { apply dget_Some_in in Hv. rewrite Forall_forall in Hf. by destruct (Hf _ Hv). }
  destruct (is_open v) eqn:Ho.
  - rewrite <-Hkey. apply Hin, Hiff. by rewrite Hkey.
  - rewrite Hout; [done|]. intros (w & -> & Hw)%list_elem_of_fmap. apply Hiff in Hw as [Hw Hw'].
    congruence.
Qed.

Lemma recovery_facts_eq x :
  recovery_facts x = map turn_fact (List.filter open_turn (dvalues (turns x)))
    ++ map execution_fact (List.filter open_execution (dvalues (tool_executions x)))
    ++ map job_fact (List.filter open_job (dvalues (jobs x))).
Proof. reflexivity. Qed.

(** Replaying the recovery facts of a well-formed state settles it. *)
Lemma recovery_replay `{Env} seq n x :
  state_wf x ->
  exists y, replay (number_facts seq n (recovery_facts x)) x = (y, Ok tt) /\ recovered_from x y.
Proof.
  intros [[Tn Tf] [Xn Xf] [Jn Jf] _ _ _]. rewrite recovery_facts_eq.
  assert (Jf' : Forall (fun kv => j_job_id (snd kv) = fst kv /\ True) (jobs x))
    by (eapply Forall_impl; [exact Jf|auto]).
  assert (Tf' : Forall (fun kv => t_turn_id (snd kv) = fst kv /\ t_turn_id (snd kv) <> "") (turns x))
    by (eapply Forall_impl; [exact Tf|]; intros ? [-> ?]; auto).
  assert (Xf' : Forall (fun kv => x_tool_call_id (snd kv) = fst kv /\ x_tool_call_id (snd kv) <> "") (tool_executions x))
    by (eapply Forall_impl; [exact Xf|]; intros ? [-> ?]; auto).
  rewrite number_facts_app, replay_app.
  destruct (values_lookup t_turn_id open_turn _ (fun t => t_turn_id t <> "") Tn Tf') as (Tv & Tnd & _).
  destruct (values_lookup x_tool_call_id open_execution _ (fun e => x_tool_call_id e <> "") Xn Xf') as (Xv & Xnd & _).
  destruct (values_lookup j_job_id open_job _ (fun _ => True) Jn Jf') as (Jv & Jnd & _).
  destruct (replay_component t_turn_id turns set_turns turn_fact settle_turn (fun t => t_turn_id t <> "")
    (fun _ _ => eq_refl) (fun _ _ _ => eq_refl) ltac:(by intros []) step_turn _ seq n x Tv Tnd)
    as (dt & -> & Tk & Tin & Tout).
  destruct (replay_component x_tool_call_id tool_executions set_executions execution_fact settle_execution
    (fun e => x_tool_call_id e <> "") (fun _ _ => eq_refl) (fun _ _ _ => eq_refl) ltac:(by intros []) step_execution
    (List.filter open_execution (dvalues (tool_executions x)))
    (seq + Z.of_nat (length (map turn_fact (List.filter open_turn (dvalues (turns x))))))
    (n + length (map turn_fact (List.filter open_turn (dvalues (turns x)))))%nat (set_turns dt x) Xv Xnd)
    as (dx & Hx & Xk & Xin & Xout).
  rewrite number_facts_app, replay_app, Hx.
  edestruct (replay_component j_job_id jobs set_jobs job_fact settle_job (fun _ => True)
    (fun _ _ => eq_refl) (fun _ _ _ => eq_refl) ltac:(by intros []) step_job
    (List.filter open_job (dvalues (jobs x)))) with (y := set_executions dx (set_turns dt x))
    as (dj & Hj & Jk & Jin & Jout); [exact Jv|exact Jnd|].
  eexists. split; [exact Hj|]. simpl in *. repeat split; simpl; try done.
  - by apply (settled_in_intro t_turn_id open_turn settle_turn (fun t => t_turn_id t <> "") _ _ Tn Tf').
  - by apply (settled_in_intro x_tool_call_id open_execution settle_execution (fun e => x_tool_call_id e <> "") _ _ Xn Xf').
  - by apply (settled_in_intro j_job_id open_job settle_job (fun _ => True) _ _ Jn Jf').
Qed.

(** A settled state has nothing left to recover. *)
Lemma recovered_facts_nil x y : state_wf x -> recovered_from x y -> state_wf y -> recovery_facts y = [].
Proof.
  intros Hx (Ht & He & Hj & _) Hy. rewrite recovery_facts_eq.
  assert (Hnil : forall {V} (is_open : V -> bool) upd (d d' : list (string * V)),
    NoDup (dkeys d) -> NoDup (dkeys d') -> (forall ts v, is_open (upd ts v) = false) ->
    settled_in is_open upd d d' -> List.filter is_open (dvalues d') = []).
  { intros V is_open upd d d' Hnd Hnd' Hu [Hk Hs].
    destruct (List.filter is_open (dvalues d')) as [|v l] eqn:E; [done|].
    assert (v ∈ dvalues d' /\ is_open v = true) as [Hv Ho].
    { rewrite list_elem_of_In. apply filter_In. rewrite E. by left. }
    apply list_elem_of_fmap in Hv as ([k v'] & -> & Hin). simpl in *.
    apply dget_in_NoDup in Hin; [|done].
    destruct (dget k d) as [w|] eqn:Ed.
    - specialize (Hs k w Ed). destruct (is_open w) eqn:Ow.
      + destruct Hs as [ts Hs]. rewrite Hs in Hin. injection Hin as <-. by rewrite Hu in Ho.
      + congruence.
    - apply dget_None_not_in in Ed. rewrite <-Hk in Ed. apply dget_None_not_in in Ed. congruence. }
  rewrite (Hnil _ open_turn settle_turn _ _ (proj1 (wf_turns _ Hx)) (proj1 (wf_turns _ Hy)) (fun _ _ => eq_refl) Ht).
  rewrite (Hnil _ open_execution settle_execution _ _ (proj1 (wf_executions _ Hx)) (proj1 (wf_executions _ Hy)) (fun _ _ => eq_refl) He).
  rewrite (Hnil _ open_job settle_job _ _ (proj1 (wf_jobs _ Hx)) (proj1 (wf_jobs _ Hy)) (fun _ _ => eq_refl) Hj).
  done.
Qed.
