(* ===== verification/SessionThms.v ===== *)
(** * Theorems on sessions

    The claims about agent_core/session.py and agent_core/plan.py, each with a
    witness at a concrete session. *)

From stdpp Require Import base list strings pretty relations.
From Stdlib Require Import ZArith Lia.
From S2P Require Import Prelude PyData PyStr Json PyTime Content Plan Authority Message.
From S2P Require Import Session SessionProps SessionState Recovery.

(** ** A concrete environment for the witnesses *)

Definition demo_env : Env := {|
  uuid4 n := "uuid-" +:+ pretty n;
  utcnow n := 63900000000000000 + Z.of_nat n;
  sink_result _ := None;
|}.

(** The same clock and ids with a disk that fails from the third call on. *)
Definition failing_env : Env := {|
  uuid4 n := "uuid-" +:+ pretty n;
  utcnow n := 63900000000000000 + Z.of_nat n;
  sink_result n := if (2 <? n)%nat then Some (Exn EOSError "disk full") else None;
|}.

Definition new_session : Session :=
  MkSession "s-1" None (initial_state ASK_FOR_APPROVAL) [] true None 0 [].

Definition hello : Message := MkMessage RUser (CStr "hello") (Some 63900000000000000) [] None None OConversation [].

(** ** Event sourcing *)

(** C1: whatever sequence of public operations runs on a session, the live state
    is the replay of its journal, the sequence numbers are 1, 2, 3, ... and an
    attached sink holds exactly the journal, also when the sink refuses writes
    in between. *)
Theorem journal_is_source_of_truth `{Env} (x0 : SessionState) (s s' : Session) :
  journaled x0 s -> rtc session_step s s' -> journaled x0 s'.
Proof.
  intros Hj Hs. induction Hs as [s|s1 s2 s3 H12 _ IH]; [done|].
  apply IH. by eapply session_step_journaled.
Qed.

Definition demo_begun : Session := fst (@begin_turn demo_env None new_session).
Definition demo_turn : Session := fst (@add_item demo_env hello [] SrcUserInput demo_begun).

Lemma hello_wf : message_wf hello.
Proof. split; [by repeat constructor|]. intros t [= <-]. by vm_compute. Qed.

Lemma demo_steps : rtc (@session_step demo_env) new_session demo_turn.
Proof.
  exact (rtc_l _ _ demo_begun _ (@step_begin_turn demo_env None new_session)
    (rtc_l _ _ demo_turn _ (@step_add_item demo_env hello [] SrcUserInput demo_begun hello_wf)
       (rtc_refl _ demo_turn))).
Qed.

Lemma journal_is_source_of_truth_witness :
  journaled (initial_state ASK_FOR_APPROVAL) demo_turn /\ zlen (journal demo_turn) = 2.
Proof.
  split; [|by vm_compute].
  apply (@journal_is_source_of_truth demo_env (initial_state ASK_FOR_APPROVAL) new_session demo_turn);
    [|exact demo_steps].
  split; [done|]. split; [|done]. intros i e Hi. discriminate Hi.
Defined.

(** The write-ahead order: when the sink raises, [_event] raises the same
    exception and leaves the state, the journal and the durable log untouched. *)
Theorem sink_failure_changes_nothing `{Env} ty turn payload call (s : Session) (err : exn) :
  has_sink s = true -> sink_result (S (tick s)) = Some err ->
  exists s', event ty turn payload call s = (s', Err err) /\
    st s' = st s /\ journal s' = journal s /\ durable s' = durable s /\
    current_turn_id s' = current_turn_id s.
Proof. intros Hs He. rewrite event_cases, Hs, He. by eexists. Qed.

Lemma sink_failure_changes_nothing_witness :
  exists s', @event failing_env "turn_started" (Some "t") [] None (advance 5 new_session)
    = (s', Err (Exn EOSError "disk full")) /\
    st s' = initial_state ASK_FOR_APPROVAL /\ journal s' = [] /\ durable s' = [] /\ current_turn_id s' = None.
Proof.
  exact (@sink_failure_changes_nothing failing_env "turn_started" (Some "t") [] None (advance 5 new_session)
    (Exn EOSError "disk full") eq_refl eq_refl).
Defined.

(** C40: replaying any journal, whatever its events hold and wherever it stops,
    leaves a well-formed state: dictionaries keyed by the ids of their records,
    user anchors in order and pointing at the user-authored items they quote,
    a validated plan. *)
Theorem replay_well_formed (es : list JournalEvent) (preset : PermissionPreset) :
  state_wf (fst (replay es (initial_state preset))).
Proof. apply replay_wf, initial_state_wf. Qed.

(** C2: recovery of a well-formed session whose sink accepts the facts turns
    running turns and started tool calls into unknown ones and submitted or
    running jobs into interrupted ones, keeps every other record and field, and
    leaves nothing to recover. *)
Theorem recover_settles `{Env} (s : Session) :
  state_wf (st s) ->
  (forall n, sink_result n = None) ->
  exists s' events, recover s = (s', Ok events) /\ journal s' = journal s ++ events /\
    recovered_from (st s) (st s') /\ recovery_facts (st s') = [].
Proof.
  intros Hw Hs. destruct (recovery_replay (next_seq s) (tick s) (st s) Hw) as (y & Hr & Hrec).
  assert (Hy : state_wf y).
  { pose proof (replay_wf (number_facts (next_seq s) (tick s) (recovery_facts (st s))) _ Hw) as Hp.
    by rewrite Hr in Hp. }
  exists (fst (recover s)), (number_facts (next_seq s) (tick s) (recovery_facts (st s))).
  assert (Heq : snd (recover s) = Ok (number_facts (next_seq s) (tick s) (recovery_facts (st s))) /\
    journal (fst (recover s)) = journal s ++ number_facts (next_seq s) (tick s) (recovery_facts (st s)) /\
    st (fst (recover s)) = y).
  { unfold recover, bind, get, modify, write_sink, on_state, ret, advance, append_durable, append_journal, set_st; simpl.
    destruct (number_facts (next_seq s) (tick s) (recovery_facts (st s))) as [|e es] eqn:E; simpl.
    - cbn in Hr. injection Hr as <-. done.
    - rewrite Hs. destruct (has_sink s); simpl; rewrite Hr; done. }
  destruct Heq as (H1 & H2 & H3). split; [by rewrite <-H1, <-surjective_pairing|].
  split; [done|]. rewrite H3. split; [done|]. by apply (recovered_facts_nil (st s)).
Qed.

(** A session that died during a shell call, with a job still queued. *)
Definition crashed : Session :=
  MkSession "s-1" None
    (MkState [] None 0 0 ASK_FOR_APPROVAL None None None
       [("turn-a", MkTurn "turn-a" TRunning (Some 1) None None)]
       [("c1", MkExecution "c1" (Some "turn-a") "shell" (ArgsDict []) XStarted (Some 2) None None)]
       [("job_1", MkJobExecution "job_1" "turn-a" "shell" JSubmitted (Some 3) None None None [] jzero JNull JNull)]
       [])
    [] false None 4 [].

Lemma recover_settles_witness :
  exists s' events, @recover demo_env crashed = (s', Ok events) /\
    journal s' = journal crashed ++ events /\ recovered_from (st crashed) (st s') /\
    recovery_facts (st s') = [].
Proof.
  apply (@recover_settles demo_env crashed); [|done].
  split; simpl; try (split; [apply NoDup_singleton|apply Forall_singleton; done]); [constructor|constructor|done].
Defined.

(** The tail of [begin_turn], for an id that is not in use. *)
Lemma start_turn `{Env} t s0 :
  (forall n, sink_result n = None) -> t <> "" -> dget t (turns (st s0)) = None ->
  exists s', (event_ "turn_started" (Some t) [("status", JStr "running")] None ;;;
              modify (set_current (Some t)) ;;; ret t) s0 = (s', Ok t) /\
    current_turn_id s' = Some t /\
    (exists ts, dget t (turns (st s')) = Some (MkTurn t TRunning (Some ts) None None)) /\
    (forall k, k <> t -> dget k (turns (st s')) = dget k (turns (st s0))).
Proof.
  intros Hs Ht%nonempty_true Hn. unfold event_, bind. rewrite event_cases, Hs.
  assert (Hif : (if has_sink s0 then @None exn else None) = None) by (by destruct (has_sink s0)). rewrite Hif.
  unfold next_event, apply_event, type_in, name_in. simpl. rewrite Ht. simpl.
  eexists. split; [done|]. split; [done|].
  split; [eexists; apply dget_dset_eq|]. intros k Hk. by apply dget_dset_ne.
Qed.

(** A new turn never takes over the record of an old one: the id that
    [begin_turn] returns was not in use (the caller's id is replaced by a fresh
    one when it was), the new turn is running and current, and every other turn
    is unchanged. *)
Theorem begin_turn_fresh `{Env} (requested : option string) (s : Session) :
  (forall n, sink_result n = None) ->
  dget (uuid4 (tick s)) (turns (st s)) = None -> uuid4 (tick s) <> "" -> requested <> Some "" ->
  exists s' t, begin_turn requested s = (s', Ok t) /\
    dget t (turns (st s)) = None /\
    (forall r, requested = Some r -> dget r (turns (st s)) = None -> t = r) /\
    current_turn_id s' = Some t /\
    (exists ts, dget t (turns (st s')) = Some (MkTurn t TRunning (Some ts) None None)) /\
    (forall k, k <> t -> dget k (turns (st s')) = dget k (turns (st s))).
Proof.
  intros Hs Hf Hne Hreq. unfold begin_turn, bind at 1, get.
  destruct (start_turn (uuid4 (tick s)) (advance 1 s)) as (s1 & Hr1 & Hc1 & Ht1 & Ho1); [done..|].
  destruct requested as [r|].
  - unfold dhas. destruct (dget r (turns (st s))) eqn:Er.
    + exists s1, (uuid4 (tick s)). unfold bind, modify, ret in *. rewrite Hr1.
      split; [done|]. split; [done|]. split; [congruence|]. auto.
    + destruct (start_turn r s) as (s' & Hr & Hc & Ht & Ho); [done|congruence|done|].
      exists s', r. unfold bind, modify, ret in *. rewrite Hr.
      split; [done|]. split; [done|]. split; [congruence|]. auto.
  - exists s1, (uuid4 (tick s)). unfold bind, modify, ret in *. rewrite Hr1.
    split; [done|]. split; [done|]. split; [congruence|]. auto.
Qed.

Lemma begin_turn_fresh_witness :
  exists s' t, @begin_turn demo_env (Some "turn-a") crashed = (s', Ok t) /\
    dget t (turns (st crashed)) = None /\
    (forall r, Some "turn-a" = Some r -> dget r (turns (st crashed)) = None -> t = r) /\
    current_turn_id s' = Some t /\
    (exists ts, dget t (turns (st s')) = Some (MkTurn t TRunning (Some ts) None None)) /\
    (forall k, k <> t -> dget k (turns (st s')) = dget k (turns (st crashed))).
Proof. apply (@begin_turn_fresh demo_env (Some "turn-a") crashed); [done|by vm_compute|done|done]. Defined.

(** ** Messages *)

(** A stored message reads back as the message itself, with its content in
    canonical form; the text of the content is the same. *)
Theorem message_codec (m : Message) :
  message_wf m ->
  message_from_dict (message_to_dict true m) = Ok (canon m) /\
  text_content (m_content (canon m)) = text_content (m_content m) /\
  canon (canon m) = canon m.
Proof.
  intros Hm. split; [by apply message_roundtrip|]. split; [apply canon_text|].
  destruct m as [r c ts cs ti rs o pd]. unfold canon; simpl. f_equal. unfold canon_content.
  destruct (content_parts c) as [|p ps] eqn:E; [done|].
  destruct (forallb is_text (p :: ps)) eqn:F; [done|]. cbn [content_parts]. by rewrite F.
Qed.

Definition picture : Message :=
  MkMessage RUser (CParts [TextPart "look: "; ImagePart "a.png" "image/png" "a.png" 12]) (Some 63900000000000123)
    [MkToolCall "c1" "shell" (ArgsRaw "{") (Some (MkToolError "invalid_tool_arguments" "m" None))]
    (Some "c0") (Some "because") OToolMedia [("k", JInt 1)].

Lemma message_codec_witness :
  message_from_dict (message_to_dict true picture) = Ok (canon picture) /\
  text_content (m_content (canon picture)) = text_content (m_content picture) /\
  canon (canon picture) = canon picture.
Proof.
  apply (message_codec picture). split; [|intros t [= <-]; by vm_compute].
  by repeat constructor.
Defined.

(** Appending an item to a session whose sink accepts it adds the canonical
    message at the end and, inside a turn, an anchor for it exactly when the
    user wrote it; nothing else of the projected state changes. *)
Theorem add_item_effect `{Env} (m : Message) (src : UserAnchorSource) (s : Session) :
  message_wf m -> (forall n, sink_result n = None) ->
  exists s' ts, add_item m [] src s = (s', Ok tt) /\
    st s' = after_message (canon m) (current_turn_id s) src ts (st s) /\
    items (st s') = items (st s) ++ [canon m] /\
    user_anchors (st s') = user_anchors (st s) ++
      match current_turn_id s with
      | Some t => if is_user_authored m
                  then [MkUserAnchor t (canon_content (m_content m)) (default ts (m_timestamp_utc m)) src
                          (zlen (items (st s)))]
                  else []
      | None => []
      end.
Proof.
  intros Hm Hs. destruct m as [r c mt cs ti rs o pd]. unfold add_item, add_message, event_, bind, get.
  rewrite event_cases, Hs.
  assert (Hif : (if has_sink s then @None exn else None) = None) by (by destruct (has_sink s)). rewrite Hif.
  cbv zeta. unfold next_event. simpl with_attachments. cbn [m_role m_content m_timestamp_utc m_tool_calls
    m_tool_call_id m_reasoning m_origin m_provider_data].
  rewrite (apply_message_ok _ _ _ _ _ _ src) by done.
  eexists _, (utcnow (tick s)). split; [done|]. split; [done|].
  unfold after_message, accepted, set_st. simpl.
  destruct (current_turn_id s); [|by rewrite app_nil_r].
  change (is_user_authored (canon (MkMessage r c mt cs ti rs o pd)))
    with (is_user_authored (MkMessage r c mt cs ti rs o pd)).
  destruct (is_user_authored _); [done|by rewrite app_nil_r].
Qed.

Lemma add_item_effect_witness :
  exists s' ts, @add_item demo_env hello [] SrcUserInput demo_begun = (s', Ok tt) /\
    st s' = after_message (canon hello) (current_turn_id demo_begun) SrcUserInput ts (st demo_begun) /\
    items (st s') = items (st demo_begun) ++ [canon hello] /\
    user_anchors (st s') = user_anchors (st demo_begun) ++
      match current_turn_id demo_begun with
      | Some t => if is_user_authored hello
                  then [MkUserAnchor t (canon_content (m_content hello)) (default ts (m_timestamp_utc hello)) SrcUserInput
                          (zlen (items (st demo_begun)))]
                  else []
      | None => []
      end.
Proof. exact (@add_item_effect demo_env hello SrcUserInput demo_begun hello_wf (fun _ => eq_refl)). Defined.

(** ** Plans *)

(** Publishing a plan keeps its identity and increments its revision while
    the goal is unchanged, and starts a new plan at revision 1 when the goal
    changes; the published snapshot is the one the session and a replay hold. *)
Theorem plan_update_revisions `{Env} (goal : string) (steps : list PlanStep) (s : Session) :
  Forall step_wf steps -> (forall n, sink_result n = None) ->
  exists s' p, plan_update None goal steps s = (s', Ok p) /\ plan (st s') = Some p /\
    pl_goal p = goal /\ pl_steps p = steps /\
    match plan (st s) with
    | Some q => if String.eqb (pl_goal q) goal
                then pl_plan_id p = pl_plan_id q /\ pl_revision p = pl_revision q + 1
                else pl_plan_id p = uuid4 (tick s) /\ pl_revision p = 1
    | None => pl_plan_id p = uuid4 (tick s) /\ pl_revision p = 1
    end.
Proof.
  intros Hw Hs.
  assert (Hset : forall p s0, pl_steps p = steps ->
    exists s', set_plan p s0 = (s', Ok tt) /\ plan (st s') = Some p).
  { intros p s0 Hp. unfold set_plan, event_, bind. rewrite event_cases, Hs.
    assert (Hif : (if has_sink s0 then @None exn else None) = None) by (by destruct (has_sink s0)). rewrite Hif.
    cbv zeta. unfold next_event. rewrite apply_plan_event by (unfold plan_wf; by rewrite Hp).
    by eexists. }
  unfold plan_update, bind, get, modify, ret.
  destruct (plan (st s)) as [q|]; [destruct (String.eqb (pl_goal q) goal)|];
    (match goal with |- context [set_plan ?p ?s0] => destruct (Hset p s0 eq_refl) as (s' & -> & Hp) end;
     eexists s', _; split; [done|]; split; [done|]; done).
Qed.

Lemma plan_update_revisions_witness :
  exists s' p, @plan_update demo_env None "ship" [MkStep "1" "write" Pending None] new_session = (s', Ok p) /\
    plan (st s') = Some p /\ pl_goal p = "ship" /\ pl_steps p = [MkStep "1" "write" Pending None] /\
    pl_plan_id p = "uuid-0" /\ pl_revision p = 1.
Proof.
  apply (@plan_update_revisions demo_env "ship" [MkStep "1" "write" Pending None] new_session); [|done].
  constructor; [|constructor]. by repeat split.
Defined.
