(* ===== verification/PyText.v ===== *)
(** * Text renderings of the Python library

    [dumps]: json.dumps with [ensure_ascii=False]; [py_repr], [py_str]: repr()
    and str() of a JSON value; [list2cmdline]: subprocess.list2cmdline;
    [io_lines], [io_lines_universal]: iterating over [StringIO(text)] and over
    [StringIO(text, newline=None)]; [utf8_len]: the length of the UTF-8
    encoding.  The shortest decimal form of a binary64 value is the class
    [FloatText]: it is computed by the C library of the interpreter. *)

From stdpp Require Import base list strings pretty.
From Stdlib Require Import ZArith Lia Ascii.
From S2P Require Import Prelude PyData PyStr Json.

Class FloatText := { float_repr : Z -> string }.

Definition DQ : ascii := "034"%char.
Definition SQ : ascii := "'"%char.
Definition BS : ascii := "\"%char.

Definition hex_digit (n : Z) : ascii :=
  ascii_of_nat (Z.to_nat (if n <? 10 then 48 + n else 87 + n)).
Definition hex2 (c : ascii) : string :=
  String (hex_digit (scode c / 16)) (String (hex_digit (scode c mod 16)) "").

(** ** json.dumps *)

Definition json_escape (c : ascii) : string :=
  let z := scode c in
  if z =? 34 then String BS (String DQ "") else if z =? 92 then String BS (String BS "")
  else if z =? 10 then "\n" else if z =? 13 then "\r" else if z =? 9 then "\t"
  else if z =? 8 then "\b" else if z =? 12 then "\f"
  else if z <? 32 then "\u00" +:+ hex2 c else String c "".

Fixpoint json_escapes (s : string) : string :=
  match s with "" => "" | String c s' => json_escape c +:+ json_escapes s' end.

Definition json_string (s : string) : string := String DQ (json_escapes s) +:+ String DQ "".

Section dumps.
Context `{FloatText}.

(** [isep], [ksep]: the item and key separators. *)
Fixpoint dumps_with (isep ksep : string) (j : json) : string :=
  match j with
  | JNull => "null"
  | JBool b => if b then "true" else "false"
  | JInt z => pretty z
  | JFloat b => float_repr b
  | JStr s => json_string s
  | JArr l => "[" +:+ sjoin isep (map (dumps_with isep ksep) l) +:+ "]"
  | JObj d => "{" +:+ sjoin isep (map (fun kv => json_string (fst kv) +:+ ksep +:+ dumps_with isep ksep (snd kv)) d) +:+ "}"
  end.

(** [json.dumps(j, ensure_ascii=False)] *)
Definition dumps (j : json) : string := dumps_with ", " ": " j.

(** ** repr and str *)

(** Code points below 256 that [str.isprintable] refuses. *)
Definition printable (c : ascii) : bool :=
  let z := scode c in negb ((z <? 32) || ((127 <=? z) && (z <=? 160)) || (z =? 173)).

Definition repr_escape (quote c : ascii) : string :=
  let z := scode c in
  if Ascii.eqb c quote || Ascii.eqb c BS then String BS (String c "")
  else if z =? 10 then "\n" else if z =? 13 then "\r" else if z =? 9 then "\t"
  else if printable c then String c "" else "\x" +:+ hex2 c.

Fixpoint repr_escapes (quote : ascii) (s : string) : string :=
  match s with "" => "" | String c s' => repr_escape quote c +:+ repr_escapes quote s' end.

Definition repr_string (s : string) : string :=
  let quote := if has_char SQ s && negb (has_char DQ s) then DQ else SQ in
  String quote (repr_escapes quote s) +:+ String quote "".

Fixpoint py_repr (j : json) : string :=
  match j with
  | JNull => "None"
  | JBool b => if b then "True" else "False"
  | JInt z => pretty z
  | JFloat b => float_repr b
  | JStr s => repr_string s
  | JArr l => "[" +:+ sjoin ", " (map py_repr l) +:+ "]"
  | JObj d => "{" +:+ sjoin ", " (map (fun kv => repr_string (fst kv) +:+ ": " +:+ py_repr (snd kv)) d) +:+ "}"
  end.

Definition py_str (j : json) : string := match j with JStr s => s | _ => py_repr j end.
End dumps.

(** ** subprocess.list2cmdline *)

Fixpoint repeat_char (n : nat) (c : ascii) : string :=
  match n with O => "" | S n' => String c (repeat_char n' c) end.

(** One argument; [bs] counts the pending backslashes. *)
Fixpoint cmdline_arg (needquote : bool) (bs : nat) (s : string) : string :=
  match s with
  | "" => repeat_char bs BS +:+ (if needquote then repeat_char bs BS +:+ String DQ "" else "")
  | String c s' =>
      if Ascii.eqb c BS then cmdline_arg needquote (S bs) s'
      else if Ascii.eqb c DQ
      then repeat_char (bs * 2) BS +:+ String BS (String DQ "") +:+ cmdline_arg needquote 0 s'
      else repeat_char bs BS +:+ String c (cmdline_arg needquote 0 s')
  end.

Definition quoted_arg (s : string) : string :=
  let needquote := has_char SPC s || has_char TAB s || negb (nonempty s) in
  (if needquote then String DQ "" else "") +:+ cmdline_arg needquote 0 s.

Definition list2cmdline (args : list string) : string := sjoin " " (map quoted_arg args).

(** ** Lines of a text buffer *)

(** The lines of [StringIO(text)], each with its line feed. *)
Fixpoint io_lines (s : string) : list string :=
  match s with
  | "" => []
  | String c s' =>
      if Ascii.eqb c LF then String c "" :: io_lines s'
      else match io_lines s' with
           | l :: ls => String c l :: ls
           | [] => [String c ""]
           end
  end.

(** Universal newlines: CR LF and CR become LF. *)
Fixpoint universal (s : string) : string :=
  match s with
  | "" => ""
  | String c s' =>
      if Ascii.eqb c CR then
        match s' with
        | String d s'' => if Ascii.eqb d LF then String LF (universal s'') else String LF (universal s')
        | "" => String LF ""
        end
      else String c (universal s')
  end.

Definition io_lines_universal (s : string) : list string := io_lines (universal s).

(** [len(text.encode('utf-8'))] *)
Fixpoint utf8_len (s : string) : Z :=
  match s with
  | "" => 0
  | String c s' => (if scode c <? 128 then 1 else 2) + utf8_len s'
  end.

(** [sum(1 for _ in re.finditer(r"\r\n|\r|\n", text))] *)
Fixpoint count_breaks (s : string) : Z :=
  match s with
  | "" => 0
  | String c s' =>
      if Ascii.eqb c CR then
        match s' with
        | String d s'' => if Ascii.eqb d LF then 1 + count_breaks s'' else 1 + count_breaks s'
        | "" => 1
        end
      else if Ascii.eqb c LF then 1 + count_breaks s'
      else count_breaks s'
  end.

Example list2cmdline_ex : list2cmdline ["git"; "a b"; ""; "c\d"] =
  "git " +:+ String DQ "a b" +:+ String DQ " " +:+ String DQ (String DQ " c\d").
Proof. reflexivity. Qed.

Example io_lines_ex : io_lines ("a" +:+ NL +:+ NL +:+ "b") = ["a" +:+ NL; NL; "b"].
Proof. reflexivity. Qed.

Lemma io_lines_concat s : String.concat "" (io_lines s) = s.
Proof.
  assert (Hc : forall (a : string) l, String.concat "" (a :: l) = a +:+ String.concat "" l).
  { intros a [|b l]; simpl; [by rewrite sapp_nil_r|done]. }
  induction s as [|c s IH]; [done|]. cbn [io_lines].
  destruct (Ascii.eqb_spec c LF); [rewrite Hc; by rewrite IH|].
  destruct (io_lines s) as [|l ls] eqn:E; [by rewrite <-IH|].
  rewrite Hc in IH |- *. by rewrite <-IH.
Qed.

(** ** int() of a string

    White space around, a sign, decimal digits with single underscores between
    them; at most 4300 digits. *)

Definition decimal (c : ascii) : bool := (48 <=? scode c) && (scode c <=? 57).

Fixpoint int_digits (count : Z) (acc : Z) (s : string) : option (Z * Z) :=
  match s with
  | "" => Some (count, acc)
  | String c s' =>
      if decimal c then int_digits (count + 1) (acc * 10 + (scode c - 48)) s'
      else if Ascii.eqb c "_" then
        match s' with
        | String d s'' => if decimal d then int_digits (count + 1) (acc * 10 + (scode d - 48)) s'' else None
        | "" => None
        end
      else None
  end.

Definition py_int (s : string) : res Z :=
  let invalid := value_error ("invalid literal for int() with base 10: " +:+ repr_string s) in
  let '(negative, t) := match strip s with
                        | String c t => if Ascii.eqb c "-" then (true, t) else if Ascii.eqb c "+" then (false, t) else (false, String c t)
                        | "" => (false, "")
                        end in
  match t with
  | String c _ =>
      if decimal c then
        match int_digits 0 0 t with
        | Some (count, v) =>
            if 4300 <? count
            then value_error ("Exceeds the limit (4300 digits) for integer string conversion: value has " +:+ pretty count
                              +:+ " digits; use sys.set_int_max_str_digits() to increase the limit")
            else Ok (if negative then - v else v)
        | None => invalid
        end
      else invalid
  | "" => invalid
  end.
