(* ===== verification/JsonText.v ===== *)
(** * json.loads

    Python's JSON decoder on strings of code points below 256: [loads] reads one
    value, with the white space JSON allows, and nothing after it.  An escape of
    a code point above 255 gives [EUntyped] (outside of the model); the message of
    a [JSONDecodeError] is not modelled.  The decimal form of a float is a pair of
    parameters, [FloatText] for writing and [FloatRead] for reading.  Proved:
    [loads] reads back what [dumps] writes, and no proper prefix of an object's
    text is readable, which is what append-only journals rely on. *)

From stdpp Require Import base list strings pretty.
From Stdlib Require Import ZArith Lia Ascii.
From S2P Require Import Prelude PyData PyStr Json PyText.

(** [float_value] is float() on a JSON number text. *)
Class FloatRead := { float_value : string -> Z }.

Definition bad_json {A} : res A := raise EJSONDecode "invalid JSON".

(** ** Tokens *)

Definition json_space (c : ascii) : bool :=
  let z := scode c in (z =? 32) || (z =? 9) || (z =? 10) || (z =? 13).

Definition skip_ws (s : string) : string := lstrip_by json_space s.

Definition is_digit (c : ascii) : bool := (48 <=? scode c) && (scode c <=? 57).

Fixpoint span_digits (s : string) : string * string :=
  match s with
  | String c s' => if is_digit c then let '(d, r) := span_digits s' in (String c d, r) else ("", s)
  | "" => ("", "")
  end.

Fixpoint digits_value (acc : Z) (s : string) : Z :=
  match s with
  | "" => acc
  | String c s' => digits_value (acc * 10 + (scode c - 48)) s'
  end.

Definition read_sign (c : ascii) (s : string) : string * string :=
  match s with
  | String a s' => if Ascii.eqb a c then (String c "", s') else ("", s)
  | "" => ("", s)
  end.

(** [0|[1-9]\d*] *)
Definition read_int (s : string) : option (string * string) :=
  match s with
  | String c s' => if Ascii.eqb c "0" then Some ("0", s')
                   else if is_digit c then Some (span_digits s) else None
  | "" => None
  end.

(** [(\.\d+)?] *)
Definition read_frac (s : string) : string * string :=
  match s with
  | String "." s' => let '(d, r) := span_digits s' in if nonempty d then (String "." d, r) else ("", s)
  | _ => ("", s)
  end.

(** [([eE][-+]?\d+)?] *)
Definition read_exp (s : string) : string * string :=
  match s with
  | String c s' =>
      if Ascii.eqb c "e" || Ascii.eqb c "E" then
        let '(sign, s1) := match s' with
                           | String a s1 => if Ascii.eqb a "-" || Ascii.eqb a "+" then (String a "", s1) else ("", s')
                           | "" => ("", s')
                           end in
        let '(d, r) := span_digits s1 in if nonempty d then (String c sign +:+ d, r) else ("", s)
      else ("", s)
  | "" => ("", s)
  end.

(** The text of a number in its parts: sign, integer, fraction and exponent. *)
Definition read_number (s : string) : option (string * string * string * string) :=
  let '(sign, s1) := read_sign "-" s in
  match read_int s1 with
  | None => None
  | Some (i, s2) =>
      let '(f, s3) := read_frac s2 in
      let '(e, s4) := read_exp s3 in
      Some (sign, i, f +:+ e, s4)
  end.

Definition hex_value (c : ascii) : option Z :=
  let z := scode c in
  if is_digit c then Some (z - 48)
  else if (97 <=? z) && (z <=? 102) then Some (z - 87)
  else if (65 <=? z) && (z <=? 70) then Some (z - 55) else None.

Definition hex4 (a b c d : ascii) : option Z :=
  x ← hex_value a; y ← hex_value b; z ← hex_value c; w ← hex_value d; Some (((x * 16 + y) * 16 + z) * 16 + w).

(** What a backslash and a letter stand for. *)
Definition unescape (c : ascii) : option ascii :=
  let z := scode c in
  if (z =? 34) || (z =? 92) || (z =? 47) then Some c
  else if z =? 98 then Some "008"%char else if z =? 102 then Some "012"%char
  else if z =? 110 then Some LF else if z =? 114 then Some CR else if z =? 116 then Some TAB else None.

(** The rest of a string literal, after its opening quote. *)
Fixpoint read_string (s : string) : res (string * string) :=
  match s with
  | "" => bad_json
  | String c s' =>
      if Ascii.eqb c DQ then Ok ("", s')
      else if Ascii.eqb c BS then
        match s' with
        | String "u" (String x (String y (String z (String w s'')))) =>
            match hex4 x y z w with
            | None => bad_json
            | Some v => if v <? 256 then
                          r <~ read_string s'' ;; Ok (String (ascii_of_nat (Z.to_nat v)) (fst r), snd r)
                        else untyped "code point"
            end
        | String e s'' =>
            match unescape e with
            | Some a => r <~ read_string s'' ;; Ok (String a (fst r), snd r)
            | None => bad_json
            end
        | "" => bad_json
        end
      else if scode c <? 32 then bad_json
      else r <~ read_string s' ;; Ok (String c (fst r), snd r)
  end.

(** ** Values *)

Definition nan_bits : Z := 9221120237041090560.
Definition inf_bits : Z := 9218868437227405312.

Definition literals : list (string * json) :=
  [("null", JNull); ("true", JBool true); ("false", JBool false); ("NaN", JFloat nan_bits);
   ("Infinity", JFloat inf_bits); ("-Infinity", JFloat (inf_bits + 2 ^ 63))].

Fixpoint read_literal (l : list (string * json)) (s : string) : res (json * string) :=
  match l with
  | [] => bad_json
  | (t, j) :: l' => if startswith t s then Ok (j, sdrop (String.length t) s) else read_literal l' s
  end.

Section loads.
Context `{FloatRead}.

Definition number_json (sign i f : string) : json :=
  if nonempty f then JFloat (float_value (sign +:+ i +:+ f))
  else JInt (if nonempty sign then - digits_value 0 i else digits_value 0 i).

(** [read_value]: a value, at its first character; [read_items]: the items of an
    array after its bracket or a comma; [read_members]: the members of an object
    after its brace or a comma.  The fuel bounds the nested calls. *)
Fixpoint read_value (n : nat) (s : string) : res (json * string) :=
  match n with
  | O => bad_json
  | S n' =>
      match s with
      | "" => bad_json
      | String c s' =>
          if Ascii.eqb c DQ then r <~ read_string s' ;; Ok (JStr (fst r), snd r)
          else if Ascii.eqb c "{" then
            match skip_ws s' with
            | String "}" s'' => Ok (JObj [], s'')
            | s'' => read_members n' [] s''
            end
          else if Ascii.eqb c "[" then
            match skip_ws s' with
            | String "]" s'' => Ok (JArr [], s'')
            | s'' => read_items n' [] s''
            end
          else match read_number s with
               | Some (sign, i, f, rest) => Ok (number_json sign i f, rest)
               | None => read_literal literals s
               end
      end
  end
with read_items (n : nat) (acc : list json) (s : string) : res (json * string) :=
  match n with
  | O => bad_json
  | S n' =>
      r <~ read_value n' s ;;
      match skip_ws (snd r) with
      | String c rest =>
          if Ascii.eqb c "]" then Ok (JArr (acc ++ [fst r]), rest)
          else if Ascii.eqb c "," then read_items n' (acc ++ [fst r]) (skip_ws rest)
          else bad_json
      | "" => bad_json
      end
  end
with read_members (n : nat) (acc : list (string * json)) (s : string) : res (json * string) :=
  match n with
  | O => bad_json
  | S n' =>
      match s with
      | String q s' =>
          if Ascii.eqb q DQ then
            k <~ read_string s' ;;
            match skip_ws (snd k) with
            | String ":" s'' =>
                r <~ read_value n' (skip_ws s'') ;;
                let acc' := dset (fst k) (fst r) acc in
                match skip_ws (snd r) with
                | String c rest =>
                    if Ascii.eqb c "}" then Ok (JObj acc', rest)
                    else if Ascii.eqb c "," then read_members n' acc' (skip_ws rest)
                    else bad_json
                | "" => bad_json
                end
            | _ => bad_json
            end
          else bad_json
      | "" => bad_json
      end
  end.

(** [json.loads(s)] *)
Definition loads (s : string) : res json :=
  let s1 := skip_ws s in
  r <~ read_value (S (2 * String.length s1)) s1 ;;
  if nonempty (skip_ws (snd r)) then bad_json else Ok (fst r).
End loads.

(** ** Reading back strings and numbers *)

Lemma read_string_escape c t :
  read_string (json_escape c +:+ t) = (r <~ read_string t ;; Ok (String c (fst r), snd r)).
Proof. destruct c as [[] [] [] [] [] [] [] []]; reflexivity. Qed.

Lemma read_string_escapes s r : read_string (json_escapes s +:+ String DQ r) = Ok (s, r).
Proof.
  induction s as [|c s IH]; [done|]. cbn [json_escapes]. rewrite sapp_assoc, read_string_escape, IH. done.
Qed.

(** Heads of strings. *)
Definition head_is (P : ascii -> bool) (s : string) : bool := match s with "" => true | String c _ => P c end.

(** The characters that continue an integer, a fraction, an exponent. *)
Definition ends_int (c : ascii) : bool := negb (is_digit c).
Definition ends_frac (c : ascii) : bool := ends_int c && negb (Ascii.eqb c ".").
Definition ends_number (c : ascii) : bool := ends_frac c && negb (Ascii.eqb c "e" || Ascii.eqb c "E").

Lemma head_is_mono (P Q : ascii -> bool) s : (forall c, P c = true -> Q c = true) -> head_is P s = true -> head_is Q s = true.
Proof. destruct s; simpl; auto. Qed.

Lemma ends_frac_int c : ends_frac c = true -> ends_int c = true.
Proof. by intros [? _]%andb_true_iff. Qed.
Lemma ends_number_frac c : ends_number c = true -> ends_frac c = true.
Proof. by intros [? _]%andb_true_iff. Qed.

Lemma span_digits_app s : forall d r q,
  span_digits s = (d, r) -> head_is ends_int (r +:+ q) = true -> span_digits (s +:+ q) = (d, r +:+ q).
Proof.
  induction s as [|c s IH]; intros d r q.
  - cbn [span_digits]. intros [= <- <-]. cbn [String.append]. destruct q as [|a q]; [done|]. cbn [head_is span_digits].
    unfold ends_int. intros ->%negb_true_iff. done.
  - cbn [span_digits String.append]. destruct (is_digit c).
    + destruct (span_digits s) as [d' r'] eqn:E. intros [= <- <-] Hq. by rewrite (IH _ _ _ eq_refl Hq).
    + by intros [= <- <-] _.
Qed.

Lemma span_digits_stop r : head_is ends_int r = true -> span_digits r = ("", r).
Proof. exact (span_digits_app "" "" "" r eq_refl). Qed.

Lemma span_digits_eq s d r : span_digits s = (d, r) -> s = d +:+ r.
Proof.
  revert d r; induction s as [|c s IH]; intros d r; cbn [span_digits]; [by intros [= <- <-]|].
  destruct (is_digit c); [|by intros [= <- <-]]. destruct (span_digits s) as [d' r']. intros [= <- <-].
  cbn [String.append]. by rewrite (IH _ _ eq_refl) at 1.
Qed.

Lemma read_frac_spec s f r : read_frac s = (f, r) ->
  s = f +:+ r /\
  (forall q, head_is ends_frac (r +:+ q) = true -> read_frac (s +:+ q) = (f, r +:+ q) /\ head_is ends_int (s +:+ q) = true).
Proof.
  assert (Hnone : forall t q, head_is ends_frac (t +:+ q) = true -> read_frac (t +:+ q) = ("", t +:+ q) /\ head_is ends_int (t +:+ q) = true).
  { intros t q Hq. split; [|by eapply head_is_mono, Hq; apply ends_frac_int]. destruct (t +:+ q) as [|c u]; [done|]. cbn [head_is] in Hq.
    apply andb_true_iff in Hq as [_ Hq%negb_true_iff]. unfold read_frac. by repeat (case_match; try done). }
  destruct s as [|c s]; [by intros [= <- <-]; auto|]. destruct (Ascii.eqb_spec c ".") as [->|Hne].
  - cbn [read_frac]. destruct (span_digits s) as [d r'] eqn:E. destruct (nonempty d) eqn:En; intros [= <- <-]; [|by auto].
    split; [by cbn [String.append]; rewrite (span_digits_eq _ _ _ E) at 1|]. intros q Hq. split; [|done].
    cbn [String.append read_frac]. rewrite (span_digits_app _ _ _ _ E) by (by eapply head_is_mono, Hq; apply ends_frac_int). by rewrite En.
  - intros Hf. assert (Hf' : read_frac (String c s) = ("", String c s)) by (unfold read_frac; by repeat (case_match; try done)).
    rewrite Hf' in Hf. injection Hf as <- <-. auto.
Qed.

Definition exp_sign (s : string) : string * string :=
  match s with
  | String a s1 => if Ascii.eqb a "-" || Ascii.eqb a "+" then (String a "", s1) else ("", s)
  | "" => ("", s)
  end.

Lemma exp_sign_spec s g r : exp_sign s = (g, r) -> s = g +:+ r /\ forall q, r <> "" -> exp_sign (s +:+ q) = (g, r +:+ q).
Proof.
  destruct s as [|a s]; [by intros [= <- <-]|]. cbn [exp_sign String.append].
  by destruct (Ascii.eqb a "-" || Ascii.eqb a "+"); intros [= <- <-].
Qed.

Lemma read_exp_spec s e r : read_exp s = (e, r) ->
  s = e +:+ r /\
  (forall q, head_is ends_number (r +:+ q) = true -> read_exp (s +:+ q) = (e, r +:+ q) /\ head_is ends_frac (s +:+ q) = true).
Proof.
  assert (Hnone : forall t q, head_is ends_number (t +:+ q) = true -> read_exp (t +:+ q) = ("", t +:+ q) /\ head_is ends_frac (t +:+ q) = true).
  { intros t q Hq. split; [|by eapply head_is_mono, Hq; apply ends_number_frac]. destruct (t +:+ q) as [|c u]; [done|]. cbn [head_is] in Hq.
    apply andb_true_iff in Hq as [_ Hq%negb_true_iff]. unfold read_exp. by rewrite Hq. }
  destruct s as [|c s]; [by intros [= <- <-]; auto|]. cbn [read_exp].
  destruct (Ascii.eqb c "e" || Ascii.eqb c "E") eqn:Ec; [|by intros [= <- <-]; auto].
  change (match s with String a s1 => _ | "" => _ end) with (exp_sign s).
  destruct (exp_sign s) as [g s1] eqn:Eg. destruct (exp_sign_spec _ _ _ Eg) as [-> Hg].
  destruct (span_digits s1) as [d r'] eqn:E. destruct (nonempty d) eqn:En; intros [= <- <-]; [|by auto].
  pose proof (span_digits_eq _ _ _ E) as ->. split; [by cbn [String.append]; rewrite sapp_assoc|]. intros q Hq.
  assert (Hc : ends_frac c = true) by (apply orb_true_iff in Ec as [->%Ascii.eqb_eq| ->%Ascii.eqb_eq]; done).
  split; [|done]. cbn [String.append read_exp]. rewrite Ec. change (match ?x with String a s1 => _ | "" => _ end) with (exp_sign x).
  rewrite Hg by (by destruct d). rewrite (span_digits_app _ _ _ _ E); [by rewrite En|].
  by eapply head_is_mono, Hq; intros ? ?%ends_number_frac; apply ends_frac_int.
Qed.

Lemma read_int_spec s i r : read_int s = Some (i, r) ->
  s = i +:+ r /\ (i <> "") /\ forall q, head_is ends_int (r +:+ q) = true -> read_int (s +:+ q) = Some (i, r +:+ q).
Proof.
  destruct s as [|c s]; [done|]. cbn [read_int String.append]. destruct (Ascii.eqb_spec c "0") as [->|Hne].
  - by intros [= <- <-].
  - destruct (is_digit c) eqn:Ed; [|done]. intros [= E]. split; [by apply span_digits_eq|]. split.
    + cbn [span_digits] in E. rewrite Ed in E. destruct (span_digits s). by injection E as <- <-.
    + intros q Hq. f_equal. by apply (span_digits_app (String c s)).
Qed.

Lemma read_sign_spec s g r : read_sign "-" s = (g, r) ->
  s = g +:+ r /\ (r <> "" -> forall q, read_sign "-" (s +:+ q) = (g, r +:+ q)).
Proof.
  destruct s as [|a s]; [by intros [= <- <-]|]. cbn [read_sign String.append].
  destruct (Ascii.eqb_spec a "-") as [->|]; intros [= <- <-]; done.
Qed.

Lemma read_number_spec s g i f r : read_number s = Some (g, i, f, r) ->
  s = g +:+ i +:+ f +:+ r /\
  (forall q, head_is ends_number (r +:+ q) = true -> read_number (s +:+ q) = Some (g, i, f, r +:+ q)).
Proof.
  unfold read_number. destruct (read_sign "-" s) as [g' s1] eqn:Eg. destruct (read_int s1) as [[i' s2]|] eqn:Ei; [|done].
  destruct (read_frac s2) as [f' s3] eqn:Ef. destruct (read_exp s3) as [e s4] eqn:Ee. intros [= <- <- <- <-].
  destruct (read_sign_spec _ _ _ Eg) as [Hs Hg]. destruct (read_int_spec _ _ _ Ei) as (Hs1 & Hi & Hint).
  destruct (read_frac_spec _ _ _ Ef) as [Hs2 Hf]. destruct (read_exp_spec _ _ _ Ee) as [Hs3 He].
  split; [by rewrite Hs, Hs1, Hs2, Hs3, !sapp_assoc|]. intros q Hq. destruct (He _ Hq) as [He' Hq3]. destruct (Hf _ Hq3) as [Hf' Hq2].
  rewrite Hg by (rewrite Hs1; by destruct i'). by rewrite Hint, Hf', He'.
Qed.

Lemma digits_value_app a : forall acc b, digits_value acc (a +:+ b) = digits_value (digits_value acc a) b.
Proof. induction a as [|c a IH]; intros acc b; [done|]. cbn [String.append digits_value]. apply IH. Qed.

Lemma pretty_N_char_digit x : (x < 10)%N -> is_digit (pretty_N_char x) = true /\ scode (pretty_N_char x) - 48 = Z.of_N x /\
  (x <> 0%N -> pretty_N_char x <> "0"%char).
Proof.
  intros Hx. assert (x = 0 \/ x = 1 \/ x = 2 \/ x = 3 \/ x = 4 \/ x = 5 \/ x = 6 \/ x = 7 \/ x = 8 \/ x = 9)%N as Hc by lia.
  destruct Hc as [->|[->|[->|[->|[->|[->|[->|[->|[->| ->]]]]]]]]]; split_and!; done.
Qed.

(** The digits [pretty] writes before [s]. *)
Lemma pretty_N_go_digits n : exists t,
  (forall s, pretty_N_go n s = t +:+ s) /\ (forall r, head_is ends_int r = true -> span_digits (t +:+ r) = (t, r)) /\
  digits_value 0 t = Z.of_N n /\ ((0 < n)%N -> exists c t', t = String c t' /\ is_digit c = true /\ c <> "0"%char).
Proof.
  induction (N.lt_wf_0 n) as [n _ IH]. assert (n = 0 \/ 0 < n)%N as [->|Hn] by lia.
  - exists "". split_and!; try done. exact span_digits_stop.
  - destruct (IH (n `div` 10)%N) as (t & Hgo & Hspan & Hval & Hhead); [by apply N.div_lt|].
    destruct (pretty_N_char_digit (n `mod` 10)) as (Hd & Hv & Hz); [by apply N.mod_lt|].
    set (c := pretty_N_char (n `mod` 10)) in *. exists (t +:+ String c ""). split_and!.
    + intros s. rewrite pretty_N_go_step by done. rewrite Hgo, sapp_assoc. done.
    + intros r Hr. rewrite sapp_assoc. cbn [String.append].
      assert (Hc : span_digits (String c r) = (String c "", r)).
      { cbn [span_digits]. rewrite Hd. by rewrite span_digits_stop. }
      clear -Hspan Hc Hd. specialize (Hspan "" eq_refl). rewrite sapp_nil_r in Hspan. revert Hspan.
      generalize t at 2 4. induction t as [|a t IH]; intros u Hu; [by injection Hu as <-|].
      cbn [String.append span_digits] in *. destruct (is_digit a); [|by destruct u].
      destruct (span_digits t) as [d x] eqn:E. injection Hu as <- ->. by rewrite (IH d eq_refl).
    + rewrite digits_value_app, Hval. cbn [digits_value]. rewrite Hv. pose proof (N.div_mod n 10). lia.
    + intros _. destruct (decide (n `div` 10 = 0)%N) as [E|E].
      * rewrite E in Hgo. assert (t = "") as -> by (specialize (Hgo ""); rewrite pretty_N_go_0, sapp_nil_r in Hgo; done).
        exists c, "". split_and!; [done|done|]. apply Hz. intros Ez. pose proof (N.div_mod n 10). lia.
      * destruct Hhead as (a & t' & -> & ? & ?); [by apply N.neq_0_lt_0|]. by exists a, (t' +:+ String c "").
Qed.

Lemma read_number_pretty `{FloatRead} z r : head_is ends_number r = true ->
  exists g i, read_number (pretty z +:+ r) = Some (g, i, "", r) /\ number_json g i "" = JInt z.
Proof.
  intros Hr. assert (Hi : head_is ends_int r = true)
    by (eapply head_is_mono, Hr; intros ? ?%ends_number_frac; by apply ends_frac_int).
  assert (Hf : read_frac r = ("", r)) by (apply (proj2 (read_frac_spec "" "" "" eq_refl) r); by eapply head_is_mono, Hr; apply ends_number_frac).
  assert (He : read_exp r = ("", r)) by (by apply (proj2 (read_exp_spec "" "" "" eq_refl) r)).
  assert (Hpos : forall p, exists i, read_int (pretty p +:+ r) = Some (i, r) /\ digits_value 0 i = Zpos p /\
    read_sign "-" (pretty p +:+ r) = ("", pretty p +:+ r)).
  { intros p. destruct (pretty_N_go_digits (Npos p)) as (t & Hgo & Hspan & Hval & Hhead).
    change (pretty p) with (pretty_N_go (Npos p) ""). rewrite Hgo, sapp_nil_r. exists t.
    destruct Hhead as (c & t' & -> & Hc & Hne); [lia|]. specialize (Hspan r Hi). cbn [String.append] in *. cbn [read_int read_sign].
    rewrite (proj2 (Ascii.eqb_neq _ _) Hne), Hc, Hspan. split_and!; [done|done|].
    destruct (Ascii.eqb_spec c "-") as [->|]; [done|done]. }
  unfold read_number. destruct z as [|p|p].
  - exists "", "0". cbn. by rewrite Hf, He.
  - destruct (Hpos p) as (i & Hp & Hv & Hs). exists "", i. change (pretty (Zpos p)) with (pretty p). rewrite Hs, Hp, Hf, He.
    split; [done|]. unfold number_json. cbn [nonempty]. by rewrite Hv.
  - destruct (Hpos p) as (i & Hp & Hv & _). exists "-", i. change (pretty (Zneg p) +:+ r) with (String "-" (pretty p +:+ r)).
    cbn [read_sign]. rewrite Ascii.eqb_refl, Hp, Hf, He. split; [done|]. unfold number_json. cbn [nonempty]. by rewrite Hv.
Qed.

Lemma skip_ws_head c s : json_space c = false -> skip_ws (String c s) = String c s.
Proof. intros Hc. unfold skip_ws. cbn [lstrip_by]. by rewrite Hc. Qed.

Lemma skip_ws_sep s : skip_ws (String " " s) = skip_ws s.
Proof. done. Qed.

Definition number_head (c : ascii) : bool := is_digit c || Ascii.eqb c "-".

Lemma number_head_spec c : number_head c = true ->
  json_space c = false /\ Ascii.eqb c DQ = false /\ Ascii.eqb c "{" = false /\ Ascii.eqb c "[" = false /\
  Ascii.eqb c "]" = false /\ Ascii.eqb c "}" = false.
Proof. by destruct c as [[] [] [] [] [] [] [] []]. Qed.

Lemma read_number_head s g i f r : read_number s = Some (g, i, f, r) -> exists c s', s = String c s' /\ number_head c = true.
Proof.
  unfold read_number, number_head. destruct s as [|c s]; [done|]. intros Hr. exists c, s. split; [done|]. revert Hr. cbn [read_sign].
  destruct (Ascii.eqb c "-") eqn:Ec; [by rewrite orb_true_r|]. rewrite orb_false_r. cbn [read_int].
  destruct (Ascii.eqb_spec c "0") as [->|]; [done|]. by destruct (is_digit c).
Qed.

(** ** Reading back values *)

Section roundtrip.
Context `{FloatText} `{FloatRead}.

(** float() reads the written form of [b], a JSON number with a fraction or an
    exponent, back. *)
Definition float_ok (b : Z) : Prop :=
  exists g i f, read_number (float_repr b) = Some (g, i, f, "") /\ nonempty f = true /\ float_value (float_repr b) = b.

Fixpoint json_ok (j : json) : Prop :=
  match j with
  | JFloat b => float_ok b
  | JArr l => fold_right and True (map json_ok l)
  | JObj d => NoDup (dkeys d) /\ fold_right and True (map (fun kv => json_ok (snd kv)) d)
  | _ => True
  end.

Fixpoint jfuel (j : json) : nat :=
  match j with
  | JArr l => S (fold_right Nat.add 0%nat (map (fun x => S (jfuel x)) l))
  | JObj d => S (fold_right Nat.add 0%nat (map (fun kv => S (jfuel (snd kv))) d))
  | _ => 1
  end.

Lemma fold_and {A} (P : A -> Prop) l : fold_right and True (map P l) <-> Forall P l.
Proof. induction l as [|x l IH]; simpl; [by split|]. rewrite IH, Forall_cons. done. Qed.

Lemma dumps_head j : json_ok j -> exists c s, dumps j = String c s /\ json_space c = false /\ Ascii.eqb c "]" = false /\ Ascii.eqb c "}" = false.
Proof.
  assert (Hnum : forall s g i f r, read_number s = Some (g, i, f, r) ->
    exists c s', s = String c s' /\ json_space c = false /\ Ascii.eqb c "]" = false /\ Ascii.eqb c "}" = false).
  { intros s g i f r (c & s' & -> & Hc)%read_number_head. exists c, s'. by apply number_head_spec in Hc as (? & _ & _ & _ & ? & ?). }
  destruct j as [|[]|z|b|s|l|d]; intros Hj; try (by eexists _, _; split_and!).
  - destruct (read_number_pretty z "" eq_refl) as (g & i & Hr & _). rewrite sapp_nil_r in Hr. by eapply Hnum.
  - destruct Hj as (g & i & f & Hr & _). by eapply Hnum.
Qed.

Lemma read_value_number n s g i f r : read_number s = Some (g, i, f, r) -> read_value (S n) s = Ok (number_json g i f, r).
Proof.
  intros Hr. destruct (read_number_head _ _ _ _ _ Hr) as (c & s' & -> & Hc). apply number_head_spec in Hc as (_ & Hd & Ho & Ha & _).
  cbn [read_value]. by rewrite Hd, Ho, Ha, Hr.
Qed.

Definition reads_back (j : json) : Prop :=
  forall n r, (jfuel j <= n)%nat -> head_is ends_number r = true -> read_value n (dumps j +:+ r) = Ok (j, r).

Lemma skip_ws_dumps j t : json_ok j -> skip_ws (dumps j +:+ t) = dumps j +:+ t.
Proof. intros (c & s & -> & Hc & _)%dumps_head. by apply skip_ws_head. Qed.

Lemma read_items_back l : forall x n acc r,
  Forall reads_back (x :: l) -> Forall json_ok (x :: l) -> (fold_right Nat.add 0%nat (map (fun x => S (jfuel x)) (x :: l)) <= n)%nat ->
  read_items n acc (sjoin ", " (map dumps (x :: l)) +:+ String "]" r) = Ok (JArr (acc ++ x :: l), r).
Proof.
  induction l as [|y l IH]; intros x n acc r Hb Hok Hn; inversion Hb as [|? ? Hx Hl]; subst; inversion Hok as [|? ? Ox Ol]; subst;
    cbn [map fold_right] in Hn; (destruct n as [|n]; [lia|]); cbn [read_items].
  - cbn [map sjoin String.concat]. rewrite Hx by (done || lia). done.
  - cbn [map]. rewrite sjoin_cons by done. rewrite !sapp_assoc. cbn [String.append]. rewrite Hx by (done || lia). cbn [res_bind fst snd].
    rewrite skip_ws_head by done. cbn [Ascii.eqb Bool.eqb]. rewrite skip_ws_sep.
    inversion Ol as [|? ? Oy _]; subst.
    assert (Hsk : skip_ws (sjoin ", " (map dumps (y :: l)) +:+ String "]" r) = sjoin ", " (map dumps (y :: l)) +:+ String "]" r).
    { destruct l; [by apply skip_ws_dumps|]. cbn [map]. rewrite sjoin_cons, sapp_assoc by done. by apply skip_ws_dumps. }
    cbn [map] in Hsk. rewrite Hsk. cbn [map] in IH. rewrite (IH y n) by (done || cbn [map fold_right]; lia). by rewrite <-app_assoc.
Qed.

Definition member_text (kv : string * json) : string := json_string (fst kv) +:+ ": " +:+ dumps (snd kv).

Lemma member_text_eq kv t : member_text kv +:+ t = String DQ (json_escapes (fst kv) +:+ String DQ (": " +:+ dumps (snd kv) +:+ t)).
Proof. unfold member_text, json_string. by rewrite !sapp_assoc. Qed.

Lemma skip_ws_members kv d t : skip_ws (sjoin ", " (map member_text (kv :: d)) +:+ t) = sjoin ", " (map member_text (kv :: d)) +:+ t.
Proof. destruct d; [by cbn [map sjoin String.concat]; rewrite member_text_eq|]. cbn [map]. by rewrite sjoin_cons, sapp_assoc, member_text_eq by done. Qed.

Lemma read_member n acc kv t : reads_back (snd kv) -> json_ok (snd kv) -> (jfuel (snd kv) <= n)%nat -> head_is ends_number t = true ->
  read_members (S n) acc (member_text kv +:+ t) =
  match skip_ws t with
  | String c rest =>
      if Ascii.eqb c "}" then Ok (JObj (dset (fst kv) (snd kv) acc), rest)
      else if Ascii.eqb c "," then read_members n (dset (fst kv) (snd kv) acc) (skip_ws rest)
      else bad_json
  | "" => bad_json
  end.
Proof.
  intros Hb Hok Hn Ht. rewrite member_text_eq. cbn [read_members]. rewrite Ascii.eqb_refl, read_string_escapes. cbn [res_bind fst snd].
  cbn [String.append]. rewrite skip_ws_head by done. rewrite skip_ws_sep, skip_ws_dumps by done. rewrite Hb by done. done.
Qed.

Lemma read_members_back d : forall kv n acc r,
  Forall (fun kv => reads_back (snd kv)) (kv :: d) -> Forall (fun kv => json_ok (snd kv)) (kv :: d) ->
  NoDup (dkeys (acc ++ kv :: d)) -> (fold_right Nat.add 0%nat (map (fun kv => S (jfuel (snd kv))) (kv :: d)) <= n)%nat ->
  read_members n acc (sjoin ", " (map member_text (kv :: d)) +:+ String "}" r) = Ok (JObj (acc ++ kv :: d), r).
Proof.
  induction d as [|kv' d IH]; intros kv n acc r Hb Hok Hnd Hn; inversion Hb as [|? ? Hx Hl]; subst; inversion Hok as [|? ? Ox Ol]; subst;
    cbn [map fold_right] in Hn; (destruct n as [|n]; [lia|]).
  all: assert (Hset : dset (fst kv) (snd kv) acc = acc ++ [kv])
    by (rewrite dset_fresh; [by destruct kv|]; apply dget_None_not_in; unfold dkeys in Hnd; rewrite map_app in Hnd; cbn [map] in Hnd;
        apply NoDup_app in Hnd as (_ & Hd & _); intros Hin; apply (Hd _ Hin); left).
  - cbn [map sjoin String.concat]. rewrite read_member by (done || lia). rewrite skip_ws_head by done. cbn [Ascii.eqb Bool.eqb].
    by rewrite Hset.
  - cbn [map]. rewrite sjoin_cons by done. rewrite !sapp_assoc. rewrite read_member by (done || lia). cbn [String.append].
    rewrite skip_ws_head by done. cbn [Ascii.eqb Bool.eqb]. rewrite skip_ws_sep, Hset.
    pose proof (skip_ws_members kv' d (String "}" r)) as Hsk. cbn [map] in Hsk, IH. rewrite Hsk.
    rewrite (IH kv' n); [by rewrite <-app_assoc|done|done|by rewrite <-app_assoc|cbn [map fold_right]; lia].
Qed.

Lemma read_back j : json_ok j -> reads_back j.
Proof.
  induction j as [|[]|z|b|s|l IH|d IH] using json_ind'; intros Hj n r Hn Hr; (destruct n as [|n]; [simpl in Hn; lia|]); try done.
  - destruct (read_number_pretty z r Hr) as (g & i & E & Ev). change (dumps (JInt z)) with (pretty z).
    by rewrite (read_value_number _ _ _ _ _ _ E), Ev.
  - destruct Hj as (g & i & f & E & Hf & Hv). destruct (read_number_spec _ _ _ _ _ E) as [Hs Hq]. change (dumps (JFloat b)) with (float_repr b).
    rewrite (read_value_number _ _ _ _ _ _ (Hq r Hr)). cbn [String.append]. unfold number_json. rewrite Hf.
    rewrite sapp_nil_r in Hs. by rewrite <-Hs, Hv.
  - change (dumps (JStr s)) with (json_string s). unfold json_string. rewrite !sapp_assoc. cbn [String.append read_value].
    rewrite Ascii.eqb_refl, read_string_escapes. done.
  - cbn [json_ok] in Hj. rewrite fold_and in Hj. cbn [jfuel] in Hn.
    assert (Hb : Forall reads_back l) by (rewrite Forall_forall in *; auto).
    change (dumps (JArr l)) with ("[" +:+ sjoin ", " (map dumps l) +:+ "]"). rewrite !sapp_assoc. cbn [String.append read_value].
    cbn [Ascii.eqb Bool.eqb DQ]. destruct l as [|x l]; [done|]. inversion Hj as [|? ? Ox _]; subst.
    assert (Hsk : exists c t, sjoin ", " (map dumps (x :: l)) +:+ String "]" r = String c t /\ json_space c = false /\ Ascii.eqb c "]" = false).
    { destruct (dumps_head x Ox) as (c & t & Ex & Hc & Hne & _). destruct l as [|y l]; cbn [map].
      - cbn [sjoin String.concat]. rewrite Ex. eauto.
      - rewrite sjoin_cons, Ex by done. cbn [String.append]. eauto. }
    destruct Hsk as (c & t & Et & Hc & Hne). pose proof (read_items_back l x n [] r Hb Hj ltac:(lia)) as Hi.
    rewrite Et in Hi |- *. rewrite (skip_ws_head _ _ Hc). apply Ascii.eqb_neq in Hne. by repeat (case_match; try done).
  - cbn [json_ok] in Hj. destruct Hj as [Hnd Hj]. rewrite fold_and in Hj. cbn [jfuel] in Hn.
    assert (Hb : Forall (fun kv => reads_back (snd kv)) d) by (rewrite Forall_forall in *; auto).
    change (dumps (JObj d)) with ("{" +:+ sjoin ", " (map member_text d) +:+ "}"). rewrite !sapp_assoc. cbn [String.append read_value].
    cbn [Ascii.eqb Bool.eqb DQ]. destruct d as [|kv d]; [done|].
    pose proof (read_members_back d kv n [] r Hb Hj Hnd ltac:(lia)) as Hi. rewrite skip_ws_members.
    assert (Hq : exists t, sjoin ", " (map member_text (kv :: d)) +:+ String "}" r = String DQ t).
    { destruct d as [|kv' d]; cbn [map]; [cbn [sjoin String.concat]|rewrite sjoin_cons, sapp_assoc by done]; rewrite member_text_eq; eauto. }
    destruct Hq as [t Et]. rewrite Et in Hi |- *. done.
Qed.

Lemma length_sapp a b : String.length (a +:+ b) = (String.length a + String.length b)%nat.
Proof. induction a as [|c a IH]; [done|]. cbn [String.append String.length]. lia. Qed.

Lemma sum_fuel {A} (fuel : A -> nat) (f : A -> string) l :
  Forall (fun x => (fuel x <= 2 * String.length (f x))%nat) l ->
  (fold_right Nat.add 0 (map (fun x => S (fuel x)) l) <= 2 * String.length (sjoin ", " (map f l)) + 2)%nat.
Proof.
  induction 1 as [|x l Hx Hl IH]; [simpl; lia|]. destruct l as [|y l]; cbn [map fold_right] in *; [simpl; lia|].
  rewrite sjoin_cons by done. rewrite !length_sapp. simpl String.length at 2. lia.
Qed.

Lemma jfuel_bound j : json_ok j -> (jfuel j <= 2 * String.length (dumps j))%nat.
Proof.
  induction j as [|[]|z|b|s|l IH|d IH] using json_ind'; intros Hj;
    try (destruct (dumps_head _ Hj) as (c & t & -> & _); simpl; lia).
  - cbn [json_ok] in Hj. rewrite fold_and in Hj. change (dumps (JArr l)) with ("[" +:+ sjoin ", " (map dumps l) +:+ "]").
    rewrite !length_sapp. cbn [jfuel]. simpl String.length at 1 3. pose proof (sum_fuel jfuel dumps l) as Hs. rewrite Forall_forall in *.
    specialize (Hs ltac:(auto)). lia.
  - cbn [json_ok] in Hj. destruct Hj as [_ Hj]. rewrite fold_and in Hj.
    change (dumps (JObj d)) with ("{" +:+ sjoin ", " (map member_text d) +:+ "}"). rewrite !length_sapp. cbn [jfuel].
    simpl String.length at 1 3. pose proof (sum_fuel (fun kv => jfuel (snd kv)) member_text d) as Hs. rewrite Forall_forall in *.
    assert (Hm : forall kv, kv ∈ d -> (jfuel (snd kv) <= 2 * String.length (member_text kv))%nat).
    { intros kv Hkv. specialize (IH _ Hkv (Hj _ Hkv)). unfold member_text. rewrite !length_sapp. lia. }
    specialize (Hs Hm). lia.
Qed.

(** [json.loads(json.dumps(j)) == j] *)
Theorem loads_dumps j : json_ok j -> loads (dumps j) = Ok j.
Proof.
  intros Hj. unfold loads. pose proof (skip_ws_dumps j "" Hj) as Hsk. rewrite sapp_nil_r in Hsk. rewrite Hsk.
  pose proof (read_back j Hj (S (2 * String.length (dumps j))) "") as Hr. rewrite sapp_nil_r in Hr.
  pose proof (jfuel_bound j Hj). rewrite Hr by (done || lia). done.
Qed.

(** ** A longer text

    What has been read does not depend on what follows it: the outcome on [p]
    settles the outcome on [p +:+ q], unless it is a decoding error. *)

Definition settled {A} (q : string) (ends : A -> string -> Prop) (r r' : res (A * string)) : Prop :=
  match r with
  | Ok (x, rest) => ends x rest -> r' = Ok (x, rest +:+ q)
  | Err e => exn_class e = EJSONDecode \/ r' = Err e
  end.

Lemma settled_bad {A} q ends (r' : res (A * string)) : settled q ends bad_json r'.
Proof. by left. Qed.

Lemma settled_bind {A B} q (ends : A -> string -> Prop) (ends' : B -> string -> Prop) c c' (k k' : A * string -> res (B * string)) :
  settled q ends c c' ->
  (forall x rest, c = Ok (x, rest) -> (ends x rest /\ settled q ends' (k (x, rest)) (k' (x, rest +:+ q))) \/
                                      (forall r', settled q ends' (k (x, rest)) r')) ->
  settled q ends' (res_bind c k) (res_bind c' k').
Proof.
  destruct c as [[x rest]|e]; cbn [settled res_bind].
  - intros Hc Hk. destruct (Hk x rest eq_refl) as [[He Hs]|Hs]; [|done]. by rewrite (Hc He).
  - intros [He| ->] _; [by left|by right].
Qed.

Definition always {A} (x : A) (rest : string) : Prop := True.

Lemma read_string_settled q n : forall p, (String.length p <= n)%nat -> settled q always (read_string p) (read_string (p +:+ q)).
Proof.
  assert (Hcons : forall a p, settled q always (read_string p) (read_string (p +:+ q)) ->
    settled q always (r <~ read_string p ;; Ok (String a (fst r), snd r)) (r <~ read_string (p +:+ q) ;; Ok (String a (fst r), snd r))).
  { intros a p Hp. eapply settled_bind; [exact Hp|]. intros x rest _. left. done. }
  induction n as [|n IH]; intros p Hp; (destruct p as [|c p]; [apply settled_bad|]); cbn [String.length] in Hp; [lia|].
  cbn [read_string String.append]. destruct (Ascii.eqb c DQ); [by intros _|]. destruct (Ascii.eqb c BS).
  - destruct p as [|e p]; [apply settled_bad|]. cbn [String.length] in Hp. cbn [String.append].
    destruct (Ascii.eqb_spec e "u") as [->|He].
    + destruct p as [|x [|y [|z [|w p]]]]; try apply settled_bad. cbn [String.length String.append] in *.
      destruct (hex4 x y z w) as [v|]; [|apply settled_bad]. destruct (v <? 256); [|by right]. apply Hcons, IH. lia.
    + assert (Hu : forall t, (match String e t with
        | String "u" (String x (String y (String z (String w s'')))) =>
            match hex4 x y z w with
            | None => bad_json
            | Some v => if v <? 256 then r <~ read_string s'' ;; Ok (String (ascii_of_nat (Z.to_nat v)) (fst r), snd r) else untyped "code point"
            end
        | String e s'' => match unescape e with Some a => r <~ read_string s'' ;; Ok (String a (fst r), snd r) | None => bad_json end
        | "" => bad_json
        end) = match unescape e with Some a => r <~ read_string t ;; Ok (String a (fst r), snd r) | None => bad_json end)
        by (intros t; by repeat (case_match; try done)).
      rewrite !Hu. destruct (unescape e); [|apply settled_bad]. apply Hcons, IH. lia.
  - destruct (scode c <? 32); [apply settled_bad|]. apply Hcons, IH. lia.
Qed.

Lemma skip_ws_app s q : skip_ws s = "" \/ skip_ws (s +:+ q) = skip_ws s +:+ q.
Proof.
  unfold skip_ws. induction s as [|c s IH]; [by left|]. cbn [String.append lstrip_by]. destruct (json_space c); [exact IH|by right].
Qed.

Lemma space_ends c : json_space c = true -> ends_number c = true.
Proof. by destruct c as [[] [] [] [] [] [] [] []]. Qed.

Lemma skip_ws_ends s c t q : skip_ws s = String c t -> ends_number c = true -> head_is ends_number (s +:+ q) = true.
Proof.
  destruct s as [|a s]; [done|]. unfold skip_ws. cbn [lstrip_by String.append head_is].
  destruct (json_space a) eqn:E; [intros _ _; by apply space_ends|by intros [= <- _]].
Qed.

Definition is_num (j : json) : bool := match j with JInt _ | JFloat _ => true | _ => false end.
Definition json_ends (q : string) (x : json) (rest : string) : Prop := is_num x = true -> head_is ends_number (rest +:+ q) = true.

Lemma settled_always {A} q (ends : A -> string -> Prop) r r' : settled q always r r' -> settled q ends r r'.
Proof. destruct r as [[x rest]|e]; cbn [settled]; [|done]. intros Hs _. by apply Hs. Qed.

Lemma read_literal_inv l s : read_literal l s = bad_json \/ exists t x rest, In (t, x) l /\ s = t +:+ rest /\ read_literal l s = Ok (x, rest).
Proof.
  induction l as [|[t x] l IH]; cbn [read_literal]; [by left|]. destruct (startswith t s) eqn:E.
  - right. exists t, x, (sdrop (String.length t) s). split_and!; [by left|by apply startswith_sdrop|done].
  - destruct IH as [->|(t' & x' & rest & Hin & Hs & ->)]; [by left|]. right. exists t', x', rest. split_and!; [by right|done|done].
Qed.

Lemma read_literal_settled q p : settled q always (read_literal literals p) (read_literal literals (p +:+ q)) /\
  (is_ok (read_literal literals p) = true -> read_number (p +:+ q) = None).
Proof.
  destruct (read_literal_inv literals p) as [->|(t & x & rest & Hin & -> & ->)]; [split; [apply settled_bad|done]|].
  rewrite sapp_assoc. unfold literals in Hin. cbn [In] in Hin.
  destruct Hin as [[= <- <-]|[[= <- <-]|[[= <- <-]|[[= <- <-]|[[= <- <-]|[[= <- <-]|[]]]]]]]; split; intros _; reflexivity.
Qed.

(** One level of the readers, given that the next one is settled. *)
Section step.
Variables (q : string) (n m : nat).
Hypothesis IHv : forall p, settled q (json_ends q) (read_value n p) (read_value m (p +:+ q)).
Hypothesis IHi : forall acc p, settled q always (read_items n acc p) (read_items m acc (p +:+ q)).
Hypothesis IHm : forall acc p, settled q always (read_members n acc p) (read_members m acc (p +:+ q)).

Lemma items_empty acc : read_items n acc "" = bad_json.
Proof. by destruct n as [|[|n']]. Qed.

Lemma members_empty acc : read_members n acc "" = bad_json.
Proof. by destruct n. Qed.

Lemma value_step p : settled q (json_ends q) (read_value (S n) p) (read_value (S m) (p +:+ q)).
Proof.
  cbn [read_value]. destruct p as [|c p]; [apply settled_bad|]. cbn [String.append]. destruct (Ascii.eqb c DQ).
  { eapply settled_bind; [by eapply read_string_settled|]. intros x rest _. by left. }
  destruct (Ascii.eqb c "{").
  { apply settled_always. destruct (skip_ws_app p q) as [E|E]; [rewrite E, members_empty; apply settled_bad|]. rewrite E.
    destruct (skip_ws p) as [|a t]; [rewrite members_empty; apply settled_bad|]. cbn [String.append].
    destruct (Ascii.eqb_spec a "}") as [->|Hne]; [by intros _|].
    replace (match String a t with String "}" s'' => Ok (JObj [], s'') | s'' => read_members n [] s'' end)
      with (read_members n [] (String a t)) by (by repeat (case_match; try done)).
    replace (match String a (t +:+ q) with String "}" s'' => Ok (JObj [], s'') | s'' => read_members m [] s'' end)
      with (read_members m [] (String a t +:+ q)) by (cbn [String.append]; by repeat (case_match; try done)).
    apply IHm. }
  destruct (Ascii.eqb c "[").
  { apply settled_always. destruct (skip_ws_app p q) as [E|E]; [rewrite E, items_empty; apply settled_bad|]. rewrite E.
    destruct (skip_ws p) as [|a t]; [rewrite items_empty; apply settled_bad|]. cbn [String.append].
    destruct (Ascii.eqb_spec a "]") as [->|Hne]; [by intros _|].
    replace (match String a t with String "]" s'' => Ok (JArr [], s'') | s'' => read_items n [] s'' end)
      with (read_items n [] (String a t)) by (by repeat (case_match; try done)).
    replace (match String a (t +:+ q) with String "]" s'' => Ok (JArr [], s'') | s'' => read_items m [] s'' end)
      with (read_items m [] (String a t +:+ q)) by (cbn [String.append]; by repeat (case_match; try done)).
    apply IHi. }
  change (String c (p +:+ q)) with (String c p +:+ q). destruct (read_number (String c p)) as [[[[g i] f] rest]|] eqn:E.
  + intros He. destruct (read_number_spec _ _ _ _ _ E) as [_ Hq]. rewrite Hq; [done|]. apply He. unfold number_json. by destruct (nonempty f).
  + destruct (read_literal_settled q (String c p)) as [Hl Hn]. destruct (read_literal literals (String c p)) as [[x rest]|e] eqn:El.
    * rewrite Hn by done. by apply settled_always.
    * destruct (read_literal_inv literals (String c p)) as [Hb|(? & ? & ? & _ & _ & Hb)]; rewrite El in Hb; [|done].
      injection Hb as ->. by left.
Qed.

Lemma items_step acc p : settled q always (read_items (S n) acc p) (read_items (S m) acc (p +:+ q)).
Proof.
  cbn [read_items]. eapply settled_bind; [apply IHv|]. intros x rest _. cbn [fst snd].
  destruct (skip_ws_app rest q) as [E|E]; [right; intros r'; rewrite E; apply settled_bad|]. rewrite E.
  destruct (skip_ws rest) as [|c t] eqn:Es; [right; intros r'; apply settled_bad|]. cbn [String.append].
  destruct (Ascii.eqb_spec c "]") as [->|_]; [left; split; [intros _; by eapply skip_ws_ends|by intros _]|].
  destruct (Ascii.eqb_spec c ",") as [->|_]; [|right; intros r'; apply settled_bad]. left. split; [intros _; by eapply skip_ws_ends|].
  destruct (skip_ws_app t q) as [E'|E']; [rewrite E', items_empty; apply settled_bad|]. rewrite E'. apply IHi.
Qed.

Lemma members_step acc p : settled q always (read_members (S n) acc p) (read_members (S m) acc (p +:+ q)).
Proof.
  cbn [read_members]. destruct p as [|a p]; [apply settled_bad|]. cbn [String.append]. destruct (Ascii.eqb a DQ); [|apply settled_bad].
  eapply settled_bind; [by eapply read_string_settled|]. intros k rest0 _. cbn [fst snd].
  destruct (skip_ws_app rest0 q) as [E0|E0]; [right; intros r'; rewrite E0; apply settled_bad|]. rewrite E0. left. split; [done|].
  destruct (skip_ws rest0) as [|b u]; [apply settled_bad|]. cbn [String.append].
  destruct (Ascii.eqb_spec b ":") as [->|Hb]; [|by repeat (case_match; try apply settled_bad)].
  destruct (skip_ws_app u q) as [Eu|Eu]; [rewrite Eu; destruct n; apply settled_bad|]. rewrite Eu.
  eapply settled_bind; [apply IHv|]. intros x rest _. cbn [fst snd].
  destruct (skip_ws_app rest q) as [E|E]; [right; intros r'; rewrite E; apply settled_bad|]. rewrite E.
  destruct (skip_ws rest) as [|c t] eqn:Es; [right; intros r'; apply settled_bad|]. cbn [String.append].
  destruct (Ascii.eqb_spec c "}") as [->|_]; [left; split; [intros _; by eapply skip_ws_ends|by intros _]|].
  destruct (Ascii.eqb_spec c ",") as [->|_]; [|right; intros r'; apply settled_bad]. left. split; [intros _; by eapply skip_ws_ends|].
  destruct (skip_ws_app t q) as [E'|E']; [rewrite E', members_empty; apply settled_bad|]. rewrite E'. apply IHm.
Qed.
End step.

Lemma read_settled q n : forall m, (n <= m)%nat ->
  (forall p, settled q (json_ends q) (read_value n p) (read_value m (p +:+ q))) /\
  (forall acc p, settled q always (read_items n acc p) (read_items m acc (p +:+ q))) /\
  (forall acc p, settled q always (read_members n acc p) (read_members m acc (p +:+ q))).
Proof.
  induction n as [|n IH]; intros m Hm; [split_and!; intros; apply settled_bad|]. destruct m as [|m]; [lia|].
  destruct (IH m) as (IHv & IHi & IHm); [lia|]. split_and!; intros; [by apply value_step|by apply items_step|by apply members_step].
Qed.

Lemma read_members_object n : forall acc p x rest, read_members n acc p = Ok (x, rest) -> is_num x = false.
Proof.
  induction n as [|n IH]; intros acc p x rest; [done|]. cbn [read_members]. destruct p as [|a p]; [done|].
  destruct (Ascii.eqb a DQ); [|done]. intros ([k r0] & _ & Hk)%res_bind_ok.
  destruct (skip_ws _) as [|b u]; [done|]. destruct (Ascii.eqb_spec b ":") as [->|Hb]; [|by repeat (case_match; try done)].
  apply res_bind_ok in Hk as ([y r1] & _ & Hk). destruct (skip_ws _) as [|c t]; [done|].
  destruct (Ascii.eqb c "}"); [by injection Hk as <- _|]. destruct (Ascii.eqb c ","); [by eapply IH|done].
Qed.

(** A proper prefix of the text of an object is not readable. *)
Theorem loads_prefix d p q :
  json_ok (JObj d) -> dumps (JObj d) = p +:+ q -> q <> "" -> exists e, loads p = Err e /\ exn_class e = EJSONDecode.
Proof.
  intros Hd Heq Hq. destruct p as [|c p]; [by eexists|].
  assert (Hc : c = "{"%char) by (by injection Heq as <- _). subst c. unfold loads. rewrite skip_ws_head by done.
  set (m := jfuel (JObj d)). set (n := S (2 * String.length (String "{" p))).
  destruct (read_settled q n (Nat.max n m) ltac:(lia)) as (Hv & _ & _). specialize (Hv (String "{" p)).
  pose proof (read_back _ Hd (Nat.max n m) "" ltac:(lia) eq_refl) as Hr. rewrite sapp_nil_r, Heq in Hr. rewrite Hr in Hv.
  destruct (read_value n (String "{" p)) as [[x rest]|e] eqn:E.
  - exfalso. assert (He : json_ends q x rest).
    { intros Hx. exfalso. subst n. cbn [read_value] in E. cbn [Ascii.eqb Bool.eqb DQ] in E.
      destruct (skip_ws p) as [|a t]; [by apply read_members_object in E; rewrite E in Hx|].
      destruct (Ascii.eqb_spec a "}") as [->|Ha]; [by injection E as <- _|].
      assert (E' : read_members (2 * String.length (String "{" p)) [] (String a t) = Ok (x, rest)) by (revert E; by repeat (case_match; try done)).
      apply read_members_object in E'. by rewrite E' in Hx. }
    specialize (Hv He). injection Hv as _ Hrest. by destruct rest, q.
  - cbn [res_bind]. exists e. split; [done|]. by destruct Hv.
Qed.

(** ** No control characters: [dumps] escapes them *)

Fixpoint graphic (s : string) : bool :=
  match s with "" => true | String c s' => (32 <=? scode c) && graphic s' end.

Lemma graphic_app a b : graphic (a +:+ b) = graphic a && graphic b.
Proof. induction a as [|c a IH]; [done|]. cbn [String.append graphic]. by rewrite IH, andb_assoc. Qed.

Lemma graphic_has_char x s : scode x < 32 -> graphic s = true -> has_char x s = false.
Proof.
  intros Hx. induction s as [|c s IH]; [done|]. cbn [graphic has_char]. intros [Hc Hs]%andb_true_iff. rewrite (IH Hs), orb_false_r.
  apply Z.leb_le in Hc. apply Ascii.eqb_neq. intros ->. lia.
Qed.

Lemma json_escapes_graphic s : graphic (json_escapes s) = true.
Proof.
  induction s as [|c s IH]; [done|]. cbn [json_escapes]. rewrite graphic_app, IH, andb_true_r.
  by destruct c as [[] [] [] [] [] [] [] []].
Qed.

Lemma json_string_graphic s : graphic (json_string s) = true.
Proof. unfold json_string. rewrite graphic_app. cbn [graphic]. by rewrite json_escapes_graphic. Qed.

Lemma span_digits_graphic s d r : span_digits s = (d, r) -> graphic d = true.
Proof.
  revert d r; induction s as [|c s IH]; intros d r; cbn [span_digits]; [by intros [= <- _]|].
  destruct (is_digit c) eqn:Ec; [|by intros [= <- _]]. destruct (span_digits s) as [d' r'] eqn:E. intros [= <- _]. cbn [graphic].
  rewrite (IH _ _ eq_refl), andb_true_r. unfold is_digit in Ec. bsimp. lia.
Qed.

Lemma read_frac_graphic s f r : read_frac s = (f, r) -> graphic f = true.
Proof.
  destruct s as [|c s]; [by intros [= <- _]|]. destruct (Ascii.eqb_spec c ".") as [->|Hne].
  - cbn [read_frac]. destruct (span_digits s) as [d r'] eqn:E. destruct (nonempty d); intros [= <- _]; [|done].
    cbn [graphic]. by rewrite (span_digits_graphic _ _ _ E).
  - intros Hf. assert (Hf' : read_frac (String c s) = ("", String c s)) by (unfold read_frac; by repeat (case_match; try done)).
    rewrite Hf' in Hf. by injection Hf as <- _.
Qed.

Lemma exp_sign_graphic s g r : exp_sign s = (g, r) -> graphic g = true.
Proof.
  destruct s as [|a s]; [by intros [= <- _]|]. cbn [exp_sign]. destruct (Ascii.eqb a "-" || Ascii.eqb a "+") eqn:Ea; intros [= <- _]; [|done].
  apply orb_true_iff in Ea as [->%Ascii.eqb_eq| ->%Ascii.eqb_eq]; done.
Qed.

Lemma read_exp_graphic s e r : read_exp s = (e, r) -> graphic e = true.
Proof.
  destruct s as [|c s]; cbn [read_exp]; [by intros [= <- _]|]. destruct (Ascii.eqb c "e" || Ascii.eqb c "E") eqn:Ec; [|by intros [= <- _]].
  change (match s with String a s1 => _ | "" => _ end) with (exp_sign s). destruct (exp_sign s) as [g s1] eqn:Es.
  destruct (span_digits s1) as [d r'] eqn:Ed. destruct (nonempty d); intros [= <- _]; [|done]. cbn [String.append graphic].
  rewrite graphic_app, (exp_sign_graphic _ _ _ Es), (span_digits_graphic _ _ _ Ed).
  apply orb_true_iff in Ec as [->%Ascii.eqb_eq| ->%Ascii.eqb_eq]; done.
Qed.

Lemma read_number_graphic s g i f : read_number s = Some (g, i, f, "") -> graphic s = true.
Proof.
  unfold read_number. destruct (read_sign "-" s) as [g' s1] eqn:Eg. destruct (read_int s1) as [[i' s2]|] eqn:Ei; [|done].
  destruct (read_frac s2) as [f' s3] eqn:Ef. destruct (read_exp s3) as [e s4] eqn:Ee. intros [= <- <- <- ->].
  assert (Hg : graphic g' = true).
  { destruct s as [|a s]; cbn [read_sign] in Eg; [by injection Eg as <- _|]. destruct (Ascii.eqb a "-"); by injection Eg as <- _. }
  assert (Hi : graphic i' = true).
  { destruct s1 as [|a s1]; [done|]. cbn [read_int] in Ei. destruct (Ascii.eqb a "0"); [by injection Ei as <- _|].
    destruct (is_digit a); [|done]. apply (span_digits_graphic (String a s1) _ s2). congruence. }
  destruct (read_sign_spec _ _ _ Eg) as [-> _]. destruct (read_int_spec _ _ _ Ei) as (-> & _).
  pose proof (read_frac_graphic _ _ _ Ef) as Hf. pose proof (read_exp_graphic _ _ _ Ee) as He.
  destruct (read_frac_spec _ _ _ Ef) as [-> _]. destruct (read_exp_spec _ _ _ Ee) as [-> _]. by rewrite !graphic_app, Hg, Hi, Hf, He.
Qed.

Lemma sjoin_graphic {A} (f : A -> string) l : Forall (fun x => graphic (f x) = true) l -> graphic (sjoin ", " (map f l)) = true.
Proof.
  induction 1 as [|x l Hx Hl IH]; [done|]. destruct l as [|y l]; [done|]. cbn [map] in *. rewrite sjoin_cons by done.
  rewrite !graphic_app, Hx, IH. done.
Qed.

Lemma dumps_graphic j : json_ok j -> graphic (dumps j) = true.
Proof.
  induction j as [|[]|z|b|s|l IH|d IH] using json_ind'; intros Hj; try done.
  - destruct (read_number_pretty z "" eq_refl) as (g & i & Hr & _). rewrite sapp_nil_r in Hr. by eapply read_number_graphic.
  - destruct Hj as (g & i & f & Hr & _). by eapply read_number_graphic.
  - apply json_string_graphic.
  - cbn [json_ok] in Hj. rewrite fold_and in Hj. change (dumps (JArr l)) with ("[" +:+ sjoin ", " (map dumps l) +:+ "]").
    rewrite !graphic_app, sjoin_graphic; [done|]. rewrite Forall_forall in *. auto.
  - cbn [json_ok] in Hj. destruct Hj as [_ Hj]. rewrite fold_and in Hj.
    change (dumps (JObj d)) with ("{" +:+ sjoin ", " (map member_text d) +:+ "}").
    rewrite !graphic_app, sjoin_graphic; [done|]. rewrite Forall_forall in *. intros kv Hkv. unfold member_text.
    rewrite !graphic_app, json_string_graphic, IH by auto. done.
Qed.

(** A value without floats and with distinct keys, as a test. *)
Fixpoint plain_json (j : json) : bool :=
  match j with
  | JFloat _ => false
  | JArr l => forallb plain_json l
  | JObj d => bool_decide (NoDup (dkeys d)) && forallb (fun kv => plain_json (snd kv)) d
  | _ => true
  end.

Lemma plain_json_ok j : plain_json j = true -> json_ok j.
Proof.
  induction j as [|b|z|b|s|l IH|d IH] using json_ind'; intros Hj; try done; cbn [plain_json json_ok] in *.
  - rewrite fold_and. rewrite forallb_forall in Hj. rewrite Forall_forall in *. intros x Hx. apply IH; [done|]. by apply Hj, list_elem_of_In.
  - apply andb_true_iff in Hj as [Hn Hj]. apply bool_decide_eq_true in Hn. split; [done|]. rewrite fold_and. rewrite forallb_forall in Hj.
    rewrite Forall_forall in *. intros x Hx. apply IH; [done|]. by apply Hj, list_elem_of_In.
Qed.
End roundtrip.
