(* ===== verification/Jsonl.v ===== *)
(** * Journal files

    The append-only JSON Lines files of agent_core/session_store.py at the level
    of bytes: UTF-8, [_read_journal_records], [_prepare_journal_append] with its
    backward search in chunks, and the bytes [_write_journal_events] adds.  A
    file is the string of its bytes. *)

From stdpp Require Import base list strings pretty.
From Stdlib Require Import ZArith Lia Ascii.
From S2P Require Import Prelude PyData PyStr Json PyText JsonText.

(** ** UTF-8 *)

Definition chr (z : Z) : ascii := ascii_of_nat (Z.to_nat z).

Definition utf8_char (c : ascii) : string :=
  let z := scode c in
  if z <? 128 then String c "" else String (chr (192 + z / 64)) (String (chr (128 + z mod 64)) "").

Fixpoint utf8_encode (s : string) : string :=
  match s with "" => "" | String c s' => utf8_char c +:+ utf8_encode s' end.

Definition bad_utf8 {A} : res A := raise EUnicodeDecode "'utf-8' codec can't decode bytes".

Definition between (low high : Z) (c : ascii) : bool := (low <=? scode c) && (scode c <=? high).
Definition continuation : ascii -> bool := between 128 191.

(** [bytes.decode("utf-8")]; with [surrogatepass] encoded surrogates are read.
    Code points above 255 are outside of the model. *)
Fixpoint utf8_decode (surrogatepass : bool) (b : string) : res string :=
  match b with
  | "" => Ok ""
  | String c b' =>
      let z := scode c in
      if z <? 128 then r <~ utf8_decode surrogatepass b' ;; Ok (String c r)
      else if between 194 223 c then
        match b' with
        | String d b'' =>
            if negb (continuation d) then bad_utf8
            else if z <? 196 then r <~ utf8_decode surrogatepass b'' ;; Ok (String (chr ((z - 192) * 64 + (scode d - 128))) r)
            else untyped "code point"
        | "" => bad_utf8
        end
      else if between 224 239 c then
        let low := if z =? 224 then 160 else 128 in
        let high := if (z =? 237) && negb surrogatepass then 159 else 191 in
        match b' with
        | String d (String e _) => if between low high d && continuation e then untyped "code point" else bad_utf8
        | _ => bad_utf8
        end
      else if between 240 244 c then
        let low := if z =? 240 then 144 else 128 in
        let high := if z =? 244 then 143 else 191 in
        match b' with
        | String d (String e (String f _)) =>
            if between low high d && continuation e && continuation f then untyped "code point" else bad_utf8
        | _ => bad_utf8
        end
      else bad_utf8
  end.

Definition zero_byte (c : ascii) : bool := scode c =? 0.

(** [json.detect_encoding(b) == "utf-8"] *)
Definition detects_utf8 (b : string) : bool :=
  let bom := [String (chr 0) (String (chr 0) (String (chr 254) (String (chr 255) ""))); String (chr 255) (String (chr 254) "");
              String (chr 254) (String (chr 255) ""); String (chr 239) (String (chr 187) (String (chr 191) ""))] in
  negb (existsb (fun m => startswith m b) bom) &&
  match b with
  | String x (String y (String _ (String _ _))) | String x (String y "") => negb (zero_byte x) && negb (zero_byte y)
  | _ => true
  end.

Section jsonl.
Context `{FloatText} `{FloatRead}.

(** [json.loads] on bytes. *)
Definition loads_bytes (b : string) : res json :=
  if detects_utf8 b then t <~ utf8_decode true b ;; loads t else untyped "encoding".

(** ** Reading *)

(** [_read_journal_records] on the lines of the file: what it yields, the last
    one perhaps an exception. *)
Fixpoint read_journal_lines (lines : list string) : list (res json) :=
  match lines with
  | [] => []
  | line :: lines' =>
      if negb (nonempty (strip line)) then read_journal_lines lines'
      else match loads line with
           | Ok record => Ok record :: read_journal_lines lines'
           | Err e => if is_class EJSONDecode e && negb (endswith_char LF line) then [] else [Err e]
           end
  end.

(** [path.open(encoding="utf-8")] and [_read_journal_records]; a decoding error of
    the text comes when the file is read. *)
Definition read_journal_records (file : string) : list (res json) :=
  match utf8_decode false file with
  | Ok text => read_journal_lines (io_lines_universal text)
  | Err e => [Err e]
  end.

(** ** Appending *)

(** [chunk.rfind(b"\n")] *)
Fixpoint rfind_lf (s : string) : option nat :=
  match s with
  | "" => None
  | String c s' => match rfind_lf s' with
                   | Some k => Some (S k)
                   | None => if Ascii.eqb c LF then Some 0%nat else None
                   end
  end.

(** [file.seek(a); file.read(b - a)] *)
Definition read_span (a b : nat) (file : string) : string := stake (b - a) (sdrop a file).

Definition CHUNK : nat := 4096.

(** [while cursor:] the start of the last line; [fuel] at least [cursor]. *)
Fixpoint line_start (fuel cursor : nat) (file : string) : nat :=
  match fuel with
  | O => 0
  | S fuel' =>
      match cursor with
      | O => 0
      | _ =>
          let chunk_start := (cursor - CHUNK)%nat in
          match rfind_lf (read_span chunk_start cursor file) with
          | Some newline => (chunk_start + newline + 1)%nat
          | None => line_start fuel' chunk_start file
          end
      end
  end.

(** [_prepare_journal_append]: the file after it. *)
Definition prepare_journal_append (file : string) : res string :=
  let end_ := String.length file in
  if negb (nonempty file) then Ok file
  else if endswith_char LF file then Ok file
  else
    let start := line_start end_ end_ file in
    match loads_bytes (read_span start end_ file) with
    | Err e => if is_class EJSONDecode e then Ok (stake start file) else Err e
    | Ok _ => Ok (file +:+ NL)
    end.

(** The bytes of [_write_journal_events] for records. *)
Definition record_line (record : json) : string := utf8_encode (dumps record) +:+ NL.
Definition record_lines (records : list json) : string := foldr (fun r b => record_line r +:+ b) "" records.
End jsonl.

(** ** Bytes and characters *)

Lemma utf8_decode_char sp c t : utf8_decode sp (utf8_char c +:+ t) = (r <~ utf8_decode sp t ;; Ok (String c r)).
Proof. destruct c as [[] [] [] [] [] [] [] []]; reflexivity. Qed.

Lemma utf8_decode_encode sp s t : utf8_decode sp (utf8_encode s +:+ t) = (r <~ utf8_decode sp t ;; Ok (s +:+ r)).
Proof.
  induction s as [|c s IH]; cbn [utf8_encode String.append]; [by destruct (utf8_decode sp t)|].
  rewrite sapp_assoc, utf8_decode_char, IH. by destruct (utf8_decode sp t).
Qed.

Lemma utf8_roundtrip sp s : utf8_decode sp (utf8_encode s) = Ok s.
Proof. rewrite <-(sapp_nil_r (utf8_encode s)), utf8_decode_encode. cbn. by rewrite sapp_nil_r. Qed.

Lemma utf8_encode_app a b : utf8_encode (a +:+ b) = utf8_encode a +:+ utf8_encode b.
Proof. induction a as [|c a IH]; [done|]. cbn [utf8_encode String.append]. by rewrite IH, sapp_assoc. Qed.

Lemma has_lf_encode s : has_char LF (utf8_encode s) = has_char LF s.
Proof.
  induction s as [|c s IH]; [done|]. cbn [utf8_encode has_char]. rewrite has_char_app, IH. f_equal.
  by destruct c as [[] [] [] [] [] [] [] []].
Qed.

Lemma endswith_char_app c a b : b <> "" -> endswith_char c (a +:+ b) = endswith_char c b.
Proof.
  intros Hb. induction a as [|x a IH]; [done|]. cbn [String.append endswith_char]. rewrite <-IH. by destruct (a +:+ b) eqn:E; [destruct a, b|].
Qed.

Lemma endswith_has c s : has_char c s = false -> endswith_char c s = false.
Proof.
  induction s as [|a s IH]; [done|]. cbn [has_char]. intros [Ha Hs]%orb_false_iff. cbn [endswith_char]. destruct s; [done|]. by apply IH.
Qed.

(** ** The backward search *)

Lemma rfind_lf_app a b :
  rfind_lf (a +:+ b) = match rfind_lf b with Some k => Some (String.length a + k)%nat | None => rfind_lf a end.
Proof.
  induction a as [|c a IH]; cbn [String.append rfind_lf String.length]; [by destruct (rfind_lf b)|].
  rewrite IH. by destruct (rfind_lf b).
Qed.

Lemma rfind_lf_none s : has_char LF s = false -> rfind_lf s = None.
Proof. induction s as [|c s IH]; [done|]. cbn [has_char rfind_lf]. intros [-> Hs]%orb_false_iff. by rewrite (IH Hs). Qed.

Lemma stake_span a b s : (a <= b)%nat -> stake b s = stake a s +:+ read_span a b s.
Proof.
  unfold read_span. revert b s; induction a as [|a IH]; intros b s Hab; [by rewrite Nat.sub_0_r|].
  destruct b as [|b]; [lia|]. destruct s as [|c s]; [cbn; by destruct (b - a)%nat|]. cbn [stake sdrop String.append]. rewrite (IH b s) by lia. done.
Qed.

Lemma stake_length n s : (n <= String.length s)%nat -> String.length (stake n s) = n.
Proof. revert s; induction n as [|n IH]; intros [|c s]; simpl; try lia. intros Hn. rewrite IH; lia. Qed.

Lemma stake_app a b : stake (String.length a) (a +:+ b) = a.
Proof. induction a as [|c a IH]; cbn [String.length stake String.append]; [by destruct b|by rewrite IH]. Qed.

Lemma stake_all s : stake (String.length s) s = s.
Proof. rewrite <-(sapp_nil_r s) at 2. apply stake_app. Qed.

(** The search in chunks finds the last line feed before the cursor. *)
Lemma line_start_spec fuel : forall cursor file, (cursor <= fuel)%nat -> (cursor <= String.length file)%nat ->
  line_start fuel cursor file = match rfind_lf (stake cursor file) with Some k => S k | None => 0%nat end.
Proof.
  induction fuel as [|fuel IH]; intros cursor file Hf Hc.
  - assert (cursor = 0%nat) as -> by lia. by destruct file.
  - destruct cursor as [|cursor]; [by destruct file|]. cbn [line_start]. set (a := (S cursor - CHUNK)%nat).
    assert (Ha : (a <= cursor)%nat) by (subst a; unfold CHUNK; lia).
    rewrite (stake_span a (S cursor)) by lia. rewrite rfind_lf_app, stake_length by lia.
    destruct (rfind_lf (read_span a (S cursor) file)) as [k|]; [lia|]. apply IH; lia.
Qed.

(** A file split behind its last line feed. *)
Lemma line_start_tail a b :
  (a = "" \/ exists a', a = a' +:+ NL) -> has_char LF b = false ->
  let file := a +:+ b in let n := String.length file in
  line_start n n file = String.length a /\ read_span (String.length a) n file = b /\ stake (String.length a) file = a.
Proof.
  intros Ha Hb. cbv zeta. rewrite line_start_spec by lia. rewrite stake_all, rfind_lf_app, (rfind_lf_none _ Hb), stake_app. split_and!; [|..|done].
  - destruct Ha as [->|[a' ->]]; [done|]. rewrite rfind_lf_app, length_sapp. cbn. lia.
  - unfold read_span. rewrite sdrop_app, length_sapp. replace (_ + _ - _)%nat with (String.length b) by lia. apply stake_all.
Qed.

(** ** Lines *)

Lemma universal_id s : has_char CR s = false -> universal s = s.
Proof.
  induction s as [|c s IH]; [done|]. cbn [has_char universal]. intros [-> Hs]%orb_false_iff. by rewrite (IH Hs).
Qed.

Lemma io_lines_line l t : has_char LF l = false -> io_lines (l +:+ NL +:+ t) = (l +:+ NL) :: io_lines t.
Proof.
  induction l as [|c l IH]; [done|]. cbn [has_char]. intros [Hc Hl]%orb_false_iff. cbn [String.append io_lines].
  rewrite Hc, (IH Hl). done.
Qed.

Lemma io_lines_last l : has_char LF l = false -> l <> "" -> io_lines l = [l].
Proof.
  induction l as [|c l IH]; [done|]. cbn [has_char]. intros [Hc Hl]%orb_false_iff _. cbn [io_lines]. rewrite Hc.
  destruct l as [|d l]; [done|]. by rewrite IH.
Qed.

(** ** Journals and what an interrupted append leaves *)

Section journals.
Context `{FloatText} `{FloatRead}.

Definition is_record (r : json) : Prop := json_ok r /\ exists d, r = JObj d.

Definition journal_text (rs : list json) : string := foldr (fun r t => dumps r +:+ NL +:+ t) "" rs.

(** An unfinished record: a proper, nonempty prefix of the text of a record. *)
Definition unfinished (p : string) : Prop := p <> "" /\ exists r q, is_record r /\ dumps r = p +:+ q /\ q <> "".

(** The file holds the records [rs]: complete, with an unfinished record behind
    them, or without the line feed of the last one. *)
Inductive holds (file : string) (rs : list json) : Prop :=
| holds_complete : file = record_lines rs -> holds file rs
| holds_torn p : unfinished p -> file = record_lines rs +:+ utf8_encode p -> holds file rs
| holds_open rs' r : rs = rs' ++ [r] -> file = record_lines rs' +:+ utf8_encode (dumps r) -> holds file rs.

Lemma record_lines_encode rs : record_lines rs = utf8_encode (journal_text rs).
Proof.
  induction rs as [|r rs IH]; [done|]. cbn [record_lines journal_text foldr]. rewrite !utf8_encode_app.
  unfold record_lines in IH. rewrite IH. unfold record_line. by rewrite sapp_assoc.
Qed.

Lemma record_lines_app rs ns : record_lines (rs ++ ns) = record_lines rs +:+ record_lines ns.
Proof. unfold record_lines. induction rs as [|r rs IH]; [done|]. cbn [app foldr]. by rewrite IH, sapp_assoc. Qed.

Lemma dumps_no_lf r : json_ok r -> has_char LF (dumps r) = false.
Proof. intros Hr. apply graphic_has_char; [done|by apply dumps_graphic]. Qed.

Lemma dumps_no_cr r : json_ok r -> has_char CR (dumps r) = false.
Proof. intros Hr. apply graphic_has_char; [done|by apply dumps_graphic]. Qed.

Lemma prefix_no_char c p q s : s = p +:+ q -> has_char c s = false -> has_char c p = false.
Proof. intros ->. rewrite has_char_app. by intros [? _]%orb_false_iff. Qed.

Lemma journal_text_no_cr rs : Forall is_record rs -> has_char CR (journal_text rs) = false.
Proof.
  induction 1 as [|r rs [Hr _] _ IH]; [done|]. cbn [journal_text foldr]. rewrite !has_char_app, dumps_no_cr by done. exact IH.
Qed.

Lemma loads_line r : is_record r -> loads (dumps r +:+ NL) = Ok r.
Proof.
  intros [Hr _]. unfold loads. rewrite skip_ws_dumps by done. rewrite (read_back r Hr); [done| |done].
  rewrite length_sapp. pose proof (jfuel_bound r Hr). lia.
Qed.

Lemma strip_brace t : nonempty (strip (String "{" t)) = true.
Proof. unfold strip, strip_by. change (lstrip_by is_space (String "{" t)) with (String "{" t). destruct (rstrip_by_cons is_space "{" t eq_refl) as [r E]. by rewrite E. Qed.

Lemma record_brace r t : is_record r -> exists u, dumps r +:+ t = String "{" u.
Proof. intros [_ [d ->]]. by eexists. Qed.

Lemma read_lines_record r t : is_record r ->
  read_journal_lines (io_lines (dumps r +:+ NL +:+ t)) = Ok r :: read_journal_lines (io_lines t).
Proof.
  intros Hr. rewrite io_lines_line by (apply dumps_no_lf; apply Hr). cbn [read_journal_lines].
  destruct (record_brace r NL Hr) as [u Hu]. rewrite Hu, strip_brace, <-Hu. cbn [negb]. by rewrite loads_line.
Qed.

Lemma read_lines_text rs t : Forall is_record rs ->
  read_journal_lines (io_lines (journal_text rs +:+ t)) = map Ok rs ++ read_journal_lines (io_lines t).
Proof.
  induction 1 as [|r rs Hr _ IH]; [done|]. cbn [journal_text foldr]. rewrite !sapp_assoc, read_lines_record by done.
  cbn [map app]. f_equal. exact IH.
Qed.

Lemma unfinished_spec p : unfinished p ->
  has_char LF p = false /\ has_char CR p = false /\ (exists u, p = String "{" u) /\ exists e, loads p = Err e /\ exn_class e = EJSONDecode.
Proof.
  intros (Hne & r & q & Hr & Hd & Hq). destruct Hr as [Hr [d ->]]. split_and!.
  - eapply prefix_no_char; [exact Hd|by apply dumps_no_lf].
  - eapply prefix_no_char; [exact Hd|by apply dumps_no_cr].
  - destruct p as [|c p]; [done|]. injection Hd as <- _. by exists p.
  - by eapply loads_prefix.
Qed.

Lemma read_lines_unfinished p : unfinished p -> read_journal_lines (io_lines p) = [].
Proof.
  intros Hp. destruct (unfinished_spec p Hp) as (Hlf & _ & [u ->] & e & He & Hc). rewrite io_lines_last by done.
  cbn [read_journal_lines]. rewrite strip_brace, He. cbn [negb]. rewrite (endswith_has _ _ Hlf). unfold is_class. by rewrite Hc.
Qed.

Lemma read_lines_open r : is_record r -> read_journal_lines (io_lines (dumps r)) = [Ok r].
Proof.
  intros Hr. destruct (record_brace r "" Hr) as [u Hu]. rewrite sapp_nil_r in Hu. rewrite io_lines_last; [|apply dumps_no_lf; apply Hr|by rewrite Hu].
  cbn [read_journal_lines]. rewrite Hu, strip_brace, <-Hu. cbn [negb]. by rewrite loads_dumps by apply Hr.
Qed.

(** Reading gives exactly the records the file holds. *)
Lemma holds_read file rs : Forall is_record rs -> holds file rs -> read_journal_records file = map Ok rs.
Proof.
  intros Hrs Hh.
  assert (Ht : exists rs' p, Forall is_record rs' /\ has_char CR p = false /\ file = utf8_encode (journal_text rs' +:+ p) /\
    map Ok rs' ++ read_journal_lines (io_lines p) = map Ok rs).
  { destruct Hh as [->|p Hp ->|rs' r -> ->].
    - exists rs, "". by rewrite record_lines_encode, sapp_nil_r, app_nil_r.
    - exists rs, p. rewrite record_lines_encode, <-utf8_encode_app, read_lines_unfinished, app_nil_r by done.
      split_and!; [done|apply (unfinished_spec p Hp)|done|done].
    - apply Forall_app in Hrs as [Hrs' Hr]. inversion Hr as [|? ? Hr' _]; subst. exists rs', (dumps r).
      rewrite record_lines_encode, <-utf8_encode_app, read_lines_open, map_app by done.
      split_and!; [done|apply dumps_no_cr; apply Hr'|done|done]. }
  destruct Ht as (rs' & p & Hrs' & Hcr & -> & Hread). unfold read_journal_records. rewrite utf8_roundtrip. unfold io_lines_universal.
  rewrite universal_id by (by rewrite has_char_app, journal_text_no_cr, Hcr). by rewrite read_lines_text.
Qed.

Lemma detects_brace t : head_is (fun c => negb (zero_byte c)) t = true -> detects_utf8 (String "{" t) = true.
Proof.
  unfold detects_utf8. cbn [existsb startswith]. destruct t as [|c [|d [|e t]]]; try done; cbn [head_is]; intros Hc; by rewrite ?Hc.
Qed.

Lemma encode_head u t : graphic u = true -> (u = "" -> head_is (fun c => negb (zero_byte c)) t = true) ->
  head_is (fun c => negb (zero_byte c)) (utf8_encode u +:+ t) = true.
Proof.
  destruct u as [|c u]; cbn [graphic utf8_encode]; [auto|]. intros [Hc _]%andb_true_iff _.
  by destruct c as [[] [] [] [] [] [] [] []]; try (by vm_compute in Hc).
Qed.

Lemma encode_record_bytes p : graphic p = true -> (exists u, p = String "{" u) -> detects_utf8 (utf8_encode p) = true.
Proof.
  intros Hg [u ->]. cbn [graphic] in Hg. apply andb_true_iff in Hg as [_ Hg]. apply (detects_brace (utf8_encode u)).
  rewrite <-(sapp_nil_r (utf8_encode u)). by apply encode_head.
Qed.

Lemma record_lines_end rs : record_lines rs = "" \/ exists a, record_lines rs = a +:+ NL.
Proof.
  induction rs as [|r rs IH]; [by left|]. right. change (record_lines (r :: rs)) with ((utf8_encode (dumps r) +:+ NL) +:+ record_lines rs).
  destruct IH as [->|[a ->]]; [exists (utf8_encode (dumps r)); by rewrite sapp_nil_r|].
  exists (utf8_encode (dumps r) +:+ NL +:+ a). by rewrite !sapp_assoc.
Qed.

Lemma prepare_bytes rs b : b <> "" -> has_char LF b = false -> detects_utf8 b = true ->
  prepare_journal_append (record_lines rs +:+ b) =
  match res_bind (utf8_decode true b) loads with
  | Err e => if is_class EJSONDecode e then Ok (record_lines rs) else Err e
  | Ok _ => Ok ((record_lines rs +:+ b) +:+ NL)
  end.
Proof.
  intros Hb Hlf Hd. destruct (line_start_tail (record_lines rs) b (record_lines_end rs) Hlf) as (Hs & Hr & Ht). unfold prepare_journal_append.
  rewrite (proj2 (nonempty_true _)) by (by destruct (record_lines rs)). cbn [negb]. rewrite endswith_char_app, (endswith_has _ _ Hlf) by done.
  rewrite Hs, Hr, Ht. unfold loads_bytes. by rewrite Hd.
Qed.

Lemma prepare_tail rs p : graphic p = true -> (exists u, p = String "{" u) ->
  prepare_journal_append (record_lines rs +:+ utf8_encode p) =
  match loads p with
  | Err e => if is_class EJSONDecode e then Ok (record_lines rs) else Err e
  | Ok _ => Ok ((record_lines rs +:+ utf8_encode p) +:+ NL)
  end.
Proof.
  intros Hg Hu. rewrite prepare_bytes; [by rewrite utf8_roundtrip| | |by apply encode_record_bytes].
  - by destruct Hu as [u ->].
  - rewrite has_lf_encode. by apply graphic_has_char.
Qed.

(** Preparing leaves exactly the lines of the records the file holds. *)
Lemma holds_prepare file rs : Forall is_record rs -> holds file rs -> prepare_journal_append file = Ok (record_lines rs).
Proof.
  intros Hrs [->|p Hp ->|rs' r -> ->].
  - unfold prepare_journal_append. destruct (record_lines_end rs) as [->|[a ->]]; [done|].
    rewrite (proj2 (nonempty_true _)) by (by destruct a). by rewrite endswith_char_app.
  - destruct (unfinished_spec p Hp) as (_ & _ & Hu & e & He & Hc). destruct Hp as (Hne & r & q & [Hr _] & Hd & _).
    rewrite prepare_tail; [| |done].
    + rewrite He. unfold is_class. by rewrite Hc.
    + apply dumps_graphic in Hr. rewrite Hd, graphic_app in Hr. by apply andb_true_iff in Hr as [? _].
  - apply Forall_app in Hrs as [_ Hr]. inversion Hr as [|? ? Hr' _]; subst. destruct (record_brace r "" Hr') as [u Hu].
    rewrite sapp_nil_r in Hu. rewrite prepare_tail; [|apply dumps_graphic; apply Hr'|by eauto].
    rewrite loads_dumps by apply Hr'. rewrite record_lines_app. cbn [record_lines foldr]. unfold record_line. by rewrite !sapp_assoc.
Qed.

(** An append that stops at any character leaves a file that holds the records
    written so far. *)
Lemma holds_interrupted ns : Forall is_record ns -> forall rs p q,
  journal_text ns = p +:+ q -> exists k, (k <= length ns)%nat /\ holds (record_lines rs +:+ utf8_encode p) (rs ++ take k ns).
Proof.
  induction 1 as [|n ns Hn Hns IH]; intros rs p q Hpq.
  - exists 0%nat. split; [done|]. assert (p = "") as -> by (by destruct p). rewrite sapp_nil_r, app_nil_r. by constructor.
  - cbn [journal_text foldr] in Hpq. fold (journal_text ns) in Hpq.
    assert (Hsplit : (exists q', q' <> "" /\ dumps n = p +:+ q') \/ p = dumps n \/ exists p', p = dumps n +:+ NL +:+ p' /\ journal_text ns = p' +:+ q).
    { clear -Hpq. revert p Hpq. generalize (dumps n) as t. induction t as [|c t IH]; intros p Hpq.
      - destruct p as [|a p]; [by right; left|]. right. right. exists p. cbn [String.append] in Hpq. injection Hpq as <- ->. done.
      - destruct p as [|a p]; [left; exists (String c t); done|]. cbn [String.append] in Hpq. injection Hpq as <- Hpq.
        destruct (IH p Hpq) as [(q' & Hq & ->)|[->|(p' & -> & Hp)]]; [left; eauto|by right; left|]. right. right. exists p'. done. }
    destruct Hsplit as [(q' & Hq' & Hd)|[->|(p' & -> & Hp')]].
    + exists 0%nat. split; [lia|]. rewrite app_nil_r. destruct p as [|a p]; [rewrite sapp_nil_r; by constructor|].
      eapply holds_torn; [|done]. split; [done|]. by exists n, q'.
    + exists 1%nat. split; [simpl; lia|]. cbn [take]. rewrite take_0. by eapply holds_open.
    + destruct (IH (rs ++ [n]) p' q Hp') as (k & Hk & Hh). exists (S k). split; [simpl; lia|]. cbn [take].
      rewrite <-app_assoc in Hh. rewrite record_lines_app in Hh. rewrite !utf8_encode_app.
      cbn [record_lines foldr] in Hh. unfold record_line in Hh. rewrite !sapp_assoc in Hh. exact Hh.
Qed.

(** ** A character cut in two *)

Lemma decode_lead_byte sp s c : 128 <= scode c ->
  utf8_decode sp (utf8_encode s +:+ String (chr (192 + scode c / 64)) "") = bad_utf8.
Proof.
  intros Hc. rewrite utf8_decode_encode. destruct c as [[] [] [] [] [] [] [] []]; try (exfalso; by apply Hc); reflexivity.
Qed.

Lemma lead_byte c : 128 <= scode c -> Ascii.eqb (chr (192 + scode c / 64)) LF = false /\ zero_byte (chr (192 + scode c / 64)) = false.
Proof. intros Hc. by destruct c as [[] [] [] [] [] [] [] []]; try (exfalso; by apply Hc). Qed.

(** When an append stops between the two bytes of a character of a record, the
    file can be neither read nor opened again. *)
Theorem split_character_unreadable rs r pre c post :
  is_record r -> dumps r = pre +:+ String c post -> 128 <= scode c ->
  let file := record_lines rs +:+ utf8_encode pre +:+ String (chr (192 + scode c / 64)) "" in
  exists e, exn_class e = EUnicodeDecode /\ read_journal_records file = [Err e] /\ prepare_journal_append file = Err e.
Proof.
  intros [Hr [d ->]] Hd Hc. cbv zeta. eexists. split; [|split]; [|unfold read_journal_records|].
  2: { rewrite record_lines_encode, <-sapp_assoc, <-utf8_encode_app, decode_lead_byte by done. done. }
  1: done.
  destruct (lead_byte c Hc) as [Hlf Hz]. assert (Hg : graphic pre = true).
  { apply dumps_graphic in Hr. rewrite Hd, graphic_app in Hr. by apply andb_true_iff in Hr as [? _]. }
  assert (Hu : exists u, pre = String "{" u).
  { destruct pre as [|a u]; injection Hd as <- _; [by vm_compute in Hc|by exists u]. }
  rewrite prepare_bytes; [by rewrite decode_lead_byte|by destruct Hu as [u ->]| |].
  - rewrite has_char_app, has_lf_encode, graphic_has_char by done. cbn [has_char]. by rewrite Hlf.
  - destruct Hu as [u ->]. cbn [graphic] in Hg. apply andb_true_iff in Hg as [_ Hg]. cbn [utf8_encode]. rewrite sapp_assoc.
    apply (detects_brace (utf8_encode u +:+ _)). apply encode_head; [done|]. intros _. cbn [head_is]. by rewrite Hz.
Qed.
End journals.
