(* ===== verification/SessionStore.v ===== *)
(** * The session store

    agent_core/session_store.py with session_paths.py and the initial title of
    session_title.py: one directory per session with a JSON Lines journal and a
    metadata file, grouped by workspace.  The journal is kept as bytes ([Jsonl]);
    the metadata file, which is only ever replaced as a whole, as the JSON value
    it holds.  Locks make every operation atomic.  Searching message texts and the
    listing of sessions by modification time are not modelled. *)

From stdpp Require Import base list strings pretty.
From Stdlib Require Import ZArith Lia Ascii.
From S2P Require Import Prelude PyData PyStr Json PyTime Content Authority Message Session PyText JsonText Jsonl.

(** ** session_paths.py *)

Definition validate_session_id (id : string) : res unit :=
  if negb (nonempty id) || String.eqb id "." || String.eqb id ".." || has_char "/" id || has_char BS id
  then value_error ("Invalid session id: " +:+ repr_string id) else Ok tt.

(** urllib.parse.quote(text, safe="") and unquote. *)
Definition unreserved (c : ascii) : bool :=
  is_digit c || between 65 90 c || between 97 122 c || existsb (Ascii.eqb c) ["_"; "."; "-"; "~"]%char.

Definition upper_hex (n : Z) : ascii := chr (if n <? 10 then 48 + n else 55 + n).

Definition quote_byte (c : ascii) : string :=
  if unreserved c then String c ""
  else String "%" (String (upper_hex (scode c / 16)) (String (upper_hex (scode c mod 16)) "")).

Fixpoint quote_bytes (b : string) : string :=
  match b with "" => "" | String c b' => quote_byte c +:+ quote_bytes b' end.

Definition quote (text : string) : string := quote_bytes (utf8_encode text).

Fixpoint unquote_bytes (s : string) : string :=
  match s with
  | "" => ""
  | String c s' =>
      if Ascii.eqb c "%" then
        match s' with
        | String x (String y s'') =>
            match hex_value x, hex_value y with
            | Some a, Some b => String (chr (16 * a + b)) (unquote_bytes s'')
            | _, _ => String c (unquote_bytes s')
            end
        | _ => String c (unquote_bytes s')
        end
      else utf8_char c +:+ unquote_bytes s'
  end.

(** Bytes that are not UTF-8 become replacement characters, outside of the model. *)
Definition unquote (s : string) : res string :=
  match utf8_decode false (unquote_bytes s) with
  | Ok t => Ok t
  | Err _ => untyped "replacement character"
  end.

(** ** What the store keeps *)

(** A session directory: its metadata file and its journal file, if they exist. *)
Record SessionFiles := MkFiles { sf_metadata : option json; sf_journal : option string }.
Definition no_files : SessionFiles := MkFiles None None.
Definition with_metadata (m : list (string * json)) (f : SessionFiles) := MkFiles (Some (JObj m)) (sf_journal f).
Definition with_journal (b : string) (f : SessionFiles) := MkFiles (sf_metadata f) (Some b).

(** The session directories of each workspace directory, and those that lie in
    the root itself when sessions are not grouped. *)
Record Store := MkStore { st_groups : list (string * list (string * SessionFiles)); st_flat : list (string * SessionFiles) }.

(** Whether sessions are grouped, [str(Path(w).expanduser().resolve())], and the
    words that count attachments in a title (their characters are outside of the
    model). *)
Class StoreEnv := {
  group_by_workspace : bool;
  resolve_workspace : string -> string;
  attachments_suffix : nat -> string;
}.

(** A session directory by its workspace directory; [None]: the root. *)
Definition Place : Type := option string.

Definition files_at (p : Place) (id : string) (s : Store) : option SessionFiles :=
  match p with
  | None => dget id (st_flat s)
  | Some g => match dget g (st_groups s) with Some sessions => dget id sessions | None => None end
  end.

Definition put_files (p : Place) (id : string) (f : SessionFiles) (s : Store) : Store :=
  match p with
  | None => MkStore (st_groups s) (dset id f (st_flat s))
  | Some g => MkStore (dset g (dset id f (default [] (dget g (st_groups s)))) (st_groups s)) (st_flat s)
  end.

(** [shutil.rmtree(directory)] *)
Definition remove_files (p : Place) (id : string) (s : Store) : Store :=
  match p with
  | None => MkStore (st_groups s) (dpop id (st_flat s))
  | Some g => match dget g (st_groups s) with
              | Some sessions => MkStore (dset g (dpop id sessions) (st_groups s)) (st_flat s)
              | None => s
              end
  end.

Definition exists_files (o : option SessionFiles) : bool :=
  match o with Some f => match sf_journal f, sf_metadata f with None, None => false | _, _ => true end | None => false end.

Section store.
Context `{FloatText} `{FloatRead} `{StoreEnv}.

Definition workspace_key (workspace : string) : string := quote (resolve_workspace workspace).
Definition workspace_from_key (key : string) : res string := unquote key.

(** ** Finding a session *)

Definition find_session_directory (id : string) (s : Store) : option Place :=
  if negb group_by_workspace then
    match dget id (st_flat s) with
    | Some f => match sf_journal f with Some _ => Some None | None => None end
    | None => None
    end
  else match List.find (fun g => exists_files (dget id (snd g))) (st_groups s) with
       | Some g => Some (Some (fst g))
       | None => None
       end.

Definition workspace_for_unlocked (id : string) (s : Store) : res (option string) :=
  if negb group_by_workspace then Ok None else
  match find_session_directory id s with
  | Some (Some g) => w <~ workspace_from_key g ;; Ok (Some w)
  | _ => Ok None
  end.

Definition session_path (id : string) (workspace : option string) (s : Store) : res (option Place) :=
  if negb group_by_workspace then Ok (Some None) else
  match workspace with
  | Some w => _ <~ validate_session_id id ;; Ok (Some (Some (workspace_key w)))
  | None =>
      bound <~ workspace_for_unlocked id s ;;
      match bound with
      | None => Ok None
      | Some w => _ <~ validate_session_id id ;; Ok (Some (Some (workspace_key w)))
      end
  end.

(** The journal file of a place, [None] when it does not exist. *)
Definition journal_file (p : Place) (id : string) (s : Store) : option string :=
  match files_at p id s with Some f => sf_journal f | None => None end.

(** ** Events as records *)

Definition event_to_dict (e : JournalEvent) : json :=
  JObj [("seq", JInt (ev_seq e)); ("event_id", JStr (ev_event_id e)); ("event_type", JStr (ev_event_type e));
        ("turn_id", ostr (ev_turn_id e)); ("timestamp_utc", JStr (format_utc (ev_timestamp_utc e)));
        ("tool_call_id", ostr (ev_tool_call_id e)); ("payload", JObj (ev_payload e))].

(** [int(j)] *)
Definition int_of_json (j : json) : res Z :=
  match j with
  | JInt z => Ok z
  | JBool b => Ok (if b then 1 else 0)
  | JStr s => py_int s
  | _ => untyped "int"
  end.

Definition event_from_dict (j : json) : res JournalEvent :=
  d <~ typed_obj j ;;
  seq <~ res_bind (jindex "seq" d) int_of_json ;;
  event_id <~ jindex "event_id" d ;;
  event_type <~ jindex "event_type" d ;;
  timestamp <~ jindex "timestamp_utc" d ;;
  t <~ parse_utc (py_str timestamp) ;;
  payload <~ (if truthy (jget "payload" d) then typed_obj (jget "payload" d) else Ok []) ;;
  Ok (MkEvent seq (py_str event_id) (py_str event_type) (get_str "turn_id" d) t (get_str "tool_call_id" d) payload).

(** ** Metadata *)

Definition session_metadata (f : SessionFiles) : res (list (string * json)) :=
  match sf_metadata f with
  | None => Ok []
  | Some (JObj d) => Ok d
  | Some _ => value_error "session workspace metadata must be an object"
  end.

Definition preset_of_metadata (f : SessionFiles) : res PermissionPreset :=
  d <~ session_metadata f ;;
  match jget "permission_preset" d with
  | JNull => Ok ASK_FOR_APPROVAL
  | v => preset_of (py_str v)
  end.

Definition new_session_metadata : list (string * json) :=
  [("title", JStr ""); ("title_source", JStr "initial"); ("has_activity", JBool false)].

(** session_title.py *)
Definition TITLE_MAX_CHARS : nat := 80.

Definition part_filename (p : ContentPart) : string :=
  match p with
  | ImagePart _ _ filename _ => filename
  | FilePart _ filename _ _ => filename
  | TextPart _ => ""
  end.

Definition initial_session_title (message : Message) (id : string) : string :=
  let text := strip (default "" (text_content (m_content message))) in
  let text := if nonempty text then text else
    match List.filter nonempty (map part_filename (m_parts message)) with
    | [] => text
    | [f] => f
    | f :: fs => f +:+ attachments_suffix (length (f :: fs))
    end in
  stake TITLE_MAX_CHARS (sjoin " " (split_ws (if nonempty text then text else id))).

(** One round of the loop of [_update_session_metadata]: the metadata and whether
    they have changed. *)
Definition update_metadata_event (id : string) (acc : list (string * json) * bool) (e : JournalEvent) :
    res (list (string * json) * bool) :=
  acc1 <~ (if String.eqb (ev_event_type e) "permission_preset_changed" then
             v <~ jindex "preset" (ev_payload e) ;;
             p <~ preset_of (py_str v) ;;
             Ok (dset "permission_preset" (JStr (preset_value p)) (fst acc), true)
           else Ok acc) ;;
  activity <~ jindex "has_activity" (fst acc1) ;;
  let acc2 := if negb (truthy activity) && negb (type_in e ["permission_preset_changed"; "plan_updated"])
              then (dset "has_activity" (JBool true) (fst acc1), true) else acc1 in
  title <~ jindex "title" (fst acc2) ;;
  if truthy title then Ok acc2 else
  source <~ jindex "title_source" (fst acc2) ;;
  match source, String.eqb (ev_event_type e) "message_appended", jget "message" (ev_payload e) with
  | JStr "initial", true, JObj message =>
      if json_eqb (jget "role" message) (JStr "user") then
        m <~ message_from_dict message ;;
        Ok (dset "title" (JStr (initial_session_title m id)) (fst acc2), true)
      else Ok acc2
  | _, _, _ => Ok acc2
  end.

(** ** The state of the store as an effect *)

Definition read_files (p : Place) (id : string) : M Store SessionFiles :=
  s <- get ;; ret (default no_files (files_at p id s)).

Definition write_session_metadata (p : Place) (id : string) (metadata : list (string * json)) : M Store unit :=
  modify (fun s => put_files p id (with_metadata metadata (default no_files (files_at p id s))) s).

Definition update_session_metadata (p : Place) (id : string) (events : list JournalEvent) : M Store unit :=
  f <- read_files p id ;;
  metadata <- lift (session_metadata f) ;;
  r <- lift (res_fold (update_metadata_event id) (metadata, false) events) ;;
  if snd r then write_session_metadata p id (fst r) else ret tt.

(** Create the directory and, if there is none, its metadata. *)
Definition make_directory (p : Place) (id : string) : M Store unit :=
  modify (fun s => put_files p id (default no_files (files_at p id s)) s) ;;;
  f <- read_files p id ;;
  match sf_metadata f with
  | None => write_session_metadata p id new_session_metadata
  | Some _ => ret tt
  end.

(** [_open_journal_file] and [_prepare_journal_append] *)
Definition open_journal_file (p : Place) (id : string) : M Store unit :=
  f <- read_files p id ;;
  let file := default "" (sf_journal f) in
  modify (put_files p id (with_journal file f)) ;;;
  file' <- lift (prepare_journal_append file) ;;
  modify (put_files p id (with_journal file' f)).

(** [_write_journal_events] *)
Definition write_journal_events (p : Place) (id : string) (events : list JournalEvent) : M Store unit :=
  f <- read_files p id ;;
  modify (put_files p id (with_journal (default "" (sf_journal f) +:+ record_lines (map event_to_dict events)) f)).

(** [open_journal]: the place whose journal is now open, *)
Definition open_journal (id : string) (workspace : option string) : M Store Place :=
  s <- get ;;
  path <- lift (_ <~ validate_session_id id ;; session_path id workspace s) ;;
  match path with
  | None => fail (Exn EValueError ("session has no journal path: " +:+ repr_string id))
  | Some p => make_directory p id ;;; open_journal_file p id ;;; ret p
  end.

(** and the sink it yields. *)
Definition journal_append (p : Place) (id : string) (events : list JournalEvent) : M Store unit :=
  write_journal_events p id events ;;; update_session_metadata p id events.

Definition append_events_unlocked (id : string) (events : list JournalEvent) (workspace : option string) : M Store unit :=
  s <- get ;;
  workspace <- lift (match workspace with Some w => Ok (Some w) | None => workspace_for_unlocked id s end) ;;
  match workspace with
  | None => if group_by_workspace then fail (Exn EValueError ("workspace is required for a new session: " +:+ repr_string id)) else ret tt
  | Some _ => ret tt
  end ;;;
  path <- lift (session_path id workspace s) ;;
  match path with
  | None => fail (Exn EValueError ("session has no journal path: " +:+ repr_string id))
  | Some p =>
      make_directory p id ;;;
      open_journal_file p id ;;;
      write_journal_events p id events ;;;
      update_session_metadata p id events
  end.

Definition append_events (id : string) (events : list JournalEvent) (workspace : option string) : M Store unit :=
  match events with
  | [] => ret tt
  | _ => lift (validate_session_id id) ;;; append_events_unlocked id events workspace
  end.

(** ** Loading *)

Fixpoint load_records (records : list (res json)) (s : Session) : res Session :=
  match records with
  | [] => Ok s
  | r :: records' =>
      j <~ r ;;
      e <~ event_from_dict j ;;
      match apply_event e (st s) with
      | (x, Ok _) => load_records records' (append_journal [e] (set_st x s))
      | (_, Err err) => Err err
      end
  end.

(** [_load_unlocked] without recovery. *)
Definition load_unlocked (id : string) (workspace : option string) (s : Store) : res Session :=
  path <~ session_path id workspace s ;;
  bound <~ workspace_for_unlocked id s ;;
  preset <~ match find_session_directory id s with
            | Some p => preset_of_metadata (default no_files (files_at p id s))
            | None => Ok ASK_FOR_APPROVAL
            end ;;
  let session := MkSession id bound (initial_state preset) [] false None 0 [] in
  match path with
  | None => Ok session
  | Some p => match journal_file p id s with
              | None => Ok session
              | Some file => load_records (read_journal_records file) session
              end
  end.

(** [load] *)
Definition load `{Env} (id : string) (workspace : option string) (recovery : bool) (s : Store) : res Session :=
  _ <~ validate_session_id id ;;
  session <~ load_unlocked id workspace s ;;
  if recovery then match recover session with
                   | (session', Ok _) => Ok session'
                   | (_, Err e) => Err e
                   end
  else Ok session.

(** ** Other operations *)

Definition has_journal (id : string) (s : Store) : res bool :=
  _ <~ validate_session_id id ;;
  path <~ session_path id None s ;;
  Ok match path with
     | Some p => match journal_file p id s with Some _ => true | None => false end
     | None => false
     end.

Definition delete_session (id : string) : M Store bool :=
  lift (validate_session_id id) ;;;
  s <- get ;;
  match (if group_by_workspace then find_session_directory id s else Some None) with
  | None => ret false
  | Some p =>
      match files_at p id s with
      | None => fail (Exn EFileNotFound ("[Errno 2] No such file or directory: " +:+ repr_string id))
      | Some _ => modify (remove_files p id) ;;; ret true
      end
  end.

Definition bind_workspace (id workspace : string) : M Store unit :=
  lift (validate_session_id id) ;;;
  let target := Some (workspace_key (resolve_workspace workspace)) in
  s <- get ;;
  match find_session_directory id s with
  | Some current =>
      if bool_decide (current = target) then ret tt else
      match files_at target id s with
      | Some _ => fail (Exn EValueError ("session already exists in workspace: " +:+ repr_string id))
      | None =>
          (* shutil.move *)
          let f := default no_files (files_at current id s) in
          modify (fun s => put_files target id f (remove_files current id s))
      end
  | None => ret tt
  end ;;;
  make_directory target id.

Definition workspace_for (id : string) (s : Store) : res (option string) :=
  _ <~ validate_session_id id ;; workspace_for_unlocked id s.

Definition permission_preset_for (id : string) (s : Store) : res PermissionPreset :=
  _ <~ validate_session_id id ;;
  match find_session_directory id s with
  | None => Ok ASK_FOR_APPROVAL
  | Some p => preset_of_metadata (default no_files (files_at p id s))
  end.

(** The shape of [set_permission_preset] and [set_provider]. *)
Definition set_metadata_field (id workspace key value : string) : M Store unit :=
  lift (validate_session_id id) ;;;
  let p := Some (workspace_key workspace) in
  modify (fun s => put_files p id (default no_files (files_at p id s)) s) ;;;
  f <- read_files p id ;;
  metadata <- lift (session_metadata f) ;;
  write_session_metadata p id (dset key (JStr value) metadata).

Definition set_permission_preset_for (id : string) (preset : PermissionPreset) (workspace : string) : M Store unit :=
  set_metadata_field id workspace "permission_preset" (preset_value preset).

Definition set_provider (id provider workspace : string) : M Store unit :=
  set_metadata_field id workspace "provider" provider.

Definition provider_for (id : string) (s : Store) : res (option string) :=
  _ <~ validate_session_id id ;;
  if negb group_by_workspace then Ok None else
  match find_session_directory id s with
  | None => Ok None
  | Some p =>
      d <~ session_metadata (default no_files (files_at p id s)) ;;
      Ok (otruthy (get_str "provider" d))
  end.

Definition title_source_for (id : string) (s : Store) : res string :=
  _ <~ validate_session_id id ;;
  match find_session_directory id s with
  | None => value_error ("session does not exist: " +:+ repr_string id)
  | Some p =>
      d <~ session_metadata (default no_files (files_at p id s)) ;;
      v <~ jindex "title_source" d ;; Ok (py_str v)
  end.

Definition set_title (id title source : string) (expected_source : option string) : M Store bool :=
  if negb (existsb (String.eqb source) ["initial"; "generated"; "manual"]) || negb (nonempty (strip title))
  then fail (Exn EValueError "invalid Session title or source") else
  lift (validate_session_id id) ;;;
  s <- get ;;
  match find_session_directory id s with
  | None => fail (Exn EValueError ("session does not exist: " +:+ repr_string id))
  | Some p =>
      metadata <- lift (session_metadata (default no_files (files_at p id s))) ;;
      same <- lift (match expected_source with
                    | None => Ok true
                    | Some x => v <~ jindex "title_source" metadata ;; Ok (json_eqb v (JStr x))
                    end) ;;
      if negb same then ret false else
      write_session_metadata p id (dset "title_source" (JStr source) (dset "title" (JStr title) metadata)) ;;; ret true
  end.

(** ** Editing the latest user message *)

(** [_editable_user_messages]: the event and the item of the latest message the
    user wrote, if any. *)
Fixpoint latest_user_anchor (message_events : list JournalEvent) (reversed_anchors : list UserAnchor) : res (option (string * Z)) :=
  match reversed_anchors with
  | [] => Ok None
  | a :: anchors =>
      if negb (bool_decide (ua_source a = SrcUserInput)) then latest_user_anchor message_events anchors else
      match index (ua_item_index a) message_events with
      | None => raise EIndexError "list index out of range"
      | Some e =>
          if bool_decide (ev_turn_id e = Some (ua_turn_id a)) then Ok (Some (ev_event_id e, ua_item_index a))
          else value_error "user anchor does not match its Journal event"
      end
  end.

Definition is_message_event (e : JournalEvent) : bool := String.eqb (ev_event_type e) "message_appended".

Definition editable_user_messages (session : Session) : res (option (string * Z)) :=
  latest_user_anchor (List.filter is_message_event (journal session)) (rev (user_anchors (st session))).

(** The journal before the turn that [e] belongs to. *)
Fixpoint before_turn (turn_id : option string) (events : list JournalEvent) : option (list JournalEvent) :=
  match events with
  | [] => None
  | e :: events' =>
      if String.eqb (ev_event_type e) "turn_started" && bool_decide (ev_turn_id e = turn_id) then Some []
      else match before_turn turn_id events' with Some pre => Some (e :: pre) | None => None end
  end.

(** The metadata of a fork. *)
Definition fork_metadata (source_id anchor_id : string) (prefix : list JournalEvent) (metadata : list (string * json)) :
    list (string * json) :=
  let metadata := dset "fork_anchor_id" (JStr anchor_id)
    (dset "forked_from" (JStr source_id) (dset "has_activity" (JBool false) metadata)) in
  if existsb is_message_event prefix then metadata
  else dset "title_source" (JStr "initial") (dset "title" (JStr "") metadata).

(** What [fork_session] reads of the source: the workspace, the metadata of the
    fork and the events it starts with. *)
Definition fork_source (source_id anchor_id : string) (s : Store) :
    res (option string * list (string * json) * list JournalEvent) :=
  let missing := value_error ("session does not exist: " +:+ repr_string source_id) in
  match find_session_directory source_id s with
  | None => missing
  | Some p =>
      path <~ session_path source_id None s ;;
      match path with
      | None => missing
      | Some jp =>
          match journal_file jp source_id s with
          | None => missing
          | Some _ =>
              source <~ load_unlocked source_id None s ;;
              target <~ editable_user_messages source ;;
              match target with
              | Some (id, _) =>
                  if negb (String.eqb id anchor_id) then value_error "editable user message does not exist" else
                  match List.find (fun e => String.eqb (ev_event_id e) anchor_id) (journal source) with
                  | None => raise EStopIteration ""
                  | Some anchor_event =>
                      match before_turn (ev_turn_id anchor_event) (journal source) with
                      | None => value_error "editable user message has no turn boundary"
                      | Some prefix =>
                          workspace <~ workspace_for_unlocked source_id s ;;
                          metadata <~ session_metadata (default no_files (files_at p source_id s)) ;;
                          Ok (workspace, fork_metadata source_id anchor_id prefix metadata, prefix)
                      end
                  end
              | None => value_error "editable user message does not exist"
              end
          end
      end
  end.

(** The body of the [try] statement: the files of the new directory and the
    session loaded from them. *)
Definition create_fork (target : Place) (new_id : string) (metadata : list (string * json)) (prefix : list JournalEvent)
    (workspace : option string) : M Store Session :=
  write_session_metadata target new_id metadata ;;;
  append_events_unlocked new_id prefix workspace ;;;
  s' <- get ;;
  lift (load_unlocked new_id None s').

Definition fork_session (source_id new_id anchor_id : string) : M Store Session :=
  lift (validate_session_id source_id) ;;;
  lift (validate_session_id new_id) ;;;
  if String.eqb new_id source_id then fail (Exn EValueError ("session already exists: " +:+ repr_string new_id)) else
  s <- get ;;
  src <- lift (fork_source source_id anchor_id s) ;;
  let '(workspace, metadata, prefix) := src in
  match find_session_directory new_id s with
  | Some _ => fail (Exn EValueError ("session already exists: " +:+ repr_string new_id))
  | None =>
      target <- lift (if group_by_workspace then
                        match workspace with
                        | None => value_error "source session has no workspace"
                        | Some w => Ok (Some (workspace_key w))
                        end
                      else Ok None) ;;
      match files_at target new_id s with
      | Some _ => fail (Exn EFileExists ("[Errno 17] File exists: " +:+ repr_string new_id))
      | None =>
          modify (put_files target new_id no_files) ;;;
          catch (create_fork target new_id metadata prefix workspace)
                (fun e => modify (remove_files target new_id) ;;; fail e)
      end
  end.

(** ** Listing

    [mtime] is the modification time of a journal file; a listing that is
    cancelled returns nothing and is not modelled. *)

Definition session_summary (id : string) (metadata : list (string * json)) : res json :=
  title <~ jindex "title" metadata ;;
  Ok (JObj ([("session_id", JStr id); ("title", if truthy title then title else JStr id)] ++
            match jget "forked_from" metadata with JStr f => [("forked_from", JStr f)] | _ => [] end)).

(** The key of [found.sort(..., reverse=True)]. *)
Definition newer (a b : Z * string * json) : bool :=
  let '(ta, ia, _) := a in let '(tb, ib, _) := b in
  (tb <? ta) || ((ta =? tb) && negb (string_leb ia ib)).

Fixpoint insert_newest {A} (before : A -> A -> bool) (x : A) (l : list A) : list A :=
  match l with [] => [x] | y :: l' => if before x y then x :: l else y :: insert_newest before x l' end.
Definition sort_newest {A} (before : A -> A -> bool) (l : list A) : list A := fold_left (fun acc x => insert_newest before x acc) l [].

Fixpoint scan_directories (mtime : string -> Z) (sessions : list (string * SessionFiles)) : res (list (Z * string * json)) :=
  match sessions with
  | [] => Ok []
  | (id, f) :: sessions' =>
      match sf_journal f with
      | None => scan_directories mtime sessions'
      | Some _ =>
          metadata <~ session_metadata f ;;
          activity <~ jindex "has_activity" metadata ;;
          if truthy activity then
            summary <~ session_summary id metadata ;;
            found <~ scan_directories mtime sessions' ;;
            Ok ((mtime id, id, summary) :: found)
          else scan_directories mtime sessions'
      end
  end.

Definition scan_sessions (mtime : string -> Z) (sessions : list (string * SessionFiles)) : res (list (Z * string * json)) :=
  found <~ scan_directories mtime sessions ;; Ok (sort_newest newer found).

Definition list_workspace_sessions (mtime : string -> Z) (workspace : string) (s : Store) : res (list json) :=
  found <~ scan_sessions mtime (default [] (dget (workspace_key workspace) (st_groups s))) ;; Ok (map snd found).

(** The workspaces with their sessions, the one written last first. *)
Fixpoint list_groups (mtime : string -> string -> Z) (groups : list (string * list (string * SessionFiles))) :
    res (list (Z * (string * list json))) :=
  match groups with
  | [] => Ok []
  | (g, sessions) :: groups' =>
      found <~ scan_sessions (mtime g) sessions ;;
      match found with
      | [] => list_groups mtime groups'
      | (t, _, _) :: _ =>
          workspace <~ workspace_from_key g ;;
          rest <~ list_groups mtime groups' ;;
          Ok ((fold_left Z.max (map (fun e => fst (fst e)) found) t, (workspace, map snd found)) :: rest)
      end
  end.

Definition list_sessions (mtime : string -> string -> Z) (s : Store) : res (list (string * list json)) :=
  groups <~ list_groups mtime (st_groups s) ;;
  Ok (map snd (sort_newest (fun a b => fst b <? fst a) groups)).
End store.
