(* ===== verification/SessionStoreThms.v ===== *)
(** * Theorems on the session store

    Claims about agent_core/session_store.py: the journal file of a session
    refines a list of events under appends and interruptions, a fork is the
    conversation before the edited turn, and the name of a workspace directory
    gives back the workspace. *)

From stdpp Require Import base list strings pretty relations.
From Stdlib Require Import ZArith Lia Ascii.
From S2P Require Import Prelude PyData PyStr Json PyTime Content Authority Message Session PyText JsonText Jsonl SessionStore.

(** ** Directories *)

Lemma files_at_put p id f s : files_at p id (put_files p id f s) = Some f.
Proof. destruct p as [g|]; cbn; by rewrite ?dget_dset_eq. Qed.

Lemma files_at_put_ne p id f s p' id' : (p, id) <> (p', id') -> files_at p' id' (put_files p id f s) = files_at p' id' s.
Proof.
  intros Hne. destruct p as [g|], p' as [g'|]; cbn; [|done|done|].
  - destruct (decide (g = g')) as [->|Hg].
    + rewrite dget_dset_eq. rewrite dget_dset_ne by congruence. by destruct (dget g' (st_groups s)).
    + by rewrite dget_dset_ne.
  - apply dget_dset_ne. congruence.
Qed.

Lemma put_put p id f f' s : forall p' id', files_at p' id' (put_files p id f (put_files p id f' s)) = files_at p' id' (put_files p id f s).
Proof.
  intros p' id'. destruct (decide ((p, id) = (p', id'))) as [[= <- <-]|Hne]; [by rewrite !files_at_put|].
  by rewrite !files_at_put_ne.
Qed.

(** ** Percent encoding *)

Lemma unquote_quote_byte c b : unquote_bytes (quote_byte c +:+ b) =
  (if unreserved c then utf8_char c else String c "") +:+ unquote_bytes b.
Proof. destruct c as [[] [] [] [] [] [] [] []]; reflexivity. Qed.

Lemma unreserved_ascii c : unreserved c = true -> utf8_char c = String c "".
Proof. by destruct c as [[] [] [] [] [] [] [] []]. Qed.

Lemma unquote_quote_bytes b : unquote_bytes (quote_bytes b) = b.
Proof.
  induction b as [|c b IH]; [done|]. cbn [quote_bytes]. rewrite unquote_quote_byte, IH.
  destruct (unreserved c) eqn:E; [by rewrite unreserved_ascii|done].
Qed.

Lemma unquote_quote t : unquote (quote t) = Ok t.
Proof. unfold unquote, quote. by rewrite unquote_quote_bytes, utf8_roundtrip. Qed.

Section thms.
Context {FT : FloatText} {FR : FloatRead} {SE : StoreEnv}.

(** ** Events *)

Definition event_valid (e : JournalEvent) : Prop := timestamp_valid (ev_timestamp_utc e) /\ json_ok (JObj (ev_payload e)).

Lemma ostr_json_ok o : json_ok (ostr o).
Proof. by destruct o. Qed.

Lemma event_is_record e : event_valid e -> is_record (event_to_dict e).
Proof.
  intros [_ Hp]. split; [|by eexists]. cbn [event_to_dict json_ok map fold_right snd]. split; [|].
  - by apply (bool_decide_unpack _).
  - split_and!; first [done|apply ostr_json_ok|apply Hp].
Qed.

Lemma event_codec e : event_valid e -> event_from_dict (event_to_dict e) = Ok e.
Proof.
  intros [Ht _]. destruct e as [seq id ty turn t call payload]. unfold event_from_dict, event_to_dict, ostr.
  cbn [ev_seq ev_event_id ev_event_type ev_turn_id ev_timestamp_utc ev_tool_call_id ev_payload] in *.
  cbn. rewrite parse_format_utc by done. cbn. destruct payload as [|kv payload]; cbn; by destruct turn, call.
Qed.

Lemma events_are_records es : Forall event_valid es -> Forall is_record (map event_to_dict es).
Proof. intros Hes. apply Forall_fmap. eapply Forall_impl; [exact Hes|]. apply event_is_record. Qed.

(** ** Loading is replaying *)

Lemma load_records_replay es : Forall event_valid es -> forall s,
  load_records (map Ok (map event_to_dict es)) s =
  match replay es (st s) with
  | (x, Ok _) => Ok (append_journal es (set_st x s))
  | (_, Err e) => Err e
  end.
Proof.
  induction 1 as [|e es He _ IH]; intros s; cbn [map load_records].
  - unfold replay. cbn. unfold append_journal, set_st. destruct s; cbn. by rewrite app_nil_r.
  - cbn [res_bind]. rewrite event_codec by done. cbn [res_bind]. unfold replay. cbn [for_each]. unfold bind.
    destruct (apply_event e (st s)) as [x [a|err]]; [|done]. rewrite IH. unfold replay.
    change (st (append_journal [e] (set_st x s))) with x. destruct (for_each apply_event es x) as [y [b|err]]; [|done].
    unfold append_journal, set_st. destruct s; cbn. by rewrite <-app_assoc.
Qed.

(** ** What the operations do to the files *)

(** Nothing but the directory of one session has changed. *)
Definition only (p : Place) (id : string) (s s' : Store) : Prop :=
  forall p' id', (p, id) <> (p', id') -> files_at p' id' s' = files_at p' id' s.

Lemma only_refl p id s : only p id s s.
Proof. done. Qed.
Lemma only_trans p id s1 s2 s3 : only p id s1 s2 -> only p id s2 s3 -> only p id s1 s3.
Proof. intros H1 H2 p' id' Hne. by rewrite H2, H1. Qed.
Lemma only_put p id f s : only p id s (put_files p id f s).
Proof. intros p' id' Hne. by apply files_at_put_ne. Qed.
Hint Resolve only_refl only_put : nosis.
Hint Resolve only_trans : nosis.

Lemma journal_file_put p id f s : journal_file p id (put_files p id f s) = sf_journal f.
Proof. unfold journal_file. by rewrite files_at_put. Qed.

Lemma journal_file_default p id s : sf_journal (default no_files (files_at p id s)) = journal_file p id s.
Proof. unfold journal_file. by destruct (files_at p id s). Qed.

Lemma write_metadata_spec p id m s : exists s',
  write_session_metadata p id m s = (s', Ok tt) /\ journal_file p id s' = journal_file p id s /\ only p id s s' /\
  files_at p id s' = Some (with_metadata m (default no_files (files_at p id s))).
Proof.
  eexists. split; [done|]. rewrite journal_file_put, files_at_put. cbn. rewrite journal_file_default. auto with nosis.
Qed.

Lemma make_directory_spec p id s : exists s',
  make_directory p id s = (s', Ok tt) /\ journal_file p id s' = journal_file p id s /\ only p id s s'.
Proof.
  unfold make_directory, bind, modify, read_files, bind, get, ret. rewrite files_at_put. cbn [default].
  set (s1 := put_files p id (default no_files (files_at p id s)) s).
  assert (H1 : journal_file p id s1 = journal_file p id s) by (subst s1; by rewrite journal_file_put, journal_file_default).
  assert (H2 : only p id s s1) by (subst s1; auto with nosis).
  destruct (sf_metadata _); [by exists s1|]. destruct (write_metadata_spec p id new_session_metadata s1) as (s' & -> & Hj & Ho & _).
  exists s'. split; [done|]. split; [by rewrite Hj|by eapply only_trans].
Qed.

Lemma update_metadata_spec p id es s s' r :
  update_session_metadata p id es s = (s', r) -> journal_file p id s' = journal_file p id s /\ only p id s s'.
Proof.
  unfold update_session_metadata, bind, read_files, bind, get, ret, lift.
  destruct (session_metadata _) as [m|]; [|intros [= <- _]; auto with nosis].
  destruct (res_fold _ _ _) as [[m' []]|]; cbn [fst snd]; [|intros [= <- _]; auto with nosis..].
  destruct (write_metadata_spec p id m' s) as (s1 & -> & Hj & Ho & _). by intros [= <- _].
Qed.

Lemma open_file_spec p id s file : prepare_journal_append (default "" (journal_file p id s)) = Ok file -> exists s',
  open_journal_file p id s = (s', Ok tt) /\ journal_file p id s' = Some file /\ only p id s s'.
Proof.
  intros Hp. unfold open_journal_file, bind, read_files, bind, get, ret, lift, modify. rewrite journal_file_default, Hp.
  eexists. split; [done|]. rewrite journal_file_put. split; [done|]. eapply only_trans; apply only_put.
Qed.

Lemma write_events_spec p id es s : exists s',
  write_journal_events p id es s = (s', Ok tt) /\
  journal_file p id s' = Some (default "" (journal_file p id s) +:+ record_lines (map event_to_dict es)) /\ only p id s s'.
Proof.
  eexists. unfold write_journal_events, bind, read_files, bind, get, ret, modify. rewrite journal_file_default. split; [done|].
  rewrite journal_file_put. auto with nosis.
Qed.

(** ** The journal of a session as a list of events *)

Definition stores (p : Place) (id : string) (s : Store) (es : list JournalEvent) : Prop :=
  match journal_file p id s with
  | Some file => holds file (map event_to_dict es)
  | None => es = []
  end.

Definition place_of (w : string) : Place := if group_by_workspace then Some (workspace_key w) else None.

Lemma session_path_of id w s : validate_session_id id = Ok tt -> session_path id (Some w) s = Ok (Some (place_of w)).
Proof. intros Hv. unfold session_path, place_of. destruct group_by_workspace; [|done]. cbn. by rewrite Hv. Qed.

Lemma stores_prepare p id s es : Forall event_valid es -> stores p id s es ->
  prepare_journal_append (default "" (journal_file p id s)) = Ok (record_lines (map event_to_dict es)).
Proof.
  intros Hes. unfold stores. destruct (journal_file p id s) as [file|]; [|by intros ->]. cbn [default].
  apply holds_prepare. by apply events_are_records.
Qed.

Lemma open_journal_spec id w s es :
  validate_session_id id = Ok tt -> Forall event_valid es -> stores (place_of w) id s es -> exists s',
  open_journal id (Some w) s = (s', Ok (place_of w)) /\
  journal_file (place_of w) id s' = Some (record_lines (map event_to_dict es)) /\ only (place_of w) id s s'.
Proof.
  intros Hv Hes Hs. unfold open_journal, bind, get, lift. rewrite Hv. cbn [res_bind]. rewrite session_path_of by done.
  destruct (make_directory_spec (place_of w) id s) as (s1 & -> & Hj & Ho).
  destruct (open_file_spec (place_of w) id s1 (record_lines (map event_to_dict es))) as (s2 & -> & Hj2 & Ho2).
  { rewrite Hj. by apply stores_prepare. }
  exists s2. split; [done|]. split; [done|]. by eapply only_trans.
Qed.

Lemma journal_append_spec p id es s s' r b : journal_file p id s = Some b -> journal_append p id es s = (s', r) ->
  journal_file p id s' = Some (b +:+ record_lines (map event_to_dict es)) /\ only p id s s'.
Proof.
  intros Hb. unfold journal_append, bind. destruct (write_events_spec p id es s) as (s1 & -> & Hj & Ho). rewrite Hb in Hj.
  intros Hu. apply update_metadata_spec in Hu as [Hj' Ho']. rewrite Hj', Hj. split; [done|]. by eapply only_trans.
Qed.

(** ** A journal under use

    A writer opens the journal, appends batches of events and closes it, or is
    interrupted between two characters of a batch. *)

Inductive Use := UOpen | UWrite (es : list JournalEvent) | UCrash (es : list JournalEvent) | UClose.

Section writer.
Variables (id w : string).

Inductive use_step : Store * bool -> Use -> Store * bool -> Prop :=
| use_open s s' r : open_journal id (Some w) s = (s', r) -> use_step (s, false) UOpen (s', is_ok r)
| use_write s s' r es : Forall event_valid es -> journal_append (place_of w) id es s = (s', r) ->
    use_step (s, true) (UWrite es) (s', true)
| use_crash s s' es f pre post : Forall event_valid es -> files_at (place_of w) id s = Some f ->
    journal_text (map event_to_dict es) = pre +:+ post ->
    s' = put_files (place_of w) id (with_journal (default "" (sf_journal f) +:+ utf8_encode pre) f) s ->
    use_step (s, true) (UCrash es) (s', false)
| use_close s : use_step (s, true) UClose (s, false).

Inductive use_run : Store * bool -> list Use -> Store * bool -> Prop :=
| run_done x : use_run x [] x
| run_step x y z u us : use_step x u y -> use_run y us z -> use_run x (u :: us) z.

(** The abstract journal: a list of events to which a write adds its batch and an
    interrupted write the events it got to. *)
Inductive spec_step : list JournalEvent -> Use -> list JournalEvent -> Prop :=
| spec_open js : spec_step js UOpen js
| spec_write js es : spec_step js (UWrite es) (js ++ es)
| spec_crash js es k : (k <= length es)%nat -> spec_step js (UCrash es) (js ++ take k es)
| spec_close js : spec_step js UClose js.

Inductive spec_run : list JournalEvent -> list Use -> list JournalEvent -> Prop :=
| spec_done js : spec_run js [] js
| spec_more j1 j2 j3 u us : spec_step j1 u j2 -> spec_run j2 us j3 -> spec_run j1 (u :: us) j3.

(** The simulation relation: a closed journal may have been interrupted, an open
    one is complete. *)
Definition represents (x : Store * bool) (js : list JournalEvent) : Prop :=
  Forall event_valid js /\
  if snd x then journal_file (place_of w) id (fst x) = Some (record_lines (map event_to_dict js))
  else stores (place_of w) id (fst x) js.

Hypothesis id_valid : validate_session_id id = Ok tt.

Lemma use_step_refines x u y js : represents x js -> use_step x u y ->
  exists js', spec_step js u js' /\ represents y js' /\ only (place_of w) id (fst x) (fst y).
Proof.
  intros [Hjs Hx] Hu. destruct Hu as [s s' r Ho|s s' r es Hes Ha|s s' es f pre post Hes Hf Hpre Hs'|s]; cbn [fst snd] in *.
  - destruct (open_journal_spec id w s js id_valid Hjs Hx) as (s1 & Ho' & Hj & Hon). rewrite Ho in Ho'. injection Ho' as -> ->.
    exists js. split; [constructor|]. by split.
  - apply (journal_append_spec _ _ _ _ _ _ _ Hx) in Ha as [Hj Hon]. exists (js ++ es). split; [constructor|]. split; [|done].
    split; [by apply Forall_app|]. cbn [fst snd]. by rewrite Hj, map_app, record_lines_app.
  - unfold journal_file in Hx. rewrite Hf in Hx. subst s'.
    destruct (holds_interrupted _ (events_are_records _ Hes) (map event_to_dict js) pre post Hpre) as (k & Hk & Hh).
    rewrite length_map in Hk. exists (js ++ take k es). split; [by constructor|]. split; [|apply only_put]. split.
    + apply Forall_app. split; [done|]. by apply Forall_take.
    + cbn [fst snd]. unfold stores. rewrite journal_file_put. cbn [with_journal sf_journal]. rewrite Hx. cbn [default].
      rewrite map_app, <-firstn_map. exact Hh.
  - exists js. split; [constructor|]. split; [|done]. split; [done|]. cbn [fst snd]. unfold stores. rewrite Hx. by apply holds_complete.
Qed.

Lemma use_run_refines x us y : use_run x us y -> forall js, represents x js ->
  exists js', spec_run js us js' /\ represents y js' /\ only (place_of w) id (fst x) (fst y).
Proof.
  induction 1 as [x|x y z u us Hu _ IH]; intros js Hx; [exists js; split; [constructor|]; split; [done|apply only_refl]|].
  destruct (use_step_refines _ _ _ _ Hx Hu) as (j2 & Hs & Hy & Ho). destruct (IH j2 Hy) as (j3 & Hr & Hz & Ho').
  exists j3. split; [by econstructor|]. split; [done|]. by eapply only_trans.
Qed.

Lemma represents_holds x js : represents x js ->
  match journal_file (place_of w) id (fst x) with Some file => holds file (map event_to_dict js) | None => js = [] end.
Proof. intros [_ Hx]. destruct x as [s []]; cbn [fst snd] in *; [|done]. rewrite Hx. by apply holds_complete. Qed.

(** C16: the journal file refines a list of events.  Whatever sequence of
    opening, appending, closing and being interrupted between two characters of an
    append a session's journal goes through, there is a run of the abstract
    journal, in which a completed append adds exactly its events and an interrupted
    one a prefix of them, such that the file reads back as the abstract journal,
    loading it is replaying those events, a closed journal can be opened again, and
    no file of another session has changed. *)
Theorem journal_file_refines (s s' : Store) (us : list Use) (opened : bool) (js : list JournalEvent) :
  Forall event_valid js -> stores (place_of w) id s js -> use_run (s, false) us (s', opened) ->
  exists js', spec_run js us js' /\ only (place_of w) id s s' /\
    (forall file session, journal_file (place_of w) id s' = Some file ->
       load_records (read_journal_records file) session =
       match replay js' (st session) with
       | (x, Ok _) => Ok (append_journal js' (set_st x session))
       | (_, Err e) => Err e
       end) /\
    (opened = false -> exists s'', open_journal id (Some w) s' = (s'', Ok (place_of w))).
Proof.
  intros Hjs Hs Hr. destruct (use_run_refines _ _ _ Hr js) as (js' & Hspec & Hrep & Ho); [by split|].
  exists js'. split; [done|]. split; [done|]. pose proof (represents_holds _ _ Hrep) as Hh. destruct Hrep as [Hv Hrep]. cbn [fst snd] in *. split.
  - intros file session Hf. rewrite Hf in Hh. rewrite (holds_read _ _ (events_are_records _ Hv) Hh). by apply load_records_replay.
  - intros ->. destruct (open_journal_spec id w s' js' id_valid Hv Hrep) as (s'' & -> & _). by exists s''.
Qed.
End writer.

(** ** An interruption within a character *)

Lemma open_journal_refused id w s file e :
  validate_session_id id = Ok tt -> journal_file (place_of w) id s = Some file -> prepare_journal_append file = Err e ->
  exists s', open_journal id (Some w) s = (s', Err e).
Proof.
  intros Hv Hf Hp. unfold open_journal, bind, get, lift. rewrite Hv. cbn [res_bind]. rewrite session_path_of by done.
  destruct (make_directory_spec (place_of w) id s) as (s1 & -> & Hj & _).
  unfold open_journal_file, bind, read_files, bind, get, ret, lift, modify. rewrite journal_file_default, Hj, Hf.
  change (default "" (Some file)) with file. rewrite Hp. eauto.
Qed.

(** An append that stops between the two bytes of a character leaves a
    session that can neither be loaded nor written again: the unfinished record is
    not recognised as one, because decoding it raises [UnicodeDecodeError] and not
    [JSONDecodeError]. *)
Theorem split_character_blocks_session (id w : string) (s : Store) (js : list JournalEvent) (e : JournalEvent)
    (pre post : string) (c : ascii) :
  validate_session_id id = Ok tt -> event_valid e ->
  dumps (event_to_dict e) = pre +:+ String c post -> 128 <= scode c ->
  journal_file (place_of w) id s =
    Some (record_lines (map event_to_dict js) +:+ utf8_encode pre +:+ stake 1 (utf8_char c)) ->
  exists err, exn_class err = EUnicodeDecode /\
    (forall file session, journal_file (place_of w) id s = Some file -> load_records (read_journal_records file) session = Err err) /\
    (exists s', open_journal id (Some w) s = (s', Err err)).
Proof.
  intros Hv He Hd Hc Hf. assert (Hl : stake 1 (utf8_char c) = String (chr (192 + scode c / 64)) "").
  { unfold utf8_char. apply Z.ltb_ge in Hc. by rewrite Hc. }
  rewrite Hl in Hf.
  destruct (split_character_unreadable (map event_to_dict js) _ pre c post (event_is_record e He) Hd Hc) as (err & Hcl & Hr & Hp).
  exists err. split; [done|]. split; [|by eapply open_journal_refused]. intros file session Hf'. rewrite Hf in Hf'. injection Hf' as <-. by rewrite Hr.
Qed.

(** ** Forks *)

(** Directory names are distinct. *)
Definition dirs_wf (s : Store) : Prop :=
  NoDup (dkeys (st_groups s)) /\ Forall (fun g => NoDup (dkeys (snd g))) (st_groups s) /\ NoDup (dkeys (st_flat s)).

Lemma dget_wf g l s : dirs_wf s -> dget g (st_groups s) = Some l -> NoDup (dkeys l).
Proof.
  intros (_ & Hg & _) E. apply dget_Some_in in E. rewrite Forall_forall in Hg. apply (Hg _ E).
Qed.

Lemma dirs_wf_put p id f s : dirs_wf s -> dirs_wf (put_files p id f s).
Proof.
  intros Hs. pose proof Hs as (Hk & Hg & Hf). destruct p as [g|]; cbn.
  - split_and!; cbn; [by apply dset_NoDup| |done]. rewrite Forall_forall in *. intros x Hx. apply dset_in in Hx as [->|Hx]; [|by apply Hg].
    cbn [snd]. apply dset_NoDup. destruct (dget g (st_groups s)) as [l|] eqn:E; [by eapply dget_wf|apply NoDup_nil_2].
  - split_and!; cbn; [done|done|by apply dset_NoDup].
Qed.

Lemma files_at_remove p id s : dirs_wf s -> files_at p id (remove_files p id s) = None.
Proof.
  intros Hs. destruct p as [g|]; cbn; [|apply dget_dpop_eq, Hs]. destruct (dget g (st_groups s)) as [l|] eqn:E; [|by rewrite E].
  cbn. rewrite dget_dset_eq. apply dget_dpop_eq. by eapply dget_wf.
Qed.

Lemma files_at_remove_ne p id s p' id' : (p, id) <> (p', id') -> files_at p' id' (remove_files p id s) = files_at p' id' s.
Proof.
  intros Hne. destruct p as [g|], p' as [g'|]; cbn; [|by destruct (dget g (st_groups s))|done|apply dget_dpop_ne; congruence].
  destruct (dget g (st_groups s)) as [l|] eqn:E; [|done]. cbn. destruct (decide (g = g')) as [->|Hg].
  - rewrite dget_dset_eq, E. apply dget_dpop_ne. congruence.
  - by rewrite dget_dset_ne.
Qed.

Lemma find_group_none id s : group_by_workspace = true -> dirs_wf s ->
  find_session_directory id s = None <-> forall g, exists_files (files_at (Some g) id s) = false.
Proof.
  intros Hgr (Hk & _ & _). unfold find_session_directory. rewrite Hgr. cbn [negb]. split.
  - destruct (List.find _ _) eqn:E; [done|]. intros _ g. cbn. destruct (dget g (st_groups s)) as [l|] eqn:Eg; [|done].
    apply dget_Some_in in Eg. by apply (List.find_none _ _ E (g, l)), list_elem_of_In.
  - intros Hall. destruct (List.find _ _) as [[g l]|] eqn:E; [|done]. apply List.find_some in E as [Hin He]. exfalso.
    specialize (Hall g). cbn in Hall. rewrite (dget_in_NoDup g l) in Hall by (done || by apply list_elem_of_In). cbn in He. congruence.
Qed.

Lemma find_group_some id s g : group_by_workspace = true -> dirs_wf s ->
  find_session_directory id s = Some g -> exists_files (files_at g id s) = true /\ exists k, g = Some k.
Proof.
  intros Hgr (Hk & _ & _). unfold find_session_directory. rewrite Hgr. cbn [negb].
  destruct (List.find _ _) as [[k l]|] eqn:E; [|done]. intros [= <-]. apply List.find_some in E as [Hin He]. split; [|by exists k].
  cbn. rewrite (dget_in_NoDup k l) by (done || by apply list_elem_of_In). done.
Qed.

(** A session that appears in one place is found there. *)
Lemma find_created id s s' p f : dirs_wf s -> dirs_wf s' -> find_session_directory id s = None -> only p id s s' ->
  (group_by_workspace = true <-> is_Some p) -> files_at p id s' = Some f -> is_Some (sf_journal f) ->
  find_session_directory id s' = Some p.
Proof.
  intros Hs Hs' Hnone Ho Hp Hf [b Hb]. destruct group_by_workspace eqn:Hgr.
  - destruct (proj1 Hp eq_refl) as [g ->].
    destruct (find_session_directory id s') as [q|] eqn:E.
    + destruct (find_group_some id s' q Hgr Hs' E) as [He [k ->]]. destruct (decide (k = g)) as [->|Hne]; [done|]. exfalso.
      rewrite Ho in He by congruence. by rewrite (proj1 (find_group_none id s Hgr Hs) Hnone k) in He.
    + exfalso. pose proof (proj1 (find_group_none id s' Hgr Hs') E g) as He. rewrite Hf in He. cbn in He. by rewrite Hb in He.
  - destruct p as [g|]; [by pose proof (proj2 Hp (mk_is_Some (Some g) g eq_refl))|]. unfold find_session_directory. rewrite Hgr. cbn in *. by rewrite Hf, Hb.
Qed.

(** *** The operations of a fork on the store *)

Definition local_op {A} (p : Place) (id : string) (c : M Store A) : Prop :=
  forall s0, preserves (fun s => only p id s0 s /\ (dirs_wf s0 -> dirs_wf s)) c.

Lemma local_put p id s0 s f : only p id s0 s /\ (dirs_wf s0 -> dirs_wf s) ->
  only p id s0 (put_files p id f s) /\ (dirs_wf s0 -> dirs_wf (put_files p id f s)).
Proof. intros [Ho Hw]. split; [eapply only_trans; [exact Ho|apply only_put]|]. intros Hs. by apply dirs_wf_put, Hw. Qed.

Lemma local_metadata p id m : local_op p id (write_session_metadata p id m).
Proof. intros s0. unfold write_session_metadata. preserve_steps. by apply local_put. Qed.

Lemma local_make p id : local_op p id (make_directory p id).
Proof. intros s0. unfold make_directory, read_files. preserve_steps; [by apply local_put|apply local_metadata]. Qed.

Lemma local_open p id : local_op p id (open_journal_file p id).
Proof. intros s0. unfold open_journal_file, read_files. preserve_steps; by apply local_put. Qed.

Lemma local_write p id es : local_op p id (write_journal_events p id es).
Proof. intros s0. unfold write_journal_events, read_files. preserve_steps; by apply local_put. Qed.

Lemma local_update p id es : local_op p id (update_session_metadata p id es).
Proof. intros s0. unfold update_session_metadata, read_files. preserve_steps. apply local_metadata. Qed.

Lemma local_bind {A B} p id (c : M Store A) (k : A -> M Store B) : local_op p id c -> (forall a, local_op p id (k a)) -> local_op p id (bind c k).
Proof. intros Hc Hk s0. apply preserves_bind; [apply Hc|intros a; apply Hk]. Qed.

(** The directory of a fork: in the workspace of its source. *)
Definition target_of (ws : option string) : Place := match ws with Some w => place_of w | None => None end.

Definition append_at (p : Place) (id : string) (es : list JournalEvent) : M Store unit :=
  make_directory p id ;;; open_journal_file p id ;;; write_journal_events p id es ;;; update_session_metadata p id es.

Lemma append_unlocked_at id es ws s :
  validate_session_id id = Ok tt -> (group_by_workspace = true <-> is_Some ws) ->
  append_events_unlocked id es ws s = append_at (target_of ws) id es s.
Proof.
  intros Hv Hws. unfold append_events_unlocked, bind, get, lift. destruct ws as [w|]; cbn [target_of].
  - by rewrite session_path_of.
  - destruct group_by_workspace eqn:Hg; [by destruct (proj1 Hws eq_refl)|].
    unfold workspace_for_unlocked, session_path. by rewrite Hg.
Qed.

Lemma local_append p id es : local_op p id (append_at p id es).
Proof.
  unfold append_at. apply local_bind; [apply local_make|intros _]. apply local_bind; [apply local_open|intros _].
  apply local_bind; [apply local_write|intros _; apply local_update].
Qed.

Lemma append_at_ok p id es s s' : journal_file p id s = None -> append_at p id es s = (s', Ok tt) ->
  journal_file p id s' = Some (record_lines (map event_to_dict es)).
Proof.
  intros Hn. unfold append_at, bind. destruct (make_directory_spec p id s) as (s1 & -> & Hj1 & _).
  destruct (open_file_spec p id s1 "") as (s2 & -> & Hj2 & _); [by rewrite Hj1, Hn|].
  destruct (write_events_spec p id es s2) as (s3 & -> & Hj3 & _). rewrite Hj2 in Hj3.
  intros Hu. apply update_metadata_spec in Hu as [-> _]. exact Hj3.
Qed.

Hypothesis resolve_idem : forall w, resolve_workspace (resolve_workspace w) = resolve_workspace w.

Lemma workspace_key_found w : workspace_from_key (workspace_key w) = Ok (resolve_workspace w) /\
  workspace_key (resolve_workspace w) = workspace_key w.
Proof. unfold workspace_from_key, workspace_key. by rewrite unquote_quote, resolve_idem. Qed.

Lemma load_created id ws es s session :
  validate_session_id id = Ok tt -> (group_by_workspace = true <-> is_Some ws) -> find_session_directory id s = Some (target_of ws) ->
  journal_file (target_of ws) id s = Some (record_lines (map event_to_dict es)) -> Forall event_valid es ->
  load_unlocked id None s = Ok session ->
  journal session = es /\ exists preset, replay es (initial_state preset) = (st session, Ok tt).
Proof.
  intros Hv Hws Hfind Hj Hes. unfold load_unlocked. assert (Hp : session_path id None s = Ok (Some (target_of ws))).
  { unfold session_path, workspace_for_unlocked. destruct ws as [w|]; cbn [target_of] in *; unfold place_of in *.
    - rewrite (proj2 Hws (mk_is_Some (Some w) w eq_refl)) in *. cbn [negb]. rewrite Hfind. destruct (workspace_key_found w) as [-> Hk]. cbn [res_bind].
      by rewrite Hv, Hk.
    - destruct group_by_workspace; [by destruct (proj1 Hws eq_refl)|done]. }
  rewrite Hp. cbn [res_bind]. intros (bound & _ & (preset & _ & Hl)%res_bind_ok)%res_bind_ok. rewrite Hj in Hl.
  rewrite (holds_read _ (map event_to_dict es)) in Hl by (first [by apply events_are_records|by apply holds_complete]).
  rewrite load_records_replay in Hl by done. cbn [st] in Hl. destruct (replay es (initial_state preset)) as [x [[]|err]] eqn:E; [|done].
  injection Hl as <-. split; [done|]. by exists preset.
Qed.

Definition turn_boundary (turn : option string) (e : JournalEvent) : Prop :=
  ev_event_type e = "turn_started" /\ ev_turn_id e = turn.

Lemma before_turn_spec turn es pre : before_turn turn es = Some pre ->
  exists e post, es = pre ++ e :: post /\ turn_boundary turn e /\ Forall (fun x => ~ turn_boundary turn x) pre.
Proof.
  revert pre; induction es as [|e es IH]; intros pre; cbn [before_turn]; [done|].
  destruct (String.eqb (ev_event_type e) "turn_started" && bool_decide (ev_turn_id e = turn)) eqn:E.
  - intros [= <-]. bsimp. exists e, es. split; [done|]. by split.
  - destruct (before_turn turn es) as [p|]; [|done]. intros [= <-]. destruct (IH p eq_refl) as (e' & post & -> & Hb & Hp).
    exists e', post. split; [done|]. split; [done|]. constructor; [|done]. intros [H1 H2]. by rewrite H1, H2, bool_decide_true in E.
Qed.

Lemma fork_source_ok source_id anchor_id s ws metadata pre :
  fork_source source_id anchor_id s = Ok (ws, metadata, pre) ->
  workspace_for_unlocked source_id s = Ok ws /\
  exists source a e post, load_unlocked source_id None s = Ok source /\ In a (journal source) /\ ev_event_id a = anchor_id /\
    journal source = pre ++ e :: post /\ turn_boundary (ev_turn_id a) e /\ Forall (fun x => ~ turn_boundary (ev_turn_id a) x) pre.
Proof.
  unfold fork_source. destruct (find_session_directory source_id s) as [p|]; [|done].
  intros (path & _ & Hpath)%res_bind_ok. destruct path as [jp|]; [|done]. destruct (journal_file jp source_id s); [|done].
  apply res_bind_ok in Hpath as (source & Hload & Hpath). apply res_bind_ok in Hpath as (target & _ & Hpath).
  destruct target as [[id k]|]; [|done]. destruct (negb _); [done|].
  destruct (List.find _ _) as [a|] eqn:Ea; [|done]. apply List.find_some in Ea as [Hin Ha].
  destruct (before_turn _ _) as [pre'|] eqn:Eb; [|done].
  apply res_bind_ok in Hpath as (ws' & Hws & Hpath). apply res_bind_ok in Hpath as (m & _ & [= <- _ <-]). split; [done|]. bsimp.
  destruct (before_turn_spec _ _ _ Eb) as (e & post & Hj & Hb & Hp). by exists source, a, e, post.
Qed.

Lemma fork_workspace source_id s ws : workspace_for_unlocked source_id s = Ok ws ->
  group_by_workspace = false -> ws = None.
Proof. unfold workspace_for_unlocked. intros Hw Hg. rewrite Hg in Hw. by injection Hw as <-. Qed.

Lemma local_create p id metadata pre ws : validate_session_id id = Ok tt -> (group_by_workspace = true <-> is_Some ws) -> p = target_of ws ->
  local_op p id (create_fork p id metadata pre ws).
Proof.
  intros Hv Hws ->. unfold create_fork. apply local_bind; [apply local_metadata|intros _]. apply local_bind.
  - intros s0 s Hs. rewrite append_unlocked_at by done. by apply local_append.
  - intros _. apply local_bind; [intros s0; apply preserves_get|intros s' s0; apply preserves_lift].
Qed.

Lemma create_fork_ok p id metadata pre ws s s' session :
  validate_session_id id = Ok tt -> (group_by_workspace = true <-> is_Some ws) -> p = target_of ws -> Forall event_valid pre ->
  dirs_wf s -> find_session_directory id s = None -> files_at p id s = None ->
  create_fork p id metadata pre ws (put_files p id no_files s) = (s', Ok session) ->
  stores p id s' pre /\ journal session = pre /\ exists preset, replay pre (initial_state preset) = (st session, Ok tt).
Proof.
  intros Hv Hws -> Hpre Hwf Hfind Hno Hc. set (p := target_of ws) in *. set (s0 := put_files p id no_files s) in *.
  assert (H0 : only p id s s0 /\ dirs_wf s0) by (split; [apply only_put|by apply dirs_wf_put]). destruct H0 as [Ho0 Hw0].
  pose proof (local_create p id metadata pre ws Hv Hws eq_refl s0 s0 (conj (only_refl _ _ _) (fun x => x))) as [Hon Hwn]. rewrite Hc in Hon, Hwn.
  cbn [fst] in *. revert Hc. unfold create_fork, bind.
  destruct (write_metadata_spec p id metadata s0) as (s1 & -> & Hj1 & _ & _).
  rewrite append_unlocked_at by done. destruct (append_at (target_of ws) id pre s1) as [s2 [[]|e]] eqn:Ea; [|done].
  unfold get, lift. intros [= <- Hl].
  assert (Hj : journal_file p id s2 = Some (record_lines (map event_to_dict pre))).
  { eapply append_at_ok; [|exact Ea]. rewrite Hj1. unfold s0. by rewrite journal_file_put. }
  assert (Hf : find_session_directory id s2 = Some p).
  { unfold journal_file in Hj. destruct (files_at p id s2) as [f|] eqn:Ef; [|done].
    eapply (find_created id s s2 p f); [done|by apply Hwn|done|by eapply only_trans| |done|by rewrite Hj].
    rewrite Hws. unfold p, target_of, place_of. destruct ws as [w|]; [|done]. by rewrite (proj2 Hws (mk_is_Some (Some w) w eq_refl)). }
  split; [unfold stores; rewrite Hj; by apply holds_complete|]. by apply (load_created id ws pre s2 session).
Qed.

(** C36: a fork is the conversation before the edited turn.  If [fork_session]
    raises, every session directory is as it was.  If it returns, nothing but the
    new directory has changed; the events of the new session, on disk and in the
    returned object, are those of the source before the first start of the turn
    the edited message belongs to, and its state is their replay. *)
Theorem fork_is_prefix (source_id new_id anchor_id : string) (s s' : Store) (r : res Session) :
  dirs_wf s -> (forall source, load_unlocked source_id None s = Ok source -> Forall event_valid (journal source)) ->
  fork_session source_id new_id anchor_id s = (s', r) ->
  match r with
  | Err _ => forall p id, files_at p id s' = files_at p id s
  | Ok session =>
      exists p source a e post pre, only p new_id s s' /\ files_at p new_id s = None /\
        load_unlocked source_id None s = Ok source /\ In a (journal source) /\ ev_event_id a = anchor_id /\
        journal source = pre ++ e :: post /\ turn_boundary (ev_turn_id a) e /\
        Forall (fun x => ~ turn_boundary (ev_turn_id a) x) pre /\
        stores p new_id s' pre /\ journal session = pre /\
        exists preset, replay pre (initial_state preset) = (st session, Ok tt)
  end.
Proof.
  intros Hwf Hsrc. unfold fork_session, bind, lift, get.
  destruct (validate_session_id source_id) as [[]|]; [|by intros [= <- <-]].
  destruct (validate_session_id new_id) as [[]|] eqn:Hv; [|by intros [= <- <-]].
  destruct (String.eqb new_id source_id); [by intros [= <- <-]|].
  destruct (fork_source source_id anchor_id s) as [[[ws metadata] pre]|] eqn:Ef; [|by intros [= <- <-]].
  destruct (fork_source_ok _ _ _ _ _ _ Ef) as (Hws & source & a & e & post & Hload & Hin & Ha & Hj & Hb & Hp).
  destruct (find_session_directory new_id s) eqn:Hfind; [by intros [= <- <-]|].
  destruct (if group_by_workspace then _ else _) as [p|] eqn:Ep; [|by intros [= <- <-]].
  assert (Hp' : (group_by_workspace = true <-> is_Some ws) /\ p = target_of ws).
  { unfold target_of, place_of. destruct group_by_workspace eqn:Hg; [destruct ws as [w|]; [injection Ep as <-; by split|done]|].
    rewrite (fork_workspace _ _ _ Hws Hg). injection Ep as <-. split; [split; [done|by intros []]|done]. }
  destruct Hp' as [Hgws Ept]. destruct (files_at p new_id s) eqn:Hno; [by intros [= <- <-]|].
  change (modify (put_files p new_id no_files) s) with (put_files p new_id no_files s, @Ok unit tt). cbv iota beta.
  unfold catch.
  pose proof (local_create p new_id metadata pre ws Hv Hgws Ept (put_files p new_id no_files s) _ (conj (only_refl _ _ _) (fun x => x))) as [Hon Hwn].
  destruct (create_fork p new_id metadata pre ws (put_files p new_id no_files s)) as [s1 [session|err]] eqn:Ec; cbn [fst] in *.
  - intros [= <- <-]. destruct (create_fork_ok _ _ _ _ _ _ _ _ Hv Hgws Ept ltac:(apply Hsrc in Hload; rewrite Hj in Hload; by apply Forall_app in Hload as [? _]) Hwf Hfind Hno Ec) as (Hst & Hjs & Hr).
    exists p, source, a, e, post, pre. split; [eapply only_trans; [apply only_put|exact Hon]|]. done.
  - intros [= <- <-] p' id'. destruct (decide ((p, new_id) = (p', id'))) as [[= <- <-]|Hne].
    + rewrite files_at_remove by (apply Hwn; by apply dirs_wf_put). done.
    + rewrite files_at_remove_ne, Hon by done. by apply files_at_put_ne.
Qed.
End thms.

(** A store of sessions grouped by workspace, and a writer that stops within its
    second batch. *)
Definition plain_floats : FloatText := {| float_repr _ := "0.0" |}.
Definition plain_read : FloatRead := {| float_value _ := 0 |}.
Definition grouped : StoreEnv := {| group_by_workspace := true; resolve_workspace w := w; attachments_suffix _ := "" |}.

Definition empty_store : Store := MkStore [] [].
Definition one_event (seq : Z) : JournalEvent := MkEvent seq "e" "turn_started" (Some "t") 0 None [("note", JStr "caf")].
Definition demo_opened : Store := fst (@open_journal plain_read grouped "a" (Some "/w") empty_store).
Definition demo_place : Place := Some "%2Fw".
Definition demo_written : Store := fst (@journal_append plain_floats grouped demo_place "a" [one_event 1] demo_opened).

Lemma one_event_valid seq : @event_valid plain_floats plain_read (one_event seq).
Proof. split; [by vm_compute|]. cbn. split; [|done]. apply NoDup_singleton. Qed.

Lemma journal_file_refines_witness : exists s' js',
  spec_run [] [UOpen; UWrite [one_event 1]; UCrash [one_event 2]] js' /\ only demo_place "a" empty_store s'.
Proof.
  assert (Hf : exists f, files_at demo_place "a" demo_written = Some f) by (eexists; vm_compute; reflexivity). destruct Hf as [f Hf].
  assert (Ho : @open_journal plain_read grouped "a" (Some "/w") empty_store = (demo_opened, Ok demo_place))
    by (vm_compute; reflexivity).
  set (s' := put_files demo_place "a" (with_journal (default "" (sf_journal f) +:+ utf8_encode "{") f) demo_written).
  assert (Hrun : @use_run plain_floats plain_read grouped "a" "/w" (empty_store, false)
    [UOpen; UWrite [one_event 1]; UCrash [one_event 2]] (s', false)).
  { eapply run_step; [exact (use_open _ _ _ _ _ Ho)|].
    eapply run_step; [eapply (use_write _ _ _ demo_written _ [one_event 1]); [constructor; [apply one_event_valid|constructor]|apply surjective_pairing]|].
    eapply run_step; [|constructor].
    eapply (use_crash _ _ _ _ _ f "{"); [constructor; [apply one_event_valid|constructor]|exact Hf|reflexivity|reflexivity]. }
  destruct (@journal_file_refines plain_floats plain_read grouped "a" "/w" eq_refl empty_store s' _ false []
    ltac:(constructor) eq_refl Hrun) as (js' & Hspec & Hon & _).
  exists s', js'. split; [exact Hspec|exact Hon].
Defined.

(** The record of an accented word, cut within the accented letter. *)
Definition accent : ascii := chr 233.
Definition accented_event : JournalEvent := MkEvent 1 (String accent "") "turn_started" None 0 None [].
Definition cut_store : Store :=
  put_files demo_place "a" (MkFiles None (Some ("{" +:+ utf8_encode (json_string "seq" +:+ ": 1, " +:+ json_string "event_id" +:+ ": " +:+ String DQ "")
    +:+ stake 1 (utf8_char accent)))) empty_store.

Lemma split_character_blocks_session_witness : exists err, exn_class err = EUnicodeDecode /\
  exists s', @open_journal plain_read grouped "a" (Some "/w") cut_store = (s', Err err).
Proof.
  assert (Hd : exists post, @dumps plain_floats (event_to_dict accented_event) =
    ("{" +:+ json_string "seq" +:+ ": 1, " +:+ json_string "event_id" +:+ ": " +:+ String DQ "") +:+ String accent post)
    by (eexists; vm_compute; reflexivity).
  destruct Hd as [post Hd].
  assert (Hv : @event_valid plain_floats plain_read accented_event) by (split; [by vm_compute|split; [apply NoDup_nil_2|done]]).
  destruct (@split_character_blocks_session plain_floats plain_read grouped "a" "/w" cut_store [] accented_event _ post accent
    eq_refl Hv Hd ltac:(by vm_compute) ltac:(vm_compute; reflexivity)) as (err & Hc & _ & Ho).
  exists err. split; [exact Hc|exact Ho].
Defined.

(** Two turns, the second of which is edited. *)
Definition user_message (text : string) : list (string * json) :=
  [("message", JObj (message_to_dict true (plain_message RUser (CStr text)))); ("user_source", JStr "user_input")].
Definition two_turns : list JournalEvent :=
  [MkEvent 1 "e1" "turn_started" (Some "t1") 0 None []; MkEvent 2 "e2" "message_appended" (Some "t1") 0 None (user_message "hello");
   MkEvent 3 "e3" "turn_completed" (Some "t1") 0 None [("status", JStr "completed")];
   MkEvent 4 "e4" "turn_started" (Some "t2") 0 None []; MkEvent 5 "e5" "message_appended" (Some "t2") 0 None (user_message "again")].
Definition fork_store : Store :=
  put_files demo_place "a" (MkFiles (Some (JObj new_session_metadata)) (Some (@record_lines plain_floats (map event_to_dict two_turns)))) empty_store.

Lemma two_turns_valid : Forall (@event_valid plain_floats plain_read) two_turns.
Proof. repeat apply Forall_cons_2; try apply Forall_nil_2; (split; [by vm_compute|]); apply plain_json_ok; vm_compute; reflexivity. Qed.

Lemma fork_is_prefix_witness : exists s' session p,
  @fork_session plain_floats plain_read grouped "a" "b" "e5" fork_store = (s', Ok session) /\ length (journal session) = 3%nat /\
  only p "b" fork_store s' /\ @stores plain_floats plain_read p "b" s' (journal session).
Proof.
  assert (Hrun : exists s' session, @fork_session plain_floats plain_read grouped "a" "b" "e5" fork_store = (s', Ok session) /\
    length (journal session) = 3%nat) by (eexists _, _; vm_compute; split; reflexivity).
  destruct Hrun as (s' & session & Hrun & Hlen).
  assert (Hload : exists source, @load_unlocked plain_floats plain_read grouped "a" None fork_store = Ok source /\ journal source = two_turns)
    by (eexists; vm_compute; split; reflexivity).
  destruct Hload as (source & Hload & Hj).
  destruct (@fork_is_prefix plain_floats plain_read grouped (fun w => eq_refl) "a" "b" "e5" fork_store s' (Ok session))
    as (p & source' & a & e & post & pre & Ho & _ & _ & _ & _ & _ & _ & _ & Hst & Hjs & _).
  - split_and!; [apply NoDup_singleton|apply Forall_singleton; apply NoDup_singleton|apply NoDup_nil_2].
  - intros source' Hload'. rewrite Hload in Hload'. injection Hload' as <-. rewrite Hj. exact two_turns_valid.
  - exact Hrun.
  - exists s', session, p. rewrite Hjs. split; [exact Hrun|]. rewrite Hjs in Hlen. split; [exact Hlen|]. split; [exact Ho|exact Hst].
Defined.
