(* ===== verification/Projection.v ===== *)
(** * Projection of the history into context units: agent_core/projection.py

    A tool-calling assistant message, the results of its batch and the messages
    that trail them form one unit.  The two nested while loops are [scan_batch],
    structural in the items that follow the assistant message, and [project_go],
    whose fuel is the number of items: every round consumes at least one.
    The loops pass message objects through; they are of any type [A] with a
    reading [msg], so that a caller may tell equal messages apart. *)

From stdpp Require Import base list strings.
From Stdlib Require Import ZArith Lia.
From S2P Require Import Prelude PyData PyStr Json PyTime Content Plan Authority Message.

Record ContextUnit (A : Type) := MkUnit {
  u_start : Z;
  u_end : Z;
  u_messages : list A;
}.
Arguments MkUnit {A} _ _ _.
Arguments u_start {A} _.
Arguments u_end {A} _.
Arguments u_messages {A} _.

Definition origin_in (m : Message) (os : list MessageOrigin) : bool :=
  existsb (fun o => bool_decide (m_origin m = o)) os.

Definition is_role (r : MessageRole) (m : Message) : bool := bool_decide (m_role m = r).

(** The items the inner loop absorbs after a tool-calling message. *)
Definition continues_batch (m : Message) : bool :=
  is_role RTool m || is_tool_media m || origin_in m [OUserInteraction; OHookFeedback; OToolDelivery].

Definition is_trailing (m : Message) : bool :=
  is_tool_media m || origin_in m [OUserInteraction; OHookFeedback].

Definition call_ids (item : Message) : list string := map tc_id (m_tool_calls item).

(** [following.tool_call_id in calls] *)
Definition answers (ids : list string) (m : Message) : option string :=
  match m_tool_call_id m with
  | Some id => if name_in id ids then Some id else None
  | None => None
  end.

Definition is_batch (item : Message) : bool :=
  is_role RAssistant item && match m_tool_calls item with [] => false | _ => true end.

Section projection.
Context {A : Type} (msg : A -> Message).

(** The inner loop: the results found, the trailing messages, the items absorbed. *)
Fixpoint scan_batch (ids : list string) (found : list (string * A)) (trailing : list A)
    (n : nat) (rest : list A) : list (string * A) * list A * nat :=
  match rest with
  | [] => (found, trailing, n)
  | m :: rest' =>
      if continues_batch (msg m) then
        match answers ids (msg m) with
        | Some id => scan_batch ids (dset id m found) trailing (S n) rest'
        | None => scan_batch ids found (if is_trailing (msg m) then trailing ++ [m] else trailing) (S n) rest'
        end
      else (found, trailing, n)
  end.

(** The provider messages of a batch: all of it, or nothing when a result is missing. *)
Definition batch_messages (item : A) (found : list (string * A)) (trailing : list A) :
    list A :=
  match mapM (fun id => dget id found) (call_ids (msg item)) with
  | Some results => item :: results ++ trailing
  | None => []
  end.

Definition single_messages (item : A) : list A :=
  if is_role RTool (msg item) || origin_in (msg item) [OToolDelivery] then [] else [item].

(** One round of the outer loop: the messages of the unit and its length. *)
Definition next_unit (item : A) (rest : list A) : list A * nat :=
  if is_batch (msg item) then
    let '(found, trailing, n) := scan_batch (call_ids (msg item)) [] [] 0 rest in
    (batch_messages item found trailing, S n)
  else (single_messages item, 1%nat).

Fixpoint project_go (fuel : nat) (index : Z) (history : list A) : list (ContextUnit A) :=
  match fuel, history with
  | S fuel', item :: rest =>
      let '(messages, n) := next_unit item rest in
      MkUnit index (index + Z.of_nat n) messages
      :: project_go fuel' (index + Z.of_nat n) (drop n history)
  | _, _ => []
  end.

Definition project_context_units (items : list A) (start_index : Z) : list (ContextUnit A) :=
  project_go (length items) start_index items.

(** ** The scan of a batch *)

Lemma scan_batch_spec ids rest : forall found trailing n found' trailing' n',
  scan_batch ids found trailing n rest = (found', trailing', n') ->
  exists k, n' = (n + k)%nat /\ (k <= length rest)%nat /\
    Forall (fun m => continues_batch (msg m) = true) (take k rest) /\
    (forall m, rest !! k = Some m -> continues_batch (msg m) = false) /\
    trailing' = trailing ++ List.filter (fun m => is_trailing (msg m) && negb (bool_decide (is_Some (answers ids (msg m))))) (take k rest) /\
    (forall id m, dget id found' = Some m ->
       (m_tool_call_id (msg m) = Some id /\ m ∈ take k rest) \/ dget id found = Some m).
Proof.
  induction rest as [|m rest IH]; intros found trailing n found' trailing' n' H; simpl in H.
  - simplify_eq. exists 0%nat. rewrite take_0. simpl. rewrite app_nil_r. split_and!; auto with lia. done.
  - destruct (continues_batch (msg m)) eqn:Hc.
    2: { simplify_eq. exists 0%nat. rewrite take_0. simpl. rewrite app_nil_r.
         split_and!; auto; try lia. intros ? [= <-]. done. }
    destruct (answers ids (msg m)) as [id|] eqn:Ha.
    + apply IH in H as (k & -> & Hk & Hf & Hn & Ht & Hd). exists (S k). simpl.
      split_and!; [lia|lia|by constructor|done| |].
      * rewrite Ha. by rewrite andb_false_r.
      * intros id' m' Hl. destruct (Hd _ _ Hl) as [[? ?]|Hl']; [left; split; [done|by right]|].
        rewrite dget_dset in Hl'. case_decide as Hid; [|by right]. simplify_eq. left.
        split; [|by left]. unfold answers in Ha. repeat case_match; congruence.
    + apply IH in H as (k & -> & Hk & Hf & Hn & Ht & Hd). exists (S k). simpl.
      split_and!; [lia|lia|by constructor|done| |].
      * rewrite Ha. simpl. rewrite andb_true_r, Ht. destruct (is_trailing (msg m)); [|done].
        by rewrite <-app_assoc.
      * intros id' m' Hl. destruct (Hd _ _ Hl) as [[? ?]|Hl']; [left; split; [done|by right]|by right].
Qed.

Lemma next_unit_length item rest messages n :
  next_unit item rest = (messages, n) -> (1 <= n <= S (length rest))%nat.
Proof.
  unfold next_unit. destruct (is_batch (msg item)); [|intros [= <- <-]; lia].
  destruct (scan_batch _ _ _ _ _) as [[f t] k] eqn:E. intros [= <- <-].
  apply scan_batch_spec in E as (k' & -> & ? & _). lia.
Qed.

(** The fuel is enough, and more of it changes nothing. *)
Lemma project_go_fuel fuel : forall index history,
  (length history <= fuel)%nat -> project_go fuel index history = project_go (length history) index history.
Proof.
  induction (Nat.lt_wf_0 fuel) as [fuel _ IH]. intros index history Hf.
  destruct history as [|item rest]; [by destruct fuel|]. destruct fuel as [|fuel]; simpl in Hf; [lia|].
  cbn [project_go length]. destruct (next_unit item rest) as [messages n] eqn:E.
  pose proof (next_unit_length _ _ _ _ E). f_equal.
  assert (Hl : (length (drop n (item :: rest)) <= length rest)%nat) by (rewrite length_drop; simpl; lia).
  by rewrite (IH fuel), (IH (length rest)) by lia.
Qed.

Lemma project_unfold index item rest messages n :
  next_unit item rest = (messages, n) ->
  project_context_units (item :: rest) index
  = MkUnit index (index + Z.of_nat n) messages
    :: project_context_units (drop n (item :: rest)) (index + Z.of_nat n).
Proof.
  intros E. unfold project_context_units. cbn [length project_go]. rewrite E. f_equal.
  apply project_go_fuel. pose proof (next_unit_length _ _ _ _ E). rewrite length_drop. simpl. lia.
Qed.

(** Induction along the units of a history. *)
Lemma project_ind (P : Z -> list A -> list (ContextUnit A) -> Prop) :
  (forall index, P index [] []) ->
  (forall index item rest messages n us, next_unit item rest = (messages, n) ->
     P (index + Z.of_nat n) (drop n (item :: rest)) us ->
     us = project_context_units (drop n (item :: rest)) (index + Z.of_nat n) ->
     P index (item :: rest) (MkUnit index (index + Z.of_nat n) messages :: us)) ->
  forall history index, P index history (project_context_units history index).
Proof.
  intros Hn Hc history. induction (well_founded_ltof _ (@length A) history) as [history _ IH].
  intros index. destruct history as [|item rest]; [apply Hn|].
  destruct (next_unit item rest) as [messages n] eqn:E. rewrite (project_unfold _ _ _ _ _ E).
  apply (Hc _ _ _ _ _ _ E); [|done]. apply IH. unfold ltof. rewrite length_drop.
  pose proof (next_unit_length _ _ _ _ E). simpl. lia.
Qed.

(** ** What a unit shows of its span *)

(** A complete batch: the tool-calling message, one result per call in the order
    of the calls, then trailing messages. *)
Definition complete_batch (ms : list A) : Prop :=
  exists item results trailing, ms = item :: results ++ trailing /\ is_batch (msg item) = true /\
    Forall2 (fun call m => m_tool_call_id (msg m) = Some (tc_id call)) (m_tool_calls (msg item)) results /\
    Forall (fun m => is_trailing (msg m) = true) trailing.

Definition unit_shape (ms : list A) : Prop :=
  ms = [] \/ complete_batch ms \/ exists m, ms = [m] /\ is_batch (msg m) = false /\ is_role RTool (msg m) = false.

Lemma next_unit_shape item rest messages n :
  next_unit item rest = (messages, n) ->
  unit_shape messages /\ Forall (fun m => m ∈ take n (item :: rest)) messages.
Proof.
  unfold next_unit. destruct (is_batch (msg item)) eqn:Hb.
  - destruct (scan_batch _ _ _ _ _) as [[f t] k] eqn:E. intros [= <- <-].
    apply scan_batch_spec in E as (k' & -> & Hk & Hf & Hn & Ht & Hd).
    unfold batch_messages. destruct (mapM _ _) as [results|] eqn:Em; [|split; [by left|constructor]].
    apply mapM_Some in Em. unfold call_ids in Em. rewrite Forall2_fmap_l in Em.
    assert (Hres : Forall2 (fun call m => m_tool_call_id (msg m) = Some (tc_id call) /\ m ∈ take k' rest)
                     (m_tool_calls (msg item)) results).
    { apply (Forall2_impl _ _ _ _ Em). intros c m Hm. destruct (Hd _ _ Hm) as [?|Hx]; [done|discriminate Hx]. }
    assert (Htr : Forall (fun m => is_trailing (msg m) = true /\ m ∈ take k' rest) t).
    { rewrite Forall_forall, Ht. simpl. intros m Hm. apply list_elem_of_In, filter_In in Hm as [Hm Hx].
      bsimp. split; [done|]. by apply list_elem_of_In. }
    split.
    + right; left. exists item, results, t. split_and!; [done|done| |].
      * by apply (Forall2_impl _ _ _ _ Hres); intros ? ? [? _].
      * by apply (Forall_impl _ _ _ Htr); intros ? [? _].
    + simpl. constructor; [by left|]. apply Forall_app. split.
      * apply Forall_forall. intros m Hm. apply list_elem_of_lookup in Hm as [i Hi].
        destruct (Forall2_lookup_r _ _ _ _ _ Hres Hi) as (c & _ & _ & Hin). by right.
      * apply (Forall_impl _ _ _ Htr). intros m [_ ?]. by right.
  - intros [= <- <-]. unfold single_messages. destruct (is_role RTool (msg item) || _) eqn:Hr;
      [split; [by left|constructor]|]. bsimp. split; [|constructor; [by left|constructor]].
    right; right. by exists item.
Qed.

(** The items of a unit's span, in a history that starts at [base]. *)
Definition span (base : Z) (history : list A) (u : ContextUnit A) : list A :=
  slice (u_start u - base) (u_end u - base) history.

(** Units that follow each other from [a] to [b] without gap or overlap. *)
Fixpoint tiles (a : Z) (us : list (ContextUnit A)) (b : Z) : Prop :=
  match us with
  | [] => a = b
  | u :: us' => u_start u = a /\ a < u_end u /\ tiles (u_end u) us' b
  end.

Lemma tiles_project history index :
  tiles index (project_context_units history index) (index + zlen history).
Proof.
  apply (project_ind (fun index history us => tiles index us (index + zlen history))); clear.
  - intros index. unfold zlen. simpl. lia.
  - intros index item rest messages n us E IH _. pose proof (next_unit_length _ _ _ _ E) as Hn.
    simpl. split_and!; [done|lia|]. replace (index + zlen (item :: rest))
      with (index + Z.of_nat n + zlen (drop n (item :: rest))); [done|].
    unfold zlen. rewrite length_drop. simpl length in *. lia.
Qed.

(** Where a list of units that starts at [a] ends. *)
Definition units_end (a : Z) (us : list (ContextUnit A)) : Z := default a (u_end <$> last us).

Lemma units_end_cons a u us : units_end a (u :: us) = units_end (u_end u) us.
Proof. unfold units_end. destruct us as [|v us]; [done|]. rewrite last_cons_cons.
  destruct (last (v :: us)) eqn:E; [done|]. by apply last_None in E. Qed.

Lemma slice_shift {B} (i j : Z) (n : nat) (l : list B) :
  0 <= i -> i <= j -> slice (i + Z.of_nat n) (j + Z.of_nat n) l = slice i j (drop n l).
Proof.
  intros Hi Hj. unfold slice, slice_bound, zlen. rewrite length_drop.
  rewrite !(proj2 (Z.ltb_ge _ 0)) by lia. rewrite drop_drop.
  destruct (decide (n <= length l)%nat).
  - f_equal; [|f_equal]; lia.
  - rewrite !drop_ge by lia. by rewrite !take_nil.
Qed.

Lemma tiles_start a us b u : tiles a us b -> u ∈ us -> a <= u_start u /\ u_start u < u_end u.
Proof.
  revert a. induction us as [|v us IH]; intros a Ht Hu; [by apply not_elem_of_nil in Hu|].
  destruct Ht as (Hs & He & Ht). apply elem_of_cons in Hu as [->|Hu]; [lia|].
  destruct (IH _ Ht Hu). lia.
Qed.

(** Reasoning on one unit of a projection: it is the next unit of its span. *)
Lemma unit_ind (P : list A -> list A -> Prop) history base u :
  (forall item rest messages n, next_unit item rest = (messages, n) -> P messages (take n (item :: rest))) ->
  u ∈ project_context_units history base -> P (u_messages u) (span base history u).
Proof.
  intros HP. revert u. apply (project_ind (fun base history us => forall u, u ∈ us ->
    P (u_messages u) (span base history u))); clear -HP.
  - intros base u Hu. by apply not_elem_of_nil in Hu.
  - intros base item rest messages n us E IH -> u [->|Hu]%elem_of_cons.
    + pose proof (next_unit_length _ _ _ _ E). unfold span. cbn [u_start u_end u_messages].
      replace (base - base) with (Z.of_nat 0) by lia. replace (base + Z.of_nat n - base) with (Z.of_nat n) by lia.
      rewrite slice_nat by (simpl length; lia). rewrite Nat.sub_0_r, drop_0. by apply HP.
    + specialize (IH u Hu). destruct (tiles_start _ _ _ _ (tiles_project _ _) Hu).
      unfold span in *. rewrite <-slice_shift in IH by lia.
      by replace (u_start u - base) with (u_start u - (base + Z.of_nat n) + Z.of_nat n) by lia;
        replace (u_end u - base) with (u_end u - (base + Z.of_nat n) + Z.of_nat n) by lia.
Qed.

(** C18: the projection tiles the history: the units follow each other from the
    start index to the end without gap or overlap, each shows only messages of
    its own span, and what it shows is nothing, one message that is neither a
    tool result nor a tool-calling message, or a complete batch: the
    tool-calling message, one result per call in the order of the calls, then
    the trailing messages. *)
Theorem projection_tiles_history (history : list A) (base : Z) :
  tiles base (project_context_units history base) (base + zlen history) /\
  (forall u, u ∈ project_context_units history base ->
     unit_shape (u_messages u) /\ Forall (fun m => m ∈ span base history u) (u_messages u)).
Proof.
  split; [apply tiles_project|]. intros u Hu.
  apply (unit_ind (fun ms sp => unit_shape ms /\ Forall (fun m => m ∈ sp) ms)); [|done].
  intros ????. apply next_unit_shape.
Qed.

(** Archiving is stable: cutting the history at the end of any prefix of the
    units and projecting the rest gives exactly the remaining units. *)
Theorem projection_cut_stable (history : list A) (base : Z) (us1 us2 : list (ContextUnit A)) :
  project_context_units history base = us1 ++ us2 ->
  project_context_units (slice_from (units_end base us1 - base) history) (units_end base us1) = us2.
Proof.
  revert us1 us2. apply (project_ind (fun base history us => forall us1 us2, us = us1 ++ us2 ->
    project_context_units (slice_from (units_end base us1 - base) history) (units_end base us1) = us2)); clear.
  - intros base us1 us2 E. symmetry in E. apply app_nil in E as [-> ->]. unfold units_end; simpl.
    by rewrite Z.sub_diag.
  - intros base item rest messages n us E IH -> us1 us2 H. destruct us1 as [|u us1].
    + unfold units_end; simpl in *. rewrite Z.sub_diag. rewrite (slice_from_nat 0), drop_0.
      by rewrite (project_unfold _ _ _ _ _ E).
    + simpl in H. injection H as <- H. specialize (IH _ _ H). rewrite units_end_cons. cbn [u_end].
      assert (Hge : base + Z.of_nat n <= units_end (base + Z.of_nat n) us1).
      { unfold units_end. destruct (last us1) as [u|] eqn:El; simpl; [|lia].
        assert (Hu : u ∈ project_context_units (drop n (item :: rest)) (base + Z.of_nat n)).
        { rewrite H. apply elem_of_app; left. by apply last_Some_elem_of. }
        destruct (tiles_start _ _ _ _ (tiles_project _ _) Hu). lia. }
      remember (units_end (base + Z.of_nat n) us1 - (base + Z.of_nat n)) as k eqn:Hk.
      assert (Hk' : units_end (base + Z.of_nat n) us1 - base = Z.of_nat (n + Z.to_nat k)) by lia.
      rewrite Hk'. rewrite slice_from_nat, <-drop_drop.
      replace k with (Z.of_nat (Z.to_nat k)) in IH by lia. by rewrite slice_from_nat in IH.
Qed.

(** No message is lost: a unit that shows anything shows every item of its
    span that is neither a tool message, nor a delivery to the user, nor an
    answer to a call; a tool-calling message whose batch lacks a result is
    hidden with its whole span. *)
Theorem projection_keeps_messages (history : list A) (base : Z) (u : ContextUnit A) :
  u ∈ project_context_units history base ->
  (u_messages u <> [] -> forall m, m ∈ span base history u ->
     is_role RTool (msg m) = false -> m_tool_call_id (msg m) = None -> m_origin (msg m) <> OToolDelivery -> m ∈ u_messages u) /\
  (forall item rest id, span base history u = item :: rest -> is_batch (msg item) = true -> id ∈ call_ids (msg item) ->
     Forall (fun m => m_tool_call_id (msg m) <> Some id) rest -> u_messages u = []).
Proof.
  apply (unit_ind (fun ms sp => (ms <> [] -> forall m, m ∈ sp ->
     is_role RTool (msg m) = false -> m_tool_call_id (msg m) = None -> m_origin (msg m) <> OToolDelivery -> m ∈ ms) /\
    (forall item rest id, sp = item :: rest -> is_batch (msg item) = true -> id ∈ call_ids (msg item) ->
     Forall (fun m => m_tool_call_id (msg m) <> Some id) rest -> ms = []))).
  intros item rest ms n. unfold next_unit. destruct (is_batch (msg item)) eqn:Hb.
  2: { intros [= <- <-]. simpl. rewrite take_0. split; [|intros ??? [= -> ->]; congruence].
       intros Hne m Hm%list_elem_of_singleton Hr Hc Ho. subst m. unfold single_messages in *.
       destruct (_ || _); [done|by left]. }
  destruct (scan_batch _ _ _ _ _) as [[f t] k] eqn:E. intros [= <- <-].
  apply scan_batch_spec in E as (k' & -> & Hk & Hf & Hn & Ht & Hd). unfold batch_messages.
  destruct (mapM _ _) as [results|] eqn:Em; [|by split].
  split.
  - intros _ m Hm Hr Hc Ho. simpl in Hm. apply elem_of_cons in Hm as [->|Hm]; [by left|right].
    apply elem_of_app; right. rewrite Ht. simpl. apply list_elem_of_In, filter_In.
    split; [by apply list_elem_of_In|]. rewrite Forall_forall in Hf. specialize (Hf m Hm).
    unfold answers. rewrite Hc. unfold continues_batch in Hf. rewrite Hr in Hf. simpl in Hf.
    unfold is_trailing, origin_in in *. simpl in *. rewrite (bool_decide_false (m_origin (msg m) = OToolDelivery)) in Hf by done.
    by rewrite !orb_false_r in *; rewrite Hf.
  - intros item' rest' id [= -> <-] _ Hid Hno. exfalso. apply mapM_Some in Em.
    apply list_elem_of_lookup in Hid as [i Hi]. destruct (Forall2_lookup_l _ _ _ _ _ Em Hi) as (m & _ & Hm).
    destruct (Hd _ _ Hm) as [[Hc Hin]|Hx]; [|done]. rewrite Forall_forall in Hno. by apply (Hno m Hin).
Qed.
End projection.

(** ** A history with a batch answered out of order and an incomplete one *)

Definition two_calls : Message :=
  MkMessage RAssistant (CStr "") None
    [MkToolCall "a" "read_file" (ArgsDict []) None; MkToolCall "b" "shell" (ArgsDict []) None] None None OConversation [].
Definition one_call : Message :=
  MkMessage RAssistant (CStr "") None [MkToolCall "c" "shell" (ArgsDict []) None] None None OConversation [].
Definition tool_message (id text : string) : Message :=
  MkMessage RTool (CStr text) None [] (Some id) None OConversation [].
Definition approval_note : Message :=
  MkMessage RUser (CStr "User response: approved") None [] None None OUserInteraction [].
Definition delivery : Message := MkMessage RUser (CStr "") None [] None None OToolDelivery [].
Definition demo_history : list Message :=
  [plain_message RUser (CStr "go"); two_calls; approval_note; tool_message "b" "B"; tool_message "a" "A"; delivery;
   one_call; plain_message RUser (CStr "next")].
Definition demo_units : list (ContextUnit Message) :=
  [MkUnit 3 4 [plain_message RUser (CStr "go")];
   MkUnit 4 9 [two_calls; tool_message "a" "A"; tool_message "b" "B"; approval_note];
   MkUnit 9 10 [];
   MkUnit 10 11 [plain_message RUser (CStr "next")]].

Example demo_projection : project_context_units id demo_history 3 = demo_units.
Proof. reflexivity. Qed.

Lemma projection_cut_stable_witness :
  project_context_units id (slice_from 6 demo_history) 9 = drop 2 demo_units.
Proof.
  exact (projection_cut_stable id demo_history 3 (take 2 demo_units) (drop 2 demo_units) eq_refl).
Defined.

Lemma projection_keeps_messages_witness :
  approval_note ∈ u_messages (MkUnit 4 9 [two_calls; tool_message "a" "A"; tool_message "b" "B"; approval_note]).
Proof.
  refine (proj1 (projection_keeps_messages id demo_history 3
    (MkUnit 4 9 [two_calls; tool_message "a" "A"; tool_message "b" "B"; approval_note]) _) _ approval_note _ _ _ _).
  - right. left.
  - discriminate.
  - right. left.
  - reflexivity.
  - reflexivity.
  - discriminate.
Defined.
