(* ===== verification/Llm.v ===== *)
(** * Requests, responses and auxiliary calls: agent_core/llm.py, auxiliary.py

    A message of a request is an object: [o_id] is the index of the session item
    it is (Python's [is] compares it), [None] for a message made for the request.
    A provider is a class: what it counts and what its n-th call returns. *)

From stdpp Require Import base list strings pretty.
From Stdlib Require Import ZArith Lia.
From S2P Require Import Prelude PyData PyStr Json PyTime Content Plan Authority Message Session.

Record ToolDefinition := MkToolDefinition {
  td_name : string;
  td_description : string;
  td_parameters : json;
}.

Record Obj := MkObj { o_id : option Z; o_msg : Message }.

Definition fresh_obj (m : Message) : Obj := MkObj None m.

Record LLMRequest := MkRequest {
  rq_system_prompt : string;
  rq_messages : list Obj;
  rq_tools : list ToolDefinition;
  rq_max_generation_tokens : option Z;
  rq_media_root : option string;
}.

Definition set_messages (ms : list Obj) (r : LLMRequest) : LLMRequest :=
  MkRequest (rq_system_prompt r) ms (rq_tools r) (rq_max_generation_tokens r) (rq_media_root r).

Record LLMResponse := MkResponse {
  rs_content : option string;
  rs_reasoning : option string;
  rs_tool_calls : list ToolCall;
  rs_usage : option TokenUsage;
  rs_provider_data : list (string * json);
}.

(** agent_core/llm.py: LLMProvider.  [stream_cancellable n] is the outcome of the
    call made at tick [n], cancellation included. *)
Class Provider := {
  token_counting_identity : json;
  model_name : option string;
  max_context_tokens : Z;
  max_output_tokens : option Z;
  count_input_tokens : LLMRequest -> Z;
  stream_cancellable : nat -> LLMRequest -> res LLMResponse;
}.

(** What the process takes from the machine: the zone offset of an instant in
    microseconds, SHA-256 in hexadecimal and the milliseconds a call took. *)
Class Platform := {
  local_offset : Z -> Z;
  sha256_hex : string -> string;
  elapsed_ms : nat -> Z;
}.

Definition with_generation_limit `{Provider} (request : LLMRequest) (policy_limit : option Z) : LLMRequest :=
  match policy_limit with
  | None => request
  | Some limit =>
      let limit := match max_output_tokens with Some p => Z.min limit p | None => limit end in
      MkRequest (rq_system_prompt request) (rq_messages request) (rq_tools request) (Some limit)
        (rq_media_root request)
  end.

(** ** AuxiliaryCallTracker

    [__exit__]: the record of the call, from what the body raised and the
    response it had stored by then. *)
Definition tracker_status (error : option exn) (response : option LLMResponse) : string :=
  match error with
  | None => "completed"
  | Some e => if is_class EAgentCancelled e || is_class EKeyboardInterrupt e then "cancelled"
              else match response with Some _ => "invalid_response" | None => "failed" end
  end.

Definition tracked_call (task : string) (scope : option string) (attempt : Z) (started duration : Z)
    (error : option exn) (response : option LLMResponse) : AuxiliaryModelCall :=
  MkAuxCall task scope attempt (tracker_status error response) started duration
    (match response with Some r => rs_usage r | None => None end)
    (match error with Some e => or_none (exn_msg e) | None => None end).

Section tracker.
Context `{Env} `{Platform} `{Provider}.

(** [with AuxiliaryCallTracker(on_call, ...) as call: response = call.response =
    provider.stream_cancellable(request); value = validate(response)].  Returns the
    outcome of the block and [call.response]; an exception of [on_call] replaces
    the outcome of the body. *)
Definition tracked {A} (on_call : AuxiliaryModelCall -> M Session unit) (task : string) (scope : option string)
    (attempt : Z) (request : LLMRequest) (validate : LLMResponse -> res A) :
    M Session (option LLMResponse * res A) :=
  s <- get ;;
  modify (advance 1) ;;;
  let outcome := stream_cancellable (tick s) request in
  let response := match outcome with Ok r => Some r | Err _ => None end in
  let result := r <~ outcome ;; validate r in
  let error := match result with Ok _ => None | Err e => Some e end in
  catch (on_call (tracked_call task scope attempt (utcnow (tick s)) (elapsed_ms (tick s)) error response) ;;;
         ret (response, result))
        (fun e => ret (response, Err e)).
End tracker.
