(* ===== verification/ContextManager.v ===== *)
(** * Building and compressing model context: agent_core/context_manager.py

    The manager is a record of what its constructor stores; its operations act
    on the session.  Token thresholds are computed in binary64, so the product
    with the trigger ratio is rounded to 53 bits as the hardware does. *)

From stdpp Require Import base list strings pretty.
From Stdlib Require Import ZArith Lia Ascii.
From S2P Require Import Prelude PyData PyStr Json PyTime Content Plan Authority Message Session PyText.
From S2P Require Import Projection Llm.

Definition ARCHIVE_RETRY_COUNT : nat := 5.

(** ** binary64 products

    A positive float is [m * 2^e] with [m < 2^53]. *)

Definition round_half_even (p k : Z) : Z :=
  let q := p / 2 ^ k in
  let r := p mod 2 ^ k in
  let half := 2 ^ (k - 1) in
  if (half <? r) || ((r =? half) && Z.odd q) then q + 1 else q.

(** [p] rounded to 53 significant bits. *)
Definition round53 (p : Z) : Z :=
  let k := Z.log2 p - 52 in
  if k <=? 0 then p else round_half_even p k * 2 ^ k.

(** Mantissa and exponent of a positive binary64 bit pattern. *)
Definition decode_float (bits : Z) : Z * Z :=
  let x := bits / 2 ^ 52 mod 2 ^ 11 in
  let f := bits mod 2 ^ 52 in
  if x =? 0 then (f, -1074) else (2 ^ 52 + f, x - 1075).

(** [int(n * ratio)] for a positive integer [n]. *)
Definition int_of_product (n bits : Z) : Z :=
  let '(m, e) := decode_float bits in
  let p := round53 (round53 n * m) in
  if 0 <=? e then p * 2 ^ e else p / 2 ^ (- e).

(** The literals 0.75 and 0.80. *)
Definition RATIO_075 : Z := 4604930618986332160.
Definition RATIO_080 : Z := 4605380978949069210.

Definition compression_threshold_of (max_context_tokens hard_limit : Z) (trigger_ratio : option Z) : Z :=
  match trigger_ratio with
  | Some ratio => Z.max 1 (int_of_product hard_limit ratio)
  | None =>
      if max_context_tokens <=? 32 * 1024 then Z.max 1 (int_of_product hard_limit RATIO_075)
      else Z.max 1 (Z.min (int_of_product hard_limit RATIO_080) (256 * 1024))
  end.

(** ** State of the manager *)

Record ContextLimits := MkLimits {
  hard_limit : Z;
  compression_enabled : bool;
  compression_threshold : Z;
  keep_recent_units : Z;
  user_anchor_token_budget : Z;
}.

Record ContextWindow := MkWindow {
  w_input_tokens : Z;
  w_system_prompt_tokens : Z;
  w_max_input_tokens : Z;
  w_max_context_tokens : Z;
  w_output_reserve_tokens : Z;
  w_compression_threshold : Z;
  w_compression_count : Z;
  w_compression_summary : option string;
}.

(** The fields of [AgentConfig] the constructor reads. *)
Record ContextConfig := MkContextConfig {
  cfg_output_reserve_tokens : Z;
  cfg_max_generation_tokens : option Z;
  cfg_enabled : bool;
  cfg_trigger_ratio : option Z;
  cfg_keep_recent_units : Z;
  cfg_user_anchor_token_budget : Z;
}.

(** One active job, as [JobManager.list] reports it. *)
Record JobLine := MkJobLine {
  jl_job_id : string;
  jl_kind : string;
  jl_role : option string;
  jl_status : string;
}.

Record ContextManager := MkContextManager {
  cm_system_prompt : string;
  cm_consolidator_prompt : string;
  cm_memory_section : option string;
  cm_jobs : option (list JobLine);
  cm_output_reserve_tokens : Z;
  cm_max_generation_tokens : option Z;
  cm_media_root : option string;
  cm_limits : ContextLimits;
  cm_system_prompt_tokens : Z;
}.

(** ** Rendering *)

Section render.
Context `{Platform}.

(** [t.astimezone().isoformat(timespec="seconds")] *)
Definition local_seconds (t : Z) : string :=
  let w := t + local_offset t in
  isoformat (Datetime (w - w mod us_second) (Some (local_offset t))).

Definition turn_context_message (m : Message) : option Message :=
  match m_timestamp_utc m with
  | None => None
  | Some t => Some (plain_message RSystem (CStr
      ("[Turn Context]" +:+ NL +:+ "User message received at " +:+ local_seconds t +:+ ".")))
  end.

(** The section of one anchor; none when it has no textual content. *)
Definition anchor_section (active_turn_id : option string) (a : UserAnchor) : list string :=
  match historical_content (ua_content a) with
  | Some content =>
      if nonempty content then
        ["USER INPUT " +:+ local_seconds (ua_timestamp_utc a) +:+ " ("
         +:+ (if bool_decide (Some (ua_turn_id a) = active_turn_id) then "current turn" else "historical turn")
         +:+ ", " +:+ source_str (ua_source a) +:+ ", turn_id=" +:+ ua_turn_id a +:+ ")" +:+ NL +:+ content]
      else []
  | None => []
  end.

Definition render_user_anchors (anchors : list UserAnchor) (active_turn_id : option string) : option string :=
  match anchors with
  | [] => None
  | _ => Some (sjoin (NL +:+ NL)
      ("[Lossless User Anchors]"
       :: ("These preserve exact user-authored input and interaction decisions "
           +:+ "from recent turns. Treat them as authoritative user instructions.")
       :: flat_map (anchor_section active_turn_id) anchors))
  end.
End render.

(** ** Checkpoint validation *)

Definition FENCE : string := "```".
Definition is_open_fence (line : string) : bool := name_in line [FENCE; FENCE +:+ "text"; FENCE +:+ "markdown"].

Definition ARCHIVE_MARKS : list string := ["permanent"; "durable"; "ephemeral"; "correction"].

(** The part [\S(?:.*\S)?] of the line pattern. *)
Definition is_fact (r : string) : bool :=
  nonempty r && String.eqb (strip r) r && negb (has_char LF r).

Definition archive_line (line : string) : bool :=
  existsb (fun mark => let p := "- [" +:+ mark +:+ "] " in
                       startswith p line && is_fact (sdrop (String.length p) line)) ARCHIVE_MARKS.

Definition content_lines (summary : string) : list string :=
  List.filter nonempty (map strip (splitlines summary)).

Definition unfence (lines : list string) : res (list string) :=
  match lines with
  | [] => raise EIndexError "list index out of range"
  | first :: _ =>
      if is_open_fence first then
        if negb (String.eqb (default "" (last lines)) FENCE) || (zlen lines <? 3)
        then value_error "checkpoint code fence must wrap the complete checkpoint"
        else Ok (slice 1 (-1) lines)
      else Ok lines
  end.

Definition validated_archive_summary (response : LLMResponse) : res string :=
  match rs_tool_calls response with
  | _ :: _ => value_error "checkpoint must not contain tool calls"
  | [] =>
      let summary := match rs_content response with
                     | Some c => if nonempty c then strip c else ""
                     | None => ""
                     end in
      if negb (nonempty summary) then value_error "checkpoint must not be empty" else
      lines <~ unfence (content_lines summary) ;;
      if bool_decide (lines = ["(nothing)"]) then Ok "(nothing)"
      else if existsb (fun line => negb (archive_line line)) lines
      then value_error "checkpoint lines must use '- [mark] fact' with a supported mark"
      else Ok (sjoin NL lines)
  end.

Definition archive_repair_request (request : LLMRequest) (validation_error : exn) : LLMRequest :=
  set_messages (rq_messages request ++ [fresh_obj (plain_message RSystem (CStr
    ("The previous checkpoint was rejected: " +:+ exn_msg validation_error
     +:+ ". Return only the checkpoint, with one '- [mark] fact' per line or exactly '(nothing)'; "
     +:+ "do not include explanations, headings, or prompt text.")))]) request.

(** ** Units and messages *)

(** The session items from [start] on, as objects. *)
Fixpoint number_objs (i : Z) (ms : list Message) : list Obj :=
  match ms with
  | [] => []
  | m :: ms' => MkObj (Some i) m :: number_objs (i + 1) ms'
  end.

Definition item_objs (x : SessionState) : list Obj := number_objs 0 (items x).

Definition live_units (x : SessionState) : list (ContextUnit Obj) :=
  project_context_units o_msg (slice_from (archived_item_cursor x) (item_objs x)) (archived_item_cursor x).

Definition is_visible (u : ContextUnit Obj) : bool := match u_messages u with [] => false | _ => true end.

Definition unit_messages (us : list (ContextUnit Obj)) : list Obj := flat_map u_messages us.

Definition archivable_units (keep : Z) (x : SessionState) : list (ContextUnit Obj) :=
  let units := live_units x in
  let visible := List.filter is_visible units in
  if zlen visible <=? keep then []
  else match index (- keep) visible with
       | Some u => List.filter (fun v => u_end v <=? u_start u) units
       | None => []
       end.

Section manager.
Context `{Env} `{Platform} `{Provider} `{FloatText}.

Definition make_context_manager (system_prompt consolidator_prompt : string) (config : ContextConfig)
    (media_root memory_section : option string) (jobs : option (list JobLine)) : res ContextManager :=
  let reserve := cfg_output_reserve_tokens config in
  if max_context_tokens <=? reserve
  then value_error "output_reserve_tokens must be less than the provider's max_context_tokens" else
  let hard_limit := max_context_tokens - reserve in
  if hard_limit <=? 1
  then value_error "max_context_tokens minus output_reserve_tokens must be greater than 1" else
  Ok (MkContextManager system_prompt consolidator_prompt memory_section jobs reserve
        (cfg_max_generation_tokens config) media_root
        (MkLimits hard_limit (cfg_enabled config)
           (compression_threshold_of max_context_tokens hard_limit (cfg_trigger_ratio config))
           (cfg_keep_recent_units config) (cfg_user_anchor_token_budget config))
        (count_input_tokens (MkRequest system_prompt [] [] None None)
         - count_input_tokens (MkRequest "" [] [] None None))).

Definition window (cm : ContextManager) (x : SessionState) (input_tokens : Z) : ContextWindow :=
  MkWindow input_tokens (cm_system_prompt_tokens cm) (hard_limit (cm_limits cm)) max_context_tokens
    (cm_output_reserve_tokens cm) (compression_threshold (cm_limits cm)) (compression_count x) (archived_summary x).

Definition token_fingerprint (request : LLMRequest) : string :=
  sha256_hex (dumps (sort_keys (JArr
    [token_counting_identity; JStr (rq_system_prompt request);
     JArr (map (fun t => JArr [JStr (td_name t); JStr (td_description t); td_parameters t]) (rq_tools request));
     JStr (default "None" (rq_media_root request))]))).

Definition measure_input_tokens (x : SessionState) (request : LLMRequest) : InputTokenEstimate :=
  let local := count_input_tokens request in
  let fingerprint := token_fingerprint request in
  let tokens := match input_token_anchor x with
                | Some a => if String.eqb (ita_fingerprint a) fingerprint
                            then Z.max 0 (ita_input_tokens a + local - ita_local_tokens a) else local
                | None => local
                end in
  MkEstimate fingerprint local tokens.

Definition stable_runtime_context_message (cm : ContextManager) (x : SessionState) : option Message :=
  let sections := ["[Runtime Context]"]
    ++ match cm_memory_section cm with Some t => [t] | None => [] end
    ++ match archived_summary x with
       | Some t => ["[Archived Context Summary]" +:+ NL +:+ t] | None => [] end in
  if zlen sections =? 1 then None else Some (plain_message RSystem (CStr (sjoin (NL +:+ NL) sections))).

Definition job_line (j : JobLine) : string :=
  jl_job_id j +:+ ": " +:+ sjoin " / "
    ([jl_kind j]
     ++ match jl_role j with Some r => if String.eqb (jl_kind j) "subagent" then [r] else [] | None => [] end
     ++ [jl_status j]).

Definition dynamic_runtime_context_message (cm : ContextManager) (x : SessionState) : option Message :=
  let sections :=
    match plan x with
    | Some p => if is_active p then ["[Current Plan]" +:+ NL +:+ dumps (plan_snapshot_to_dict p)] else []
    | None => []
    end
    ++ match cm_jobs cm with
       | Some (j :: js) => ["[Active Jobs]" +:+ NL +:+ sjoin NL (map job_line (j :: js))]
       | _ => []
       end in
  match sections with
  | [] => None
  | _ => Some (plain_message RSystem (CStr (sjoin (NL +:+ NL) sections)))
  end.

(** ** User anchors *)

(** [list.index]; [None] stands for [ValueError]. *)
Fixpoint index_of (k : string) (l : list string) : option nat :=
  match l with
  | [] => None
  | k' :: l' => if String.eqb k k' then Some 0%nat else S <$> index_of k l'
  end.

(** The turns up to the active one. *)
Definition visible_turn_ids (active : option string) (x : SessionState) : res (list string) :=
  let ids := dkeys (turns x) in
  match active with
  | None => Ok ids
  | Some t => match index_of t ids with
              | Some i => Ok (take (S i) ids)
              | None => value_error (t +:+ " is not in list")
              end
  end.

(** [by_turn[turn_id]] *)
Definition turn_anchors (x : SessionState) (turn_id : string) : list UserAnchor :=
  List.filter (fun a => String.eqb (ua_turn_id a) turn_id) (user_anchors x).

(** The loop over the earlier turns, latest first. *)
Fixpoint extend_anchors (cm : ContextManager) (x : SessionState) (active : option string)
    (selected : list UserAnchor) (earlier : list string) : list UserAnchor :=
  match earlier with
  | [] => selected
  | turn_id :: earlier' =>
      let candidate := turn_anchors x turn_id ++ selected in
      let content := match render_user_anchors candidate active with Some c => CStr c | None => CNone end in
      let request := MkRequest "" [fresh_obj (plain_message RUser content)] [] None (cm_media_root cm) in
      if user_anchor_token_budget (cm_limits cm) <? count_input_tokens request then selected
      else extend_anchors cm x active candidate earlier'
  end.

Definition selected_user_anchors (cm : ContextManager) (active : option string) (x : SessionState) :
    res (list UserAnchor) :=
  turn_ids <~ visible_turn_ids active x ;;
  Ok (extend_anchors cm x active (flat_map (turn_anchors x) (slice_from (-2) turn_ids))
        (rev (slice_to (-2) turn_ids))).

Definition archived_user_anchors (cm : ContextManager) (active : option string) (x : SessionState) :
    res (list UserAnchor) :=
  selected <~ selected_user_anchors cm active x ;;
  Ok (List.filter (fun a => ua_item_index a <? archived_item_cursor x) selected).

Definition in_turn (active : option string) (a : UserAnchor) : bool :=
  bool_decide (Some (ua_turn_id a) = active).

Definition historical_user_anchor_message (active : option string) (anchors : list UserAnchor) : option Message :=
  match render_user_anchors (List.filter (fun a => negb (in_turn active a)) anchors) active with
  | None => None
  | Some content => Some (plain_message RUser (CStr content))
  end.

(** A message with the turn context that precedes it. *)
Definition with_turn_context (o : Obj) : list Obj :=
  match turn_context_message (o_msg o) with Some c => [fresh_obj c; o] | None => [o] end.

Fixpoint pinned_current_turn_messages (active : option string) (x : SessionState) (anchors : list UserAnchor) :
    res (list Obj) :=
  match anchors with
  | [] => Ok []
  | a :: anchors' =>
      if negb (in_turn active a) then pinned_current_turn_messages active x anchors' else
      match index (ua_item_index a) (item_objs x) with
      | None => raise EIndexError "list index out of range"
      | Some o => rest <~ pinned_current_turn_messages active x anchors' ;; Ok (with_turn_context o ++ rest)
      end
  end.

Definition context_messages (x : SessionState) : list Obj :=
  flat_map (fun o => if is_user_authored (o_msg o) then with_turn_context o else [o])
    (unit_messages (live_units x)).

Definition option_obj (o : option Message) : list Obj := match o with Some m => [fresh_obj m] | None => [] end.

Definition build_request (cm : ContextManager) (active : option string) (x : SessionState)
    (tools : list ToolDefinition) : res LLMRequest :=
  archived_anchors <~ archived_user_anchors cm active x ;;
  pinned <~ pinned_current_turn_messages active x archived_anchors ;;
  Ok (MkRequest (cm_system_prompt cm)
        (option_obj (stable_runtime_context_message cm x)
         ++ option_obj (historical_user_anchor_message active archived_anchors)
         ++ pinned ++ context_messages x
         ++ option_obj (dynamic_runtime_context_message cm x))
        tools None (cm_media_root cm)).

(** ** Archiving *)

Definition should_archive (cm : ContextManager) (x : SessionState) (input_tokens : Z) : bool :=
  if negb (compression_enabled (cm_limits cm)) || (input_tokens <? compression_threshold (cm_limits cm))
  then false
  else match archivable_units (keep_recent_units (cm_limits cm)) x with [] => false | _ => true end.

Definition window_exceeded (cm : ContextManager) (input_tokens : Z) : exn :=
  Exn EContextWindowExceeded
    ("input context contains " +:+ pretty input_tokens +:+ " tokens, exceeding the maximum of "
     +:+ pretty (max_context_tokens - cm_output_reserve_tokens cm) +:+ " tokens ("
     +:+ pretty max_context_tokens +:+ " context tokens minus "
     +:+ pretty (cm_output_reserve_tokens cm) +:+ " reserved output tokens)").

(** The messages up to the first occurrence of an object. *)
Fixpoint prefix_upto (id : option Z) (ms : list Obj) : option (list Obj) :=
  match ms with
  | [] => None
  | o :: ms' => if bool_decide (o_id o = id) then Some [o] else cons o <$> prefix_upto id ms'
  end.

(** The attempts that remain; [previous] is the last validation error. *)
Fixpoint archive_attempts (cm : ContextManager) (on_call : AuxiliaryModelCall -> M Session unit)
    (request : LLMRequest) (attempt : nat) (previous : option exn) (remaining : nat) : M Session string :=
  match remaining with
  | O => fail (Exn EValueError
      ("context consolidator returned an invalid checkpoint after " +:+ pretty (S ARCHIVE_RETRY_COUNT)
       +:+ " attempts: " +:+ match previous with Some e => exn_msg e | None => "None" end))
  | S remaining' =>
      let attempt_request := match attempt, previous with
                             | S _, Some e => archive_repair_request request e
                             | _, _ => request
                             end in
      s <- get ;;
      let input_tokens := est_tokens (measure_input_tokens (st s) attempt_request) in
      if hard_limit (cm_limits cm) <? input_tokens then fail (window_exceeded cm input_tokens) else
      outcome <- tracked (fun call => auxiliary_model_completed call model_name None ;;; on_call call)
        "compression" None (Z.of_nat attempt + 1) attempt_request validated_archive_summary ;;
      match snd outcome with
      | Ok summary => ret summary
      | Err e =>
          if is_class EValueError e && match fst outcome with Some _ => true | None => false end
          then archive_attempts cm on_call request (S attempt) (Some e) remaining'
          else fail e
      end
  end.

Definition archive (cm : ContextManager) (request : LLMRequest) (on_call : AuxiliaryModelCall -> M Session unit) :
    M Session Z :=
  s <- get ;;
  match last (archivable_units (keep_recent_units (cm_limits cm)) (st s)) with
  | None => ret (archived_item_cursor (st s))
  | Some last_unit =>
      let units := archivable_units (keep_recent_units (cm_limits cm)) (st s) in
      match last (unit_messages units) with
      | None => fail (Exn EIndexError "list index out of range")
      | Some last_archived =>
          match prefix_upto (o_id last_archived) (rq_messages request) with
          | None => fail (Exn EValueError
              ("cannot compress context: the current archive boundary is missing from the supplied request; "
               +:+ "pass a fresh build_request() result from this ContextManager"))
          | Some prefix =>
              let request := with_generation_limit
                (set_messages (prefix ++ [fresh_obj (plain_message RUser (CStr (cm_consolidator_prompt cm)))]) request)
                (cm_max_generation_tokens cm) in
              summary <- archive_attempts cm on_call request 0 None (S ARCHIVE_RETRY_COUNT) ;;
              set_archived_summary summary (u_end last_unit) ;;;
              s <- get ;;
              ret (archived_item_cursor (st s))
          end
      end
  end.
End manager.
