(* ===== verification/ContextThms.v ===== *)
(** * Theorems on context building and compression

    Claims about agent_core/context_manager.py. *)

From stdpp Require Import base list strings pretty.
From Stdlib Require Import ZArith Lia Ascii.
From S2P Require Import Prelude PyData PyStr Json PyTime Content Plan Authority Message Session PyText.
From S2P Require Import SessionProps SessionState SessionThms Projection Llm ContextManager.

(** ** Rounding *)

Lemma round_half_even_bounds p k :
  0 <= p -> 0 < k -> p / 2 ^ k <= round_half_even p k <= p / 2 ^ k + 1 /\
  (p mod 2 ^ k = 0 -> round_half_even p k = p / 2 ^ k).
Proof.
  intros Hp Hk. unfold round_half_even. split; [destruct (_ || _); lia|].
  intros ->. assert (0 < 2 ^ (k - 1)) by (apply Z.pow_pos_nonneg; lia).
  rewrite (proj2 (Z.ltb_ge _ 0)) by lia. rewrite (proj2 (Z.eqb_neq 0 _)) by lia. done.
Qed.

(** Rounding never crosses a representable number. *)
Lemma round53_le p c j :
  0 < p -> 0 <= c < 2 ^ 53 -> 0 <= j -> p <= c * 2 ^ j -> round53 p <= c * 2 ^ j.
Proof.
  intros Hp Hc Hj Hle. unfold round53. destruct (Z.leb_spec (Z.log2 p - 52) 0) as [|Hk]; [done|].
  set (k := Z.log2 p - 52) in *. destruct (Z.log2_spec p Hp) as [Hlo _].
  assert (Hjk : k <= j).
  { destruct (Z.le_gt_cases k j); [done|exfalso].
    assert (c * 2 ^ j < 2 ^ 53 * 2 ^ j) by (apply Z.mul_lt_mono_pos_r; [apply Z.pow_pos_nonneg; lia|lia]).
    rewrite <-Z.pow_add_r in * by lia.
    assert (2 ^ (53 + j) <= 2 ^ Z.log2 p) by (apply Z.pow_le_mono_r; lia). lia. }
  replace j with (j - k + k) in * by lia. rewrite Z.pow_add_r, Z.mul_assoc in * by lia.
  set (M := c * 2 ^ (j - k)) in *. assert (0 < 2 ^ k) by (apply Z.pow_pos_nonneg; lia).
  apply Z.mul_le_mono_nonneg_r; [lia|].
  destruct (round_half_even_bounds p k) as [[_ Hu] He]; [lia|lia|].
  assert (Hq : p / 2 ^ k <= M) by (apply Z.div_le_upper_bound; lia).
  destruct (Z.eq_dec (p / 2 ^ k) M) as [HM|]; [|lia].
  rewrite He; [lia|]. pose proof (Z.div_mod p (2 ^ k)). pose proof (Z.mod_pos_bound p (2 ^ k)). nia.
Qed.

Lemma round53_small p : 0 < p < 2 ^ 53 -> round53 p = p.
Proof.
  intros Hp. unfold round53. assert (Z.log2 p < 53) by (apply Z.log2_lt_pow2; lia).
  by rewrite (proj2 (Z.leb_le _ 0)) by lia.
Qed.

(** The bit pattern of 1.0; positive floats are ordered as their patterns. *)
Definition FLOAT_ONE : Z := 4607182418800017408.

Lemma decode_below_one bits m e :
  0 < bits < FLOAT_ONE -> decode_float bits = (m, e) -> 0 < m < 2 ^ 53 /\ e < 0 /\ m <= 2 ^ (- e).
Proof.
  unfold FLOAT_ONE, decode_float. intros Hb.
  assert (Hx : 0 <= bits / 2 ^ 52 < 1023) by (change (2 ^ 52) with 4503599627370496; zdiv).
  rewrite (Z.mod_small (bits / 2 ^ 52) (2 ^ 11)) by lia.
  pose proof (Z.mod_pos_bound bits (2 ^ 52) ltac:(lia)) as Hf.
  destruct (Z.eqb_spec (bits / 2 ^ 52) 0) as [E|E]; intros [= <- <-].
  - assert (0 < bits mod 2 ^ 52) by (rewrite Z.mod_eq by lia; rewrite E; lia).
    split; [lia|]. split; [lia|]. transitivity (2 ^ 53); [lia|]. apply Z.pow_le_mono_r; lia.
  - split; [lia|]. split; [lia|]. transitivity (2 ^ 53); [lia|]. apply Z.pow_le_mono_r; lia.
Qed.

Lemma int_of_product_le n bits :
  0 < n < 2 ^ 53 -> 0 < bits < FLOAT_ONE -> 0 <= int_of_product n bits <= n.
Proof.
  intros Hn Hb. unfold int_of_product. destruct (decode_float bits) as [m e] eqn:E.
  destruct (decode_below_one _ _ _ Hb E) as (Hm & He & Hme).
  rewrite (proj2 (Z.leb_gt 0 e)) by lia. rewrite (round53_small n) by lia.
  assert (0 < 2 ^ (- e)) by (apply Z.pow_pos_nonneg; lia).
  split.
  - apply Z.div_pos; [|lia]. unfold round53, round_half_even. repeat case_match; try nia.
    + apply Z.mul_nonneg_nonneg; [|apply Z.pow_nonneg; lia].
      assert (0 <= n * m / 2 ^ (Z.log2 (n * m) - 52)) by (apply Z.div_pos; [nia|apply Z.pow_pos_nonneg; bsimp; lia]). lia.
    + apply Z.mul_nonneg_nonneg; [|apply Z.pow_nonneg; lia].
      apply Z.div_pos; [nia|apply Z.pow_pos_nonneg; bsimp; lia].
  - apply Z.div_le_upper_bound; [lia|]. rewrite (Z.mul_comm _ n).
    apply round53_le; [nia|lia|lia|]. apply Z.mul_le_mono_nonneg_l; lia.
Qed.

(** The compression threshold, computed in binary64 with rounding, lies
    between 1 and the hard limit for every configured ratio between 0 and 1 and
    for the built-in ratios, and never exceeds 256 Ki tokens by default on a
    large window: compression always triggers before the window is full. *)
Theorem threshold_within_window (max_tokens limit : Z) (ratio : option Z) :
  1 < limit < 2 ^ 53 -> (forall bits, ratio = Some bits -> 0 < bits < FLOAT_ONE) ->
  1 <= compression_threshold_of max_tokens limit ratio <= limit /\
  (ratio = None -> 32 * 1024 < max_tokens -> compression_threshold_of max_tokens limit ratio <= 256 * 1024).
Proof.
  intros Hl Hr. unfold compression_threshold_of. destruct ratio as [bits|].
  - pose proof (int_of_product_le limit bits ltac:(lia) (Hr _ eq_refl)). split; [lia|done].
  - pose proof (int_of_product_le limit RATIO_075 ltac:(lia) ltac:(by vm_compute)).
    pose proof (int_of_product_le limit RATIO_080 ltac:(lia) ltac:(by vm_compute)).
    destruct (Z.leb_spec max_tokens (32 * 1024)); split; lia.
Qed.

Lemma threshold_within_window_witness :
  1 <= compression_threshold_of 200000 190000 None <= 190000 /\
  compression_threshold_of 200000 190000 None = 152000.
Proof.
  split; [|by vm_compute].
  refine (proj1 (threshold_within_window 200000 190000 None _ _)); [lia|discriminate].
Defined.

(** ** Which units are archived *)

Lemma filter_lookup_split {A} (p : A -> bool) (l : list A) i u :
  List.filter p l !! i = Some u ->
  exists pre post, l = pre ++ u :: post /\ length (List.filter p pre) = i /\ p u = true.
Proof.
  revert i. induction l as [|x l IH]; intros i; simpl; [done|].
  destruct (p x) eqn:E.
  - destruct i as [|i]; simpl; [intros [= ->]; by exists [], l|].
    intros (pre & post & -> & Hl & Hu)%IH. exists (x :: pre), post. simpl. rewrite E. simpl. auto.
  - intros (pre & post & -> & Hl & Hu)%IH. exists (x :: pre), post. simpl. rewrite E. auto.
Qed.

Lemma tiles_app {A} a (us1 us2 : list (ContextUnit A)) b :
  tiles a (us1 ++ us2) b <-> tiles a us1 (units_end a us1) /\ tiles (units_end a us1) us2 b.
Proof.
  revert a. induction us1 as [|u us1 IH]; intros a; simpl; [unfold units_end; simpl; naive_solver|].
  rewrite units_end_cons, IH. naive_solver.
Qed.

Lemma tiles_le {A} a (us : list (ContextUnit A)) b : tiles a us b -> a <= b.
Proof. revert a. induction us as [|u us IH]; intros a; simpl; [lia|]. intros (Hs & ? & H). apply IH in H. lia. Qed.

Lemma tiles_in {A} a (us : list (ContextUnit A)) b u : tiles a us b -> u ∈ us -> a <= u_start u < u_end u /\ u_end u <= b.
Proof.
  revert a. induction us as [|v us IH]; intros a Ht Hu; [by apply not_elem_of_nil in Hu|].
  destruct Ht as (Hs & He & Ht). apply elem_of_cons in Hu as [->|Hu]; [apply tiles_le in Ht; lia|].
  destruct (IH _ Ht Hu). lia.
Qed.

(** The units that end before a given unit starts are those in front of it. *)
Lemma filter_before {A} a (pre : list (ContextUnit A)) u post b :
  tiles a (pre ++ u :: post) b ->
  List.filter (fun v => u_end v <=? u_start u) (pre ++ u :: post) = pre.
Proof.
  intros [Hpre Hpost]%tiles_app. simpl in Hpost. destruct Hpost as (Hs & He & Hpost).
  rewrite List.filter_app. cbn [List.filter]. rewrite (proj2 (Z.leb_gt _ _)) by lia.
  assert (H1 : forall l, (forall v, v ∈ l -> u_end v <= u_start u) ->
    List.filter (fun v : ContextUnit A => u_end v <=? u_start u) l = l).
  { induction l as [|v l IH]; intros Hl; simpl; [done|].
    rewrite (proj2 (Z.leb_le _ _)) by (apply Hl; by left). f_equal. apply IH. intros; apply Hl; by right. }
  assert (H2 : forall l, (forall v, v ∈ l -> u_start u < u_end v) ->
    List.filter (fun v : ContextUnit A => u_end v <=? u_start u) l = []).
  { induction l as [|v l IH]; intros Hl; simpl; [done|].
    rewrite (proj2 (Z.leb_gt _ _)) by (apply Hl; by left). apply IH. intros; apply Hl; by right. }
  rewrite H1, H2, app_nil_r; [done| |].
  - intros v Hv. destruct (tiles_in _ _ _ _ Hpost Hv). lia.
  - intros v Hv. destruct (tiles_in _ _ _ _ Hpre Hv). lia.
Qed.

Definition cursor_ok (x : SessionState) : Prop := 0 <= archived_item_cursor x <= zlen (items x).

Lemma live_units_tile x : tiles (archived_item_cursor x) (live_units x)
  (archived_item_cursor x + zlen (slice_from (archived_item_cursor x) (item_objs x))).
Proof. apply tiles_project. Qed.

(** The archivable units are the front of the live units; what stays behind
    starts with a visible unit and has exactly [keep] visible ones. *)
Lemma archivable_split keep x :
  1 <= keep -> archivable_units keep x <> [] ->
  exists u rest, live_units x = archivable_units keep x ++ u :: rest /\
    zlen (List.filter is_visible (u :: rest)) = keep /\ is_visible u = true /\
    exists v, v ∈ archivable_units keep x /\ is_visible v = true.
Proof.
  intros Hk. unfold archivable_units.
  destruct (Z.leb_spec (zlen (List.filter is_visible (live_units x))) keep) as [|Hlen]; [done|].
  unfold index, zlen in *. rewrite (proj2 (Z.ltb_lt (- keep) 0)) by lia.
  remember (- keep + Z.of_nat (length (List.filter is_visible (live_units x)))) as i eqn:Hi.
  rewrite (proj2 (Z.ltb_ge i 0)) by lia.
  destruct (List.filter is_visible (live_units x) !! Z.to_nat i) as [u|] eqn:E; [|done].
  destruct (filter_lookup_split _ _ _ _ E) as (pre & post & Hl & Hp & Hu).
  pose proof (live_units_tile x) as Ht. rewrite Hl in Ht |- *. rewrite (filter_before _ _ _ _ _ Ht).
  intros Hne. exists u, post. split; [done|]. split; [|split; [done|]].
  - rewrite Hl, List.filter_app, length_app in *. lia.
  - destruct (List.filter is_visible pre) as [|v vs] eqn:Ev; [simpl in Hp; lia|].
    exists v. assert (Hin : In v (List.filter is_visible pre)) by (rewrite Ev; by left).
    apply filter_In in Hin as [Hin Hv]. split; [by apply list_elem_of_In|done].
Qed.

(** ** Archiving *)

(** Nothing of the conversation or of its checkpoint differs. *)
Definition context_same (x y : SessionState) : Prop :=
  items y = items x /\ archived_summary y = archived_summary x /\
  archived_item_cursor y = archived_item_cursor x /\ compression_count y = compression_count x.

#[export] Instance context_same_preorder : PreOrder context_same.
Proof. split; [by intros x|]. unfold context_same. intros x y z. naive_solver congruence. Qed.

Lemma context_same_live x y : context_same x y -> live_units y = live_units x.
Proof. intros (Hi & _ & Hc & _). unfold live_units, item_objs. by rewrite Hi, Hc. Qed.

Lemma context_same_archivable keep x y : context_same x y -> archivable_units keep y = archivable_units keep x.
Proof. intros Hs. unfold archivable_units. by rewrite (context_same_live x y). Qed.

(** A line the archive accepts. *)
Definition checkpoint (summary : string) : Prop :=
  summary = "(nothing)" \/
  exists lines, lines <> [] /\ Forall (fun l => archive_line l = true) lines /\ summary = sjoin NL lines.

Lemma existsb_negb_false {A} (p : A -> bool) l : existsb (fun x => negb (p x)) l = false -> Forall (fun x => p x = true) l.
Proof. induction l as [|x l IH]; simpl; [constructor|]. intros; bsimp. constructor; auto. Qed.

Lemma unfence_nonnil lines lines' : unfence lines = Ok lines' -> lines' <> [].
Proof.
  unfold unfence. destruct lines as [|l0 lines]; [done|].
  destruct (is_open_fence l0); [|intros [= <-]; done].
  destruct (_ || _) eqn:E; [done|]. bsimp. intros [= <-].
  unfold zlen in *. simpl length in *. unfold slice, slice_bound, zlen. simpl length.
  destruct lines as [|l1 [|l2 lines]]; simpl length in *; [lia|lia|].
  rewrite (proj2 (Z.ltb_lt (-1) 0)) by lia. rewrite (proj2 (Z.ltb_ge 1 0)) by lia.
  replace (Z.max 0 (Z.min (Z.of_nat (S (S (S (length lines))))) 1)) with 1 by lia.
  change (drop (Z.to_nat 1) (l0 :: l1 :: l2 :: lines)) with (l1 :: l2 :: lines).
  destruct (Z.to_nat _) eqn:En; [lia|]. done.
Qed.

Lemma validated_checkpoint r summary : validated_archive_summary r = Ok summary -> checkpoint summary.
Proof.
  unfold validated_archive_summary. destruct (rs_tool_calls r); [|done].
  set (text := match rs_content r with Some c => if nonempty c then strip c else "" | None => "" end).
  destruct (negb (nonempty text)); [done|]. intros (lines & Hl & H)%res_bind_ok.
  destruct (bool_decide (lines = ["(nothing)"])); [injection H as <-; by left|].
  destruct (existsb _ lines) eqn:E; [done|]. injection H as <-. right. exists lines.
  split; [by eapply unfence_nonnil|]. split; [by apply existsb_negb_false|done].
Qed.

Section archive_thms.
Context `{Env} `{Platform} `{Provider} `{FloatText}.

Lemma compression_event_same turn payload usage s :
  jindex "usage" payload = Ok (usage_to_dict usage) ->
  context_same (st s) (st (fst (event_ "compression_completed" turn payload None s))).
Proof.
  intros Hu. rewrite event__state, event_cases. cbv zeta. destruct (if has_sink s then _ else _); [done|].
  unfold next_event, apply_event, type_in, name_in. simpl. unfold apply_model_completed, bind, lift, modify, ret.
  cbn [ev_event_type ev_payload]. simpl. rewrite Hu.
  destruct usage as [[[i1|] o t [c|] w]|]; simpl; unfold accepted; by destruct (has_sink s).
Qed.

Lemma auxiliary_compression_same call model turn s :
  aux_task call = "compression" -> context_same (st s) (st (fst (auxiliary_model_completed call model turn s))).
Proof.
  intros Ht. unfold auxiliary_model_completed, bind, get. rewrite Ht.
  apply (compression_event_same _ _ (aux_usage call)). done.
Qed.

(** A callback of the interface that leaves the conversation alone. *)
Definition quiet (on_call : AuxiliaryModelCall -> M Session unit) : Prop :=
  forall call s, context_same (st s) (st (fst (on_call call s))).

Lemma archive_attempts_same cm on_call request previous remaining : forall attempt s s' r,
  quiet on_call -> archive_attempts cm on_call request attempt previous remaining s = (s', r) ->
  context_same (st s) (st s') /\ (forall summary, r = Ok summary -> checkpoint summary).
Proof.
  revert previous. induction remaining as [|remaining IH]; intros previous attempt s s' r Hq Hr.
  - simpl in Hr. injection Hr as <- <-. split; [done|]. intros; discriminate.
  - cbn [archive_attempts] in Hr. unfold bind at 1, get in Hr.
    set (areq := match attempt, previous with S _, Some e => archive_repair_request request e | _, _ => request end) in *.
    destruct (_ <? _); [injection Hr as <- <-; split; [done|intros; discriminate]|].
    unfold bind at 1, tracked in Hr. unfold bind at 1, get, bind at 1, modify in Hr. cbv zeta in Hr.
    set (out := stream_cancellable (tick s) areq) in *.
    set (call := tracked_call _ _ _ _ _ _ _) in Hr. unfold catch in Hr.
    unfold bind at 1 in Hr. unfold bind at 1 in Hr.
    pose proof (auxiliary_compression_same call model_name None (advance 1 s) eq_refl) as Haux.
    destruct (auxiliary_model_completed call model_name None (advance 1 s)) as [s1 [u|e1]]; simpl fst in Haux.
    + pose proof (Hq call s1) as Hcall. destruct (on_call call s1) as [s2 [u2|e2]]; simpl fst in Hcall.
      * assert (Hs2 : context_same (st s) (st s2)) by (etransitivity; [exact Haux|exact Hcall]).
        unfold ret in Hr. cbn [fst snd] in Hr.
        destruct (r <~ out ;; validated_archive_summary r) as [summary|e] eqn:Eout.
        { injection Hr as <- <-. split; [done|]. intros ? [= <-].
          destruct out; simpl in Eout; [by eapply validated_checkpoint|done]. }
        destruct (_ && _); [|injection Hr as <- <-; split; [done|intros; discriminate]].
        destruct (IH _ _ _ _ _ Hq Hr) as [Hrest Hsum]. split; [by etransitivity|done].
      * assert (Hs2 : context_same (st s) (st s2)) by (etransitivity; [exact Haux|exact Hcall]).
        unfold ret in Hr. cbn [fst snd] in Hr.
        destruct (_ && _); [|injection Hr as <- <-; split; [done|intros; discriminate]].
        destruct (IH _ _ _ _ _ Hq Hr) as [Hrest Hsum]. split; [by etransitivity|done].
    + unfold ret in Hr. cbn [fst snd] in Hr.
      destruct (_ && _); [|injection Hr as <- <-; split; [exact Haux|intros; discriminate]].
      destruct (IH _ _ _ _ _ Hq Hr) as [Hrest Hsum]. split; [etransitivity; [exact Haux|done]|done].
Qed.

Lemma set_archived_summary_outcome summary cursor s s' r :
  set_archived_summary summary cursor s = (s', r) ->
  match r with
  | Err _ => st s' = st s
  | Ok _ => st s' = set_token_anchor None (set_archive (Some summary)
      (Z.max 0 (Z.min cursor (zlen (items (st s))))) (compression_count (st s) + 1) (st s))
  end.
Proof.
  unfold set_archived_summary, event_, bind, get. rewrite event_cases.
  destruct (if has_sink s then _ else _); [intros [= <- <-]; done|].
  cbv zeta. unfold next_event. cbn. intros [= <- <-]. unfold accepted. by destruct (has_sink s).
Qed.

Lemma length_number_objs i ms : length (number_objs i ms) = length ms.
Proof. revert i. induction ms as [|m ms IH]; intros i; simpl; [done|]. by rewrite IH. Qed.

Lemma live_units_bound x : cursor_ok x -> tiles (archived_item_cursor x) (live_units x) (zlen (items x)).
Proof.
  intros [Hlo Hhi]. pose proof (live_units_tile x) as Ht.
  replace (zlen (items x)) with
    (archived_item_cursor x + zlen (slice_from (archived_item_cursor x) (item_objs x))); [done|].
  replace (archived_item_cursor x) with (Z.of_nat (Z.to_nat (archived_item_cursor x))) by lia.
  rewrite slice_from_nat. unfold zlen, item_objs in *. rewrite length_drop, length_number_objs. lia.
Qed.

(** Moving the cursor to the end of a front of the live units leaves the rest. *)
Lemma live_units_cut x y us1 us2 :
  cursor_ok x -> live_units x = us1 ++ us2 -> items y = items x ->
  archived_item_cursor y = units_end (archived_item_cursor x) us1 -> live_units y = us2.
Proof.
  intros Hc0 Hl Hi Hc. pose proof (live_units_bound x Hc0) as Ht. destruct Hc0 as [Hlo _].
  rewrite Hl in Ht. apply tiles_app in Ht as [Ht _]. apply tiles_le in Ht.
  unfold live_units in Hl. apply projection_cut_stable in Hl. rewrite <-Hl.
  unfold live_units, item_objs. rewrite Hi, Hc. f_equal.
  remember (units_end (archived_item_cursor x) us1) as e. remember (archived_item_cursor x) as c.
  clear -Hlo Ht. replace e with (Z.of_nat (Z.to_nat c + Z.to_nat (e - c))) at 1 by lia.
  replace (e - c) with (Z.of_nat (Z.to_nat (e - c))) at 2 by lia.
  replace (slice_from c) with (@slice_from Obj (Z.of_nat (Z.to_nat c))) by (f_equal; lia).
  rewrite !slice_from_nat. by rewrite drop_drop.
Qed.

(** C17: archiving is atomic and exact.  When it succeeds, either there was
    nothing to archive, or the checkpoint is a validated one, the cursor moved to
    the end of the archivable units, the counter increased by one, no item
    changed and the live units are exactly the ones behind the boundary, which
    hold the configured number of visible units.  When it fails, items,
    checkpoint, cursor and counter are what they were. *)
Theorem archive_exact (cm : ContextManager) (request : LLMRequest) (on_call : AuxiliaryModelCall -> M Session unit)
    (s s' : Session) (r : res Z) :
  quiet on_call -> 1 <= keep_recent_units (cm_limits cm) -> cursor_ok (st s) ->
  archive cm request on_call s = (s', r) ->
  let units := archivable_units (keep_recent_units (cm_limits cm)) (st s) in
  match r with
  | Err _ => context_same (st s) (st s')
  | Ok cursor =>
      (units = [] /\ s' = s /\ cursor = archived_item_cursor (st s)) \/
      (exists rest summary, live_units (st s) = units ++ rest /\ live_units (st s') = rest /\
         zlen (List.filter is_visible rest) = keep_recent_units (cm_limits cm) /\
         items (st s') = items (st s) /\ cursor = archived_item_cursor (st s') /\
         archived_item_cursor (st s) < cursor <= zlen (items (st s)) /\
         compression_count (st s') = compression_count (st s) + 1 /\
         archived_summary (st s') = Some summary /\ checkpoint summary)
  end.
Proof.
  intros Hq Hk Hc Ha units. unfold archive, bind at 1, get in Ha. fold units in Ha.
  destruct (last units) as [lu|] eqn:Elast.
  2: { injection Ha as <- <-. left. by apply last_None in Elast. }
  destruct (last (unit_messages units)) as [la|]; [|by injection Ha as <- <-].
  destruct (prefix_upto _ _) as [prefix|]; [|by injection Ha as <- <-]. cbv zeta in Ha. unfold bind at 1 in Ha.
  destruct (archive_attempts _ _ _ _ _ _ s) as [s1 r1] eqn:Eatt.
  destruct (archive_attempts_same _ _ _ _ _ _ _ _ _ Hq Eatt) as [Hsame Hck].
  destruct r1 as [summary|e]; [|by injection Ha as <- <-]. unfold bind at 1 in Ha.
  destruct (set_archived_summary summary (u_end lu) s1) as [s2 r2] eqn:Eset.
  apply set_archived_summary_outcome in Eset. destruct r2 as [[]|e].
  2: { injection Ha as <- <-. by rewrite Eset. }
  unfold bind, ret in Ha. injection Ha as <- <-. right.
  assert (Hne : units <> []) by (intros ->; done).
  destruct (archivable_split _ _ Hk Hne) as (u & rest & Hl & Hkeep & _). fold units in Hl.
  pose proof (live_units_bound _ Hc) as Ht. rewrite Hl in Ht. apply tiles_app in Ht as [Hpre Hpost].
  assert (Hend : u_end lu = units_end (archived_item_cursor (st s)) units) by (unfold units_end; by rewrite Elast).
  destruct (tiles_in _ _ _ lu Hpre) as [Hlu Hlu']; [by apply last_Some_elem_of|]. apply tiles_le in Hpost.
  destruct Hsame as (Hi & _ & Hcur & Hcount).
  assert (Hclamp : Z.max 0 (Z.min (u_end lu) (zlen (items (st s1)))) = u_end lu)
    by (rewrite Hi; destruct Hc; lia).
  rewrite Hclamp in Eset. exists (u :: rest), summary. rewrite Eset. simpl.
  split_and!; [done| |done|done|done|lia|rewrite Hend; lia|by rewrite Hcount|done|by apply Hck].
  apply (live_units_cut (st s) _ units); [done|done|done|]. simpl. done.
Qed.

(** ** A fresh request always contains the archive boundary *)

Lemma prefix_upto_in (o : Obj) ms : o ∈ ms -> exists prefix, prefix_upto (o_id o) ms = Some prefix.
Proof.
  induction ms as [|o' ms IH]; intros Hin; [by apply not_elem_of_nil in Hin|]. simpl.
  destruct (decide (o_id o' = o_id o)) as [E|E]; [rewrite bool_decide_true by done; eauto|].
  rewrite bool_decide_false by done. apply elem_of_cons in Hin as [->|Hin]; [done|].
  destruct (IH Hin) as [prefix ->]. by eexists.
Qed.

Lemma last_in {A} (l : list A) x : last l = Some x -> x ∈ l.
Proof. apply last_Some_elem_of. Qed.

Lemma unit_messages_in (us : list (ContextUnit Obj)) o u : u ∈ us -> o ∈ u_messages u -> o ∈ unit_messages us.
Proof.
  intros Hu Ho. apply list_elem_of_In, in_flat_map. exists u. split; by apply list_elem_of_In.
Qed.

Lemma with_turn_context_in o : o ∈ with_turn_context o.
Proof. unfold with_turn_context. destruct (turn_context_message _); [right|]; left. Qed.

Lemma context_messages_in x o : o ∈ unit_messages (live_units x) -> o ∈ context_messages x.
Proof.
  intros Ho. apply list_elem_of_In, in_flat_map. exists o. split; [by apply list_elem_of_In|].
  apply list_elem_of_In. destruct (is_user_authored _); [apply with_turn_context_in|left].
Qed.

Lemma build_request_messages cm active x tools request :
  build_request cm active x tools = Ok request -> forall o, o ∈ context_messages x -> o ∈ rq_messages request.
Proof.
  intros (anchors & Ha & (pinned & Hp & Hr)%res_bind_ok)%res_bind_ok o Ho. injection Hr as <-. cbn [rq_messages].
  rewrite !elem_of_app. auto 6.
Qed.

Lemma fresh_boundary cm active x tools request keep :
  build_request cm active x tools = Ok request -> 1 <= keep -> archivable_units keep x <> [] ->
  exists o prefix, last (unit_messages (archivable_units keep x)) = Some o /\
    prefix_upto (o_id o) (rq_messages request) = Some prefix.
Proof.
  intros Hb Hk Hne. destruct (archivable_split keep x Hk Hne) as (u & rest & Hl & _ & _ & v & Hv & Hvis).
  destruct (last (unit_messages (archivable_units keep x))) as [o|] eqn:E.
  - exists o. destruct (prefix_upto_in o (rq_messages request)) as [prefix Hp]; [|by exists prefix].
    apply (build_request_messages _ _ _ _ _ Hb), context_messages_in. apply last_in in E.
    rewrite Hl. unfold unit_messages in *. rewrite flat_map_app. by apply elem_of_app; left.
  - exfalso. apply last_None in E. unfold is_visible in Hvis. destruct (u_messages v) as [|o os] eqn:Ev; [done|].
    assert (Ho : o ∈ unit_messages (archivable_units keep x)) by (eapply unit_messages_in; [done|rewrite Ev; left]).
    rewrite E in Ho. by apply not_elem_of_nil in Ho.
Qed.

End archive_thms.

(** ** A provider and a session for the witnesses *)

Definition demo_platform : Platform := {|
  local_offset _ := 0; sha256_hex t := t; elapsed_ms _ := 7;
|}.

Definition demo_provider : Provider := {|
  token_counting_identity := JStr "demo"; model_name := Some "demo"; max_context_tokens := 100;
  max_output_tokens := None; count_input_tokens q := Z.min 50 (zlen (rq_messages q));
  stream_cancellable _ _ := Ok (MkResponse (Some "- [durable] the user greets") None [] None []);
|}.

Definition demo_floats : FloatText := {| float_repr b := pretty b |}.

Definition demo_cm : ContextManager :=
  MkContextManager "You are an agent." "Summarise." None None 20 None None (MkLimits 80 true 60 1 2000) 4.

Definition reply : Message := plain_message RAssistant (CStr "hi").

Definition talk : Session :=
  MkSession "s-1" None
    (MkState [hello; reply; hello] None 0 0 ASK_FOR_APPROVAL None None None
       [("t1", MkTurn "t1" TCompleted (Some 1) (Some 2) None)] [] []
       [MkUserAnchor "t1" (CStr "hello") 5 SrcUserInput 0; MkUserAnchor "t1" (CStr "hello") 6 SrcUserInput 2])
    [] false None 4 [].

Definition talk_request : LLMRequest :=
  MkRequest "You are an agent." (@context_messages demo_platform (st talk)) [] None None.

Definition talk_archived : Session * res Z :=
  @archive demo_env demo_platform demo_provider demo_floats demo_cm talk_request (fun _ => ret tt) talk.

Lemma archive_exact_witness :
  exists summary, archived_summary (st (fst talk_archived)) = Some summary /\ checkpoint summary.
Proof.
  pose proof (@archive_exact demo_env demo_platform demo_provider demo_floats demo_cm talk_request (fun _ => ret tt)
    talk (fst talk_archived) (snd talk_archived) (fun _ _ => reflexivity _) ltac:(done) ltac:(by vm_compute)
    (surjective_pairing talk_archived)) as Hex.
  assert (Hr : snd talk_archived = Ok 2) by (vm_compute; reflexivity).
  rewrite Hr in Hex. destruct Hex as [[Hn _]|(rest & summary & _ & _ & _ & _ & _ & _ & _ & Hs & Hc)].
  - exfalso. revert Hn. vm_compute. discriminate.
  - exists summary. split; [exact Hs|exact Hc].
Defined.


(** ** User anchors *)

Lemma sjoin_contains sep l w : w ∈ l -> exists pre post, sjoin sep l = pre +:+ w +:+ post.
Proof.
  induction l as [|v l IH]; intros Hw; [by apply not_elem_of_nil in Hw|].
  apply elem_of_cons in Hw as [->|Hw].
  - exists "". destruct l as [|v' l]; [exists ""; simpl; by rewrite sapp_nil_r|].
    rewrite sjoin_cons by done. by eexists.
  - destruct (IH Hw) as (pre & post & Hp).
    destruct l as [|v' l]; [by apply not_elem_of_nil in Hw|]. rewrite sjoin_cons by done.
    exists (v +:+ sep +:+ pre), post. by rewrite Hp, !sapp_assoc.
Qed.

Section anchors.
Context `{Env} `{Platform} `{Provider} `{FloatText}.

Lemma extend_anchors_keeps cm x active selected earlier a :
  a ∈ selected -> a ∈ extend_anchors cm x active selected earlier.
Proof.
  revert selected. induction earlier as [|t earlier IH]; intros selected Ha; simpl; [done|].
  destruct (_ <? _); [done|]. apply IH. by apply elem_of_app; right.
Qed.

Lemma recent_anchor_selected cm active x ids sel a :
  visible_turn_ids active x = Ok ids -> selected_user_anchors cm active x = Ok sel ->
  a ∈ user_anchors x -> ua_turn_id a ∈ slice_from (-2) ids -> a ∈ sel.
Proof.
  unfold selected_user_anchors. intros -> [= <-] Ha Ht. apply extend_anchors_keeps.
  apply list_elem_of_In, in_flat_map. exists (ua_turn_id a). split; [by apply list_elem_of_In|].
  apply filter_In. split; [by apply list_elem_of_In|apply String.eqb_refl].
Qed.

Lemma pinned_contains active x anchors pinned a :
  pinned_current_turn_messages active x anchors = Ok pinned -> a ∈ anchors -> in_turn active a = true ->
  exists o, index (ua_item_index a) (item_objs x) = Some o /\ o ∈ pinned.
Proof.
  revert pinned. induction anchors as [|b anchors IH]; intros pinned Hp Ha Ht; [by apply not_elem_of_nil in Ha|].
  cbn [pinned_current_turn_messages] in Hp.
  apply elem_of_cons in Ha as [<-|Ha].
  - rewrite Ht in Hp. cbn [negb] in Hp. destruct (index _ _) as [o|]; [|done]. inv_ok.
    exists o. split; [done|]. apply elem_of_app; left. apply with_turn_context_in.
  - destruct (negb _); [by apply IH|]. destruct (index (ua_item_index b) _) as [o'|]; [|done].
    apply res_bind_ok in Hp as (more & Hmore & Hp). injection Hp as <-.
    destruct (IH _ Hmore Ha Ht) as (o & Ho & Hin). exists o. split; [done|]. by apply elem_of_app; right.
Qed.

(** User input of the two latest turns survives compression losslessly:
    once its item is behind the archive cursor, the next request holds the very
    item when it belongs to the running turn, and otherwise a message whose text
    contains the complete rendering of the input. *)
Theorem anchors_survive_archiving (cm : ContextManager) (active : option string) (x : SessionState)
    (tools : list ToolDefinition) (request : LLMRequest) (ids : list string) (a : UserAnchor) :
  build_request cm active x tools = Ok request -> visible_turn_ids active x = Ok ids ->
  a ∈ user_anchors x -> ua_turn_id a ∈ slice_from (-2) ids -> ua_item_index a < archived_item_cursor x ->
  if in_turn active a
  then exists o, index (ua_item_index a) (item_objs x) = Some o /\ o ∈ rq_messages request
  else forall section, anchor_section active a = [section] ->
       exists text pre post, fresh_obj (plain_message RUser (CStr text)) ∈ rq_messages request /\
         text = pre +:+ section +:+ post.
Proof.
  intros (anchors & Ha & (pinned & Hp & Hr)%res_bind_ok)%res_bind_ok Hids Hin Ht Hlt. injection Hr as <-.
  cbn [rq_messages]. apply res_bind_ok in Ha as (sel & Hsel & Ha). injection Ha as <-.
  pose proof (recent_anchor_selected _ _ _ _ _ _ Hids Hsel Hin Ht) as Hs.
  assert (Harch : a ∈ List.filter (fun a => ua_item_index a <? archived_item_cursor x) sel).
  { apply list_elem_of_In, filter_In. split; [by apply list_elem_of_In|by apply Z.ltb_lt]. }
  destruct (in_turn active a) eqn:Et.
  - destruct (pinned_contains _ _ _ _ _ Hp Harch Et) as (o & Ho & Hpin). exists o. split; [done|].
    rewrite !elem_of_app. auto.
  - intros section Hsec. unfold historical_user_anchor_message.
    set (hist := List.filter (fun a => negb (in_turn active a)) _).
    assert (Hh : a ∈ hist).
    { apply list_elem_of_In, filter_In. split; [by apply list_elem_of_In|by rewrite Et]. }
    unfold render_user_anchors. destruct hist as [|h0 hist'] eqn:Eh; [by apply not_elem_of_nil in Hh|].
    rewrite <-Eh in Hh |- *. clear Eh. cbv zeta.
    match goal with |- context [sjoin ?sep ?l] => destruct (sjoin_contains sep l section) as (pre & post & Hj) end.
    { right. right. apply list_elem_of_In, in_flat_map. exists a. split; [by apply list_elem_of_In|].
      rewrite Hsec. by left. }
    eexists _, pre, post. split; [|exact Hj]. rewrite !elem_of_app. right. left. left.
Qed.
End anchors.

(** The greeting of the previous turn, after both its items were archived. *)
Definition archived_talk : SessionState :=
  MkState [hello; reply; hello] (Some "(nothing)") 2 1 ASK_FOR_APPROVAL None None None
    [("t1", MkTurn "t1" TCompleted (Some 1) (Some 2) None); ("t2", MkTurn "t2" TRunning (Some 3) None None)] [] []
    [MkUserAnchor "t1" (CStr "hello") 5 SrcUserInput 0; MkUserAnchor "t2" (CStr "hello") 6 SrcUserInput 2].

Definition archived_request : LLMRequest :=
  match @build_request demo_platform demo_provider demo_floats demo_cm (Some "t2") archived_talk [] with
  | Ok r => r
  | Err _ => MkRequest "" [] [] None None
  end.

Lemma anchors_survive_archiving_witness :
  exists text pre post, fresh_obj (plain_message RUser (CStr text)) ∈ rq_messages archived_request /\
    text = pre +:+ ("USER INPUT 0001-01-01T00:00:00+00:00 (historical turn, user_input, turn_id=t1)" +:+ NL +:+ "hello") +:+ post.
Proof.
  refine (@anchors_survive_archiving demo_platform demo_provider demo_floats demo_cm (Some "t2") archived_talk []
    archived_request ["t1"; "t2"] (MkUserAnchor "t1" (CStr "hello") 5 SrcUserInput 0) _ _ _ _ _ _ _).
  - vm_compute. reflexivity.
  - reflexivity.
  - left.
  - left.
  - reflexivity.
  - vm_compute. reflexivity.
Defined.
