(* ===== verification/TurnControl.v ===== *)
(** * Turn control: agent_core/turn_control.py

    The mailbox of user steering and the control of one turn.  Every method of
    the source holds the lock of its object, so a method is one atomic step and
    the interleaving of several threads is a sequence of steps ([run_ops]).
    [_received] is a set in the source; here it is the list of the accepted ids
    in order of arrival, read only through membership. *)

From stdpp Require Import base list strings.
From Stdlib Require Import ZArith Lia.
From S2P Require Import Prelude PyData PyStr Json Content Authority.

Record UserSteer := MkSteer { steer_id : string; steer_text : string }.

#[export] Instance UserSteer_eq_dec : EqDecision UserSteer.
Proof. solve_decision. Defined.

(** ** UserSteeringMailbox *)

Record Mailbox := MkMailbox {
  mb_items : list UserSteer;
  mb_received : list string;
  mb_accepting : bool;
}.

Definition new_mailbox : Mailbox := MkMailbox [] [] true.

Definition submit (steer : UserSteer) (mb : Mailbox) : Mailbox * bool :=
  if negb (mb_accepting mb) then (mb, false)
  else if name_in (steer_id steer) (mb_received mb) then (mb, true)
  else (MkMailbox (mb_items mb ++ [steer]) (mb_received mb ++ [steer_id steer]) (mb_accepting mb), true).

Definition drain (mb : Mailbox) : Mailbox * list UserSteer :=
  (MkMailbox [] (mb_received mb) (mb_accepting mb), mb_items mb).

Definition drain_or_close (mb : Mailbox) : Mailbox * list UserSteer :=
  match mb_items mb with
  | [] => (MkMailbox (mb_items mb) (mb_received mb) false, [])
  | items => (MkMailbox [] (mb_received mb) (mb_accepting mb), items)
  end.

Definition close (mb : Mailbox) : Mailbox := MkMailbox [] (mb_received mb) false.

(** ** TurnControl

    [c_external] is what the external cancellation callback answers now. *)

Record Control := MkControl {
  c_steering : Mailbox;
  c_cancelled : bool;
  c_finished : bool;
  c_external : bool;
}.

Definition new_control (external : bool) : Control := MkControl new_mailbox false false external.

Definition set_steering (mb : Mailbox) (c : Control) : Control :=
  MkControl mb (c_cancelled c) (c_finished c) (c_external c).

Definition steer (id text : string) (c : Control) : Control * bool :=
  if c_cancelled c || c_finished c then (c, false)
  else let '(mb, b) := submit (MkSteer id text) (c_steering c) in (set_steering mb c, b).

Definition drain_steering (c : Control) : Control * list UserSteer :=
  if c_cancelled c || c_finished c then (c, [])
  else let '(mb, steers) := drain (c_steering c) in (set_steering mb c, steers).

Definition finish (c : Control) : Control * list UserSteer :=
  if c_cancelled c || c_finished c then (c, [])
  else let '(mb, steers) := drain_or_close (c_steering c) in
       (MkControl mb (c_cancelled c)
          (match steers with [] => true | _ => c_finished c end) (c_external c), steers).

Definition cancel (c : Control) : Control * bool :=
  if c_finished c || c_cancelled c then (c, false)
  else (MkControl (close (c_steering c)) true (c_finished c) (c_external c), true).

Definition is_cancelled (c : Control) : bool := c_cancelled c || c_external c.

(** ** Interleavings *)

Inductive ControlOp :=
| OpSteer (id text : string)
| OpDrain
| OpFinish
| OpCancel
| OpExternal.

(** One step: the new state, the steers the caller receives and the steers
    that were newly accepted. *)
Definition run_op (op : ControlOp) (c : Control) : Control * list UserSteer * list UserSteer :=
  match op with
  | OpSteer id text =>
      let '(c', ok) := steer id text c in
      (c', [], if ok && negb (name_in id (mb_received (c_steering c))) then [MkSteer id text] else [])
  | OpDrain => let '(c', steers) := drain_steering c in (c', steers, [])
  | OpFinish => let '(c', steers) := finish c in (c', steers, [])
  | OpCancel => (fst (cancel c), [], [])
  | OpExternal => (MkControl (c_steering c) (c_cancelled c) (c_finished c) true, [], [])
  end.

(** A sequence of steps: the final state, everything delivered and everything accepted. *)
Fixpoint run_ops (ops : list ControlOp) (c : Control) : Control * list UserSteer * list UserSteer :=
  match ops with
  | [] => (c, [], [])
  | op :: ops' =>
      let '(c1, d1, a1) := run_op op c in
      let '(c2, d2, a2) := run_ops ops' c1 in
      (c2, d1 ++ d2, a1 ++ a2)
  end.

(** The invariant of a control between two steps. *)
Record control_wf (c : Control) : Prop := {
  wf_exclusive : c_cancelled c && c_finished c = false;
  wf_accepting : mb_accepting (c_steering c) = negb (c_cancelled c || c_finished c);
  wf_closed : c_cancelled c || c_finished c = true -> mb_items (c_steering c) = [];
  wf_received : NoDup (mb_received (c_steering c));
}.

Lemma new_control_wf b : control_wf (new_control b).
Proof. by split; try constructor. Qed.

Lemma name_in_spec id l : name_in id l = true <-> id ∈ l.
Proof.
  unfold name_in. rewrite existsb_exists. split.
  - intros (x & Hx & E). bsimp. subst. by apply list_elem_of_In.
  - intros Hx. exists id. split; [by apply list_elem_of_In|apply String.eqb_refl].
Qed.

Lemma name_in_false id l : name_in id l = false <-> id ∉ l.
Proof. rewrite <-name_in_spec. by destruct (name_in id l). Qed.

(** What one step does to the books: pending steers and newly accepted ones are
    delivered in order, stay pending, or are dropped by a cancellation; the
    accepted ids are recorded. *)
Lemma run_op_spec op c c' d a :
  control_wf c -> run_op op c = (c', d, a) ->
  control_wf c' /\
  mb_received (c_steering c') = mb_received (c_steering c) ++ map steer_id a /\
  (c_cancelled c' = false -> mb_items (c_steering c) ++ a = d ++ mb_items (c_steering c')) /\
  (c_cancelled c' = true -> d ++ a = []) /\
  (c_cancelled c || c_finished c = true -> d ++ a = [] /\
     c_cancelled c' = c_cancelled c /\ c_finished c' = c_finished c /\ c_steering c' = c_steering c).
Proof.
  intros Hw. pose proof Hw as [Hx Ha Hc Hr]. destruct c as [[its rcv acc] can fin ext]; simpl in *.
  destruct op as [id text| | | |]; simpl.
  - unfold steer, submit; simpl. destruct (can || fin) eqn:Ecf; simpl.
    + intros [= <- <- <-]. simpl. rewrite app_nil_r. split; [done|]. by rewrite (Hc eq_refl).
    + apply orb_false_iff in Ecf as [-> ->]. subst acc. simpl.
      destruct (name_in id rcv) eqn:Ei; simpl; intros [= <- <- <-]; simpl; rewrite ?app_nil_r; split_and!; try done.
      split; simpl; try done. apply NoDup_app. split; [done|]. split; [|apply NoDup_singleton].
      intros y Hy ->%list_elem_of_singleton. by apply name_in_false in Ei.
  - unfold drain_steering, drain; simpl. destruct (can || fin) eqn:Ecf; intros [= <- <- <-]; simpl; rewrite ?app_nil_r.
    + split; [done|]. by rewrite (Hc eq_refl).
    + apply orb_false_iff in Ecf as [-> ->]. by split_and!; try split.
  - unfold finish, drain_or_close; simpl. destruct (can || fin) eqn:Ecf; simpl.
    + intros [= <- <- <-]. simpl. rewrite app_nil_r. split; [done|]. by rewrite (Hc eq_refl).
    + apply orb_false_iff in Ecf as [-> ->]. destruct its as [|i its]; intros [= <- <- <-]; simpl; rewrite ?app_nil_r;
        by split_and!; try split.
  - unfold cancel; simpl. rewrite orb_comm. destruct (can || fin) eqn:Ecf; simpl; intros [= <- <- <-]; simpl;
      rewrite ?app_nil_r.
    + split; [done|]. by rewrite (Hc eq_refl).
    + apply orb_false_iff in Ecf as [-> ->]. by split_and!; try split.
  - intros [= <- <- <-]. simpl. rewrite ?app_nil_r. split; [by split|]. split_and!; auto.
Qed.

Lemma run_ops_spec ops : forall c c' d a,
  control_wf c -> run_ops ops c = (c', d, a) ->
  control_wf c' /\
  mb_received (c_steering c') = mb_received (c_steering c) ++ map steer_id a /\
  (c_cancelled c' = false -> mb_items (c_steering c) ++ a = d ++ mb_items (c_steering c')) /\
  d `prefix_of` mb_items (c_steering c) ++ a /\
  (c_cancelled c || c_finished c = true -> d ++ a = [] /\
     c_cancelled c' = c_cancelled c /\ c_finished c' = c_finished c).
Proof.
  induction ops as [|op ops IH]; intros c c' d a Hw Hrun; simpl in Hrun.
  - injection Hrun as <- <- <-. simpl. rewrite !app_nil_r. split_and!; try done. by apply prefix_nil.
  - destruct (run_op op c) as [[c1 d1] a1] eqn:E1. destruct (run_ops ops c1) as [[c2 d2] a2] eqn:E2.
    injection Hrun as <- <- <-.
    destruct (run_op_spec _ _ _ _ _ Hw E1) as (Hw1 & Hr1 & Hn1 & Hc1 & Ht1).
    destruct (IH _ _ _ _ Hw1 E2) as (Hw2 & Hr2 & Hn2 & Hp2 & Ht2).
    split; [done|]. split; [by rewrite Hr2, Hr1, map_app, app_assoc|].
    assert (Hstay : c_cancelled c1 = true -> d2 ++ a2 = [] /\ c_cancelled c2 = true).
    { intros E. rewrite E in Ht2. by destruct (Ht2 eq_refl) as (? & ? & _). }
    split_and!.
    + intros Hc. destruct (c_cancelled c1) eqn:Ec1; [by destruct (Hstay eq_refl); congruence|].
      specialize (Hn1 eq_refl). specialize (Hn2 Hc). by rewrite app_assoc, Hn1, <-!app_assoc, Hn2.
    + destruct (c_cancelled c1) eqn:Ec1.
      * specialize (Hc1 eq_refl). apply app_nil in Hc1 as [-> ->].
        destruct (Hstay eq_refl) as [[-> ->]%app_nil _]. apply prefix_nil.
      * specialize (Hn1 eq_refl). rewrite app_assoc, Hn1, <-app_assoc. by apply prefix_app.
    + intros Hcf. destruct (Ht1 Hcf) as ([-> ->]%app_nil & Ec & Ef & _).
      rewrite Ec, Ef in Ht2. destruct (Ht2 Hcf) as ([-> ->]%app_nil & ? & ?). done.
Qed.

(** Steering is delivered exactly once and in order, however steering,
    draining, finishing and cancelling interleave: every message delivered was
    accepted, in the order of acceptance and without repetition of an id; a turn
    that was not cancelled has delivered everything accepted except what is
    still pending, and a finished turn has delivered all of it; finished and
    cancelled exclude each other, and both refuse all later steering. *)
Theorem steering_exactly_once (ops : list ControlOp) (external : bool) (c : Control) (delivered accepted : list UserSteer) :
  run_ops ops (new_control external) = (c, delivered, accepted) ->
  delivered `prefix_of` accepted /\ NoDup (map steer_id accepted) /\
  (c_cancelled c = false -> accepted = delivered ++ mb_items (c_steering c)) /\
  (c_finished c = true -> c_cancelled c = false /\ accepted = delivered) /\
  (c_cancelled c || c_finished c = true -> forall id text, steer id text c = (c, false)).
Proof.
  intros Hrun. destruct (run_ops_spec _ _ _ _ _ (new_control_wf external) Hrun) as (Hw & Hr & Hn & Hp & _).
  simpl in *. destruct Hw as [Hx Ha Hc Hd]. split; [done|]. split; [by rewrite <-Hr|]. split; [done|]. split.
  - intros Hf. assert (Hcan : c_cancelled c = false) by (rewrite Hf in Hx; by destruct (c_cancelled c)).
    split; [done|]. rewrite (Hn Hcan), Hc, app_nil_r; [done|]. by rewrite Hf, orb_true_r.
  - intros Hcf id text. unfold steer. by rewrite Hcf.
Qed.

Lemma steering_exactly_once_witness :
  run_ops [OpSteer "1" "a"; OpSteer "1" "a"; OpDrain; OpSteer "2" "b"; OpFinish; OpFinish; OpSteer "3" "c"; OpCancel]
    (new_control false)
  = (MkControl (MkMailbox [] ["1"; "2"] false) false true false, [MkSteer "1" "a"; MkSteer "2" "b"],
     [MkSteer "1" "a"; MkSteer "2" "b"]) /\
  [MkSteer "1" "a"; MkSteer "2" "b"] `prefix_of` [MkSteer "1" "a"; MkSteer "2" "b"].
Proof.
  split; [reflexivity|].
  apply (steering_exactly_once
    [OpSteer "1" "a"; OpSteer "1" "a"; OpDrain; OpSteer "2" "b"; OpFinish; OpFinish; OpSteer "3" "c"; OpCancel] false
    (MkControl (MkMailbox [] ["1"; "2"] false) false true false)). reflexivity.
Defined.
