(* ===== verification/LoopPolicy.v ===== *)
(** * Continuation and repetition rules: agent_core/loop_policy.py

    The repetition guard, and the continuation policy as actions on a
    [TurnState]: the control, the guard, the rest of the agent [W], and the
    arrivals, the operations other threads perform on the control before each
    of its next accesses.  [ts_appended] records the steers handed to
    [append_steers]. *)

From stdpp Require Import base list strings pretty.
From Stdlib Require Import ZArith Lia.
From S2P Require Import Prelude PyData PyStr Json Content Authority PyText TurnControl.

(** ** ToolCallRepetitionGuard *)

Definition CallKey : Type := string * string.

Record Guard := MkGuard {
  g_limit : Z;
  g_previous : option CallKey;
  g_count : Z;
}.

Definition reset (g : Guard) : Guard := MkGuard (g_limit g) None 0.

Section repetition.
Context `{FloatText}.

Definition call_key (call : ToolCall) : CallKey :=
  (tc_name call, dumps_with "," ":" (sort_keys (args_to_json (tc_arguments call)))).

Definition limit_exceeded (name : string) (limit : Z) : exn :=
  Exn EToolCallLimitExceeded
    ("tool call '" +:+ name +:+ "' exceeded the maximum of " +:+ pretty limit
     +:+ " identical consecutive executions").

(** The loop of [check]: the last key and its count. *)
Fixpoint check_loop (limit : Z) (previous : option CallKey) (count : Z) (calls : list ToolCall) :
    res (option CallKey * Z) :=
  match calls with
  | [] => Ok (previous, count)
  | call :: calls' =>
      let key := call_key call in
      let count := if bool_decide (Some key = previous) then count + 1 else 1 in
      if limit <? count then Err (limit_exceeded (tc_name call) limit)
      else check_loop limit (Some key) count calls'
  end.

Definition check (calls : list ToolCall) : M Guard unit := fun g =>
  match check_loop (g_limit g) (g_previous g) (g_count g) calls with
  | Ok (previous, count) => (MkGuard (g_limit g) previous count, Ok tt)
  | Err e => (g, Err e)
  end.
End repetition.

(** *** The guard against its reference: runs of equal keys *)

(** Length of the run of [k] at the head of a list. *)
Fixpoint head_run (k : CallKey) (l : list CallKey) : Z :=
  match l with
  | [] => 0
  | k' :: l' => if bool_decide (k = k') then 1 + head_run k l' else 0
  end.

(** No key occurs more than [n] times in a row; the list is latest first. *)
Fixpoint runs_within (n : Z) (l : list CallKey) : Prop :=
  match l with
  | [] => True
  | k :: l' => head_run k l <= n /\ runs_within n l'
  end.

(** The guard has seen exactly [l] since its last reset, latest first. *)
Definition guard_saw (g : Guard) (l : list CallKey) : Prop :=
  g_previous g = head l /\ g_count g = match l with [] => 0 | k :: _ => head_run k l end /\ runs_within (g_limit g) l.

Section guard_props.
Context `{FloatText}.

Lemma check_loop_spec limit calls : forall l previous count,
  previous = head l -> count = match l with [] => 0 | k :: _ => head_run k l end -> runs_within limit l ->
  match check_loop limit previous count calls with
  | Ok (previous', count') =>
      let l' := rev (map call_key calls) ++ l in
      previous' = head l' /\ count' = match l' with [] => 0 | k :: _ => head_run k l' end /\ runs_within limit l'
  | Err e => exn_class e = EToolCallLimitExceeded /\ ~ runs_within limit (rev (map call_key calls) ++ l)
  end.
Proof.
  induction calls as [|call calls IH]; intros l previous count Hp Hc Hr; simpl; [done|].
  set (k := call_key call).
  assert (Hcount : (if bool_decide (Some k = previous) then count + 1 else 1) = head_run k (k :: l)).
  { simpl. rewrite (bool_decide_true (k = k)) by done. subst previous count.
    destruct l as [|k' l]; [done|]; simpl.
    destruct (decide (k = k')) as [<-|Hne].
    - rewrite !bool_decide_true by done. lia.
    - rewrite (bool_decide_false (k = k')) by done. rewrite bool_decide_false by congruence. lia. }
  rewrite Hcount. rewrite <-app_assoc. simpl app.
  destruct (Z.ltb_spec limit (head_run k (k :: l))) as [Hlt|Hle].
  - split; [done|]. intros Hall. clear -Hall Hlt.
    induction (rev (map call_key calls)) as [|x xs IHx]; simpl in Hall; [simpl in Hlt; lia|]. by apply IHx; destruct Hall.
  - apply IH; [done|done|]. split; done.
Qed.

(** The repetition guard refuses a batch exactly when it would make some
    call, identified by name and canonical arguments, run more than [limit]
    times in a row since the last reset, counting across batches; a refused
    batch leaves the guard as it was, an accepted one is remembered in full. *)
Theorem guard_counts_runs (g : Guard) (seen : list CallKey) (calls : list ToolCall) :
  guard_saw g seen ->
  let seen' := rev (map call_key calls) ++ seen in
  match check calls g with
  | (g', Ok _) => guard_saw g' seen' /\ g_limit g' = g_limit g
  | (g', Err e) => g' = g /\ exn_class e = EToolCallLimitExceeded /\ ~ runs_within (g_limit g) seen'
  end.
Proof.
  intros (Hp & Hc & Hr). unfold check. pose proof (check_loop_spec (g_limit g) calls seen _ _ Hp Hc Hr) as H0.
  destruct (check_loop _ _ _ _) as [[p c]|e]; [|done]. by destruct H0 as (? & ? & ?).
Qed.
End guard_props.

Definition text_floats : FloatText := {| float_repr b := pretty b |}.
Definition list_call (path : string) : ToolCall :=
  MkToolCall "c" "list_files" (ArgsDict [("path", JStr path); ("depth", JInt 1)]) None.
Definition list_call' : ToolCall :=
  MkToolCall "d" "list_files" (ArgsDict [("depth", JInt 1); ("path", JStr ".")]) None.

Lemma guard_counts_runs_witness :
  fst (@check text_floats [list_call "."; list_call'; list_call "."] (MkGuard 2 None 0)) = MkGuard 2 None 0 /\
  ~ runs_within 2 (rev (map (@call_key text_floats) [list_call "."; list_call'; list_call "."])).
Proof.
  pose proof (@guard_counts_runs text_floats (MkGuard 2 None 0) []
    [list_call "."; list_call'; list_call "."] (conj eq_refl (conj eq_refl I))) as Hc.
  assert (Hcheck : @check text_floats [list_call "."; list_call'; list_call "."] (MkGuard 2 None 0)
    = (MkGuard 2 None 0, Err (limit_exceeded "list_files" 2))) by (vm_compute; reflexivity).
  cbv zeta in Hc. rewrite Hcheck in Hc |- *. destruct Hc as (_ & _ & Hc). rewrite app_nil_r in Hc.
  split; [reflexivity|exact Hc].
Defined.

(** ** TurnContinuationPolicy *)

(** What other threads do to the control of a turn. *)
Inductive Arrival :=
| ArriveSteer (id text : string)
| ArriveCancel
| ArriveExternal.

Definition arrival_op (a : Arrival) : ControlOp :=
  match a with
  | ArriveSteer id text => OpSteer id text
  | ArriveCancel => OpCancel
  | ArriveExternal => OpExternal
  end.

Definition arrive (l : list Arrival) (c : Control) : Control := fst (fst (run_ops (map arrival_op l) c)).

Record TurnState (W : Type) := MkTurnState {
  ts_control : option Control;
  ts_guard : Guard;
  ts_arrivals : list (list Arrival);
  ts_appended : list UserSteer;
  ts_world : W;
}.
Arguments MkTurnState {W} _ _ _ _ _.
Arguments ts_control {W} _.
Arguments ts_guard {W} _.
Arguments ts_arrivals {W} _.
Arguments ts_appended {W} _.
Arguments ts_world {W} _.

Section policy.
Context {W : Type}.
Implicit Types s : TurnState W.

Variable apply_jobs_callback : M W (bool * bool).
Variable append_steers : list UserSteer -> M W unit.

Definition on_world {A} (c : M W A) : M (TurnState W) A := fun s =>
  let '(w, r) := c (ts_world s) in
  (MkTurnState (ts_control s) (ts_guard s) (ts_arrivals s) (ts_appended s) w, r).

(** One access to the control, after what arrived in the meantime; [absent] is
    the result without a control. *)
Definition on_control {A} (absent : A) (f : Control -> Control * A) : M (TurnState W) A := fun s =>
  match ts_control s with
  | None => (s, Ok absent)
  | Some c =>
      let '(c', a) := f (arrive (default [] (head (ts_arrivals s))) c) in
      (MkTurnState (Some c') (ts_guard s) (tail (ts_arrivals s)) (ts_appended s) (ts_world s), Ok a)
  end.

Definition reset_guard : M (TurnState W) unit := modify (fun s =>
  MkTurnState (ts_control s) (reset (ts_guard s)) (ts_arrivals s) (ts_appended s) (ts_world s)).

Definition raise_if_cancelled : M (TurnState W) unit :=
  b <- on_control false (fun c => (c, is_cancelled c)) ;;
  if b then fail (Exn EAgentCancelled "") else ret tt.

Definition apply_jobs : M (TurnState W) (bool * bool) :=
  r <- on_world apply_jobs_callback ;;
  (if fst r then reset_guard else ret tt) ;;;
  ret r.

Definition append_all (steers : list UserSteer) : M (TurnState W) unit :=
  on_world (append_steers steers) ;;;
  modify (fun s => MkTurnState (ts_control s) (ts_guard s) (ts_arrivals s) (ts_appended s ++ steers) (ts_world s)).

Definition apply_steering (finishing : bool) : M (TurnState W) bool :=
  s <- get ;;
  match ts_control s with
  | None => ret false
  | Some _ =>
      steers <- on_control [] (if finishing then finish else drain_steering) ;;
      raise_if_cancelled ;;;
      match steers with
      | [] => ret false
      | _ => append_all steers ;;; reset_guard ;;; ret true
      end
  end.

(** The loop [while pending], entered with [pending] true: [Some true] returns
    from the caller, [Some false] leaves the loop, [None] is a loop still
    waiting for its jobs after [fuel] rounds. *)
Fixpoint wait_for_jobs (fuel : nat) (wait_for_job : M W bool) : M (TurnState W) (option bool) :=
  match fuel with
  | O => ret None
  | S fuel' =>
      raise_if_cancelled ;;;
      steered <- apply_steering false ;;
      if (steered : bool) then ret (Some true) else
      on_world wait_for_job ;;;
      raise_if_cancelled ;;;
      r <- apply_jobs ;;
      if (fst r : bool) then ret (Some true)
      else if (snd r : bool) then wait_for_jobs fuel' wait_for_job else ret (Some false)
  end.

(** The end of [after_response], once no job is pending. *)
Definition try_finish (before_finish : option (M W bool)) : M (TurnState W) bool :=
  match before_finish with
  | None => apply_steering true
  | Some before_finish =>
      steered <- apply_steering false ;;
      if (steered : bool) then ret true else
      more <- on_world before_finish ;;
      if (more : bool) then
        raise_if_cancelled ;;; reset_guard ;;; apply_steering false ;;; ret true
      else raise_if_cancelled ;;; apply_steering true
  end.

Definition after_response (fuel : nat) (wait_for_job : M W bool) (before_finish : option (M W bool)) :
    M (TurnState W) (option bool) :=
  raise_if_cancelled ;;;
  r <- apply_jobs ;;
  if (fst r : bool) then ret (Some true) else
  waited <- (if (snd r : bool) then wait_for_jobs fuel wait_for_job else ret (Some false)) ;;
  match waited with
  | None => ret None
  | Some true => ret (Some true)
  | Some false => b <- try_finish before_finish ;; ret (Some b)
  end.

(** *** The books of a turn: accepted steers are appended or pending *)

Definition books s : Prop :=
  match ts_control s with
  | None => True
  | Some c => control_wf c /\
      (c_cancelled c = false ->
       mb_received (c_steering c) = map steer_id (ts_appended s ++ mb_items (c_steering c)))
  end.

Lemma arrivals_deliver_nothing l : forall c, snd (fst (run_ops (map arrival_op l) c)) = [].
Proof.
  induction l as [|a l IH]; intros c; cbn [map run_ops]; [done|].
  destruct (run_op (arrival_op a) c) as [[c1 d1] a1] eqn:E. specialize (IH c1).
  destruct (run_ops (map arrival_op l) c1) as [[c2 d2] a2]. simpl in *. subst d2. rewrite app_nil_r.
  destruct a as [id text| |]; simpl in E; [destruct (steer id text c)|..]; by simplify_eq.
Qed.

Lemma arrive_books l c appended :
  control_wf c ->
  (c_cancelled c = false -> mb_received (c_steering c) = map steer_id (appended ++ mb_items (c_steering c))) ->
  let c' := arrive l c in
  control_wf c' /\ (c_cancelled c = true -> c_cancelled c' = true) /\
  (c_cancelled c' = false -> mb_received (c_steering c') = map steer_id (appended ++ mb_items (c_steering c'))).
Proof.
  intros Hw Hb. unfold arrive. pose proof (arrivals_deliver_nothing l c) as Hd.
  destruct (run_ops (map arrival_op l) c) as [[c' d] a] eqn:E. simpl in *. subst d.
  destruct (run_ops_spec _ _ _ _ _ Hw E) as (Hw' & Hr & Hn & _ & Ht). split; [done|]. split.
  - intros Hc. rewrite Hc in Ht. by destruct (Ht eq_refl) as (_ & -> & _).
  - intros Hc. specialize (Hn Hc). simpl in Hn. rewrite <-Hn, Hr.
    destruct (c_cancelled c) eqn:Ec; [destruct (Ht eq_refl) as (_ & ? & _); congruence|].
    rewrite Hb by done. by rewrite !map_app, app_assoc.
Qed.

(** A property of every successful run of an action from a state in order. *)
Definition keeps {A} (c : M (TurnState W) A) (Q : TurnState W -> A -> TurnState W -> Prop) : Prop :=
  forall s s' a, books s -> ts_control s <> None -> c s = (s', Ok a) ->
    books s' /\ ts_control s' <> None /\ Q s a s'.

Lemma keeps_bind {A B} (c : M (TurnState W) A) (k : A -> M (TurnState W) B) Q1 (Q2 : A -> _) (Q : _ -> B -> _ -> Prop) :
  keeps c Q1 -> (forall a, keeps (k a) (Q2 a)) ->
  (forall s0 a s1 b s2, Q1 s0 a s1 -> Q2 a s1 b s2 -> Q s0 b s2) -> keeps (bind c k) Q.
Proof.
  intros Hc Hk HQ s s' b Hb Hn. unfold bind. destruct (c s) as [s1 [a|e]] eqn:E; [|done]. intros Hr.
  destruct (Hc _ _ _ Hb Hn E) as (Hb1 & Hn1 & HQ1). destruct (Hk _ _ _ _ Hb1 Hn1 Hr) as (Hb2 & Hn2 & HQ2). eauto.
Qed.

Lemma keeps_ret {A} (a : A) (Q : _ -> A -> _ -> Prop) : (forall s, Q s a s) -> keeps (ret a) Q.
Proof. intros HQ s s' b Hb Hn [= <- <-]. auto. Qed.

Lemma keeps_weaken {A} (c : M (TurnState W) A) (Q1 Q : _ -> A -> _ -> Prop) :
  keeps c Q1 -> (forall s a s', Q1 s a s' -> Q s a s') -> keeps c Q.
Proof. intros Hc HQ s s' a Hb Hn Hr. destruct (Hc _ _ _ Hb Hn Hr) as (? & ? & ?). auto. Qed.

(** What the agent sees of the turn is unchanged. *)
Definition same_turn s s' : Prop := ts_guard s' = ts_guard s /\ ts_appended s' = ts_appended s.

Lemma keeps_on_world {A} (c : M W A) : keeps (on_world c) (fun s _ s' => same_turn s s').
Proof.
  intros s s' a Hb Hn. unfold on_world. destruct (c (ts_world s)) as [w r]. intros [= <- ->]. by repeat split.
Qed.

Lemma keeps_reset : keeps reset_guard (fun s _ s' => ts_guard s' = reset (ts_guard s) /\ ts_appended s' = ts_appended s).
Proof. intros s s' a Hb Hn [= <- <-]. by repeat split. Qed.

Lemma keeps_raise : keeps raise_if_cancelled (fun s _ s' => same_turn s s' /\
  exists c, ts_control s' = Some c /\ is_cancelled c = false /\
    (forall c0, ts_control s = Some c0 -> c_finished c0 = true -> c_finished c = true)).
Proof.
  intros s s' a Hb Hn. unfold raise_if_cancelled, bind, on_control.
  destruct (ts_control s) as [c|] eqn:Ec; [|done]. unfold books in Hb. rewrite Ec in Hb. destruct Hb as [Hw Hb].
  destruct (arrive_books (default [] (head (ts_arrivals s))) c _ Hw Hb) as (Hw' & _ & Hb').
  destruct (is_cancelled _) eqn:Ei; [done|]. intros [= <- <-]. unfold books; simpl.
  split; [done|]. split; [done|]. split; [done|]. eexists. split; [done|]. split; [done|].
  intros c0 [= <-] Hf. unfold arrive. destruct (run_ops _ c) as [[c' d] a] eqn:E. simpl.
  destruct (run_ops_spec _ _ _ _ _ Hw E) as (_ & _ & _ & _ & Ht). rewrite Hf, orb_true_r in Ht.
  by destruct (Ht eq_refl) as (_ & _ & ->).
Qed.

Definition steering_op (finishing : bool) : ControlOp := if finishing then OpFinish else OpDrain.

Lemma steering_run_op (finishing : bool) c :
  run_op (steering_op finishing) c
  = let '(c', steers) := (if finishing then finish else drain_steering) c in (c', steers, []).
Proof. by destruct finishing. Qed.

Lemma finish_quiet c c' : finish c = (c', []) -> c_cancelled c' = false -> c_finished c' = true.
Proof.
  unfold finish, drain_or_close. destruct (c_cancelled c || c_finished c) eqn:E.
  - intros [= <-] Hc. by rewrite Hc in E.
  - destruct (mb_items (c_steering c)); intros [= <-]; done.
Qed.

(** The accesses of [apply_steering]: take the steers, then check cancellation. *)
Lemma take_steers (finishing : bool) s c s1 steers s2 :
  books s -> ts_control s = Some c ->
  on_control (@nil UserSteer) (if finishing then finish else drain_steering) s = (s1, Ok steers) ->
  raise_if_cancelled s1 = (s2, Ok tt) ->
  ts_guard s2 = ts_guard s /\ ts_appended s2 = ts_appended s /\
  exists c2, ts_control s2 = Some c2 /\ control_wf c2 /\ is_cancelled c2 = false /\
    mb_received (c_steering c2) = map steer_id (ts_appended s ++ steers ++ mb_items (c_steering c2)) /\
    (finishing = true -> steers = [] -> c_finished c2 = true).
Proof.
  intros Hb Hc. unfold books in Hb. rewrite Hc in Hb. destruct Hb as [Hw Hb].
  unfold on_control at 1. rewrite Hc.
  destruct (arrive_books (default [] (head (ts_arrivals s))) c _ Hw Hb) as (Hw1 & _ & Hb1).
  set (c1 := arrive _ c) in *. pose proof (steering_run_op finishing c1) as Hop.
  destruct ((if finishing then finish else drain_steering) c1) as [c2 st2] eqn:E2.
  destruct (run_op_spec _ _ _ _ _ Hw1 Hop) as (Hw2 & Hr2 & Hn2 & Hd2 & _).
  intros [= <- <-]. unfold raise_if_cancelled, bind, on_control. simpl.
  set (c3 := arrive _ c2). destruct (is_cancelled c3) eqn:Ei; [done|]. intros [= <-]. simpl.
  split; [done|]. split; [done|]. exists c3.
  assert (Hbk : c_cancelled c2 = false ->
    mb_received (c_steering c2) = map steer_id ((ts_appended s ++ st2) ++ mb_items (c_steering c2))).
  { intros Hc2. rewrite Hr2, app_nil_r. specialize (Hn2 Hc2). rewrite app_nil_r in Hn2.
    rewrite <-app_assoc, <-Hn2. apply Hb1. rewrite <-Hc2. symmetry.
    destruct finishing; simpl in E2; unfold finish, drain_steering, drain_or_close, drain in E2;
      repeat case_match; by simplify_eq. }
  destruct (arrive_books (default [] (head (tail (ts_arrivals s)))) c2 _ Hw2 Hbk) as (Hw3 & Hm & Hb3).
  fold c3 in Hw3, Hm, Hb3. unfold is_cancelled in Ei. apply orb_false_iff in Ei as [Ec3 Ee3].
  split; [done|]. split; [done|]. split; [by unfold is_cancelled; rewrite Ec3, Ee3|].
  split; [by rewrite app_assoc; apply Hb3|]. intros -> ->.
  assert (Ec2 : c_cancelled c2 = false) by (destruct (c_cancelled c2); [by rewrite Hm in Ec3|done]).
  pose proof (finish_quiet _ _ E2 Ec2) as Hf. unfold c3, arrive.
  destruct (run_ops _ c2) as [[c3' d3] a3] eqn:E3. simpl.
  destruct (run_ops_spec _ _ _ _ _ Hw2 E3) as (_ & _ & _ & _ & Ht). rewrite Hf, orb_true_r in Ht.
  by destruct (Ht eq_refl) as (_ & _ & ->).
Qed.

Lemma keeps_steering finishing : keeps (apply_steering finishing) (fun s b s' =>
  if b then ts_guard s' = reset (ts_guard s) /\ exists new, new <> [] /\ ts_appended s' = ts_appended s ++ new
  else same_turn s s' /\ (finishing = true -> exists c, ts_control s' = Some c /\ c_finished c = true /\
         is_cancelled c = false)).
Proof.
  intros s s' b Hb Hn. unfold apply_steering. unfold bind at 1, get.
  destruct (ts_control s) as [c|] eqn:Ec; [|done]. unfold bind at 1.
  destruct (on_control (@nil UserSteer) (if finishing then finish else drain_steering) s) as [s1 [steers|e]] eqn:E1; [|done].
  unfold bind at 1.
  destruct (raise_if_cancelled s1) as [s2 [[]|e]] eqn:E2; [|done].
  destruct (take_steers _ _ _ _ _ _ Hb Ec E1 E2) as (Hg & Ha & c2 & Hc2 & Hw2 & Hi2 & Hb2 & Hf2).
  destruct steers as [|st0 steers].
  - intros [= <- <-]. split; [|split; [by rewrite Hc2|split; [done|eauto]]].
    unfold books. rewrite Hc2, Ha. split; [done|]. intros _. by rewrite Hb2.
  - unfold append_all, bind, on_world, modify, reset_guard, ret.
    destruct (append_steers (st0 :: steers) (ts_world s2)) as [w [[]|e]]; [|done].
    intros [= <- <-]. simpl. unfold books. simpl. rewrite Hc2. split; [|split; [done|]].
    + split; [done|]. intros _. by rewrite Ha, <-app_assoc.
    + rewrite Hg, Ha. split; [done|]. by exists (st0 :: steers).
Qed.

(** The outcome of [after_response] and its parts: going on resets the guard,
    stopping leaves the turn as it was. *)
Definition outcome s (b : bool) s' : Prop :=
  if b then ts_guard s' = reset (ts_guard s) /\ ts_appended s `prefix_of` ts_appended s' else same_turn s s'.

Lemma outcome_after s0 s1 b s2 : same_turn s0 s1 -> outcome s1 b s2 -> outcome s0 b s2.
Proof.
  intros [Hg Ha]. unfold outcome, same_turn. rewrite Hg, Ha. done.
Qed.

(** A first action that shows nothing of itself. *)
Lemma keeps_skip {A B} (c : M (TurnState W) A) (k : A -> M (TurnState W) B) Q0 (Q : _ -> B -> _ -> Prop) :
  keeps c Q0 -> (forall s0 a s1, Q0 s0 a s1 -> same_turn s0 s1) -> (forall a, keeps (k a) Q) ->
  (forall s0 s1 b s2, same_turn s0 s1 -> Q s1 b s2 -> Q s0 b s2) -> keeps (bind c k) Q.
Proof. intros Hc H0 Hk HQ. apply (keeps_bind _ _ Q0 (fun _ => Q)); [done|done|]. eauto. Qed.

Lemma keeps_jobs : keeps apply_jobs (fun s r s' => outcome s (fst r) s').
Proof.
  unfold apply_jobs. apply (keeps_bind _ _ _ (fun r s r' s' => r' = r /\ outcome s (fst r) s') _ (keeps_on_world _)).
  - intros [a p]. simpl. apply (keeps_bind _ _ (fun s _ s' => outcome s a s') (fun _ s r' s' => r' = (a, p) /\ s = s')).
    + destruct a; [|apply keeps_ret; by split].
      apply (keeps_weaken _ _ _ keeps_reset). intros s _ s' [Hg Ha]. split; [done|]. by rewrite Ha.
    + intros _. by apply keeps_ret.
    + by intros s0 _ s1 r s2 H01 [-> <-].
  - intros s0 r s1 r' s2 H01 [-> H12]. by eapply outcome_after.
Qed.

Lemma keeps_steering_outcome finishing : keeps (apply_steering finishing) outcome.
Proof.
  apply (keeps_weaken _ _ _ (keeps_steering finishing)). intros s b s'. destruct b; simpl; [|by intros [? _]].
  intros (Hg & new & _ & Ha). split; [done|]. rewrite Ha. by apply prefix_app_r.
Qed.

Definition waiting s (o : option bool) s' : Prop :=
  match o with None => same_turn s s' | Some b => outcome s b s' end.

Lemma waiting_after s0 s1 o s2 : same_turn s0 s1 -> waiting s1 o s2 -> waiting s0 o s2.
Proof. destruct o; [apply outcome_after|]. unfold waiting, same_turn. intros [-> ->]. done. Qed.

(** Continue after a part that may already have decided to go on. *)
Lemma keeps_decide {A B} (c : M (TurnState W) A) (p : A -> bool) (k : A -> M (TurnState W) B) (yes : B)
    (Q : _ -> B -> _ -> Prop) :
  keeps c (fun s a s' => outcome s (p a) s') ->
  (forall a, p a = true -> keeps (k a) (fun s b s' => b = yes /\ s = s')) ->
  (forall a, p a = false -> keeps (k a) Q) ->
  (forall s0 s1 b s2, same_turn s0 s1 -> Q s1 b s2 -> Q s0 b s2) ->
  (forall s0 s1, outcome s0 true s1 -> Q s0 yes s1) ->
  keeps (bind c k) Q.
Proof.
  intros Hc Ht Hf HQ Hy s s' b Hb Hn. unfold bind. destruct (c s) as [s1 [a|e]] eqn:E; [|done]. intros Hr.
  destruct (Hc _ _ _ Hb Hn E) as (Hb1 & Hn1 & H01). destruct (p a) eqn:Ep.
  - destruct (Ht a Ep _ _ _ Hb1 Hn1 Hr) as (Hb2 & Hn2 & -> & <-). auto.
  - destruct (Hf a Ep _ _ _ Hb1 Hn1 Hr) as (Hb2 & Hn2 & H12). split; [done|]. split; [done|]. by apply (HQ s s1).
Qed.

Lemma keeps_waiting fuel wait_for_job : keeps (wait_for_jobs fuel wait_for_job) waiting.
Proof.
  induction fuel as [|fuel IH]; cbn [wait_for_jobs]; [apply keeps_ret; by split|].
  apply (keeps_skip _ _ _ _ keeps_raise); [by intros ??? [? _]|intros _|apply waiting_after].
  apply (keeps_decide _ id _ (Some true) _ (keeps_steering_outcome false)); unfold id;
    [by intros a ->; apply keeps_ret|intros a ->|apply waiting_after|done].
  apply (keeps_skip _ _ _ _ (keeps_on_world _)); [done|intros _|apply waiting_after].
  apply (keeps_skip _ _ _ _ keeps_raise); [by intros ??? [? _]|intros _|apply waiting_after].
  apply (keeps_decide _ fst _ (Some true) _ keeps_jobs);
    [by intros a ->; apply keeps_ret|intros a ->|apply waiting_after|done].
  destruct (snd a); [apply IH|by apply keeps_ret].
Qed.

(** A turn that stops is closed: finished, not cancelled, nothing pending. *)
Definition closing s (b : bool) s' : Prop :=
  outcome s b s' /\ (b = false -> exists c, ts_control s' = Some c /\ c_finished c = true /\ is_cancelled c = false).

Lemma closing_after s0 s1 b s2 : same_turn s0 s1 -> closing s1 b s2 -> closing s0 b s2.
Proof. intros H01 [Ho Hc]. split; [by eapply outcome_after|done]. Qed.

Lemma keeps_closing : keeps (apply_steering true) closing.
Proof.
  intros s s' b Hb Hn Hr. destruct (keeps_steering_outcome true _ _ _ Hb Hn Hr) as (Hb' & Hn' & Ho).
  destruct (keeps_steering true _ _ _ Hb Hn Hr) as (_ & _ & Hs). split; [done|]. split; [done|]. split; [done|].
  intros ->. by apply Hs.
Qed.

Lemma keeps_try_finish before_finish : keeps (try_finish before_finish) closing.
Proof.
  unfold try_finish. destruct before_finish as [bf|]; [|apply keeps_closing].
  apply (keeps_decide _ id _ true _ (keeps_steering_outcome false)); unfold id;
    [by intros a ->; apply keeps_ret|intros a ->|apply closing_after|by split].
  apply (keeps_skip _ _ _ _ (keeps_on_world _)); [done|intros more|apply closing_after].
  destruct more;
    (apply (keeps_skip _ _ _ _ keeps_raise); [by intros ??? [? _]|intros _|apply closing_after]); [|apply keeps_closing].
  apply (keeps_bind _ _ _ (fun _ s b s' => b = true /\ (outcome s true s' \/ same_turn s s')) _ keeps_reset).
  - intros _. apply (keeps_bind _ _ _ (fun _ s b s' => b = true /\ s = s') _ (keeps_steering_outcome false)).
    + intros _. by apply keeps_ret.
    + intros s0 b s1 b' s2 H01 [-> <-]. split; [done|]. destruct b; auto.
  - intros s0 _ s1 b s2 [Hg Ha] [-> H12]. split; [|done]. destruct H12 as [[Hg2 Hp]|[Hg2 Ha2]]; split.
    + by rewrite Hg2, Hg.
    + by rewrite <-Ha.
    + by rewrite Hg2, Hg.
    + by rewrite Ha2, Ha.
Qed.

Definition responding s (o : option bool) s' : Prop :=
  waiting s o s' /\ (o = Some false -> exists c, ts_control s' = Some c /\ c_finished c = true /\ is_cancelled c = false).

Lemma responding_after s0 s1 o s2 : same_turn s0 s1 -> responding s1 o s2 -> responding s0 o s2.
Proof. intros H01 [Ho Hc]. split; [by eapply waiting_after|done]. Qed.

Lemma keeps_after_response fuel wait_for_job before_finish :
  keeps (after_response fuel wait_for_job before_finish) responding.
Proof.
  unfold after_response. apply (keeps_skip _ _ _ _ keeps_raise); [by intros ??? [? _]|intros _|apply responding_after].
  apply (keeps_decide _ fst _ (Some true) _ keeps_jobs);
    [by intros a ->; apply keeps_ret|intros a ->|apply responding_after|by split].
  apply (keeps_bind _ _ waiting (fun o s o' s' => match o with
    | Some false => exists b, o' = Some b /\ closing s b s'
    | _ => o' = o /\ s' = s end)).
  - destruct (snd a); [apply keeps_waiting|by apply keeps_ret].
  - intros [[]|]; try by apply keeps_ret.
    apply (keeps_bind _ _ _ (fun b s o s' => o = Some b /\ s' = s) _ (keeps_try_finish before_finish)).
    + intros b. by apply keeps_ret.
    + intros s0 b s1 o s2 H01 [-> ->]. by exists b.
  - intros s0 [[]|] s1 o s2 H01 H12.
    + destruct H12 as [-> ->]. by split.
    + destruct H12 as (b & -> & Ho & Hc). split; [by eapply outcome_after|]. intros [= ->]. auto.
    + destruct H12 as [-> ->]. by split.
Qed.
End policy.

(** A turn ends only when it is quiet.  Whatever other threads do to the
    control in between, when [after_response] decides to stop, the control is
    finished and was not cancelled, and every steering message ever accepted has
    been handed to the agent, in order; when it decides to go on, the repetition
    guard has been reset and nothing that was appended is lost. *)
Theorem turn_closes_quiet {W : Type} (apply_jobs_callback : M W (bool * bool)) (append_steers : list UserSteer -> M W unit)
    (fuel : nat) (wait_for_job : M W bool) (before_finish : option (M W bool)) (s s' : TurnState W) (again : bool) :
  books s -> ts_control s <> None ->
  after_response apply_jobs_callback append_steers fuel wait_for_job before_finish s = (s', Ok (Some again)) ->
  if again then ts_guard s' = reset (ts_guard s) /\ ts_appended s `prefix_of` ts_appended s'
  else ts_guard s' = ts_guard s /\ exists c, ts_control s' = Some c /\ c_finished c = true /\ is_cancelled c = false /\
       mb_items (c_steering c) = [] /\ mb_received (c_steering c) = map steer_id (ts_appended s').
Proof.
  intros Hb Hn Hr.
  destruct (keeps_after_response _ _ fuel wait_for_job before_finish _ _ _ Hb Hn Hr) as (Hb' & _ & Ho & Hc).
  destruct again; [done|]. simpl in Ho. destruct Ho as [Hg _]. split; [done|].
  destruct (Hc eq_refl) as (c & Hct & Hf & Hi). exists c. unfold books in Hb'. rewrite Hct in Hb'.
  destruct Hb' as [[Hx _ Hcl _] Hrec]. rewrite Hf in *. rewrite orb_true_r in Hcl.
  rewrite (Hcl eq_refl), app_nil_r in *. split_and!; try done. apply Hrec. by destruct (c_cancelled c).
Qed.

(** A turn with a job that completes without output while a message arrives late. *)
Definition late_steer : TurnState nat :=
  MkTurnState (Some (new_control false)) (MkGuard 3 None 0) [[]; []; []; [ArriveSteer "1" "wait"]] [] 0%nat.

Definition late_steer_end : TurnState nat :=
  MkTurnState (Some (MkControl (MkMailbox [] ["1"] true) false false false)) (MkGuard 3 None 0) []
    [MkSteer "1" "wait"] 2%nat.

Lemma late_steer_run :
  @after_response nat (fun w => (S w, Ok (false, (w =? 0)%nat))) (fun _ => ret tt) 5 (ret true) None late_steer
  = (late_steer_end, Ok (Some true)).
Proof. vm_compute. reflexivity. Qed.

Lemma turn_closes_quiet_witness :
  ts_guard late_steer_end = reset (ts_guard late_steer) /\ ts_appended late_steer `prefix_of` ts_appended late_steer_end.
Proof.
  refine (turn_closes_quiet (fun w => (S w, Ok (false, (w =? 0)%nat))) (fun _ => ret tt) 5 (ret true) None late_steer
    late_steer_end true _ _ late_steer_run).
  - split; [exact (new_control_wf false)|reflexivity].
  - discriminate.
Defined.
