(* ===== verification/Tools.v ===== *)
(** * Tool sets and hooks: agent_core/tools/catalog.py, agent_core/hooks.py

    A tool is its name, its concurrency flag and its body, an action on the
    session; the router, the policy and the cancellation signal of the context
    are arguments, as they are in the code.  [HookPort] is what the tool set
    needs of the hooks; [HookRunner.run] implements it. *)

From stdpp Require Import base list strings pretty.
From Stdlib Require Import ZArith Lia.
From S2P Require Import Prelude PyData PyStr Json PyTime Content Plan Authority Message Session PyText.

(** What the body of a tool returns; [ToolFailed] is a raised
    [ToolExecutionError] with its structured error. *)
Inductive ToolOutcome :=
| PlainOutput (output : json)
| RichOutput (output : json) (attachments : list ContentPart) (present_to_user : bool) (artifact : option string)
| ToolFailed (error : ToolError).

Record Tool := MkTool {
  tool_name : string;
  tool_concurrent : bool;
  tool_run : list (string * json) -> option ResolvedExecution -> M Session ToolOutcome;
}.

Record HookResult := MkHookResult {
  hk_decision : string;
  hk_reason : string;
  hk_feedback : list string;
}.

Definition no_hook : HookResult := MkHookResult "pass" "" [].

(** [context.hooks.run(event, payload, context, policy)] *)
Definition HookPort : Type := string -> list (string * json) -> M Session HookResult.

(** ** ToolCatalog *)

Fixpoint register (d : list (string * Tool)) (tools : list Tool) : res (list (string * Tool)) :=
  match tools with
  | [] => Ok d
  | t :: tools' =>
      if dhas (tool_name t) d then value_error ("tool '" +:+ tool_name t +:+ "' is already registered")
      else register (dset (tool_name t) t d) tools'
  end.

Definition make_catalog (tools : list Tool) : res (list (string * Tool)) := register [] tools.
Definition catalog_names (d : list (string * Tool)) : list string := dkeys d.
Definition catalog_extend (d : list (string * Tool)) (tools : list Tool) : res (list (string * Tool)) :=
  make_catalog (dvalues d ++ tools).

(** ** ToolSet *)

Record ToolSet := MkToolSet {
  ts_tools : list (string * Tool);
  ts_router : option (ToolCall -> res ResolvedExecution);
  ts_policy : option (option ResolvedExecution -> ToolCall -> M Session unit);
  ts_hooks : option HookPort;
  ts_cancelled : M Session bool;
}.

(** ToolCatalog.select: the known and available tools, by name. *)
Definition select (d : list (string * Tool)) (names : list string) (available : Tool -> bool)
    (router : option (ToolCall -> res ResolvedExecution))
    (policy : option (option ResolvedExecution -> ToolCall -> M Session unit)) (hooks : option HookPort)
    (cancelled : M Session bool) : ToolSet :=
  let selected := omap (fun name => match dget name d with
                                    | Some t => if available t then Some t else None
                                    | None => None
                                    end) names in
  MkToolSet (fold_left (fun acc t => dset (tool_name t) t acc) selected []) router policy hooks cancelled.

Definition is_concurrent (ts : ToolSet) (name : string) : bool :=
  match dget name (ts_tools ts) with Some t => tool_concurrent t | None => false end.

Definition run_hooks (ts : ToolSet) (event : string) (payload : list (string * json)) : M Session HookResult :=
  match ts_hooks ts with None => ret no_hook | Some run => run event payload end.

Definition error_result (call : ToolCall) (e : ToolError) (executed : bool) (feedback : list string) : ToolResult :=
  MkToolResult (tc_id call) (tc_name call) JNull (Some e) [] false executed feedback None.

Definition exn_error (e : exn) : ToolError := MkToolError (class_name (exn_class e)) (exn_msg e) None.

(** The steps before the body runs: routing, authorization, cancellation. *)
Definition admit_call (ts : ToolSet) (call : ToolCall) : M Session (option ResolvedExecution) :=
  route <- match ts_router ts with
           | None => ret None
           | Some resolve => r <- lift (resolve call) ;; ret (Some r)
           end ;;
  match ts_policy ts with None => ret tt | Some authorize => authorize route call end ;;;
  c <- ts_cancelled ts ;;
  if (c : bool) then fail (Exn EAgentCancelled "") else ret route.

(** [except HookExecutionError: raise; except Exception as error: return ...] *)
Definition caught (call : ToolCall) (executed : bool) (feedback : list string) (e : exn) : M Session ToolResult :=
  if is_class EHookExecution e || negb (is_exception e) then fail e
  else ret (error_result call (exn_error e) executed feedback).

Definition finish_result (call : ToolCall) (feedback : list string) (o : ToolOutcome) : ToolResult :=
  match o with
  | PlainOutput output => MkToolResult (tc_id call) (tc_name call) output None [] false true feedback None
  | RichOutput output atts present artifact =>
      MkToolResult (tc_id call) (tc_name call) output None atts present true feedback artifact
  | ToolFailed e => error_result call e true feedback
  end.

Definition execute (ts : ToolSet) (call : ToolCall) : M Session ToolResult :=
  c <- ts_cancelled ts ;;
  if (c : bool) then fail (Exn EAgentCancelled "") else
  match tc_argument_error call with
  | Some e => ret (error_result call e false [])
  | None =>
      match dget (tc_name call) (ts_tools ts) with
      | None => ret (error_result call
                  (MkToolError "tool_not_found" ("tool '" +:+ tc_name call +:+ "' is not registered") None) false [])
      | Some tool =>
          hook <- run_hooks ts "PreToolUse" [("tool_call", ToolCall_to_dict call)] ;;
          if String.eqb (hk_decision hook) "deny"
          then ret (error_result call (MkToolError "HookDenied" (hk_reason hook) None) false (hk_feedback hook))
          else
            admitted <- catch (r <- admit_call ts call ;; ret (inl r))
                              (fun e => r <- caught call false (hk_feedback hook) e ;; ret (inr r)) ;;
            match admitted with
            | inr r => ret r
            | inl route =>
                catch (arguments <- lift (args_dict (tc_arguments call)) ;;
                       o <- tool_run tool arguments route ;;
                       ret (finish_result call (hk_feedback hook) o))
                      (caught call true (hk_feedback hook))
            end
      end
  end.

(** ** agent_core/hooks.py *)

Definition MAX_HOOK_OUTPUT_CHARS : Z := 16000.

Record HookDefinition := MkHook {
  hd_name : string;
  hd_event : string;
  hd_command : string;
  hd_args : list string;
  hd_root : string;
  hd_source : string;
  hd_tools : option (list string);
  hd_scope : ExecutionScope;
  hd_timeout_seconds : Z;
}.

(** A field of a hook response that must be a non-empty string when present. *)
Definition response_text (field : string) (d : list (string * json)) : res string :=
  match dget field d with
  | None => Ok ""
  | Some (JStr t) => if nonempty (strip t) then Ok t
                     else value_error ("hook response '" +:+ field +:+ "' must be a non-empty string")
  | Some _ => value_error ("hook response '" +:+ field +:+ "' must be a non-empty string")
  end.

Section hooks.
Context `{Env} `{FloatText}.

Definition parse_result (data : json) (event : string) : res HookResult :=
  match data with
  | JObj d =>
      if negb (forallb (fun k => name_in k ["decision"; "reason"; "feedback"]) (dkeys d))
      then value_error "hook response must be an object with decision, reason and feedback fields" else
      let allowed := if String.eqb event "PostToolUse" then ["pass"]
                     else if String.eqb event "Stop" then ["pass"; "continue"] else ["pass"; "deny"] in
      let decision := default (JStr "pass") (dget "decision" d) in
      let bad := value_error ("invalid decision for " +:+ event +:+ ": " +:+ py_repr decision) in
      match decision with
      | JStr decision =>
          if negb (name_in decision allowed) then bad else
          reason <~ response_text "reason" d ;;
          feedback <~ response_text "feedback" d ;;
          if String.eqb decision "deny" && negb (nonempty reason) then value_error "deny requires a reason"
          else if String.eqb decision "continue" && negb (nonempty feedback)
          then value_error "continue requires feedback"
          else Ok (MkHookResult decision reason (if nonempty feedback then [feedback] else []))
      | _ => bad
      end
  | _ => value_error "hook response must be an object with decision, reason and feedback fields"
  end.

(** [output["exit_code"]] and the other checks of a command's output. *)
Definition check_output (loads : string -> res json) (event : string) (result : ToolResult) : res HookResult :=
  match tr_error result with
  | Some e => raise EHookExecution (te_message e)
  | None =>
      output <~ typed_obj (tr_output result) ;;
      timed_out <~ jindex "timed_out" output ;;
      if truthy timed_out then raise EHookExecution "hook command timed out" else
      code <~ jindex "exit_code" output ;;
      if negb (json_eqb code (JInt 0)) then
        stderr <~ res_bind (jindex "stderr" output) typed_str ;;
        raise EHookExecution ("hook command exited with " +:+ py_str code +:+ ": " +:+ stake 1000 stderr)
      else
      stdout <~ res_bind (jindex "stdout" output) typed_str ;;
      if MAX_HOOK_OUTPUT_CHARS <? slen stdout then raise EHookExecution "hook response exceeds the output budget" else
      response <~ loads stdout ;;
      parse_result response event
  end.

(** The record of a finished hook. *)
Definition finished_payload (common : list (string * json)) (status : string) (decision reason : option string)
    (feedback : list string) (duration_ms : Z) (diagnostics : option string) : list (string * json) :=
  common ++ [("status", JStr status); ("decision", ostr decision); ("reason", ostr reason);
    ("feedback", JArr (map JStr feedback)); ("duration_ms", JInt duration_ms); ("diagnostics", ostr diagnostics)].

Section runner.
(** [expand]: replacing the plugin root; [command_tools]: the catalog's command tool
    bound to the invocation, with the hooks of its context removed; [normalize]:
    ToolResultNormalizer.normalize; [duration]: the measured milliseconds;
    [on_hook_event]: the callback of the context. *)
Variable expand : string -> string -> string.
Variable command_tools : HookDefinition -> list (string * json) -> ToolSet.
Variable normalize : ToolResult -> M Session string.
Variable loads : string -> res json.
Variable duration : nat -> Z.
Variable on_hook_event : string -> M Session unit.
Variable cancelled : M Session bool.

Definition hook_common (d : HookDefinition) (invocation_id : string) (payload : list (string * json)) :
    list (string * json) :=
  [("invocation_id", JStr invocation_id); ("hook_id", JStr (hd_name d)); ("event", JStr (hd_event d));
   ("source", JStr (hd_source d))]
  ++ match dget "input" payload with Some i => [("input", i)] | None => [] end.

(** The body of the [try]: the diagnostics known so far and the decision. *)
Definition hook_body (d : HookDefinition) (invocation_id : string) (payload : list (string * json)) :
    M Session (option string * res HookResult) :=
  catch (result <- execute (command_tools d payload)
           (MkToolCall invocation_id "_hook_command"
              (ArgsDict [("command", JStr (expand (hd_root d) (hd_command d)));
                         ("args", JArr (map (fun a => JStr (expand (hd_root d) a)) (hd_args d)));
                         ("scope", JStr (scope_value (hd_scope d)))]) None) ;;
         diagnostics <- normalize result ;;
         ret (Some diagnostics, check_output loads (hd_event d) result))
        (fun e => ret (None, Err e)).

(** The handlers: status, decision, reason, feedback and the outcome. *)
Definition hook_outcome (d : HookDefinition) (r : res HookResult) :
    string * option string * option string * list string * res HookResult :=
  match r with
  | Ok p => ("completed", Some (hk_decision p), Some (hk_reason p), hk_feedback p, Ok p)
  | Err e =>
      if is_class EAgentCancelled e || is_class EKeyboardInterrupt e then ("cancelled", None, None, [], Err e)
      else if is_exception e
      then ("failed", None, Some (exn_msg e), [],
            raise EHookExecution ("Hook '" +:+ hd_name d +:+ "' (" +:+ hd_source d +:+ "): " +:+ exn_msg e))
      else ("failed", None, None, [], Err e)
  end.

Definition invoke (d : HookDefinition) (payload : list (string * json)) : M Session HookResult :=
  c <- cancelled ;;
  if (c : bool) then fail (Exn EAgentCancelled "") else
  s <- get ;;
  let invocation_id := uuid4 (tick s) in
  modify (advance 1) ;;;
  let tool_call_id := match jget "tool_call" payload with JObj call => get_str "id" call | _ => None end in
  let common := hook_common d invocation_id payload in
  record_hook "started" common tool_call_id ;;;
  body <- hook_body d invocation_id payload ;;
  let '(status, decision, reason, feedback, outcome) := hook_outcome d (snd body) in
  s <- get ;;
  record_hook "finished"
    (finished_payload common status decision reason feedback (duration (tick s)) (fst body)) tool_call_id ;;;
  on_hook_event status ;;;
  lift outcome.

Definition applies (d : HookDefinition) (event : string) (payload : list (string * json)) : bool :=
  String.eqb (hd_event d) event &&
  match hd_tools d with
  | None => true
  | Some names =>
      match jget "tool_call" payload with
      | JObj call => match jget "name" call with JStr n => name_in n names | _ => false end
      | _ => false
      end
  end.

(** The loop of HookRunner.run. *)
Fixpoint run_definitions (event : string) (payload : list (string * json)) (decision : string)
    (reasons feedback : list string) (ds : list HookDefinition) : M Session HookResult :=
  match ds with
  | [] => ret (MkHookResult decision (sjoin NL reasons) feedback)
  | d :: ds' =>
      if negb (applies d event payload) then run_definitions event payload decision reasons feedback ds' else
      result <- invoke d payload ;;
      let feedback := feedback ++ hk_feedback result in
      if String.eqb (hk_decision result) "pass" then run_definitions event payload decision reasons feedback ds'
      else run_definitions event payload (hk_decision result)
             (if nonempty (hk_reason result)
              then reasons ++ ["[" +:+ hd_name d +:+ "] " +:+ hk_reason result] else reasons) feedback ds'
  end.

Definition hook_run (ds : list HookDefinition) : HookPort := fun event payload =>
  run_definitions event payload "pass" [] [] ds.
End runner.

Definition append_hook_feedback (feedback : list string) : M Session unit :=
  match feedback with
  | [] => ret tt
  | _ => add_item (MkMessage RUser (CStr ("[Hook feedback]" +:+ NL +:+ sjoin (NL +:+ NL) feedback)) None [] None None
                     OHookFeedback []) [] SrcUserInput
  end.
End hooks.

(** turn_execution_summary: the results of tool messages, latest wins. *)
Definition tool_texts (x : SessionState) : list (string * Content) :=
  fold_left (fun acc m => match m_role m, m_tool_call_id m with
                          | RTool, Some id => dset id (m_content m) acc
                          | _, _ => acc
                          end) (items x) [].

Definition content_json (c : option Content) : json :=
  match c with
  | Some (CStr s) => JStr s
  | Some (CParts ps) => JArr (map part_to_dict ps)
  | _ => JNull
  end.

Definition turn_execution_summary (s : Session) : json :=
  let x := st s in
  JObj [
    ("tools", JArr (map (fun e => JObj [
        ("id", JStr (x_tool_call_id e)); ("name", JStr (x_name e)); ("arguments", args_to_json (x_arguments e));
        ("status", JStr (tool_status_str (x_status e)));
        ("result", content_json (dget (x_tool_call_id e) (tool_texts x)))])
      (List.filter (fun e => bool_decide (x_turn_id e = current_turn_id s)) (dvalues (tool_executions x)))));
    ("jobs", JArr (map (fun j => JObj [
        ("id", JStr (j_job_id j)); ("kind", JStr (j_kind j)); ("status", JStr (job_status_str (j_status j)));
        ("details", JObj (j_details j)); ("result_summary", j_result_summary j)])
      (List.filter (fun j => bool_decide (Some (j_turn_id j) = current_turn_id s)) (dvalues (jobs x)))))].

(** ** No execution without admission *)

(** The same tool set with another body in every tool. *)
Definition rebody (body : Tool -> list (string * json) -> option ResolvedExecution -> M Session ToolOutcome) (ts : ToolSet) :
    ToolSet :=
  MkToolSet (map (fun kt => (fst kt, MkTool (tool_name (snd kt)) (tool_concurrent (snd kt)) (body (snd kt)))) (ts_tools ts))
    (ts_router ts) (ts_policy ts) (ts_hooks ts) (ts_cancelled ts).

Lemma dget_map {V W} (f : V -> W) k (d : list (string * V)) : dget k (map (fun kv => (fst kv, f (snd kv))) d) = f <$> dget k d.
Proof. induction d as [|[k' v] d IH]; simpl; [done|]. by destruct (String.eqb k k'). Qed.

Lemma caught_executed call b feedback e s s' r : caught call b feedback e s = (s', Ok r) -> tr_executed r = b.
Proof. unfold caught. destruct (_ || _); intros [= <- <-]. done. Qed.

Lemma finish_result_executed call feedback o : tr_executed (finish_result call feedback o) = true.
Proof. by destruct o. Qed.

Lemma admit_call_ok ts call s s' route :
  admit_call ts call s = (s', Ok route) ->
  match ts_router ts with Some resolve => exists r, resolve call = Ok r /\ route = Some r | None => route = None end /\
  match ts_policy ts with Some auth => exists s1 s2, auth route call s1 = (s2, Ok tt) | None => True end.
Proof.
  unfold admit_call, bind, lift, ret. intros Hr.
  destruct (ts_router ts) as [resolve|].
  - destruct (resolve call) as [r|e]; [|done]. destruct (ts_policy ts) as [auth|].
    + destruct (auth (Some r) call s) as [s1 [[]|e]] eqn:Ea; [|done].
      destruct (ts_cancelled ts s1) as [s2 [[]|e]]; try done. injection Hr as <- <-. eauto 6.
    + destruct (ts_cancelled ts s) as [s2 [[]|e]]; try done. injection Hr as <- <-. eauto.
  - destruct (ts_policy ts) as [auth|].
    + destruct (auth None call s) as [s1 [[]|e]] eqn:Ea; [|done].
      destruct (ts_cancelled ts s1) as [s2 [[]|e]]; try done. injection Hr as <- <-. eauto 6.
    + destruct (ts_cancelled ts s) as [s2 [[]|e]]; try done. injection Hr as <- <-. eauto.
Qed.

(** Everything [execute] does before the body: a result without execution, or
    the tool, its route and the feedback of the hooks. *)
Definition prepare (ts : ToolSet) (call : ToolCall) :
    M Session (ToolResult + Tool * option ResolvedExecution * list string) :=
  c <- ts_cancelled ts ;;
  if (c : bool) then fail (Exn EAgentCancelled "") else
  match tc_argument_error call with
  | Some e => ret (inl (error_result call e false []))
  | None =>
      match dget (tc_name call) (ts_tools ts) with
      | None => ret (inl (error_result call
                  (MkToolError "tool_not_found" ("tool '" +:+ tc_name call +:+ "' is not registered") None) false []))
      | Some tool =>
          hook <- run_hooks ts "PreToolUse" [("tool_call", ToolCall_to_dict call)] ;;
          if String.eqb (hk_decision hook) "deny"
          then ret (inl (error_result call (MkToolError "HookDenied" (hk_reason hook) None) false (hk_feedback hook)))
          else catch (r <- admit_call ts call ;; ret (inr (tool, r, hk_feedback hook)))
                     (fun e => r <- caught call false (hk_feedback hook) e ;; ret (inl r))
      end
  end.

Definition run_body (call : ToolCall) (tool : Tool) (route : option ResolvedExecution) (feedback : list string) :
    M Session ToolResult :=
  catch (arguments <- lift (args_dict (tc_arguments call)) ;;
         o <- tool_run tool arguments route ;;
         ret (finish_result call feedback o))
        (caught call true feedback).

Lemma execute_prepare ts call s :
  execute ts call s =
  match prepare ts call s with
  | (s', Ok (inl r)) => (s', Ok r)
  | (s', Ok (inr (tool, route, feedback))) => run_body call tool route feedback s'
  | (s', Err e) => (s', Err e)
  end.
Proof.
  unfold execute, prepare, run_body, bind, catch.
  destruct (ts_cancelled ts s) as [s1 [[]|e]]; [done| |done].
  destruct (tc_argument_error call); [done|]. destruct (dget (tc_name call) (ts_tools ts)) as [tool|]; [|done].
  destruct (run_hooks ts _ _ s1) as [s2 [hook|e]]; [|done].
  destruct (String.eqb (hk_decision hook) "deny"); [done|].
  destruct (admit_call ts call s2) as [s3 [route|e]]; [done|].
  by destruct (caught call false (hk_feedback hook) e s3) as [s4 [r|e']].
Qed.

Lemma prepare_rebody body ts call s :
  prepare (rebody body ts) call s =
  match prepare ts call s with
  | (s', Ok (inr (tool, route, feedback))) =>
      (s', Ok (inr (MkTool (tool_name tool) (tool_concurrent tool) (body tool), route, feedback)))
  | r => r
  end.
Proof.
  unfold prepare, bind. cbn [rebody ts_cancelled ts_tools]. destruct (ts_cancelled ts s) as [s1 [[]|e]]; [done| |done].
  destruct (tc_argument_error call); [done|].
  rewrite (dget_map (fun t => MkTool (tool_name t) (tool_concurrent t) (body t))).
  destruct (dget (tc_name call) (ts_tools ts)) as [tool|]; [|done]. cbn [fmap option_fmap option_map].
  change (run_hooks (rebody body ts)) with (run_hooks ts). change (admit_call (rebody body ts)) with (admit_call ts).
  destruct (run_hooks ts _ _ s1) as [s2 [hook|e]]; [|done].
  destruct (String.eqb (hk_decision hook) "deny"); [done|]. unfold catch.
  destruct (admit_call ts call s2) as [s3 [route|e]]; [done|].
  by destruct (caught call false (hk_feedback hook) e s3) as [s4 [r|e']].
Qed.

Lemma prepare_result ts call s s' r : prepare ts call s = (s', Ok (inl r)) -> tr_executed r = false.
Proof.
  unfold prepare, bind. destruct (ts_cancelled ts s) as [s1 [[]|e]]; [done| |done].
  destruct (tc_argument_error call); [by intros [= <- <-]|].
  destruct (dget (tc_name call) (ts_tools ts)) as [tool|]; [|by intros [= <- <-]].
  destruct (run_hooks ts _ _ s1) as [s2 [hook|e]]; [|done].
  destruct (String.eqb (hk_decision hook) "deny"); [by intros [= <- <-]|]. unfold catch.
  destruct (admit_call ts call s2) as [s3 [route|e]]; [done|].
  destruct (caught call false (hk_feedback hook) e s3) as [s4 [r'|e']] eqn:E; [|done].
  intros [= <- <-]. by eapply caught_executed.
Qed.

Lemma prepare_admitted ts call s s' tool route feedback :
  prepare ts call s = (s', Ok (inr (tool, route, feedback))) ->
  dget (tc_name call) (ts_tools ts) = Some tool /\ exists s1, admit_call ts call s1 = (s', Ok route).
Proof.
  unfold prepare, bind. destruct (ts_cancelled ts s) as [s1 [[]|e]]; [done| |done].
  destruct (tc_argument_error call); [done|].
  destruct (dget (tc_name call) (ts_tools ts)) as [tool'|]; [|done].
  destruct (run_hooks ts _ _ s1) as [s2 [hook|e]]; [|done].
  destruct (String.eqb (hk_decision hook) "deny"); [done|]. unfold catch.
  destruct (admit_call ts call s2) as [s3 [route'|e]] eqn:E.
  - intros [= <- <- <- <-]. eauto.
  - by destruct (caught call false (hk_feedback hook) e s3) as [s4 [r'|e']].
Qed.

Lemma run_body_executed call tool route feedback s s' r :
  run_body call tool route feedback s = (s', Ok r) -> tr_executed r = true.
Proof.
  unfold run_body, catch. destruct (bind _ _ s) as [s1 [r'|e]] eqn:E.
  - intros [= <- <-]. unfold bind, lift in E. destruct (args_dict _) as [d|e]; [|done].
    destruct (tool_run tool d route s) as [s2 [o|e]]; [|done]. injection E as <- <-. apply finish_result_executed.
  - apply caught_executed.
Qed.

(** C8: a tool body runs only after admission.  A result that is not marked
    executed is independent of what the bodies do: the outcome is the same with
    every body replaced, so none of them ran (invalid arguments, an unknown
    tool, a denying hook, a refused route or approval).  A result marked
    executed comes from a registered tool whose call the router resolved and the
    policy authorized on that route. *)
Theorem no_execution_without_admission (ts : ToolSet) (call : ToolCall) (s s' : Session) (r : ToolResult) :
  execute ts call s = (s', Ok r) ->
  (tr_executed r = false -> forall body, execute (rebody body ts) call s = (s', Ok r)) /\
  (tr_executed r = true -> exists tool route,
     dget (tc_name call) (ts_tools ts) = Some tool /\
     match ts_router ts with Some resolve => exists rt, resolve call = Ok rt /\ route = Some rt | None => route = None end /\
     match ts_policy ts with Some auth => exists s1 s2, auth route call s1 = (s2, Ok tt) | None => True end).
Proof.
  rewrite execute_prepare. destruct (prepare ts call s) as [s1 [[r'|[[tool route] feedback]]|e]] eqn:Ep; [| |done].
  - intros [= <- <-]. pose proof (prepare_result _ _ _ _ _ Ep). split; [|congruence].
    intros _ body. by rewrite execute_prepare, prepare_rebody, Ep.
  - intros Hr. pose proof (run_body_executed _ _ _ _ _ _ _ Hr). split; [congruence|]. intros _.
    destruct (prepare_admitted _ _ _ _ _ _ _ Ep) as (Ht & s2 & Ha). apply admit_call_ok in Ha. eauto.
Qed.

(** A shell tool behind a policy that refuses everything. *)
Definition shell_tool : Tool := MkTool "shell" false (fun _ _ => ret (PlainOutput (JStr "done"))).
Definition guarded : ToolSet :=
  MkToolSet [("shell", shell_tool)] (Some (resolve APPROVAL_REQUIRED_AUTHORITY (fun _ => false)))
    (Some (fun _ _ => fail (Exn EPermissionError "shell command was not approved"))) None (ret false).
Definition idle : Session := MkSession "s-1" None (initial_state ASK_FOR_APPROVAL) [] false None 0 [].
Definition ls_call : ToolCall := MkToolCall "c1" "shell" (ArgsDict [("command", JStr "ls")]) None.

Lemma no_execution_without_admission_witness :
  execute (rebody (fun _ _ _ => fail (Exn ESystemExit "")) guarded) ls_call idle =
    (idle, Ok (error_result ls_call (MkToolError "PermissionError" "shell command was not approved" None) false [])).
Proof.
  refine (proj1 (no_execution_without_admission guarded ls_call idle idle
    (error_result ls_call (MkToolError "PermissionError" "shell command was not approved" None) false []) _) _ _);
    reflexivity.
Defined.
