(* ===== verification/ToolBatch.v ===== *)
(** * Execution of one batch of tool calls: agent_core/tool_batch.py

    The local dictionaries [completed] and [normalized] are part of the state of
    the batch, since they survive an exception; [bs_cleaned] logs the artifacts
    whose cleanup ran.  A concurrent batch takes a schedule: the order in which
    the workers complete, and where the coordinator is interrupted. *)

From stdpp Require Import base list strings pretty.
From Stdlib Require Import ZArith Lia.
From S2P Require Import Prelude PyData PyStr Json PyTime Content Plan Authority Message Session PyText Tools.

Record BatchState := MkBatch {
  bs_session : Session;
  bs_completed : list (Z * (ToolCall * ToolResult));
  bs_normalized : list (Z * string);
  bs_cleaned : list string;
}.

Definition on_session {A} (c : M Session A) : M BatchState A := fun b =>
  let '(s, r) := c (bs_session b) in (MkBatch s (bs_completed b) (bs_normalized b) (bs_cleaned b), r).

Definition set_completed (i : Z) (call : ToolCall) (r : ToolResult) : M BatchState unit := modify (fun b =>
  MkBatch (bs_session b) (bs_completed b ++ [(i, (call, r))]) (bs_normalized b) (bs_cleaned b)).

Definition set_normalized (i : Z) (text : string) : M BatchState unit := modify (fun b =>
  MkBatch (bs_session b) (bs_completed b) (bs_normalized b ++ [(i, text)]) (bs_cleaned b)).

Fixpoint lookup_index {A} (i : Z) (l : list (Z * A)) : option A :=
  match l with
  | [] => None
  | (j, a) :: l' => if i =? j then Some a else lookup_index i l'
  end.

(** [try: c] with the exception as a value. *)
Definition attempt {S A} (c : M S A) : M S (res A) := fun s => let '(s', r) := c s in (s', Ok r).

Definition failure_status (e : exn) : ToolExecutionStatus :=
  if is_class EAgentCancelled e then XCancelled
  else if is_class EKeyboardInterrupt e then XUnknown else XFailed.

Definition media_notice (attachments : list ContentPart) : string :=
  let path p := match p with ImagePart path _ _ _ | FilePart path _ _ _ => path | TextPart t => t end in
  let one := zlen attachments =? 1 in
  let noun := if forallb is_image attachments then (if one then "image" else "images")
              else (if one then "attachment" else "attachments") in
  "[Tool output] The " +:+ noun +:+ " requested by the preceding tool call:" +:+ NL
  +:+ sjoin NL (map (fun p => "- " +:+ path p) attachments).

(** One event of the coordinator of a concurrent batch. *)
Inductive ScheduleEvent :=
| Completes (index : Z)
| Interrupted (e : exn).

Section batch.
Context `{Env}.
Variable ts : ToolSet.
Variable normalize : ToolResult -> M Session string.
Variable on_call : ToolCall -> Z -> Z -> M Session unit.
Variable on_result : ToolResult -> Z -> Z -> M Session unit.
Variable on_media : list ContentPart -> bool -> M Session unit.
Variable turn_id : string.

(** [self._now().astimezone(timezone.utc)] *)
Definition now : M Session Z := s <- get ;; modify (advance 1) ;;; ret (utcnow (tick s)).

Definition finish_call (call : ToolCall) (result : ToolResult) : M BatchState unit :=
  on_session (tool_finished call (match tr_error result with Some _ => XFailed | None => XCompleted end)
    (te_message <$> tr_error result) (Some turn_id)).

Definition tool_item (call : ToolCall) (content : string) (t : Z) : Message :=
  MkMessage RTool (CStr content) (Some t) [] (Some (tc_id call)) None OConversation [].

Definition commit_normalized_result (call : ToolCall) (result : ToolResult) (index count : Z) : M BatchState string :=
  content <- on_session (normalize result) ;;
  t <- on_session now ;;
  on_session (add_item (tool_item call content t) [] SrcUserInput) ;;;
  on_session (on_result result index count) ;;;
  ret content.

(** A failed call is closed with the status of its exception. *)
Definition close_failed (call : ToolCall) (e : exn) : M BatchState unit :=
  on_session (tool_finished call (failure_status e) (Some (exn_msg e)) (Some turn_id)).

(** The part of an iteration in which [active_call] is set. *)
Definition run_active (count index : Z) (call : ToolCall) : M BatchState ToolResult :=
  on_session (tool_started call (Some turn_id)) ;;;
  on_session (on_call call index count) ;;;
  result <- on_session (execute ts call) ;;
  set_completed index call result ;;;
  finish_call call result ;;;
  ret result.

Fixpoint execute_sequentially (count : Z) (calls : list (Z * ToolCall)) : M BatchState unit :=
  match calls with
  | [] => ret tt
  | (index, call) :: calls' =>
      result <- catch (run_active count index call) (fun e => close_failed call e ;;; fail e) ;;
      text <- commit_normalized_result call result index count ;;
      set_normalized index text ;;;
      execute_sequentially count calls'
  end.

(** The submission loop: the futures and the error that stopped it. *)
Fixpoint submit_all (count : Z) (futures : list (Z * ToolCall)) (calls : list (Z * ToolCall)) :
    M BatchState (list (Z * ToolCall) * option exn) :=
  match calls with
  | [] => ret (futures, None)
  | (index, call) :: calls' =>
      on_session (tool_started call (Some turn_id)) ;;;
      r <- attempt (on_session (on_call call index count)) ;;
      match r with
      | Err e => close_failed call e ;;; ret (futures, Some e)
      | Ok _ => submit_all count (futures ++ [(index, call)]) calls'
      end
  end.

Definition or_error (first : option exn) (e : exn) : option exn :=
  match first with Some _ => first | None => Some e end.

(** [settle(future)]: returns the new [first_error]. *)
Definition settle (count : Z) (first_error : option exn) (index : Z) (call : ToolCall) : M BatchState (option exn) :=
  r <- attempt (on_session (execute ts call)) ;;
  match r with
  | Err e => close_failed call e ;;; ret (or_error first_error e)
  | Ok result =>
      set_completed index call result ;;;
      r <- attempt (finish_call call result ;;;
                    text <- commit_normalized_result call result index count ;; set_normalized index text) ;;
      match r with
      | Err e => ret (or_error first_error e)
      | Ok _ => ret first_error
      end
  end.

(** [for future in as_completed(futures)]: the indices observed and [first_error].
    A future completes once; an exception of [settle] or an interruption ends
    the loop. *)
Fixpoint settle_completed (count : Z) (futures : list (Z * ToolCall)) (observed : list Z) (first_error : option exn)
    (schedule : list ScheduleEvent) : M BatchState (list Z * option exn) :=
  match schedule with
  | [] => ret (observed, first_error)
  | Interrupted e :: _ => ret (observed, or_error first_error e)
  | Completes index :: schedule' =>
      match lookup_index index futures with
      | None => settle_completed count futures observed first_error schedule'
      | Some call =>
          if existsb (Z.eqb index) observed then settle_completed count futures observed first_error schedule' else
          r <- attempt (settle count first_error index call) ;;
          match r with
          | Err e => ret (index :: observed, or_error first_error e)
          | Ok first_error => settle_completed count futures (index :: observed) first_error schedule'
          end
      end
  end.

(** The [finally] clause: settle what was not observed, in submission order. *)
Fixpoint drain_futures (count : Z) (observed : list Z) (first_error : option exn) (futures : list (Z * ToolCall)) :
    M BatchState (option exn) :=
  match futures with
  | [] => ret first_error
  | (index, call) :: futures' =>
      if existsb (Z.eqb index) observed then drain_futures count observed first_error futures'
      else first_error <- settle count first_error index call ;;
           drain_futures count observed first_error futures'
  end.

Definition execute_concurrently (schedule : list ScheduleEvent) (count : Z) (calls : list (Z * ToolCall)) :
    M BatchState unit :=
  submitted <- submit_all count [] calls ;;
  settled <- settle_completed count (fst submitted) [] (snd submitted) schedule ;;
  first_error <- drain_futures count (fst settled) (snd settled) (fst submitted) ;;
  match first_error with Some e => fail e | None => ret tt end.

Definition is_concurrent_batch (calls : list ToolCall) : bool :=
  (1 <? zlen calls) && forallb (fun c => is_concurrent ts (tc_name c)) calls.

(** One of the two passes of [_commit_media]. *)
Definition commit_media_pass (results : list ToolResult) (present : bool) : M BatchState unit :=
  match flat_map tr_attachments (List.filter (fun r => Bool.eqb (tr_present_to_user r) present) results) with
  | [] => ret tt
  | attachments =>
      t <- on_session now ;;
      on_session (add_item
        (MkMessage RUser (CStr (if present then "" else media_notice attachments)) (Some t) [] None None
           (if present then OToolDelivery else OToolMedia) []) attachments SrcUserInput) ;;;
      on_session (on_media attachments present)
  end.

Definition commit_media (results : list ToolResult) : M BatchState unit :=
  commit_media_pass results false ;;; commit_media_pass results true.

(** The feedback of the pre-hooks and of the post-hooks, per call in order. *)
Fixpoint post_hooks (feedback : list string) (calls : list (Z * ToolCall)) : M BatchState (list string) :=
  match calls with
  | [] => ret feedback
  | (index, call) :: calls' =>
      b <- get ;;
      match lookup_index index (bs_completed b) with
      | None => fail (Exn EKeyError (pretty index))
      | Some (_, result) =>
          let feedback := feedback ++ tr_hook_feedback result in
          if tr_executed result then
            match lookup_index index (bs_normalized b) with
            | None => fail (Exn EKeyError (pretty index))
            | Some text =>
                hook <- on_session (run_hooks ts "PostToolUse"
                  [("tool_call", ToolCall_to_dict call);
                   ("tool_result", JObj [("ok", JBool (match tr_error result with None => true | Some _ => false end));
                                         ("content", JStr text)])]) ;;
                post_hooks (feedback ++ hk_feedback hook) calls'
            end
          else post_hooks feedback calls'
      end
  end.

(** [completed[index][1] for index, _call in indexed_calls] *)
Fixpoint collect (completed : list (Z * (ToolCall * ToolResult))) (calls : list (Z * ToolCall)) : res (list ToolResult) :=
  match calls with
  | [] => Ok []
  | (index, _) :: calls' =>
      match lookup_index index completed with
      | None => key_error (pretty index)
      | Some (_, r) => rs <~ collect completed calls' ;; Ok (r :: rs)
      end
  end.

Definition cleanup_results : M BatchState unit := modify (fun b =>
  MkBatch (bs_session b) (bs_completed b) (bs_normalized b)
    (bs_cleaned b ++ omap (fun c => tr_artifact (snd (snd c))) (bs_completed b))).

Fixpoint enumerate (i : Z) (calls : list ToolCall) : list (Z * ToolCall) :=
  match calls with
  | [] => []
  | c :: calls' => (i, c) :: enumerate (i + 1) calls'
  end.

Definition batch_body (schedule : list ScheduleEvent) (calls : list ToolCall) : M BatchState unit :=
  let indexed := enumerate 1 calls in
  (if is_concurrent_batch calls then execute_concurrently schedule (zlen calls) indexed
   else execute_sequentially (zlen calls) indexed) ;;;
  b <- get ;;
  results <- lift (collect (bs_completed b) indexed) ;;
  commit_media results ;;;
  feedback <- post_hooks [] indexed ;;
  on_session (append_hook_feedback feedback).

(** ToolBatchExecutor.execute *)
Definition execute_batch (schedule : list ScheduleEvent) (calls : list ToolCall) : M BatchState unit :=
  finally (batch_body schedule calls) cleanup_results.
End batch.
