(* ===== verification/ToolBatchThms.v ===== *)
(** * Theorems on tool batches

    Claims about agent_core/tool_batch.py: every started call is closed on every
    path, and a batch that returns leaves a complete context unit behind. *)

From stdpp Require Import base list strings pretty.
From Stdlib Require Import ZArith Lia.
From S2P Require Import Prelude PyData PyStr Json PyTime Content Plan Authority Message Session PyText Tools ToolBatch.
From S2P Require Import SessionProps SessionThms Projection.

(** ** A small program logic for batches

    [triple P c Q]: from a state with [P], [c] ends, normally or by an exception,
    in a state with [Q]. *)

Definition triple {S A} (P : S -> Prop) (c : M S A) (Q : res A -> S -> Prop) : Prop :=
  forall b, P b -> Q (snd (c b)) (fst (c b)).

Section logic.
Context {S : Type}.

Lemma triple_bind {A B} (P : S -> Prop) (c : M S A) (k : A -> M S B) R (Q : res B -> S -> Prop) :
  triple P c R -> (forall a, triple (R (Ok a)) (k a) Q) -> (forall e b, R (Err e) b -> Q (Err e) b) ->
  triple P (bind c k) Q.
Proof.
  intros Hc Hk He b Hb. specialize (Hc b Hb). unfold bind. destruct (c b) as [b' [a|e]]; simpl in *; [by apply Hk|auto].
Qed.

Lemma triple_ret {A} (P : S -> Prop) (a : A) (Q : res A -> S -> Prop) : (forall b, P b -> Q (Ok a) b) -> triple P (ret a) Q.
Proof. intros HQ b Hb. by apply HQ. Qed.

Lemma triple_fail {A} (P : S -> Prop) e (Q : res A -> S -> Prop) : (forall b, P b -> Q (Err e) b) -> triple P (fail e) Q.
Proof. intros HQ b Hb. by apply HQ. Qed.

Lemma triple_catch {A} (P : S -> Prop) (c : M S A) h R Q :
  triple P c R -> (forall a b, R (Ok a) b -> Q (Ok a) b) -> (forall e, triple (R (Err e)) (h e) Q) ->
  triple P (catch c h) Q.
Proof.
  intros Hc Ho Hh b Hb. specialize (Hc b Hb). unfold catch. destruct (c b) as [b' [a|e]]; simpl in *; [auto|by apply Hh].
Qed.

Lemma triple_attempt {A} (P : S -> Prop) (c : M S A) (R : res A -> S -> Prop) (Q : res (res A) -> S -> Prop) :
  triple P c R -> (forall r b, R r b -> Q (Ok r) b) -> triple P (attempt c) Q.
Proof. intros Hc HQ b Hb. specialize (Hc b Hb). unfold attempt. destruct (c b) as [b' r]; simpl in *. auto. Qed.

Lemma triple_conseq {A} (P P' : S -> Prop) (c : M S A) (Q Q' : res A -> S -> Prop) :
  triple P c Q -> (forall b, P' b -> P b) -> (forall r b, Q r b -> Q' r b) -> triple P' c Q'.
Proof. intros Hc HP HQ b Hb. apply HQ, Hc, HP, Hb. Qed.

(** Both outcomes keep [P]. *)
Lemma triple_inv_bind {A B} (P : S -> Prop) (c : M S A) (k : A -> M S B) :
  triple P c (fun _ => P) -> (forall a, triple P (k a) (fun _ => P)) -> triple P (bind c k) (fun _ => P).
Proof. intros Hc Hk. by apply (triple_bind _ _ _ (fun _ => P)). Qed.

Lemma triple_inv_get (P : S -> Prop) : triple P get (fun _ => P).
Proof. by intros b Hb. Qed.

Lemma triple_inv_lift {A} (P : S -> Prop) (r : res A) : triple P (lift r) (fun _ => P).
Proof. by intros b Hb. Qed.
End logic.

(** ** Executions that are open *)

Definition executions (b : BatchState) : list (string * ToolExecution) := tool_executions (st (bs_session b)).

(** Only ids in [P] are open that were not open, as they are, in [d]. *)
Definition opens (d : list (string * ToolExecution)) (P : string -> Prop) (b : BatchState) : Prop :=
  forall id x, dget id (executions b) = Some x -> x_status x = XStarted -> P id \/ dget id d = Some x.

(** An action that leaves the record of executions alone. *)
Definition keeps_executions {A} (c : M Session A) : Prop :=
  forall s, tool_executions (st (fst (c s))) = tool_executions (st s).

Lemma opens_weaken d (P P' : string -> Prop) b : opens d P b -> (forall id, P id -> P' id) -> opens d P' b.
Proof. intros Ho HP id x Hx Hs. destruct (Ho id x Hx Hs); auto. Qed.

Lemma opens_keeps {A} d P (c : M Session A) : keeps_executions c -> triple (opens d P) (on_session c) (fun _ => opens d P).
Proof.
  intros Hk b Hb. unfold on_session. specialize (Hk (bs_session b)). destruct (c (bs_session b)) as [s r]. simpl in *.
  intros id x. unfold executions. simpl. rewrite Hk. apply Hb.
Qed.

Lemma opens_set_completed d P i call r : triple (opens d P) (set_completed i call r) (fun x b => opens d P b /\ x = Ok tt).
Proof. by intros b Hb. Qed.

Lemma opens_set_normalized d P i text : triple (opens d P) (set_normalized i text) (fun _ => opens d P).
Proof. by intros b Hb. Qed.

Lemma message_event_keeps e data x : tool_executions (fst (apply_message e data x)) = tool_executions x.
Proof.
  unfold apply_message, bind, lift, get, modify, ret. destruct (message_from_dict data) as [m|err]; [|done].
  simpl. destruct (ev_turn_id e); [|done]. destruct (is_user_authored m); [|done].
  repeat case_match; done.
Qed.

Section batch_thms.
Context `{Env} (Hsink : accepting).

Lemma add_item_keeps m atts src : keeps_executions (add_item m atts src).
Proof.
  intros s. unfold add_item, add_message, bind, get. rewrite event__state, event_cases. cbv zeta.
  destruct (if has_sink s then _ else _); [done|]. unfold next_event.
  erewrite apply_message_event by reflexivity.
  match goal with |- context [apply_message ?e ?d ?x] => pose proof (message_event_keeps e d x) as Hk;
    destruct (apply_message e d x) as [y r] end.
  unfold accepted. by destruct (has_sink s).
Qed.

Lemma now_keeps : keeps_executions now.
Proof. done. Qed.

(** Starting a call opens it and returns. *)
Lemma opens_start d P call turn :
  tc_id call <> "" ->
  triple (opens d P) (on_session (tool_started call turn))
    (fun r b => r = Ok tt /\ opens d (fun id => id = tc_id call \/ P id) b).
Proof.
  intros Hid b Hb. unfold on_session, tool_started, bind, get.
  match goal with |- context [event_ ?ty ?t ?p ?c ?s] => destruct (event_accepted ty t p c s
    (set_executions (dset (tc_id call) (MkExecution (tc_id call) t (tc_name call) (tc_arguments call) XStarted
       (Some (utcnow (tick s))) None None) (tool_executions (st s))) (st s)) Hsink) as (s' & -> & Hst & _) end.
  - apply nonempty_true in Hid. unfold next_event, apply_event, type_in, name_in. simpl. rewrite Hid.
    unfold apply_tool_started, bind, lift, modify. simpl. by destruct (tc_arguments call).
  - split; [done|]. intros id x. unfold executions. simpl. rewrite Hst. simpl. rewrite dget_dset.
    case_decide as E; [by left; left|]. intros Hx Hs. destruct (Hb id x Hx Hs); auto.
Qed.

(** Finishing a call returns and closes it. *)
Lemma opens_finish d P call status error turn :
  tc_id call <> "" -> status <> XStarted ->
  triple (opens d (fun id => id = tc_id call \/ P id)) (on_session (tool_finished call status error turn))
    (fun r b => r = Ok tt /\ opens d P b).
Proof.
  intros Hid Hst b Hb. unfold on_session, tool_finished, bind, get.
  match goal with |- context [event_ ?ty ?t ?p ?c ?s] =>
    destruct (apply_tool_finished_ok (next_seq s) (uuid4 (tick s)) t (tc_name call) status error (utcnow (tick s))
      (tc_id call) (st s) Hid Hst) as (ex & Hap & Hxs & _);
    destruct (event_accepted ty t p c s _ Hsink Hap) as (s' & -> & Hs' & _) end.
  split; [done|]. intros id x. unfold executions. simpl. rewrite Hs'. simpl. rewrite dget_dset.
  case_decide as E; [intros [= <-]; congruence|]. intros Hx Hs.
  destruct (Hb id x Hx Hs) as [[->|?]|?]; auto. done.
Qed.

Lemma failure_status_closed e : failure_status e <> XStarted.
Proof. unfold failure_status. repeat case_match; done. Qed.

Variable ts : ToolSet.
Variable normalize : ToolResult -> M Session string.
Variable on_call : ToolCall -> Z -> Z -> M Session unit.
Variable on_result : ToolResult -> Z -> Z -> M Session unit.
Variable on_media : list ContentPart -> bool -> M Session unit.
Variable turn_id : string.

Hypothesis execute_keeps : forall call, keeps_executions (execute ts call).
Hypothesis normalize_keeps : forall r, keeps_executions (normalize r).
Hypothesis on_call_keeps : forall c i n, keeps_executions (on_call c i n).
Hypothesis on_result_keeps : forall r i n, keeps_executions (on_result r i n).
Hypothesis on_media_keeps : forall a p, keeps_executions (on_media a p).
Hypothesis hooks_keep : forall ev p, keeps_executions (run_hooks ts ev p).

Lemma opens_close d P call e :
  tc_id call <> "" ->
  triple (opens d (fun id => id = tc_id call \/ P id)) (close_failed turn_id call e) (fun r b => r = Ok tt /\ opens d P b).
Proof. intros Hid. apply opens_finish; [done|apply failure_status_closed]. Qed.

Lemma opens_finish_call d P call r :
  tc_id call <> "" ->
  triple (opens d (fun id => id = tc_id call \/ P id)) (finish_call turn_id call r) (fun x b => x = Ok tt /\ opens d P b).
Proof. intros Hid. apply opens_finish; [done|]. by destruct (tr_error r). Qed.

Lemma opens_commit d P call r i n :
  triple (opens d P) (commit_normalized_result normalize on_result call r i n) (fun _ => opens d P).
Proof.
  unfold commit_normalized_result. apply triple_inv_bind; [by apply opens_keeps|intros text].
  apply triple_inv_bind; [apply opens_keeps, now_keeps|intros t].
  apply triple_inv_bind; [apply opens_keeps, add_item_keeps|intros _].
  apply triple_inv_bind; [by apply opens_keeps|intros _]. by apply triple_ret.
Qed.

Lemma opens_run_active d P n i call :
  tc_id call <> "" ->
  triple (opens d P) (run_active ts on_call turn_id n i call)
    (fun r => match r with Ok _ => opens d P | Err _ => opens d (fun id => id = tc_id call \/ P id) end).
Proof.
  intros Hid. unfold run_active.
  apply (triple_bind _ _ _ (fun r b => r = Ok tt /\ opens d (fun id => id = tc_id call \/ P id) b));
    [by apply opens_start|intros []|by intros ?? [? _]].
  apply (triple_bind _ _ _ (fun _ => opens d (fun id => id = tc_id call \/ P id)));
    [intros b [_ Hb]; by apply opens_keeps|intros []|done].
  apply (triple_bind _ _ _ (fun _ => opens d (fun id => id = tc_id call \/ P id)));
    [by apply opens_keeps|intros result|done].
  apply (triple_bind _ _ _ (fun r b => opens d (fun id => id = tc_id call \/ P id) b /\ r = Ok tt));
    [apply opens_set_completed|intros []|by intros ?? [_ ?]].
  apply (triple_bind _ _ _ (fun r b => r = Ok tt /\ opens d P b));
    [intros b [Hb _]; by apply opens_finish_call|intros []|by intros ?? [? _]].
  apply triple_ret. by intros b [_ Hb].
Qed.

Lemma opens_sequential d P n calls :
  Forall (fun ic => tc_id (snd ic) <> "") calls ->
  triple (opens d P) (execute_sequentially ts normalize on_call on_result turn_id n calls) (fun _ => opens d P).
Proof.
  induction 1 as [|[i call] calls Hid _ IH]; cbn [execute_sequentially]; [by apply triple_ret|].
  apply triple_inv_bind.
  - apply (triple_catch _ _ _ _ _ (opens_run_active d P n i call Hid)); [done|].
    intros e. apply (triple_bind _ _ _ (fun _ => opens d P)); [|intros _; by apply triple_fail|done].
    eapply triple_conseq; [by apply (opens_close d P)|done|]. by intros r b [_ ?].
  - intros result. apply triple_inv_bind; [apply opens_commit|intros text].
    apply triple_inv_bind; [apply opens_set_normalized|intros _]. apply IH.
Qed.

(** *** The concurrent path *)

Definition future_ids (futures : list (Z * ToolCall)) (observed : list Z) (id : string) : Prop :=
  exists i call, (i, call) ∈ futures /\ i ∉ observed /\ tc_id call = id.

Definition ids_ok (calls : list (Z * ToolCall)) : Prop := Forall (fun ic => tc_id (snd ic) <> "") calls.

Lemma opens_submit d n calls : forall futures,
  ids_ok calls ->
  triple (opens d (future_ids futures [])) (submit_all on_call turn_id n futures calls)
    (fun r b => exists futures' e, r = Ok (futures', e) /\ opens d (future_ids futures' []) b /\
       futures' `prefix_of` futures ++ calls).
Proof.
  induction calls as [|[i call] calls IH]; intros futures Hok; cbn [submit_all].
  - apply triple_ret. intros b Hb. eexists _, _. rewrite app_nil_r. done.
  - inversion_clear Hok as [|? ? Hid Hok']. simpl in Hid.
    apply (triple_bind _ _ _ (fun r b => r = Ok tt /\ opens d (fun id => id = tc_id call \/ future_ids futures [] id) b));
      [by apply opens_start|intros []|by intros ?? [? _]].
    apply (triple_bind _ _ _ (fun r b => exists r', r = Ok r' /\
      opens d (fun id => id = tc_id call \/ future_ids futures [] id) b)).
    + apply (triple_attempt _ _ (fun _ => opens d (fun id => id = tc_id call \/ future_ids futures [] id))).
      * intros b [_ Hb]. by apply opens_keeps.
      * intros r b Hb. eauto.
    + intros [[]|e].
      * eapply triple_conseq; [apply (IH (futures ++ [(i, call)]) Hok')| |].
        -- intros b (r' & _ & Hb). apply (opens_weaken _ _ _ _ Hb). intros id [->|(j & c & Hin & Hj & Hc)].
           ++ exists i, call. split; [apply elem_of_app; right; left|]. split; [apply not_elem_of_nil|done].
           ++ exists j, c. split; [by apply elem_of_app; left|done].
        -- intros r b (futures' & e & -> & Hb & Hp). exists futures', e. by rewrite <-app_assoc in Hp.
      * apply (triple_bind _ _ _ (fun r b => r = Ok tt /\ opens d (future_ids futures []) b)).
        -- eapply triple_conseq; [by apply (opens_close d (future_ids futures []))| |done].
           by intros b (r' & _ & Hb).
        -- intros []. apply triple_ret. intros b [_ Hb]. exists futures, (Some e). split_and!; try done.
           by apply prefix_app_r.
        -- by intros ?? [? _].
    + by intros e b (r' & ? & _).
Qed.

Lemma opens_settle d P n first i call :
  tc_id call <> "" ->
  triple (opens d (fun id => id = tc_id call \/ P id)) (settle ts normalize on_result turn_id n first i call)
    (fun r b => (exists fe, r = Ok fe) /\ opens d P b).
Proof.
  intros Hid. unfold settle.
  apply (triple_bind _ _ _ (fun r b => exists r', r = Ok r' /\ opens d (fun id => id = tc_id call \/ P id) b)).
  { apply (triple_attempt _ _ (fun _ => opens d (fun id => id = tc_id call \/ P id))); [by apply opens_keeps|eauto]. }
  2: { by intros e b (r' & ? & _). }
  intros [result|e].
  - apply (triple_bind _ _ _ (fun r b => opens d (fun id => id = tc_id call \/ P id) b /\ r = Ok tt));
      [intros b (r' & _ & Hb); by apply opens_set_completed|intros []|by intros ?? [_ ?]].
    apply (triple_bind _ _ _ (fun r b => exists r', r = Ok r' /\ opens d P b)).
    + apply (triple_attempt _ _ (fun _ => opens d P)); [|eauto].
      apply (triple_bind _ _ _ (fun r b => r = Ok tt /\ opens d P b));
        [intros b [Hb _]; by apply opens_finish_call|intros []|by intros ?? [? _]].
      apply (triple_conseq (opens d P) _ _ (fun _ => opens d P)); [|by intros b [_ ?]|done].
      apply triple_inv_bind; [apply opens_commit|intros text; apply opens_set_normalized].
    + intros [[]|e]; apply triple_ret; intros b (r' & _ & Hb); eauto.
    + by intros e b (r' & ? & _).
  - apply (triple_bind _ _ _ (fun r b => r = Ok tt /\ opens d P b)); [|intros []|by intros ?? [? _]].
    + eapply triple_conseq; [by apply (opens_close d P)| |done]. by intros b (r' & _ & Hb).
    + apply triple_ret. intros b [_ Hb]. eauto.
Qed.

Lemma lookup_index_in {A} i (l : list (Z * A)) a : lookup_index i l = Some a -> (i, a) ∈ l.
Proof.
  induction l as [|[j b] l IH]; simpl; [done|]. destruct (Z.eqb_spec i j) as [->|]; [intros [= ->]; left|].
  intros ?%IH. by right.
Qed.

Lemma NoDup_index_eq {A} (i : Z) (a b : A) (l : list (Z * A)) : NoDup (map fst l) -> (i, a) ∈ l -> (i, b) ∈ l -> a = b.
Proof.
  induction l as [|[j c] l IH]; simpl; [by intros _ ?%not_elem_of_nil|]. intros [Hn Hd]%NoDup_cons.
  assert (Hni : forall x, (i, x) ∈ l -> i <> j).
  { intros x Hx ->. apply Hn. apply list_elem_of_fmap. by exists (j, x). }
  intros Ha Hb. apply elem_of_cons in Ha as [Ha|Ha], Hb as [Hb|Hb]; [congruence| | |by apply IH].
  - injection Ha as -> ->. by destruct (Hni _ Hb).
  - injection Hb as -> ->. by destruct (Hni _ Ha).
Qed.

Lemma existsb_eqb_in i l : existsb (Z.eqb i) l = true <-> i ∈ l.
Proof.
  rewrite existsb_exists. split; [intros (j & Hj & ->%Z.eqb_eq); by apply list_elem_of_In|].
  intros Hi. exists i. split; [by apply list_elem_of_In|apply Z.eqb_refl].
Qed.

(** Observing one more future leaves the others open. *)
Lemma future_ids_observe futures observed i call id :
  NoDup (map fst futures) -> (i, call) ∈ futures ->
  future_ids futures observed id -> id = tc_id call \/ future_ids futures (i :: observed) id.
Proof.
  intros Hnd Hin (j & c & Hj & Ho & <-). destruct (decide (j = i)) as [->|Hne].
  - left. by rewrite (NoDup_index_eq i c call futures Hnd Hj Hin).
  - right. exists j, c. split; [done|]. split; [|done]. by apply not_elem_of_cons.
Qed.

Lemma opens_settle_future d n first i call futures observed :
  NoDup (map fst futures) -> ids_ok futures -> (i, call) ∈ futures ->
  triple (opens d (future_ids futures observed)) (settle ts normalize on_result turn_id n first i call)
    (fun r b => (exists fe, r = Ok fe) /\ opens d (future_ids futures (i :: observed)) b).
Proof.
  intros Hnd Hok Hin. eapply triple_conseq; [apply (opens_settle d (future_ids futures (i :: observed)))| |done].
  - unfold ids_ok in Hok. rewrite Forall_forall in Hok. by apply (Hok _ Hin).
  - intros b Hb. apply (opens_weaken _ _ _ _ Hb). intros id. by apply future_ids_observe.
Qed.

Lemma opens_settle_completed d n futures schedule : forall observed first,
  NoDup (map fst futures) -> ids_ok futures ->
  triple (opens d (future_ids futures observed))
    (settle_completed ts normalize on_result turn_id n futures observed first schedule)
    (fun r b => exists o fe, r = Ok (o, fe) /\ opens d (future_ids futures o) b).
Proof.
  induction schedule as [|[i|e] schedule IH]; intros observed first Hnd Hok; cbn [settle_completed].
  - apply triple_ret. eauto.
  - destruct (lookup_index i futures) as [call|] eqn:El; [|by apply IH].
    apply lookup_index_in in El. destruct (existsb (Z.eqb i) observed); [by apply IH|].
    apply (triple_bind _ _ _ (fun r b => exists fe, r = Ok (Ok fe) /\ opens d (future_ids futures (i :: observed)) b)).
    + apply (triple_attempt _ _ _ _ (opens_settle_future d n first i call futures observed Hnd Hok El)).
      intros r b [[fe ->] Hb]. eauto.
    + intros [fe|e]; [|by intros b (fe & ? & _)].
      eapply triple_conseq; [by apply IH| |done]. by intros b (fe' & _ & Hb).
    + by intros e b (fe & ? & _).
  - apply triple_ret. eauto.
Qed.

Lemma opens_drain d n all observed first futures :
  NoDup (map fst all) -> ids_ok all -> (forall i c, (i, c) ∈ futures -> (i, c) ∈ all) ->
  triple (opens d (fun id => future_ids all observed id /\ exists i c, (i, c) ∈ futures /\ i ∉ observed /\ tc_id c = id))
    (drain_futures ts normalize on_result turn_id n observed first futures)
    (fun r b => (exists fe, r = Ok fe) /\ opens d (fun _ => False) b).
Proof.
  intros Hnd Hok. revert first. induction futures as [|[i call] futures IH]; intros first Hsub; cbn [drain_futures].
  - apply triple_ret. intros b Hb. split; [eauto|]. apply (opens_weaken _ _ _ _ Hb).
    intros id (_ & i & c & Hin & _). by apply not_elem_of_nil in Hin.
  - assert (Hsub' : forall i c, (i, c) ∈ futures -> (i, c) ∈ all) by (intros j c Hj; apply Hsub; by right).
    destruct (existsb (Z.eqb i) observed) eqn:Eo.
    + eapply triple_conseq; [by apply IH| |done]. intros b Hb. apply (opens_weaken _ _ _ _ Hb).
      intros id (Hf & j & c & [[= -> ->]|Hin]%elem_of_cons & Hj & Hc); [by apply existsb_eqb_in in Eo|]. eauto 8.
    + apply (triple_bind _ _ _ (fun r b => (exists fe, r = Ok fe) /\
        opens d (fun id => future_ids all observed id /\ exists i c, (i, c) ∈ futures /\ i ∉ observed /\ tc_id c = id) b)).
      * eapply triple_conseq; [apply (opens_settle d (fun id => future_ids all observed id /\
          exists i c, (i, c) ∈ futures /\ i ∉ observed /\ tc_id c = id))| |done].
        -- unfold ids_ok in Hok. rewrite Forall_forall in Hok. apply (Hok (i, call)), Hsub. left.
        -- intros b Hb. apply (opens_weaken _ _ _ _ Hb).
           intros id (Hf & j & c & [[= -> ->]|Hin]%elem_of_cons & Hj & Hc); [by left|right]. eauto 8.
      * intros fe. eapply triple_conseq; [by apply IH| |done]. by intros b [_ Hb].
      * by intros e b [[fe ?] _].
Qed.

Lemma enumerate_fst i calls j : j ∈ map fst (enumerate i calls) -> i <= j.
Proof.
  revert i. induction calls as [|c calls IH]; intros i; simpl; [by intros ?%not_elem_of_nil|].
  intros [->|Hj]%elem_of_cons; [lia|]. apply IH in Hj. lia.
Qed.

Lemma enumerate_NoDup i calls : NoDup (map fst (enumerate i calls)).
Proof.
  revert i. induction calls as [|c calls IH]; intros i; simpl; [constructor|]. constructor; [|apply IH].
  intros Hi%enumerate_fst. lia.
Qed.

Lemma enumerate_ids i calls : Forall (fun c => tc_id c <> "") calls -> ids_ok (enumerate i calls).
Proof. intros Hc. revert i. induction Hc; intros i; simpl; constructor; [done|]. apply IHHc. Qed.

Lemma prefix_future_ok futures calls :
  futures `prefix_of` calls -> NoDup (map fst calls) -> ids_ok calls -> NoDup (map fst futures) /\ ids_ok futures.
Proof.
  intros [rest ->] Hnd Hok. rewrite map_app in Hnd. apply NoDup_app in Hnd as [Hnd _].
  by apply Forall_app in Hok as [Hok _].
Qed.

(** What follows the submission of [futures]. *)
Lemma opens_collect d schedule n futures fe0 :
  NoDup (map fst futures) -> ids_ok futures ->
  triple (opens d (future_ids futures []))
    (settled <- settle_completed ts normalize on_result turn_id n futures [] fe0 schedule ;;
     first_error <- drain_futures ts normalize on_result turn_id n (fst settled) (snd settled) futures ;;
     match first_error with Some e => fail e | None => ret tt end)
    (fun _ => opens d (fun _ => False)).
Proof.
  intros Hndf Hokf.
  apply (triple_bind _ _ _ (fun r b => exists o fe, r = Ok (o, fe) /\ opens d (future_ids futures o) b));
    [by apply opens_settle_completed| |by intros e b (o & fe & ? & _)].
  intros [observed fe1]. simpl fst. simpl snd.
  apply (triple_bind _ _ _ (fun r b => (exists fe, r = Ok fe) /\ opens d (fun _ => False) b)).
  - eapply triple_conseq; [apply (opens_drain d n futures observed fe1 futures Hndf Hokf); done| |auto].
    intros b (o & fe & [= -> ->] & Hb). apply (opens_weaken _ _ _ _ Hb). intros id Hf. split; [done|]. exact Hf.
  - intros [e|]; [apply triple_fail|apply triple_ret]; by intros b [_ Hb].
  - by intros e b [[fe ?] _].
Qed.

Lemma opens_concurrent d schedule n calls :
  NoDup (map fst calls) -> ids_ok calls ->
  triple (opens d (fun _ => False)) (execute_concurrently ts normalize on_call on_result turn_id schedule n calls)
    (fun _ => opens d (fun _ => False)).
Proof.
  intros Hnd Hok. unfold execute_concurrently.
  apply (triple_bind _ _ _ (fun r b => exists futures' e, r = Ok (futures', e) /\ opens d (future_ids futures' []) b /\
       futures' `prefix_of` [] ++ calls)).
  - eapply triple_conseq; [by apply (opens_submit d n calls [])| |auto]. intros b Hb. by apply (opens_weaken _ _ _ _ Hb).
  - intros [futures fe0]. simpl fst. simpl snd. intros b (f & e' & [= <- <-] & Hb & Hp). simpl in Hp.
    destruct (prefix_future_ok _ _ Hp Hnd Hok) as [Hndf Hokf]. by apply opens_collect.
  - by intros e b (f & e' & ? & _).
Qed.

Lemma opens_media d P results : triple (opens d P) (commit_media on_media results) (fun _ => opens d P).
Proof.
  assert (Hpass : forall present, triple (opens d P) (commit_media_pass on_media results present) (fun _ => opens d P)).
  { intros present. unfold commit_media_pass. destruct (flat_map _ _); [by apply triple_ret|].
    apply triple_inv_bind; [apply opens_keeps, now_keeps|intros t0].
    apply triple_inv_bind; [apply opens_keeps, add_item_keeps|intros _]. by apply opens_keeps. }
  unfold commit_media. apply triple_inv_bind; [apply Hpass|intros _; apply Hpass].
Qed.

Lemma opens_post_hooks d P calls : forall feedback, triple (opens d P) (post_hooks ts feedback calls) (fun _ => opens d P).
Proof.
  induction calls as [|[i call] calls IH]; intros feedback; cbn [post_hooks]; [by apply triple_ret|].
  apply triple_inv_bind; [apply triple_inv_get|intros b0].
  destruct (lookup_index i (bs_completed b0)) as [[c r]|]; [|by apply triple_fail].
  destruct (tr_executed r); [|apply IH].
  destruct (lookup_index i (bs_normalized b0)); [|by apply triple_fail].
  apply triple_inv_bind; [by apply opens_keeps|intros hook; apply IH].
Qed.

Lemma feedback_keeps feedback : keeps_executions (append_hook_feedback feedback).
Proof. destruct feedback; [by intros s|apply add_item_keeps]. Qed.

Lemma opens_batch d schedule calls :
  Forall (fun c => tc_id c <> "") calls ->
  triple (opens d (fun _ => False)) (execute_batch ts normalize on_call on_result on_media turn_id schedule calls)
    (fun _ => opens d (fun _ => False)).
Proof.
  intros Hids. assert (Hbody : triple (opens d (fun _ => False))
    (batch_body ts normalize on_call on_result on_media turn_id schedule calls) (fun _ => opens d (fun _ => False))).
  { unfold batch_body. apply triple_inv_bind.
    - destruct (is_concurrent_batch ts calls);
        [apply opens_concurrent; [apply enumerate_NoDup|by apply enumerate_ids]|].
      apply opens_sequential. by apply enumerate_ids.
    - intros _. apply triple_inv_bind; [apply triple_inv_get|intros b0].
      apply triple_inv_bind; [apply triple_inv_lift|intros results].
      apply triple_inv_bind; [apply opens_media|intros _].
      apply triple_inv_bind; [apply opens_post_hooks|intros feedback]. apply opens_keeps, feedback_keeps. }
  intros b Hb. specialize (Hbody b Hb). unfold execute_batch, finally.
  by destruct (batch_body _ _ _ _ _ _ _ _ b) as [b' r].
Qed.
End batch_thms.


(** Two concurrent reads: the second completes first and the coordinator is
    interrupted before the first is observed. *)
Definition read_tool : Tool := MkTool "read_file" true (fun _ _ => ret (PlainOutput (JStr "text"))).
Definition reading : ToolSet := MkToolSet [("read_file", read_tool)] None None None (ret false).
Definition two_reads : list ToolCall :=
  [MkToolCall "r1" "read_file" (ArgsDict []) None; MkToolCall "r2" "read_file" (ArgsDict []) None].
Definition begun : BatchState := MkBatch demo_begun [] [] [].
Definition interrupted_reads : BatchState * res unit :=
  @execute_batch demo_env reading (fun _ => ret "{}") (fun _ _ _ => ret tt) (fun _ _ _ => ret tt) (fun _ _ => ret tt)
    "uuid-0" [Completes 2; Interrupted (Exn EKeyboardInterrupt "")] two_reads begun.

