(* ===== verification/Jobs.v ===== *)
(** * Background jobs: agent_core/jobs.py

    Every method of the manager holds its condition, so a method is an atomic
    action on [JobState].  The thread pool is visible through the state of a
    job's future: pending until a worker picks it, running, done or cancelled.
    A worker makes three steps: [pick] (the pool takes the future), [run_begin]
    and [run_end] (the two critical sections of [_run]), with the outcome of the
    job's function in between. *)

From stdpp Require Import base list strings pretty.
From Stdlib Require Import ZArith Lia Ascii.
From S2P Require Import Prelude PyData PyStr Json PyTime Content Plan Authority Message Session Tools.

Inductive Future := FPending | FRunning | FDone | FCancelled.

#[export] Instance Future_eq_dec : EqDecision Future.
Proof. solve_decision. Defined.

(** The class [_Job]; [jb_cancelled] is its token. *)
Record Job := MkJob {
  jb_id : string;
  jb_turn : string;
  jb_kind : string;
  jb_cancelled : bool;
  jb_details : list (string * json);
  jb_status : JobExecutionStatus;
  jb_future : option Future;
  jb_started : bool;
  jb_progress : json;
}.

Record JobUpdate := MkUpdate {
  ju_id : string;
  ju_turn : string;
  ju_kind : string;
  ju_status : JobExecutionStatus;
  ju_details : list (string * json);
  ju_output : json;
  ju_error : option ToolError;
}.

#[export] Instance JobUpdate_eq_dec : EqDecision JobUpdate.
Proof. solve_decision. Defined.

Definition is_terminal (s : JobExecutionStatus) : bool :=
  match s with JCompleted | JFailed | JCancelled => true | _ => false end.
Definition terminal (u : JobUpdate) : bool := is_terminal (ju_status u).
Definition is_live (s : JobExecutionStatus) : bool :=
  match s with JSubmitted | JRunning => true | _ => false end.
Definition live (j : Job) : bool := is_live (jb_status j).

Record JobState := MkJobState {
  js_session : Session;
  js_jobs : list (string * Job);
  js_updates : list JobUpdate;
  js_closed : bool;
}.

Record JobSnapshot := MkSnapshot {
  sn_job_id : string;
  sn_kind : string;
  sn_status : JobExecutionStatus;
  sn_details : list (string * json);
  sn_elapsed_seconds : json;
  sn_progress : json;
  sn_error : option string;
  sn_result_summary : json;
  sn_cancel_requested : bool;
}.

Definition set_future f (j : Job) : Job :=
  MkJob (jb_id j) (jb_turn j) (jb_kind j) (jb_cancelled j) (jb_details j) (jb_status j) f (jb_started j) (jb_progress j).
Definition set_status v (j : Job) : Job :=
  MkJob (jb_id j) (jb_turn j) (jb_kind j) (jb_cancelled j) (jb_details j) v (jb_future j) (jb_started j) (jb_progress j).
Definition set_started (j : Job) : Job :=
  MkJob (jb_id j) (jb_turn j) (jb_kind j) (jb_cancelled j) (jb_details j) (jb_status j) (jb_future j) true (jb_progress j).
Definition set_token (j : Job) : Job :=
  MkJob (jb_id j) (jb_turn j) (jb_kind j) true (jb_details j) (jb_status j) (jb_future j) (jb_started j) (jb_progress j).
Definition set_progress p (j : Job) : Job :=
  MkJob (jb_id j) (jb_turn j) (jb_kind j) (jb_cancelled j) (jb_details j) (jb_status j) (jb_future j) (jb_started j) p.

(** What a job's function does: it returns an output, possibly with a summary,
    or raises; [RunCancelled] is [JobCancelled]. *)
Inductive RunOutcome :=
| RunOutput (output : ToolOutcome) (summary : json)
| RunCancelled
| RunError (e : exn).

(** [uuid4().hex] *)
Fixpoint uuid_hex (s : string) : string :=
  match s with
  | "" => ""
  | String c s' => if Ascii.eqb c "-"%char then uuid_hex s' else String c (uuid_hex s')
  end.

Section manager.
Context `{Env}.
(** [on_update]: the callback; [normalizer]: ToolResultNormalizer.normalize, when
    set; [elapsed]: the seconds since the job started, at a tick. *)
Variable on_update : option (JobUpdate -> M Session unit).
Variable normalizer : option (ToolResult -> M Session string).
Variable elapsed : nat -> json.

Definition job_session {A} (c : M Session A) : M JobState A := fun s =>
  let '(x, r) := c (js_session s) in (MkJobState x (js_jobs s) (js_updates s) (js_closed s), r).
Definition put_jobs f : M JobState unit := modify (fun s =>
  MkJobState (js_session s) (f (js_jobs s)) (js_updates s) (js_closed s)).
Definition put_updates f : M JobState unit := modify (fun s =>
  MkJobState (js_session s) (js_jobs s) (f (js_updates s)) (js_closed s)).

(** Change the job object with this id. *)
Definition update_job (id : string) (f : Job -> Job) : M JobState unit :=
  put_jobs (fun d => match dget id d with Some j => dset id (f j) d | None => d end).

Definition publish (u : JobUpdate) : M JobState unit :=
  put_updates (fun l => l ++ [u]) ;;;
  match on_update with Some f => job_session (f u) | None => ret tt end.

Definition new_job_id (s : JobState) : string := "job_" +:+ stake 12 (uuid_hex (uuid4 (tick (js_session s)))).

(** [pool]: what the executor raises, if anything. *)
Definition submit_job (pool : option exn) (kind turn_id : string) (details : list (string * json)) : M JobState string :=
  s <- get ;;
  let job_id := new_job_id s in
  job_session (modify (advance 1)) ;;;
  if js_closed s then fail (Exn ERuntimeError "job manager is closed") else
  put_jobs (dset job_id (MkJob job_id turn_id kind false details JSubmitted None false JNull)) ;;;
  publish (MkUpdate job_id turn_id kind JSubmitted details JNull None) ;;;
  job_session (job_submitted job_id kind turn_id details) ;;;
  match pool with
  | Some e =>
      put_jobs (dpop job_id) ;;;
      put_updates (List.filter (fun u => negb (String.eqb (ju_id u) job_id))) ;;;
      fail e
  | None => update_job job_id (set_future (Some FPending)) ;;; ret job_id
  end.

(** [_finish_locked] *)
Definition finish_locked (j : Job) (status : JobExecutionStatus) (output : json) (error : option ToolError)
    (summary : json) : M JobState unit :=
  update_job (jb_id j) (set_status status) ;;;
  s <- get ;;
  job_session (job_finished (jb_id j) (jb_kind j) status (jb_turn j)
    (if jb_started j then elapsed (tick (js_session s)) else jzero) summary (jb_progress j) (te_message <$> error)) ;;;
  publish (MkUpdate (jb_id j) (jb_turn j) (jb_kind j) status (jb_details j) output error).

(** The pool hands a pending future to a worker. *)
Definition pick (id : string) : M JobState unit :=
  s <- get ;;
  match dget id (js_jobs s) with
  | Some j => if bool_decide (jb_future j = Some FPending) then update_job id (set_future (Some FRunning)) else ret tt
  | None => ret tt
  end.

(** The first critical section of [_run], for a job whose worker is at its start. *)
Definition run_begin (id : string) : M JobState unit :=
  s <- get ;;
  match dget id (js_jobs s) with
  | Some j =>
      if negb (bool_decide (jb_future j = Some FRunning) && bool_decide (jb_status j = JSubmitted)) then ret tt
      else if jb_cancelled j then
        update_job id (set_future (Some FDone)) ;;; finish_locked (set_future (Some FDone) j) JCancelled JNull None JNull
      else
        update_job id (fun j => set_started (set_status JRunning j)) ;;;
        job_session (job_started id (jb_kind j) (jb_turn j)) ;;;
        publish (MkUpdate id (jb_turn j) (jb_kind j) JRunning (jb_details j) JNull None)
  | None => ret tt
  end.

(** [_normalize_output] *)
Definition normalize_output (j : Job) (o : ToolOutcome) : M Session json :=
  let output := match o with PlainOutput v => v | RichOutput v _ _ _ => v | ToolFailed _ => JNull end in
  let attachments := match o with RichOutput _ atts _ _ => atts | _ => [] end in
  let artifact := match o with RichOutput _ _ _ a => a | _ => None end in
  match normalizer with
  | None => ret output
  | Some normalize =>
      match attachments with
      | _ :: _ => fail (Exn EValueError "background jobs cannot return image attachments")
      | [] => text <- normalize (MkToolResult (jb_id j) (jb_kind j) output None [] false false [] artifact) ;;
              ret (JStr text)
      end
  end.

(** The end of [_run]: the handlers for the outcome of the job's function. *)
Definition run_end (id : string) (outcome : RunOutcome) : M JobState unit :=
  s <- get ;;
  match dget id (js_jobs s) with
  | Some j =>
      if negb (bool_decide (jb_future j = Some FRunning) && bool_decide (jb_status j = JRunning)) then ret tt else
      update_job id (set_future (Some FDone)) ;;;
      match outcome with
      | RunCancelled => finish_locked j JCancelled JNull None JNull
      | RunError e =>
          if jb_cancelled j then finish_locked j JCancelled JNull None JNull
          else finish_locked j JFailed JNull (Some (exn_error e)) JNull
      | RunOutput o summary =>
          r <- job_session (fun x => let '(x', r) := normalize_output j o x in (x', Ok r)) ;;
          match r with
          | Err e => finish_locked j JFailed JNull (Some (exn_error e)) summary
          | Ok normalized => finish_locked j JCompleted normalized None summary
          end
      end
  | None => ret tt
  end.

Definition report_progress (id : string) (progress : json) : M JobState unit :=
  update_job id (fun j => if bool_decide (jb_status j = JRunning) then set_progress progress j else j).

Definition drain_updates (turn_id : string) : M JobState (list JobUpdate) :=
  s <- get ;;
  let selected := List.filter (fun u => String.eqb (ju_turn u) turn_id) (js_updates s) in
  put_updates (List.filter (fun u => negb (String.eqb (ju_turn u) turn_id))) ;;;
  put_jobs (fun d => fold_left (fun d u => if terminal u then dpop (ju_id u) d else d) selected d) ;;;
  ret selected.

Definition turn_live (turn_id : string) (d : list (string * Job)) : bool :=
  existsb (fun j => String.eqb (jb_turn j) turn_id && live j) (dvalues d).

Definition drain_terminal_state (turn_id : string) : M JobState (list JobUpdate * bool) :=
  s <- get ;;
  let selected := List.filter (fun u => String.eqb (ju_turn u) turn_id && terminal u) (js_updates s) in
  put_updates (List.filter (fun u => negb (name_in (ju_id u) (map ju_id selected)))) ;;;
  put_jobs (fun d => fold_left (fun d u => dpop (ju_id u) d) selected d) ;;;
  s <- get ;;
  ret (selected, turn_live turn_id (js_jobs s)).

(** [_snapshot_locked]; the record of the session decides what is known. *)
Definition snapshot_locked (job_id : string) : M JobState JobSnapshot :=
  s <- get ;;
  match dget job_id (jobs (st (js_session s))) with
  | None => fail (Exn EValueError ("unknown job_id: " +:+ job_id))
  | Some record =>
      let job := dget job_id (js_jobs s) in
      ret (MkSnapshot (j_job_id record) (j_kind record) (j_status record) (j_details record)
        (match job with
         | Some j => if bool_decide (jb_status j = JRunning) && jb_started j
                     then elapsed (tick (js_session s)) else j_elapsed_seconds record
         | None => j_elapsed_seconds record
         end)
        (match job with Some j => jb_progress j | None => j_progress record end)
        (j_error record) (j_result_summary record)
        (match job with Some j => live j && jb_cancelled j | None => false end))
  end.

Fixpoint snapshots (js : list Job) : M JobState (list JobSnapshot) :=
  match js with
  | [] => ret []
  | j :: js' => if live j then x <- snapshot_locked (jb_id j) ;; xs <- snapshots js' ;; ret (x :: xs)
                else snapshots js'
  end.

(** [JobManager.list] *)
Definition list_jobs : M JobState (list JobSnapshot) := s <- get ;; snapshots (dvalues (js_jobs s)).

(** [_cancel_locked]: [future.cancel()] succeeds on a pending future only. *)
Definition cancel_locked (id : string) : M JobState unit :=
  s <- get ;;
  match dget id (js_jobs s) with
  | None => ret tt
  | Some j =>
      if negb (live j) then ret tt else
      update_job id set_token ;;;
      if bool_decide (jb_future j = Some FPending) then
        update_job id (set_future (Some FCancelled)) ;;; finish_locked j JCancelled JNull None JNull
      else ret tt
  end.

Definition cancel_job (job_id : string) : M JobState JobSnapshot :=
  snapshot <- snapshot_locked job_id ;;
  s <- get ;;
  (if is_live (sn_status snapshot) then
     match dget job_id (js_jobs s) with
     | None => fail (Exn EKeyError job_id)
     | Some _ => cancel_locked job_id
     end
   else ret tt) ;;;
  snapshot_locked job_id.

Definition cancel_turn (turn_id : string) : M JobState unit :=
  s <- get ;;
  for_each cancel_locked (map jb_id (List.filter (fun j => String.eqb (jb_turn j) turn_id) (dvalues (js_jobs s)))).

(** [wait_for_update] with the updates there are now. *)
Definition has_terminal_update (turn_id : string) (s : JobState) : bool :=
  existsb (fun u => String.eqb (ju_turn u) turn_id && terminal u) (js_updates s).

(** The condition [wait_for_turn] waits to become false. *)
Definition turn_busy (turn_id : string) (s : JobState) : bool := turn_live turn_id (js_jobs s).

(** The first critical section of [close]: the turns it then cancels and waits for. *)
Definition mark_closed : M JobState (list string) :=
  s <- get ;;
  if js_closed s then ret [] else
  modify (fun s => MkJobState (js_session s) (js_jobs s) (js_updates s) true) ;;;
  ret (map jb_turn (List.filter live (dvalues (js_jobs s)))).
End manager.
