(* ===== verification/JobThms.v ===== *)
(** * Theorems on background jobs

    Claims about agent_core/jobs.py: results are delivered exactly once, a turn
    without pending jobs has none left, cancellation makes progress; and what a
    journal that refuses a submission leaves behind. *)

From stdpp Require Import base sets list strings pretty.
From Stdlib Require Import ZArith Lia Permutation.
From S2P Require Import Prelude PyData PyStr Json PyTime Content Plan Authority Message Session Tools Jobs.
From S2P Require Import SessionProps SessionThms TurnControl.

(** ** The books of the manager

    [sub]: the ids submitted so far; [del]: the terminal updates delivered. *)
Record job_inv (sub : list string) (del : list JobUpdate) (d : list (string * Job)) (us : list JobUpdate) : Prop := {
  ji_keys : NoDup (dkeys d);
  ji_id : forall id j, dget id d = Some j -> jb_id j = id;
  ji_future : forall id j, dget id d = Some j -> live j = true ->
    (jb_future j = Some FPending /\ jb_status j = JSubmitted) \/ jb_future j = Some FRunning;
  ji_status : forall id j, dget id d = Some j -> live j || is_terminal (jb_status j) = true;
  ji_queued : forall u, u ∈ us -> terminal u = true ->
    exists j, dget (ju_id u) d = Some j /\ jb_turn j = ju_turn u /\ jb_status j = ju_status u;
  ji_done : forall id j, dget id d = Some j -> live j = false ->
    exists u, u ∈ us /\ ju_id u = id /\ terminal u = true;
  ji_once : NoDup (map ju_id (List.filter terminal us));
  ji_books : Permutation sub (map ju_id del ++ dkeys d);
}.

Lemma terminal_not_live v : is_terminal v = true -> is_live v = false.
Proof. by destruct v. Qed.

Lemma dget_in_keys {V} id (d : list (string * V)) v : dget id d = Some v -> id ∈ dkeys d.
Proof. intros Hg%dget_Some_in. apply list_elem_of_fmap. by exists (id, v). Qed.

(** Changing a job without touching its identity, turn and status. *)
Lemma inv_touch sub del d us id j j' :
  job_inv sub del d us -> dget id d = Some j ->
  jb_id j' = jb_id j -> jb_turn j' = jb_turn j -> jb_status j' = jb_status j ->
  (live j' = true -> (jb_future j' = Some FPending /\ jb_status j' = JSubmitted) \/ jb_future j' = Some FRunning) ->
  job_inv sub del (dset id j' d) us.
Proof.
  intros [Hk Hi Hf Hs Hq Hd Ho Hb] Hj Eid Et Es Hfut.
  assert (Hkeys : dkeys (dset id j' d) = dkeys d) by (rewrite dkeys_dset; unfold dhas; by rewrite Hj).
  split; try (by rewrite ?Hkeys); try done.
  - intros k x. rewrite dget_dset. case_decide as E; [|apply Hi]. intros [= <-]. subst k. rewrite Eid. by apply Hi.
  - intros k x. rewrite dget_dset. case_decide as E; [|apply Hf]. by intros [= <-].
  - intros k x. rewrite dget_dset. case_decide as E; [|apply Hs]. intros [= <-]. unfold live. rewrite Es. by apply (Hs id).
  - intros u Hu Hu'. destruct (Hq u Hu Hu') as (x & Hx & Ht & Hst). rewrite dget_dset. case_decide as E; [|eauto].
    subst id. rewrite Hj in Hx. injection Hx as <-. exists j'. by rewrite Et, Es.
  - intros k x. rewrite dget_dset. case_decide as E; [|apply Hd]. intros [= <-]. subst k. unfold live. rewrite Es.
    by apply Hd.
Qed.

(** Finishing a live job and publishing its terminal update. *)
Lemma inv_finish sub del d us id j j' u :
  job_inv sub del d us -> dget id d = Some j -> live j = true ->
  jb_id j' = jb_id j -> jb_turn j' = jb_turn j -> is_terminal (jb_status j') = true ->
  ju_id u = id -> ju_turn u = jb_turn j -> ju_status u = jb_status j' ->
  job_inv sub del (dset id j' d) (us ++ [u]).
Proof.
  intros [Hk Hi Hf Hs Hq Hd Ho Hb] Hj Hl Eid Et Hterm Eu Eut Eus.
  assert (Hkeys : dkeys (dset id j' d) = dkeys d) by (rewrite dkeys_dset; unfold dhas; by rewrite Hj).
  assert (Hlive : live j' = false) by (by apply terminal_not_live).
  assert (Hno : forall v, v ∈ us -> terminal v = true -> ju_id v <> id).
  { intros v Hv Hvt E. destruct (Hq v Hv Hvt) as (x & Hx & _ & Hst). rewrite E, Hj in Hx. injection Hx as <-.
    unfold live in Hl. rewrite Hst in Hl. apply terminal_not_live in Hvt. congruence. }
  split; try (by rewrite ?Hkeys).
  - intros k x. rewrite dget_dset. case_decide as E; [|apply Hi]. intros [= <-]. subst k. rewrite Eid. by apply Hi.
  - intros k x. rewrite dget_dset. case_decide as E; [|apply Hf]. intros [= <-]. congruence.
  - intros k x. rewrite dget_dset. case_decide as E; [|apply Hs]. intros [= <-]. by rewrite Hterm, orb_true_r.
  - intros v [Hv|Hv%list_elem_of_singleton]%elem_of_app Hvt.
    + destruct (Hq v Hv Hvt) as (x & Hx & Ht & Hst). rewrite dget_dset. case_decide as E; [|eauto].
      by destruct (Hno v Hv Hvt).
    + subst v. exists j'. rewrite Eu, dget_dset_eq. by rewrite Et, Eut, Eus.
  - intros k x. rewrite dget_dset. case_decide as E.
    + intros [= <-] _. exists u. split; [by apply elem_of_app; right; left|]. unfold terminal. by rewrite Eus, Eu.
    + intros Hx Hlx. destruct (Hd k x Hx Hlx) as (v & Hv & ? & ?). exists v. split; [by apply elem_of_app; left|done].
  - rewrite List.filter_app, map_app. cbn [List.filter]. unfold terminal at 2. rewrite Eus, Hterm. simpl.
    apply NoDup_app. split; [done|]. split; [|apply NoDup_singleton].
    intros k Hk' ->%list_elem_of_singleton. apply list_elem_of_fmap in Hk' as (v & Ev & Hv).
    apply list_elem_of_In, filter_In in Hv as [Hv Hvt]. apply (Hno v); [by apply list_elem_of_In|done|congruence].
Qed.

(** Publishing an update that is not terminal. *)
Lemma inv_publish sub del d us u : job_inv sub del d us -> terminal u = false -> job_inv sub del d (us ++ [u]).
Proof.
  intros [Hk Hi Hf Hs Hq Hd Ho Hb] Hu. split; try done.
  - intros v [Hv| ->%list_elem_of_singleton]%elem_of_app Hvt; [by apply Hq|congruence].
  - intros k x Hx Hl. destruct (Hd k x Hx Hl) as (v & Hv & ? & ?). exists v. split; [by apply elem_of_app; left|done].
  - rewrite List.filter_app. cbn [List.filter]. by rewrite Hu, app_nil_r.
Qed.

(** Popping the jobs of a list of updates. *)
Definition pop_all (l : list JobUpdate) (d : list (string * Job)) : list (string * Job) :=
  fold_left (fun d u => dpop (ju_id u) d) l d.

Lemma dpop_dset_fresh {V} k (v : V) d : dget k d = None -> dpop k (dset k v d) = d.
Proof.
  induction d as [|[k' v'] d IH]; simpl; [by rewrite String.eqb_refl|].
  destruct (String.eqb k k') eqn:E; [done|]. intros Hd. simpl. by rewrite E, IH.
Qed.

Lemma dpop_perm {V} k (d : list (string * V)) : k ∈ dkeys d -> Permutation (dkeys d) (k :: dkeys (dpop k d)).
Proof.
  induction d as [|[k' v] d IH]; unfold dkeys in *; simpl; [by intros ?%not_elem_of_nil|]. intros Hk.
  destruct (String.eqb_spec k k') as [->|Hne]; [done|]. simpl.
  apply elem_of_cons in Hk as [|Hk]; [done|]. rewrite (IH Hk) at 1. apply perm_swap.
Qed.

Lemma pop_all_spec l : forall d,
  NoDup (dkeys d) -> NoDup (map ju_id l) -> (forall u, u ∈ l -> ju_id u ∈ dkeys d) ->
  NoDup (dkeys (pop_all l d)) /\ Permutation (dkeys d) (map ju_id l ++ dkeys (pop_all l d)) /\
  (forall k, dget k (pop_all l d) = if bool_decide (k ∈ map ju_id l) then None else dget k d).
Proof.
  unfold pop_all. induction l as [|u l IH]; intros d Hd Hl Hin; simpl; [done|].
  simpl in Hl. apply NoDup_cons in Hl as [Hu Hl].
  assert (Hget : forall k, dget k (dpop (ju_id u) d) = if decide (k = ju_id u) then None else dget k d).
  { intros k. case_decide as E; [subst; by apply dget_dpop_eq|]. by apply dget_dpop_ne. }
  destruct (IH (dpop (ju_id u) d)) as (H1 & H2 & H3); [by apply dpop_NoDup|done| |].
  { intros v Hv. assert (Hne : ju_id v <> ju_id u) by (intros E; apply Hu; rewrite <-E; by apply list_elem_of_fmap_2).
    destruct (dget (ju_id v) (dpop (ju_id u) d)) eqn:E; [by eapply dget_in_keys|].
    rewrite Hget in E. rewrite decide_False in E by done. apply dget_None_not_in in E. destruct E. apply Hin. by right. }
  split; [done|]. split.
  - rewrite (dpop_perm (ju_id u) d) by (apply Hin; left). by constructor.
  - intros k. rewrite H3, Hget. destruct (decide (k = ju_id u)) as [->|Hne].
    + rewrite (bool_decide_true (ju_id u ∈ ju_id u :: _)) by left. by case_bool_decide.
    + case_bool_decide as E1; case_bool_decide as E2; try done; set_solver.
Qed.

Lemma filter_comm {A} (p q : A -> bool) l : List.filter p (List.filter q l) = List.filter q (List.filter p l).
Proof.
  induction l as [|x l IH]; simpl; [done|].
  destruct (p x) eqn:Ep, (q x) eqn:Eq; simpl; rewrite ?Ep, ?Eq; by rewrite ?IH.
Qed.

(** Removing delivered jobs. *)
Lemma inv_deliver sub del d us sel us' p :
  job_inv sub del d us ->
  (forall u, u ∈ sel <-> u ∈ us /\ terminal u = true /\ u ∉ us') ->
  us' = List.filter p us -> NoDup (map ju_id sel) ->
  (forall u v, u ∈ sel -> v ∈ us' -> terminal v = true -> ju_id v <> ju_id u) ->
  job_inv sub (del ++ sel) (pop_all sel d) us'.
Proof.
  intros [Hk Hi Hf Hs Hq Hd Ho Hb] Hsel Hsub Hnd Hdis.
  destruct (pop_all_spec sel d Hk Hnd) as (H1 & H2 & H3).
  { intros u Hu. apply Hsel in Hu as (Hu & Hut & _). destruct (Hq u Hu Hut) as (j & Hj & _). by eapply dget_in_keys. }
  assert (Hsome : forall k j, dget k (pop_all sel d) = Some j ->
    dget k d = Some j /\ k ∉ map ju_id sel).
  { intros k j. rewrite H3. by case_bool_decide. }
  split.
  - done.
  - intros k j [Hj _]%Hsome. by apply Hi.
  - intros k j [Hj _]%Hsome. by apply (Hf k).
  - intros k j [Hj _]%Hsome. by apply (Hs k).
  - intros v Hv Hvt. destruct (Hq v) as (j & Hj & ? & ?); [by rewrite Hsub in Hv; apply list_elem_of_In, filter_In in Hv as [Hv _]; apply list_elem_of_In|done|]. exists j. split; [|done].
    rewrite H3, bool_decide_false; [done|]. intros (u & Eu & Hu)%list_elem_of_fmap. by apply (Hdis u v).
  - intros k j [Hj Hk']%Hsome Hl. destruct (Hd k j Hj Hl) as (u & Hu & Eu & Hut). exists u. split; [|done].
    destruct (decide (u ∈ us')) as [|Hn]; [done|]. exfalso. apply Hk'. rewrite <-Eu. apply list_elem_of_fmap_2.
    by apply Hsel.
  - rewrite Hsub, filter_comm. apply (sublist_NoDup _ (map ju_id (List.filter terminal us))); [done|].
    apply fmap_sublist, filter_sublist.
  - rewrite Hb, map_app, <-app_assoc. by apply Permutation_app_head.
Qed.

(** ** The operations *)

Inductive JobOp :=
| OpSubmit (pool : option exn) (kind turn_id : string) (details : list (string * json))
| OpPick (id : string)
| OpBegin (id : string)
| OpEnd (id : string) (outcome : RunOutcome)
| OpProgress (id : string) (p : json)
| OpCancelJob (id : string)
| OpCancelTurn (turn_id : string)
| OpDrainAll (turn_id : string)
| OpDrainTerminal (turn_id : string)
| OpClose.

Section ops.
Context `{Env}.
Variable on_update : option (JobUpdate -> M Session unit).
Variable normalizer : option (ToolResult -> M Session string).
Variable elapsed : nat -> json.

(** One operation: the new state, the id it submitted, the terminal updates it delivered. *)
Definition run_job_op (op : JobOp) (s : JobState) : JobState * list string * list JobUpdate :=
  match op with
  | OpSubmit pool kind turn details =>
      match submit_job on_update pool kind turn details s with
      | (s', Ok id) => (s', [id], [])
      | (s', Err _) => (s', [], [])
      end
  | OpPick id => (fst (pick id s), [], [])
  | OpBegin id => (fst (run_begin on_update elapsed id s), [], [])
  | OpEnd id o => (fst (run_end on_update normalizer elapsed id o s), [], [])
  | OpProgress id p => (fst (report_progress id p s), [], [])
  | OpCancelJob id => (fst (cancel_job on_update elapsed id s), [], [])
  | OpCancelTurn t => (fst (cancel_turn on_update elapsed t s), [], [])
  | OpDrainAll t => match drain_updates t s with
                    | (s', Ok us) => (s', [], List.filter terminal us)
                    | (s', Err _) => (s', [], [])
                    end
  | OpDrainTerminal t => match drain_terminal_state t s with
                         | (s', Ok (us, _)) => (s', [], us)
                         | (s', Err _) => (s', [], [])
                         end
  | OpClose => (fst (mark_closed s), [], [])
  end.

(** The states a manager reaches, with what was submitted and delivered on the
    way; a submission draws an id that was not used before. *)
Inductive job_run : list string -> list JobUpdate -> JobState -> Prop :=
| run_start x : job_run [] [] (MkJobState x [] [] false)
| run_step sub del s op :
    job_run sub del s -> new_job_id s ∉ sub ->
    job_run (sub ++ snd (fst (run_job_op op s))) (del ++ snd (run_job_op op s)) (fst (fst (run_job_op op s))).

Hypothesis Hsink : accepting.
Hypothesis Hcallback : forall f u x, on_update = Some f -> exists x', f u x = (x', Ok tt).

Lemma event_ok ty turn payload call s : apply_ok ty turn payload call (st s) -> exists s', event_ ty turn payload call s = (s', Ok tt).
Proof.
  intros Hok. specialize (Hok (next_seq s) (uuid4 (tick s)) (utcnow (tick s))).
  destruct (apply_event (next_event ty turn payload call s) (st s)) as [x r] eqn:E.
  unfold next_event in E. rewrite E in Hok. simpl in Hok. subst r.
  destruct (event_accepted ty turn payload call s x Hsink E) as (s' & -> & _). eauto.
Qed.

Lemma publish_ok u s : exists x, publish on_update u s = (MkJobState x (js_jobs s) (js_updates s ++ [u]) (js_closed s), Ok tt).
Proof.
  unfold publish, bind, put_updates, modify, job_session, ret. simpl. destruct on_update as [f|] eqn:E; [|eauto]. simpl.
  destruct (Hcallback f u (js_session s) eq_refl) as [x ->]. eauto.
Qed.

Lemma finish_locked_ok j j0 status output error summary s :
  is_terminal status = true -> dget (jb_id j) (js_jobs s) = Some j0 ->
  exists x, finish_locked on_update elapsed j status output error summary s =
    (MkJobState x (dset (jb_id j) (set_status status j0) (js_jobs s))
       (js_updates s ++ [MkUpdate (jb_id j) (jb_turn j) (jb_kind j) status (jb_details j) output error]) (js_closed s), Ok tt).
Proof.
  intros Ht Hj. unfold finish_locked, update_job, put_jobs, bind, get, modify. simpl. rewrite Hj.
  unfold job_session. simpl. unfold job_finished.
  match goal with |- context [event_ ?ty ?t ?p ?c ?s0] => destruct (event_ok ty t p c s0) as [x ->] end.
  - apply apply_ok_job_finished. by destruct status.
  - match goal with |- context [publish on_update ?u ?s0] => destruct (publish_ok u s0) as [x' ->] end. eauto.
Qed.

(** The state of the books only. *)
Definition good (sub : list string) (del : list JobUpdate) (s : JobState) : Prop :=
  job_inv sub del (js_jobs s) (js_updates s).

Lemma good_finish sub del s id j j0 status output error summary :
  good sub del s -> is_terminal status = true -> dget id (js_jobs s) = Some j0 -> live j0 = true ->
  jb_id j = id -> jb_turn j = jb_turn j0 ->
  good sub del (fst (finish_locked on_update elapsed j status output error summary s)).
Proof.
  intros Hg Ht Hj Hl <- Et. destruct (finish_locked_ok j j0 status output error summary s Ht Hj) as [x ->]. simpl.
  by apply (inv_finish _ _ _ _ _ j0).
Qed.

(** Touching the record of a live job, as the code does between two lines. *)
Lemma good_update sub del s id j f :
  good sub del s -> dget id (js_jobs s) = Some j ->
  jb_id (f j) = jb_id j -> jb_turn (f j) = jb_turn j -> jb_status (f j) = jb_status j ->
  (live j = true -> (jb_future (f j) = Some FPending /\ jb_status j = JSubmitted) \/ jb_future (f j) = Some FRunning) ->
  good sub del (MkJobState (js_session s) (dset id (f j) (js_jobs s)) (js_updates s) (js_closed s)).
Proof.
  intros Hg Hj Hi Ht Hs Hf. apply (inv_touch _ _ _ _ _ j); auto. unfold live. rewrite Hs. done.
Qed.

(** A finished job whose future was changed just before. *)
Lemma good_finish_touched sub del s id j f status output error summary x :
  good sub del s -> is_terminal status = true -> dget id (js_jobs s) = Some j -> live j = true ->
  (jb_id (f j) = jb_id j /\ jb_turn (f j) = jb_turn j) ->
  forall j', jb_id j' = id -> jb_turn j' = jb_turn j ->
  good sub del (fst (finish_locked on_update elapsed j' status output error summary
    (MkJobState x (dset id (f j) (js_jobs s)) (js_updates s) (js_closed s)))).
Proof.
  intros Hg Ht Hj Hl [Hfi Hft] j' <- Et.
  destruct (finish_locked_ok j' (f j) status output error summary
    (MkJobState x (dset (jb_id j') (f j) (js_jobs s)) (js_updates s) (js_closed s)) Ht) as [y ->]; [apply dget_dset_eq|].
  simpl. unfold good. simpl. rewrite dset_dset. by apply (inv_finish _ _ _ _ _ j).
Qed.

Lemma good_cancel sub del id s : good sub del s -> good sub del (fst (cancel_locked on_update elapsed id s)).
Proof.
  intros Hg. unfold cancel_locked, bind at 1, get. destruct (dget id (js_jobs s)) as [j|] eqn:Hj; [|done].
  destruct (live j) eqn:Hl; cbn [negb]; [|done].
  unfold bind at 1, update_job at 1, put_jobs, modify. rewrite Hj.
  pose proof (ji_id _ _ _ _ Hg id j Hj) as Hid.
  destruct (ji_future _ _ _ _ Hg id j Hj Hl) as [[Hf Hst]|Hf].
  - rewrite bool_decide_true by done. unfold bind, update_job, put_jobs, modify. cbn [js_jobs]. rewrite dget_dset_eq.
    cbn [js_session js_jobs js_updates js_closed]. rewrite dset_dset.
    by apply (good_finish_touched _ _ _ id j (fun j => set_future (Some FCancelled) (set_token j))).
  - rewrite bool_decide_false by (rewrite Hf; done). simpl.
    apply (good_update _ _ _ id j set_token); auto.
Qed.

Lemma good_cancels sub del ids s : good sub del s -> good sub del (fst (for_each (cancel_locked on_update elapsed) ids s)).
Proof.
  revert s. induction ids as [|id ids IH]; intros s Hg; simpl; [done|]. unfold bind.
  pose proof (good_cancel sub del id s Hg) as Hc. destruct (cancel_locked on_update elapsed id s) as [s1 [u|e]]; [|done].
  by apply IH.
Qed.

Lemma snapshot_state id s : fst (snapshot_locked elapsed id s) = s.
Proof. unfold snapshot_locked, bind, get. by destruct (dget id _). Qed.

Lemma good_cancel_job sub del id s : good sub del s -> good sub del (fst (cancel_job on_update elapsed id s)).
Proof.
  intros Hg. unfold cancel_job, bind at 1. pose proof (snapshot_state id s) as Hs.
  destruct (snapshot_locked elapsed id s) as [s1 [sn|e]]; simpl in Hs; subst s1; [|done].
  unfold bind at 1, get. unfold bind at 1.
  assert (Hmid : forall c : M JobState unit, good sub del (fst (c s)) ->
    good sub del (fst (match c s with (s', Ok _) => snapshot_locked elapsed id s' | (s', Err e) => (s', Err e) end))).
  { intros c Hc. destruct (c s) as [s2 [u|e]]; [|done]. by rewrite snapshot_state. }
  destruct (is_live (sn_status sn)); [|by apply (Hmid (ret tt))].
  destruct (dget id (js_jobs s)); [|by apply (Hmid (fail (Exn EKeyError id)))].
  by apply (Hmid (cancel_locked on_update elapsed id)), good_cancel.
Qed.

Lemma good_add sub del d us id turn kind details :
  job_inv sub del d us -> id ∉ sub ->
  job_inv (sub ++ [id]) del (dset id (MkJob id turn kind false details JSubmitted (Some FPending) false JNull) d) us.
Proof.
  intros [Hk Hi Hf Hs Hq Hd Ho Hb] Hn.
  assert (Hfresh : dget id d = None).
  { apply dget_None_not_in. intros Hin. apply Hn. rewrite Hb. by apply elem_of_app; right. }
  assert (Hkeys : dkeys (dset id (MkJob id turn kind false details JSubmitted (Some FPending) false JNull) d) = dkeys d ++ [id])
    by (rewrite dkeys_dset; unfold dhas; by rewrite Hfresh).
  split; try done.
  - by apply dset_NoDup.
  - intros k x. rewrite dget_dset. case_decide as E; [intros [= <-]; done|apply Hi].
  - intros k x. rewrite dget_dset. case_decide as E; [intros [= <-] _; by left|apply Hf].
  - intros k x. rewrite dget_dset. case_decide as E; [by intros [= <-]|apply Hs].
  - intros u Hu Hut. destruct (Hq u Hu Hut) as (x & Hx & ?). exists x. rewrite dget_dset. case_decide; [congruence|done].
  - intros k x. rewrite dget_dset. case_decide as E; [by intros [= <-] ?|apply Hd].
  - rewrite Hkeys, app_assoc. by apply Permutation_app_tail.
Qed.

Lemma good_submit sub del pool kind turn details s :
  good sub del s -> new_job_id s ∉ sub ->
  match submit_job on_update pool kind turn details s with
  | (s', Ok id) => good (sub ++ [id]) del s' /\ id = new_job_id s
  | (s', Err _) => good sub del s'
  end.
Proof.
  intros Hg Hn. unfold submit_job. unfold bind at 1, get. unfold bind at 1, job_session at 1, modify. cbn [advance].
  destruct (js_closed s) eqn:Ecl; [exact Hg|].
  unfold bind at 1, put_jobs at 1, modify. cbn [js_session js_jobs js_updates js_closed]. unfold bind at 1.
  set (id := new_job_id s) in *. set (j := MkJob id turn kind false details JSubmitted None false JNull).
  set (u := MkUpdate id turn kind JSubmitted details JNull None).
  match goal with |- context [publish on_update u ?s0] => destruct (publish_ok u s0) as [x ->] end.
  cbn [js_session js_jobs js_updates js_closed]. unfold bind at 1, job_session, job_submitted.
  cbn [js_session js_jobs js_updates js_closed].
  match goal with |- context [event_ ?ty ?t ?p ?c ?s0] => destruct (event_ok ty t p c s0) as [y ->] end;
    [apply apply_ok_job_submitted|].
  assert (Hfresh : dget id (js_jobs s) = None).
  { apply dget_None_not_in. intros Hin. apply Hn. rewrite (ji_books _ _ _ _ Hg). by apply elem_of_app; right. }
  destruct pool as [e|].
  - unfold bind, put_jobs, put_updates, modify, fail, good. cbn [js_jobs js_updates].
    rewrite (dpop_dset_fresh id j _ Hfresh), List.filter_app. cbn [List.filter]. replace (negb (String.eqb (ju_id u) id)) with false
      by (symmetry; apply negb_false_iff, String.eqb_refl). rewrite app_nil_r.
    destruct Hg as [Hk Hi Hf Hs Hq Hd Ho Hb]. split; try done.
    + intros v Hv. apply list_elem_of_In, filter_In in Hv as [Hv _]. by apply Hq, list_elem_of_In.
    + intros k x0 Hx Hl. destruct (Hd k x0 Hx Hl) as (v & Hv & Ev & Hvt). exists v. split; [|done].
      apply list_elem_of_In, filter_In. split; [by apply list_elem_of_In|]. apply negb_true_iff, String.eqb_neq. congruence.
    + rewrite filter_comm. apply (sublist_NoDup _ (map ju_id (List.filter terminal (js_updates s)))); [done|].
      apply fmap_sublist, filter_sublist.
  - unfold bind, update_job, put_jobs, modify, ret, good. cbn [js_jobs js_updates]. rewrite dget_dset_eq, dset_dset.
    split; [|done]. apply inv_publish; [|done]. by apply good_add.
Qed.

Lemma good_pick sub del id s : good sub del s -> good sub del (fst (pick id s)).
Proof.
  intros Hg. unfold pick, bind, get. destruct (dget id (js_jobs s)) as [j|] eqn:Hj; [|done].
  case_bool_decide; [|done]. unfold update_job, put_jobs, modify. rewrite Hj. simpl.
  apply (good_update _ _ _ id j (set_future (Some FRunning))); auto.
Qed.

Lemma good_begin sub del id s : good sub del s -> good sub del (fst (run_begin on_update elapsed id s)).
Proof.
  intros Hg. unfold run_begin, bind at 1, get. destruct (dget id (js_jobs s)) as [j|] eqn:Hj; [|done].
  destruct (bool_decide (jb_future j = Some FRunning) && bool_decide (jb_status j = JSubmitted)) eqn:E; cbn [negb]; [|done].
  bsimp. pose proof (ji_id _ _ _ _ Hg id j Hj) as Hid.
  assert (Hl : live j = true) by (unfold live; by rewrite H1). destruct (jb_cancelled j).
  - unfold bind at 1, update_job at 1, put_jobs, modify. rewrite Hj.
    by apply (good_finish_touched _ _ _ id j (set_future (Some FDone))).
  - unfold bind at 1, update_job at 1, put_jobs, modify. rewrite Hj. unfold bind at 1, job_session, job_started.
    cbn [js_session js_jobs js_updates js_closed].
    match goal with |- context [event_ ?ty ?t ?p ?c ?s0] => destruct (event_ok ty t p c s0) as [y ->] end;
      [apply apply_ok_job_started|].
    match goal with |- context [publish on_update ?u ?s0] => destruct (publish_ok u s0) as [x ->] end.
    unfold good. simpl. apply inv_publish; [|done].
    destruct Hg as [Hk Hi Hf Hs Hq Hd Ho Hb].
    assert (Hkeys : dkeys (dset id (set_started (set_status JRunning j)) (js_jobs s)) = dkeys (js_jobs s))
      by (rewrite dkeys_dset; unfold dhas; by rewrite Hj).
    split; try (by rewrite ?Hkeys); try done.
    + intros k v. rewrite dget_dset. case_decide; [intros [= <-]; subst; done|apply Hi].
    + intros k v. rewrite dget_dset. case_decide; [intros [= <-] _; by right|apply Hf].
    + intros k v. rewrite dget_dset. case_decide; [by intros [= <-]|apply Hs].
    + intros u Hu Hut. destruct (Hq u Hu Hut) as (v & Hv & ? & Hst). exists v. rewrite dget_dset.
      case_decide as E; [|done]. rewrite <-E, Hj in Hv. injection Hv as <-. unfold terminal in Hut.
      rewrite <-Hst, H1 in Hut. done.
    + intros k v. rewrite dget_dset. case_decide; [by intros [= <-]|apply Hd].
Qed.

Lemma good_end sub del id o s : good sub del s -> good sub del (fst (run_end on_update normalizer elapsed id o s)).
Proof.
  intros Hg. unfold run_end, bind at 1, get. destruct (dget id (js_jobs s)) as [j|] eqn:Hj; [|done].
  destruct (bool_decide (jb_future j = Some FRunning) && bool_decide (jb_status j = JRunning)) eqn:E; cbn [negb]; [|done].
  bsimp. pose proof (ji_id _ _ _ _ Hg id j Hj) as Hid.
  assert (Hl : live j = true) by (unfold live; by rewrite H1).
  unfold bind at 1, update_job at 1, put_jobs, modify. rewrite Hj.
  assert (Hfin : forall x status output error summary, is_terminal status = true ->
    good sub del (fst (finish_locked on_update elapsed j status output error summary
      (MkJobState x (dset id (set_future (Some FDone) j) (js_jobs s)) (js_updates s) (js_closed s))))).
  { intros x status output error summary Ht. by apply (good_finish_touched _ _ _ id j (set_future (Some FDone))). }
  destruct o as [o summary| |e]; [|by apply Hfin|destruct (jb_cancelled j); by apply Hfin].
  unfold bind, job_session. cbn [js_session js_jobs js_updates js_closed].
  destruct (normalize_output normalizer j o (js_session s)) as [x [v|e]]; by apply Hfin.
Qed.

Lemma good_progress sub del id p s : good sub del s -> good sub del (fst (report_progress id p s)).
Proof.
  intros Hg. unfold report_progress, update_job, put_jobs, modify. simpl.
  destruct (dget id (js_jobs s)) as [j|] eqn:Hj; [|by destruct s].
  apply (good_update _ _ _ id j (fun j => if bool_decide (jb_status j = JRunning) then set_progress p j else j)); auto;
    try (by case_bool_decide).
  intros Hl. pose proof (ji_future _ _ _ _ Hg id j Hj Hl). by case_bool_decide.
Qed.

(** What a drain selects and leaves. *)
Lemma good_drain sub del s sel us' p :
  good sub del s -> sel = List.filter (fun u => terminal u && negb (p u)) (js_updates s) ->
  us' = List.filter p (js_updates s) ->
  (forall u v, u ∈ sel -> v ∈ us' -> terminal v = true -> ju_id v <> ju_id u) ->
  job_inv sub (del ++ sel) (pop_all sel (js_jobs s)) us'.
Proof.
  intros Hg -> -> Hdis. eapply (inv_deliver _ _ _ _ _ _ p Hg); [|done| |done].
  - intros u. rewrite !list_elem_of_In, !filter_In. rewrite andb_true_iff, negb_true_iff. split.
    + intros (Hu & Ht & Hp). split_and!; try done. intros [_ ?]. congruence.
    + intros (Hu & Ht & Hp). split_and!; try done. destruct (p u) eqn:E; [|done]. exfalso. by apply Hp.
  - assert (Heq : List.filter (fun u => terminal u && negb (p u)) (js_updates s)
      = List.filter (fun u => negb (p u)) (List.filter terminal (js_updates s))).
    { clear. induction (js_updates s) as [|u l IH]; simpl; [done|]. destruct (terminal u); simpl; [|exact IH].
      destruct (negb (p u)); by rewrite IH. }
    rewrite Heq. apply (sublist_NoDup _ (map ju_id (List.filter terminal (js_updates s)))); [apply Hg|].
    apply fmap_sublist, filter_sublist.
Qed.

(** Terminal updates with the same id are of the same turn. *)
Lemma same_turn sub del s u v :
  good sub del s -> u ∈ js_updates s -> v ∈ js_updates s -> terminal u = true -> terminal v = true ->
  ju_id u = ju_id v -> ju_turn u = ju_turn v.
Proof.
  intros Hg Hu Hv Hut Hvt E. destruct (ji_queued _ _ _ _ Hg u Hu Hut) as (j & Hj & <- & _).
  destruct (ji_queued _ _ _ _ Hg v Hv Hvt) as (j' & Hj' & <- & _). congruence.
Qed.

Lemma good_drain_all sub del t s :
  good sub del s ->
  match drain_updates t s with
  | (s', Ok us) => good sub (del ++ List.filter terminal us) s'
  | (s', Err _) => good sub del s'
  end.
Proof.
  intros Hg. unfold drain_updates, bind, get, put_updates, put_jobs, modify, ret, good. cbn [js_jobs js_updates].
  assert (Hfold : forall l d, fold_left (fun d u => if terminal u then dpop (ju_id u) d else d) l d
    = pop_all (List.filter terminal l) d).
  { induction l as [|u l IH]; intros d; simpl; [done|]. rewrite IH. by destruct (terminal u). }
  rewrite Hfold. apply (good_drain _ _ _ _ _ (fun u => negb (String.eqb (ju_turn u) t)) Hg).
  - clear. induction (js_updates s) as [|u l IH]; simpl; [done|].
    destruct (String.eqb (ju_turn u) t); simpl; destruct (terminal u); simpl; rewrite ?IH; done.
  - done.
  - intros u v Hu Hv Hvt E. apply list_elem_of_In, filter_In in Hu as [Hu Hut], Hv as [Hv Ev].
    apply filter_In in Hu as [Hu Et]. bsimp. apply Ev. rewrite <-Et.
    by apply (same_turn sub del s v u Hg); try apply list_elem_of_In.
Qed.

Lemma good_drain_terminal sub del t s :
  good sub del s ->
  match drain_terminal_state t s with
  | (s', Ok (us, pending)) => good sub (del ++ us) s' /\ pending = turn_live t (js_jobs s')
  | (_, Err _) => False
  end.
Proof.
  intros Hg. unfold drain_terminal_state, bind, get, put_updates, put_jobs, modify, ret. cbn [js_jobs js_updates].
  split; [|done]. unfold good. cbn [js_jobs js_updates].
  set (sel := List.filter (fun u => String.eqb (ju_turn u) t && terminal u) (js_updates s)).
  change (fold_left (fun d u => dpop (ju_id u) d) sel (js_jobs s)) with (pop_all sel (js_jobs s)).
  apply (good_drain _ _ _ _ _ (fun u => negb (name_in (ju_id u) (map ju_id sel))) Hg).
  - unfold sel at 1. apply filter_ext_in. intros u Hu. rewrite negb_involutive.
    destruct (terminal u) eqn:Hut; [|by rewrite andb_false_r]. rewrite andb_true_r. simpl.
    destruct (String.eqb (ju_turn u) t) eqn:Et.
    + symmetry. apply name_in_spec, list_elem_of_fmap_2, list_elem_of_In, filter_In. by rewrite Et, Hut.
    + symmetry. apply name_in_false. intros (w & Ew & Hw)%list_elem_of_fmap.
      apply list_elem_of_In, filter_In in Hw as [Hw Hwt]. bsimp. apply Et. rewrite <-H0.
      by apply (same_turn sub del s u w Hg); try apply list_elem_of_In.
  - done.
  - intros u v Hu Hv Hvt E. apply list_elem_of_In, filter_In in Hv as [_ Hv]. bsimp. apply name_in_false in Hv.
    apply Hv. rewrite E. by apply list_elem_of_fmap_2.
Qed.

Lemma good_closed sub del s : good sub del s -> good sub del (fst (mark_closed s)).
Proof. intros Hg. unfold mark_closed, bind, get. by destruct (js_closed s). Qed.

Lemma job_run_good sub del s : job_run sub del s -> good sub del s /\ NoDup sub.
Proof.
  induction 1 as [x|sub del s op Hrun [Hg Hnd] Hfresh].
  - split; [|constructor]. split; simpl; try done; try constructor. intros u Hu. by apply not_elem_of_nil in Hu.
  - assert (Hsame : forall s', good sub del s' -> good (sub ++ []) (del ++ []) s' /\ NoDup (sub ++ []))
      by (intros s' Hs'; by rewrite !app_nil_r).
    destruct op as [pool kind turn details|id|id|id o|id p|id|t|t|t|]; cbn [run_job_op fst snd].
    + pose proof (good_submit sub del pool kind turn details s Hg Hfresh) as Hs.
      destruct (submit_job on_update pool kind turn details s) as [s' [id|e]] eqn:E; [|by apply Hsame].
      simpl. rewrite app_nil_r. split; [apply Hs|]. apply NoDup_app. split; [done|]. split; [|apply NoDup_singleton].
      intros k Hk ->%list_elem_of_singleton. apply Hfresh. destruct Hs as [_ <-]. done.
    + by apply Hsame, good_pick.
    + by apply Hsame, good_begin.
    + by apply Hsame, good_end.
    + by apply Hsame, good_progress.
    + by apply Hsame, good_cancel_job.
    + apply Hsame. unfold cancel_turn, bind, get. by apply good_cancels.
    + pose proof (good_drain_all sub del t s Hg) as Hd.
      destruct (drain_updates t s) as [s' [us|e]]; cbn [fst snd]; rewrite ?app_nil_r; done.
    + pose proof (good_drain_terminal sub del t s Hg) as Hd.
      destruct (drain_terminal_state t s) as [s' [[us p]|e]]; cbn [fst snd]; [|done]. rewrite app_nil_r. by destruct Hd.
    + by apply Hsame, good_closed.
Qed.

(** A job that was cancelled: finished, or its worker will see the token. *)
Definition cancelled_ok (j : Job) : Prop := live j = true -> jb_future j = Some FRunning /\ jb_cancelled j = true.

Lemma cancel_locked_effect sub del id s :
  good sub del s ->
  exists s', cancel_locked on_update elapsed id s = (s', Ok tt) /\
  (forall k, k <> id -> dget k (js_jobs s') = dget k (js_jobs s)) /\
  (forall j, dget id (js_jobs s) = Some j ->
     exists j', dget id (js_jobs s') = Some j' /\ jb_turn j' = jb_turn j /\ cancelled_ok j') /\
  (dget id (js_jobs s) = None -> dget id (js_jobs s') = None).
Proof.
  intros Hg. unfold cancel_locked, bind at 1, get.
  destruct (dget id (js_jobs s)) as [j|] eqn:Hj; [|by exists s; split_and!].
  destruct (live j) eqn:Hl; cbn [negb].
  2: { exists s. split_and!; try done. intros ? [= <-]. exists j. split_and!; try done. unfold cancelled_ok. congruence. }
  unfold bind at 1, update_job at 1, put_jobs, modify. rewrite Hj. cbn [js_session js_jobs js_updates js_closed].
  pose proof (ji_id _ _ _ _ Hg id j Hj) as Hid.
  destruct (ji_future _ _ _ _ Hg id j Hj Hl) as [[Hf Hst]|Hf].
  - rewrite bool_decide_true by done. unfold bind, update_job, put_jobs, modify. cbn [js_jobs].
    rewrite dget_dset_eq, dset_dset. cbn [js_session js_jobs js_updates js_closed].
    match goal with |- context [finish_locked on_update elapsed j JCancelled JNull None JNull ?s0] =>
      destruct (finish_locked_ok j (set_future (Some FCancelled) (set_token j)) JCancelled JNull None JNull s0 eq_refl)
        as [x ->] end; [rewrite Hid; apply dget_dset_eq|].
    eexists. split; [done|]. cbn [js_jobs]. rewrite Hid, dset_dset. split_and!; try done.
    + intros k Hk. by apply dget_dset_ne.
    + intros ? [= <-]. eexists. split; [apply dget_dset_eq|]. by split.
  - rewrite bool_decide_false by (rewrite Hf; done). eexists. split; [done|]. cbn [js_jobs]. split_and!; try done.
    + intros k Hk. by apply dget_dset_ne.
    + intros ? [= <-]. eexists. split; [apply dget_dset_eq|]. by split.
Qed.

Lemma cancels_effect sub del ids : forall s,
  good sub del s ->
  let s' := fst (for_each (cancel_locked on_update elapsed) ids s) in
  forall k j', dget k (js_jobs s') = Some j' ->
    exists j, dget k (js_jobs s) = Some j /\ jb_turn j' = jb_turn j /\
      ((k ∈ ids \/ cancelled_ok j) -> cancelled_ok j').
Proof.
  induction ids as [|id ids IH]; intros s Hg; cbv zeta; simpl.
  - intros k j' Hj'. exists j'. split_and!; try done. by intros [?%not_elem_of_nil|].
  - unfold bind. destruct (cancel_locked_effect sub del id s Hg) as (s1 & Hr & Ho & Hs & Hn).
    pose proof (good_cancel sub del id s Hg) as Hg1. rewrite Hr in Hg1 |- *.
    intros k j' Hj'. destruct (IH s1 Hg1 k j' Hj') as (j1 & Hj1 & Ht1 & Hc1).
    destruct (decide (k = id)) as [->|Hne].
    + destruct (dget id (js_jobs s)) as [j|] eqn:Hj; [|rewrite Hn in Hj1 by done; done].
      destruct (Hs j eq_refl) as (j2 & Hj2 & Ht2 & Hc2). assert (j2 = j1) as -> by congruence.
      exists j. split_and!; [done|congruence|]. intros _. apply Hc1. by right.
    + rewrite Ho in Hj1 by done. exists j1. split_and!; [done|done|]. intros [Hk|Hk]; apply Hc1; [|by right].
      apply elem_of_cons in Hk as [->|Hk]; [done|by left].
Qed.

Lemma begin_cancelled sub del id j s :
  good sub del s -> dget id (js_jobs s) = Some j -> jb_future j = Some FRunning -> jb_status j = JSubmitted ->
  jb_cancelled j = true ->
  exists j', dget id (js_jobs (fst (run_begin on_update elapsed id s))) = Some j' /\ live j' = false.
Proof.
  intros Hg Hj Hf Hst Hc. unfold run_begin. unfold bind at 1, get. rewrite Hj, Hc.
  rewrite !bool_decide_true by done. cbn [andb negb]. unfold bind at 1, update_job at 1, put_jobs, modify. rewrite Hj.
  pose proof (ji_id _ _ _ _ Hg id j Hj) as Hid.
  match goal with |- context [finish_locked on_update elapsed ?j1 ?v ?o ?e ?m ?s0] =>
    destruct (finish_locked_ok j1 (set_future (Some FDone) j) v o e m s0 eq_refl) as [x ->] end;
    [cbn [jb_id set_future js_jobs]; rewrite Hid; apply dget_dset_eq|].
  cbn [fst js_jobs jb_id set_future]. rewrite Hid. eexists. split; [apply dget_dset_eq|done].
Qed.

Lemma end_settles sub del id j o s :
  good sub del s -> dget id (js_jobs s) = Some j -> jb_future j = Some FRunning -> jb_status j = JRunning ->
  exists j', dget id (js_jobs (fst (run_end on_update normalizer elapsed id o s))) = Some j' /\ live j' = false.
Proof.
  intros Hg Hj Hf Hst. unfold run_end. unfold bind at 1, get. rewrite Hj.
  rewrite !bool_decide_true by done. cbn [andb negb]. unfold bind at 1, update_job at 1, put_jobs, modify. rewrite Hj.
  pose proof (ji_id _ _ _ _ Hg id j Hj) as Hid.
  assert (Hfin : forall x v out e m, is_terminal v = true -> exists j', dget id (js_jobs (fst
    (finish_locked on_update elapsed j v out e m
       (MkJobState x (dset id (set_future (Some FDone) j) (js_jobs s)) (js_updates s) (js_closed s))))) = Some j' /\
    live j' = false).
  { intros x v out e m Hv.
    match goal with |- context [finish_locked on_update elapsed ?j1 ?v ?o ?e ?m ?s0] =>
      destruct (finish_locked_ok j1 (set_future (Some FDone) j) v o e m s0 Hv) as [y ->] end;
      [cbn [js_jobs]; rewrite Hid; apply dget_dset_eq|].
    cbn [fst js_jobs]. rewrite Hid. eexists. split; [apply dget_dset_eq|]. by apply terminal_not_live. }
  destruct o as [o summary| |e]; [|by apply Hfin|destruct (jb_cancelled j); by apply Hfin].
  unfold bind, job_session. cbn [js_session js_jobs js_updates js_closed].
  destruct (normalize_output normalizer j o (js_session s)) as [x [v|e]]; by apply Hfin.
Qed.
End ops.



(** ** A job that is cancelled while its worker starts *)

Definition jobs_idle : JobState := MkJobState demo_begun [] [] false.
Definition step_with (op : JobOp) (s : JobState) : JobState := fst (fst (@run_job_op demo_env None None (fun _ => jzero) op s)).
Definition jobs_submitted : JobState := step_with (OpSubmit None "shell" "t" []) jobs_idle.
Definition demo_job_id : string := @new_job_id demo_env jobs_idle.
Definition jobs_picked : JobState := step_with (OpPick demo_job_id) jobs_submitted.

Lemma demo_job_run : @job_run demo_env None None (fun _ => jzero) [demo_job_id] [] jobs_picked.
Proof.
  assert (H1 : @job_run demo_env None None (fun _ => jzero) [demo_job_id] [] jobs_submitted).
  { exact (@run_step demo_env None None (fun _ => jzero) [] [] jobs_idle (OpSubmit None "shell" "t" [])
      (run_start _ _ _ demo_begun) (not_elem_of_nil _)). }
  refine (@run_step demo_env None None (fun _ => jzero) [demo_job_id] [] jobs_submitted (OpPick demo_job_id) H1 _).
  intros Hin%list_elem_of_singleton. revert Hin. vm_compute. discriminate.
Qed.


Definition picked_cancelled : JobState := fst (@cancel_turn demo_env None (fun _ => jzero) "t" jobs_picked).
Definition picked_job : Job :=
  MkJob demo_job_id "t" "shell" true [] JSubmitted (Some FRunning) false JNull.


(** ** A submission the journal refuses *)

(** The job of a refused submission: registered, submitted, without a future. *)
Record orphan (id turn : string) (s : JobState) : Prop := {
  or_ids : Forall (fun kj => jb_id kj.2 = kj.1) (js_jobs s);
  or_job : exists j, dget id (js_jobs s) = Some j /\ jb_turn j = turn /\ jb_status j = JSubmitted /\ jb_future j = None;
  or_queue : forall u, u ∈ js_updates s -> ju_id u = id -> terminal u = false;
}.

Lemma job_id_at d k j : Forall (fun kj => jb_id kj.2 = kj.1) d -> dget k d = Some j -> jb_id j = k.
Proof. intros Hd Hk%dget_Some_in. rewrite Forall_forall in Hd. apply (Hd (k, j) Hk). Qed.

Section refused.
Context `{Env}.
Variable on_update : option (JobUpdate -> M Session unit).
Variable normalizer : option (ToolResult -> M Session string).
Variable elapsed : nat -> json.
Variables id turn : string.

(** A computation that leaves the orphan alone, whether it succeeds or raises. *)
Definition spares {A} (c : M JobState A) : Prop := forall s, orphan id turn s -> orphan id turn (fst (c s)).

Lemma orphan_bind {A B} (c : M JobState A) (k : A -> M JobState B) : spares c -> (forall a, spares (k a)) -> spares (bind c k).
Proof.
  intros Hc Hk s Hs. unfold bind. specialize (Hc s Hs). destruct (c s) as [s' [a|e]]; [|done]. by apply Hk.
Qed.

Lemma spares_session {A} (c : M Session A) : spares (job_session c).
Proof. intros s [Hi Hj Hq]. unfold job_session. destruct (c (js_session s)). by split. Qed.

Lemma spares_publish u : ju_id u <> id \/ terminal u = false -> spares (publish on_update u).
Proof.
  intros Hu. unfold publish. apply orphan_bind.
  - intros s [Hi Hj Hq]. split; try done. simpl. intros v [Hv| ->%list_elem_of_singleton]%elem_of_app; [by apply Hq|].
    intros E. by destruct Hu.
  - intros _. destruct on_update; [apply spares_session|by intros s].
Qed.

Lemma spares_update k f :
  (forall j, jb_id (f j) = jb_id j) ->
  (k = id -> forall j, jb_status j = JSubmitted -> jb_future j = None ->
     jb_turn (f j) = jb_turn j /\ jb_status (f j) = JSubmitted /\ jb_future (f j) = None) ->
  spares (update_job k f).
Proof.
  intros Hid Hf s [Hi (j & Hj & Ht & Hs & Hfu) Hq]. split; [| |done]; simpl;
    destruct (dget k (js_jobs s)) as [jk|] eqn:Ek; try done; [| |by exists j].
  - apply Forall_dset; [done|]. simpl. rewrite Hid. apply (job_id_at _ _ _ Hi Ek).
  - rewrite dget_dset. case_decide as E; [|by exists j]. subst k. rewrite Hj in Ek. injection Ek as <-.
    exists (f j). destruct (Hf eq_refl j Hs Hfu) as (-> & -> & ->). by rewrite Ht.
Qed.

Lemma spares_other k f : k <> id -> (forall j, jb_id (f j) = jb_id j) -> spares (update_job k f).
Proof. intros Hne Hf. by apply spares_update. Qed.

Lemma spares_finish j status output error summary :
  jb_id j <> id -> spares (finish_locked on_update elapsed j status output error summary).
Proof.
  intros Hne. apply orphan_bind; [by apply spares_other|]. intros _ s Hs. unfold bind at 1, get.
  revert s Hs. intros s Hs. apply (orphan_bind _ _ (spares_session _)); [|done]. intros _. apply spares_publish. by left.
Qed.

(** A worker or a cancellation acts on the job it finds under the id it was given. *)
Lemma spares_at {A} k (act : Job -> M JobState A) (miss : M JobState A) :
  spares miss -> (forall j, k <> id -> jb_id j = k -> spares (act j)) ->
  (forall j, k = id -> jb_status j = JSubmitted -> jb_future j = None -> spares (act j)) ->
  spares (s <- get ;; match dget k (js_jobs s) with Some j => act j | None => miss end).
Proof.
  intros Hm Ho Hi s Hs. unfold bind, get. destruct (dget k (js_jobs s)) as [j|] eqn:E; [|by apply Hm].
  destruct (decide (k = id)) as [Ek|Hne].
  - destruct (or_job _ _ _ Hs) as (j' & Hj' & _ & Hst & Hf). rewrite Ek, Hj' in E. injection E as <-. by apply Hi.
  - apply Ho; try done. by apply (job_id_at _ _ _ (or_ids _ _ _ Hs)).
Qed.

Lemma orphan_ret {A} (a : A) : spares (ret a).
Proof. by intros s. Qed.

Lemma spares_pick k : spares (pick k).
Proof.
  apply spares_at; [apply orphan_ret| |].
  - intros j Hne _. case_bool_decide; [|apply orphan_ret]. by apply spares_other.
  - intros j _ _ Hf. rewrite Hf. apply orphan_ret.
Qed.

Lemma spares_begin k : spares (run_begin on_update elapsed k).
Proof.
  apply spares_at; [apply orphan_ret| |].
  - intros j Hne Hid. destruct (negb _); [apply orphan_ret|]. destruct (jb_cancelled j).
    + apply orphan_bind; [by apply spares_other|]. intros _. apply spares_finish. by rewrite <-Hid in Hne.
    + apply orphan_bind; [by apply spares_other|]. intros _. apply (orphan_bind _ _ (spares_session _)). intros _.
      apply spares_publish. by left.
  - intros j _ _ Hf. rewrite Hf. apply orphan_ret.
Qed.

Lemma spares_end k o : spares (run_end on_update normalizer elapsed k o).
Proof.
  apply spares_at; [apply orphan_ret| |].
  - intros j Hne Hid. destruct (negb _); [apply orphan_ret|]. apply orphan_bind; [by apply spares_other|]. intros _.
    assert (jb_id j <> id) by (by rewrite Hid). destruct o as [o summary| |e]; [|by apply spares_finish|].
    + apply (orphan_bind _ _ (spares_session _)). intros []; by apply spares_finish.
    + destruct (jb_cancelled j); by apply spares_finish.
  - intros j _ _ Hf. rewrite Hf. apply orphan_ret.
Qed.

Lemma spares_progress k p : spares (report_progress k p).
Proof.
  apply spares_update; [intros j; by case_bool_decide|]. intros _ j Hs Hf. by rewrite bool_decide_false by (by rewrite Hs).
Qed.

Lemma spares_cancel k : spares (cancel_locked on_update elapsed k).
Proof.
  apply spares_at; [apply orphan_ret| |].
  - intros j Hne Hid. destruct (negb _); [apply orphan_ret|]. apply orphan_bind; [by apply spares_other|]. intros _.
    case_bool_decide; [|apply orphan_ret]. apply orphan_bind; [by apply spares_other|]. intros _. apply spares_finish.
    by rewrite Hid.
  - intros j _ _ Hf. rewrite Hf. destruct (negb _); [apply orphan_ret|]. apply orphan_bind; [by apply spares_update|].
    intros _. apply orphan_ret.
Qed.

Lemma spares_cancels ks : spares (for_each (cancel_locked on_update elapsed) ks).
Proof. induction ks as [|k ks IH]; [apply orphan_ret|]. apply orphan_bind; [apply spares_cancel|done]. Qed.

Lemma spares_cancel_turn t : spares (cancel_turn on_update elapsed t).
Proof. intros s Hs. unfold cancel_turn, bind, get. by apply spares_cancels. Qed.

Lemma spares_cancel_job k : spares (cancel_job on_update elapsed k).
Proof.
  assert (Hsn : spares (snapshot_locked elapsed k)) by (intros s Hs; by rewrite snapshot_state).
  apply orphan_bind; [done|]. intros sn s Hs. unfold bind at 1, get. revert s Hs. intros s Hs.
  apply orphan_bind; [|done|done]. destruct (is_live _); [|apply orphan_ret]. destruct (dget k (js_jobs s)); [|by intros ?].
  apply spares_cancel.
Qed.

Lemma spares_pop (q : JobUpdate -> bool) (sel : list JobUpdate) s :
  orphan id turn s -> (forall u, u ∈ sel -> terminal u = true -> ju_id u <> id) ->
  orphan id turn (MkJobState (js_session s)
    (fold_left (fun d u => if terminal u then dpop (ju_id u) d else d) sel (js_jobs s))
    (List.filter q (js_updates s)) (js_closed s)).
Proof.
  intros [Hi Hj Hq] Hsel. split; simpl.
  3: { intros u Hu%list_elem_of_In%filter_In Eu. apply Hq; [|done]. apply list_elem_of_In, Hu. }
  all: revert Hi Hj Hsel; generalize (js_jobs s); induction sel as [|u sel IH]; intros d Hi Hj Hsel; simpl; try done.
  all: apply IH; try (intros v Hv; apply Hsel; by right); destruct (terminal u) eqn:Et; try done.
  all: try by apply Forall_dpop.
  all: destruct Hj as (j & Hj & Hrest); exists j; split; [|done]; rewrite dget_dpop_ne; [done|];
    apply Hsel; [left|done].
Qed.

Lemma spares_drain_all t : spares (drain_updates t).
Proof.
  intros s Hs. unfold drain_updates, bind, get, put_updates, put_jobs, modify, ret.
  cbn [fst js_jobs js_updates js_session js_closed]. apply spares_pop; [done|].
  intros u Hu%list_elem_of_In%filter_In Ht E. destruct Hu as [Hu _]. apply list_elem_of_In in Hu.
  rewrite (or_queue _ _ _ Hs u Hu E) in Ht. done.
Qed.

Lemma pop_terminal sel : forall d : list (string * Job),
  Forall (fun u => terminal u = true) sel ->
  fold_left (fun d u => dpop (ju_id u) d) sel d = fold_left (fun d u => if terminal u then dpop (ju_id u) d else d) sel d.
Proof. induction sel as [|u sel IH]; intros d Hs; simpl; [done|]. inversion Hs as [|? ? Hu]; subst. rewrite Hu. by apply IH. Qed.

Lemma spares_drain_terminal t : spares (drain_terminal_state t).
Proof.
  intros s Hs. unfold drain_terminal_state, bind, get, put_updates, put_jobs, modify, ret. cbn [fst js_jobs js_updates js_session js_closed].
  rewrite pop_terminal by (apply Forall_forall; intros u Hu%list_elem_of_In%filter_In; by destruct Hu as [_ [_ ?]%andb_prop]).
  apply spares_pop; [done|].
  intros u Hu%list_elem_of_In%filter_In Ht E. destruct Hu as [Hu _]. apply list_elem_of_In in Hu.
  rewrite (or_queue _ _ _ Hs u Hu E) in Ht. done.
Qed.

(** Every operation but a submission. *)
Definition not_submit (op : JobOp) : Prop := match op with OpSubmit _ _ _ _ => False | _ => True end.

Lemma spares_op op s : not_submit op -> orphan id turn s ->
  orphan id turn (fst (fst (run_job_op on_update normalizer elapsed op s))).
Proof.
  intros Hop Hs. destruct op; try done; cbn [run_job_op fst].
  - by apply spares_pick.
  - by apply spares_begin.
  - by apply spares_end.
  - by apply spares_progress.
  - by apply spares_cancel_job.
  - by apply spares_cancel_turn.
  - pose proof (spares_drain_all turn_id s Hs) as Hk. by destruct (drain_updates turn_id s) as [s' [us|e]].
  - pose proof (spares_drain_terminal turn_id s Hs) as Hk. by destruct (drain_terminal_state turn_id s) as [s' [[us p]|e]].
  - unfold mark_closed, bind, get, modify, ret. destruct (js_closed s); [done|]. by destruct Hs.
Qed.

Definition run_job_ops (ops : list JobOp) (s : JobState) : JobState :=
  fold_left (fun s op => fst (fst (run_job_op on_update normalizer elapsed op s))) ops s.

Lemma spares_ops ops : forall s, Forall not_submit ops -> orphan id turn s -> orphan id turn (run_job_ops ops s).
Proof.
  induction ops as [|op ops IH]; intros s Hops Hs; [done|]. inversion Hops; subst. apply IH; [done|]. by apply spares_op.
Qed.

Lemma orphan_busy s : orphan id turn s -> turn_busy turn s = true.
Proof.
  intros [_ (j & Hj & Ht & Hs & _) _]. apply existsb_exists. exists j. split.
  - apply list_elem_of_In, list_elem_of_fmap. exists (id, j). split; [done|]. by apply dget_Some_in.
  - unfold live. by rewrite Ht, Hs, String.eqb_refl.
Qed.
End refused.

(** What a refused submission leaves behind.  [submit] registers the job and
    queues its update before it writes the journal, and its handler covers the
    executor only.  When the journal (or the update callback) raises, [submit]
    raises the same exception but the job stays registered as submitted, without
    a future: whatever workers, cancellations, drains and [close] do afterwards,
    the loop condition of [wait_for_turn] stays true, so waiting for the turn and
    closing the manager never end. *)
Theorem refused_submission_blocks `{Env} (on_update : option (JobUpdate -> M Session unit))
    (normalizer : option (ToolResult -> M Session string)) (elapsed : nat -> json)
    (kind turn : string) (details : list (string * json)) (s s' : JobState) (e : exn) (ops : list JobOp) :
  js_closed s = false -> Forall (fun kj => jb_id kj.2 = kj.1) (js_jobs s) ->
  Forall (fun u => ju_id u <> new_job_id s) (js_updates s) ->
  submit_job on_update None kind turn details s = (s', Err e) ->
  Forall not_submit ops ->
  turn_busy turn (run_job_ops on_update normalizer elapsed ops s') = true.
Proof.
  intros Hopen Hids Hfresh Hsub Hops. apply (orphan_busy (new_job_id s)), spares_ops; [done|].
  unfold submit_job in Hsub. unfold bind at 1, get in Hsub.
  unfold bind at 1, job_session at 1, modify in Hsub. rewrite Hopen in Hsub. unfold bind at 1, put_jobs, modify in Hsub.
  cbn [js_session js_jobs js_updates js_closed] in Hsub.
  match type of Hsub with bind (publish _ ?u) _ ?s0 = _ =>
    assert (Hs0 : orphan (new_job_id s) turn s0); [|pose proof (spares_publish on_update (new_job_id s) turn u (or_intror eq_refl) s0 Hs0) as Hs1] end.
  { split; cbn [js_jobs js_updates].
    - by apply Forall_dset.
    - eexists. by rewrite dget_dset_eq.
    - intros u Hu E. rewrite Forall_forall in Hfresh. by destruct (Hfresh u Hu). }
  unfold bind at 1 in Hsub. destruct (publish on_update _ _) as [s1 [[]|e1]]; [|by injection Hsub as <- _].
  unfold bind at 1 in Hsub.
  pose proof (spares_session (new_job_id s) turn (job_submitted (new_job_id s) kind turn details) s1 Hs1) as Hs2.
  destruct (job_session _ s1) as [s2 [[]|e2]]; [|by injection Hsub as <- _]. done.
Qed.

Definition jobs_full_disk : JobState := MkJobState (advance 3 demo_begun) [] [] false.
Definition jobs_refused : JobState := fst (@submit_job failing_env None None "shell" "t" [] jobs_full_disk).

Lemma refused_submission_blocks_witness :
  @submit_job failing_env None None "shell" "t" [] jobs_full_disk = (jobs_refused, Err (Exn EOSError "disk full")) /\
  turn_busy "t" (@run_job_ops failing_env None None (fun _ => jzero) [OpCancelTurn "t"; OpDrainTerminal "t"; OpClose] jobs_refused) = true.
Proof.
  split; [vm_compute; reflexivity|].
  refine (@refused_submission_blocks failing_env None None (fun _ => jzero) "shell" "t" [] jobs_full_disk jobs_refused
    (Exn EOSError "disk full") _ _ _ _ _ _).
  - reflexivity.
  - constructor.
  - constructor.
  - vm_compute. reflexivity.
  - repeat constructor.
Defined.
