(* ===== verification/Frames.v ===== *)
(** * What the parts of a turn leave alone

    [Stays R c]: whatever [c] returns, the state it leaves is related to the one
    it found.  With [extends], which says that the turns of the session and its
    current turn are the same and that its items only grew, the instances of this
    file are the promise every operation of a turn makes to the agent loop:
    between its beginning and its end nobody else finishes it, and the history is
    never rewritten. *)

From stdpp Require Import base list strings pretty relations.
From Stdlib Require Import ZArith Lia.
From S2P Require Import Prelude PyData PyStr Json PyTime Content Plan Authority Message Session SessionProps PyText.
From S2P Require Import Projection Llm ContextManager TurnControl LoopPolicy Tools ToolBatch Jobs JobThms.

(** ** Relations a computation respects *)

Class Stays {S A} (R : S -> S -> Prop) (c : M S A) : Prop := stays : forall s, R s (fst (c s)).

(** A relation seen through a part of the state. *)
Definition through {S T} (v : S -> T) (R : T -> T -> Prop) (a b : S) : Prop := R (v a) (v b).

#[export] Instance through_preorder {S T} (v : S -> T) (R : T -> T -> Prop) : PreOrder R -> PreOrder (through v R).
Proof.
  intros [Hr Ht]. unfold through. split; [by intros s|]. intros a b c Hab Hbc. by transitivity (v b).
Qed.

Section combinators.
Context {S : Type} {R : S -> S -> Prop} `{!PreOrder R}.

#[export] Instance stays_ret {A} (a : A) : Stays R (ret a).
Proof. by intros s. Qed.
#[export] Instance stays_fail {A} e : Stays R (@fail S A e).
Proof. by intros s. Qed.
#[export] Instance stays_lift {A} (r : res A) : Stays R (lift r).
Proof. by intros s. Qed.
#[export] Instance stays_get : Stays R get.
Proof. by intros s. Qed.

#[export] Instance stays_bind {A B} (c : M S A) (k : A -> M S B) :
  Stays R c -> (forall a, Stays R (k a)) -> Stays R (bind c k).
Proof.
  intros Hc Hk s. unfold bind. specialize (Hc s). destruct (c s) as [s' [a|e]]; [|done].
  etransitivity; [apply Hc|apply Hk].
Qed.

#[export] Instance stays_catch {A} (c : M S A) h : Stays R c -> (forall e, Stays R (h e)) -> Stays R (catch c h).
Proof.
  intros Hc Hh s. unfold catch. specialize (Hc s). destruct (c s) as [s' [a|e]]; [done|].
  etransitivity; [apply Hc|apply Hh].
Qed.

#[export] Instance stays_finally {A} (c : M S A) f : Stays R c -> Stays R f -> Stays R (finally c f).
Proof.
  intros Hc Hf s. unfold finally. specialize (Hc s). destruct (c s) as [s' r]. specialize (Hf s').
  destruct (f s') as [s'' [?|?]]; by etransitivity.
Qed.

#[export] Instance stays_attempt {A} (c : M S A) : Stays R c -> Stays R (attempt c).
Proof. intros Hc s. unfold attempt. specialize (Hc s). by destruct (c s). Qed.

#[export] Instance stays_for_each {A} (f : A -> M S unit) l : (forall x, Stays R (f x)) -> Stays R (for_each f l).
Proof. intros Hf. induction l; simpl; apply _. Qed.

(** The state [get] returns is the current one. *)
Lemma stays_get_bind {A} (k : S -> M S A) : (forall s, R s (fst (k s s))) -> Stays R (bind get k).
Proof. intros Hk s. apply Hk. Qed.

Lemma stays_modify f : (forall s, R s (f s)) -> Stays R (modify f).
Proof. intros Hf s. apply Hf. Qed.
End combinators.

(** Solve a [Stays] goal by the instances, splitting the cases of the program. *)
Ltac frame :=
  repeat first
    [ progress intros
    | progress cbv zeta
    | apply _
    | lazymatch goal with
      | |- Stays _ (match ?x with _ => _ end) => destruct x eqn:?
      | |- Stays _ (bind _ _) => apply stays_bind
      | |- Stays _ (catch _ _) => apply stays_catch
      | |- Stays _ (finally _ _) => apply stays_finally
      | |- Stays _ (attempt _) => apply stays_attempt
      | |- Stays _ (for_each _ _) => apply stays_for_each
      end ].

(** ** The session *)

(** The projected state: the same turns, more items. *)
Record grows (x y : SessionState) : Prop := {
  grows_turns : turns y = turns x;
  grows_items : items x `prefix_of` items y;
}.

Record extends (s t : Session) : Prop := {
  extends_state : grows (st s) (st t);
  extends_current : current_turn_id t = current_turn_id s;
}.

#[export] Instance grows_preorder : PreOrder grows.
Proof.
  split; [by intros x|]. intros x y z [Ht Hi] [Ht' Hi']. split; [congruence|]. by etransitivity.
Qed.

#[export] Instance extends_preorder : PreOrder extends.
Proof.
  split; [by intros x; split|]. intros x y z [Hs Hc] [Hs' Hc']. split; [by etransitivity|congruence].
Qed.

Lemma grows_modify f : (forall x, turns (f x) = turns x) -> (forall x, items (f x) = items x) -> Stays grows (modify f).
Proof. intros Ht Hi x. split; simpl; [done|]. by rewrite Hi. Qed.

Ltac frame_state := repeat (frame; try (apply grows_modify; done)).

#[export] Instance apply_message_grows e data : Stays grows (apply_message e data).
Proof.
  unfold apply_message. apply stays_bind; [apply _|intros m]. apply stays_get_bind. intros x. unfold bind at 1, modify.
  cbv zeta. match goal with |- grows x (fst (?k ?y)) => assert (Hk : Stays grows k) by frame_state;
    transitivity y; [|apply Hk] end.
  split; simpl; [done|]. by apply prefix_app_r.
Qed.

#[export] Instance apply_model_completed_grows e : Stays grows (apply_model_completed e).
Proof. unfold apply_model_completed. frame_state. Qed.

#[export] Instance apply_tool_started_grows e id : Stays grows (apply_tool_started e id).
Proof. unfold apply_tool_started. frame_state. Qed.

#[export] Instance apply_tool_finished_grows e id : Stays grows (apply_tool_finished e id).
Proof. unfold apply_tool_finished. frame_state. Qed.

#[export] Instance apply_tool_recovered_grows e id : Stays grows (apply_tool_recovered e id).
Proof. unfold apply_tool_recovered. apply grows_modify; intros x; by destruct (dget id (tool_executions x)). Qed.

#[export] Instance apply_job_submitted_grows e : Stays grows (apply_job_submitted e).
Proof. unfold apply_job_submitted. frame_state. Qed.

#[export] Instance job_record_grows e job turn v : Stays grows (job_record e job turn v).
Proof.
  unfold job_record. apply stays_get_bind. intros x. destruct (dget job (jobs x)); [done|].
  unfold bind, lift, modify. destruct (str_field "kind" (ev_payload e)); [|done]. by split.
Qed.

#[export] Instance apply_job_started_grows e : Stays grows (apply_job_started e).
Proof. unfold apply_job_started. frame_state. Qed.

#[export] Instance apply_job_finished_grows e : Stays grows (apply_job_finished e).
Proof. unfold apply_job_finished. frame_state. Qed.

#[export] Instance apply_context_archived_grows e : Stays grows (apply_context_archived e).
Proof. unfold apply_context_archived. frame_state. Qed.

#[export] Instance apply_preset_changed_grows e : Stays grows (apply_preset_changed e).
Proof. unfold apply_preset_changed. frame_state. Qed.

(** Only events of a turn change the turns. *)
Lemma apply_event_grows e : startswith "turn_" (ev_event_type e) = false -> Stays grows (apply_event e).
Proof.
  intros Ht. unfold apply_event. rewrite Ht.
  assert (Hs : type_in e ["turn_started"] = false).
  { unfold type_in. apply name_in_false. intros Hin%list_elem_of_singleton. rewrite Hin in Ht. done. }
  rewrite Hs. frame_state.
Qed.

Section session.
Context `{Env}.

Lemma event_extends ty turn payload call : startswith "turn_" ty = false -> Stays extends (event_ ty turn payload call).
Proof.
  intros Ht s. rewrite event__state, event_cases. destruct (if has_sink s then _ else _); [by split|]. cbv zeta.
  pose proof (apply_event_grows (next_event ty turn payload call s) Ht (st s)) as Hg.
  destruct (apply_event _ (st s)) as [x r]. unfold accepted. split; by destruct (has_sink s).
Qed.

#[export] Instance extends_advance n : Stays extends (modify (advance n)).
Proof. by intros s. Qed.

#[export] Instance now_extends : Stays extends now.
Proof. by intros s. Qed.

#[export] Instance add_item_extends m atts src : Stays extends (add_item m atts src).
Proof. unfold add_item, add_message. frame. by apply event_extends. Qed.

#[export] Instance record_hook_extends status payload call : Stays extends (record_hook status payload call).
Proof. unfold record_hook. frame. by apply event_extends. Qed.

#[export] Instance model_completed_extends i u b a : Stays extends (model_completed i u b a).
Proof. unfold model_completed. frame. by apply event_extends. Qed.

#[export] Instance tool_started_extends call turn : Stays extends (tool_started call turn).
Proof. unfold tool_started. frame. by apply event_extends. Qed.

#[export] Instance tool_finished_extends call status error turn : Stays extends (tool_finished call status error turn).
Proof. unfold tool_finished. frame. by apply event_extends. Qed.

#[export] Instance job_submitted_extends id kind turn details : Stays extends (job_submitted id kind turn details).
Proof. by apply event_extends. Qed.

#[export] Instance job_started_extends id kind turn : Stays extends (job_started id kind turn).
Proof. by apply event_extends. Qed.

#[export] Instance job_finished_extends id kind status turn el sm pr err :
  Stays extends (job_finished id kind status turn el sm pr err).
Proof. by apply event_extends. Qed.

#[export] Instance set_archived_summary_extends summary cursor : Stays extends (set_archived_summary summary cursor).
Proof. unfold set_archived_summary. frame. by apply event_extends. Qed.

Lemma auxiliary_extends call model turn :
  startswith "turn_" (aux_task call +:+ "_completed") = false -> Stays extends (auxiliary_model_completed call model turn).
Proof. intros Ht. unfold auxiliary_model_completed. frame; by apply event_extends. Qed.

#[export] Instance feedback_extends feedback : Stays extends (append_hook_feedback feedback).
Proof. unfold append_hook_feedback. frame. Qed.
End session.

(** ** Compression *)

Section compression.
Context `{Env} `{Platform} `{Provider} `{FloatText}.
Context (cm : ContextManager) (on_call : AuxiliaryModelCall -> M Session unit).
Context (on_call_extends : forall call, Stays extends (on_call call)).

Lemma tracked_extends {A} f task scope attempt request (validate : LLMResponse -> res A) :
  (forall started duration error response,
     Stays extends (f (tracked_call task scope attempt started duration error response))) ->
  Stays extends (tracked f task scope attempt request validate).
Proof. intros Hf. unfold tracked. frame. Qed.

#[export] Instance archive_attempts_extends request : forall remaining attempt previous,
  Stays extends (archive_attempts cm on_call request attempt previous remaining).
Proof.
  induction remaining as [|remaining IH]; intros attempt previous; simpl; [apply _|].
  frame. apply tracked_extends. intros. apply stays_bind; [by apply auxiliary_extends|apply _].
Qed.

#[export] Instance archive_extends request : Stays extends (archive cm request on_call).
Proof. unfold archive. frame. Qed.
End compression.

(** ** Tool batches *)

Section batch.
Context `{Env}.
Context (ts : ToolSet) (normalize : ToolResult -> M Session string).
Context (on_call : ToolCall -> Z -> Z -> M Session unit) (on_result : ToolResult -> Z -> Z -> M Session unit).
Context (on_media : list ContentPart -> bool -> M Session unit) (turn_id : string).
Context (Hexecute : forall call, Stays extends (execute ts call)).
Context (Hhooks : forall ev p, Stays extends (run_hooks ts ev p)).
Context (Hnormalize : forall r, Stays extends (normalize r)).
Context (Hcall : forall c i n, Stays extends (on_call c i n)).
Context (Hresult : forall r i n, Stays extends (on_result r i n)).
Context (Hmedia : forall m p, Stays extends (on_media m p)).

Notation kept := (Stays (through bs_session extends)).

#[export] Instance on_session_extends {A} (c : M Session A) : Stays extends c -> kept (on_session c).
Proof. intros Hc b. unfold on_session. specialize (Hc (bs_session b)). by destruct (c (bs_session b)). Qed.

#[export] Instance set_completed_extends i call r : kept (set_completed i call r).
Proof. by intros b; apply stays_modify. Qed.
#[export] Instance set_normalized_extends i text : kept (set_normalized i text).
Proof. by intros b; apply stays_modify. Qed.
#[export] Instance cleanup_results_extends : kept cleanup_results.
Proof. by intros b; apply stays_modify. Qed.

#[export] Instance close_failed_extends call e : kept (close_failed turn_id call e).
Proof. unfold close_failed. frame. Qed.
#[export] Instance finish_call_extends call r : kept (finish_call turn_id call r).
Proof. unfold finish_call. frame. Qed.
#[export] Instance commit_extends call r i n : kept (commit_normalized_result normalize on_result call r i n).
Proof. unfold commit_normalized_result. frame. Qed.

#[export] Instance sequential_extends n calls : kept (execute_sequentially ts normalize on_call on_result turn_id n calls).
Proof. induction calls as [|[i call] calls IH]; simpl; [apply _|]. unfold run_active. frame. Qed.

#[export] Instance submit_all_extends n : forall calls futures, kept (submit_all on_call turn_id n futures calls).
Proof. induction calls as [|[i call] calls IH]; intros futures; simpl; frame. Qed.

#[export] Instance settle_extends n first i call : kept (settle ts normalize on_result turn_id n first i call).
Proof. unfold settle. frame. Qed.

#[export] Instance settle_completed_extends n futures : forall schedule observed first,
  kept (settle_completed ts normalize on_result turn_id n futures observed first schedule).
Proof. induction schedule as [|[i|e] schedule IH]; intros observed first; simpl; frame. Qed.

#[export] Instance drain_futures_extends n observed : forall futures first,
  kept (drain_futures ts normalize on_result turn_id n observed first futures).
Proof. induction futures as [|[i call] futures IH]; intros first; simpl; frame. Qed.

#[export] Instance post_hooks_extends : forall calls feedback, kept (post_hooks ts feedback calls).
Proof. induction calls as [|[i call] calls IH]; intros feedback; simpl; frame. Qed.

#[export] Instance execute_batch_extends schedule calls :
  kept (execute_batch ts normalize on_call on_result on_media turn_id schedule calls).
Proof.
  unfold execute_batch, batch_body, execute_concurrently, commit_media, commit_media_pass. frame.
Qed.
End batch.

(** ** Background jobs *)

Section jobs.
Context `{Env}.
Context (on_update : option (JobUpdate -> M Session unit)) (normalizer : option (ToolResult -> M Session string)).
Context (elapsed : nat -> json).
Context (Hupdate : forall f u, on_update = Some f -> Stays extends (f u)).
Context (Hnormalizer : forall f r, normalizer = Some f -> Stays extends (f r)).

Notation kept := (Stays (through js_session extends)).

#[export] Instance job_session_extends {A} (c : M Session A) : Stays extends c -> kept (job_session c).
Proof. intros Hc s. unfold job_session. specialize (Hc (js_session s)). by destruct (c (js_session s)). Qed.

#[export] Instance put_jobs_extends f : kept (put_jobs f).
Proof. by intros s; apply stays_modify. Qed.
#[export] Instance put_updates_extends f : kept (put_updates f).
Proof. by intros s; apply stays_modify. Qed.
#[export] Instance update_job_extends id f : kept (update_job id f).
Proof. unfold update_job. apply _. Qed.

#[export] Instance publish_extends u : kept (publish on_update u).
Proof. unfold publish. frame. apply job_session_extends. by apply Hupdate. Qed.

#[export] Instance submit_job_extends pool kind turn details : kept (submit_job on_update pool kind turn details).
Proof. unfold submit_job. frame. Qed.

#[export] Instance finish_locked_extends j status output error summary :
  kept (finish_locked on_update elapsed j status output error summary).
Proof. unfold finish_locked. frame. Qed.

#[export] Instance pick_extends id : kept (pick id).
Proof. unfold pick. frame. Qed.

#[export] Instance run_begin_extends id : kept (run_begin on_update elapsed id).
Proof. unfold run_begin. frame. Qed.

#[export] Instance normalize_output_extends j o : Stays extends (normalize_output normalizer j o).
Proof. unfold normalize_output. frame. by apply Hnormalizer. Qed.

#[export] Instance run_end_extends id o : kept (run_end on_update normalizer elapsed id o).
Proof. unfold run_end. frame. Qed.

#[export] Instance cancel_locked_extends id : kept (cancel_locked on_update elapsed id).
Proof. unfold cancel_locked. frame. Qed.

#[export] Instance snapshot_extends id : kept (snapshot_locked elapsed id).
Proof. unfold snapshot_locked. frame. Qed.

#[export] Instance list_jobs_extends : kept (list_jobs elapsed).
Proof.
  unfold list_jobs. apply stays_bind; [apply _|]. intros s. generalize (dvalues (js_jobs s)).
  induction l as [|j l IH]; simpl; frame.
Qed.

#[export] Instance cancel_job_extends id : kept (cancel_job on_update elapsed id).
Proof. unfold cancel_job. frame. Qed.

#[export] Instance cancel_turn_extends t : kept (cancel_turn on_update elapsed t).
Proof. unfold cancel_turn. frame. Qed.

#[export] Instance drain_updates_extends t : kept (drain_updates t).
Proof. unfold drain_updates. frame. Qed.

#[export] Instance drain_terminal_extends t : kept (drain_terminal_state t).
Proof. unfold drain_terminal_state. frame. Qed.

Lemma run_job_op_extends op s : through js_session extends s (fst (fst (run_job_op on_update normalizer elapsed op s))).
Proof.
  destruct op; cbn [run_job_op fst]; try apply stays.
  - pose proof (submit_job_extends pool kind turn_id details s) as Hk. by destruct (submit_job _ _ _ _ _ s) as [s' [?|?]].
  - pose proof (drain_updates_extends turn_id s) as Hk. by destruct (drain_updates turn_id s) as [s' [?|?]].
  - pose proof (drain_terminal_extends turn_id s) as Hk.
    by destruct (drain_terminal_state turn_id s) as [s' [[? ?]|?]].
  - unfold mark_closed, bind, get, modify. by destruct (js_closed s).
Qed.

Lemma run_job_ops_extends ops : forall s, through js_session extends s (run_job_ops on_update normalizer elapsed ops s).
Proof.
  induction ops as [|op ops IH]; intros s; [done|]. change (run_job_ops on_update normalizer elapsed (op :: ops) s) with
    (run_job_ops on_update normalizer elapsed ops (fst (fst (run_job_op on_update normalizer elapsed op s)))).
  etransitivity; [apply run_job_op_extends|apply IH].
Qed.
End jobs.
