(* ===== verification/Agent.v ===== *)
(** * The agent loop: agent_core/agent.py

    One turn of a conversation, composed of the session, the context manager, the
    provider, the tool batch, the background jobs and the continuation policy.
    The state is the policy's [TurnState] over an [AgentWorld]: the job manager
    (which holds the session), the steps its workers will take, and the locals of
    [_run] that a closure changes.

    The loops of the code have no bound of their own (a model can call tools for
    ever): they take fuel, and [None] is a turn that is still running.

    Worker threads, and tools that submit jobs, act on the manager while the
    agent runs; their steps take effect at the agent's accesses to the manager. *)

From stdpp Require Import base list strings pretty.
From Stdlib Require Import ZArith Lia.
From S2P Require Import Prelude PyData PyStr Json PyTime Content Plan Authority Message Session PyText.
From S2P Require Import Projection Llm ContextManager TurnControl LoopPolicy Tools ToolBatch Jobs JobThms.

Inductive AgentEvent :=
| AssistantMessageDeltaEvent (text : string) (model_call_index : Z)
| ReasoningDeltaEvent (text : string) (model_call_index : Z)
| AssistantMessageEvent (content : string) (timestamp_utc model_call_index : Z)
| ModelCompletedEvent (model_call_index : Z) (usage : option TokenUsage) (cache : option CacheUsage)
| CompressionCompletedEvent (cache : option CacheUsage)
| UnitCompletedEvent (start_index end_index : Z)
| ToolBatchStartedEvent (model_call_index : Z) (tool_calls : list ToolCall)
| ToolCallEvent (tool_call : ToolCall) (tool_index tool_count : Z)
| ToolResultEvent (tool_result : ToolResult) (tool_index tool_count : Z)
| ToolMediaEvent (attachments : list ContentPart) (present_to_user : bool)
| ContextWindowEvent (w : ContextWindow)
| UserSteerAppliedEvent (steer_id text : string) (timestamp_utc : Z).

Record AgentRunResult := MkRunResult { rr_content : string; rr_usage : option TokenUsage }.

Record AgentWorld := MkWorld {
  aw_jobs : JobState;
  aw_workers : list (list JobOp);
  aw_stops : Z;
  aw_details : option (list (string * json));
}.

Definition sess (w : AgentWorld) : Session := js_session (aw_jobs w).

Definition on_jobs {A} (c : M JobState A) : M AgentWorld A := fun w =>
  let '(j, r) := c (aw_jobs w) in (MkWorld j (aw_workers w) (aw_stops w) (aw_details w), r).
Definition on_sess {A} (c : M Session A) : M AgentWorld A := on_jobs (job_session c).

(** A job snapshot as the context manager renders it. *)
Definition job_info (n : JobSnapshot) : JobLine :=
  MkJobLine (sn_job_id n) (sn_kind n) (get_str "role" (sn_details n)) (job_status_str (sn_status n)).

Definition with_job_lines (lines : option (list JobLine)) (cm : ContextManager) : ContextManager :=
  MkContextManager (cm_system_prompt cm) (cm_consolidator_prompt cm) (cm_memory_section cm) lines
    (cm_output_reserve_tokens cm) (cm_max_generation_tokens cm) (cm_media_root cm) (cm_limits cm)
    (cm_system_prompt_tokens cm).

Section agent.
Context `{Env} `{Platform} `{Provider} `{FloatText}.
(** The tool set with its definitions; the hooks of the context; whether the
    context has a job manager, with what the manager is given; the normalizer. *)
Variable ts : ToolSet.
Variable definitions : list ToolDefinition.
Variable hooks : option (list HookDefinition).
Variable cm : ContextManager.
Variable has_jobs : bool.
Variable on_update : option (JobUpdate -> M Session unit).
Variable normalizer : option (ToolResult -> M Session string).
Variable elapsed : nat -> json.
Variable normalize : ToolResult -> M Session string.
(** The interface's callback; what the provider streams before it returns (a
    reasoning delta is marked); the details a provider error carries; the order
    in which the workers of the batch started at a tick complete. *)
Variable on_event : option (AgentEvent -> M Session unit).
Variable deltas : nat -> LLMRequest -> list (bool * string).
Variable error_details : exn -> list (string * json).
Variable batch_schedule : nat -> list ScheduleEvent.

Definition emit (e : AgentEvent) : M Session unit :=
  match on_event with Some f => f e | None => ret tt end.

Definition workers_act : M AgentWorld unit := modify (fun w =>
  MkWorld (run_job_ops on_update normalizer elapsed (default [] (head (aw_workers w))) (aw_jobs w))
    (tail (aw_workers w)) (aw_stops w) (aw_details w)).

(** [check_input] *)
Definition check_input (text source : string) : M Session (list string) :=
  let input := JObj [("text", JStr text); ("source", JStr source)] in
  hook <- run_hooks ts "InputSubmitted" [("input", input)] ;;
  if String.eqb (hk_decision hook) "deny" then
    record_hook "input_rejected" [("input", input); ("reason", JStr (hk_reason hook))] None ;;;
    fail (Exn EHookRejected (hk_reason hook))
  else ret (hk_feedback hook).

(** The message of one steer, before the session adds the canonical form. *)
Definition user_message (text : string) (t : Z) : Message := MkMessage RUser (CStr text) (Some t) [] None None OConversation [].

Definition append_steer (steer : UserSteer) : M Session unit :=
  feedback <- check_input (steer_text steer) "steering" ;;
  t <- now ;;
  add_item (user_message (steer_text steer) t) [] SrcSteering ;;;
  append_hook_feedback feedback ;;;
  emit (UserSteerAppliedEvent (steer_id steer) (steer_text steer) t).

(** [_append_steering] *)
Definition append_steering (steers : list UserSteer) : M Session unit := for_each append_steer steers.

Definition job_block (u : JobUpdate) : string :=
  let normalized :=
    match ju_error u with
    | Some e => dumps (to_content_json (MkToolResult (ju_id u) (ju_kind u) JNull (Some e) [] false false [] None))
    | None =>
        if bool_decide (ju_status u = JCancelled)
        then dumps (JObj [("ok", JBool false); ("error", JObj [("type", JStr "cancelled")])])
        else match ju_output u with JStr text => text | output => dumps output end
    end in
  "[Background job result]" +:+ NL +:+ "job_id: " +:+ ju_id u +:+ NL +:+ "kind: " +:+ ju_kind u +:+ NL
  +:+ "status: " +:+ job_status_str (ju_status u) +:+ NL +:+ "result: " +:+ normalized.

(** [_apply_job_results] *)
Definition apply_job_results (turn_id : string) : M AgentWorld (bool * bool) :=
  if negb has_jobs then ret (false, false) else
  workers_act ;;;
  r <- on_jobs (drain_terminal_state turn_id) ;;
  match fst r with
  | [] => ret (false, snd r)
  | terminal =>
      on_sess (t <- now ;;
        add_item (MkMessage RUser (CStr (sjoin (NL +:+ NL) (map job_block terminal))) (Some t) [] None None OJobResult [])
          [] SrcUserInput) ;;;
      ret (true, snd r)
  end.

(** [self._context.build_request(self._tools.definitions)] *)
Definition build : M AgentWorld LLMRequest :=
  lines <- (if has_jobs then l <- on_jobs (list_jobs elapsed) ;; ret (Some (map job_info l)) else ret None) ;;
  w <- get ;;
  lift (build_request (with_job_lines lines cm) (current_turn_id (sess w)) (st (sess w)) definitions).

(** Agent.context_window, reported when there is a callback. *)
Definition report_window : M AgentWorld unit :=
  request <- build ;;
  w <- get ;;
  on_sess (emit (ContextWindowEvent
    (window cm (st (sess w)) (est_tokens (measure_input_tokens (st (sess w)) request))))).

Definition on_compression_call (_ : AuxiliaryModelCall) : M Session unit :=
  s <- get ;; emit (CompressionCompletedEvent (cache_usage (st s))).

(** The call of the provider: the deltas it streams, then its outcome; a provider
    error is raised again with the index of the call among its details. *)
Definition call_model (request : LLMRequest) (index : Z) : M AgentWorld LLMResponse :=
  w <- get ;;
  let n := tick (sess w) in
  on_sess (modify (advance 1) ;;;
    for_each (fun d : bool * string =>
      emit ((if fst d then ReasoningDeltaEvent else AssistantMessageDeltaEvent) (snd d) index)) (deltas n request)) ;;;
  match stream_cancellable n request with
  | Ok response => ret response
  | Err e =>
      (if is_provider_error e
       then modify (fun w => MkWorld (aw_jobs w) (aw_workers w) (aw_stops w)
              (Some (dset "model_call_index" (JInt index) (error_details e))))
       else ret tt) ;;;
      fail e
  end.

Definition record_completion (index : Z) (estimate : InputTokenEstimate) (response : LLMResponse) : M Session unit :=
  model_completed index (rs_usage response)
    (match rs_tool_calls response with [] => false | _ => true end) (estimate_anchor estimate (rs_usage response)) ;;;
  s <- get ;;
  emit (ModelCompletedEvent index (rs_usage response) (cache_usage (st s))).

Definition assistant_message (response : LLMResponse) (calls : list ToolCall) (t : Z) : Message :=
  MkMessage RAssistant (match rs_content response with Some c => CStr c | None => CNone end) (Some t) calls None
    (rs_reasoning response) OConversation (rs_provider_data response).

(** A response with tool calls: the assistant's message, then the batch. *)
Definition run_tools (turn_id : string) (index : Z) (response : LLMResponse) : M Session unit :=
  s <- get ;;
  let unit_start := zlen (items (st s)) in
  let calls := rs_tool_calls response in
  t <- now ;;
  add_item (assistant_message response calls t) [] SrcUserInput ;;;
  match rs_content response with
  | Some content => if nonempty content then emit (AssistantMessageEvent content t index) else ret tt
  | None => ret tt
  end ;;;
  emit (ToolBatchStartedEvent index calls) ;;;
  s <- get ;;
  (fun s0 => let '(b, r) := execute_batch ts normalize (fun c i n => emit (ToolCallEvent c i n))
                (fun r i n => emit (ToolResultEvent r i n)) (fun m p => emit (ToolMediaEvent m p))
                turn_id (batch_schedule (tick s)) calls (MkBatch s0 [] [] []) in (bs_session b, r)) ;;;
  s <- get ;;
  emit (UnitCompletedEvent unit_start (zlen (items (st s)))).

(** A response without tool calls: the assistant's message and the reports. *)
Definition record_answer (index : Z) (response : LLMResponse) (content : string) : M AgentWorld unit :=
  t <- on_sess now ;;
  w <- get ;;
  let unit_start := zlen (items (st (sess w))) in
  on_sess (add_item (assistant_message response [] t) [] SrcUserInput) ;;;
  match on_event with
  | None => ret tt
  | Some _ =>
      on_sess (emit (AssistantMessageEvent content t index)) ;;;
      report_window ;;;
      on_sess (s <- get ;; emit (UnitCompletedEvent unit_start (zlen (items (st s)))))
  end.

(** [before_finish]: the [Stop] hooks may ask for one correction. *)
Definition before_finish (content : string) : M AgentWorld bool :=
  match hooks with
  | None => ret false
  | Some ds =>
      if negb (existsb (fun d => String.eqb (hd_event d) "Stop") ds) then ret false else
      w <- get ;;
      hook <- on_sess (run_hooks ts "Stop"
        [("response", JStr content); ("correction_attempt", JInt (aw_stops w));
         ("executions", turn_execution_summary (sess w))]) ;;
      if String.eqb (hk_decision hook) "continue" then
        if 1 <=? aw_stops w
        then fail (Exn EHookRejected ("Completion still rejected after hook correction: " +:+ sjoin NL (hk_feedback hook)))
        else
          modify (fun w => MkWorld (aw_jobs w) (aw_workers w) (aw_stops w + 1) (aw_details w)) ;;;
          on_sess (append_hook_feedback (hk_feedback hook)) ;;;
          ret true
      else on_sess (append_hook_feedback (hk_feedback hook)) ;;; ret false
  end.

(** [jobs.wait_for_update(turn_id)]: the workers act, then the queue is looked at. *)
Definition wait_for_job (turn_id : string) : M AgentWorld bool :=
  if negb has_jobs then ret false else
  w <- get ;;
  if has_terminal_update turn_id (aw_jobs w) then ret true else
  workers_act ;;; w <- get ;; ret (has_terminal_update turn_id (aw_jobs w)).

Definition no_answer (response : LLMResponse) : exn :=
  Exn EValueError
    (match otruthy (rs_reasoning response) with
     | Some _ => "LLM response contained reasoning but no final content or tool calls; "
                 +:+ "the model may have exhausted its output token limit before producing an answer"
     | None => "LLM response must contain content or tool calls"
     end).

Definition check_repetition (calls : list ToolCall) : M (TurnState AgentWorld) unit := fun s =>
  let '(g, r) := check calls (ts_guard s) in
  (MkTurnState (ts_control s) g (ts_arrivals s) (ts_appended s) (ts_world s), r).

Definition world : M (TurnState AgentWorld) AgentWorld := on_world get.
Definition in_session {A} (c : M Session A) : M (TurnState AgentWorld) A := on_world (on_sess c).

(** [continuation], for a turn. *)
Definition turn_jobs (turn_id : string) : M (TurnState AgentWorld) (bool * bool) := apply_jobs (apply_job_results turn_id).
Definition turn_steering (finishing : bool) : M (TurnState AgentWorld) bool :=
  apply_steering (fun l => on_sess (append_steering l)) finishing.

(** The body of [while True] and its iterations; [wait_fuel] bounds the wait for
    jobs inside one iteration. *)
Fixpoint turn_loop (wait_fuel fuel : nat) (turn_id : string) (index : Z) :
    M (TurnState AgentWorld) (option AgentRunResult) :=
  match fuel with
  | O => ret None
  | S fuel' =>
      raise_if_cancelled ;;;
      turn_jobs turn_id ;;;
      request <- on_world build ;;
      w <- world ;;
      let estimate := measure_input_tokens (st (sess w)) request in
      let input_tokens := est_tokens estimate in
      in_session (emit (ContextWindowEvent (window cm (st (sess w)) input_tokens))) ;;;
      w <- world ;;
      if should_archive cm (st (sess w)) input_tokens then
        in_session (archive cm request on_compression_call) ;;;
        turn_steering false ;;;
        turn_loop wait_fuel fuel' turn_id index
      else if hard_limit (cm_limits cm) <? input_tokens then fail (window_exceeded cm input_tokens)
      else
        let request := with_generation_limit request (cm_max_generation_tokens cm) in
        let index := index + 1 in
        response <- on_world (call_model request index) ;;
        in_session (record_completion index estimate response) ;;;
        raise_if_cancelled ;;;
        match rs_tool_calls response with
        | _ :: _ =>
            check_repetition (rs_tool_calls response) ;;;
            in_session (run_tools turn_id index response) ;;;
            raise_if_cancelled ;;;
            turn_jobs turn_id ;;;
            turn_steering false ;;;
            turn_loop wait_fuel fuel' turn_id index
        | [] =>
            match rs_content response with
            | None => fail (no_answer response)
            | Some content =>
                on_world (record_answer index response content) ;;;
                again <- after_response (apply_job_results turn_id) (fun l => on_sess (append_steering l)) wait_fuel
                           (wait_for_job turn_id) (Some (before_finish content)) ;;
                match again with
                | None => ret None
                | Some true => turn_loop wait_fuel fuel' turn_id index
                | Some false => ret (Some (MkRunResult content (rs_usage response)))
                end
            end
        end
  end.

(** Agent._run *)
Definition run_turn (wait_fuel fuel : nat) (user_input : string) (attachments : list ContentPart)
    (turn_id : option string) (input_source : string) : M (TurnState AgentWorld) (option AgentRunResult) :=
  turn_id <- in_session (begin_turn turn_id) ;;
  t <- in_session now ;;
  feedback <- in_session (check_input user_input input_source) ;;
  in_session (add_item (user_message user_input t) attachments SrcUserInput) ;;;
  in_session (append_hook_feedback feedback) ;;;
  turn_loop wait_fuel fuel turn_id 0.

(** [jobs.wait_for_turn]: [false] when it is still waiting. *)
Fixpoint wait_for_turn (fuel : nat) (turn_id : string) : M AgentWorld bool :=
  match fuel with
  | O => w <- get ;; ret (negb (turn_busy turn_id (aw_jobs w)))
  | S fuel' =>
      w <- get ;;
      if turn_busy turn_id (aw_jobs w) then workers_act ;;; wait_for_turn fuel' turn_id else ret true
  end.

(** [_cancel_jobs], with [JobManager.cancel_and_discard]. *)
Definition cancel_jobs (fuel : nat) (turn_id : option string) : M AgentWorld bool :=
  match turn_id with
  | Some t =>
      if negb has_jobs then ret true else
      on_jobs (cancel_turn on_update elapsed t) ;;;
      idle <- wait_for_turn fuel t ;;
      if negb idle then ret false else
      on_jobs (drain_updates t) ;;; ret true
  | None => ret true
  end.

Definition failed_status (e : exn) : TurnStatus :=
  if is_class EKeyboardInterrupt e || is_class EAgentCancelled e then TCancelled
  else if is_exception e then TFailed else TInterrupted.

Definition failed_error (e : exn) (w : AgentWorld) : option RuntimeErrorInfo :=
  if is_class EKeyboardInterrupt e || is_class EAgentCancelled e then None
  else Some (runtime_error_info e (default (error_details e) (aw_details w))).

(** The handlers of [run]. *)
Definition settle_failure (fuel : nat) (e : exn) : M (TurnState AgentWorld) (option AgentRunResult) :=
  w <- world ;;
  idle <- on_world (cancel_jobs fuel (current_turn_id (sess w))) ;;
  if negb idle then ret None else
  w <- world ;;
  in_session (finish_turn (failed_status e) None (failed_error e w)) ;;;
  fail e.

(** Agent.run *)
Definition run (wait_fuel fuel : nat) (user_input : string) (attachments : list ContentPart)
    (turn_id : option string) (input_source : string) : M (TurnState AgentWorld) (option AgentRunResult) :=
  result <- catch (run_turn wait_fuel fuel user_input attachments turn_id input_source) (settle_failure wait_fuel) ;;
  match result with
  | None => ret None
  | Some r => in_session (finish_turn TCompleted None None) ;;; ret (Some r)
  end.
End agent.
