(* ===== verification/AgentThms.v ===== *)
(** * Theorems on the agent loop

    Claims about agent_core/agent.py: however a turn ends it is settled in the
    session, what the user steered is in the history when the turn completes, and
    the answer returned is the one the history holds. *)

From stdpp Require Import base list strings pretty relations.
From Stdlib Require Import ZArith Lia.
From S2P Require Import Prelude PyData PyStr Json PyTime Content Plan Authority Message Session SessionProps PyText.
From S2P Require Import Projection Llm ContextManager TurnControl LoopPolicy Tools ToolBatch Jobs JobThms Frames Agent.

(** ** Beginning and finishing a turn *)

Lemma begin_turn_runs `{Env} requested s :
  accepting -> (forall n, uuid4 n <> "") -> requested <> Some "" ->
  exists s' t ts, begin_turn requested s = (s', Ok t) /\ t <> "" /\ current_turn_id s' = Some t /\
    turns (st s') = dset t (MkTurn t TRunning (Some ts) None None) (turns (st s)) /\ items (st s') = items (st s).
Proof.
  intros Hs Hu Hr. unfold begin_turn, bind at 1, get. unfold bind at 1.
  assert (Hrun : forall t s0, t <> "" -> turns (st s0) = turns (st s) -> items (st s0) = items (st s) ->
    exists s' t' ts, (event_ "turn_started" (Some t) [("status", JStr "running")] None ;;;
      modify (set_current (Some t)) ;;; ret t) s0 = (s', Ok t') /\ t' <> "" /\ current_turn_id s' = Some t' /\
      turns (st s') = dset t' (MkTurn t' TRunning (Some ts) None None) (turns (st s)) /\ items (st s') = items (st s)).
  { intros t s0 Ht Et Ei. unfold bind.
    destruct (event_accepted "turn_started" (Some t) [("status", JStr "running")] None s0
      (set_turns (dset t (MkTurn t TRunning (Some (utcnow (tick s0))) None None) (turns (st s0))) (st s0)) Hs)
      as (s1 & -> & Est & _).
    { unfold next_event, apply_event, type_in, name_in. simpl. apply nonempty_true in Ht. by rewrite Ht. }
    cbn [modify ret]. eexists _, _, _. split; [done|]. split; [done|]. split; [done|].
    cbn [st set_current]. rewrite Est. cbn [turns items set_turns]. by rewrite Et, Ei. }
  destruct requested as [t|]; [destruct (dhas t (turns (st s)))|]; unfold bind, modify, ret; cbv beta iota;
    apply Hrun; try done. congruence.
Qed.

Lemma finish_turn_settles `{Env} status error t s :
  accepting -> (forall e, error = Some e -> nonempty (rei_type e) = true) -> current_turn_id s = Some t -> t <> "" ->
  exists s' ts, finish_turn status None error s = (s', Ok tt) /\ current_turn_id s' = None /\
    turns (st s') = dset t (finished_turn t status error ts (st s)) (turns (st s)) /\ items (st s') = items (st s).
Proof.
  intros Hs He Hc Ht. unfold finish_turn, bind at 1, get, or_current. cbn [otruthy]. rewrite Hc. unfold bind.
  destruct (event_accepted ("turn_" +:+ turn_status_str status) (Some t) (turn_payload status error) None s _ Hs
    (apply_turn_finished_ok _ _ t status error _ _ _ Ht He)) as (s1 & Hr & Est & Ec).
  unfold turn_payload in Hr. rewrite Hr, Ec, Hc, bool_decide_true by done. cbn [modify].
  eexists _, _. split; [done|]. split; [done|]. cbn [st set_current]. by rewrite Est.
Qed.

(** ** What the agent's surroundings promise

    The tools, the hooks, the normalizer and the callbacks may do anything to the
    session except finishing or replacing turns and rewriting items. *)
Class Surroundings `{Env} (ts : ToolSet) (on_update : option (JobUpdate -> M Session unit))
    (normalizer : option (ToolResult -> M Session string)) (normalize : ToolResult -> M Session string)
    (on_event : option (AgentEvent -> M Session unit)) : Prop := {
  su_execute : forall call, Stays extends (execute ts call);
  su_hooks : forall ev p, Stays extends (run_hooks ts ev p);
  su_normalize : forall r, Stays extends (normalize r);
  su_normalizer : forall f r, normalizer = Some f -> Stays extends (f r);
  su_update : forall f u, on_update = Some f -> Stays extends (f u);
  su_event : forall f e, on_event = Some f -> Stays extends (f e);
}.

Section loop.
Context `{Env} `{Platform} `{Provider} `{FloatText}.
Context (ts : ToolSet) (definitions : list ToolDefinition) (hooks : option (list HookDefinition)) (cm : ContextManager).
Context (has_jobs : bool) (on_update : option (JobUpdate -> M Session unit)).
Context (normalizer : option (ToolResult -> M Session string)) (elapsed : nat -> json).
Context (normalize : ToolResult -> M Session string) (on_event : option (AgentEvent -> M Session unit)).
Context (deltas : nat -> LLMRequest -> list (bool * string)) (error_details : exn -> list (string * json)).
Context (batch_schedule : nat -> list ScheduleEvent).
Context `{Hsur : !Surroundings ts on_update normalizer normalize on_event}.

Notation wkept := (Stays (through sess extends)).

#[local] Instance emit_extends e : Stays extends (emit on_event e).
Proof. unfold emit. destruct on_event eqn:E; [|apply _]. by apply su_event. Qed.

#[local] Instance on_jobs_extends {A} (c : M JobState A) : Stays (through js_session extends) c -> wkept (on_jobs c).
Proof. intros Hc w. unfold on_jobs. specialize (Hc (aw_jobs w)). by destruct (c (aw_jobs w)). Qed.

#[local] Instance on_sess_extends {A} (c : M Session A) : Stays extends c -> wkept (on_sess c).
Proof. unfold on_sess. apply _. Qed.

#[local] Instance workers_act_extends : wkept (workers_act on_update normalizer elapsed).
Proof. intros w. apply run_job_ops_extends; [apply su_update|apply su_normalizer]. Qed.

#[local] Instance check_input_extends text source : Stays extends (check_input ts text source).
Proof. unfold check_input. frame. apply su_hooks. Qed.

#[local] Instance append_steering_extends l : Stays extends (append_steering ts on_event l).
Proof. unfold append_steering, append_steer. frame. Qed.

#[local] Instance apply_job_results_extends turn :
  wkept (apply_job_results has_jobs on_update normalizer elapsed turn).
Proof. unfold apply_job_results. frame. Qed.

#[local] Instance build_extends : wkept (build definitions cm has_jobs elapsed).
Proof. unfold build. frame. Qed.

#[local] Instance call_model_extends request index : wkept (call_model on_event deltas error_details request index).
Proof. unfold call_model. frame. by apply stays_modify. Qed.

#[local] Instance run_tools_extends turn index response :
  Stays extends (run_tools ts normalize on_event batch_schedule turn index response).
Proof.
  unfold run_tools. frame.
  intros s. destruct (execute_batch _ _ _ _ _ _ _ _ _) as [b r] eqn:E.
  epose proof (execute_batch_extends ts normalize (fun c i n => emit on_event (ToolCallEvent c i n))
    (fun r i n => emit on_event (ToolResultEvent r i n)) (fun m p => emit on_event (ToolMediaEvent m p)) turn
    su_execute su_hooks su_normalize _ _ _ _ _ (MkBatch s [] [] [])) as Hk.
  rewrite E in Hk. apply Hk.
Qed.

#[local] Instance record_answer_extends index response content :
  wkept (record_answer definitions cm has_jobs elapsed on_event index response content).
Proof. pose proof emit_extends as He. unfold record_answer, report_window. frame. Qed.

#[local] Instance before_finish_extends content : wkept (before_finish ts hooks content).
Proof. unfold before_finish. frame; [apply on_sess_extends, su_hooks|by apply stays_modify]. Qed.

#[local] Instance wait_for_job_extends turn : wkept (wait_for_job has_jobs on_update normalizer elapsed turn).
Proof. unfold wait_for_job. frame. Qed.

#[local] Instance wait_for_turn_extends turn fuel : wkept (wait_for_turn on_update normalizer elapsed fuel turn).
Proof. induction fuel as [|fuel IH]; simpl; frame. Qed.

#[local] Instance cancel_jobs_extends fuel turn : wkept (cancel_jobs has_jobs on_update normalizer elapsed fuel turn).
Proof. unfold cancel_jobs. frame. apply on_jobs_extends, cancel_turn_extends, su_update. Qed.

(** ** The history of a turn *)

(** The clock gives instants the journal can store. *)
Context (Hclock : forall n, timestamp_valid (utcnow n)).

Definition in_history (role : MessageRole) (text : string) (s : Session) : Prop :=
  exists m, m ∈ items (st s) /\ m_role m = role /\ m_content m = CStr text.

Lemma in_history_extends role text s t : in_history role text s -> extends s t -> in_history role text t.
Proof.
  intros (m & Hm & Hrest) [[_ Hi] _]. exists m. split; [|done]. by eapply elem_of_prefix.
Qed.

Lemma add_item_stores m text src s s' :
  message_wf m -> m_content m = CStr text -> add_item m [] src s = (s', Ok tt) -> in_history (m_role m) text s'.
Proof.
  intros Hm Hc. unfold add_item, add_message, bind at 1, get. cbn [with_attachments].
  assert (Heta : MkMessage (m_role m) (m_content m) (m_timestamp_utc m) (m_tool_calls m) (m_tool_call_id m)
    (m_reasoning m) (m_origin m) (m_provider_data m) = m) by (by destruct m). rewrite Heta.
  unfold event_, bind. rewrite event_cases. destruct (if has_sink s then _ else _); [done|]. cbv zeta. unfold next_event.
  pose proof (apply_message_ok (next_seq s) (uuid4 (tick s)) (current_turn_id s) (utcnow (tick s)) (m_tool_call_id m) m src
    (st s) Hm) as Ha. unfold user_source_payload in Ha. rewrite Ha. intros [= <-].
  exists (canon m). split_and!; [|by destruct m|unfold canon; cbn [m_content]; by rewrite Hc].
  unfold accepted. destruct (has_sink s); cbn [st set_st append_journal append_durable advance];
    unfold after_message; repeat case_match; cbn [items set_items set_anchors]; apply elem_of_app; right; by left.
Qed.

Lemma append_steer_stores u s s' :
  append_steer ts on_event u s = (s', Ok tt) -> in_history RUser (steer_text u) s'.
Proof.
  unfold append_steer. unfold bind at 1. destruct (check_input _ _ _ s) as [s1 [feedback|e]]; [|done].
  unfold bind at 1. destruct (now s1) as [s2 [t|e]] eqn:Et; [|done]. unfold bind at 1.
  destruct (add_item (user_message (steer_text u) t) [] SrcSteering s2) as [s3 [[]|e]] eqn:Ea; [|done]. intros Hr.
  assert (Hwf : message_wf (user_message (steer_text u) t)).
  { injection Et as _ <-. split; simpl; [by repeat constructor|]. intros t0 [= <-]. apply Hclock. }
  pose proof (add_item_stores _ _ _ _ _ Hwf eq_refl Ea) as Hin. apply (in_history_extends _ _ s3); [done|].
  assert (Hk : Stays extends (append_hook_feedback feedback ;;;
    emit on_event (UserSteerAppliedEvent (steer_id u) (steer_text u) t))) by frame.
  specialize (Hk s3). by rewrite Hr in Hk.
Qed.

Lemma append_steering_stores l : forall s s', append_steering ts on_event l s = (s', Ok tt) ->
  Forall (fun u => in_history RUser (steer_text u) s') l.
Proof.
  induction l as [|u l IH]; intros s s' Hr; [done|]. unfold append_steering in Hr. cbn [for_each] in Hr.
  unfold bind in Hr. destruct (append_steer ts on_event u s) as [s1 [[]|e]] eqn:Eu; [|done].
  constructor; [|by apply (IH s1)]. apply (in_history_extends _ _ s1); [by eapply append_steer_stores|].
  pose proof (append_steering_extends l s1) as Hk. unfold append_steering in Hk. by rewrite Hr in Hk.
Qed.

(** ** The turn as the agent sees it *)

Notation TS := (TurnState AgentWorld).
Definition session_of (s : TS) : Session := sess (ts_world s).

(** Every steer the policy handed over is in the history. *)
Definition recorded (s : TS) : Prop :=
  Forall (fun u => in_history RUser (steer_text u) (session_of s)) (ts_appended s).

Record progress (s t : TS) : Prop := {
  pr_extends : extends (session_of s) (session_of t);
  pr_recorded : recorded s -> recorded t;
}.

#[local] Instance progress_preorder : PreOrder progress.
Proof.
  split; [intros s; by split|]. intros s t u [He Hr] [He' Hr']. split; [by etransitivity|auto].
Qed.

Lemma recorded_extends s t :
  recorded s -> ts_appended t = ts_appended s -> extends (session_of s) (session_of t) -> recorded t.
Proof.
  intros Hr Ha He. unfold recorded. rewrite Ha. apply (Forall_impl _ _ _ Hr). intros u Hu. by eapply in_history_extends.
Qed.

Lemma progress_same s t : ts_appended t = ts_appended s -> extends (session_of s) (session_of t) -> progress s t.
Proof. intros Ha He. split; [done|]. intros Hr. by eapply recorded_extends. Qed.

#[local] Instance on_world_progress {A} (c : M AgentWorld A) : wkept c -> Stays progress (on_world c).
Proof.
  intros Hc s. unfold on_world. specialize (Hc (ts_world s)). destruct (c (ts_world s)) as [w r].
  by apply progress_same.
Qed.

#[local] Instance on_control_progress {A} (a : A) f : Stays progress (on_control a f).
Proof.
  intros s. unfold on_control. destruct (ts_control s) as [c|]; [|done]. destruct (f _) as [c' a']. by apply progress_same.
Qed.

#[local] Instance reset_guard_progress : Stays progress reset_guard.
Proof. intros s. by apply progress_same. Qed.

#[local] Instance raise_progress : Stays progress raise_if_cancelled.
Proof. unfold raise_if_cancelled. frame. Qed.

#[local] Instance check_repetition_progress calls : Stays progress (check_repetition calls).
Proof. intros s. unfold check_repetition. destruct (check calls (ts_guard s)) as [g r]. by apply progress_same. Qed.

#[local] Instance append_all_progress l : Stays progress (append_all (fun l => on_sess (append_steering ts on_event l)) l).
Proof.
  intros s. unfold append_all, bind. pose proof (on_world_progress (on_sess (append_steering ts on_event l)) _ s) as Hw.
  destruct (on_world _ s) as [s1 [[]|e]] eqn:E; [|done]. cbn [fst modify] in *. transitivity s1; [done|].
  split; [done|]. unfold recorded. cbn [ts_appended session_of ts_world]. intros Hr. apply Forall_app. split; [done|].
  unfold on_world, on_sess, on_jobs, job_session in E.
  destruct (append_steering ts on_event l (js_session (aw_jobs (ts_world s)))) as [x [[]|e]] eqn:Ea; [|done].
  injection E as <-. apply (append_steering_stores _ _ _ Ea).
Qed.

#[local] Instance steering_progress finishing : Stays progress (turn_steering ts on_event finishing).
Proof. unfold turn_steering, apply_steering. frame. Qed.

#[local] Instance turn_jobs_progress turn : Stays progress (turn_jobs has_jobs on_update normalizer elapsed turn).
Proof. unfold turn_jobs, apply_jobs. frame. Qed.

#[local] Instance wait_for_jobs_progress turn fuel :
  Stays progress (wait_for_jobs (apply_job_results has_jobs on_update normalizer elapsed turn)
    (fun l => on_sess (append_steering ts on_event l)) fuel (wait_for_job has_jobs on_update normalizer elapsed turn)).
Proof.
  induction fuel as [|fuel IH]; cbn [wait_for_jobs]; frame.
Qed.

#[local] Instance try_finish_progress content :
  Stays progress (try_finish (fun l => on_sess (append_steering ts on_event l)) (Some (before_finish ts hooks content))).
Proof. unfold try_finish. frame. Qed.

#[local] Instance after_response_progress turn fuel content :
  Stays progress (after_response (apply_job_results has_jobs on_update normalizer elapsed turn)
    (fun l => on_sess (append_steering ts on_event l)) fuel (wait_for_job has_jobs on_update normalizer elapsed turn)
    (Some (before_finish ts hooks content))).
Proof. unfold after_response. frame. Qed.

#[local] Instance turn_loop_progress wait_fuel turn : forall fuel index,
  Stays progress (turn_loop ts definitions hooks cm has_jobs on_update normalizer elapsed normalize on_event deltas
    error_details batch_schedule wait_fuel fuel turn index).
Proof.
  induction fuel as [|fuel IH]; intros index; cbn [turn_loop]; [apply _|]. unfold world, in_session, record_completion.
  frame. all: unfold on_compression_call; frame.
Qed.

(** ** However a turn ends *)

Context (Hsink : accepting) (Huuid : forall n, uuid4 n <> "").
Context (Hcallback : forall f u x, on_update = Some f -> exists x', f u x = (x', Ok tt)).

Lemma finish_locked_returns j status output error summary s :
  is_terminal status = true -> exists s', finish_locked on_update elapsed j status output error summary s = (s', Ok tt).
Proof.
  intros Ht. unfold finish_locked, update_job, put_jobs, bind, get, modify. unfold job_session. cbn [js_session].
  unfold job_finished.
  match goal with |- context [event_ ?ty ?t ?p ?c ?s0] => destruct (event_ok Hsink ty t p c s0) as [x ->] end;
    [apply apply_ok_job_finished; by destruct status|].
  match goal with |- context [publish on_update ?u ?s0] => destruct (publish_ok on_update Hcallback u s0) as [x' ->] end. eauto.
Qed.

Lemma cancel_locked_returns id s : exists s', cancel_locked on_update elapsed id s = (s', Ok tt).
Proof.
  unfold cancel_locked, bind at 1, get. destruct (dget id (js_jobs s)) as [j|]; [|eauto].
  destruct (negb (live j)); [eauto|]. unfold bind at 1, update_job at 1, put_jobs, modify.
  case_bool_decide; [|eauto]. unfold bind, update_job, put_jobs, modify. by apply finish_locked_returns.
Qed.

Lemma cancel_jobs_returns fuel turn w : exists w' b, cancel_jobs has_jobs on_update normalizer elapsed fuel turn w = (w', Ok b).
Proof.
  unfold cancel_jobs. destruct turn as [t|]; [|eauto]. destruct (negb has_jobs); [eauto|]. unfold bind at 1, on_jobs at 1.
  assert (Hall : forall ids s, exists s', for_each (cancel_locked on_update elapsed) ids s = (s', Ok tt)).
  { induction ids as [|id ids IH]; intros s; [eauto|]. cbn [for_each]. unfold bind.
    by destruct (cancel_locked_returns id s) as [s' ->]. }
  unfold cancel_turn, bind at 1, get. destruct (Hall (map jb_id (List.filter (fun j => String.eqb (jb_turn j) t)
    (dvalues (js_jobs (aw_jobs w))))) (aw_jobs w)) as [j ->].
  assert (Hwait : forall w, exists w' b, wait_for_turn on_update normalizer elapsed fuel t w = (w', Ok b)).
  { induction fuel as [|fuel' IH]; intros w0; cbn [wait_for_turn]; unfold bind, get; [eauto|].
    destruct (turn_busy t (aw_jobs w0)); [|eauto]. unfold workers_act, modify. apply IH. }
  unfold bind at 1. destruct (Hwait (MkWorld j (aw_workers w) (aw_stops w) (aw_details w))) as (w1 & b & ->).
  destruct b; cbn [negb]; eauto.
Qed.

(** The record of the turn [run] was called for. *)
Definition settled (status : TurnStatus) (error : option RuntimeErrorInfo) (s s' : Session) : Prop :=
  current_turn_id s' = None /\
  exists t turn, turns (st s') = dset t turn (turns (st s)) /\ t_turn_id turn = t /\ t_status turn = status /\
    t_error turn = error /\ is_Some (t_started_at turn) /\ is_Some (t_finished_at turn).

(** The state of the session while the turn runs. *)
Definition running (s s' : Session) : Prop :=
  items (st s) `prefix_of` items (st s') /\
  exists t ts, t <> "" /\ current_turn_id s' = Some t /\
    turns (st s') = dset t (MkTurn t TRunning (Some ts) None None) (turns (st s)).

Lemma running_extends s s1 s2 : running s s1 -> extends s1 s2 -> running s s2.
Proof.
  intros (Hi & t & ts0 & Ht & Hc & Hs) [[Hs' Hi'] Hc']. split; [by etransitivity|]. exists t, ts0. by rewrite Hc', Hs'.
Qed.

Lemma finish_running status error s s1 :
  (forall e, error = Some e -> nonempty (rei_type e) = true) -> running s s1 ->
  exists s2, finish_turn status None error s1 = (s2, Ok tt) /\ settled status error s s2 /\
    items (st s) `prefix_of` items (st s2) /\ items (st s2) = items (st s1).
Proof.
  intros He (Hi & t & ts0 & Ht & Hc & Hs). destruct (finish_turn_settles status error t s1 Hsink He Hc Ht)
    as (s2 & ts1 & -> & Hc2 & Hs2 & Hi2). exists s2. split; [done|]. split; [|by rewrite Hi2].
  split; [done|]. exists t, (finished_turn t status error ts1 (st s1)). rewrite Hs2, Hs, dset_dset.
  unfold finished_turn. rewrite Hs, dget_dset_eq. by repeat split.
Qed.

Notation agent_turn := (run_turn ts definitions hooks cm has_jobs on_update normalizer elapsed normalize on_event deltas
  error_details batch_schedule).
Notation agent_run := (run ts definitions hooks cm has_jobs on_update normalizer elapsed normalize on_event deltas
  error_details batch_schedule).

Lemma run_turn_running wait_fuel fuel input atts requested source s :
  requested <> Some "" -> running (session_of s) (session_of (fst (agent_turn wait_fuel fuel input atts requested source s))).
Proof.
  intros Hr. unfold run_turn. unfold bind at 1, in_session at 1, on_world at 1, on_sess, on_jobs at 1, job_session at 1.
  destruct (begin_turn_runs requested (session_of s) Hsink Huuid Hr) as (s1 & t & ts0 & Hb & Ht & Hc & Htu & Hi).
  unfold session_of, sess in Hb. rewrite Hb.
  match goal with |- running _ (session_of (fst (?k ?s2))) => assert (Hk : Stays progress k)
    by (unfold in_session; frame); eapply running_extends; [|apply (pr_extends _ _ (Hk s2))] end.
  change (running (session_of s) s1). split; [by rewrite Hi|]. by exists t, ts0.
Qed.


(** ** What a completed turn leaves in the history *)

Lemma timestamp_wf role content t calls call_id reasoning origin data :
  timestamp_valid t -> (forall ps, content <> CParts ps) ->
  message_wf (MkMessage role content (Some t) calls call_id reasoning origin data).
Proof.
  intros Ht Hc. split; simpl; [|by intros ? [= <-]]. unfold m_parts. cbn [m_content].
  destruct content as [|text|ps]; [constructor|by repeat constructor|by destruct (Hc ps)].
Qed.

Lemma now_valid s s' t : now s = (s', Ok t) -> timestamp_valid t.
Proof. intros [= _ <-]. apply Hclock. Qed.

Lemma record_answer_stores index response content w w' :
  rs_content response = Some content ->
  record_answer definitions cm has_jobs elapsed on_event index response content w = (w', Ok tt) ->
  in_history RAssistant content (sess w').
Proof.
  intros Hc. unfold record_answer. unfold bind at 1, on_sess at 1, on_jobs at 1, job_session at 1.
  destruct (now (js_session (aw_jobs w))) as [s1 [t|e]] eqn:Et; [|done]. unfold bind at 1, get. cbv zeta.
  unfold bind at 1, on_sess at 1, on_jobs at 1, job_session at 1. cbn [aw_jobs js_session].
  destruct (add_item _ [] SrcUserInput s1) as [s2 [[]|e]] eqn:Ea; [|done]. intros Hr.
  assert (Hin : in_history RAssistant content s2).
  { refine (add_item_stores _ content _ _ _ _ _ Ea); [|unfold assistant_message; by rewrite Hc].
    apply timestamp_wf; [by eapply now_valid|]. by rewrite Hc. }
  apply (in_history_extends _ _ s2); [done|]. pose proof emit_extends as He.
  match type of Hr with ?k ?w1 = _ => assert (Hk : wkept k) by (unfold report_window; frame);
    specialize (Hk w1); by rewrite Hr in Hk end.
Qed.

(** A turn that stopped: finished, not cancelled, its steering handed over. *)
Definition quiet (s : TS) : Prop :=
  exists c, ts_control s = Some c /\ c_finished c = true /\ is_cancelled c = false.

Definition answered (_ : TS) (o : option AgentRunResult) (s' : TS) : Prop :=
  match o with Some r => quiet s' /\ in_history RAssistant (rr_content r) (session_of s') | None => True end.

Lemma answered_bind {A} (c : M TS A) (k : A -> M TS (option AgentRunResult)) Q :
  keeps c Q -> (forall a, keeps (k a) answered) -> keeps (bind c k) answered.
Proof. intros Hc Hk. by apply (keeps_bind _ _ Q (fun _ => answered)). Qed.

Lemma answered_fail e : keeps (@fail TS (option AgentRunResult) e) answered.
Proof. by intros s s' a Hb Hn. Qed.

Lemma keeps_check calls : keeps (check_repetition calls) (fun _ _ _ => True).
Proof. intros s s' a Hb Hn. unfold check_repetition. destruct (check calls (ts_guard s)) as [g r]. intros [= <- ->]. by split. Qed.

Lemma answer_kept turn wait_fuel index response content (next : M TS (option AgentRunResult)) :
  rs_content response = Some content -> keeps next answered ->
  keeps (on_world (record_answer definitions cm has_jobs elapsed on_event index response content) ;;;
    again <- after_response (apply_job_results has_jobs on_update normalizer elapsed turn)
      (fun l => on_sess (append_steering ts on_event l)) wait_fuel
      (wait_for_job has_jobs on_update normalizer elapsed turn) (Some (before_finish ts hooks content)) ;;
    match again with
    | None => ret None
    | Some true => next
    | Some false => ret (Some (MkRunResult content (rs_usage response)))
    end) answered.
Proof.
  intros Hc Hnext s s' o Hb Hn. unfold bind at 1.
  destruct (on_world _ s) as [s1 [[]|e]] eqn:E1; [|done].
  destruct (keeps_on_world _ _ _ _ Hb Hn E1) as (Hb1 & Hn1 & _).
  assert (Hin : in_history RAssistant content (session_of s1)).
  { unfold on_world in E1. destruct (record_answer _ _ _ _ _ _ _ _ (ts_world s)) as [w r] eqn:Er. injection E1 as <- ->.
    by eapply record_answer_stores. }
  unfold bind at 1. destruct (after_response _ _ _ _ _ s1) as [s2 [again|e]] eqn:E2; [|done].
  destruct (keeps_after_response _ _ _ _ _ _ _ _ Hb1 Hn1 E2) as (Hb2 & Hn2 & _ & Hq).
  destruct again as [[]|]; [intros Hr; exact (Hnext _ _ _ Hb2 Hn2 Hr)| |intros [= <- <-]; by split]. intros [= <- <-]. split; [done|]. split; [done|].
  split; [by apply Hq|]. cbn [rr_content]. apply (in_history_extends _ _ (session_of s1)); [done|].
  pose proof (after_response_progress turn wait_fuel content s1) as Hp. rewrite E2 in Hp. by apply pr_extends.
Qed.

Lemma turn_loop_answered wait_fuel turn : forall fuel index,
  keeps (turn_loop ts definitions hooks cm has_jobs on_update normalizer elapsed normalize on_event deltas
    error_details batch_schedule wait_fuel fuel turn index) answered.
Proof.
  induction fuel as [|fuel IH]; intros index; cbn [turn_loop]; [by apply keeps_ret|].
  unfold world, in_session, turn_jobs, turn_steering.
  repeat first [ progress cbv zeta
    | apply (answered_bind _ _ _ keeps_raise); intros _
    | apply (answered_bind _ _ _ (keeps_jobs _)); intros _
    | apply (answered_bind _ _ _ (keeps_on_world _)); intros ?
    | apply (answered_bind _ _ _ (keeps_steering_outcome _ _)); intros _
    | apply (answered_bind _ _ _ (keeps_check _)); intros _
    | apply IH | apply answered_fail
    | match goal with |- keeps (if ?b then _ else _) _ => destruct b end
    | match goal with |- keeps (match rs_tool_calls ?r with _ => _ end) _ => destruct (rs_tool_calls r) end ].
  match goal with |- keeps (match rs_content ?r with _ => _ end) _ => destruct (rs_content r) eqn:Ec end;
    [by apply answer_kept|apply answered_fail].
Qed.

Lemma settle_failure_raises fuel e s :
  match snd (settle_failure has_jobs on_update normalizer elapsed error_details fuel e s) with Ok (Some _) => False | _ => True end.
Proof.
  unfold settle_failure. unfold bind at 1. destruct (world s) as [s1 [w|e1]]; [|done]. unfold bind at 1.
  destruct (on_world _ s1) as [s2 [b|e2]]; [|done]. destruct (negb b); [done|]. unfold bind at 1.
  destruct (world s2) as [s3 [w3|e3]]; [|done]. unfold bind at 1. by destruct (in_session _ s3) as [s4 [?|?]].
Qed.

(** The user's message is in the history when the loop starts. *)
Lemma run_turn_answered wait_fuel fuel input requested source s s' r :
  books s -> ts_control s <> None -> ts_appended s = [] ->
  agent_turn wait_fuel fuel input [] requested source s = (s', Ok (Some r)) ->
  books s' /\ answered s (Some r) s' /\ in_history RUser input (session_of s') /\ recorded s'.
Proof.
  intros Hb Hn Happ. unfold run_turn, in_session.
  unfold bind at 1. destruct (on_world (on_sess (begin_turn requested)) s) as [s1 [t|e]] eqn:E1; [|done].
  destruct (keeps_on_world _ _ _ _ Hb Hn E1) as (Hb1 & Hn1 & _ & Ha1).
  unfold bind at 1. destruct (on_world (on_sess now) s1) as [s2 [t0|e]] eqn:E2; [|done].
  destruct (keeps_on_world _ _ _ _ Hb1 Hn1 E2) as (Hb2 & Hn2 & _ & Ha2).
  unfold bind at 1. destruct (on_world (on_sess (check_input ts input source)) s2) as [s3 [feedback|e]] eqn:E3; [|done].
  destruct (keeps_on_world _ _ _ _ Hb2 Hn2 E3) as (Hb3 & Hn3 & _ & Ha3).
  unfold bind at 1. destruct (on_world (on_sess (add_item (user_message input t0) [] SrcUserInput)) s3)
    as [s4 [[]|e]] eqn:E4; [|done]. destruct (keeps_on_world _ _ _ _ Hb3 Hn3 E4) as (Hb4 & Hn4 & _ & Ha4). intros Hr.
  assert (Hin : in_history RUser input (session_of s4)).
  { unfold on_world, on_sess, on_jobs, job_session in E4.
    destruct (add_item _ _ _ _) as [x [[]|e]] eqn:Ea in E4; [|done]. injection E4 as <-.
    refine (add_item_stores (user_message input t0) input SrcUserInput _ x _ eq_refl Ea). apply timestamp_wf; [|done].
    unfold on_world, on_sess, on_jobs, job_session, now, bind, get, modify, ret in E2. injection E2 as _ <-. apply Hclock. }
  match type of Hr with ?k s4 = _ =>
    assert (Hp : Stays progress k) by frame; assert (Hk : keeps k answered)
      by (apply (answered_bind _ _ _ (keeps_on_world _)); intros _; apply turn_loop_answered) end.
  destruct (Hk _ _ _ Hb4 Hn4 Hr) as (Hb5 & _ & Ha). split; [done|]. split; [done|].
  specialize (Hp s4). rewrite Hr in Hp. split; [apply (in_history_extends _ _ (session_of s4)); [done|apply Hp]|].
  apply Hp. unfold recorded. by rewrite Ha4, Ha3, Ha2, Ha1, Happ.
Qed.

Lemma in_history_items role text s t : items (st t) = items (st s) -> in_history role text s -> in_history role text t.
Proof. intros Hi (m & Hm & Hrest). exists m. by rewrite Hi. Qed.

End loop.

(** ** A turn that is steered while it runs *)

(** An environment whose clock stands still. *)
Definition steady_env : Env := {|
  uuid4 n := "uuid-" +:+ pretty n;
  utcnow _ := 63900000000000000;
  sink_result _ := None;
|}.

(** A machine, a provider that always answers, and a tool set without tools. *)
Definition desk_platform : Platform := {| local_offset _ := 0; sha256_hex t := t; elapsed_ms _ := 7 |}.
Definition chatty : Provider := {|
  token_counting_identity := JStr "demo"; model_name := Some "demo"; max_context_tokens := 100;
  max_output_tokens := None; count_input_tokens q := Z.min 50 (zlen (rq_messages q));
  stream_cancellable _ _ := Ok (MkResponse (Some "done") None [] None []);
|}.
Definition desk_floats : FloatText := {| float_repr b := pretty b |}.
Definition desk_cm : ContextManager :=
  MkContextManager "You are an agent." "Summarise." None None 20 None None (MkLimits 80 true 60 1 2000) 4.
Definition bare_tools : ToolSet := MkToolSet [] None None None (ret false).
Definition desk_session : Session :=
  MkSession "s-1" None (initial_state ASK_FOR_APPROVAL) [] true None 0 [].

#[export] Instance bare_surroundings : @Surroundings steady_env bare_tools None None (fun _ => ret "") None.
Proof.
  split; try done; intros; unfold execute, run_hooks; frame.
Qed.

(** A message arrives while the first answer is being produced. *)
Definition desk : TurnState AgentWorld :=
  MkTurnState (Some (new_control false)) (MkGuard 3 None 0) [[]; []; [ArriveSteer "1" "and tests"]] []
    (MkWorld (MkJobState desk_session [] [] false) [] 0 None).

Definition desk_run : TurnState AgentWorld * res (option AgentRunResult) :=
  @run steady_env desk_platform chatty desk_floats bare_tools [] None desk_cm false None None (fun _ => jzero)
    (fun _ => ret "") None (fun _ _ => []) (fun _ => []) (fun _ => []) 5 5 "fix it" [] None "user" desk.

Lemma desk_run_eq :
  @run steady_env desk_platform chatty desk_floats bare_tools [] None desk_cm false None None (fun _ => jzero)
    (fun _ => ret "") None (fun _ _ => []) (fun _ => []) (fun _ => []) 5 5 "fix it" [] None "user" desk
  = (fst desk_run, snd desk_run).
Proof. unfold desk_run. apply surjective_pairing. Qed.

Lemma desk_run_answer : snd desk_run = Ok (Some (MkRunResult "done" None)).
Proof. vm_compute. reflexivity. Qed.

Lemma desk_clock : forall n, timestamp_valid (@utcnow steady_env n).
Proof. intros n. split; vm_compute; [discriminate|reflexivity]. Qed.


