(* ===== verification/Patch.v ===== *)
(** * Patches: agent_core/tools/builtin/apply_patch.py

    Parsing and application of patches.  A file is a list of lines, each with its
    own ending; a hunk line is a context, an added or a removed line.  The
    workspace (path resolution and what the disk holds besides files) is a class,
    the disk a dictionary of the files by resolved path, [None] for bytes that are
    not UTF-8. *)

From stdpp Require Import base list strings pretty.
From Stdlib Require Import ZArith Lia Ascii.
From S2P Require Import Prelude PyData PyStr Json Content PyText Authority Message Session Tools.

Record TextLine := MkLine { l_text : string; l_ending : string }.

#[export] Instance TextLine_eq_dec : EqDecision TextLine.
Proof. solve_decision. Defined.

Record HunkHeader := MkHeader { hh_old_start : Z; hh_old_count : Z; hh_new_start : Z; hh_new_count : Z }.

(** A line of a hunk by its first character: space, plus or minus. *)
Inductive HunkLine := Ctx (t : string) | Add (t : string) | Del (t : string).

#[export] Instance HunkLine_eq_dec : EqDecision HunkLine.
Proof. solve_decision. Defined.

Definition is_ctx (l : HunkLine) : bool := match l with Ctx _ => true | _ => false end.
(** [line[0] != "+"] and [line[0] != "-"] *)
Definition is_old (l : HunkLine) : bool := match l with Add _ => false | _ => true end.
Definition is_new (l : HunkLine) : bool := match l with Del _ => false | _ => true end.
Definition hunk_text (l : HunkLine) : string := match l with Ctx t | Add t | Del t => t end.

Definition CRLF : string := String CR NL.
Definition CRS : string := String CR "".
Definition QUOTE (s : string) : string := "'" +:+ s +:+ "'".

(** ** Lines *)

(** [_split_text_lines]: [cur] is the text since the last ending. *)
Fixpoint split_lines_go (cur s : string) : list TextLine :=
  match s with
  | "" => if nonempty cur then [MkLine cur ""] else []
  | String c s' =>
      if Ascii.eqb c CR then
        match s' with
        | String d s'' => if Ascii.eqb d LF then MkLine cur CRLF :: split_lines_go "" s''
                          else MkLine cur CRS :: split_lines_go "" s'
        | "" => [MkLine cur CRS]
        end
      else if Ascii.eqb c LF then MkLine cur NL :: split_lines_go "" s'
      else split_lines_go (cur +:+ String c "") s'
  end.
Definition split_text_lines (content : string) : list TextLine := split_lines_go "" content.

(** [_split_patch_lines] *)
Definition drop_cr (line : string) : string :=
  if endswith_char CR line then stake (String.length line - 1) line else line.
Definition split_patch_lines (patch : string) : list string :=
  let lines := split_char LF patch in
  map drop_cr (match last lines with Some "" => removelast lines | _ => lines end).

Definition count_ending (e : string) (lines : list TextLine) : Z :=
  zlen (List.filter (fun l => String.eqb (l_ending l) e) lines).

(** [_preferred_newline]: [max] of the counts, the first ending seen wins ties,
    then the order of the dictionary. *)
Definition preferred_newline (lines : list TextLine) : string :=
  match List.filter (fun l => nonempty (l_ending l)) lines with
  | [] => NL
  | first :: _ =>
      let first := l_ending first in
      let better a b := (count_ending b lines <? count_ending a lines)
        || ((count_ending a lines =? count_ending b lines) && String.eqb a first && negb (String.eqb b first)) in
      let best := if better NL CRLF then NL else CRLF in
      if better CRS best then CRS else best
  end.

(** ** Hunk headers *)

Fixpoint read_number (acc : Z) (seen : bool) (s : string) : option (Z * string) :=
  match s with
  | String c s' =>
      if (48 <=? scode c) && (scode c <=? 57) then read_number (acc * 10 + (scode c - 48)) true s'
      else if seen then Some (acc, s) else None
  | "" => if seen then Some (acc, s) else None
  end.
Definition number (s : string) : option (Z * string) := read_number 0 false s.

Definition skip (p s : string) : option string :=
  if startswith p s then Some (sdrop (String.length p) s) else None.

(** [(\d+)(?:,(\d+))?]: the start and the count, 1 by default. *)
Definition read_range (s : string) : option (Z * Z * string) :=
  match number s with
  | None => None
  | Some (start, rest) =>
      match skip "," rest with
      | Some rest' => match number rest' with
                      | Some (count, rest'') => Some (start, count, rest'')
                      | None => Some (start, 1, rest)
                      end
      | None => Some (start, 1, rest)
      end
  end.

(** [_HUNK_HEADER.fullmatch] *)
Definition match_header (header : string) : option HunkHeader :=
  match skip "@@ -" header with
  | None => None
  | Some s =>
      match read_range s with
      | None => None
      | Some (old_start, old_count, s) =>
          match skip " +" s with
          | None => None
          | Some s =>
              match read_range s with
              | None => None
              | Some (new_start, new_count, s) =>
                  match skip " @@" s with
                  | Some "" => Some (MkHeader old_start old_count new_start new_count)
                  | Some s => if startswith " " s then Some (MkHeader old_start old_count new_start new_count) else None
                  | None => None
                  end
              end
          end
      end
  end.

(** [_parse_hunk_header] *)
Definition parse_hunk_header (header path : string) : res (option HunkHeader) :=
  if String.eqb header "@@" then Ok None else
  match match_header header with
  | None => value_error ("apply_patch invalid hunk header in " +:+ QUOTE path +:+ ": " +:+ repr_string header)
  | Some h =>
      if (hh_old_start h <? (if hh_old_count h =? 0 then 0 else 1))
         || (hh_new_start h <? (if hh_new_count h =? 0 then 0 else 1))
      then value_error ("apply_patch hunk starts must be positive in " +:+ QUOTE path)
      else Ok (Some h)
  end.

(** ** Matching *)

Definition is_blank (c : ascii) : bool := one_of [SPC; TAB] c.

(** The loop of [_lines_match], from the line at the position on. *)
Fixpoint match_from (ignore : bool) (source : list TextLine) (hunk : list HunkLine) : bool :=
  match hunk with
  | [] => true
  | Add _ :: hunk' => match_from ignore source hunk'
  | l :: hunk' =>
      match source with
      | [] => false
      | x :: source' =>
          (if ignore && is_ctx l then String.eqb (rstrip_by is_blank (l_text x)) (rstrip_by is_blank (hunk_text l))
           else String.eqb (l_text x) (hunk_text l)) && match_from ignore source' hunk'
      end
  end.

(** [_lines_match] *)
Definition lines_match (source : list TextLine) (hunk : list HunkLine) (start : nat) (ignore : bool) : bool :=
  (start <=? length source)%nat && match_from ignore (drop start source) hunk.

(** The number of leading context lines; all of them when there is no edit. *)
Fixpoint leading_ctx (hunk : list HunkLine) : nat :=
  match hunk with
  | Ctx _ :: hunk' => S (leading_ctx hunk')
  | _ => O
  end.
(** The number of trailing context lines; 0 when there is no edit. *)
Definition trailing_ctx (hunk : list HunkLine) : nat :=
  if forallb is_ctx hunk then O else leading_ctx (rev hunk).

Definition has_removal (hunk : list HunkLine) : bool :=
  existsb (fun l => match l with Del t => nonempty (strip_by is_blank t) | _ => false end) hunk.

Definition old_lines (hunk : list HunkLine) : list HunkLine := List.filter is_old hunk.

Definition ambiguous {A} (path : string) : res A :=
  value_error ("apply_patch hunk is ambiguous in " +:+ QUOTE path
    +:+ "; include more context or use a numbered range with matching full context").

(** The matches found so far: at most one edit position, with its latest match. *)
Definition Found : Type := option (nat * (nat * list HunkLine)).

(** [for index in range(start, len(source) - old_count + 1)] *)
Fixpoint scan_indices (source : list TextLine) (candidate : list HunkLine) (ignore : bool) (shift : nat) (path : string)
    (indices : list nat) (found : Found) : res Found :=
  match indices with
  | [] => Ok found
  | index :: indices' =>
      if lines_match source candidate index ignore then
        let edit := (index + shift)%nat in
        match found with
        | Some (other, _) => if (other =? edit)%nat
            then scan_indices source candidate ignore shift path indices' (Some (edit, (index, candidate)))
            else ambiguous path
        | None => scan_indices source candidate ignore shift path indices' (Some (edit, (index, candidate)))
        end
      else scan_indices source candidate ignore shift path indices' found
  end.

Definition candidate_of (hunk : list HunkLine) (before after : nat) : list HunkLine :=
  take (length hunk - after - before) (drop before hunk).

(** [range(start, len(source) - old_count + 1)] *)
Definition positions (source : list TextLine) (candidate : list HunkLine) (start : nat) : list nat :=
  seq start (S (length source) - length (old_lines candidate) - start).

(** [for before in range(min(leading, trim) + 1)] *)
Fixpoint scan_trims (source : list TextLine) (hunk : list HunkLine) (start : nat) (ignore : bool) (trim : nat)
    (path : string) (befores : list nat) (found : Found) : res Found :=
  match befores with
  | [] => Ok found
  | before :: befores' =>
      let after := (trim - before)%nat in
      if (trailing_ctx hunk <? after)%nat
      then scan_trims source hunk start ignore trim path befores' found
      else
        let candidate := candidate_of hunk before after in
        found <~ scan_indices source candidate ignore (leading_ctx hunk - before) path
                   (positions source candidate start) found ;;
        scan_trims source hunk start ignore trim path befores' found
  end.

(** One round of the two outer loops of [_find_hunk]. *)
Definition find_at (source : list TextLine) (hunk : list HunkLine) (start : nat) (preferred : option Z) (path : string)
    (trim : nat) (ignore : bool) : res (option (nat * list HunkLine)) :=
  let full := match preferred with
              | Some p => (trim =? 0)%nat && (Z.of_nat start <=? p) && lines_match source hunk (Z.to_nat p) ignore
              | None => false
              end in
  if full then Ok (Some (Z.to_nat (default 0 preferred), hunk)) else
  found <~ scan_trims source hunk start ignore trim path (seq 0 (S (Nat.min (leading_ctx hunk) trim))) None ;;
  Ok (snd <$> found).

Fixpoint find_rounds (source : list TextLine) (hunk : list HunkLine) (start : nat) (preferred : option Z) (path : string)
    (rounds : list (nat * bool)) : res (nat * list HunkLine) :=
  match rounds with
  | [] =>
      value_error ("apply_patch hunk did not match " +:+ QUOTE path +:+ "; expected context: ["
        +:+ sjoin ", " (map (fun l => repr_string (stake 120 (hunk_text l))) (take 3 (old_lines hunk))) +:+ "]")
  | (trim, ignore) :: rounds' =>
      r <~ find_at source hunk start preferred path trim ignore ;;
      match r with
      | Some m => Ok m
      | None => find_rounds source hunk start preferred path rounds'
      end
  end.

(** [_find_hunk] *)
Definition find_hunk (source : list TextLine) (hunk : list HunkLine) (start : nat) (preferred : option Z) (path : string) :
    res (nat * list HunkLine) :=
  let trims := if has_removal hunk then [0%nat; 1%nat; 2%nat] else [0%nat] in
  find_rounds source hunk start preferred path (flat_map (fun t => [(t, false); (t, true)]) trims).

(** ** Applying *)

Definition hunk_line (line : string) : option HunkLine :=
  match line with
  | String " " t => Some (Ctx t)
  | String "+" t => Some (Add t)
  | String "-" t => Some (Del t)
  | _ => None
  end.

Fixpoint read_hunk (location : string) (lines : list string) : res (list HunkLine) :=
  match lines with
  | [] => Ok []
  | line :: lines' =>
      match hunk_line line with
      | None => value_error ("apply_patch invalid hunk line in " +:+ QUOTE location +:+ ": " +:+ repr_string line)
      | Some l => hunk <~ read_hunk location lines' ;; Ok (l :: hunk)
      end
  end.

(** The lines before the first line that starts with [mark], and each such line
    with the lines after it. *)
Fixpoint group_tail (mark : string) (body : list string) : list string * list (string * list string) :=
  match body with
  | [] => ([], [])
  | l :: rest =>
      let '(pre, groups) := group_tail mark rest in
      if startswith mark l then ([], (l, pre) :: groups) else (l :: pre, groups)
  end.
(** The hunks of a section: the first line and every [@@] line open one. *)
Definition groups (body : list string) : list (string * list string) :=
  match body with
  | [] => []
  | h :: rest => let '(pre, gs) := group_tail "@@" rest in (h, pre) :: gs
  end.

(** The edit of a matched hunk, from the line at the match on. *)
Fixpoint edit_lines (newline : string) (source : list TextLine) (hunk : list HunkLine) : list TextLine :=
  match hunk with
  | [] => []
  | Add t :: hunk' => MkLine t newline :: edit_lines newline source hunk'
  | Ctx _ :: hunk' => match source with
                      | x :: source' => x :: edit_lines newline source' hunk'
                      | [] => edit_lines newline [] hunk'
                      end
  | Del _ :: hunk' => edit_lines newline (tail source) hunk'
  end.

(** The checks against a numbered header: the position of an insertion. *)
Definition check_header (location : string) (h : HunkHeader) (hunk : list HunkLine) (done source_index total : nat) : res nat :=
  let old := zlen (old_lines hunk) in
  let new := zlen (List.filter is_new hunk) in
  if negb (old =? hh_old_count h)
  then value_error ("apply_patch old line count does not match hunk header in " +:+ QUOTE location)
  else if negb (new =? hh_new_count h)
  then value_error ("apply_patch new line count does not match hunk header in " +:+ QUOTE location)
  else
    let match_index := if hh_old_count h =? 0 then hh_old_start h else hh_old_start h - 1 in
    if old =? 0 then
      let before := Z.of_nat done + match_index - Z.of_nat source_index in
      if negb (hh_new_start h =? before + (if new =? 0 then 0 else 1))
      then value_error ("apply_patch new start does not match hunk position in " +:+ QUOTE location)
      else if negb ((Z.of_nat source_index <=? match_index) && (match_index <=? Z.of_nat total))
      then value_error ("apply_patch hunk range did not match " +:+ QUOTE location)
      else Ok (Z.to_nat match_index)
    else Ok (Z.to_nat match_index).

(** One hunk: the lines of the result and the position in the source after it. *)
Definition apply_hunk (source : list TextLine) (newline location : string) (result : list TextLine) (source_index : nat)
    (group : string * list string) : res (list TextLine * nat) :=
  header <~ parse_hunk_header (fst group) location ;;
  hunk <~ read_hunk location (snd group) ;;
  if bool_decide (hunk = []) then value_error ("apply_patch empty hunk in " +:+ QUOTE location) else
  insertion <~ match header with
               | None => if bool_decide (old_lines hunk = [])
                         then value_error ("apply_patch update hunk for " +:+ QUOTE location +:+ " needs context or removal")
                         else Ok O
               | Some h => check_header location h hunk (length result) source_index (length source)
               end ;;
  found <~ (if bool_decide (old_lines hunk = []) then Ok (insertion, hunk)
            else find_hunk source hunk source_index ((fun h => hh_old_start h - 1) <$> header) location) ;;
  let '(match_index, hunk) := found in
  Ok (result ++ take (match_index - source_index) (drop source_index source)
        ++ edit_lines newline (drop match_index source) hunk,
      (match_index + length (old_lines hunk))%nat).

Fixpoint apply_groups (source : list TextLine) (newline path : string) (n : nat) (result : list TextLine) (source_index : nat)
    (gs : list (string * list string)) : res (list TextLine * nat) :=
  match gs with
  | [] => Ok (result, source_index)
  | g :: gs' =>
      r <~ apply_hunk source newline (path +:+ " (hunk " +:+ pretty n +:+ ")") result source_index g ;;
      apply_groups source newline path (S n) (fst r) (snd r) gs'
  end.

(** The final join: every line but the last keeps or gets an ending. *)
Fixpoint join_lines (newline : string) (trailing : bool) (lines : list TextLine) : string :=
  let ended l := l_text l +:+ (if nonempty (l_ending l) then l_ending l else newline) in
  match lines with
  | [] => ""
  | [l] => if trailing then ended l else l_text l
  | l :: lines' => ended l +:+ join_lines newline trailing lines'
  end.

(** [_apply_hunks] *)
Definition apply_hunks (original : string) (body : list string) (path : string) : res string :=
  let source := split_text_lines original in
  let trailing := match last source with Some l => nonempty (l_ending l) | None => true end in
  let newline := preferred_newline source in
  r <~ apply_groups source newline path 1 [] 0 (groups body) ;;
  Ok (join_lines newline trailing (fst r ++ drop (snd r) source)).

(** ** The files of a patch *)

Inductive Operation := Added | Updated | Deleted.

#[export] Instance Operation_eq_dec : EqDecision Operation.
Proof. solve_decision. Defined.

Definition operation_str (o : Operation) : string :=
  match o with Added => "added" | Updated => "updated" | Deleted => "deleted" end.

Record FileChange := MkChange { fc_operation : Operation; fc_path : string; fc_content : option string }.

(** What the operating system and pathlib tell about paths; [display_path] is a
    resolved path relative to the workspace, [parents_of] lists the ancestors,
    the nearest first. *)
Class Paths := {
  workspace_path : string;
  is_absolute : string -> bool;
  resolved : string -> string;
  within : string -> bool;
  display_path : string -> string;
  parents_of : string -> list string;
  is_directory : string -> bool;
}.

Definition Disk : Type := list (string * option string).

Section files.
Context `{Paths}.

(** agent_core/workspace.py: Workspace.resolve_path *)
Definition resolve_path (relative_path : string) : res string :=
  if is_absolute relative_path then value_error "workspace path must be relative" else
  let p := resolved relative_path in
  if within p then Ok p else value_error "workspace path must stay within the workspace".

Definition path_exists (d : Disk) (p : string) : bool := dhas p d || is_directory p.

(** tools/files.py: missing_parent_directories, on the ancestors of a path. *)
Fixpoint missing_parents (d : Disk) (ancestors : list string) : res (list string) :=
  match ancestors with
  | [] => value_error "workspace path must stay within the workspace"
  | p :: ancestors' =>
      if String.eqb p workspace_path then Ok [] else
      if negb (within p) then value_error "workspace path must stay within the workspace" else
      if path_exists d p then
        if is_directory p then Ok [] else raise ENotADirectory ("[Errno 20] Not a directory: " +:+ repr_string p)
      else missing <~ missing_parents d ancestors' ;; Ok (missing ++ [p])
  end.

(** [_parse_file_header] *)
Definition parse_file_header (header : string) : res (Operation * string) :=
  let bad := value_error ("apply_patch invalid file header: " +:+ repr_string header) in
  let named op (path : string) := if nonempty path then Ok (op, path) else bad in
  match skip "*** Add File: " header, skip "*** Update File: " header, skip "*** Delete File: " header with
  | Some path, _, _ => named Added path
  | None, Some path, _ => named Updated path
  | None, None, Some path => named Deleted path
  | None, None, None => bad
  end.

(** [while body and not body[-1]: body.pop()] *)
Definition drop_blank_tail (body : list string) : list string :=
  fold_right (fun l acc => match acc with [] => if nonempty l then [l] else [] | _ => l :: acc end) [] body.

(** One section: its change, given the paths seen so far. *)
Definition prepare_section (d : Disk) (seen : list string) (section : string * list string) : res (string * FileChange) :=
  op_path <~ parse_file_header (fst section) ;;
  let '(operation, raw_path) := op_path in
  file_path <~ resolve_path raw_path ;;
  let display := display_path file_path in
  if name_in file_path seen
  then value_error ("apply_patch contains multiple operations for " +:+ QUOTE display) else
  let body := drop_blank_tail (snd section) in
  match operation with
  | Added =>
      if path_exists d file_path then value_error ("apply_patch cannot add existing file " +:+ QUOTE display) else
      _ <~ missing_parents d (parents_of file_path) ;;
      if negb (forallb (startswith "+") body)
      then value_error ("apply_patch add lines for " +:+ QUOTE display +:+ " must start with '+'") else
      Ok (file_path, MkChange Added display
            (Some (sjoin NL (map (sdrop 1) body) +:+ match body with [] => "" | _ => NL end)))
  | _ =>
      match dget file_path d with
      | None => value_error ("apply_patch requires existing file " +:+ QUOTE display)
      | Some content =>
          match operation with
          | Deleted =>
              match body with
              | [] => Ok (file_path, MkChange Deleted display None)
              | _ => value_error ("apply_patch delete for " +:+ QUOTE display +:+ " must have no body")
              end
          | _ =>
              match content with
              | None => value_error ("apply_patch requires UTF-8 file " +:+ QUOTE display)
              | Some original =>
                  match body with
                  | h :: _ =>
                      if startswith "@@" h then
                        text <~ apply_hunks original body display ;;
                        Ok (file_path, MkChange Updated display (Some text))
                      else value_error ("apply_patch update for " +:+ QUOTE display +:+ " requires an @@ hunk")
                  | [] => value_error ("apply_patch update for " +:+ QUOTE display +:+ " requires an @@ hunk")
                  end
              end
          end
      end
  end.

Fixpoint prepare_sections (d : Disk) (seen : list string) (sections : list (string * list string)) :
    res (list string * list FileChange) :=
  match sections with
  | [] => Ok (seen, [])
  | s :: sections' =>
      c <~ prepare_section d seen s ;;
      r <~ prepare_sections d (seen ++ [fst c]) sections' ;;
      Ok (fst r, snd c :: snd r)
  end.

(** The sections between the first and the last line: blank lines before the
    first header are skipped, any other line is taken for a header. *)
Definition patch_sections (lines : list string) : list (string * list string) :=
  let '(pre, secs) := group_tail "*** " (drop_blank_tail lines) in
  match List.filter nonempty pre with
  | [] => secs
  | l :: _ => (l, []) :: secs
  end.

(** [_prepare_changes] *)
Definition prepare_changes (d : Disk) (patch : string) : res (list FileChange) :=
  match split_patch_lines patch with
  | "*** Begin Patch" :: rest =>
      match last rest with
      | Some "*** End Patch" =>
          r <~ prepare_sections d [] (patch_sections (removelast rest)) ;;
          match snd r with
          | [] => value_error "apply_patch requires at least one file operation"
          | changes =>
              match List.filter (fun p => existsb (fun q => name_in q (fst r)) (parents_of p)) (fst r) with
              | p :: _ => value_error ("apply_patch file path is also used as a parent: " +:+ QUOTE p)
              | [] => Ok changes
              end
          end
      | _ => value_error "apply_patch patch must end with '*** End Patch'"
      end
  | _ => value_error "apply_patch patch must start with '*** Begin Patch'"
  end.

(** ** ApplyPatchTool.execute *)

(** The disk and the number of operations so far; [io_result n] is what the n-th
    one raises. *)
Record PatchState := MkPatchState { ps_disk : Disk; ps_io : nat }.

Variable io_result : nat -> option exn.

Definition disk_io (f : Disk -> Disk) : M PatchState unit := fun s =>
  match io_result (ps_io s) with
  | Some e => (MkPatchState (ps_disk s) (S (ps_io s)), Err e)
  | None => (MkPatchState (f (ps_disk s)) (S (ps_io s)), Ok tt)
  end.

Definition commit_change (c : FileChange) : M PatchState unit :=
  file_path <- lift (resolve_path (fc_path c)) ;;
  match fc_operation c, fc_content c with
  | Deleted, _ => disk_io (dpop file_path)
  | _, Some content => disk_io (dset file_path (Some content))
  | _, None => fail (Exn EAssertion "")
  end.

Definition file_json (c : FileChange) : json :=
  JObj [("path", JStr (fc_path c)); ("operation", JStr (operation_str (fc_operation c)))].

(** [except (OSError, ValueError)] *)
Definition commit_error (e : exn) : bool :=
  match exn_class e with
  | EOSError | EFileNotFound | EFileExists | ENotADirectory | EIsADirectory | EPermissionError | EBlockingIO | EValueError | EJSONDecode | EProtocol | EUnicodeDecode => true
  | _ => false
  end.

Definition patch_failure (done : list FileChange) (c : FileChange) (pending : list FileChange) (e : exn) : ToolError :=
  MkToolError "PatchApplyError" ("apply_patch failed for " +:+ QUOTE (fc_path c) +:+ ": " +:+ exn_msg e)
    (Some [("completed", JArr (map file_json done)); ("failed", file_json c);
                 ("pending", JArr (map file_json pending));
                 ("cause", JObj [("type", JStr (class_name (exn_class e))); ("message", JStr (exn_msg e))])]).

Fixpoint commit_changes (done changes : list FileChange) : M PatchState ToolOutcome :=
  match changes with
  | [] => ret (PlainOutput (JObj [("files", JArr (map file_json done))]))
  | c :: changes' =>
      r <- (fun s => let '(s', r) := commit_change c s in (s', Ok r)) ;;
      match r with
      | Ok _ => commit_changes (done ++ [c]) changes'
      | Err e => if commit_error e then ret (ToolFailed (patch_failure done c changes' e)) else fail e
      end
  end.

(** [cancelled]: the cancellation signal, read once between the two phases. *)
Definition execute_patch (cancelled : bool) (arguments : list (string * json)) : M PatchState ToolOutcome :=
  match arguments with
  | [("patch", JStr patch)] =>
      if negb (nonempty patch) then fail (Exn EValueError "apply_patch requires a non-empty string 'patch'") else
      s <- get ;;
      changes <- lift (prepare_changes (ps_disk s) patch) ;;
      if cancelled then fail (Exn EAgentCancelled "") else commit_changes [] changes
  | [("patch", _)] => fail (Exn EValueError "apply_patch requires a non-empty string 'patch'")
  | _ => fail (Exn EValueError "apply_patch accepts only the 'patch' argument")
  end.
End files.
