(* ===== verification/PatchThms.v ===== *)
(** * Theorems on patches

    Claims about agent_core/tools/builtin/apply_patch.py: a patch edits exactly
    what its hunks name, an unnumbered hunk is applied only where it occurs once,
    a patch without changes gives back the file, and a failed patch has either
    written nothing or reports exactly what it has written. *)

From stdpp Require Import base list strings pretty sets.
From Stdlib Require Import ZArith Lia Ascii.
From S2P Require Import Prelude PyData PyStr Json Content PyText Authority Message Session TurnControl Tools Patch.

(** ** Lines of a file *)

Definition line_string (l : TextLine) : string := l_text l +:+ l_ending l.
Definition lines_string (ls : list TextLine) : string := foldr (fun l s => line_string l +:+ s) "" ls.

(** Only the last line may lack an ending. *)
Fixpoint ended (ls : list TextLine) : Prop :=
  match ls with
  | [] | [_] => True
  | l :: ls' => l_ending l <> "" /\ ended ls'
  end.

Lemma ended_cons l ls : l_ending l <> "" -> ended ls -> ended (l :: ls).
Proof. by destruct ls. Qed.

Lemma split_go_spec s : forall cur, lines_string (split_lines_go cur s) = cur +:+ s /\ ended (split_lines_go cur s).
Proof.
  assert (Hgen : forall n s, (String.length s <= n)%nat -> forall cur,
    lines_string (split_lines_go cur s) = cur +:+ s /\ ended (split_lines_go cur s)).
  { clear s. induction n as [|n IH]; intros [|c s] Hlen cur; simpl in Hlen; try lia.
    1,2: cbn [split_lines_go]; destruct (nonempty cur) eqn:E; [|apply nonempty_false in E; by subst];
      split; [|done]; unfold lines_string, line_string; simpl; by rewrite !sapp_nil_r.
    cbn [split_lines_go]. destruct (Ascii.eqb_spec c CR) as [->|]; [|destruct (Ascii.eqb_spec c LF) as [->|]].
    - destruct s as [|d s]; [split; [|done]; unfold lines_string, line_string; simpl; by rewrite sapp_nil_r|].
      destruct (Ascii.eqb_spec d LF) as [->|].
      + destruct (IH s ltac:(simpl in Hlen; lia) "") as [H1 H2]. split; [|by apply ended_cons].
        cbn [lines_string foldr]. unfold lines_string in H1. rewrite H1. unfold line_string; simpl. by rewrite !sapp_assoc.
      + destruct (IH (String d s) ltac:(simpl in *; lia) "") as [H1 H2]. split; [|by apply ended_cons].
        cbn [lines_string foldr]. unfold lines_string in H1. rewrite H1. unfold line_string; simpl. by rewrite !sapp_assoc.
    - destruct (IH s ltac:(lia) "") as [H1 H2]. split; [|by apply ended_cons].
      cbn [lines_string foldr]. unfold lines_string in H1. rewrite H1. unfold line_string; simpl. by rewrite !sapp_assoc.
    - destruct (IH s ltac:(lia) (cur +:+ String c "")) as [H1 H2]. split; [|done]. rewrite H1. by rewrite sapp_assoc. }
  by apply (Hgen (String.length s)).
Qed.

Definition ends_with_newline (ls : list TextLine) : bool :=
  match last ls with Some l => nonempty (l_ending l) | None => true end.

Lemma join_ended nl ls : ended ls -> join_lines nl (ends_with_newline ls) ls = lines_string ls.
Proof.
  assert (Hgen : forall t, ended ls -> (forall l, last ls = Some l -> nonempty (l_ending l) = t) ->
    join_lines nl t ls = lines_string ls).
  { intros t. induction ls as [|l [|l' ls] IH]; intros He Hl; [done| |].
    - specialize (Hl l eq_refl). unfold lines_string, line_string. simpl. rewrite sapp_nil_r. destruct t; [by rewrite Hl|].
      apply nonempty_false in Hl. rewrite Hl. by rewrite sapp_nil_r.
    - destruct He as [Hne He]. change (lines_string (l :: l' :: ls)) with (line_string l +:+ lines_string (l' :: ls)).
      rewrite <-IH; [|done|done]. cbn [join_lines]. apply nonempty_true in Hne. rewrite Hne. by unfold line_string. }
  intros He. apply Hgen; [done|]. intros l Hl. unfold ends_with_newline. by rewrite Hl.
Qed.

(** ** What a hunk may do

    The abstract specification: a context line stands for a line of the file that
    is the same up to trailing blanks and is kept as it is, a removal for an equal
    line that is dropped, an addition for a new line. *)
Inductive hunk_edit (nl : string) : list HunkLine -> list TextLine -> list TextLine -> Prop :=
| he_nil : hunk_edit nl [] [] []
| he_ctx t x h old new : rstrip_by is_blank (l_text x) = rstrip_by is_blank t ->
    hunk_edit nl h old new -> hunk_edit nl (Ctx t :: h) (x :: old) (x :: new)
| he_del t x h old new : l_text x = t -> hunk_edit nl h old new -> hunk_edit nl (Del t :: h) (x :: old) new
| he_add t h old new : hunk_edit nl h old new -> hunk_edit nl (Add t :: h) old (MkLine t nl :: new).

(** A file after a list of hunks: everything between them is kept. *)
Inductive patched (nl : string) : list (list HunkLine) -> list TextLine -> list TextLine -> Prop :=
| patched_end ls : patched nl [] ls ls
| patched_hunk h hs kept old new rest rest' :
    hunk_edit nl h old new -> patched nl hs rest rest' ->
    patched nl (h :: hs) (kept ++ old ++ rest) (kept ++ new ++ rest').

(** A hunk without up to two of its outer context lines, if it removes something. *)
Definition trimmed (full h : list HunkLine) : Prop :=
  exists pre post, full = pre ++ h ++ post /\ Forall (fun l => is_ctx l = true) (pre ++ post) /\
    (length (pre ++ post) <= 2)%nat /\ (pre ++ post <> [] -> has_removal full = true).

Lemma match_edit nl ignore : forall hunk source, match_from ignore source hunk = true ->
  (length (old_lines hunk) <= length source)%nat /\
  hunk_edit nl hunk (take (length (old_lines hunk)) source) (edit_lines nl source hunk).
Proof.
  induction hunk as [|[t|t|t] hunk IH]; intros source Hm; cbn [match_from] in Hm; [simpl; split; [lia|constructor]|..].
  - destruct source as [|x source]; [done|]. apply andb_true_iff in Hm as [Ht Hm]. destruct (IH _ Hm) as [Hl He].
    unfold old_lines in *. simpl. split; [lia|]. constructor; [|done].
    cbn [is_ctx hunk_text] in Ht. destruct (ignore && true); apply String.eqb_eq in Ht; [done|by rewrite Ht].
  - destruct (IH _ Hm) as [Hl He]. unfold old_lines in *. simpl. split; [lia|]. by constructor.
  - destruct source as [|x source]; [done|]. apply andb_true_iff in Hm as [Ht Hm]. destruct (IH _ Hm) as [Hl He].
    unfold old_lines in *. simpl. split; [lia|]. constructor; [|done].
    cbn [is_ctx hunk_text] in Ht. rewrite andb_false_r in Ht. by apply String.eqb_eq in Ht.
Qed.

(** ** Finding a hunk *)

Lemma scan_indices_spec source candidate ignore shift path : forall indices found r,
  scan_indices source candidate ignore shift path indices found = Ok r ->
  (forall i, i ∈ indices -> lines_match source candidate i ignore = true -> exists v, r = Some ((i + shift)%nat, v)) /\
  (forall e v, found = Some (e, v) -> exists v', r = Some (e, v')) /\
  (r = found \/ exists i, i ∈ indices /\ lines_match source candidate i ignore = true /\ r = Some ((i + shift)%nat, (i, candidate))).
Proof.
  induction indices as [|i indices IH]; intros found r; cbn [scan_indices].
  - intros [= <-]. split; [by intros i Hi%not_elem_of_nil|]. split; [eauto|by left].
  - destruct (lines_match source candidate i ignore) eqn:Em.
    + intros Hr. assert (Hgo : scan_indices source candidate ignore shift path indices (Some ((i + shift)%nat, (i, candidate))) = Ok r
        /\ (forall e v, found = Some (e, v) -> e = (i + shift)%nat)).
      { destruct found as [[e v]|]; [|done]. destruct (Nat.eqb_spec e (i + shift)); [|done]. split; [done|]. intros ? ? [= <- _]. done. }
      destruct Hgo as [Hgo Hfound]. destruct (IH _ _ Hgo) as (H1 & H2 & H3). split; [|split].
      * intros j [->|Hj]%elem_of_cons Hm; [by eapply H2|by apply H1].
      * intros e v Hv. rewrite (Hfound _ _ Hv). by eapply H2.
      * right. destruct H3 as [->|(j & Hj & Hm & ->)]; [exists i|exists j]; (split; [by constructor|done]).
    + intros Hr. destruct (IH _ _ Hr) as (H1 & H2 & H3). split; [|split; [done|]].
      * intros j [->|Hj]%elem_of_cons Hm; [congruence|by apply H1].
      * destruct H3 as [->|(j & Hj & Hm & ->)]; [by left|right]. exists j. split; [by constructor|done].
Qed.

Lemma leading_split hunk : Forall (fun l => is_ctx l = true) (take (leading_ctx hunk) hunk).
Proof. induction hunk as [|[t|t|t] hunk IH]; simpl; try constructor; done. Qed.

Lemma take_ctx k hunk : (k <= leading_ctx hunk)%nat -> Forall (fun l => is_ctx l = true) (take k hunk).
Proof.
  intros Hk. assert (Ht : take k hunk = take k (take (leading_ctx hunk) hunk)) by (rewrite take_take; f_equal; lia).
  rewrite Ht. apply Forall_take, leading_split.
Qed.

Lemma leading_edit pre l post : is_ctx l = false -> (leading_ctx (pre ++ l :: post) <= length pre)%nat.
Proof. intros Hl. induction pre as [|[t|t|t] pre IH]; simpl; try lia. by destruct l. Qed.

Lemma removal_edit hunk : has_removal hunk = true -> exists pre l post, hunk = pre ++ l :: post /\ is_ctx l = false.
Proof.
  intros (l & Hl & Hd)%existsb_exists. apply list_elem_of_In, list_elem_of_split in Hl as (pre & post & ->).
  exists pre, l, post. split; [done|]. by destruct l.
Qed.

(** Trimming at most the outer context keeps the edit. *)
Lemma candidate_trimmed hunk before after :
  (before <= leading_ctx hunk)%nat -> (after <= trailing_ctx hunk)%nat -> (before + after <= 2)%nat ->
  ((0 < before + after)%nat -> has_removal hunk = true) -> trimmed hunk (candidate_of hunk before after).
Proof.
  intros Hb Ha Hle Hr. unfold candidate_of.
  assert (Hlen : (before + after <= length hunk)%nat).
  { destruct (decide (before + after = 0)%nat) as [|Hne]; [lia|].
    destruct (removal_edit hunk (Hr ltac:(lia))) as (pre & l & post & -> & Hl).
    pose proof (leading_edit pre l post Hl). unfold trailing_ctx in Ha. destruct (forallb _ _); rewrite length_app; simpl; [lia|].
    rewrite rev_app_distr in Ha. simpl in Ha. rewrite <-app_assoc in Ha. pose proof (leading_edit (rev post) l (rev pre) Hl) as Hp.
    simpl in Ha. rewrite length_rev in Hp. lia. }
  exists (take before hunk), (drop (length hunk - after) hunk). split_and!.
  - rewrite <-(take_drop before hunk) at 1. f_equal.
    rewrite <-(take_drop (length hunk - after - before) (drop before hunk)) at 1. f_equal. rewrite drop_drop. f_equal. lia.
  - apply Forall_app. split; [by apply take_ctx|]. unfold trailing_ctx in Ha. destruct (forallb is_ctx hunk) eqn:E.
    + apply Forall_drop, Forall_forall. intros x Hx. rewrite forallb_forall in E. by apply E, list_elem_of_In.
    + rewrite <-(rev_involutive (drop _ hunk)), <-List.firstn_rev. by apply Forall_rev, take_ctx.
  - rewrite length_app, length_take, length_drop. lia.
  - intros Hne. apply Hr. destruct before, after; simpl in *; try lia. exfalso. apply Hne. simpl.
    rewrite Nat.sub_0_r, drop_all. done.
Qed.

(** What [_find_hunk] promises of a match. *)
Definition located (source : list TextLine) (hunk : list HunkLine) (start : nat) (m : nat * list HunkLine) : Prop :=
  (start <= fst m)%nat /\ (exists ignore, lines_match source (snd m) (fst m) ignore = true) /\ trimmed hunk (snd m).

Lemma positions_spec source candidate start i :
  i ∈ positions source candidate start <-> (start <= i)%nat /\ (i + length (old_lines candidate) <= length source)%nat.
Proof. unfold positions. rewrite list_elem_of_In, in_seq. lia. Qed.

Lemma trimmed_full hunk : trimmed hunk hunk.
Proof. exists [], []. split_and!; [by rewrite app_nil_r|constructor|simpl; lia|done]. Qed.

Lemma candidate_full hunk : candidate_of hunk 0 0 = hunk.
Proof. unfold candidate_of. rewrite drop_0, !Nat.sub_0_r. by rewrite firstn_all. Qed.

Lemma scan_trims_located source hunk start ignore trim path : (trim <= 2)%nat -> ((0 < trim)%nat -> has_removal hunk = true) ->
  forall befores found r,
  Forall (fun b => (b <= Nat.min (leading_ctx hunk) trim)%nat) befores ->
  (forall e m, found = Some (e, m) -> located source hunk start m) ->
  scan_trims source hunk start ignore trim path befores found = Ok r ->
  forall e m, r = Some (e, m) -> located source hunk start m.
Proof.
  intros Ht Hr. induction befores as [|b befores IH]; intros found r Hb Hf; cbn [scan_trims]; [intros [= <-]; done|].
  inversion Hb as [|? ? Hb1 Hb2]; subst. destruct (trailing_ctx hunk <? trim - b)%nat eqn:Et; [by apply IH|].
  apply Nat.ltb_ge in Et. intros (found' & Hs & Hgo)%res_bind_ok. apply (IH found' r Hb2); [|done].
  destruct (scan_indices_spec _ _ _ _ _ _ _ _ Hs) as (_ & _ & [->|(i & Hi & Hm & ->)]); [done|].
  intros e m [= <- <-]. apply positions_spec in Hi as [Hi _]. split; [done|]. split; [by exists ignore|].
  cbn [snd]. apply candidate_trimmed; [lia|done|lia|]. intros Hpos. apply Hr. lia.
Qed.

Lemma find_at_located source hunk start preferred path trim ignore m :
  (trim <= 2)%nat -> ((0 < trim)%nat -> has_removal hunk = true) ->
  find_at source hunk start preferred path trim ignore = Ok (Some m) -> located source hunk start m.
Proof.
  intros Ht Hr. unfold find_at. cbv zeta. destruct (match preferred with Some _ => _ | None => false end) eqn:Ef.
  - intros [= <-]. destruct preferred as [p|]; [|done]. bsimp. split; [simpl; lia|]. split; [by exists ignore|apply trimmed_full].
  - intros (found & Hs & [= Hm])%res_bind_ok. destruct found as [[e m']|]; [|done]. injection Hm as <-.
    refine (scan_trims_located source hunk start ignore trim path Ht Hr _ None _ _ _ Hs e m' eq_refl); [|done].
    apply Forall_forall. intros b Hb%list_elem_of_In%in_seq. lia.
Qed.

Lemma find_hunk_located source hunk start preferred path m :
  find_hunk source hunk start preferred path = Ok m -> located source hunk start m.
Proof.
  unfold find_hunk. set (rounds := flat_map _ _). intros Hf.
  assert (Hok : Forall (fun r : nat * bool => (fst r <= 2)%nat /\ ((0 < fst r)%nat -> has_removal hunk = true)) rounds).
  { unfold rounds. destruct (has_removal hunk); simpl; repeat constructor; simpl; done || lia. }
  clearbody rounds. revert Hf. induction rounds as [|[t ig] rounds IH]; cbn [find_rounds]; [done|].
  inversion Hok as [|? ? [Ht Hr] Hok']; subst. intros (r & Hr1 & Hm)%res_bind_ok. destruct r as [m'|]; [|by apply IH].
  injection Hm as <-. by eapply find_at_located.
Qed.

(** An unnumbered hunk found exactly somewhere is found only there. *)
Lemma find_hunk_exact source hunk start path m i :
  find_hunk source hunk start None path = Ok m ->
  (start <= i)%nat -> lines_match source hunk i false = true -> m = (i, hunk).
Proof.
  intros Hf Hi Hm. unfold find_hunk in Hf.
  assert (Hrounds : exists rest, flat_map (fun t => [(t, false); (t, true)])
    (if has_removal hunk then [0%nat; 1%nat; 2%nat] else [0%nat]) = (0%nat, false) :: rest) by (destruct (has_removal hunk); by eexists).
  destruct Hrounds as [rest Hrest]. rewrite Hrest in Hf. cbn [find_rounds] in Hf.
  apply res_bind_ok in Hf as (r & Hr & Hf). unfold find_at in Hr. cbv zeta iota in Hr.
  rewrite Nat.min_0_r in Hr. cbn [seq scan_trims] in Hr. change (0 - 0)%nat with 0%nat in Hr. cbn [Nat.ltb Nat.leb] in Hr.
  rewrite candidate_full, Nat.sub_0_r in Hr. apply res_bind_ok in Hr as (found & Hs & [= <-]).
  apply res_bind_ok in Hs as (found' & Hs & [= ->]).
  destruct (scan_indices_spec _ _ _ _ _ _ _ _ Hs) as (H1 & _ & H3).
  assert (Hpos : i ∈ positions source hunk start).
  { apply positions_spec. split; [done|]. unfold lines_match in Hm. apply andb_true_iff in Hm as [Hle Hm].
    apply Nat.leb_le in Hle. destruct (match_edit "" false _ _ Hm) as [Hl _]. rewrite length_drop in Hl. lia. }
  destruct (H1 i Hpos Hm) as [v ->]. destruct H3 as [|(j & _ & _ & Hj)]; [done|]. injection Hj as Hij ->.
  simpl in Hf. injection Hf as <-. f_equal. lia.
Qed.

(** ** Applying the hunks *)

Lemma read_hunk_spec location lines hunk :
  read_hunk location lines = Ok hunk -> Forall2 (fun line l => hunk_line line = Some l) lines hunk.
Proof.
  revert hunk. induction lines as [|line lines IH]; intros hunk; cbn [read_hunk]; [by intros [= <-]|].
  destruct (hunk_line line) as [l|] eqn:E; [|done]. intros (h & Hh & [= <-])%res_bind_ok. constructor; auto.
Qed.

Lemma edit_insertion nl source hunk : old_lines hunk = [] -> hunk_edit nl hunk [] (edit_lines nl source hunk).
Proof. induction hunk as [|[t|t|t] hunk IH]; try done; simpl; intros Hold; constructor; auto. Qed.

Lemma check_header_position location h hunk done source_index total i :
  check_header location h hunk done source_index total = Ok i -> old_lines hunk = [] ->
  (source_index <= i)%nat /\ (i <= total)%nat.
Proof.
  unfold check_header. intros Hc Hold. rewrite Hold in Hc. unfold zlen in Hc. simpl length in Hc. cbv zeta in Hc.
  destruct (negb _); [done|]. destruct (negb _); [done|]. rewrite Z.eqb_refl in Hc. destruct (negb _); [done|].
  destruct (negb _) eqn:E in Hc; [done|]. bsimp. injection Hc as <-. lia.
Qed.

Lemma apply_hunk_spec source nl location result si g r si' :
  apply_hunk source nl location result si g = Ok (r, si') -> (si <= length source)%nat ->
  exists full h kept old new, Forall2 (fun line l => hunk_line line = Some l) (snd g) full /\ trimmed full h /\
    hunk_edit nl h old new /\ r = result ++ kept ++ new /\ (si' <= length source)%nat /\
    drop si source = kept ++ old ++ drop si' source.
Proof.
  intros Ha Hsi. unfold apply_hunk in Ha. apply res_bind_ok in Ha as (header & Hh & Ha).
  apply res_bind_ok in Ha as (hunk & Hr & Ha). case_bool_decide as Hne; [done|].
  apply res_bind_ok in Ha as (ins & Hi & Ha). apply res_bind_ok in Ha as ([mi h] & Hf & Ha). injection Ha as <- <-.
  exists hunk, h, (take (mi - si) (drop si source)), (take (length (old_lines h)) (drop mi source)), (edit_lines nl (drop mi source) h).
  split; [by eapply read_hunk_spec|].
  assert (Hm : (si <= mi)%nat /\ (mi + length (old_lines h) <= length source)%nat /\ trimmed hunk h /\
    hunk_edit nl h (take (length (old_lines h)) (drop mi source)) (edit_lines nl (drop mi source) h)).
  { case_bool_decide as Hold.
    - injection Hf as <- <-. rewrite Hold. simpl. destruct header as [hd|]; [|done].
      destruct (check_header_position _ _ _ _ _ _ _ Hi Hold). rewrite Nat.add_0_r.
      split_and!; [done|done|apply trimmed_full|by apply edit_insertion].
    - apply find_hunk_located in Hf as (Hle & (ig & Hlm) & Htr). cbn [fst snd] in *.
      apply andb_true_iff in Hlm as [Hl Hlm]. apply Nat.leb_le in Hl. destruct (match_edit nl _ _ _ Hlm) as [Hlen He].
      rewrite length_drop in Hlen. split_and!; [done|lia|done|done]. }
  destruct Hm as (H1 & H2 & H3 & H4). split_and!; try done.
  rewrite <-(take_drop (mi - si) (drop si source)) at 1. f_equal. rewrite drop_drop.
  replace (si + (mi - si))%nat with mi by lia. by rewrite <-(take_drop (length (old_lines h)) (drop mi source)) at 1; rewrite drop_drop.
Qed.

Lemma apply_groups_spec source nl path gs : forall n result si r si',
  apply_groups source nl path n result si gs = Ok (r, si') -> (si <= length source)%nat ->
  exists fulls hs new, Forall2 (fun g full => Forall2 (fun line l => hunk_line line = Some l) (snd g) full) gs fulls /\
    Forall2 trimmed fulls hs /\ r = result ++ new /\ patched nl hs (drop si source) (new ++ drop si' source).
Proof.
  induction gs as [|g gs IH]; intros n result si r si'; cbn [apply_groups].
  - intros [= <- <-] Hsi. exists [], [], []. split_and!; try constructor. by rewrite app_nil_r.
  - intros ([r1 si1] & Hg & Hgo)%res_bind_ok Hsi. cbn [fst snd] in Hgo.
    destruct (apply_hunk_spec _ _ _ _ _ _ _ _ Hg Hsi) as (full & h & kept & old & new & Hl & Ht & He & -> & Hsi1 & Hd).
    destruct (IH _ _ _ _ _ Hgo Hsi1) as (fulls & hs & new' & Hfs & Hts & -> & Hp).
    exists (full :: fulls), (h :: hs), (kept ++ new ++ new'). split_and!; [by constructor|by constructor|by rewrite !app_assoc|].
    rewrite Hd, <-!app_assoc. by constructor.
Qed.

(** C30: applying a patch does what its hunks say and nothing else.  When
    [_apply_hunks] returns, the lines of the file split into stretches that are
    kept unchanged and, in the order of the hunks, stretches each hunk matches:
    its context lines (equal up to trailing blanks) are kept with their text and
    their own ending, its removed lines are equal to the lines dropped and its
    added lines appear with the preferred line ending of the file; a hunk is taken
    whole, or without up to two outer context lines if it removes something.  The
    result is joined with the final newline the file had. *)
Theorem patch_edits_exactly (original : string) (body : list string) (path text : string) :
  apply_hunks original body path = Ok text ->
  let source := split_text_lines original in
  exists fulls hs result,
    Forall2 (fun g full => Forall2 (fun line l => hunk_line line = Some l) (snd g) full) (groups body) fulls /\
    Forall2 trimmed fulls hs /\ patched (preferred_newline source) hs source result /\
    text = join_lines (preferred_newline source) (ends_with_newline source) result.
Proof.
  intros ([r si] & Hg & [= <-])%res_bind_ok. cbv zeta.
  destruct (apply_groups_spec _ _ _ _ _ _ _ _ _ Hg ltac:(lia)) as (fulls & hs & new & Hf & Ht & -> & Hp).
  exists fulls, hs, (new ++ drop si (split_text_lines original)). by split_and!.
Qed.

Definition greeting : string := "hello" +:+ CRLF +:+ "old" +:+ CRLF +:+ "bye".
Definition greeting_hunks : list string := ["@@"; " hello"; "-old"; "+new"].

Lemma patch_edits_exactly_witness :
  apply_hunks greeting greeting_hunks "a.txt" = Ok ("hello" +:+ CRLF +:+ "new" +:+ CRLF +:+ "bye") /\
  exists fulls hs result,
    Forall2 (fun g full => Forall2 (fun line l => hunk_line line = Some l) (snd g) full) (groups greeting_hunks) fulls /\
    Forall2 trimmed fulls hs /\ patched CRLF hs (split_text_lines greeting) result.
Proof.
  split; [reflexivity|].
  destruct (patch_edits_exactly greeting greeting_hunks "a.txt" _ eq_refl) as (fulls & hs & result & H1 & H2 & H3 & _).
  exists fulls, hs, result. split; [exact H1|]. split; [exact H2|exact H3].
Defined.

(** An unnumbered hunk is applied only where it is unambiguous.  If it occurs
    exactly in the rest of the file, [_find_hunk] returns that occurrence with the
    whole hunk or raises; if it occurs exactly at two places, it raises. *)
Theorem unnumbered_hunk_unique (source : list TextLine) (hunk : list HunkLine) (start : nat) (path : string) (i : nat) :
  (start <= i)%nat -> lines_match source hunk i false = true ->
  (forall m, find_hunk source hunk start None path = Ok m -> m = (i, hunk)) /\
  (forall j, (start <= j)%nat -> j <> i -> lines_match source hunk j false = true ->
     exists e, find_hunk source hunk start None path = Err e).
Proof.
  intros Hi Hm. split; [intros m Hf; by eapply find_hunk_exact|]. intros j Hj Hne Hmj.
  destruct (find_hunk source hunk start None path) as [m|e] eqn:E; [|eauto].
  pose proof (find_hunk_exact _ _ _ _ _ _ E Hi Hm) as ->. pose proof (find_hunk_exact _ _ _ _ _ _ E Hj Hmj) as [= ->]. done.
Qed.

Definition twice : list TextLine := [MkLine "x" NL; MkLine "y" NL; MkLine "x" NL].

Lemma unnumbered_hunk_unique_witness : exists e, find_hunk twice [Del "x"] 0 None "a.txt" = Err e.
Proof.
  refine (proj2 (unnumbered_hunk_unique twice [Del "x"] 0 "a.txt" 0 _ _) 2%nat _ _ _); [lia|reflexivity|lia|lia|reflexivity].
Defined.

(** ** A patch without changes *)

Lemma context_edit nl h old new : hunk_edit nl h old new -> Forall (fun l => is_ctx l = true) h -> new = old.
Proof. induction 1; intros Hc; inversion Hc; subst; try done. f_equal. auto. Qed.

Lemma context_patched nl hs source result :
  patched nl hs source result -> Forall (Forall (fun l => is_ctx l = true)) hs -> result = source.
Proof.
  induction 1 as [|h hs kept old new rest rest' He Hp IH]; intros Hc; [done|]. inversion Hc as [|? ? H1 H2]; subst.
  rewrite (context_edit _ _ _ _ He H1), IH by done. done.
Qed.

(** A patch whose hunks hold context lines only gives back the file, byte by
    byte, with its own mixture of line endings and with or without a final
    newline. *)
Theorem context_only_identity (original : string) (body : list string) (path text : string) :
  apply_hunks original body path = Ok text ->
  Forall (fun g => Forall (fun line => startswith " " line = true) (snd g)) (groups body) -> text = original.
Proof.
  intros ([r si] & Hg & [= <-])%res_bind_ok Hctx.
  destruct (apply_groups_spec _ _ _ _ _ _ _ _ _ Hg ltac:(lia)) as (fulls & hs & new & Hf & Ht & -> & Hp).
  assert (Hall : Forall (Forall (fun l => is_ctx l = true)) hs).
  { clear Hg Hp. revert hs Ht. induction Hf as [|g full gs fulls Hl _ IH]; intros hs Ht; inversion Ht as [|? h ? hs' Htr Hts]; subst;
      constructor; inversion Hctx as [|? ? Hc Hcs]; subst; [|by apply IH].
    destruct Htr as (pre & post & -> & _). assert (Hfull : Forall (fun l => is_ctx l = true) (pre ++ h ++ post)).
    { clear -Hl Hc. induction Hl as [|line l lines ls E _ IH]; [constructor|]. inversion Hc as [|? ? Hs Hcs]; subst.
      constructor; [|by apply IH]. destruct line as [|c line]; [done|]. cbn [startswith] in Hs.
      apply andb_true_iff in Hs as [Hs _]. apply Ascii.eqb_eq in Hs. subst c. by injection E as <-. }
    apply Forall_app in Hfull as [_ Hfull]. by apply Forall_app in Hfull as [? _]. }
  rewrite app_nil_l. rewrite (context_patched _ _ _ _ Hp Hall). cbn [drop].
  destruct (split_go_spec original "") as [Hs He]. by rewrite (join_ended _ _ He).
Qed.

Lemma context_only_identity_witness :
  apply_hunks greeting ["@@"; " hello "; " old"] "a.txt" = Ok greeting /\ greeting = greeting.
Proof.
  split; [reflexivity|].
  exact (context_only_identity greeting ["@@"; " hello "; " old"] "a.txt" greeting eq_refl ltac:(by repeat constructor)).
Defined.

(** ** The files of a patch *)

Section files.
Context `{Paths}.

(** A change fits the disk it was prepared for: an added file does not exist yet,
    the others do, and exactly a deletion has no content. *)
Definition fits (d : Disk) (p : string) (c : FileChange) : Prop :=
  fc_path c = display_path p /\ within p = true /\
  match fc_operation c with
  | Added => path_exists d p = false /\ is_Some (fc_content c)
  | Updated => is_Some (dget p d) /\ is_Some (fc_content c)
  | Deleted => is_Some (dget p d) /\ fc_content c = None
  end.

Lemma resolve_within raw p : resolve_path raw = Ok p -> within p = true.
Proof. unfold resolve_path. destruct (is_absolute raw); [done|]. destruct (within (resolved raw)) eqn:E; [|done]. by intros [= <-]. Qed.

Lemma prepare_section_fits d seen s p c : prepare_section d seen s = Ok (p, c) -> p ∉ seen /\ fits d p c.
Proof.
  unfold prepare_section. intros ([op raw] & _ & (fp & Hp & Hs)%res_bind_ok)%res_bind_ok. apply resolve_within in Hp. cbv zeta in Hs.
  destruct (name_in fp seen) eqn:En; [done|]. apply name_in_false in En.
  assert (Hdone : forall c', Ok (fp, c') = Ok (p, c) -> fits d fp c' -> p ∉ seen /\ fits d p c) by (by intros c' [= <- <-]).
  destruct op.
  - destruct (path_exists d fp) eqn:Ee; [done|]. apply res_bind_ok in Hs as (? & _ & Hs). destruct (negb _); [done|].
    by apply (Hdone _ Hs).
  - destruct (dget fp d) as [content|] eqn:Ed; [|done]. destruct content as [original|]; [|done].
    destruct (drop_blank_tail (snd s)) as [|h body]; [done|]. destruct (startswith "@@" h); [|done].
    apply res_bind_ok in Hs as (text & _ & Hs). apply (Hdone _ Hs). split_and!; [done|done|]. cbn [fc_operation fc_content].
    by rewrite Ed.
  - destruct (dget fp d) as [content|] eqn:Ed; [|done]. destruct (drop_blank_tail (snd s)); [|done].
    apply (Hdone _ Hs). split_and!; [done|done|]. cbn [fc_operation fc_content]. by rewrite Ed.
Qed.

Lemma prepare_sections_fits d sections : forall seen r,
  prepare_sections d seen sections = Ok r -> NoDup seen ->
  exists l, fst r = seen ++ map fst l /\ snd r = map snd l /\ NoDup (seen ++ map fst l) /\ Forall (fun pc => fits d pc.1 pc.2) l.
Proof.
  induction sections as [|s sections IH]; intros seen r; cbn [prepare_sections].
  - intros [= <-] Hn. exists []. simpl. by rewrite app_nil_r.
  - intros ([p c] & Hc & (r' & Hr & [= <-])%res_bind_ok)%res_bind_ok Hn. cbn [fst snd] in *.
    apply prepare_section_fits in Hc as [Hnot Hfit].
    assert (Hn' : NoDup (seen ++ [p])) by (apply NoDup_app; split_and!; [done|set_solver|by apply NoDup_singleton]).
    destruct (IH _ _ Hr Hn') as (l & -> & -> & Hnd & Hf). exists ((p, c) :: l). simpl. rewrite <-app_assoc in *.
    split_and!; [done|done|done|by constructor].
Qed.

Lemma prepare_changes_fits d patch changes :
  prepare_changes d patch = Ok changes ->
  exists l, changes = map snd l /\ NoDup (map fst l) /\ Forall (fun pc => fits d pc.1 pc.2) l.
Proof.
  unfold prepare_changes. intros Hp.
  destruct (split_patch_lines patch) as [|first rest]; [done|].
  destruct (bool_decide (first = "*** Begin Patch")) eqn:E; bsimp; [subst first|by repeat (case_match; try done)].
  destruct (last rest) as [final|]; [|done].
  destruct (bool_decide (final = "*** End Patch")) eqn:E; bsimp; [subst final|by repeat (case_match; try done)].
  apply res_bind_ok in Hp as (r & Hr & Hp). destruct (prepare_sections_fits _ _ _ _ Hr (NoDup_nil_2)) as (l & _ & Hs & Hn & Hf).
  exists l. split_and!; [|done|done]. rewrite <-Hs. destruct (snd r); [done|]. by destruct (List.filter _ _); [injection Hp as <-|].
Qed.

(** What writing one change does to the disk. *)
Definition change_disk (d : Disk) (pc : string * FileChange) : Disk :=
  match fc_operation pc.2 with Deleted => dpop pc.1 d | _ => dset pc.1 (fc_content pc.2) d end.

(** The file a change leaves behind. *)
Definition left_behind (c : FileChange) : option (option string) :=
  match fc_operation c with Deleted => None | _ => Some (fc_content c) end.

Lemma change_disk_NoDup d pc : NoDup (dkeys d) -> NoDup (dkeys (change_disk d pc)).
Proof. unfold change_disk. destruct (fc_operation _); auto using dset_NoDup, dpop_NoDup. Qed.

Lemma change_disk_eq d pc : NoDup (dkeys d) -> dget pc.1 (change_disk d pc) = left_behind pc.2.
Proof. intros Hn. unfold change_disk, left_behind. destruct (fc_operation _); auto using dget_dset_eq, dget_dpop_eq. Qed.

Lemma change_disk_ne d pc q : pc.1 <> q -> dget q (change_disk d pc) = dget q d.
Proof. intros Hn. unfold change_disk. destruct (fc_operation _); auto using dget_dset_ne, dget_dpop_ne. Qed.

Lemma changes_outside l : forall d q, q ∉ map fst l -> dget q (foldl change_disk d l) = dget q d.
Proof.
  induction l as [|pc l IH]; intros d q Hq; [done|]. cbn [map] in Hq. apply not_elem_of_cons in Hq as [Hne Hq]. simpl.
  rewrite IH by done. by apply change_disk_ne.
Qed.

Lemma changes_inside l : forall d, NoDup (dkeys d) -> NoDup (map fst l) ->
  Forall (fun pc => dget pc.1 (foldl change_disk d l) = left_behind pc.2) l.
Proof.
  induction l as [|pc l IH]; intros d Hd Hl; [constructor|]. cbn [map] in Hl. apply NoDup_cons in Hl as [Hnot Hl]. simpl.
  constructor; [|by apply IH; [apply change_disk_NoDup|]]. rewrite changes_outside by done. by apply change_disk_eq.
Qed.

Section commit.
Variable io_result : nat -> option exn.
Hypothesis io_os_error : forall n e, io_result n = Some e -> commit_error e = true.
Hypothesis resolve_display : forall p, within p = true -> resolve_path (display_path p) = Ok p.

Lemma commit_change_fits d0 p c s :
  fits d0 p c ->
  commit_change io_result c s =
  disk_io io_result (fun d => change_disk d (p, c)) s.
Proof.
  intros (Hp & Hw & Hop). unfold commit_change, change_disk. rewrite Hp. unfold bind, lift. rewrite (resolve_display _ Hw). cbn [fst snd].
  by destruct (fc_operation c); [destruct Hop as [_ [x ->]]|destruct Hop as [_ [x ->]]|].
Qed.

Lemma commit_changes_spec d0 l : forall done s s' r,
  Forall (fun pc => fits d0 pc.1 pc.2) l -> commit_changes io_result (map snd done) (map snd l) s = (s', r) ->
  exists written rest, l = written ++ rest /\ ps_disk s' = foldl change_disk (ps_disk s) written /\
    match rest with
    | [] => r = Ok (PlainOutput (JObj [("files", JArr (map file_json (map snd (done ++ written))))]))
    | (_, c) :: pending => exists n e, io_result n = Some e /\
        r = Ok (ToolFailed (patch_failure (map snd (done ++ written)) c (map snd pending) e))
    end.
Proof.
  induction l as [|[p c] l IH]; intros done s s' r Hf; cbn [map commit_changes].
  - intros [= <- <-]. exists [], []. by rewrite !app_nil_r.
  - inversion Hf as [|? ? Hc Hl]; subst. unfold bind. rewrite (commit_change_fits _ _ _ _ Hc). unfold disk_io.
    destruct (io_result (ps_io s)) as [e|] eqn:Eio; cbn [snd].
    + rewrite (io_os_error _ _ Eio). intros [= <- <-]. exists [], ((p, c) :: l). rewrite app_nil_r. eauto 10.
    + intros Hr. specialize (IH (done ++ [(p, c)])). rewrite map_app in IH. destruct (IH _ _ _ Hl Hr) as (written & rest & -> & Hd & Hrest).
      exists ((p, c) :: written), rest. rewrite <-app_assoc in Hrest. done.
Qed.

(** C31: a patch is written as a whole or reports what it has written.  If
    [execute] raises anything but its own failure, the files are untouched.
    Otherwise there is a list of changes to different files, prepared on the disk
    as it was; a part of it from the front has been written, every other file is
    as it was, and the answer lists the changes if that is all of them, and else
    the written ones as completed, the one the operating system refused as failed
    and the others as pending. *)
Theorem patch_all_or_reported (cancelled : bool) (arguments : list (string * json)) (s s' : PatchState) (r : res ToolOutcome) :
  NoDup (dkeys (ps_disk s)) -> execute_patch io_result cancelled arguments s = (s', r) ->
  match r with
  | Err _ => s' = s
  | Ok outcome =>
      exists patch l written rest,
        arguments = [("patch", JStr patch)] /\ prepare_changes (ps_disk s) patch = Ok (map snd l) /\
        NoDup (map fst l) /\ Forall (fun pc => fits (ps_disk s) pc.1 pc.2) l /\ l = written ++ rest /\
        Forall (fun pc => dget pc.1 (ps_disk s') = left_behind pc.2) written /\
        (forall q, q ∉ map fst written -> dget q (ps_disk s') = dget q (ps_disk s)) /\
        match rest with
        | [] => outcome = PlainOutput (JObj [("files", JArr (map file_json (map snd l)))])
        | (_, c) :: pending => exists n e, io_result n = Some e /\
            outcome = ToolFailed (patch_failure (map snd written) c (map snd pending) e)
        end
  end.
Proof.
  intros Hn. unfold execute_patch.
  destruct arguments as [|[k v] [|]]; [by intros [= <- <-]| |by repeat (case_match; try by intros [= <- <-])].
  destruct (String.eqb_spec k "patch") as [->|Hk]; [|by repeat (case_match; try by intros [= <- <-])].
  destruct v as [| | | |patch| |]; try (by intros [= <- <-]).
  destruct (negb _); [by intros [= <- <-]|]. unfold bind, get, lift.
  destruct (prepare_changes (ps_disk s) patch) as [changes|e] eqn:Ep; [|by intros [= <- <-]].
  destruct cancelled; [by intros [= <- <-]|]. destruct (prepare_changes_fits _ _ _ Ep) as (l & -> & Hl & Hf).
  intros Hc. destruct (commit_changes_spec _ l [] _ _ _ Hf Hc) as (written & rest & El & Hd & Hrest).
  assert (Hw : NoDup (map fst written)) by (rewrite El, map_app in Hl; by apply NoDup_app in Hl as (? & _)).
  assert (Hr : exists outcome, r = Ok outcome) by (destruct rest as [|[? ?] ?]; [eauto|destruct Hrest as (? & ? & _ & ->); eauto]).
  destruct Hr as [outcome ->]. exists patch, l, written, rest. split_and!; try done.
  - rewrite Hd. by apply changes_inside.
  - rewrite Hd. apply changes_outside.
  - destruct rest as [|[? ?] ?]; [|by destruct Hrest as (n & e & ? & [= ->]); eauto]. injection Hrest as ->.
    by rewrite El, app_nil_r.
Qed.
End commit.
End files.

(** A flat workspace, and a disk that refuses the second operation. *)
Definition flat_paths : Paths := {|
  workspace_path := "/w";
  is_absolute := startswith "/";
  resolved raw := "/w/" +:+ raw;
  within p := startswith "/w/" p && negb (startswith "/" (sdrop 3 p));
  display_path := sdrop 3;
  parents_of _ := ["/w"];
  is_directory := String.eqb "/w";
|}.

Definition second_refused (n : nat) : option exn :=
  match n with 1%nat => Some (Exn EOSError "No space left on device") | _ => None end.

Definition two_files : list (string * json) :=
  [("patch", JStr ("*** Begin Patch" +:+ NL +:+ "*** Add File: a" +:+ NL +:+ "+x" +:+ NL +:+ "*** Delete File: b" +:+ NL +:+ "*** End Patch"))].

Definition disk_before : PatchState := MkPatchState [("/w/b", Some "y")] 0.

Lemma flat_resolve_display p : @within flat_paths p = true -> @resolve_path flat_paths (@display_path flat_paths p) = Ok p.
Proof.
  cbn [within display_path flat_paths]. intros [Hs Ha]%andb_true_iff. apply negb_true_iff in Ha.
  destruct p as [|c1 [|c2 [|c3 p]]]; cbn [startswith] in Hs; rewrite ?andb_false_r in Hs; try discriminate.
  rewrite !andb_true_iff in Hs. destruct Hs as (<-%Ascii.eqb_eq & <-%Ascii.eqb_eq & <-%Ascii.eqb_eq & _).
  unfold resolve_path. cbn [is_absolute within resolved flat_paths sdrop] in *. rewrite Ha.
  change ("/w/" +:+ p) with (String "/" (String "w" (String "/" p))). cbn -[String.append]. cbn. cbn in Ha. by rewrite Ha.
Qed.

Lemma patch_all_or_reported_witness :
  exists s' outcome,
    @execute_patch flat_paths second_refused false two_files disk_before = (s', Ok outcome) /\
    ps_disk s' = [("/w/b", Some "y"); ("/w/a", Some ("x" +:+ NL))] /\
    exists (l written rest : list (string * FileChange)), l = written ++ rest /\
      Forall (fun pc => dget pc.1 (ps_disk s') = left_behind pc.2) written.
Proof.
  assert (Hrun : exists s' outcome, @execute_patch flat_paths second_refused false two_files disk_before = (s', Ok outcome) /\
    ps_disk s' = [("/w/b", Some "y"); ("/w/a", Some ("x" +:+ NL))]) by (eexists _, _; vm_compute; split; reflexivity).
  destruct Hrun as (s' & outcome & Hrun & Hdisk). exists s', outcome. split; [exact Hrun|]. split; [exact Hdisk|].
  assert (Hio : forall n e, second_refused n = Some e -> commit_error e = true) by (by intros [|[|n]] e [= <-]).
  destruct (@patch_all_or_reported flat_paths second_refused Hio flat_resolve_display false two_files disk_before
    s' (Ok outcome) ltac:(apply NoDup_singleton) Hrun) as (patch & l & written & rest & _ & _ & _ & _ & Hl & Hw & _).
  exists l, written, rest. by split.
Defined.
