(* ===== verification/TextView.v ===== *)
(** * Bounded text views

    agent_core/tools/budget.py and agent_core/tools/text.py: the pages read_file
    shows of a file and the reading view in which long results are stored.  These
    texts hold characters of every script, so a text is here the list of its code
    points.  An open text file is what is left to read of it: [tell] and [seek] go
    back to a remaining text, and the translation of line ends at reading
    ([newline=None]) is [translate]. *)

From stdpp Require Import base list strings pretty.
From Stdlib Require Import ZArith Lia Ascii.
From S2P Require Import Prelude PyData PyStr Json PyText.

Definition text := list Z.

Definition tlen (t : text) : Z := Z.of_nat (length t).

Fixpoint txt (s : string) : text := match s with "" => [] | String c s' => scode c :: txt s' end.

Definition LINEFEED : Z := 10.
Definition RETURN : Z := 13.
Definition EM_DASH : Z := 8212.

Definition decimal_text (z : Z) : text := txt (pretty z).

(** ** budget.py *)

Definition MAX_TOOL_RESULT_CHARS : Z := 32 * 1024.

(** What a character takes inside a JSON string with [ensure_ascii=False]. *)
Definition escaped_char (c : Z) : Z :=
  if (c =? 34) || (c =? 92) || (c =? 8) || (c =? 9) || (c =? 10) || (c =? 12) || (c =? 13) then 2
  else if c <? 32 then 6
  else 1.

Definition escaped_length (t : text) : Z := fold_right (fun c n => escaped_char c + n) 0 t.

Section budget.
Context `{FloatText}.

Definition envelope_chars (output : json) : Z := slen (dumps (JObj [("ok", JBool true); ("output", output)])).

Definition output_fits (output : json) : bool := envelope_chars output <=? MAX_TOOL_RESULT_CHARS.

(** [envelope_chars] of an output whose last field is the text [content]. *)
Definition envelope_with (fields : list (string * json)) (content : text) : Z :=
  envelope_chars (JObj (fields ++ [("content", JStr "")])) + escaped_length content.
End budget.

(** ** Text files *)

(** The universal newline translation of [open(newline=None)]. *)
Fixpoint translate (t : text) : text :=
  match t with
  | [] => []
  | c :: t' =>
      if c =? RETURN
      then LINEFEED :: match t' with
                       | d :: t'' => if d =? LINEFEED then translate t'' else translate t'
                       | [] => []
                       end
      else c :: translate t'
  end.

(** [file.readline(n)]: the line and the rest; without a limit when [size] is negative. *)
Fixpoint take_line (n : nat) (file : text) : text * text :=
  match n, file with
  | O, _ => ([], file)
  | _, [] => ([], [])
  | S n', c :: file' => if c =? LINEFEED then ([c], file')
                        else let '(line, rest) := take_line n' file' in (c :: line, rest)
  end.
Definition readline (size : Z) (file : text) : text * text :=
  take_line (if size <? 0 then length file else Z.to_nat size) file.

Definition ends_line (t : text) : bool := match last t with Some c => c =? LINEFEED | None => false end.

(** ** text.py *)

Definition DEFAULT_READ_LIMIT : Z := 2000.
Definition MAX_FILE_SIZE_BYTES : Z := 50 * 1024 * 1024.
Definition MAX_ARTIFACT_LINE_CHARS : Z := MAX_TOOL_RESULT_CHARS / 8.
Definition STATUS_RESERVE_CHARS : Z := 256.
Definition DISCARD_CHUNK_CHARS : Z := 8192.
(** A space, an ellipsis and a remark in Chinese that the line is cut, in full-width brackets. *)
Definition TRUNCATED_LINE_NOTICE : text := [32; 8230; 65288; 35813; 34892; 34987; 25130; 26029; 65289].

(** [write_text_artifact]: what it writes; [fuel] above the length of what is left. *)
Fixpoint artifact_loop (fuel : nat) (chunk source : text) : text :=
  match fuel with
  | O => []
  | S fuel' =>
      match chunk with
      | [] => []
      | _ =>
          if (MAX_ARTIFACT_LINE_CHARS <? tlen chunk) && negb (ends_line chunk)
          then let '(more, source') := readline MAX_ARTIFACT_LINE_CHARS source in
               (take (Z.to_nat MAX_ARTIFACT_LINE_CHARS) chunk ++ [LINEFEED])
               ++ artifact_loop fuel' (drop (Z.to_nat MAX_ARTIFACT_LINE_CHARS) chunk ++ more) source'
          else let '(next, source') := readline (MAX_ARTIFACT_LINE_CHARS + 1) source in
               chunk ++ artifact_loop fuel' next source'
      end
  end.

Definition artifact_text (source : text) : text :=
  let '(chunk, source') := readline (MAX_ARTIFACT_LINE_CHARS + 1) source in
  artifact_loop (S (length source)) chunk source'.

(** The file and the returned size. *)
Definition write_text_artifact (source : text) : text * Z :=
  let written := artifact_text source in (written, tlen written).

(** The end of [_read_line_bounded]: the rest of an overlong line is dropped. *)
Fixpoint discard_line (fuel : nat) (file : text) : bool * text :=
  match fuel with
  | O => (true, file)
  | S fuel' =>
      let '(remainder, rest) := readline DISCARD_CHUNK_CHARS file in
      match remainder with
      | [] => (true, rest)
      | _ => if ends_line remainder then (false, rest) else discard_line fuel' rest
      end
  end.

(** [_read_line_bounded]: line, cut, end of file after it; and the rest of the file. *)
Definition read_line_bounded (file : text) (max_chars : Z) : option text * bool * bool * text :=
  let '(chunk, rest) := readline (max_chars + 1) file in
  match chunk with
  | [] => (None, false, true, rest)
  | _ =>
      if ends_line chunk then (Some (take (length chunk - 1) chunk), false, false, rest)
      else if tlen chunk <=? max_chars then (Some chunk, false, true, rest)
      else let '(eof, rest') := discard_line (S (length rest)) rest in
           (Some (take (Z.to_nat max_chars) chunk), true, eof, rest')
  end.

(** [_skip_lines]; [fuel] above the length of the file. *)
Fixpoint skip_lines_go (fuel : nat) (skipped count : Z) (file : text) : Z * text :=
  match fuel with
  | O => (skipped, file)
  | S fuel' =>
      if skipped <? count
      then match read_line_bounded file 0 with
           | (None, _, _, rest) => (skipped, rest)
           | (Some _, _, _, rest) => skip_lines_go fuel' (skipped + 1) count rest
           end
      else (skipped, file)
  end.
Definition skip_lines (file : text) (count : Z) : Z * text := skip_lines_go (S (length file)) 0 count file.

(** [_trim_to_escaped] *)
Fixpoint trim_to_escaped_go (used : Z) (line : text) (budget : Z) : text :=
  match line with
  | [] => []
  | c :: line' => if budget <? used + escaped_char c then []
                  else c :: trim_to_escaped_go (used + escaped_char c) line' budget
  end.
Definition trim_to_escaped (line : text) (budget : Z) : text := trim_to_escaped_go 0 line budget.

(** The variables of [read_text_range] after its loop. *)
Record Page := MkPage {
  pg_rendered_lines : list text;
  pg_line_number : Z;
  pg_eof : bool;
  pg_character_limit_reached : bool;
  pg_next_offset : option Z;
  pg_file : text;
}.

Definition line_prefix (line_number : Z) : text := decimal_text line_number ++ [124; 32].
Definition notice_chars : Z := escaped_length TRUNCATED_LINE_NOTICE.

(** [while len(rendered_lines) < limit:] of [read_text_range]. *)
Fixpoint page_loop (fuel : nat) (limit budget : Z) (rendered_lines : list text)
    (body_chars line_number : Z) (file : text) : Page :=
  match fuel with
  | O => MkPage rendered_lines line_number false false None file
  | S fuel' =>
      if Z.of_nat (length rendered_lines) <? limit then
        let prefix := line_prefix line_number in
        let separator_chars := match rendered_lines with [] => 0 | _ => 2 end in
        let available_chars := budget - body_chars - separator_chars - tlen prefix in
        if available_chars <? notice_chars
        then MkPage rendered_lines line_number false true (Some line_number) file
        else
          match read_line_bounded file (budget - tlen prefix) with
          | (None, _, _, rest) => MkPage rendered_lines line_number true false None rest
          | (Some line, line_truncated, eof_after_line, rest) =>
              let too_long := line_truncated || (available_chars <? escaped_length line) in
              if too_long && match rendered_lines with [] => false | _ => true end
              then MkPage rendered_lines line_number false true (Some line_number) file
              else
                let shown := if too_long
                             then trim_to_escaped line (available_chars - notice_chars) ++ TRUNCATED_LINE_NOTICE
                             else line in
                let rendered_lines' := rendered_lines ++ [prefix ++ shown] in
                let body_chars' := body_chars + separator_chars + tlen prefix + escaped_length shown in
                if eof_after_line then MkPage rendered_lines' (line_number + 1) true too_long None rest
                else if too_long then MkPage rendered_lines' (line_number + 1) false true (Some (line_number + 1)) rest
                else page_loop fuel' limit budget rendered_lines' body_chars' (line_number + 1) rest
          end
      else MkPage rendered_lines line_number false false None file
  end.

(** The loop and the look ahead behind it. *)
Definition read_page (file : text) (offset limit budget : Z) : Page :=
  let p := page_loop (S (length file)) limit budget [] 0 offset file in
  match pg_eof p, pg_next_offset p with
  | false, None =>
      match read_line_bounded (pg_file p) 0 with
      | (None, _, _, rest) =>
          MkPage (pg_rendered_lines p) (pg_line_number p) true (pg_character_limit_reached p) None rest
      | (Some _, _, _, rest) =>
          MkPage (pg_rendered_lines p) (pg_line_number p) false (pg_character_limit_reached p) (Some (pg_line_number p)) rest
      end
  | _, _ => p
  end.

Definition END_OF_FILE : text := txt "End of file " ++ [EM_DASH; 32].

(** [_status] *)
Definition status (offset end_line : Z) (eof : bool) (next_offset : option Z) (character_limit_reached : bool) : text :=
  let limit_note := if character_limit_reached then txt ". character limit reached" else [] in
  if eof
  then txt "(" ++ END_OF_FILE ++ decimal_text end_line ++ txt " lines total" ++ limit_note ++ txt ")"
  else
    txt "("
    ++ (if end_line <? offset then txt "No complete lines shown"
        else if offset =? end_line then txt "Showing line " ++ decimal_text end_line
        else txt "Showing lines " ++ decimal_text offset ++ txt "-" ++ decimal_text end_line)
    ++ limit_note
    ++ match next_offset with
       | Some n => txt ". Use offset=" ++ decimal_text n ++ txt " to continue"
       | None => []
       end
    ++ txt ".)".

(** ["\n".join] *)
Fixpoint join_lines (l : list text) : text :=
  match l with
  | [] => []
  | [x] => x
  | x :: l' => x ++ LINEFEED :: join_lines l'
  end.

(** [_join_content] *)
Definition join_content (rendered_lines : list text) (status : text) : text :=
  match rendered_lines with
  | [] => status
  | _ => join_lines rendered_lines ++ [LINEFEED; LINEFEED] ++ status
  end.

Definition page_status (offset : Z) (p : Page) : text :=
  status offset (pg_line_number p - 1) (pg_eof p) (pg_next_offset p) (pg_character_limit_reached p).

Definition read_text_range (file : text) (offset limit budget : Z) : text :=
  let '(skipped_lines, rest) := skip_lines file (offset - 1) in
  if skipped_lines <? offset - 1
  then txt "(" ++ END_OF_FILE ++ decimal_text skipped_lines ++ txt " lines total)"
  else let p := read_page rest offset limit budget in
       join_content (pg_rendered_lines p) (page_status offset p).

Section read_text_file.
Context `{FloatText}.

(** [read_text_file]: [size] is the size of the file in bytes, [decoded] its text,
    or nothing when reading it raises UnicodeDecodeError.  The output is its fields
    and the content. *)
Definition read_text_file (metadata : list (string * json)) (offset limit : Z) (tool_name : string)
    (size : Z) (decoded : option text) : res (list (string * json) * text) :=
  if MAX_FILE_SIZE_BYTES <? size
  then value_error (tool_name +:+ " refused file because its size is " +:+ pretty size
                     +:+ " bytes, exceeding the maximum of " +:+ pretty MAX_FILE_SIZE_BYTES +:+ " bytes")
  else
    let fields := dset "file_size_bytes" (JInt size) metadata in
    let budget := MAX_TOOL_RESULT_CHARS - envelope_with fields [] - STATUS_RESERVE_CHARS in
    match decoded with
    | None => value_error (tool_name +:+ " requires a UTF-8 text file")
    | Some file => Ok (fields, read_text_range (translate file) offset limit budget)
    end.
End read_text_file.
