(* ===== verification/TextViewThms.v ===== *)
(** * Bounded text views: what the pages show

    Against the lines of a text as a reference: a page holds consecutive whole
    lines, stays in its budget and says where to go on; an artifact is its source
    with long lines cut into pieces; following the offsets from the first page of
    an artifact shows all of it. *)

From stdpp Require Import base list strings pretty.
From Stdlib Require Import ZArith Lia Ascii.
From S2P Require Import Prelude PyData PyStr Json PyText JsonText TextView.

(** ** Lengths *)

Lemma tlen_app a b : tlen (a ++ b) = tlen a + tlen b.
Proof. unfold tlen. rewrite length_app. lia. Qed.
Lemma tlen_nonneg t : 0 <= tlen t.
Proof. unfold tlen. lia. Qed.

Lemma escaped_char_range c : 1 <= escaped_char c <= 6.
Proof. unfold escaped_char. repeat case_match; lia. Qed.

Lemma escaped_length_app a b : escaped_length (a ++ b) = escaped_length a + escaped_length b.
Proof. induction a as [|c a IH]; [done|]. simpl. rewrite IH. lia. Qed.

Lemma escaped_length_range t : tlen t <= escaped_length t <= 6 * tlen t.
Proof.
  induction t as [|c t IH]; [done|]. unfold tlen in *. simpl. pose proof (escaped_char_range c). lia.
Qed.

(** Text whose characters stand for themselves in JSON. *)
Definition plain (t : text) : Prop := escaped_length t = tlen t.

Lemma plain_app a b : plain a -> plain b -> plain (a ++ b).
Proof. unfold plain. rewrite escaped_length_app, tlen_app. lia. Qed.

Lemma escaped_length_json s : escaped_length (txt s) = slen (json_string s) - 2.
Proof.
  assert (Hc : forall c, escaped_char (scode c) = slen (json_escape c)).
  { intros c. destruct c as [[] [] [] [] [] [] [] []]; vm_compute; reflexivity. }
  unfold json_string, slen. simpl. rewrite length_sapp. simpl.
  enough (escaped_length (txt s) = slen (json_escapes s)) as -> by (unfold slen; lia).
  induction s as [|c s IH]; [done|]. simpl. rewrite IH, Hc. unfold slen. rewrite length_sapp. lia.
Qed.

(** ** Decimal numbers *)

Lemma txt_app a b : txt (a +:+ b) = txt a ++ txt b.
Proof. induction a as [|c a IH]; [done|]. simpl. by rewrite IH. Qed.

Lemma tlen_txt s : tlen (txt s) = slen s.
Proof. unfold tlen, slen. induction s as [|c s IH]; [done|]. simpl in *. lia. Qed.

Lemma digits_text d n s :
  (n < 10 ^ N.of_nat d)%N -> exists t, pretty_N_go n s = t +:+ s /\ plain (txt t) /\ slen t <= Z.of_nat d.
Proof.
  revert n s. induction d as [|d IH]; intros n s Hn.
  - replace n with 0%N by (simpl in Hn; lia). exists "". rewrite pretty_N_go_0. done.
  - destruct (decide (n = 0)%N) as [->|Hz].
    { exists "". rewrite pretty_N_go_0. split_and!; [done|done|unfold slen; simpl; lia]. }
    rewrite pretty_N_go_step by lia.
    destruct (IH (n `div` 10)%N (String (pretty_N_char (n `mod` 10)) s)) as (t & Ht & Hp & Hl).
    { apply N.Div0.div_lt_upper_bound. rewrite Nat2N.inj_succ, N.pow_succ_r' in Hn. done. }
    exists (t +:+ String (pretty_N_char (n `mod` 10)) ""). split_and!.
    + by rewrite Ht, sapp_assoc.
    + rewrite txt_app. apply plain_app; [done|].
      assert (n `mod` 10 < 10)%N as Hm by (by apply N.mod_lt). set (m := (n `mod` 10)%N) in *. clearbody m.
      assert (m = 0 \/ m = 1 \/ m = 2 \/ m = 3 \/ m = 4 \/ m = 5 \/ m = 6 \/ m = 7 \/ m = 8 \/ m = 9)%N as Hc by lia.
      destruct Hc as [->|[->|[->|[->|[->|[->|[->|[->|[->| ->]]]]]]]]]; done.
    + unfold slen in *. rewrite length_sapp. simpl. lia.
Qed.

Lemma decimal_text_bound z d : 0 <= z < 10 ^ Z.of_nat d -> (0 < d)%nat -> plain (decimal_text z) /\ tlen (decimal_text z) <= Z.of_nat d.
Proof.
  intros Hz Hd. unfold decimal_text. rewrite tlen_txt. destruct z as [|p|p]; [|..].
  - split; [done|]. unfold slen. simpl. lia.
  - change (pretty (Zpos p)) with (pretty_N_go (Npos p) "").
    destruct (digits_text d (Npos p) "") as (t & -> & Hp & Hl); [apply N2Z.inj_lt; rewrite N2Z.inj_pow; lia|].
    by rewrite sapp_nil_r.
  - lia.
Qed.

Lemma decimal_text_plain z : 0 <= z -> plain (decimal_text z).
Proof.
  intros Hz. destruct (decimal_text_bound z (S (Z.to_nat z))) as [H _]; [|lia|done].
  split; [done|]. rewrite Nat2Z.inj_succ, Z2Nat.id by done.
  apply Z.lt_le_trans with (10 ^ z); [by apply Z.pow_gt_lin_r|]. apply Z.pow_le_mono_r; lia.
Qed.

Lemma line_prefix_plain z : 0 <= z -> plain (line_prefix z).
Proof. intros Hz. apply plain_app; [by apply decimal_text_plain|done]. Qed.

(** ** The lines of a text *)

Fixpoint tlines (t : text) : list text :=
  match t with
  | [] => []
  | c :: t' => if c =? LINEFEED then [] :: tlines t'
               else match tlines t' with [] => [[c]] | l :: ls => (c :: l) :: ls end
  end.

Definition no_lf (t : text) : Prop := LINEFEED ∉ t.

Lemma no_lf_cons c l : no_lf (c :: l) <-> (c =? LINEFEED) = false /\ no_lf l.
Proof. unfold no_lf. rewrite elem_of_cons, Z.eqb_neq. naive_solver. Qed.
Lemma no_lf_nil : no_lf [].
Proof. intros H. inversion H. Qed.

Lemma tlines_line l r : no_lf l -> tlines (l ++ LINEFEED :: r) = l :: tlines r.
Proof.
  induction l as [|c l IH]; [done|]. intros [Hc Hl]%no_lf_cons. simpl. by rewrite Hc, IH.
Qed.

Lemma tlines_last l : no_lf l -> l <> [] -> tlines l = [l].
Proof.
  induction l as [|c l IH]; [done|]. intros [Hc Hl]%no_lf_cons _. simpl. rewrite Hc.
  destruct l as [|d l]; [done|]. by rewrite IH.
Qed.

(** A text is empty, starts with a terminated line or is one unterminated line. *)
Lemma text_cases t :
  t = [] \/ (exists l r, no_lf l /\ t = l ++ LINEFEED :: r) \/ (no_lf t /\ t <> []).
Proof.
  induction t as [|c t IH]; [by left|]. right. destruct (c =? LINEFEED) eqn:Ec.
  - left. exists [], t. split; [apply no_lf_nil|]. by apply Z.eqb_eq in Ec as ->.
  - destruct IH as [->|[(l & r & Hl & ->)|[Ht _]]].
    + right. split; [|done]. by apply no_lf_cons; split; [|apply no_lf_nil].
    + left. exists (c :: l), r. by split; [apply no_lf_cons|].
    + right. by split; [apply no_lf_cons|].
Qed.

(** ** readline *)

Lemma take_line_term n l r : no_lf l -> (length l < n)%nat -> take_line n (l ++ LINEFEED :: r) = (l ++ [LINEFEED], r).
Proof.
  revert n. induction l as [|c l IH]; intros [|n] Hl Hn; simpl in *; try lia; [done|].
  apply no_lf_cons in Hl as [Hc Hl]. rewrite Hc, IH by (done || lia). done.
Qed.

Lemma take_line_part n l r : no_lf l -> (n <= length l)%nat -> take_line n (l ++ r) = (take n l, drop n l ++ r).
Proof.
  revert n. induction l as [|c l IH]; intros [|n] Hl Hn; simpl in *; try lia; [done..|].
  apply no_lf_cons in Hl as [Hc Hl]. rewrite Hc, IH by (done || lia). done.
Qed.

Lemma take_line_last n l : no_lf l -> (length l <= n)%nat -> take_line n l = (l, []).
Proof.
  revert n. induction l as [|c l IH]; intros [|n] Hl Hn; simpl in *; try lia; [done..|].
  apply no_lf_cons in Hl as [Hc Hl]. rewrite Hc, IH by (done || lia). done.
Qed.

Lemma readline_term m l r : no_lf l -> tlen l < m -> readline m (l ++ LINEFEED :: r) = (l ++ [LINEFEED], r).
Proof.
  intros Hl Hm. unfold readline, tlen in *. destruct (Z.ltb_spec m 0); [lia|]. apply take_line_term; [done|lia].
Qed.
Lemma readline_part m l r :
  no_lf l -> 0 <= m <= tlen l -> readline m (l ++ r) = (take (Z.to_nat m) l, drop (Z.to_nat m) l ++ r).
Proof.
  intros Hl Hm. unfold readline, tlen in *. destruct (Z.ltb_spec m 0); [lia|]. apply take_line_part; [done|lia].
Qed.
Lemma readline_last m l : no_lf l -> tlen l <= m -> readline m l = (l, []).
Proof.
  intros Hl Hm. unfold readline, tlen in *. destruct (Z.ltb_spec m 0); [lia|]. apply take_line_last; [done|lia].
Qed.

Lemma no_lf_take n l : no_lf l -> no_lf (take n l).
Proof. unfold no_lf. intros H Hin. apply H. rewrite <- (take_drop n l). apply elem_of_app. by left. Qed.
Lemma no_lf_drop n l : no_lf l -> no_lf (drop n l).
Proof. unfold no_lf. intros H Hin. apply H. rewrite <- (take_drop n l). apply elem_of_app. by right. Qed.

Lemma ends_line_snoc l : ends_line (l ++ [LINEFEED]) = true.
Proof. unfold ends_line. by rewrite last_snoc. Qed.
Lemma ends_line_no_lf l : no_lf l -> ends_line l = false.
Proof.
  intros Hl. unfold ends_line. destruct (last l) as [c|] eqn:E; [|done].
  apply last_Some_elem_of in E. apply Z.eqb_neq. by intros ->.
Qed.

(** ** _read_line_bounded *)

Lemma chunk_nonempty m l : 0 < m -> 0 < tlen l -> exists c k, take (Z.to_nat m) l = c :: k.
Proof.
  intros Hm Hl. destruct l as [|c l]; [done|]. destruct (Z.to_nat m) as [|n] eqn:E; [lia|]. by exists c, (take n l).
Qed.

Lemma discard_term fuel l r : (length l < fuel)%nat -> no_lf l -> discard_line fuel (l ++ LINEFEED :: r) = (false, r).
Proof.
  revert l. induction fuel as [|fuel IH]; intros l Hf Hl; [lia|]. cbn [discard_line].
  destruct (Z.lt_ge_cases (tlen l) DISCARD_CHUNK_CHARS) as [Hs|Hs].
  - rewrite readline_term by done. rewrite ends_line_snoc. by destruct l.
  - rewrite readline_part by (done || (unfold DISCARD_CHUNK_CHARS in *; lia)).
    destruct (chunk_nonempty DISCARD_CHUNK_CHARS l) as (c & k & E); [done|unfold DISCARD_CHUNK_CHARS in *; lia|].
    rewrite E, <- E, ends_line_no_lf by (by apply no_lf_take). apply IH; [|by apply no_lf_drop].
    rewrite length_drop. unfold tlen, DISCARD_CHUNK_CHARS in *. lia.
Qed.

Lemma discard_last fuel l : (length l < fuel)%nat -> no_lf l -> discard_line fuel l = (true, []).
Proof.
  revert l. induction fuel as [|fuel IH]; intros l Hf Hl; [lia|]. cbn [discard_line].
  destruct (Z.le_gt_cases (tlen l) DISCARD_CHUNK_CHARS) as [Hs|Hs].
  - rewrite readline_last by done. destruct l as [|c l]; [done|]. rewrite ends_line_no_lf by done.
    destruct fuel as [|fuel]; [simpl in Hf; lia|]. done.
  - rewrite <- (app_nil_r l) at 1. rewrite readline_part by (done || (unfold DISCARD_CHUNK_CHARS in *; lia)).
    rewrite app_nil_r.
    destruct (chunk_nonempty DISCARD_CHUNK_CHARS l) as (c & k & E); [done|unfold DISCARD_CHUNK_CHARS in *; lia|].
    rewrite E, <- E, ends_line_no_lf by (by apply no_lf_take). apply IH; [|by apply no_lf_drop].
    rewrite length_drop. unfold tlen, DISCARD_CHUNK_CHARS in *. lia.
Qed.

Lemma read_line_nil m : 0 <= m -> read_line_bounded [] m = (None, false, true, []).
Proof. intros Hm. unfold read_line_bounded. by rewrite readline_last by (apply no_lf_nil || (unfold tlen; simpl; lia)). Qed.

Lemma take_full m l : tlen l <= m -> take (Z.to_nat m) l = l.
Proof. intros H. apply take_ge. unfold tlen in H. lia. Qed.

Lemma tlen_take m l : 0 <= m -> tlen l <= m -> tlen (take (Z.to_nat m) l) = tlen l.
Proof. intros. by rewrite take_full. Qed.

Lemma read_line_term m l r :
  0 <= m -> no_lf l ->
  read_line_bounded (l ++ LINEFEED :: r) m = (Some (take (Z.to_nat m) l), m <? tlen l, false, r).
Proof.
  intros Hm Hl. unfold read_line_bounded. destruct (Z.ltb_spec m (tlen l)) as [Hs|Hs].
  - rewrite readline_part by (done || lia). set (chunk := take (Z.to_nat (m + 1)) l).
    assert (Hlen : tlen chunk = m + 1) by (unfold chunk, tlen in *; rewrite length_take; lia).
    destruct chunk as [|c k] eqn:E; [unfold tlen in Hlen; simpl in Hlen; lia|]. rewrite <- E in *. clear E c k.
    rewrite ends_line_no_lf by (by apply no_lf_take). destruct (Z.leb_spec (tlen chunk) m); [lia|].
    rewrite discard_term; [|rewrite length_app, length_drop; lia|by apply no_lf_drop].
    unfold chunk. by rewrite take_take, Nat.min_l by lia.
  - rewrite readline_term by (done || lia). rewrite ends_line_snoc. rewrite take_full by done.
    destruct (l ++ [LINEFEED]) as [|c k] eqn:E; [by destruct l|]. rewrite <- E. do 4 f_equal.
    rewrite length_app. simpl. replace (length l + 1 - 1)%nat with (length l) by lia. apply take_app_length.
Qed.

Lemma read_line_last m l :
  0 <= m -> no_lf l -> l <> [] -> read_line_bounded l m = (Some (take (Z.to_nat m) l), m <? tlen l, true, []).
Proof.
  intros Hm Hl Hne. unfold read_line_bounded. destruct (Z.ltb_spec m (tlen l)) as [Hs|Hs].
  - rewrite <- (app_nil_r l) at 1. rewrite readline_part by (done || lia). rewrite app_nil_r.
    set (chunk := take (Z.to_nat (m + 1)) l).
    assert (Hlen : tlen chunk = m + 1) by (unfold chunk, tlen in *; rewrite length_take; lia).
    destruct chunk as [|c k] eqn:E; [unfold tlen in Hlen; simpl in Hlen; lia|]. rewrite <- E in *. clear E c k.
    rewrite ends_line_no_lf by (by apply no_lf_take). destruct (Z.leb_spec (tlen chunk) m); [lia|].
    rewrite discard_last; [|lia|by apply no_lf_drop].
    unfold chunk. by rewrite take_take, Nat.min_l by lia.
  - rewrite readline_last by (done || lia). rewrite take_full by done. destruct l as [|c k] eqn:E; [done|]. rewrite <- E in *.
    rewrite ends_line_no_lf by done. destruct (Z.leb_spec (tlen l) m); [done|lia].
Qed.

(** The three readings in one: what a bounded reading of a nonempty file gives. *)
Lemma read_line_first m file :
  0 <= m -> file <> [] ->
  exists l eof rest, tlines file = l :: tlines rest /\ (length rest < length file)%nat /\ (eof = true -> rest = []) /\
    read_line_bounded file m = (Some (take (Z.to_nat m) l), m <? tlen l, eof, rest).
Proof.
  intros Hm Hne. destruct (text_cases file) as [->|[(l & r & Hl & ->)|[Hl _]]]; [done|..].
  - exists l, false, r. rewrite tlines_line, read_line_term by done. split_and!; try done. rewrite length_app. simpl. lia.
  - exists file, true, []. rewrite tlines_last, read_line_last by done. split_and!; try done. destruct file; [done|simpl; lia].
Qed.

(** ** Pages *)

Lemma join_lines_snoc l x : join_lines (l ++ [x]) = match l with [] => x | _ => join_lines l ++ LINEFEED :: x end.
Proof.
  induction l as [|y l IH]; [done|]. cbn [app join_lines]. destruct l as [|z l]; [done|].
  rewrite IH. cbn [app]. by rewrite <- app_assoc.
Qed.

Lemma trim_prefix line budget : trim_to_escaped line budget `prefix_of` line.
Proof.
  unfold trim_to_escaped. generalize 0. induction line as [|c line IH]; intros used; simpl; [done|].
  case_match; [apply prefix_nil|]. apply prefix_cons, IH.
Qed.

Lemma trim_bound line budget : 0 <= budget -> escaped_length (trim_to_escaped line budget) <= budget.
Proof.
  intros Hb. enough (forall used, used <= budget -> used + escaped_length (trim_to_escaped_go used line budget) <= budget) as H.
  { by specialize (H 0 Hb). }
  induction line as [|c line IH]; intros used Hu; simpl; [lia|].
  destruct (Z.ltb_spec budget (used + escaped_char c)); [simpl; lia|]. simpl. specialize (IH (used + escaped_char c)). lia.
Qed.

Fixpoint numbered (n : Z) (ls : list text) : list text :=
  match ls with [] => [] | l :: ls' => (line_prefix n ++ l) :: numbered (n + 1) ls' end.

(** A page that shows its only line cut: the line does not fit in the budget. *)
Definition cut_line (budget n : Z) (l : text) (shown : list text) : Prop :=
  budget < tlen (line_prefix n) + escaped_length l /\
  exists cut, cut `prefix_of` l /\ shown = [line_prefix n ++ cut ++ TRUNCATED_LINE_NOTICE].

(** What the loop of [read_text_range] comes to from line [n] on, with the lines [ls] to
    come: it shows [k] of them. *)
Record paged (limit budget n : Z) (rendered ls : list text) (p : Page) (k : nat) : Prop := {
  pd_count : (k <= length ls)%nat;
  pd_number : pg_line_number p = n + Z.of_nat k;
  pd_shown : exists shown, pg_rendered_lines p = rendered ++ shown /\
    (shown = numbered n (take k ls) \/ (rendered = [] /\ k = 1%nat /\ exists l, ls !! 0%nat = Some l /\ cut_line budget n l shown));
  pd_budget : pg_rendered_lines p <> [] -> escaped_length (join_lines (pg_rendered_lines p)) <= budget;
  pd_eof : pg_eof p = true -> k = length ls /\ pg_next_offset p = None;
  pd_next : pg_eof p = false ->
    match pg_next_offset p with
    | Some m => m = n + Z.of_nat k
    | None => limit <= Z.of_nat (length (pg_rendered_lines p)) /\ tlines (pg_file p) = drop k ls
    end;
  pd_progress : pg_eof p = false -> k = 0%nat ->
    limit <= Z.of_nat (length rendered) \/ rendered <> [] \/ budget - tlen (line_prefix n) < notice_chars;
}.

(** The characters on the page so far. *)
Definition accounted (budget body : Z) (rendered : list text) : Prop :=
  match rendered with
  | [] => body = 0
  | _ => body = escaped_length (join_lines rendered) /\ body <= budget
  end.

Lemma accounted_budget budget body rendered :
  accounted budget body rendered -> rendered <> [] -> escaped_length (join_lines rendered) <= budget.
Proof. destruct rendered; [done|]. intros [-> H] _. done. Qed.

(** One more line on the page. *)
Lemma accounted_snoc budget body rendered n shown :
  0 <= n -> accounted budget body rendered ->
  let separator := match rendered with [] => 0 | _ => 2 end in
  escaped_length shown <= budget - body - separator - tlen (line_prefix n) ->
  accounted budget (body + separator + tlen (line_prefix n) + escaped_length shown) (rendered ++ [line_prefix n ++ shown]).
Proof.
  intros Hn Ha separator Hs. pose proof (line_prefix_plain n Hn) as Hp. unfold plain in Hp.
  assert (Hj : escaped_length (join_lines (rendered ++ [line_prefix n ++ shown]))
               = body + separator + tlen (line_prefix n) + escaped_length shown).
  { rewrite join_lines_snoc. unfold separator. unfold accounted in Ha. destruct rendered as [|x r].
    - rewrite escaped_length_app. lia.
    - destruct Ha as [Ha _]. rewrite escaped_length_app. cbn [escaped_length fold_right]. fold (escaped_length (line_prefix n ++ shown)).
      rewrite escaped_length_app, Hp, <- Ha. change (escaped_char LINEFEED) with 2. lia. }
  unfold accounted. destruct (rendered ++ [line_prefix n ++ shown]) eqn:E; [by destruct rendered|]. rewrite Hj.
  split; [done|]. lia.
Qed.

Lemma cut_shown budget n l available :
  available = budget - tlen (line_prefix n) -> notice_chars <= available -> available < escaped_length l ->
  let shown := trim_to_escaped (take (Z.to_nat available) l) (available - notice_chars) ++ TRUNCATED_LINE_NOTICE in
  cut_line budget n l [line_prefix n ++ shown] /\ escaped_length shown <= available.
Proof.
  intros -> Hn Hlt shown. split.
  - split; [lia|]. eexists. split; [|done]. etrans; [apply trim_prefix|]. apply prefix_take.
  - unfold shown. rewrite escaped_length_app. fold notice_chars. pose proof (trim_bound (take (Z.to_nat (budget - tlen (line_prefix n))) l) (budget - tlen (line_prefix n) - notice_chars)). lia.
Qed.

(** The loop stops before the next line. *)
Lemma paged_stop limit budget n (rendered ls : list text) (eof reached : bool) (next : option Z) file :
  (rendered <> [] -> escaped_length (join_lines rendered) <= budget) ->
  (if eof then ls = [] /\ next = None
   else match next with
        | Some m => m = n /\ (rendered <> [] \/ budget - tlen (line_prefix n) < notice_chars)
        | None => limit <= Z.of_nat (length rendered) /\ tlines file = ls
        end) ->
  paged limit budget n rendered ls (MkPage rendered n eof reached next file) 0.
Proof.
  intros Hb H. split; simpl; try done; try lia.
  - exists []. rewrite app_nil_r. split; [done|]. by left.
  - intros ->. by destruct H as [-> ->].
  - intros ->. destruct next; [destruct H as [-> _]; lia|done].
  - intros -> _. destruct next; [|by left; destruct H]. right. by destruct H.
Qed.

(** The loop stops behind a line. *)
Lemma paged_last limit budget n rendered l (rest : text) shown (eof reached : bool) (next : option Z) file :
  0 <= n -> escaped_length (join_lines (rendered ++ [line_prefix n ++ shown])) <= budget ->
  shown = l \/ (rendered = [] /\ cut_line budget n l [line_prefix n ++ shown]) ->
  (if eof then rest = [] /\ next = None else next = Some (n + 1)) ->
  paged limit budget n rendered (l :: tlines rest) (MkPage (rendered ++ [line_prefix n ++ shown]) (n + 1) eof reached next file) 1.
Proof.
  intros Hn Hb Hs H. split; simpl; try done; try lia.
  - exists [line_prefix n ++ shown]. split; [done|]. destruct Hs as [->|[-> Hc]]; [by left|right]. eauto.
  - intros ->. by destruct H as [-> ->].
  - intros ->. by rewrite H.
Qed.

Lemma paged_step limit budget n rendered l ls p k :
  paged limit budget (n + 1) (rendered ++ [line_prefix n ++ l]) ls p k -> paged limit budget n rendered (l :: ls) p (S k).
Proof.
  intros [H1 H2 (shown & H3 & Hs) H4 H5 H6 _]. split; simpl; try done; try lia.
  - exists ((line_prefix n ++ l) :: shown). rewrite H3, <- app_assoc. split; [done|]. left.
    destruct Hs as [->|[Hs _]]; [done|by destruct rendered].
  - intros He. destruct (H5 He) as [-> ->]. done.
  - intros He. specialize (H6 He). destruct (pg_next_offset p); [lia|done].
Qed.

Lemma page_loop_spec fuel limit budget rendered body n file :
  0 <= n -> (length file < fuel)%nat -> accounted budget body rendered ->
  exists k, paged limit budget n rendered (tlines file) (page_loop fuel limit budget rendered body n file) k.
Proof.
  revert rendered body n file. induction fuel as [|fuel IH]; intros rendered body n file Hn Hf Ha; [lia|].
  pose proof (accounted_budget _ _ _ Ha) as Hb. cbn [page_loop].
  destruct (Z.ltb_spec (Z.of_nat (length rendered)) limit) as [Hlim|Hlim].
  2: { exists 0%nat. apply paged_stop; [done|]. done. }
  set (sep := match rendered with [] => 0 | _ => 2 end).
  set (available := budget - body - sep - tlen (line_prefix n)).
  assert (Hfirst : rendered = [] -> available = budget - tlen (line_prefix n)).
  { intros ->. unfold accounted in Ha. unfold available, sep. lia. }
  destruct (Z.ltb_spec available notice_chars) as [Hav|Hav].
  { exists 0%nat. apply paged_stop; [done|]. split; [done|]. destruct rendered; [right|by left]. by rewrite <- Hfirst. }
  assert (Hle : available <= budget - tlen (line_prefix n)).
  { unfold available, sep. destruct rendered; unfold accounted in Ha; [lia|]. destruct Ha as [Ha _].
    pose proof (escaped_length_range (join_lines (t :: rendered))). pose proof (tlen_nonneg (join_lines (t :: rendered))). lia. }
  assert (Hnotice : 0 < notice_chars) by done.
  destruct (decide (file = [])) as [->|Hne].
  { rewrite read_line_nil by lia. exists 0%nat. by apply paged_stop. }
  destruct (read_line_first (budget - tlen (line_prefix n)) file) as (l & eof & rest & Hl & Hrest & He & ->); [lia|done|].
  rewrite Hl. set (line := take _ l).
  set (too_long := (budget - tlen (line_prefix n) <? tlen l) || (available <? escaped_length line)).
  assert (Hfit : too_long = false -> line = l /\ escaped_length l <= available).
  { intros [H1 H2]%orb_false_iff. apply Z.ltb_ge in H1, H2. unfold line in *. rewrite take_full in * by done. done. }
  assert (Hlong : too_long = true -> available = budget - tlen (line_prefix n) -> available < escaped_length l).
  { intros [H1%Z.ltb_lt|H2%Z.ltb_lt]%orb_true_iff Heq.
    - pose proof (escaped_length_range l). lia.
    - unfold line in H2. rewrite <- (take_drop (Z.to_nat (budget - tlen (line_prefix n))) l), escaped_length_app.
      pose proof (escaped_length_range (drop (Z.to_nat (budget - tlen (line_prefix n))) l)).
      pose proof (tlen_nonneg (drop (Z.to_nat (budget - tlen (line_prefix n))) l)). lia. }
  clearbody too_long. destruct too_long; cbn [andb].
  - destruct rendered as [|x r]; [|exists 0%nat; apply paged_stop; [done|]; split; [done|by left]].
    destruct (cut_shown budget n l available) as [Hc Hs]; [auto|done|auto|].
    assert (Hline : line = take (Z.to_nat available) l) by (unfold line; by rewrite Hfirst). rewrite Hline.
    pose proof (accounted_snoc budget body [] n _ Hn Ha Hs) as Hacc. apply accounted_budget in Hacc; [|done].
    exists 1%nat. destruct eof; apply paged_last; auto.
  - destruct (Hfit eq_refl) as [-> Hs]. pose proof (accounted_snoc budget body rendered n l Hn Ha Hs) as Hacc.
    destruct eof.
    + exists 1%nat. apply accounted_budget in Hacc; [|by destruct rendered]. apply paged_last; auto.
    + destruct (IH (rendered ++ [line_prefix n ++ l]) _ (n + 1) rest ltac:(lia) ltac:(lia) Hacc) as [k Hk].
      exists (S k). by apply paged_step.
Qed.

(** ** A page and what comes after it *)

Record page_of (limit budget offset : Z) (ls : list text) (p : Page) (k : nat) : Prop := {
  po_count : (k <= length ls)%nat;
  po_number : pg_line_number p = offset + Z.of_nat k;
  po_shown : pg_rendered_lines p = numbered offset (take k ls) \/
    (k = 1%nat /\ exists l, ls !! 0%nat = Some l /\ cut_line budget offset l (pg_rendered_lines p));
  po_budget : pg_rendered_lines p <> [] -> escaped_length (join_lines (pg_rendered_lines p)) <= budget;
  po_eof : pg_eof p = true -> k = length ls /\ pg_next_offset p = None;
  po_next : pg_eof p = false -> pg_next_offset p = Some (offset + Z.of_nat k);
  po_progress : pg_eof p = false -> 1 <= limit -> notice_chars <= budget - tlen (line_prefix offset) -> (0 < k)%nat;
}.

Lemma tlines_nil t : tlines t = [] <-> t = [].
Proof. split; [|by intros ->]. destruct t as [|c t]; [done|]. simpl. destruct (c =? LINEFEED); [done|]. by destruct (tlines t). Qed.

Lemma read_page_spec file offset limit budget :
  0 <= offset -> exists k, page_of limit budget offset (tlines file) (read_page file offset limit budget) k.
Proof.
  intros Ho. unfold read_page.
  destruct (page_loop_spec (S (length file)) limit budget [] 0 offset file Ho ltac:(lia) eq_refl) as [k Hk].
  set (p := page_loop _ _ _ _ _ _ _) in *. clearbody p. exists k.
  assert (Hprog : pg_eof p = false -> 1 <= limit -> notice_chars <= budget - tlen (line_prefix offset) -> (0 < k)%nat).
  { intros He Hl Hb. destruct k; [|lia]. destruct (pd_progress _ _ _ _ _ _ _ Hk He eq_refl) as [?|[?|?]]; simpl in *; [lia|done|lia]. }
  destruct Hk as [H1 H2 (shown & H3 & Hs) H4 H5 H6 _]. simpl in H3. rewrite <- H3 in Hs.
  assert (Hshown : pg_rendered_lines p = numbered offset (take k (tlines file)) \/
    (k = 1%nat /\ exists l, tlines file !! 0%nat = Some l /\ cut_line budget offset l (pg_rendered_lines p))).
  { destruct Hs as [Hs|(_ & Hk & Hl)]; [by left|right]. auto. }
  destruct (pg_eof p) eqn:He; [by split; rewrite ?He|]. specialize (H6 eq_refl).
  destruct (pg_next_offset p) as [m|] eqn:Hm; [subst m; by split; rewrite ?He|].
  destruct H6 as [Hlim Hrest]. destruct (decide (pg_file p = [])) as [E|E].
  - rewrite E in *. rewrite read_line_nil by done. simpl in Hrest. symmetry in Hrest.
    assert (length (tlines file) <= k)%nat by (apply (f_equal length) in Hrest; rewrite length_drop in Hrest; simpl in Hrest; lia). split; simpl; try done. intros _. split; [lia|done].
  - destruct (read_line_first 0 (pg_file p)) as (l & eof & rest & _ & _ & _ & ->); [done|done|].
    split; simpl; try done. intros _. by rewrite H2.
Qed.

(** [_skip_lines] *)
Lemma skip_lines_go_spec fuel skipped count file :
  (length file < fuel)%nat -> 0 <= skipped ->
  exists rest, skip_lines_go fuel skipped count file
      = (skipped + Z.max 0 (Z.min (count - skipped) (Z.of_nat (length (tlines file)))), rest) /\
    (skipped <= count <= skipped + Z.of_nat (length (tlines file)) -> tlines rest = drop (Z.to_nat (count - skipped)) (tlines file)).
Proof.
  revert skipped file. induction fuel as [|fuel IH]; intros skipped file Hf Hs; [lia|]. cbn [skip_lines_go].
  destruct (Z.ltb_spec skipped count) as [Hlt|Hge].
  2: { exists file. split; [f_equal; lia|]. intros. by replace (Z.to_nat (count - skipped)) with 0%nat by lia. }
  destruct (decide (file = [])) as [->|Hne].
  { rewrite read_line_nil by done. exists []. split; [f_equal; simpl; lia|]. simpl. intros. by rewrite drop_nil. }
  destruct (read_line_first 0 file) as (l & eof & rest & Hl & Hr & _ & ->); [done|done|].
  destruct (IH (skipped + 1) rest) as (rest' & -> & Hd); [lia|lia|]. exists rest'. rewrite Hl. cbn [length].
  split; [f_equal; lia|]. intros Hc. rewrite Hd by lia. replace (Z.to_nat (count - skipped)) with (S (Z.to_nat (count - (skipped + 1)))) by lia. done.
Qed.

Lemma skip_lines_spec file count :
  0 <= count ->
  exists rest, skip_lines file count = (Z.min count (Z.of_nat (length (tlines file))), rest) /\
    (count <= Z.of_nat (length (tlines file)) -> tlines rest = drop (Z.to_nat count) (tlines file)).
Proof.
  intros Hc. destruct (skip_lines_go_spec (S (length file)) 0 count file) as (rest & Hr & Hd); [lia|lia|].
  exists rest. unfold skip_lines. rewrite Hr. split; [f_equal; lia|]. intros. rewrite Hd by lia. do 2 f_equal. lia.
Qed.

(** ** Every page fits in a tool result *)

Definition small (bound : Z) (t : text) : Prop := plain t /\ tlen t <= bound.

Lemma small_app m n a b : small m a -> small n b -> small (m + n) (a ++ b).
Proof. intros [Ha Hm] [Hb Hn]. split; [by apply plain_app|]. rewrite tlen_app. lia. Qed.

Lemma small_txt t : plain t -> small (tlen t) t.
Proof. by split. Qed.

Lemma small_if m (c : bool) a b : small m a -> small m b -> small m (if c then a else b).
Proof. by destruct c. Qed.

Lemma small_mono m n t : m <= n -> small m t -> small n t.
Proof. intros H [Hp Hl]. split; [done|lia]. Qed.

Lemma small_decimal z : 0 <= z < 10 ^ 8 -> small 8 (decimal_text z).
Proof. intros Hz. apply (decimal_text_bound z 8); [done|lia]. Qed.

Ltac small_text :=
  repeat first [ eapply small_app | apply small_decimal; lia | apply small_txt; done ].

Lemma status_small offset end_line eof next reached :
  0 <= offset < 10 ^ 8 -> 0 <= end_line < 10 ^ 8 -> (forall m, next = Some m -> 0 <= m < 10 ^ 8) ->
  small 200 (status offset end_line eof next reached).
Proof.
  intros Ho He Hn.
  assert (Hl : small 30 (if reached then txt ". character limit reached" else []))
    by (apply small_if; eapply small_mono; [|apply small_txt; done| |apply small_txt; done]; done).
  unfold status. destruct eof.
  - eapply small_mono; [|small_text; exact Hl]. done.
  - assert (Hs : small 40 (if end_line <? offset then txt "No complete lines shown"
        else if offset =? end_line then txt "Showing line " ++ decimal_text end_line
        else txt "Showing lines " ++ decimal_text offset ++ txt "-" ++ decimal_text end_line)).
    { repeat apply small_if; (eapply small_mono; [|small_text]; done). }
    assert (Hx : small 40 (match next with Some n => txt ". Use offset=" ++ decimal_text n ++ txt " to continue" | None => [] end)).
    { destruct next as [m|]; [|by split]. specialize (Hn m eq_refl). eapply small_mono; [|small_text]; done. }
    eapply small_mono; [|eapply small_app; [small_text|eapply small_app; [exact Hs|eapply small_app; [exact Hl|eapply small_app; [exact Hx|small_text]]]]]. done.
Qed.

Lemma tlines_length t : Z.of_nat (length (tlines t)) <= tlen t.
Proof.
  unfold tlen. induction t as [|c t IH]; [done|]. simpl. destruct (c =? LINEFEED); simpl; [lia|].
  destruct (tlines t); simpl in *; lia.
Qed.

Lemma translate_length t : tlen (translate t) <= tlen t.
Proof.
  unfold tlen. enough (length (translate t) <= length t)%nat by lia.
  induction t as [t IH] using (induction_ltof1 _ (@length Z)). unfold ltof in IH.
  destruct t as [|c t]; [done|]. simpl. destruct (c =? RETURN).
  - destruct t as [|d t]; [simpl; lia|]. destruct (d =? LINEFEED).
    + pose proof (IH t). simpl in *. lia.
    + pose proof (IH (d :: t)). cbn [length] in *. lia.
  - pose proof (IH t). simpl in *. lia.
Qed.

Lemma read_text_range_fits file offset limit budget :
  1 <= offset -> 0 <= budget -> tlen file <= MAX_FILE_SIZE_BYTES ->
  escaped_length (read_text_range file offset limit budget) <= budget + STATUS_RESERVE_CHARS.
Proof.
  intros Ho Hb Hf. pose proof (tlines_length file) as Hn. unfold MAX_FILE_SIZE_BYTES in Hf.
  unfold read_text_range, STATUS_RESERVE_CHARS. destruct (skip_lines_spec file (offset - 1)) as (rest & -> & Hrest); [lia|].
  destruct (Z.ltb_spec (Z.min (offset - 1) (Z.of_nat (length (tlines file)))) (offset - 1)) as [Hlt|Hge].
  - enough (small 200 (txt "(" ++ END_OF_FILE ++ decimal_text (Z.min (offset - 1) (Z.of_nat (length (tlines file)))) ++ txt " lines total)"))
      as [-> ?] by lia.
    eapply small_mono; [|small_text]; done.
  - specialize (Hrest ltac:(lia)). destruct (read_page_spec rest offset limit budget) as [k Hk]; [lia|].
    set (p := read_page rest offset limit budget) in *. clearbody p. rewrite Hrest in Hk.
    assert (Hkl : Z.of_nat k <= tlen file - (offset - 1)) by (pose proof (po_count _ _ _ _ _ _ Hk) as Hc; rewrite length_drop in Hc; lia).
    destruct (status_small offset (pg_line_number p - 1) (pg_eof p) (pg_next_offset p) (pg_character_limit_reached p)) as [Hp Hs].
    { lia. }
    { rewrite (po_number _ _ _ _ _ _ Hk). lia. }
    { intros m Hm. destruct (pg_eof p) eqn:He.
      - by destruct (po_eof _ _ _ _ _ _ Hk He) as [_ ?]; simplify_eq.
      - rewrite (po_next _ _ _ _ _ _ Hk He) in Hm. simplify_eq. lia. }
    unfold join_content, page_status. pose proof (po_budget _ _ _ _ _ _ Hk) as Hbud. destruct (pg_rendered_lines p) as [|x r].
    + rewrite Hp. lia.
    + specialize (Hbud ltac:(done)). rewrite !escaped_length_app, Hp. change (escaped_length [LINEFEED; LINEFEED]) with 4. lia.
Qed.

(** [envelope_with] is the length of the serialized result. *)
Lemma sjoin_snoc_length sep l x y :
  slen (sjoin sep (l ++ [x])) - slen x = slen (sjoin sep (l ++ [y])) - slen y.
Proof.
  unfold slen. induction l as [|a l IH]; [simpl; lia|]. cbn [app].
  rewrite !sjoin_cons by (by destruct l). rewrite !length_sapp. lia.
Qed.

Lemma envelope_with_text `{FloatText} fields s :
  envelope_chars (JObj (fields ++ [("content", JStr s)])) = envelope_with fields (txt s).
Proof.
  assert (Hd : forall v, envelope_chars (JObj (fields ++ [("content", v)]))
     = slen (sjoin ", " (map member_text fields ++ [member_text ("content", v)]))
       + slen ("{" +:+ json_string "ok" +:+ ": true, " +:+ json_string "output" +:+ ": {}}")).
  { intros v. unfold envelope_chars.
    change (dumps (JObj [("ok", JBool true); ("output", JObj (fields ++ [("content", v)]))]))
      with ("{" +:+ ((json_string "ok" +:+ ": " +:+ "true") +:+ ", " +:+ json_string "output" +:+ ": "
            +:+ "{" +:+ sjoin ", " (map member_text (fields ++ [("content", v)])) +:+ "}") +:+ "}").
    rewrite map_app. cbn [map]. unfold slen. rewrite !length_sapp. simpl. lia. }
  unfold envelope_with. rewrite !Hd, escaped_length_json.
  pose proof (sjoin_snoc_length ", " (map member_text fields) (member_text ("content", JStr s)) (member_text ("content", JStr ""))) as Hs.
  assert (Hm : forall x, slen (member_text ("content", JStr x)) = slen (json_string x) + 11).
  { intros x. unfold member_text. cbn [fst snd]. change (dumps (JStr x)) with (json_string x).
    unfold slen. rewrite !length_sapp. simpl (String.length (json_string "content")). simpl (String.length ": "). lia. }
  rewrite !Hm in Hs. change (slen (json_string "")) with 2 in Hs. lia.
Qed.

(** C34: what read_file and read_skill return is never spilled: whatever the file
    holds and whichever lines are asked for, the result envelope stays within
    MAX_TOOL_RESULT_CHARS, provided its fields other than the content leave the
    reserve of the status line. *)
Theorem read_text_file_fits `{FloatText} metadata offset limit tool_name size decoded fields content :
  1 <= offset ->
  (forall t, decoded = Some t -> tlen t <= size) ->
  read_text_file metadata offset limit tool_name size decoded = Ok (fields, content) ->
  envelope_with fields [] + STATUS_RESERVE_CHARS <= MAX_TOOL_RESULT_CHARS ->
  envelope_with fields content <= MAX_TOOL_RESULT_CHARS.
Proof.
  intros Ho Hd. unfold read_text_file. destruct (Z.ltb_spec MAX_FILE_SIZE_BYTES size) as [|Hs]; [done|].
  destruct decoded as [t|]; [|done]. intros [= <- <-] Hb. specialize (Hd t eq_refl). pose proof (translate_length t) as Ht.
  pose proof (read_text_range_fits (translate t) offset limit
    (MAX_TOOL_RESULT_CHARS - envelope_with (dset "file_size_bytes" (JInt size) metadata) [] - STATUS_RESERVE_CHARS) Ho) as Hr.
  unfold envelope_with in *. simpl (escaped_length []) in *. lia.
Qed.

#[local] Instance view_floats : FloatText := {| float_repr b := pretty b |}.

Lemma read_text_file_fits_witness :
  exists fields content,
    read_text_file [("path", JStr "notes.txt")] 2 1 "read_file" 30 (Some (txt ("one" +:+ NL +:+ "two" +:+ NL +:+ "three"))) = Ok (fields, content) /\
    envelope_with fields content <= MAX_TOOL_RESULT_CHARS.
Proof.
  eexists _, _. split; [reflexivity|].
  apply (read_text_file_fits [("path", JStr "notes.txt")] 2 1 "read_file" 30 (Some (txt ("one" +:+ NL +:+ "two" +:+ NL +:+ "three")))).
  - lia.
  - intros t [= <-]. by vm_compute.
  - reflexivity.
  - by vm_compute.
Defined.

(** ** The reading view *)

(** A line in pieces of at most MAX_ARTIFACT_LINE_CHARS characters. *)
Fixpoint pieces_go (fuel : nat) (l : text) : list text :=
  match fuel with
  | O => [l]
  | S fuel' => if MAX_ARTIFACT_LINE_CHARS <? tlen l
               then take (Z.to_nat MAX_ARTIFACT_LINE_CHARS) l :: pieces_go fuel' (drop (Z.to_nat MAX_ARTIFACT_LINE_CHARS) l)
               else [l]
  end.
Definition pieces (l : text) : list text := pieces_go (length l) l.

#[local] Notation W := MAX_ARTIFACT_LINE_CHARS.

Lemma W_pos : 0 < W.
Proof. done. Qed.

#[local] Opaque MAX_ARTIFACT_LINE_CHARS.

Lemma pieces_go_fuel f g l : (length l <= f)%nat -> (length l <= g)%nat -> pieces_go f l = pieces_go g l.
Proof.
  pose proof W_pos. revert g l. induction f as [|f IH]; intros [|g] l Hf Hg; cbn [pieces_go]; try done.
  - destruct (Z.ltb_spec W (tlen l)); [unfold tlen in *; lia|done].
  - destruct (Z.ltb_spec W (tlen l)); [unfold tlen in *; lia|done].
  - destruct (Z.ltb_spec W (tlen l)); [|done]. f_equal. unfold tlen in *. apply IH; rewrite length_drop; lia.
Qed.

Lemma pieces_short l : tlen l <= W -> pieces l = [l].
Proof. intros H. unfold pieces. destruct (length l); cbn [pieces_go]; [done|]. destruct (Z.ltb_spec W (tlen l)); [lia|done]. Qed.

Lemma pieces_long l : W < tlen l -> pieces l = take (Z.to_nat W) l :: pieces (drop (Z.to_nat W) l).
Proof.
  pose proof W_pos. intros H'. unfold pieces at 1. destruct (length l) as [|n] eqn:E; [unfold tlen in *; lia|]. cbn [pieces_go].
  destruct (Z.ltb_spec W (tlen l)); [|lia]. f_equal. apply pieces_go_fuel; rewrite length_drop; lia.
Qed.

Lemma pieces_spec l : concat (pieces l) = l /\ Forall (fun p => tlen p <= W) (pieces l).
Proof.
  pose proof W_pos. induction l as [l IH] using (induction_ltof1 _ (@length Z)). unfold ltof in IH.
  destruct (Z.le_gt_cases (tlen l) W) as [Hs|Hl].
  - rewrite pieces_short by done. simpl. rewrite app_nil_r. auto.
  - rewrite pieces_long by done. destruct (IH (drop (Z.to_nat W) l)) as [Hc Hf]; [rewrite length_drop; unfold tlen in *; lia|].
    simpl. rewrite Hc, take_drop. split; [done|]. constructor; [|done]. unfold tlen. rewrite length_take. lia.
Qed.

(** The loop holds the first characters of a line, as [readline(W + 1)] reads them. *)
Definition ahead (r : text) : text * text := take_line (Z.to_nat (W + 1)) r.

Lemma readline_ahead r : readline (W + 1) r = ahead r.
Proof. unfold readline, ahead. pose proof W_pos. destruct (Z.ltb_spec (W + 1) 0); [lia|done]. Qed.

Lemma ahead_short_term l r : no_lf l -> tlen l <= W -> ahead (l ++ LINEFEED :: r) = (l ++ [LINEFEED], r).
Proof. intros Hl Hw. apply take_line_term; [done|]. unfold tlen in Hw. lia. Qed.

Lemma ahead_short_last l : no_lf l -> tlen l <= W -> ahead l = (l, []).
Proof. intros Hl Hw. apply take_line_last; [done|]. unfold tlen in Hw. lia. Qed.

(** A long line: the loop writes [W] characters and holds the next ones. *)
Lemma ahead_long l r :
  no_lf l -> W < tlen l ->
  exists chunk source, ahead (l ++ r) = (chunk, source) /\ tlen chunk = W + 1 /\ ends_line chunk = false /\
    take (Z.to_nat W) chunk = take (Z.to_nat W) l /\
    (let '(more, source') := readline W source in (drop (Z.to_nat W) chunk ++ more, source')) = ahead (drop (Z.to_nat W) l ++ r).
Proof.
  intros Hl Hw. pose proof W_pos. exists (take (Z.to_nat (W + 1)) l), (drop (Z.to_nat (W + 1)) l ++ r). unfold tlen in *.
  split_and!.
  - apply take_line_part; [done|lia].
  - rewrite length_take. lia.
  - by apply ends_line_no_lf, no_lf_take.
  - by rewrite take_take, Nat.min_l by lia.
  - assert (Hx : (Z.to_nat W < length l)%nat) by lia. apply lookup_lt_is_Some in Hx as [x Hx].
    assert (Hd : drop (Z.to_nat W) l = x :: drop (Z.to_nat (W + 1)) l)
      by (rewrite (drop_S l x _ Hx); do 2 f_equal; lia).
    assert (Hxn : (x =? LINEFEED) = false) by (apply (no_lf_drop (Z.to_nat W)) in Hl; rewrite Hd in Hl; by apply no_lf_cons in Hl as [? _]).
    replace (Z.to_nat (W + 1)) with (S (Z.to_nat W)) in * by lia. rewrite (take_S_r l _ x Hx).
    rewrite drop_app_ge by (rewrite length_take; lia). rewrite length_take, Nat.min_l by lia. rewrite Nat.sub_diag.
    unfold readline, ahead. destruct (Z.ltb_spec W 0); [lia|]. rewrite Hd.
    replace (Z.to_nat (W + 1)) with (S (Z.to_nat W)) by lia. cbn [take_line app]. rewrite Hxn.
    by destruct (take_line (Z.to_nat W) (drop (S (Z.to_nat W)) l ++ r)).
Qed.

Lemma tlines_pieces_app (ps : list text) t : Forall no_lf ps -> tlines (concat (map (fun p => p ++ [LINEFEED]) ps) ++ t) = ps ++ tlines t.
Proof. induction 1 as [|p ps Hp _ IH]; [done|]. simpl. rewrite <- !app_assoc. simpl. by rewrite tlines_line, IH. Qed.

Lemma artifact_loop_lines fuel r :
  (length r < fuel)%nat -> (let '(chunk, source) := ahead r in tlines (artifact_loop fuel chunk source)) = concat (map pieces (tlines r)).
Proof.
  pose proof W_pos as HW. revert r. induction fuel as [|fuel IH]; intros r Hf; [lia|].
  destruct (text_cases r) as [->|Hr]; [unfold ahead; by destruct (Z.to_nat (W + 1))|].
  assert (Hlong : forall l t, no_lf l -> W < tlen l -> r = l ++ t ->
    (let '(chunk, source) := ahead r in tlines (artifact_loop (S fuel) chunk source))
    = take (Z.to_nat W) l :: concat (map pieces (tlines (drop (Z.to_nat W) l ++ t)))).
  { intros l t Hl Hw ->. destruct (ahead_long l t Hl Hw) as (chunk & source & -> & Hlen & He & Ht & Hm). cbn [artifact_loop].
    destruct chunk as [|c k] eqn:E; [unfold tlen in Hlen; simpl in Hlen; lia|]. rewrite <- E in *. rewrite He.
    destruct (Z.ltb_spec W (tlen chunk)); [|lia]. cbn [andb negb]. destruct (readline W source) as [more source'].
    rewrite Ht, <- app_assoc. cbn [app]. rewrite tlines_line by (by apply no_lf_take). f_equal.
    specialize (IH (drop (Z.to_nat W) l ++ t)). rewrite <- Hm in IH. apply IH.
    rewrite !length_app, length_drop in *. unfold tlen in Hw. lia. }
  destruct Hr as [(l & t & Hl & ->)|[Hl Hne]].
  - rewrite tlines_line by done. cbn [map concat]. destruct (Z.le_gt_cases (tlen l) W) as [Hw|Hw].
    + rewrite ahead_short_term by done. cbn [artifact_loop].
      destruct (l ++ [LINEFEED]) as [|c k] eqn:E; [by destruct l|]. rewrite <- E, ends_line_snoc, andb_false_r, readline_ahead.
      specialize (IH t). destruct (ahead t) as [next source]. rewrite <- app_assoc. cbn [app]. rewrite tlines_line, pieces_short by done.
      cbn [app]. f_equal. apply IH. rewrite length_app in Hf. simpl in Hf. lia.
    + rewrite (Hlong l (LINEFEED :: t)) by done. rewrite tlines_line by (by apply no_lf_drop). by rewrite (pieces_long l).
  - rewrite tlines_last by done. cbn [map concat]. rewrite app_nil_r. destruct (Z.le_gt_cases (tlen r) W) as [Hw|Hw].
    + rewrite ahead_short_last by done. cbn [artifact_loop]. destruct r as [|c k] eqn:E; [done|]. rewrite <- E in *.
      destruct (Z.ltb_spec W (tlen r)); [lia|]. cbn [andb]. rewrite readline_last by (apply no_lf_nil || (unfold tlen; simpl; lia)).
      replace (artifact_loop fuel [] []) with (@nil Z) by (by destruct fuel). rewrite app_nil_r, tlines_last, pieces_short by done. done.
    + rewrite (Hlong r []) by (done || by rewrite app_nil_r). rewrite app_nil_r, (pieces_long r) by done.
      rewrite tlines_last; [|by apply no_lf_drop|]. { cbn [map concat]. by rewrite app_nil_r. }
      intros E%(f_equal length). rewrite length_drop in E. simpl in E. unfold tlen in Hw. lia.
Qed.

Lemma artifact_lines source : tlines (artifact_text source) = concat (map pieces (tlines source)).
Proof.
  unfold artifact_text. rewrite readline_ahead. pose proof (artifact_loop_lines (S (length source)) source ltac:(lia)) as H.
  by destruct (ahead source).
Qed.

(** ** Following the offsets *)

(** A reader that asks for the page at [offset] and goes on where its status line
    says; the lines it was shown. *)
Fixpoint read_on (fuel : nat) (file : text) (limit budget offset : Z) : option (list text) :=
  match fuel with
  | O => None
  | S fuel' =>
      let '(skipped, rest) := skip_lines file (offset - 1) in
      if skipped <? offset - 1 then Some []
      else let p := read_page rest offset limit budget in
           match pg_next_offset p with
           | None => Some (pg_rendered_lines p)
           | Some next => l ← read_on fuel' file limit budget next; Some (pg_rendered_lines p ++ l)
           end
  end.

Lemma numbered_app n a b : numbered n (a ++ b) = numbered n a ++ numbered (n + Z.of_nat (length a)) b.
Proof.
  revert n. induction a as [|x a IH]; intros n; simpl; [by rewrite Z.add_0_r|]. rewrite IH. do 3 f_equal. lia.
Qed.

Lemma read_on_spec file limit budget :
  1 <= limit ->
  (forall i l, tlines file !! i = Some l -> tlen (line_prefix (1 + Z.of_nat i)) + escaped_length l <= budget) ->
  (forall i, (i <= length (tlines file))%nat -> notice_chars + tlen (line_prefix (1 + Z.of_nat i)) <= budget) ->
  forall fuel j, (j <= length (tlines file))%nat -> (length (tlines file) - j < fuel)%nat ->
  read_on fuel file limit budget (1 + Z.of_nat j) = Some (numbered (1 + Z.of_nat j) (drop j (tlines file))).
Proof.
  intros Hlim Hfit Hroom. induction fuel as [|fuel IH]; intros j Hj Hf; [lia|]. cbn [read_on].
  replace (1 + Z.of_nat j - 1) with (Z.of_nat j) by lia.
  destruct (skip_lines_spec file (Z.of_nat j)) as (rest & -> & Hrest); [lia|]. specialize (Hrest ltac:(lia)).
  rewrite Z.min_l by lia. rewrite Z.ltb_irrefl. rewrite Nat2Z.id in Hrest.
  destruct (read_page_spec rest (1 + Z.of_nat j) limit budget) as [k Hk]; [lia|].
  set (p := read_page _ _ _ _) in *. clearbody p. rewrite Hrest in Hk. destruct Hk as [H1 _ H3 _ H5 H6 H7].
  assert (Hshown : pg_rendered_lines p = numbered (1 + Z.of_nat j) (take k (drop j (tlines file)))).
  { destruct H3 as [H3|(-> & l & Hl & Hcut & _)]; [done|]. rewrite lookup_drop, Nat.add_0_r in Hl. specialize (Hfit j l Hl). lia. }
  rewrite length_drop in H1. destruct (pg_eof p) eqn:He.
  - destruct (H5 eq_refl) as [-> ->]. by rewrite Hshown, firstn_all.
  - rewrite (H6 eq_refl). specialize (H7 eq_refl Hlim ltac:(specialize (Hroom j Hj); lia)).
    replace (1 + Z.of_nat j + Z.of_nat k) with (1 + Z.of_nat (j + k)) by lia. rewrite IH by lia. simpl. rewrite Hshown.
    f_equal. rewrite <- drop_drop. rewrite <- (take_drop k (drop j (tlines file))) at 3. rewrite numbered_app.
    rewrite length_take, length_drop, Nat.min_l by lia. do 2 f_equal. lia.
Qed.

Lemma line_prefix_small z : 0 <= z < 10 ^ 8 -> tlen (line_prefix z) <= 10.
Proof. intros Hz. unfold line_prefix. rewrite tlen_app. destruct (small_decimal z Hz). change (tlen [124; 32]) with 2. lia. Qed.


