(* ===== verification/FileTools.v ===== *)
(** * Writing and reading files

    agent_core/atomic.py as the primitive operations of the file system it is made
    of, each of which may fail; agent_core/tools/files.py (write_file_bytes),
    agent_core/tools/paths.py (resolve_readable_path) and the tools edit_file,
    write_file and read_file.  The disk of the tools is that of [Patch]: a file is
    its text, or nothing when it is not UTF-8. *)

From stdpp Require Import base list strings pretty.
From Stdlib Require Import ZArith Lia Ascii.
From S2P Require Import Prelude PyData PyStr Json Content PyText JsonText Jsonl TextView Authority Patch.

(** ** atomic.py *)

(** The files of a directory by name; every disk there has been, the oldest first. *)
Record FileSystem := MkFS { fs_files : list (string * string); fs_past : list (list (string * string)); fs_io : nat }.

(** What a primitive does: it works, or it raises; a write that raises may have
    written a part. *)
Inductive IoOutcome := IoOk | IoFail (e : exn) (written : nat).

Section atomic.
Variable io : nat -> IoOutcome.

Definition primitive (done : list (string * string) -> list (string * string))
    (failed : nat -> list (string * string) -> list (string * string)) : M FileSystem unit := fun s =>
  match io (fs_io s) with
  | IoOk => (MkFS (done (fs_files s)) (fs_past s ++ [fs_files s]) (S (fs_io s)), Ok tt)
  | IoFail e n => (MkFS (failed n (fs_files s)) (fs_past s ++ [fs_files s]) (S (fs_io s)), Err e)
  end.

Definition untouched (n : nat) (d : list (string * string)) := d.

Definition make_parent : M FileSystem unit := primitive id untouched.
Definition make_temporary (temporary : string) : M FileSystem unit := primitive (dset temporary "") untouched.
Definition write_bytes (temporary data : string) : M FileSystem unit :=
  primitive (dset temporary data) (fun n => dset temporary (stake n data)).
Definition sync_file : M FileSystem unit := primitive id untouched.
Definition change_mode : M FileSystem unit := primitive id untouched.
Definition replace_file (temporary path : string) : M FileSystem unit :=
  primitive (fun d => match dget temporary d with Some b => dset path b (dpop temporary d) | None => d end) untouched.
(** [unlink(missing_ok=True)] *)
Definition unlink_missing_ok (temporary : string) : M FileSystem unit := primitive (dpop temporary) untouched.

(** [atomic_write_bytes]; [atomic_write_text] is the same on the encoded text.
    [temporary] is the new name [mkstemp] found. *)
Definition atomic_write_bytes (temporary path data : string) (mode : bool) : M FileSystem unit :=
  make_parent ;;;
  make_temporary temporary ;;;
  finally
    (write_bytes temporary data ;;;
     sync_file ;;;
     (if mode then change_mode else ret tt) ;;;
     replace_file temporary path)
    (unlink_missing_ok temporary).

Definition atomic_write_text (temporary path text : string) (mode : bool) : M FileSystem unit :=
  atomic_write_bytes temporary path (utf8_encode text) mode.
End atomic.

(** ** Text *)

(** [text.find(sub)] from the front. *)
Fixpoint find_sub (sub s : string) : option nat :=
  if startswith sub s then Some 0%nat
  else match s with
       | "" => None
       | String _ s' => match find_sub sub s' with Some k => Some (S k) | None => None end
       end.

(** [text.count(sub)] of a nonempty [sub]: occurrences that do not overlap, from
    the front; [skip] characters belong to the last one. *)
Fixpoint count_sub_go (sub : string) (skip : nat) (s : string) : Z :=
  match s with
  | "" => 0
  | String _ s' =>
      match skip with
      | S skip' => count_sub_go sub skip' s'
      | O => if startswith sub s then 1 + count_sub_go sub (String.length sub - 1) s' else count_sub_go sub 0 s'
      end
  end.
Definition count_sub (sub s : string) : Z := count_sub_go sub 0 s.

(** [text.replace(old, new, 1)] *)
Definition replace_first (old new s : string) : string :=
  match find_sub old s with
  | Some k => stake k s +:+ new +:+ sdrop (k + String.length old) s
  | None => s
  end.

(** ** The tools *)

Section tools.
Context `{Paths}.
Variable io_result : nat -> option exn.

Definition only_keys (allowed : list string) (arguments : list (string * json)) : bool :=
  forallb (fun k => name_in k allowed) (dkeys arguments).

(** tools/files.py: write_file_bytes *)
Definition write_file_bytes (path text : string) : M PatchState unit := disk_io io_result (dset path (Some text)).

(** EditFileTool.execute *)
Definition execute_edit (arguments : list (string * json)) : M PatchState json :=
  match dget "path" arguments, dget "old_text" arguments, dget "new_text" arguments with
  | path, old_text, new_text =>
      match path with
      | Some (JStr p) =>
          if negb (nonempty p) then fail (Exn EValueError "edit_file requires a non-empty string 'path'") else
          match old_text with
          | Some (JStr old) =>
              if negb (nonempty old) then fail (Exn EValueError "edit_file requires a non-empty string 'old_text'") else
              match new_text with
              | Some (JStr new) =>
                  if negb (only_keys ["path"; "old_text"; "new_text"] arguments)
                  then fail (Exn EValueError "edit_file accepts only 'path', 'old_text', and 'new_text'") else
                  file_path <- lift (resolve_path p) ;;
                  s <- get ;;
                  match dget file_path (ps_disk s) with
                  | None =>
                      if is_directory file_path then fail (Exn EIsADirectory ("[Errno 21] Is a directory: " +:+ repr_string file_path)) else
                      fail (Exn EFileNotFound ("[Errno 2] No such file or directory: " +:+ repr_string file_path))
                  | Some None => fail (Exn EUnicodeDecode "'utf-8' codec can't decode bytes")
                  | Some (Some content) =>
                      let occurrences := count_sub old content in
                      if occurrences =? 0 then fail (Exn EValueError "old_text was not found in the file") else
                      if 1 <? occurrences
                      then fail (Exn EValueError ("old_text appears " +:+ pretty occurrences +:+ " times; it must be unique")) else
                      write_file_bytes file_path (replace_first old new content) ;;;
                      ret (JObj [("path", JStr (display_path file_path)); ("replacements", JInt 1)])
                  end
              | _ => fail (Exn EValueError "edit_file requires a string 'new_text'")
              end
          | _ => fail (Exn EValueError "edit_file requires a non-empty string 'old_text'")
          end
      | _ => fail (Exn EValueError "edit_file requires a non-empty string 'path'")
      end
  end.

(** WriteFileTool.execute; creating a directory changes no file. *)
Definition execute_write (arguments : list (string * json)) : M PatchState json :=
  match dget "path" arguments with
  | Some (JStr p) =>
      if negb (nonempty p) then fail (Exn EValueError "write_file requires a non-empty string 'path'") else
      match dget "content" arguments with
      | Some (JStr content) =>
          match default (JBool false) (dget "overwrite" arguments) with
          | JBool overwrite =>
              if negb (only_keys ["path"; "content"; "overwrite"] arguments)
              then fail (Exn EValueError "write_file accepts only 'path', 'content', and 'overwrite'") else
              file_path <- lift (resolve_path p) ;;
              s <- get ;;
              let existed := path_exists (ps_disk s) file_path in
              if existed && negb overwrite
              then fail (Exn EValueError "file already exists; use edit_file, or explicitly set overwrite=true") else
              missing <- lift (missing_parents (ps_disk s) (parents_of file_path)) ;;
              for_each (fun _ => disk_io io_result id) missing ;;;
              write_file_bytes file_path content ;;;
              ret (JObj [("path", JStr (display_path file_path)); ("created", JBool (negb existed));
                         ("created_parent_dirs", JArr (map (fun d => JStr (display_path d)) missing));
                         ("bytes_written", JInt (utf8_len content))])
          | _ => fail (Exn EValueError "write_file requires a boolean 'overwrite'")
          end
      | _ => fail (Exn EValueError "write_file requires a string 'content'")
      end
  | _ => fail (Exn EValueError "write_file requires a non-empty string 'path'")
  end.

(** ** read_file *)

(** pathlib on the paths that start with the Session marker: the part behind it, the
    resolved location, whether that is inside of the sessions, the display form. *)
Class SessionRoot := {
  session_part : string -> option string;
  session_resolved : string -> string;
  within_sessions : string -> bool;
  as_posix : string -> string;
}.

(** tools/paths.py: resolve_readable_path *)
Definition resolve_readable_path `{SessionRoot} (path : string) : res (string * string) :=
  match session_part path with
  | Some relative =>
      let resolved := session_resolved relative in
      if within_sessions resolved then Ok (resolved, as_posix path)
      else value_error "session artifact path must stay within sessions"
  | None => resolved <~ resolve_path path ;; Ok (resolved, display_path resolved)
  end.

Definition positive_argument (name : string) (value : json) : res Z :=
  match value with
  | JInt z => if z <? 1 then value_error ("read_file requires '" +:+ name +:+ "' to be a positive integer") else Ok z
  | _ => value_error ("read_file requires '" +:+ name +:+ "' to be a positive integer")
  end.

(** [_parse_arguments] of read_file *)
Definition parse_read_arguments (arguments : list (string * json)) : res (string * Z * Z) :=
  match dget "path" arguments with
  | Some (JStr path) =>
      if negb (nonempty path) then value_error "read_file requires a non-empty string 'path'" else
      offset <~ positive_argument "offset" (default (JInt 1) (dget "offset" arguments)) ;;
      limit <~ positive_argument "limit" (default (JInt DEFAULT_READ_LIMIT) (dget "limit" arguments)) ;;
      if only_keys ["path"; "offset"; "limit"] arguments then Ok (path, offset, limit)
      else value_error "read_file accepts only 'path', 'offset', and 'limit'"
  | _ => value_error "read_file requires a non-empty string 'path'"
  end.

(** ReadFileTool.execute; [file_at]: the size and the text of a file, see [read_text_file]. *)
Definition execute_read `{SessionRoot} `{FloatText} (file_at : string -> res (Z * option text)) (arguments : list (string * json))
    : res (list (string * json) * text) :=
  a <~ parse_read_arguments arguments ;;
  let '(path, offset, limit) := a in
  found <~ resolve_readable_path path ;;
  file <~ file_at (fst found) ;;
  read_text_file [("path", JStr (snd found))] offset limit "read_file" (fst file) (snd file).
End tools.
