(* ===== verification/FileToolsThms.v ===== *)
(** * Writing files: nothing is lost

    A file written through atomic.py is at every moment the old or the new one;
    edit_file replaces the first occurrence of a text, and accepts it when all
    other occurrences overlap that one. *)

From stdpp Require Import base list strings pretty.
From Stdlib Require Import ZArith Lia Ascii.
From S2P Require Import Prelude PyData PyStr Json Content PyText JsonText Jsonl TextView Authority Patch FileTools.

(** ** atomic.py *)

Section atomic.
Context (io : nat -> IoOutcome) (temporary path data : string) (mode : bool) (old : list (string * string)).
Context (Hne : temporary <> path).

(** A disk that differs from [old] at most in the temporary file and shows the old
    or the new file. *)
Definition intact (d : list (string * string)) : Prop :=
  (dget path d = dget path old \/ dget path d = Some data) /\
  (forall q, q <> path -> q <> temporary -> dget q d = dget q old).

Lemma intact_old : intact old.
Proof. split; [by left|done]. Qed.

Lemma intact_temporary b d : intact d -> intact (dset temporary b d).
Proof.
  intros [H1 H2]. split; [by rewrite dget_dset_ne|]. intros q Hq Hqt. rewrite dget_dset_ne by done. auto.
Qed.

Lemma intact_unlink d : intact d -> intact (dpop temporary d).
Proof.
  intros [H1 H2]. split; [by rewrite dget_dpop_ne|]. intros q Hq Hqt. rewrite dget_dpop_ne by done. auto.
Qed.

Lemma intact_replace d : intact d -> intact (dset path data d).
Proof.
  intros [H1 H2]. split; [right; by rewrite dget_dset_eq|]. intros q Hq Hqt. rewrite dget_dset_ne by done. auto.
Qed.
#[local] Hint Resolve intact_old intact_temporary intact_unlink intact_replace : core.


Lemma temporary_removed (d : list (string * string)) : NoDup (dkeys d) -> dget temporary (dpop temporary d) = None.
Proof. apply dget_dpop_eq. Qed.

Lemma temporary_replaced (d : list (string * string)) : NoDup (dkeys d) -> dget temporary (dset path data (dpop temporary d)) = None.
Proof. intros Hd. rewrite dget_dset_ne by done. by apply dget_dpop_eq. Qed.
End atomic.

#[local] Hint Resolve intact_old intact_temporary intact_unlink intact_replace temporary_removed temporary_replaced
  dset_NoDup dpop_NoDup : atomic.

(** What a call that started on the disk [old] and ended in [x] has done. *)
Definition wrote (io : nat -> IoOutcome) (temporary path data : string) (old : list (string * string))
    (x : FileSystem * res unit) : Prop :=
  Forall (intact temporary path data old) (fs_files (fst x) :: fs_past (fst x)) /\
  match snd x with
  | Ok _ => dget path (fs_files (fst x)) = Some data /\ dget temporary (fs_files (fst x)) = None
  | Err _ =>
      (dget path (fs_files (fst x)) = dget path old \/
       dget path (fs_files (fst x)) = Some data /\ dget temporary (fs_files (fst x)) = None) /\
      (dget temporary (fs_files (fst x)) = None \/ exists e n, io (Nat.pred (fs_io (fst x))) = IoFail e n)
  end.

(** C32: whichever operations of the file system fail, and wherever the process is
    stopped, a file written with [atomic_write_bytes] is the old file or the
    complete new one, and no other file is touched; when the call returns it is
    the new file and the temporary file is gone, and when it raises before the
    replacement it is the old one; the temporary file stays only if removing it
    fails. *)
Theorem atomic_write_all_or_nothing io temporary path data mode s :
  temporary <> path -> NoDup (dkeys (fs_files s)) -> dget temporary (fs_files s) = None -> fs_past s = [] ->
  wrote io temporary path data (fs_files s) (atomic_write_bytes io temporary path data mode s).
Proof.
  intros Hne Hnd Hfresh Hpast. destruct s as [old past n]. simpl in *. subst past.
  unfold atomic_write_bytes, make_parent, make_temporary, write_bytes, sync_file, change_mode, replace_file, unlink_missing_ok.
  unfold bind, finally, primitive, untouched, ret.
  destruct mode; cbn -[wrote dget dset dpop];
    repeat (match goal with |- context [match io ?k with _ => _ end] => destruct (io k) eqn:? end; cbn -[wrote dget dset dpop]);
    rewrite ?dget_dset_eq.
  all: split; cbn -[dget dset dpop]; [repeat (apply Forall_cons; split); auto 8 with atomic|].
  all: rewrite ?dget_dpop_ne, ?dget_dset_eq, ?dget_dset_ne, ?dget_dpop_ne, ?dget_dset_eq, ?dget_dset_ne by done.
  all: split; eauto 10 with atomic.
Qed.

(** The write of a new version that is cut short: the old file is still there. *)
Lemma atomic_write_all_or_nothing_witness :
  let io n := match n with 2%nat => IoFail (Exn EOSError "No space left on device") 3 | _ => IoOk end in
  let s := MkFS [("state.json", "old")] [] 0 in
  wrote io ".state.json.tmp" "state.json" "new version" (fs_files s) (atomic_write_bytes io ".state.json.tmp" "state.json" "new version" false s) /\
  fs_files (fst (atomic_write_bytes io ".state.json.tmp" "state.json" "new version" false s)) = [("state.json", "old")].
Proof.
  split; [|by vm_compute].
  apply (atomic_write_all_or_nothing _ ".state.json.tmp" "state.json" "new version" false (MkFS [("state.json", "old")] [] 0)); try done.
  apply NoDup_singleton.
Defined.

(** ** Occurrences of a text *)

Definition occurs (sub s : string) (k : nat) : bool := startswith sub (sdrop k s).

Lemma startswith_length sub s : startswith sub s = true -> (String.length sub <= String.length s)%nat.
Proof. intros H. rewrite (startswith_sdrop _ _ H), length_sapp. lia. Qed.

Lemma find_sub_some sub s k :
  find_sub sub s = Some k -> occurs sub s k = true /\ (forall j, (j < k)%nat -> occurs sub s j = false).
Proof.
  revert k. induction s as [|c s IH]; intros k; cbn [find_sub].
  - destruct (startswith sub "") eqn:E; [|done]. intros [= <-]. split; [done|lia].
  - destruct (startswith sub (String c s)) eqn:E; [intros [= <-]; split; [done|lia]|].
    destruct (find_sub sub s) as [k'|] eqn:Ef; [|done]. intros [= <-]. destruct (IH k' eq_refl) as [Ho Hj].
    split; [done|]. intros [|j] Hlt; [done|]. apply (Hj j). lia.
Qed.

Lemma find_sub_none sub s : find_sub sub s = None -> forall j, occurs sub s j = false.
Proof.
  induction s as [|c s IH]; cbn [find_sub].
  - destruct (startswith sub "") eqn:E; [done|]. intros _ j. unfold occurs. by destruct j.
  - destruct (startswith sub (String c s)) eqn:E; [done|]. destruct (find_sub sub s); [done|]. intros _ [|j]; [done|]. by apply IH.
Qed.

Lemma count_sub_skip sub skip s : count_sub_go sub skip s = count_sub_go sub 0 (sdrop skip s).
Proof. revert skip. induction s as [|c s IH]; intros [|skip]; try done. cbn [count_sub_go sdrop]. apply IH. Qed.

Lemma count_sub_nonneg sub skip s : 0 <= count_sub_go sub skip s.
Proof.
  revert skip. induction s as [|c s IH]; intros [|skip]; cbn [count_sub_go]; try lia; [|apply IH].
  destruct (startswith sub (String c s)); [|apply IH]. specialize (IH (String.length sub - 1)%nat). lia.
Qed.

Lemma sdrop_sdrop a b s : sdrop a (sdrop b s) = sdrop (b + a) s.
Proof. revert b. induction s as [|c s IH]; intros [|b]; try done; [by destruct a|]. cbn [sdrop]. apply IH. Qed.

(** The count is one for the first occurrence and the count behind it. *)
Lemma count_sub_find sub s :
  sub <> "" ->
  count_sub sub s = match find_sub sub s with
                    | None => 0
                    | Some k => 1 + count_sub sub (sdrop (k + String.length sub) s)
                    end.
Proof.
  intros Hne. unfold count_sub. induction s as [|c s IH]; cbn [find_sub count_sub_go].
  - destruct sub; done.
  - destruct (startswith sub (String c s)).
    + rewrite count_sub_skip. f_equal. f_equal. destruct sub as [|d sub]; [done|]. simpl. by rewrite Nat.sub_0_r.
    + rewrite IH. by destruct (find_sub sub s).
Qed.

Lemma count_sub_one sub s :
  sub <> "" -> count_sub sub s = 1 ->
  exists k, find_sub sub s = Some k /\ occurs sub s k = true /\
    (forall j, occurs sub s j = true -> (k <= j < k + String.length sub)%nat).
Proof.
  intros Hne Hc. rewrite count_sub_find in Hc by done. destruct (find_sub sub s) as [k|] eqn:E; [|done].
  destruct (find_sub_some _ _ _ E) as [Ho Hlt]. exists k. split_and!; [done|done|]. intros j Hj.
  destruct (Nat.lt_ge_cases j k) as [H|H]; [by rewrite Hlt in Hj|]. split; [done|].
  apply Nat.nle_gt. intros Hge. rewrite count_sub_find in Hc by done.
  destruct (find_sub sub (sdrop (k + String.length sub) s)) eqn:E2.
  - pose proof (count_sub_nonneg sub 0 (sdrop (n + String.length sub) (sdrop (k + String.length sub) s))). unfold count_sub in Hc. lia.
  - pose proof (find_sub_none _ _ E2 (j - (k + String.length sub))) as Hn. unfold occurs in Hn. rewrite sdrop_sdrop in Hn.
    replace (k + String.length sub + (j - (k + String.length sub)))%nat with j in Hn by lia. unfold occurs in Hj. congruence.
Qed.

Lemma count_sub_zero sub s : sub <> "" -> count_sub sub s = 0 <-> forall j, occurs sub s j = false.
Proof.
  intros Hne. rewrite count_sub_find by done. destruct (find_sub sub s) as [k|] eqn:E.
  - pose proof (count_sub_nonneg sub 0 (sdrop (k + String.length sub) s)). unfold count_sub. split; [lia|].
    intros H'. destruct (find_sub_some _ _ _ E) as [Ho _]. by rewrite H' in Ho.
  - split; [|done]. intros _. by apply find_sub_none.
Qed.

Lemma count_sub_many sub s :
  sub <> "" -> 1 < count_sub sub s ->
  exists j k, occurs sub s j = true /\ occurs sub s k = true /\ (j + String.length sub <= k)%nat.
Proof.
  intros Hne Hc. rewrite count_sub_find in Hc by done. destruct (find_sub sub s) as [j|] eqn:E; [|done].
  destruct (find_sub_some _ _ _ E) as [Ho _]. rewrite count_sub_find in Hc by done.
  destruct (find_sub sub (sdrop (j + String.length sub) s)) as [k|] eqn:E2; [|done].
  destruct (find_sub_some _ _ _ E2) as [Ho2 _]. unfold occurs in Ho2. rewrite sdrop_sdrop in Ho2.
  exists j, (j + String.length sub + k)%nat. split_and!; [done|done|lia].
Qed.

(** ** edit_file *)

Definition edit_arguments (path old new : string) : list (string * json) :=
  [("path", JStr path); ("old_text", JStr old); ("new_text", JStr new)].

(** Edit_file replaces the first occurrence of the old text and nothing else,
    and does so only when every occurrence overlaps that one; otherwise (no
    occurrence, two that do not overlap, or a failing write) it raises and the
    disk stays as it was. *)
Theorem edit_replaces_one `{Paths} (io_result : nat -> option exn) path old new file_path content s :
  path <> "" -> old <> "" -> resolve_path path = Ok file_path -> dget file_path (ps_disk s) = Some (Some content) ->
  match execute_edit io_result (edit_arguments path old new) s with
  | (s', Ok _) =>
      exists k, occurs old content k = true /\
        (forall j, occurs old content j = true -> (k <= j < k + String.length old)%nat) /\
        ps_disk s' = dset file_path (Some (stake k content +:+ new +:+ sdrop (k + String.length old) content)) (ps_disk s)
  | (s', Err e) =>
      ps_disk s' = ps_disk s /\
      ((forall j, occurs old content j = false) \/
       (exists j k, occurs old content j = true /\ occurs old content k = true /\ (j + String.length old <= k)%nat) \/
       io_result (ps_io s) = Some e)
  end.
Proof.
  intros Hp Ho Hr Hd. unfold execute_edit, edit_arguments, bind, lift, get. simpl.
  apply nonempty_true in Hp as ->. pose proof Ho as ->%nonempty_true. simpl. rewrite Hr. simpl. rewrite Hd.
  pose proof (count_sub_nonneg old 0 content) as Hn. fold (count_sub old content) in Hn.
  destruct (Z.eqb_spec (count_sub old content) 0) as [Hz|Hz].
  { simpl. split; [done|]. left. by apply count_sub_zero. }
  destruct (Z.ltb_spec 1 (count_sub old content)) as [Hm|Hm].
  { simpl. split; [done|]. right. left. by apply count_sub_many. }
  unfold write_file_bytes, disk_io. destruct (io_result (ps_io s)) as [e|] eqn:E; simpl; [by auto|].
  destruct (count_sub_one old content Ho ltac:(lia)) as (k & Hf & Hk & Hj). exists k. split_and!; [done|done|].
  unfold replace_first. by rewrite Hf.
Qed.

#[local] Instance edit_paths : Paths := {|
  workspace_path := "/w"; is_absolute := startswith "/"; resolved p := "/w/" +:+ p; within := startswith "/w";
  display_path := sdrop 3; parents_of _ := ["/w"]; is_directory := String.eqb "/w" |}.

(** Two occurrences of the old text overlap: the edit is accepted although the text is
    not unique. *)
Lemma edit_replaces_one_witness :
  let s := MkPatchState [("/w/a.txt", Some "xaaay")] 0 in
  (occurs "aa" "xaaay" 1 = true /\ occurs "aa" "xaaay" 2 = true) /\
  ps_disk (fst (execute_edit (fun _ => None) (edit_arguments "a.txt" "aa" "b") s)) = [("/w/a.txt", Some "xbay")] /\
  exists k, occurs "aa" "xaaay" k = true /\ (forall j, occurs "aa" "xaaay" j = true -> (k <= j < k + String.length "aa")%nat).
Proof.
  split; [split; reflexivity|]. split; [reflexivity|].
  pose proof (edit_replaces_one (fun _ => None) "a.txt" "aa" "b" "/w/a.txt" "xaaay" (MkPatchState [("/w/a.txt", Some "xaaay")] 0)) as H.
  destruct H as (k & Hk & Hj & _); [done..|]. by exists k.
Defined.
