(* ===== verification/Normalizer.v ===== *)
(** * Tool results that are too long

    agent_core/tool_result.py: a result whose envelope exceeds the limit, or that
    brings a writer of its own, is stored as a reading view and replaced by a
    summary.  The hooks of a result (its writer, preview and cleanup) and the file
    system are parameters; a stored artifact is a text of [TextView]. *)

From stdpp Require Import base list strings pretty.
From Stdlib Require Import ZArith Lia Ascii.
From S2P Require Import Prelude PyData PyStr Json Content PyText JsonText SessionStore TextView.

Definition DEFAULT_TOOL_RESULT_PREVIEW_CHARS : Z := 1200.

Section body.
Context `{FloatText}.

(** [json.dumps(j, ensure_ascii=False, indent=2)] at the given depth. *)
Definition indentation (depth : nat) : string := repeat_char (2 * depth) SPC.

Fixpoint dumps_indent (depth : nat) (j : json) : string :=
  match j with
  | JArr (x :: l) =>
      "[" +:+ NL +:+ sjoin ("," +:+ NL) (map (fun v => indentation (S depth) +:+ dumps_indent (S depth) v) (x :: l))
      +:+ NL +:+ indentation depth +:+ "]"
  | JObj (kv :: d) =>
      "{" +:+ NL +:+ sjoin ("," +:+ NL)
        (map (fun kv => indentation (S depth) +:+ json_string (fst kv) +:+ ": " +:+ dumps_indent (S depth) (snd kv)) (kv :: d))
      +:+ NL +:+ indentation depth +:+ "}"
  | _ => dumps j
  end.

(** [_artifact_sections] *)
Fixpoint artifact_sections (value : json) (path : string) : list string :=
  match value with
  | JObj (kv :: d) =>
      concat (map (fun kv => artifact_sections (snd kv) (path +:+ "[" +:+ json_string (fst kv) +:+ "]")) (kv :: d))
  | JArr (x :: l) =>
      (fix items (index : nat) (l : list json) : list string :=
         match l with
         | [] => []
         | item :: l' => artifact_sections item (path +:+ "[" +:+ pretty index +:+ "]") ++ items (S index) l'
         end) 0%nat (x :: l)
  | JStr s => ["--- " +:+ path +:+ " (text) ---" +:+ NL +:+ s]
  | _ => ["--- " +:+ path +:+ " (json) ---" +:+ NL +:+ dumps value]
  end.

Definition artifact_body (result : ToolResult) : string :=
  match tr_error result with
  | Some e =>
      "Tool '" +:+ tr_name result +:+ "' failed." +:+ NL +:+ "error_type: " +:+ te_type e +:+ NL +:+ NL +:+ te_message e
      +:+ match te_details e with
          | Some details => NL +:+ NL +:+ dumps_indent 0 (JObj details)
          | None => ""
          end
  | None => match tr_output result with
            | JStr s => s
            | output => sjoin (NL +:+ NL) (artifact_sections output "$")
            end
  end.
End body.

(** ** normalize *)

(** The stored artifacts by their path, and how often the cleanup was called. *)
Record Spool := MkSpool { sp_artifacts : list (string * text); sp_cleaned : nat }.

(** The hooks of a result: the text its writer leaves to be read (or what writing,
    opening or decoding raises), the preview for a budget, what the cleanup raises. *)
Record ArtifactHooks := MkHooks {
  artifact_writer : option (res text);
  artifact_preview : option (Z -> res json);
  artifact_cleanup : option (option exn);
}.

Section normalizer.
Context `{FloatText}.
(** [artifact_path_prefix]: ".nosis/sessions" and the session's directory; [contained]:
    whether the resolved path of a file name stays within the sessions; [make_directory],
    [open_artifact]: what creating the directory and writing the artifact raise. *)
Variables (max_chars preview_chars : Z) (artifact_path_prefix : string) (contained : string -> bool).
Variables (make_directory open_artifact : option exn).

(** The checks of [__init__]; [prefix_ok]: the artifact directory is inside of the sessions. *)
Definition normalizer_init (prefix_ok : bool) : res unit :=
  if max_chars <? 1 then value_error "max_chars must be a positive integer" else
  if preview_chars <? 1 then value_error "preview_chars must be a positive integer" else
  if prefix_ok then Ok tt else value_error "session artifact path must stay within sessions".

Definition artifact_name (result : ToolResult) : string := quote (tr_tool_call_id result) +:+ ".txt".
Definition relative_path (result : ToolResult) : string := artifact_path_prefix +:+ "/" +:+ artifact_name result.

(** [_absolute_artifact_path] *)
Definition absolute_artifact_path (name : string) : res unit :=
  if contained name then Ok tt else value_error "session artifact path must stay within sessions".

Definition raises (e : option exn) : M Spool unit := match e with Some e => fail e | None => ret tt end.

Definition run_cleanup (hooks : ArtifactHooks) : M Spool unit :=
  match artifact_cleanup hooks with
  | Some e => modify (fun s => MkSpool (sp_artifacts s) (S (sp_cleaned s))) ;;; raises e
  | None => ret tt
  end.

(** [write_text_artifact(absolute_path, source)] *)
Definition store_artifact (path : string) (source : text) : M Spool Z :=
  raises open_artifact ;;;
  let '(written, size_chars) := write_text_artifact source in
  modify (fun s => MkSpool (dset path written (sp_artifacts s)) (sp_cleaned s)) ;;;
  ret size_chars.

Definition read_instruction (path : string) : string :=
  "Use read_file with path '" +:+ path +:+ "' to read the complete tool result. "
  +:+ "It is a reading view with long lines split; page through it with 'offset' when one read does not reach the end.".

Definition summary (path : string) (size_chars : Z) (preview : json) : json :=
  JObj [("artifact_path", JStr path); ("size_chars", JInt size_chars); ("preview", preview);
        ("read_instruction", JStr (read_instruction path))].

Definition json_budget (path : string) (size_chars : Z) : Z := max_chars - slen (dumps (summary path size_chars JNull)) + 4.

Definition over_budget (result : ToolResult) (preview : json) (budget : Z) (normalized : string) : exn :=
  Exn EValueError ("artifact_preview for tool '" +:+ tr_name result +:+ "' exceeds its JSON budget: serialized preview has "
    +:+ pretty (slen (dumps preview)) +:+ " characters, allowed " +:+ pretty budget +:+ "; normalized result has "
    +:+ pretty (slen normalized) +:+ " characters, limit " +:+ pretty max_chars).

(** The [try] block of [normalize]. *)
Definition spill (result : ToolResult) (hooks : ArtifactHooks) : M Spool string :=
  lift (absolute_artifact_path (artifact_name result)) ;;;
  raises make_directory ;;;
  let path := relative_path result in
  size_chars <- match artifact_writer hooks with
                | Some source => t <- lift source ;; store_artifact path (translate t)
                | None => store_artifact path (translate (txt (artifact_body result)))
                end ;;
  match artifact_preview hooks with
  | Some preview =>
      let budget := json_budget path size_chars in
      value <- lift (preview budget) ;;
      let normalized := dumps (summary path size_chars value) in
      if max_chars <? slen normalized then fail (over_budget result value budget normalized) else ret normalized
  | None => ret (dumps (summary path size_chars (JStr (stake (Z.to_nat preview_chars) (artifact_body result)))))
  end.

Definition normalize (result : ToolResult) (hooks : ArtifactHooks) : M Spool string :=
  let content := dumps (to_content_json result) in
  match artifact_writer hooks with
  | None => if slen content <=? max_chars then run_cleanup hooks ;;; ret content
            else finally (spill result hooks) (run_cleanup hooks)
  | Some _ => finally (spill result hooks) (run_cleanup hooks)
  end.
End normalizer.
