(* ===== verification/NormalizerThms.v ===== *)
(** * Tool results that are too long: what the model gets

    Every branch of [normalize]: what is returned, what is stored, that the hook
    which frees a spooled result runs once, and that the budget handed to a
    preview is exactly the room that is left. *)

From stdpp Require Import base list strings pretty.
From Stdlib Require Import ZArith Lia Ascii.
From S2P Require Import Prelude PyData PyStr Json Content PyText JsonText SessionStore TextView TextViewThms Normalizer.

Section normalizer.
Context `{FloatText}.
Context (max_chars preview_chars : Z) (prefix : string) (contained : string -> bool) (make_directory open_artifact : option exn).

(** The serialized summary grows with its preview only. *)
Lemma summary_length path size v :
  slen (dumps (summary path size v)) = slen (dumps (summary path size JNull)) - 4 + slen (dumps v).
Proof.
  unfold slen.
  assert (Hd : forall u, String.length (dumps (summary path size u)) = (String.length (dumps (summary path size (JStr ""))) - 2 + String.length (dumps u))%nat).
  { intros u. change (dumps (summary path size u)) with
      ("{" +:+ (member_text ("artifact_path", JStr path) +:+ ", " +:+ member_text ("size_chars", JInt size) +:+ ", "
       +:+ (json_string "preview" +:+ ": " +:+ dumps u) +:+ ", " +:+ member_text ("read_instruction", JStr (read_instruction path))) +:+ "}").
    change (dumps (summary path size (JStr ""))) with
      ("{" +:+ (member_text ("artifact_path", JStr path) +:+ ", " +:+ member_text ("size_chars", JInt size) +:+ ", "
       +:+ (json_string "preview" +:+ ": " +:+ json_string "") +:+ ", " +:+ member_text ("read_instruction", JStr (read_instruction path))) +:+ "}").
    rewrite !length_sapp. simpl (String.length (json_string "")). lia. }
  assert (Hs : (2 <= String.length (dumps (summary path size (JStr ""))))%nat).
  { change (dumps (summary path size (JStr ""))) with
      ("{" +:+ (sjoin ", " (map member_text [("artifact_path", JStr path); ("size_chars", JInt size); ("preview", JStr "");
        ("read_instruction", JStr (read_instruction path))])) +:+ "}"). rewrite !length_sapp. simpl (String.length "{"). simpl (String.length "}"). lia. }
  rewrite (Hd v), (Hd JNull). change (String.length (dumps JNull)) with 4%nat. lia.
Qed.

(** The room a preview has. *)
Lemma json_budget_exact path size v :
  slen (dumps v) <= json_budget max_chars path size <-> slen (dumps (summary path size v)) <= max_chars.
Proof. rewrite summary_length. unfold json_budget. lia. Qed.

Definition cleaned_once (hooks : ArtifactHooks) (s s' : Spool) : Prop :=
  sp_cleaned s' = (sp_cleaned s + match artifact_cleanup hooks with Some _ => 1 | None => 0 end)%nat.

Lemma run_cleanup_effect hooks s :
  exists s', sp_artifacts s' = sp_artifacts s /\ cleaned_once hooks s s' /\
    run_cleanup hooks s = (s', match artifact_cleanup hooks with Some (Some e) => Err e | _ => Ok tt end).
Proof.
  unfold run_cleanup, cleaned_once, bind, modify, raises. destruct (artifact_cleanup hooks) as [[e|]|];
    (eexists; split; [|split; [|reflexivity]]; simpl; [done|lia]).
Qed.

(** What is read from the source of a result. *)
Definition source_text (result : ToolResult) (hooks : ArtifactHooks) : res text :=
  match artifact_writer hooks with Some source => source | None => Ok (txt (artifact_body result)) end.

Lemma spill_effect result hooks s :
  let path := relative_path prefix result in
  match spill max_chars preview_chars prefix contained make_directory open_artifact result hooks s with
  | (s', r) =>
      sp_cleaned s' = sp_cleaned s /\
      match r with
      | Ok out =>
          exists source preview, source_text result hooks = Ok source /\
            let view := artifact_text (translate source) in
            sp_artifacts s' = dset path view (sp_artifacts s) /\ out = dumps (summary path (tlen view) preview) /\
            match artifact_preview hooks with
            | Some hook => hook (json_budget max_chars path (tlen view)) = Ok preview /\ slen out <= max_chars
            | None => preview = JStr (stake (Z.to_nat preview_chars) (artifact_body result))
            end
      | Err e => sp_artifacts s' = sp_artifacts s \/ exists source, source_text result hooks = Ok source /\
          sp_artifacts s' = dset path (artifact_text (translate source)) (sp_artifacts s)
      end
  end.
Proof.
  unfold spill, store_artifact, source_text, absolute_artifact_path, raises, bind, lift, ret, fail, modify. simpl.
  destruct (contained (artifact_name result)); simpl; [|by auto]. destruct make_directory; simpl; [by auto|].
  destruct (artifact_writer hooks) as [[source|e]|]; simpl; [|by auto|];
    (destruct open_artifact; simpl; [by auto|]);
    (destruct (artifact_preview hooks) as [hook|]; simpl; [|by eauto 8]);
    (match goal with |- context [hook ?b] => destruct (hook b) as [v|e] eqn:E; simpl; [|by eauto 8] end);
    (match goal with |- context [max_chars <? ?n] => destruct (Z.ltb_spec max_chars n) end; simpl; [by eauto 8|]);
    (split; [done|]); eexists _, v; split_and!; auto.
Qed.

(** A spilled result: the stored view and the summary that is returned. *)
Definition spilled (result : ToolResult) (hooks : ArtifactHooks) (s s' : Spool) (out : string) : Prop :=
  exists source preview, source_text result hooks = Ok source /\
    let path := relative_path prefix result in
    let view := artifact_text (translate source) in
    sp_artifacts s' = dset path view (sp_artifacts s) /\ out = dumps (summary path (tlen view) preview) /\
    match artifact_preview hooks with
    | Some hook =>
        hook (json_budget max_chars path (tlen view)) = Ok preview /\ slen out <= max_chars /\
        forall v, slen (dumps v) <= json_budget max_chars path (tlen view) <-> slen (dumps (summary path (tlen view) v)) <= max_chars
    | None => preview = JStr (stake (Z.to_nat preview_chars) (artifact_body result))
    end.

Lemma spill_then_cleanup result hooks s :
  match finally (spill max_chars preview_chars prefix contained make_directory open_artifact result hooks) (run_cleanup hooks) s with
  | (s', Err _) => cleaned_once hooks s s'
  | (s', Ok out) => cleaned_once hooks s s' /\ spilled result hooks s s' out
  end.
Proof.
  pose proof (spill_effect result hooks s) as Hs. unfold finally.
  destruct (spill _ _ _ _ _ _ result hooks s) as [s1 r1]. destruct Hs as [Hc Hr].
  destruct (run_cleanup_effect hooks s1) as (s2 & Ha & Hc2 & ->). unfold cleaned_once in *. rewrite Hc in Hc2.
  destruct (artifact_cleanup hooks) as [[e|]|]; [exact Hc2|..]; (destruct r1 as [out|e]; [|exact Hc2]); (split; [exact Hc2|]).
  all: destruct Hr as (source & preview & Hsrc & Hart & Hout & Hp); exists source, preview; rewrite Ha.
  all: split_and!; [done..|]; destruct (artifact_preview hooks); [|done].
  all: destruct Hp as [Hh Hl]; split_and!; [done..|]; intros v; apply json_budget_exact.
Qed.

(** Whatever a tool result holds and whatever its hooks and the file system do,
    [normalize] calls the cleanup hook exactly once; what it returns is the
    envelope itself, unchanged and within the limit, when the result brings no
    writer and fits, and otherwise a summary of the complete reading view stored
    under its path, within the limit when the result makes its own preview.  The
    budget a preview gets is exact: the summary fits if and only if the
    serialized preview does. *)
Theorem normalize_outcome (result : ToolResult) (hooks : ArtifactHooks) (s : Spool) :
  let content := dumps (to_content_json result) in
  let inline := match artifact_writer hooks with None => slen content <=? max_chars | Some _ => false end in
  match normalize max_chars preview_chars prefix contained make_directory open_artifact result hooks s with
  | (s', Err _) => cleaned_once hooks s s'
  | (s', Ok out) =>
      cleaned_once hooks s s' /\
      if inline then out = content /\ slen out <= max_chars /\ sp_artifacts s' = sp_artifacts s
      else spilled result hooks s s' out
  end.
Proof.
  intros content inline. pose proof (spill_then_cleanup result hooks s) as Hspill. unfold normalize, inline. fold content.
  destruct (artifact_writer hooks) as [w|]; [done|].
  destruct (Z.leb_spec (slen content) max_chars) as [Hle|Hgt]; [|done].
  unfold bind. destruct (run_cleanup_effect hooks s) as (s2 & Ha & Hc2 & ->).
  destruct (artifact_cleanup hooks) as [[e|]|]; [exact Hc2|..]; simpl; auto.
Qed.
End normalizer.
