(* ===== verification/Permissions.v ===== *)
(** * Approvals and permissions

    agent_core/approval.py ([approval_description]), agent_core/tools/policy.py
    (the approval policies and their composition) and the [PermissionController]
    of agent_core/permissions.py.  A policy is an action on the session that
    says whether the user was consulted and raises [PermissionError] when the
    user refuses; the interface's callback [request_permission] is a parameter
    of every policy, as in the code. *)

From stdpp Require Import base list strings pretty.
From Stdlib Require Import ZArith Lia Ascii.
From S2P Require Import Prelude PyData PyStr Json PyTime Content Plan Authority Message Session PyText.

(** ** agent_core/approval.py *)

Definition MAX_DESCRIPTION_CHARS : Z := 2048.
Definition PREVIEW_LINES : nat := 3.
Definition PREVIEW_WIDTH : Z := 120.
Definition MAX_FILE_PATHS : Z := 8.
Definition PATCH_FILE_HEADERS : list string := ["*** Add File: "; "*** Update File: "; "*** Delete File: "].

Definition clip (text : string) (limit : Z) : string :=
  if slen text <=? limit then text else stake (Z.to_nat (limit - 3)) text +:+ "...".

Definition is_crlf (c : ascii) : bool := one_of [CR; LF] c.
Definition rstrip_crlf (s : string) : string := rstrip_by is_crlf s.

Definition text_stats (text : string) : string :=
  let lines := count_breaks text
    + (if nonempty text && negb (endswith_char CR text || endswith_char LF text) then 1 else 0) in
  pretty (utf8_len text) +:+ " bytes, " +:+ pretty lines +:+ " lines".

(** The state of the scan of a patch: files, preview and the file count. *)
Definition patch_scan (acc : list string * list string * Z) (line : string) : list string * list string * Z :=
  let '(files, preview, file_count) := acc in
  if existsb (fun h => startswith h line) PATCH_FILE_HEADERS then
    (if zlen files <? MAX_FILE_PATHS then files ++ [clip (rstrip_crlf (sdrop 4 line)) 160] else files,
     preview, file_count + 1)
  else if existsb (fun h => startswith h line) ["+"; "-"; " "] && (zlen preview <? Z.of_nat PREVIEW_LINES) then
    (files, preview ++ [clip (rstrip_crlf line) PREVIEW_WIDTH], file_count)
  else acc.

Definition patch_parts (patch : string) : list string :=
  let '(files, preview, file_count) := fold_left patch_scan (io_lines patch) ([], [], 0) in
  ("Patch: " +:+ text_stats patch +:+ ", " +:+ pretty file_count +:+ " files") :: files
  ++ (if zlen files <? file_count then ["... " +:+ pretty (file_count - zlen files) +:+ " more files"] else [])
  ++ match preview with [] => [] | _ => "Change preview (first 3 lines):" :: preview end.

(** The parts of one text argument of [write_file] or [edit_file]. *)
Definition field_parts (arguments : list (string * json)) (label key : string) : list string :=
  match jget key arguments with
  | JStr text =>
      (label +:+ ": " +:+ text_stats text)
      :: match map (fun line => clip (rstrip_crlf line) PREVIEW_WIDTH)
                   (take PREVIEW_LINES (io_lines_universal text)) with
         | [] => []
         | preview => "Preview (first 3 lines):" :: preview
         end
  | _ => [label +:+ ": invalid text"]
  end.

Section approval.
Context `{FloatText}.

(** ToolCall.arguments_json *)
Definition arguments_json (c : ToolCall) : string :=
  match tc_arguments c with
  | ArgsRaw s => s
  | ArgsDict d => dumps (JObj d)
  end.

(** [f"{call.arguments}"] *)
Definition arguments_str (c : ToolCall) : string :=
  match tc_arguments c with
  | ArgsRaw s => s
  | ArgsDict d => py_repr (JObj d)
  end.

Definition approval_description (call : ToolCall) : res string :=
  if negb (name_in (tc_name call) WORKSPACE_WRITE_TOOLS)
  then Ok (tc_name call +:+ "(" +:+ arguments_json call +:+ ")")
  else
    arguments <~ args_dict (tc_arguments call) ;;
    let parts :=
      if String.eqb (tc_name call) "apply_patch" then
        match jget "patch" arguments with
        | JStr patch => patch_parts patch
        | _ => ["Patch: invalid text"]
        end
      else
        ("Path: " +:+ clip (py_str (default (JStr "") (dget "path" arguments))) 160)
        :: (if String.eqb (tc_name call) "write_file" then
              ("Overwrite: " +:+ py_str (default (JBool false) (dget "overwrite" arguments)))
              :: field_parts arguments "Content" "content"
            else field_parts arguments "Old text" "old_text" ++ field_parts arguments "New text" "new_text") in
    Ok (clip (sjoin NL (tc_name call :: parts)) MAX_DESCRIPTION_CHARS).

(** ** agent_core/tools/policy.py *)

(** What the interface is asked: the text and the keyword arguments. *)
Inductive PermissionRequest :=
| AskCommand (command : string)
| AskFile (description tool_name : string)
| AskMcp (call : ToolCall)
| AskComputer (description : string).

Definition Policy : Type := ToolCall -> M Session bool.

Section policies.
Variable request_permission : PermissionRequest -> M Session bool.

(** Ask, and raise [PermissionError] on a refusal. *)
Definition ask (r : PermissionRequest) (refusal : string) : M Session bool :=
  approved <- request_permission r ;;
  if approved then ret true else fail (Exn EPermissionError refusal).

Definition hook_args (arguments : list (string * json)) : res (list string) :=
  args <~ jindex "args" arguments ;;
  match args with JArr l => res_map typed_str l | _ => untyped "args" end.

Definition ShellApprovalPolicy : Policy := fun call =>
  if negb (name_in (tc_name call) ["shell"; "_hook_command"]) then ret false else
  arguments <- lift (args_dict (tc_arguments call)) ;;
  match jget "command" arguments with
  | JStr command =>
      if negb (nonempty command) then ret false else
      command <- (if String.eqb (tc_name call) "_hook_command" then
                    args <- lift (hook_args arguments) ;;
                    ret ("[Hook] " +:+ list2cmdline (command :: args))
                  else ret command) ;;
      ask (AskCommand command) "shell command was not approved"
  | _ => ret false
  end.

Definition FileWriteApprovalPolicy : Policy := fun call =>
  if negb (name_in (tc_name call) WORKSPACE_WRITE_TOOLS) then ret false else
  description <- lift (approval_description call) ;;
  ask (AskFile description (tc_name call)) "file change was not approved".

Definition ComputerApprovalPolicy : Policy := fun call =>
  if negb (name_in (tc_name call) ["computer_action"; "computer_screenshot"]) then ret false else
  ask (AskComputer (tc_name call +:+ "(" +:+ arguments_str call +:+ ")")) "computer action was not approved".

Definition McpApprovalPolicy (requires_approval : string -> bool) : Policy := fun call =>
  if negb (requires_approval (tc_name call)) then ret false else
  ask (AskMcp call) "MCP tool call was not approved".
End policies.

Fixpoint composite_authorize (consulted : bool) (policies : list Policy) (call : ToolCall) : M Session bool :=
  match policies with
  | [] => ret consulted
  | policy :: policies' =>
      b <- policy call ;;
      composite_authorize (b || consulted) policies' call
  end.

Definition CompositeToolPolicy (policies : list Policy) : Policy := composite_authorize false policies.

(** The policy of a running host (agent_runtime/host.py). *)
Definition host_policy (request_permission : PermissionRequest -> M Session bool)
    (requires_approval : string -> bool) : Policy :=
  CompositeToolPolicy
    [ShellApprovalPolicy request_permission; FileWriteApprovalPolicy request_permission;
     ComputerApprovalPolicy request_permission; McpApprovalPolicy request_permission requires_approval].

(** ** PermissionController *)

Context `{Env}.

Definition controller_set_preset (persist_preset : option (PermissionPreset -> M Session unit))
    (preset : PermissionPreset) : M Session unit :=
  s <- get ;;
  if bool_decide (preset = permission_preset (st s)) then ret tt else
  set_permission_preset preset ;;;
  match persist_preset with Some f => f preset | None => ret tt end.

Definition record_approval (call : ToolCall) (approved : bool) : M Session unit :=
  description <- lift (approval_description call) ;;
  record_user_interaction
    ("Tool approval: " +:+ description +:+ NL +:+ "User response: " +:+ (if approved then "approved" else "denied"))
    SrcApproval.

(** PermissionController.authorize; [route] is [context.execution]. *)
Definition authorize (policy : Policy) (route : option ResolvedExecution) (call : ToolCall) : M Session unit :=
  match route with
  | None => ret tt
  | Some route =>
      match re_scope route with
      | None => ret tt
      | Some scope =>
          if allows_unattended (re_authority route) scope then ret tt else
          consulted <- catch (policy call) (fun e =>
            if is_class EPermissionError e then record_approval call false ;;; fail e else fail e) ;;
          if consulted then record_approval call true else ret tt
      end
  end.
End approval.
