(* ===== verification/PermissionThms.v ===== *)
(** * Theorems on authority, routing and approval

    Claims about agent_core/execution/authority.py, execution/router.py,
    approval.py, tools/policy.py and permissions.py. *)

From stdpp Require Import base list strings pretty.
From Stdlib Require Import ZArith Lia Ascii.
From S2P Require Import Prelude PyData PyStr Json PyTime Content Plan Authority Message Session PyText.
From S2P Require Import SessionProps SessionThms Permissions.

(** ** Authorities *)

(** The authority a subagent gets is the meet of its role's and its
    parent's: the intersection of two valid authorities exists, is valid, allows
    exactly the scopes both allow and runs unattended exactly what both run
    unattended. *)
Theorem intersect_is_meet (a b : ExecutionAuthority) :
  authority_wf a -> authority_wf b ->
  exists c, intersect a b = Ok c /\ authority_wf c /\
    (forall s, allows c s = allows a s && allows b s) /\
    (forall s, allows_unattended c s = allows_unattended a s && allows_unattended b s).
Proof. apply intersect_spec. Qed.

Lemma intersect_is_meet_witness :
  exists c, intersect FULL_ACCESS_AUTHORITY WORKSPACE_ACCESS_AUTHORITY = Ok c /\ authority_wf c /\
    (forall s, allows c s = allows FULL_ACCESS_AUTHORITY s && allows WORKSPACE_ACCESS_AUTHORITY s) /\
    (forall s, allows_unattended c s =
       allows_unattended FULL_ACCESS_AUTHORITY s && allows_unattended WORKSPACE_ACCESS_AUTHORITY s).
Proof.
  apply (intersect_is_meet FULL_ACCESS_AUTHORITY WORKSPACE_ACCESS_AUTHORITY);
    [exact (preset_authority_wf FULL_ACCESS)|exact (preset_authority_wf WORKSPACE_ACCESS)].
Defined.

(** C29: routing never exceeds the authority: a resolved call carries a scope the
    authority allows, commands always have a scope and run on the executor of
    that scope, workspace writes never leave the workspace, and host tools need
    an authority that reaches the host. *)
Theorem routing_within_authority (a : ExecutionAuthority) (host_tool : string -> bool) (call : ToolCall)
    (r : ResolvedExecution) :
  resolve a host_tool call = Ok r ->
  re_authority r = a /\
  (forall s, re_scope r = Some s -> allows a s = true) /\
  (forall e, re_executor r = Some e -> (e = WorkspaceExecutor <-> re_scope r = Some WORKSPACE)) /\
  (name_in (tc_name call) ["shell"; "_hook_command"] = true <-> is_Some (re_executor r)) /\
  (name_in (tc_name call) WORKSPACE_WRITE_TOOLS = true -> re_scope r = Some WORKSPACE) /\
  (re_scope r = Some HOST -> maximum_scope a = HOST).
Proof.
  intros Hr. destruct (resolve_allowed _ _ _ _ Hr) as [Ha Hs].
  split; [done|]. split; [done|]. split; [intros e; by apply (resolve_executor a host_tool call)|].
  split; [|split].
  - unfold resolve in Hr. destruct (name_in _ ["shell"; "_hook_command"]).
    + inv_ok. simpl. split; [by eexists|done].
    + split; [done|]. intros [e He]. repeat case_match; inv_ok; done.
  - intros Hw. unfold resolve in Hr.
    destruct (name_in _ ["shell"; "_hook_command"]) eqn:E; [|rewrite Hw in Hr; repeat case_match; inv_ok; done].
    exfalso. unfold name_in in *. simpl in *.
    repeat match goal with H : _ || _ = true |- _ => apply orb_true_iff in H as [H|H] end; bsimp; congruence.
  - intros Hh. specialize (Hs _ Hh). unfold allows in Hs. by destruct (maximum_scope a).
Qed.

Definition host_command : ToolCall :=
  MkToolCall "c1" "shell" (ArgsDict [("command", JStr "ls"); ("scope", JStr "host")]) None.

Lemma routing_within_authority_witness :
  resolve FULL_ACCESS_AUTHORITY (fun _ => false) host_command =
    Ok (MkResolved (Some HOST) FULL_ACCESS_AUTHORITY (Some HostExecutor)) /\
  maximum_scope FULL_ACCESS_AUTHORITY = HOST.
Proof.
  split; [reflexivity|].
  destruct (routing_within_authority FULL_ACCESS_AUTHORITY (fun _ => false) host_command
    (MkResolved (Some HOST) FULL_ACCESS_AUTHORITY (Some HostExecutor)) eq_refl) as (_ & _ & _ & _ & _ & H).
  exact (H eq_refl).
Defined.

(** ** Approval *)

Section gate.
Context `{FloatText}.

Lemma clip_length text limit : 3 <= limit -> slen (clip text limit) <= limit.
Proof.
  intros Hl. unfold clip. destruct (Z.leb_spec (slen text) limit); [done|].
  rewrite slen_app. unfold slen. pose proof (slen_stake (Z.to_nat (limit - 3)) text). simpl. lia.
Qed.

(** Whatever a file-writing tool is called with, the description shown for
    approval and kept in the history has at most 2048 characters. *)
Lemma write_description_bounded (call : ToolCall) (d : list (string * json)) :
  name_in (tc_name call) WORKSPACE_WRITE_TOOLS = true -> tc_arguments call = ArgsDict d ->
  exists text, approval_description call = Ok text /\ slen text <= MAX_DESCRIPTION_CHARS.
Proof.
  intros Hn Ha. unfold approval_description. rewrite Hn, Ha. simpl negb. cbn [args_dict res_bind].
  eexists. split; [done|]. by apply clip_length.
Qed.

(** The questions the host's policy asks about a call, each with the message of
    the [PermissionError] a refusal raises. *)
Definition questions (requires_approval : string -> bool) (call : ToolCall) (d : list (string * json))
    (description : string) (hook : list string) : list (PermissionRequest * string) :=
  (if name_in (tc_name call) ["shell"; "_hook_command"] then
     match jget "command" d with
     | JStr command =>
         if nonempty command
         then [(AskCommand (if String.eqb (tc_name call) "_hook_command"
                            then "[Hook] " +:+ list2cmdline (command :: hook) else command),
                "shell command was not approved")]
         else []
     | _ => []
     end
   else [])
  ++ (if name_in (tc_name call) WORKSPACE_WRITE_TOOLS
      then [(AskFile description (tc_name call), "file change was not approved")] else [])
  ++ (if name_in (tc_name call) ["computer_action"; "computer_screenshot"]
      then [(AskComputer (tc_name call +:+ "(" +:+ arguments_str call +:+ ")"), "computer action was not approved")]
      else [])
  ++ (if requires_approval (tc_name call) then [(AskMcp call, "MCP tool call was not approved")] else []).

(** An interface that answers without touching the session. *)
Definition answering (answer : PermissionRequest -> bool) : PermissionRequest -> M Session bool :=
  fun r => ret (answer r).

(** The outcome of asking a list of questions. *)
Fixpoint ask_all (answer : PermissionRequest -> bool) (consulted : bool) (qs : list (PermissionRequest * string)) :
    res bool :=
  match qs with
  | [] => Ok consulted
  | (q, refusal) :: qs' => if answer q then ask_all answer true qs' else raise EPermissionError refusal
  end.

Lemma ask_answering answer q refusal (s : Session) :
  ask (answering answer) q refusal s = (s, if answer q then Ok true else raise EPermissionError refusal).
Proof. unfold ask, answering, bind, ret. by destruct (answer q). Qed.

(** One policy that asks at most one question. *)
Lemma composite_step answer (p : Policy) ps call (s : Session) qs qs' consulted :
  p call s = (s, ask_all answer false qs) -> (length qs <= 1)%nat ->
  (forall c, composite_authorize c ps call s = (s, ask_all answer c qs')) ->
  composite_authorize consulted (p :: ps) call s = (s, ask_all answer consulted (qs ++ qs')).
Proof.
  intros Hp Hl Hps. simpl. unfold bind. rewrite Hp.
  destruct qs as [|[q m] [|]]; simpl in *; [by rewrite Hps| |lia].
  destruct (answer q); [|done]. by rewrite Hps.
Qed.

Lemma host_policy_asks answer requires_approval call d description hook (s : Session) :
  tc_arguments call = ArgsDict d -> approval_description call = Ok description ->
  (tc_name call = "_hook_command" -> hook_args d = Ok hook) ->
  host_policy (answering answer) requires_approval call s
  = (s, ask_all answer false (questions requires_approval call d description hook)).
Proof.
  intros Ha Hd Hh. unfold host_policy, CompositeToolPolicy, questions.
  apply composite_step; [|repeat case_match; simpl; lia|intros c1; apply composite_step;
    [|repeat case_match; simpl; lia|intros c2; apply composite_step; [|repeat case_match; simpl; lia|intros c3]]].
  - unfold ShellApprovalPolicy. destruct (name_in _ ["shell"; "_hook_command"]); [|done].
    rewrite Ha. unfold bind at 1, lift; cbn [args_dict negb].
    destruct (jget "command" d); try done. destruct (nonempty s0); [|done]. cbn [negb].
    destruct (String.eqb_spec (tc_name call) "_hook_command") as [E|E].
    + unfold bind. rewrite Hh by done. unfold ret. rewrite ask_answering. simpl. by destruct (answer _).
    + unfold bind, ret. rewrite ask_answering. simpl. by destruct (answer _).
  - unfold FileWriteApprovalPolicy. destruct (name_in _ WORKSPACE_WRITE_TOOLS); [|done]. cbn [negb].
    unfold bind, lift. rewrite Hd, ask_answering. simpl. by destruct (answer _).
  - unfold ComputerApprovalPolicy. destruct (name_in _ _); [|done]. cbn [negb].
    rewrite ask_answering. simpl. by destruct (answer _).
  - simpl. unfold McpApprovalPolicy, bind. destruct (requires_approval _); [|done]. cbn [negb].
    rewrite ask_answering. simpl. by destruct (answer _).
Qed.

Context `{Env}.

(** C19: the approval gate, on every branch: a call without a scope, or one the
    authority runs unattended, passes silently; any other call is put to the
    user question by question, the first refusal is recorded as denied and
    raised, consent is recorded as approved, and a call no policy asks about
    passes without a record. *)
Theorem approval_gate (answer : PermissionRequest -> bool) (requires_approval : string -> bool) (call : ToolCall)
    (d : list (string * json)) (description : string) (hook : list string) (r : ResolvedExecution) (s : Session) :
  tc_arguments call = ArgsDict d -> approval_description call = Ok description ->
  (tc_name call = "_hook_command" -> hook_args d = Ok hook) ->
  let gate := authorize (host_policy (answering answer) requires_approval) (Some r) call s in
  let qs := questions requires_approval call d description hook in
  match re_scope r with
  | None => gate = (s, Ok tt)
  | Some scope =>
      if allows_unattended (re_authority r) scope then gate = (s, Ok tt)
      else match ask_all answer false qs with
           | Ok true => gate = record_approval call true s
           | Ok false => gate = (s, Ok tt) /\ qs = []
           | Err e => gate = (record_approval call false ;;; fail e) s /\ exn_class e = EPermissionError /\
                      exists q m, In (q, m) qs /\ answer q = false
           end
  end.
Proof.
  intros Ha Hd Hh gate qs. subst gate. unfold authorize.
  destruct (re_scope r) as [scope|]; [|done]. destruct (allows_unattended _ scope); [done|].
  pose proof (host_policy_asks answer requires_approval call d description hook s Ha Hd Hh) as Hp. fold qs in Hp.
  unfold catch, bind. rewrite Hp.
  assert (Hall : forall c l, match ask_all answer c l with
                             | Ok true => c = true \/ l <> []
                             | Ok false => c = false /\ l = []
                             | Err e => exn_class e = EPermissionError /\ exists q m, In (q, m) l /\ answer q = false
                             end).
  { intros c l. revert c. induction l as [|[q m] l IH]; intros c; simpl; [destruct c; auto|].
    destruct (answer q) eqn:Eq; [|split; [done|exists q, m; auto]].
    specialize (IH true). destruct (ask_all answer true l) as [[]|e]; [by right|by destruct IH|].
    destruct IH as (? & q' & m' & ? & ?). split; [done|]. exists q', m'; auto. }
  specialize (Hall false qs). destruct (ask_all answer false qs) as [[]|e]; [done|destruct Hall as [_ Hq]; split; [reflexivity|exact Hq]|].
  destruct Hall as [He Hq]. unfold is_class. rewrite He. split; [|done].
  rewrite bool_decide_true by done. unfold fail. by destruct (record_approval call false s) as [? [?|?]].
Qed.
End gate.

Definition plain_floats : FloatText := {| float_repr b := pretty b |}.
Definition risky : ToolCall := MkToolCall "c1" "shell" (ArgsDict [("command", JStr "rm -r x")]) None.
Definition rewriting : ToolCall :=
  MkToolCall "c2" "write_file" (ArgsDict [("path", JStr "a.txt"); ("content", JStr "hello")]) None.

Lemma write_description_bounded_witness :
  exists text, @approval_description plain_floats rewriting = Ok text /\ slen text <= MAX_DESCRIPTION_CHARS.
Proof. exact (@write_description_bounded plain_floats rewriting _ eq_refl eq_refl). Defined.

Lemma approval_gate_witness :
  @authorize plain_floats demo_env (@host_policy plain_floats (answering (fun _ => false)) (fun _ => false))
    (Some (MkResolved (Some WORKSPACE) APPROVAL_REQUIRED_AUTHORITY (Some WorkspaceExecutor))) risky demo_begun
  = (@record_approval plain_floats demo_env risky false ;;;
     fail (Exn EPermissionError "shell command was not approved")) demo_begun.
Proof.
  exact (proj1 (@approval_gate plain_floats demo_env (fun _ => false) (fun _ => false) risky
    [("command", JStr "rm -r x")] _ [] (MkResolved (Some WORKSPACE) APPROVAL_REQUIRED_AUTHORITY (Some WorkspaceExecutor))
    demo_begun eq_refl eq_refl (fun e => match Bool.diff_true_false (f_equal (String.eqb "shell") e) with end))).
Defined.
