(* ===== verification/ToolStream.v ===== *)
(** * Streamed tool calls

    agent_core/providers/tool_call_stream.py: the assembly of tool calls from the
    deltas of a provider.  A [_ToolCallState] is its position in the list of
    states, so that the two dictionaries share it as they do in the code.  The
    details of a [ProviderProtocolError] are not modelled. *)

From stdpp Require Import base list strings gmap sorting.
From Stdlib Require Import ZArith Lia.
From S2P Require Import Prelude PyData PyStr Json Content.

(** A delta: the fields [index], [id] and [function] with its name and arguments,
    as the provider sent them; a missing field reads as [None]. *)
Record Delta := MkDelta { d_index : json; d_id : json; d_function : option (json * json) }.

Record ToolCallState := MkCallState {
  cs_index : option Z;
  cs_id : option string;
  cs_name : option string;
  cs_fragments : list string;
}.
Definition fresh_state : ToolCallState := MkCallState None None None [].

Record Assembler := MkAssembler {
  as_states : list ToolCallState;
  as_by_index : gmap Z nat;
  as_by_id : gmap string nat;
}.
Definition new_assembler : Assembler := MkAssembler [] ∅ ∅.

Definition protocol_error {A} (message : string) : M Assembler A := fail (Exn EProviderProtocol message).

(** [_tool_call_index], [_tool_call_id] *)
Definition tool_call_index (call : Delta) : res (option Z) :=
  match d_index call with
  | JNull => Ok None
  | JInt z => if z <? 0 then raise EProviderProtocol "tool call index must be a non-negative integer" else Ok (Some z)
  | _ => raise EProviderProtocol "tool call index must be a non-negative integer"
  end.

Definition tool_call_id (call : Delta) : res (option string) :=
  match d_id call with
  | JNull => Ok None
  | JStr s => if nonempty s then Ok (Some s) else raise EProviderProtocol "tool call id must be a non-empty string"
  | _ => raise EProviderProtocol "tool call id must be a non-empty string"
  end.

Definition set_states (v : list ToolCallState) (a : Assembler) := MkAssembler v (as_by_index a) (as_by_id a).

(** [_resolve]: the position of the state a delta belongs to. *)
Definition resolve_state (index : option Z) (id : option string) : M Assembler nat :=
  a <- get ;;
  let by_index := index ≫= fun i => as_by_index a !! i in
  let by_id := id ≫= fun x => as_by_id a !! x in
  match by_index, by_id with
  | Some k, Some k' => if Nat.eqb k k' then ret k else protocol_error "tool call index and id refer to different calls"
  | Some k, None => ret k
  | None, Some k => ret k
  | None, None =>
      match index, id, as_states a with
      | None, None, [_] => ret 0%nat
      | None, None, _ => protocol_error "tool call fragment has no index or id"
      | _, _, states =>
          let ambiguous :=
            match states with
            | [only] =>
                (match index, cs_id only with None, None => true | _, _ => false end)
                || (match id, cs_index only with None, None => true | _, _ => false end)
            | _ => false
            end in
          if ambiguous then protocol_error "tool call fragment cannot be linked to the active call"
          else modify (set_states (states ++ [fresh_state])) ;;; ret (length states)
      end
  end.

Definition update_state (k : nat) (f : ToolCallState -> ToolCallState) : M Assembler unit :=
  modify (fun a => set_states (alter f k (as_states a)) a).

Definition state_at (k : nat) : M Assembler ToolCallState :=
  a <- get ;; ret (default fresh_state (as_states a !! k)).

(** [_bind_identity] *)
Definition bind_index (k : nat) (index : option Z) : M Assembler unit :=
  match index with
  | None => ret tt
  | Some i =>
      s <- state_at k ;;
      match cs_index s with
      | Some j => if i =? j then ret tt else protocol_error "tool call id was associated with multiple indexes"
      | None => ret tt
      end ;;;
      update_state k (fun s => MkCallState (Some i) (cs_id s) (cs_name s) (cs_fragments s)) ;;;
      modify (fun a => MkAssembler (as_states a) (<[i := k]> (as_by_index a)) (as_by_id a))
  end.

Definition bind_id (k : nat) (id : option string) : M Assembler unit :=
  match id with
  | None => ret tt
  | Some x =>
      s <- state_at k ;;
      match cs_id s with
      | Some y => if String.eqb x y then ret tt else protocol_error "tool call index was associated with multiple ids"
      | None => ret tt
      end ;;;
      update_state k (fun s => MkCallState (cs_index s) (Some x) (cs_name s) (cs_fragments s)) ;;;
      modify (fun a => MkAssembler (as_states a) (as_by_index a) (<[x := k]> (as_by_id a)))
  end.

Definition non_empty_string (j : json) : option string :=
  match j with JStr s => if nonempty s then Some s else None | _ => None end.

(** The name and the arguments of a delta. *)
Definition add_function (k : nat) (name arguments : json) : M Assembler unit :=
  match non_empty_string name with
  | None => ret tt
  | Some n =>
      s <- state_at k ;;
      match cs_name s with
      | Some m => if String.eqb m n then ret tt else protocol_error "tool call name changed during the stream"
      | None => ret tt
      end ;;;
      update_state k (fun s => MkCallState (cs_index s) (cs_id s) (Some n) (cs_fragments s))
  end ;;;
  match arguments with
  | JStr t => if nonempty t then update_state k (fun s => MkCallState (cs_index s) (cs_id s) (cs_name s) (cs_fragments s ++ [t])) else ret tt
  | JNull => ret tt
  | _ => protocol_error "tool call arguments must be streamed as text"
  end.

(** [_add] *)
Definition add_delta_call (call : Delta * option Z * option string) : M Assembler unit :=
  let '(delta, index, id) := call in
  k <- resolve_state index id ;;
  bind_index k index ;;;
  bind_id k id ;;;
  match d_function delta with
  | None => ret tt
  | Some (name, arguments) => add_function k name arguments
  end.

(** [add_batch] *)
Definition identify (call : Delta) : res (Delta * option Z * option string) :=
  i <~ tool_call_index call ;; x <~ tool_call_id call ;; Ok (call, i, x).

Definition unidentified (call : Delta * option Z * option string) : bool :=
  match call with (_, None, None) => true | _ => false end.

Definition add_batch (tool_calls : list Delta) : M Assembler unit :=
  calls <- lift (res_map identify tool_calls) ;;
  if (1 <? length calls)%nat && existsb unidentified calls
  then protocol_error "a tool call in a multi-call chunk has no index or id"
  else for_each add_delta_call calls.

Definition argument_fragment_count (a : Assembler) : nat :=
  fold_right Nat.add 0%nat (map (fun s => length (cs_fragments s)) (as_states a)).

(** ** finish *)

Definition index_le (a b : ToolCallState) : Prop := default 0 (cs_index a) <= default 0 (cs_index b).
#[export] Instance index_le_dec : RelDecision index_le.
Proof. intros a b. unfold index_le. apply _. Defined.

Definition has_index (s : ToolCallState) : bool := match cs_index s with Some _ => true | None => false end.

Section finish.
Variable json_loads : string -> json + string.

Definition finish_state (s : ToolCallState) : res ToolCall :=
  match cs_id s, cs_name s with
  | None, _ => raise EProviderProtocol "tool call id is missing"
  | Some _, None => raise EProviderProtocol "tool call name is missing"
  | Some id, Some name => Ok (from_raw_arguments json_loads id name (sjoin "" (cs_fragments s)))
  end.

Definition finish_calls (a : Assembler) : res (list ToolCall) :=
  if existsb has_index (as_states a) && negb (forallb has_index (as_states a))
  then raise EProviderProtocol "tool calls mix indexed and unindexed identities"
  else res_map finish_state (if forallb has_index (as_states a) then merge_sort index_le (as_states a) else as_states a).
End finish.
