(* ===== verification/ToolStreamThms.v ===== *)
(** * Streamed tool calls: what an indexed stream assembles to

    [ToolStream] against a reference definition: a stream whose deltas all carry
    an index is accepted exactly when its deltas agree on identities and names,
    and the finished calls are, by ascending index, what the deltas of each index
    say.  The reference reads the whole stream at once; the code keeps a list of
    states, two dictionaries and the current state of each call. *)

From stdpp Require Import base list strings gmap sorting.
From Stdlib Require Import ZArith Lia.
From S2P Require Import Prelude PyData PyStr Json Content ToolStream.

(** ** What a delta says *)

Definition delta_index (d : Delta) : option Z := match tool_call_index d with Ok o => o | Err _ => None end.
Definition delta_id (d : Delta) : option string := match tool_call_id d with Ok o => o | Err _ => None end.
Definition delta_name (d : Delta) : option string := d_function d ≫= fun f => non_empty_string (fst f).
Definition delta_text (d : Delta) : option string := d_function d ≫= fun f => non_empty_string (snd f).
Definition text_ok (d : Delta) : bool :=
  match d_function d with
  | None | Some (_, JNull) | Some (_, JStr _) => true
  | _ => false
  end.

Definition indexed (d : Delta) : Prop :=
  exists i x, tool_call_index d = Ok (Some i) /\ tool_call_id d = Ok x.

(** The reference: the state of index [i] after the deltas [ds]. *)
Definition state_for (ds : list Delta) (i : Z) : ToolCallState :=
  let here := filter (fun d => delta_index d = Some i) ds in
  MkCallState (Some i) (last (omap delta_id here)) (last (omap delta_name here)) (omap delta_text here).

(** The deltas agree: an index and an id name each other, the name of a call
    does not change, and arguments come as text. *)
Definition coherent (ds : list Delta) : Prop :=
  (forall d, d ∈ ds -> text_ok d = true) /\
  (forall d d' x x', d ∈ ds -> d' ∈ ds -> delta_id d = Some x -> delta_id d' = Some x' ->
     x = x' <-> delta_index d = delta_index d') /\
  (forall d d' n n', d ∈ ds -> d' ∈ ds -> delta_name d = Some n -> delta_name d' = Some n' ->
     delta_index d = delta_index d' -> n = n').

Lemma coherent_mono ds ds' : ds ⊆ ds' -> coherent ds' -> coherent ds.
Proof. intros Hs (Ht & Hi & Hn). split_and!; eauto. Qed.

Lemma coherent_app p q : coherent (p ++ q) -> coherent p.
Proof. apply coherent_mono. set_solver. Qed.

(** ** One delta against one state *)

Definition fits {A} `{EqDecision A} (old new : option A) : bool :=
  match old, new with Some a, Some b => bool_decide (a = b) | _, _ => true end.

Definition agrees (s : ToolCallState) (d : Delta) : bool :=
  fits (cs_id s) (delta_id d) && fits (cs_name s) (delta_name d) && text_ok d.

Definition absorb (i : Z) (s : ToolCallState) (d : Delta) : ToolCallState :=
  MkCallState (Some i)
    (match delta_id d with Some x => Some x | None => cs_id s end)
    (match delta_name d with Some n => Some n | None => cs_name s end)
    (cs_fragments s ++ option_list (delta_text d)).

Definition add_at (k : nat) (d : Delta) : M Assembler unit :=
  bind_index k (delta_index d) ;;;
  bind_id k (delta_id d) ;;;
  match d_function d with
  | None => ret tt
  | Some (name, arguments) => add_function k name arguments
  end.

Definition registered (k : nat) (i : Z) (d : Delta) (s : ToolCallState) (a : Assembler) : Assembler :=
  MkAssembler (<[k := absorb i s d]> (as_states a)) (<[i := k]> (as_by_index a))
    (match delta_id d with Some x => <[x := k]> (as_by_id a) | None => as_by_id a end).

Lemma state_at_eq k s a : as_states a !! k = Some s -> state_at k a = (a, Ok s).
Proof. intros H. unfold state_at, bind, get, ret. by rewrite H. Qed.

Lemma alter_insert_at {A} (f : A -> A) k (l : list A) s : l !! k = Some s -> alter f k l = <[k := f s]> l.
Proof. revert k. induction l as [|a l IH]; intros [|k] H; simplify_eq/=; [done..|]. f_equal. by apply IH. Qed.

(** A call that either ends in [s'] or raises. *)
Definition either {S} (ok : bool) (s' : S) (r : S * res unit) : Prop :=
  if ok then r = (s', Ok tt) else exists s'' e, r = (s'', Err e).

Lemma either_bind {S} b1 b2 (s0 s1 s2 : S) (c : M S unit) (k : unit -> M S unit) :
  either b1 s1 (c s0) -> (b1 = true -> either b2 s2 (k tt s1)) -> either (b1 && b2) s2 (bind c k s0).
Proof.
  unfold bind. destruct b1; simpl.
  - intros -> Hk. by apply Hk.
  - intros (s'' & e & ->) _. eauto.
Qed.

Definition put (k : nat) (s : ToolCallState) (a : Assembler) : Assembler := set_states (<[k := s]> (as_states a)) a.

Lemma put_lookup k s s' a : as_states a !! k = Some s' -> as_states (put k s a) !! k = Some s.
Proof. intros H. apply list_lookup_insert_eq. eauto using lookup_lt_Some. Qed.

Lemma update_state_eq k f s a : as_states a !! k = Some s -> update_state k f a = (put k (f s) a, Ok tt).
Proof. intros H. unfold update_state, modify, put. by rewrite (alter_insert_at f k _ s). Qed.

Lemma put_same k s a :
  as_states a !! k = Some s ->
  put k (MkCallState (cs_index s) (cs_id s) (cs_name s) (cs_fragments s)) a = a.
Proof. intros H. unfold put, set_states. rewrite list_insert_id; [by destruct a|]. rewrite H. by destruct s. Qed.

#[local] Opaque update_state.

Lemma bind_index_outcome k i s a :
  as_states a !! k = Some s ->
  either (fits (cs_index s) (Some i))
    (MkAssembler (<[k := MkCallState (Some i) (cs_id s) (cs_name s) (cs_fragments s)]> (as_states a))
       (<[i := k]> (as_by_index a)) (as_by_id a))
    (bind_index k (Some i) a).
Proof.
  intros Hk. unfold bind_index, bind. rewrite (state_at_eq _ _ _ Hk).
  destruct (cs_index s) as [j|]; simpl.
  - case_bool_decide as E; [subst j; rewrite Z.eqb_refl|].
    + unfold ret; simpl; by rewrite (update_state_eq _ _ _ _ Hk).
    + destruct (Z.eqb_spec i j); [congruence|]. eexists _, _. reflexivity.
  - unfold ret; simpl; by rewrite (update_state_eq _ _ _ _ Hk).
Qed.

Lemma bind_id_outcome k x s a :
  as_states a !! k = Some s ->
  either (fits (cs_id s) x)
    (MkAssembler (<[k := MkCallState (cs_index s) (match x with Some y => Some y | None => cs_id s end) (cs_name s) (cs_fragments s)]> (as_states a))
       (as_by_index a) (match x with Some y => <[y := k]> (as_by_id a) | None => as_by_id a end))
    (bind_id k x a).
Proof.
  intros Hk. unfold bind_id. destruct x as [x|]; simpl.
  2: { replace (fits (cs_id s) None) with true by (by destruct (cs_id s)). unfold either, ret. f_equal. by rewrite <- (put_same k s a Hk) at 1. }
  unfold bind. rewrite (state_at_eq _ _ _ Hk). destruct (cs_id s) as [y|]; simpl.
  - case_bool_decide as E; [subst y; rewrite String.eqb_refl|].
    + unfold ret; simpl; by rewrite (update_state_eq _ _ _ _ Hk).
    + destruct (String.eqb_spec x y); [congruence|]. eexists _, _. reflexivity.
  - unfold ret; simpl; by rewrite (update_state_eq _ _ _ _ Hk).
Qed.

Lemma add_function_outcome k s name arguments a :
  as_states a !! k = Some s ->
  either (fits (cs_name s) (non_empty_string name) && text_ok (MkDelta JNull JNull (Some (name, arguments))))
    (put k (MkCallState (cs_index s) (cs_id s)
              (match non_empty_string name with Some n => Some n | None => cs_name s end)
              (cs_fragments s ++ option_list (non_empty_string arguments))) a)
    (add_function k name arguments a).
Proof.
  intros Hk. unfold add_function.
  set (s1 := MkCallState (cs_index s) (cs_id s) (match non_empty_string name with Some n => Some n | None => cs_name s end) (cs_fragments s)).
  apply either_bind with (s1 := put k s1 a).
  - unfold s1. destruct (non_empty_string name) as [n|]; simpl.
    + unfold bind. rewrite (state_at_eq _ _ _ Hk). destruct (cs_name s) as [m|]; simpl.
      * case_bool_decide as E; [subst m; rewrite String.eqb_refl|].
        -- unfold ret; simpl; by rewrite (update_state_eq _ _ _ _ Hk).
        -- destruct (String.eqb_spec m n); [congruence|]. eexists _, _. reflexivity.
      * unfold ret; simpl; by rewrite (update_state_eq _ _ _ _ Hk).
    + replace (fits (cs_name s) None) with true by (by destruct (cs_name s)).
      unfold either, ret. by rewrite (put_same k s a Hk).
  - intros _. pose proof (put_lookup k s1 s a Hk) as Hk1.
    destruct arguments; simpl; try (by eexists _, _); unfold ret;
      try (by rewrite app_nil_r).
    destruct (nonempty s0); simpl; [|by rewrite app_nil_r].
    rewrite (update_state_eq _ _ _ _ Hk1). unfold put. simpl. by rewrite list_insert_insert_eq.
Qed.

Lemma add_at_outcome k i d s a :
  as_states a !! k = Some s -> delta_index d = Some i ->
  either (fits (cs_index s) (Some i) && agrees s d) (registered k i d s a) (add_at k d a).
Proof.
  intros Hk Hi. pose proof (lookup_lt_Some _ _ _ Hk) as Hlt. unfold add_at. rewrite Hi.
  apply (either_bind _ _ _ _ _ _ _ (bind_index_outcome k i s a Hk)). intros _. unfold agrees. rewrite <- andb_assoc.
  match goal with |- either _ _ (bind _ _ ?a1) => set (a1' := a1) end.
  assert (Hk1 : as_states a1' !! k = Some (MkCallState (Some i) (cs_id s) (cs_name s) (cs_fragments s)))
    by (by apply list_lookup_insert_eq).
  apply (either_bind _ _ _ _ _ _ _ (bind_id_outcome k (delta_id d) _ _ Hk1)). intros _. subst a1'. simpl.
  rewrite list_insert_insert_eq.
  match goal with |- either _ _ (_ ?a2) => set (a2' := a2) end.
  assert (Hk2 : as_states a2' !! k = Some (MkCallState (Some i)
     (match delta_id d with Some y => Some y | None => cs_id s end) (cs_name s) (cs_fragments s)))
    by (by apply list_lookup_insert_eq).
  unfold registered, absorb, delta_name, delta_text, text_ok.
  destruct (d_function d) as [[name arguments]|]; simpl.
  - pose proof (add_function_outcome k _ name arguments a2' Hk2) as Hf.
    unfold put, set_states in Hf. subst a2'. simpl in Hf. by rewrite list_insert_insert_eq in Hf.
  - rewrite app_nil_r. subst a2'. by destruct (cs_name s).
Qed.

(** ** The reference state, one delta later *)

Lemma last_omap_app {A B} (f : A -> option B) (l : list A) x :
  last (omap f (l ++ [x])) = match f x with Some y => Some y | None => last (omap f l) end.
Proof.
  rewrite omap_app. simpl. destruct (f x) as [y|]; [apply last_snoc|by rewrite app_nil_r].
Qed.

Lemma state_for_same p d i : delta_index d = Some i -> state_for (p ++ [d]) i = absorb i (state_for p i) d.
Proof.
  intros Hi. unfold state_for, absorb. rewrite filter_app, filter_cons_True, filter_nil by done.
  rewrite !last_omap_app, omap_app. simpl. by destruct (delta_text d).
Qed.

Lemma state_for_other p d i j : delta_index d = Some i -> j <> i -> state_for (p ++ [d]) j = state_for p j.
Proof.
  intros Hi Hj. unfold state_for. rewrite filter_app, filter_cons_False, filter_nil, app_nil_r by congruence. done.
Qed.

Definition index_in (p : list Delta) (i : Z) : Prop := exists d, d ∈ p /\ delta_index d = Some i.

Lemma state_for_absent p i : ~ index_in p i -> state_for p i = MkCallState (Some i) None None [].
Proof.
  intros Hn. unfold state_for.
  replace (filter (fun d => delta_index d = Some i) p) with (@nil Delta); [done|].
  destruct (filter _ p) as [|d l] eqn:E; [done|].
  assert (Hd : d ∈ filter (fun d => delta_index d = Some i) p) by (rewrite E; constructor).
  apply list_elem_of_filter in Hd as [Hd Hin]. destruct Hn. by exists d.
Qed.

(** A last entry comes from a delta of the index, and coherence makes it the only one. *)
Lemma last_omap_from {A B} (f : A -> option B) (l : list A) y :
  last (omap f l) = Some y -> exists x, x ∈ l /\ f x = Some y.
Proof. intros H%last_Some_elem_of. by apply list_elem_of_omap in H as (x & Hx & Hf); exists x. Qed.

Lemma last_omap_some {A B} (f : A -> option B) (l : list A) x y :
  x ∈ l -> f x = Some y -> exists y', last (omap f l) = Some y'.
Proof.
  intros Hx Hf. destruct (last (omap f l)) as [y'|] eqn:E; [eauto|].
  apply last_None in E. assert (Hy : y ∈ omap f l) by (apply list_elem_of_omap; eauto). rewrite E in Hy. inversion Hy.
Qed.

Lemma id_from p i x :
  cs_id (state_for p i) = Some x -> exists d, d ∈ p /\ delta_index d = Some i /\ delta_id d = Some x.
Proof. intros (d & [Hi Hd]%list_elem_of_filter & Hx)%last_omap_from. eauto. Qed.

Lemma name_from p i n :
  cs_name (state_for p i) = Some n -> exists d, d ∈ p /\ delta_index d = Some i /\ delta_name d = Some n.
Proof. intros (d & [Hi Hd]%list_elem_of_filter & Hx)%last_omap_from. eauto. Qed.

Lemma id_known p d i x :
  coherent p -> d ∈ p -> delta_index d = Some i -> delta_id d = Some x -> cs_id (state_for p i) = Some x.
Proof.
  intros (_ & Hc & _) Hd Hi Hx.
  destruct (last_omap_some delta_id (filter (fun d => delta_index d = Some i) p) d x) as [x' Hx']; [|done|].
  { apply list_elem_of_filter. auto. }
  change (cs_id (state_for p i) = Some x') in Hx'. destruct (id_from _ _ _ Hx') as (d' & Hd' & Hi' & He).
  rewrite Hx'. f_equal. apply (Hc d' d); [done..|congruence].
Qed.

Lemma name_known p d i n :
  coherent p -> d ∈ p -> delta_index d = Some i -> delta_name d = Some n -> cs_name (state_for p i) = Some n.
Proof.
  intros (_ & _ & Hc) Hd Hi Hx.
  destruct (last_omap_some delta_name (filter (fun d => delta_index d = Some i) p) d n) as [n' Hn']; [|done|].
  { apply list_elem_of_filter. auto. }
  change (cs_name (state_for p i) = Some n') in Hn'. destruct (name_from _ _ _ Hn') as (d' & Hd' & Hi' & He).
  rewrite Hn'. f_equal. apply (Hc d' d); [done..|congruence].
Qed.

Lemma fits_true {A} `{EqDecision A} (o o' : option A) a b : fits o o' = true -> o = Some a -> o' = Some b -> a = b.
Proof. intros H -> ->. simpl in H. by apply bool_decide_eq_true in H. Qed.

Lemma fits_intro {A} `{EqDecision A} (o o' : option A) :
  (forall a b, o = Some a -> o' = Some b -> a = b) -> fits o o' = true.
Proof. intros H. destruct o, o'; simpl; [|done..]. by apply bool_decide_eq_true, H. Qed.

(** Whether a delta keeps a coherent stream coherent can be read off the states. *)
Lemma coherent_snoc p d i :
  (forall d', d' ∈ p -> exists j, delta_index d' = Some j) -> delta_index d = Some i -> coherent p ->
  coherent (p ++ [d]) <->
  agrees (state_for p i) d = true /\ (forall x j, delta_id d = Some x -> cs_id (state_for p j) = Some x -> j = i).
Proof.
  intros Hix Hi Hp. assert (Hlast : d ∈ p ++ [d]) by set_solver.
  assert (Hsub : forall d', d' ∈ p -> d' ∈ p ++ [d]) by set_solver. split.
  - intros (Ht & Hc & Hn). unfold agrees. rewrite !andb_true_iff. split_and!.
    + apply fits_intro. intros x y (d' & Hd' & Hi' & Hx)%id_from Hy. apply (Hc d' d); auto. congruence.
    + apply fits_intro. intros x y (d' & Hd' & Hi' & Hx)%name_from Hy. apply (Hn d' d); auto. congruence.
    + auto.
    + intros x j Hx (d' & Hd' & Hi' & Hx')%id_from.
      assert (delta_index d' = delta_index d) by (apply (Hc d' d x x); auto). congruence.
  - intros [Hag Huniq]. unfold agrees in Hag. rewrite !andb_true_iff in Hag. destruct Hag as [[Hfi Hfn] Htx].
    assert (Hid : forall d' x x', d' ∈ p -> delta_id d' = Some x -> delta_id d = Some x' ->
                    x = x' <-> delta_index d' = delta_index d).
    { intros d' x x' Hd' Hx Hx'. destruct (Hix d' Hd') as [j Hj]. rewrite Hj, Hi.
      pose proof (id_known p d' j x Hp Hd' Hj Hx) as Hk. split.
      - intros ->. f_equal. eauto.
      - intros [= ->]. by apply (fits_true _ _ _ _ Hfi). }
    assert (Hnm : forall d' x x', d' ∈ p -> delta_name d' = Some x -> delta_name d = Some x' ->
                    delta_index d' = delta_index d -> x = x').
    { intros d' x x' Hd' Hx Hx' He. rewrite Hi in He. apply (fits_true _ _ _ _ Hfn); [by apply (name_known p d')|done]. }
    destruct Hp as (Ht & Hc & Hn). split_and!.
    + intros d' [Hd'| ->%list_elem_of_singleton]%elem_of_app; auto.
    + intros d1 d2 x1 x2 [Hd1| ->%list_elem_of_singleton]%elem_of_app [Hd2| ->%list_elem_of_singleton]%elem_of_app H1 H2; auto.
      * specialize (Hid d2 x2 x1 Hd2 H2 H1). split; [intros ->|intros He]; symmetry; apply Hid; auto.
      * split; congruence.
    + intros d1 d2 x1 x2 [Hd1| ->%list_elem_of_singleton]%elem_of_app [Hd2| ->%list_elem_of_singleton]%elem_of_app H1 H2 He; eauto.
      * symmetry. eauto.
      * congruence.
Qed.

(** ** The invariant of the assembler *)

Record assembled (p : list Delta) (a : Assembler) (idxs : list Z) : Prop := {
  asm_nodup : NoDup idxs;
  asm_states : as_states a = map (state_for p) idxs;
  asm_indexes : forall i, i ∈ idxs <-> index_in p i;
  asm_by_index : forall i k, as_by_index a !! i = Some k <-> idxs !! k = Some i;
  asm_by_id : forall x k, as_by_id a !! x = Some k <-> exists i, idxs !! k = Some i /\ cs_id (state_for p i) = Some x;
}.

Lemma assembled_new : assembled [] new_assembler [].
Proof.
  split; simpl.
  - constructor.
  - done.
  - intros i. split; [inversion 1|]. intros (d & Hd & _). inversion Hd.
  - intros i k. rewrite lookup_empty. by split.
  - intros x k. rewrite lookup_empty. split; [done|]. intros (i & Hi & _). done.
Qed.

(** The position of index [i] in the list, which may have just been added. *)
Record placed (p : list Delta) (idxs idxs' : list Z) (i : Z) (k : nat) : Prop := {
  pl_nodup : NoDup idxs';
  pl_at : idxs' !! k = Some i;
  pl_other : forall k' j, j <> i -> idxs' !! k' = Some j <-> idxs !! k' = Some j;
  pl_same : forall k' x, cs_id (state_for p i) = Some x -> idxs' !! k' = Some i <-> idxs !! k' = Some i;
}.

Lemma placed_old p idxs i k : NoDup idxs -> idxs !! k = Some i -> placed p idxs idxs i k.
Proof. intros Hn Hk. by split. Qed.

Lemma placed_new p idxs i : NoDup idxs -> i ∉ idxs -> ~ index_in p i -> placed p idxs (idxs ++ [i]) i (length idxs).
Proof.
  intros Hn Hi Hp. split.
  - apply NoDup_app. split_and!; [done| |apply NoDup_singleton]. intros j Hj ->%list_elem_of_singleton. done.
  - by rewrite lookup_app_r, Nat.sub_diag by lia.
  - intros k' j Hj. rewrite lookup_snoc_Some. split; [|by left; eauto using lookup_lt_Some].
    intros [[_ H]|[_ H]]; congruence.
  - intros k' x. by rewrite (state_for_absent p i Hp).
Qed.

Lemma assembled_snoc p a idxs d i k idxs' a' :
  assembled p a idxs -> delta_index d = Some i -> placed p idxs idxs' i k ->
  fits (cs_id (state_for p i)) (delta_id d) = true ->
  (forall x j, delta_id d = Some x -> cs_id (state_for p j) = Some x -> j = i) ->
  as_states a' = map (state_for (p ++ [d])) idxs' ->
  as_by_index a' = <[i := k]> (as_by_index a) ->
  as_by_id a' = match delta_id d with Some x => <[x := k]> (as_by_id a) | None => as_by_id a end ->
  assembled (p ++ [d]) a' idxs'.
Proof.
  intros [Hnd _ Hin Hbi Hbx] Hi [Hnd' Hat Hoth Hsame] Hfit Huniq Hst Hix Hid. split; [done|done|..].
  - intros j. unfold index_in. destruct (decide (j = i)) as [->|Hj].
    { split; [|intros _; by eapply list_elem_of_lookup_2]. intros _. exists d. set_solver. }
    rewrite list_elem_of_lookup. setoid_rewrite (Hoth _ _ Hj). rewrite <- list_elem_of_lookup, Hin. unfold index_in.
    split; intros (d' & Hd' & He); exists d'; [set_solver|].
    apply elem_of_app in Hd' as [Hd'| ->%list_elem_of_singleton]; [done|congruence].
  - intros j k'. rewrite Hix. destruct (decide (j = i)) as [->|Hj].
    + rewrite lookup_insert_eq. split; [by intros [= <-]|]. intros Hk'. f_equal. by eapply NoDup_lookup.
    + rewrite lookup_insert_ne by done. rewrite Hbi. symmetry. by apply Hoth.
  - assert (Hmove : forall x k', delta_id d <> Some x ->
      (exists j, idxs !! k' = Some j /\ cs_id (state_for p j) = Some x) <->
      (exists j, idxs' !! k' = Some j /\ cs_id (state_for (p ++ [d]) j) = Some x)).
    { intros x k' Hne. split; intros (j & Hj & Hx); exists j; (destruct (decide (j = i)) as [->|Hji];
        [|rewrite (state_for_other p d i) in * by done; by rewrite Hoth in * by done]).
      - rewrite (state_for_same p d i Hi). simpl. split; [by eapply Hsame|].
        destruct (delta_id d) as [y|] eqn:E; [|done]. destruct Hne. f_equal. symmetry. by apply (fits_true _ _ _ _ Hfit).
      - rewrite (state_for_same p d i Hi) in Hx. simpl in Hx.
        destruct (delta_id d) as [y|] eqn:E; [congruence|]. split; [|done]. by eapply Hsame. }
    intros x k'. rewrite Hid. destruct (delta_id d) as [y|] eqn:E; [|by rewrite Hbx, Hmove].
    destruct (decide (x = y)) as [->|Hxy]; [rewrite lookup_insert_eq|by rewrite lookup_insert_ne, Hbx, Hmove by congruence].
    split.
    + intros [= <-]. exists i. split; [done|]. rewrite (state_for_same p d i Hi). simpl. by rewrite E.
    + intros (j & Hj & Hx). destruct (decide (j = i)) as [->|Hji]; [f_equal; by eapply NoDup_lookup|].
      rewrite (state_for_other p d i) in Hx by done. destruct Hji. eauto.
Qed.

(** ** One delta, then a stream of them *)

Definition add_delta (d : Delta) : M Assembler unit := add_delta_call (d, delta_index d, delta_id d).

(** What a run from a coherent stream [p] over [q] comes to. *)
Definition settled (p q : list Delta) (r : Assembler * res unit) : Prop :=
  match r with
  | (a', Ok _) => coherent (p ++ q) /\ exists idxs', assembled (p ++ q) a' idxs'
  | (_, Err _) => ~ coherent (p ++ q)
  end.

Section one_delta.
Context (p : list Delta) (a : Assembler) (idxs : list Z) (d : Delta) (i : Z).
Context (Hix : forall d', d' ∈ p -> exists j, delta_index d' = Some j).
Context (Hi : delta_index d = Some i) (Hp : coherent p) (Ha : assembled p a idxs).

Lemma state_lookup k j : idxs !! k = Some j -> as_states a !! k = Some (state_for p j).
Proof. intros Hk. rewrite (asm_states _ _ _ Ha). by rewrite list_lookup_fmap, Hk. Qed.

Lemma settled_at k b s idxs' :
  as_states b !! k = Some s -> placed p idxs idxs' i k ->
  as_by_index b = as_by_index a -> as_by_id b = as_by_id a ->
  fits (cs_index s) (Some i) = true -> agrees s d = agrees (state_for p i) d ->
  (forall x j, delta_id d = Some x -> cs_id (state_for p j) = Some x -> j = i) ->
  <[k := absorb i s d]> (as_states b) = map (state_for (p ++ [d])) idxs' ->
  settled p [d] (add_at k d b).
Proof.
  intros Hk Hpl Hbi Hbx Hf Hag Huniq Hst. pose proof (add_at_outcome k i d s b Hk Hi) as Ho.
  rewrite Hf, Hag in Ho. simpl in Ho. destruct (agrees (state_for p i) d) eqn:E.
  - simpl in Ho. rewrite Ho. split; [apply (coherent_snoc p d i); auto|]. exists idxs'.
    apply (assembled_snoc p a idxs d i k); try done.
    + unfold agrees in E. rewrite !andb_true_iff in E. tauto.
    + unfold registered. simpl. by rewrite Hbi.
    + unfold registered. simpl. by rewrite Hbx.
  - destruct Ho as (b' & e & ->). simpl. rewrite (coherent_snoc p d i) by done. intros [? _]. congruence.
Qed.

(** The states after the delta, when index [i] was already there. *)
Lemma states_old k :
  idxs !! k = Some i ->
  <[k := absorb i (state_for p i) d]> (as_states a) = map (state_for (p ++ [d])) idxs.
Proof.
  intros Hk. rewrite (asm_states _ _ _ Ha). apply list_eq. intros k'. rewrite list_lookup_fmap.
  pose proof (lookup_lt_Some _ _ _ Hk) as Hlt.
  destruct (decide (k' = k)) as [->|Hne].
  - rewrite list_lookup_insert_eq by (by rewrite length_map). by rewrite Hk, <- (state_for_same p d i).
  - rewrite list_lookup_insert_ne, list_lookup_fmap by done. destruct (idxs !! k') as [j|] eqn:E; [|done]. simpl.
    rewrite (state_for_other p d i); [done..|]. intros ->. apply Hne. by eapply NoDup_lookup; [apply Ha|..].
Qed.

Lemma states_new :
  i ∉ idxs ->
  <[length idxs := absorb i fresh_state d]> (as_states a ++ [fresh_state]) = map (state_for (p ++ [d])) (idxs ++ [i]).
Proof.
  intros Hni. rewrite (asm_states _ _ _ Ha), map_app. simpl. rewrite (state_for_same p d i), state_for_absent; [|by rewrite <- (asm_indexes _ _ _ Ha)|done].
  rewrite insert_app_r_alt by (by rewrite length_map). rewrite length_map, Nat.sub_diag. f_equal.
  apply map_ext_in. intros j Hj%list_elem_of_In. rewrite (state_for_other p d i); [done..|]. by intros ->.
Qed.

(** The dictionary of ids knows the owner of every id. *)
Lemma by_id_owner x j : cs_id (state_for p j) = Some x -> exists k, as_by_id a !! x = Some k /\ idxs !! k = Some j.
Proof.
  intros Hx. assert (Hj : j ∈ idxs).
  { apply (asm_indexes _ _ _ Ha). destruct (id_from _ _ _ Hx) as (d' & Hd' & Hj & _). by exists d'. }
  apply list_elem_of_lookup in Hj as [k Hk]. exists k. split; [|done]. apply (asm_by_id _ _ _ Ha). eauto.
Qed.

Lemma settled_old k :
  idxs !! k = Some i ->
  (forall x k', delta_id d = Some x -> as_by_id a !! x = Some k' -> k' = k) ->
  settled p [d] (add_at k d a).
Proof.
  intros Hk Hown. apply (settled_at k a (state_for p i) idxs); auto using state_lookup, states_old.
  - apply placed_old; [apply Ha|done].
  - simpl. by apply bool_decide_eq_true.
  - intros x j Hx (k' & Hk' & Hj)%by_id_owner. rewrite (Hown x k' Hx Hk') in Hj. congruence.
Qed.

Lemma settled_foreign k j :
  idxs !! k = Some j -> j <> i -> (exists x, delta_id d = Some x /\ cs_id (state_for p j) = Some x) ->
  settled p [d] (add_at k d a).
Proof.
  intros Hk Hj (x & Hx & Hjx). pose proof (add_at_outcome k i d _ a (state_lookup k j Hk) Hi) as Ho. simpl in Ho.
  rewrite bool_decide_eq_false_2 in Ho by done. destruct Ho as (b' & e & ->). simpl.
  rewrite (coherent_snoc p d i) by done. intros [_ Hu]. by apply Hj, (Hu x).
Qed.

Lemma settled_new :
  i ∉ idxs -> (forall x, delta_id d = Some x -> as_by_id a !! x = None) ->
  settled p [d] (add_at (length (as_states a)) d (set_states (as_states a ++ [fresh_state]) a)).
Proof.
  intros Hni Hnone. assert (Hlen : length (as_states a) = length idxs) by (by rewrite (asm_states _ _ _ Ha), length_map).
  assert (Hab : ~ index_in p i) by (by rewrite <- (asm_indexes _ _ _ Ha)). rewrite Hlen.
  apply (settled_at (length idxs) _ fresh_state (idxs ++ [i])); try done.
  - simpl. by rewrite lookup_app_r, Hlen, Nat.sub_diag by lia.
  - apply placed_new; [apply Ha|done..].
  - by rewrite (state_for_absent p i Hab).
  - intros x j Hx (k' & Hk' & _)%by_id_owner. rewrite (Hnone x Hx) in Hk'. done.
  - by apply states_new.
Qed.

Lemma add_delta_settled : settled p [d] (add_delta d a).
Proof.
  assert (Hrun : add_delta d a = (k <- resolve_state (delta_index d) (delta_id d) ;; add_at k d) a) by done.
  rewrite Hrun, Hi. clear Hrun. unfold resolve_state, bind at 1 2, get. simpl.
  destruct (as_by_index a !! i) as [k|] eqn:Ek, (delta_id d ≫= fun x => as_by_id a !! x) as [k'|] eqn:Ex.
  - apply (asm_by_index _ _ _ Ha) in Ek. apply bind_Some in Ex as (x & Hx & Hk').
    destruct (Nat.eqb_spec k k') as [<-|Hne]; simpl.
    + apply settled_old; [done|]. intros y k'' Hy Hk''. congruence.
    + apply (asm_by_id _ _ _ Ha) in Hk' as (j & Hj & Hjx).
      rewrite (coherent_snoc p d i) by done. intros [_ Hu]. apply Hne. rewrite (Hu x j Hx Hjx) in Hj.
      by eapply NoDup_lookup; [apply Ha|..].
  - apply (asm_by_index _ _ _ Ha) in Ek. simpl. apply settled_old; [done|]. intros x k' Hx Hk'.
    rewrite Hx in Ex. simpl in Ex. congruence.
  - apply bind_Some in Ex as (x & Hx & (j & Hj & Hjx)%(asm_by_id _ _ _ Ha)). simpl.
    apply (settled_foreign k' j Hj); [|eauto]. intros ->. apply (asm_by_index _ _ _ Ha) in Hj. congruence.
  - assert (Hni : i ∉ idxs).
    { intros [k Hk]%list_elem_of_lookup. apply (asm_by_index _ _ _ Ha) in Hk. congruence. }
    assert (Hnone : forall x, delta_id d = Some x -> as_by_id a !! x = None) by (intros x Hx; by rewrite Hx in Ex).
    pose proof (settled_new Hni Hnone) as Hnew. pose proof (asm_states _ _ _ Ha) as Hst.
    destruct (as_states a) as [|s0 [|s1 r]]; [exact Hnew| |exact Hnew].
    assert (Hs0 : exists j, cs_index s0 = Some j) by (destruct idxs; simplify_eq/=; eauto).
    destruct Hs0 as [j Hj]. rewrite Hj. simpl. by destruct (delta_id d).
Qed.
End one_delta.

Lemma add_deltas_settled p q a idxs :
  (forall d, d ∈ p ++ q -> exists j, delta_index d = Some j) -> coherent p -> assembled p a idxs ->
  settled p q (for_each add_delta q a).
Proof.
  revert p a idxs. induction q as [|d q IH]; intros p a idxs Hix Hp Ha.
  { simpl. rewrite app_nil_r. eauto. }
  destruct (Hix d) as [i Hi]; [set_solver|].
  pose proof (add_delta_settled p a idxs d i ltac:(set_solver) Hi Hp Ha) as Hd.
  assert (Happ : (p ++ [d]) ++ q = p ++ d :: q) by (by rewrite <- app_assoc).
  simpl. unfold bind. destruct (add_delta d a) as [a' [[]|e]]; simpl in Hd.
  - destruct Hd as [Hc [idxs' Ha']]. specialize (IH (p ++ [d]) a' idxs'). unfold settled in *. rewrite Happ in IH. by apply IH.
  - simpl. rewrite <- Happ. by intros ?%coherent_app.
Qed.

(** ** Batches *)

Definition named (d : Delta) := (d, delta_index d, delta_id d).

Lemma for_each_map {S A B} (f : B -> M S unit) (g : A -> B) l s : for_each f (map g l) s = for_each (fun x => f (g x)) l s.
Proof.
  revert s. induction l as [|x l IH]; intros s; [done|]. simpl. unfold bind. by destruct (f (g x) s) as [s' [|]].
Qed.

Lemma for_each_concat {S A} (f : A -> M S unit) ls s : for_each (for_each f) ls s = for_each f (concat ls) s.
Proof.
  assert (Happ : forall l l' s, for_each f (l ++ l') s = (for_each f l ;;; for_each f l') s).
  { intros l l'. induction l as [|x l IH]; intros t; [done|]. simpl. unfold bind in *.
    destruct (f x t) as [t' [|]]; [apply IH|done]. }
  revert s. induction ls as [|l ls IH]; intros s; [done|]. simpl. rewrite Happ. unfold bind.
  by destruct (for_each f l s) as [s' [|]].
Qed.

Lemma for_each_ext {S A} (f g : A -> M S unit) l s :
  (forall x s, x ∈ l -> f x s = g x s) -> for_each f l s = for_each g l s.
Proof.
  revert s. induction l as [|x l IH]; intros s H; [done|]. simpl. unfold bind. rewrite H by constructor.
  destruct (g x s) as [s' [|]]; [|done]. apply IH. intros y t Hy. apply H. by constructor.
Qed.

Lemma add_batch_indexed b a : Forall indexed b -> add_batch b a = for_each add_delta b a.
Proof.
  intros Hb. unfold add_batch, bind, lift.
  assert (Hid : res_map identify b = Ok (map named b)).
  { apply res_map_ok. eapply Forall_impl; [exact Hb|]. intros d (i & x & Hi & Hx).
    unfold identify, named, delta_index, delta_id. by rewrite Hi, Hx. }
  rewrite Hid. assert (Hun : existsb unidentified (map named b) = false).
  { apply not_true_iff_false. rewrite existsb_exists. intros (c & (d & <- & Hd)%in_map_iff & Hu).
    rewrite Forall_forall in Hb. destruct (Hb d) as (i & x & Hi & Hx); [by apply list_elem_of_In|].
    unfold named, unidentified, delta_index in Hu. by rewrite Hi in Hu. }
  rewrite Hun, andb_false_r. exact (for_each_map add_delta_call named b a).
Qed.

(** ** The finished calls *)

#[local] Instance index_le_total : Total index_le.
Proof. intros s s'. unfold index_le. lia. Qed.
#[local] Instance index_le_trans : Transitive index_le.
Proof. intros s s' s''. unfold index_le. lia. Qed.

Lemma finish_sorted loads ds a idxs :
  assembled ds a idxs ->
  exists idxs', StronglySorted Z.lt idxs' /\ idxs' ≡ₚ idxs /\
    finish_calls loads a = res_map (finish_state loads) (map (state_for ds) idxs').
Proof.
  intros Ha. unfold finish_calls. rewrite (asm_states _ _ _ Ha).
  assert (Hall : forallb has_index (map (state_for ds) idxs) = true).
  { apply forallb_forall. by intros s (i & <- & _)%in_map_iff. }
  rewrite Hall, andb_false_r.
  pose proof (merge_sort_Permutation index_le (map (state_for ds) idxs)) as Hperm.
  pose proof (StronglySorted_merge_sort index_le (map (state_for ds) idxs)) as Hsort.
  destruct (Permutation_map_inv _ _ Hperm) as (idxs' & Heq & Hp').
  exists idxs'. rewrite Heq in *. split_and!; [|done|done].
  assert (Hnd : NoDup idxs') by (rewrite <- Hp'; apply Ha). clear - Hsort Hnd.
  induction idxs' as [|i l IH]; [constructor|]. simpl in Hsort.
  apply StronglySorted_cons in Hsort as [Hle Hsort]. apply NoDup_cons in Hnd as [Hni Hnd].
  constructor; [by apply IH|]. apply Forall_forall. intros j Hj.
  rewrite Forall_map in Hle. rewrite Forall_forall in Hle. specialize (Hle j Hj). unfold index_le in Hle. simpl in Hle.
  assert (i <> j) by (by intros ->). lia.
Qed.

(** C37: a stream in which every delta carries an index is accepted exactly when
    the deltas agree (an index and an id name each other, a call keeps its name,
    arguments come as text), however it is cut into batches; and the finished
    calls are then one per index, in ascending order, each with the id, the name
    and the argument fragments, in order of arrival, of the deltas of its index.
    A call without an id or a name is refused at the end. *)
Theorem stream_by_index (loads : string -> json + string) (batches : list (list Delta)) :
  Forall (Forall indexed) batches ->
  match for_each add_batch batches new_assembler with
  | (a, Ok _) =>
      coherent (concat batches) /\
      exists idxs, StronglySorted Z.lt idxs /\ (forall i, i ∈ idxs <-> index_in (concat batches) i) /\
        finish_calls loads a = res_map (finish_state loads) (map (state_for (concat batches)) idxs)
  | (_, Err _) => ~ coherent (concat batches)
  end.
Proof.
  intros Hb. rewrite (for_each_ext add_batch (for_each add_delta)), for_each_concat.
  2: { intros b a Hin. apply add_batch_indexed. rewrite Forall_forall in Hb. auto. }
  assert (Hix : forall d, d ∈ concat batches -> exists j, delta_index d = Some j).
  { apply Forall_concat in Hb. rewrite Forall_forall in Hb. intros d Hd.
    destruct (Hb d Hd) as (i & x & Hi & _). exists i. unfold delta_index. by rewrite Hi. }
  pose proof (add_deltas_settled [] (concat batches) new_assembler [] Hix) as Hs.
  specialize (Hs ltac:(by split_and!; intros * H; inversion H) assembled_new).
  destruct (for_each add_delta (concat batches) new_assembler) as [a [u|e]]; simpl in Hs; [|done].
  destruct Hs as [Hc [idxs Ha]]. split; [done|].
  destruct (finish_sorted loads _ _ _ Ha) as (idxs' & Hsort & Hperm & Hf).
  exists idxs'. split_and!; [done| |done]. intros i. by rewrite Hperm, (asm_indexes _ _ _ Ha).
Qed.

(** Two calls whose fragments interleave, the second one arriving first. *)
Definition demo_batches : list (list Delta) :=
  [[MkDelta (JInt 1) (JStr "call-b") (Some (JStr "read", JStr "{"));
    MkDelta (JInt 0) (JStr "call-a") (Some (JStr "grep", JNull))];
   [MkDelta (JInt 1) JNull (Some (JNull, JStr "}"))];
   [MkDelta (JInt 0) JNull (Some (JNull, JStr "{}"))]].

Lemma stream_by_index_witness :
  finish_calls (fun _ => inl (JObj [])) (fst (for_each add_batch demo_batches new_assembler))
    = Ok [MkToolCall "call-a" "grep" (ArgsDict []) None; MkToolCall "call-b" "read" (ArgsDict []) None] /\
  coherent (concat demo_batches).
Proof.
  assert (Hb : Forall (Forall indexed) demo_batches)
    by (repeat constructor; eexists _, _; (split; reflexivity)).
  pose proof (stream_by_index (fun _ => inl (JObj [])) demo_batches Hb) as H.
  split; [by vm_compute|].
  assert (Hr : snd (for_each add_batch demo_batches new_assembler) = Ok tt) by (by vm_compute).
  destruct (for_each add_batch demo_batches new_assembler) as [a [u|e]]; [apply H|discriminate Hr].
Defined.
