(* ===== verification/TurnRunner.v ===== *)
(** * Turns of the runtime

    agent_runtime/turn_runner.py: the queue of turns that have been announced, the
    steering and the cancellations that arrive for them, and the run of one turn.
    Every method holds the lock, so it is one atomic step; the agent works on the
    control of the running turn in steps of its own ([TurnControl]). *)

From stdpp Require Import base list strings.
From Stdlib Require Import ZArith Lia.
From S2P Require Import Prelude PyData PyStr Json Content Authority TurnControl.

Record Runner := MkRunner {
  rn_turn_id : option string;
  rn_control : option Control;
  rn_queued : list string;
  rn_pending_steers : list (string * list (string * string));
  rn_pending_cancels : list string;
  rn_shutdown : bool;
}.

Definition new_runner : Runner := MkRunner None None [] [] [] false.

Definition set_control (c : option Control) (r : Runner) : Runner :=
  MkRunner (rn_turn_id r) c (rn_queued r) (rn_pending_steers r) (rn_pending_cancels r) (rn_shutdown r).

(** [set.add], [set.discard] *)
Definition set_add (x : string) (l : list string) : list string := if name_in x l then l else l ++ [x].
Definition set_discard (x : string) (l : list string) : list string := List.filter (fun y => negb (String.eqb x y)) l.

Definition enqueue (turn_id : string) (r : Runner) : Runner :=
  MkRunner (rn_turn_id r) (rn_control r) (set_add turn_id (rn_queued r)) (rn_pending_steers r) (rn_pending_cancels r) (rn_shutdown r).

(** [self.control], if the turn is the running one. *)
Definition live_control (turn_id : string) (r : Runner) : option Control :=
  match rn_control r, rn_turn_id r with
  | Some c, Some t => if String.eqb turn_id t then Some c else None
  | _, _ => None
  end.

Definition add_pending_steer (turn_id steer_id text : string) (r : Runner) : Runner :=
  MkRunner (rn_turn_id r) (rn_control r) (rn_queued r)
    (dset turn_id (default [] (dget turn_id (rn_pending_steers r)) ++ [(steer_id, text)]) (rn_pending_steers r))
    (rn_pending_cancels r) (rn_shutdown r).

Definition runner_steer (turn_id steer_id text : string) (r : Runner) : Runner * bool :=
  match live_control turn_id r with
  | Some c => let '(c', b) := steer steer_id text c in (set_control (Some c') r, b)
  | None => if name_in turn_id (rn_queued r) && negb (rn_shutdown r)
            then (add_pending_steer turn_id steer_id text r, true)
            else (r, false)
  end.

Definition runner_cancel (turn_id : string) (r : Runner) : Runner * bool :=
  match live_control turn_id r with
  | Some c => let '(c', b) := cancel c in (set_control (Some c') r, b)
  | None =>
      if name_in turn_id (rn_queued r)
      then (MkRunner (rn_turn_id r) (rn_control r) (rn_queued r) (rn_pending_steers r)
              (set_add turn_id (rn_pending_cancels r)) (rn_shutdown r), false)
      else (r, false)
  end.

Definition runner_shutdown (r : Runner) : Runner * bool :=
  let r1 := MkRunner (rn_turn_id r) (rn_control r) (rn_queued r) (rn_pending_steers r) (rn_pending_cancels r) true in
  match rn_control r with
  | Some c => let '(c', b) := cancel c in (set_control (Some c') r1, b)
  | None => (r1, false)
  end.

(** The steering that waited is handed to the new control in its order. *)
Definition hand_over (pending : list (string * string)) (c : Control) : Control :=
  fold_left (fun c st => fst (steer (fst st) (snd st) c)) pending c.

(** The first block of [run_turn]. *)
Definition begin_run (turn_id : string) : M Runner unit := fun r =>
  match rn_turn_id r with
  | Some _ => (r, Err (Exn ERuntimeError "a turn is already running"))
  | None =>
      let c := hand_over (default [] (dget turn_id (rn_pending_steers r))) (new_control false) in
      let c' := if name_in turn_id (rn_pending_cancels r) || rn_shutdown r then fst (cancel c) else c in
      (MkRunner (Some turn_id) (Some c') (set_discard turn_id (rn_queued r)) (dpop turn_id (rn_pending_steers r))
         (set_discard turn_id (rn_pending_cancels r)) (rn_shutdown r), Ok tt)
  end.

(** Its [finally] block. *)
Definition end_run (r : Runner) : Runner :=
  MkRunner None None (rn_queued r) (rn_pending_steers r) (rn_pending_cancels r) (rn_shutdown r).

(** ** run_turn *)

Inductive TurnOutcome := OutCompleted | OutCancelled | OutFailed.

Record TurnResult := MkTurnResult {
  res_status : TurnOutcome;
  res_usage : option TokenUsage;
  res_error : option RuntimeErrorInfo;
  res_startup_failed : bool;
}.

(** What the long-term memory is asked to do in a turn. *)
Inductive MemoryCall := MemBegin | MemReconcile | MemDiscard.

Record TurnWorld := MkTurnWorld {
  tw_runner : Runner;
  tw_started : bool;
  tw_memory : bool;
  tw_calls : list MemoryCall;
  tw_warnings : list string;
}.

(** The plane that [ensure_plane] returns: its warnings and whether it has a memory
    and an agent. *)
Record PlaneView := MkPlaneView { pv_agent : bool; pv_memory : bool; pv_warnings : list string }.

Section run_turn.
(** What the collaborators do: the plane, the phase callback, the memory (per call),
    the attachments and the run of the agent, which acts on the runner through its
    control; the details of an error. *)
Variables (ensure_plane : res PlaneView) (on_phase : list string -> res unit) (memory_call : MemoryCall -> res unit).
Variables (attachments : res unit) (agent_run : M Runner (option TokenUsage)) (details : exn -> list (string * json)).

Definition call_memory (m : MemoryCall) : M TurnWorld unit := fun w =>
  (MkTurnWorld (tw_runner w) (tw_started w) (tw_memory w) (tw_calls w ++ [m]) (tw_warnings w), memory_call m).

Definition when_memory (m : MemoryCall) : M TurnWorld unit :=
  w <- get ;; if tw_memory w then call_memory m else ret tt.

Definition on_runner {A} (c : M Runner A) : M TurnWorld A := fun w =>
  let '(r, x) := c (tw_runner w) in (MkTurnWorld r (tw_started w) (tw_memory w) (tw_calls w) (tw_warnings w), x).

Definition set_warnings (v : list string) (w : TurnWorld) :=
  MkTurnWorld (tw_runner w) (tw_started w) (tw_memory w) (tw_calls w) v.

(** [try: memory.reconcile_pending() except Exception as error: ...] *)
Definition reconcile : M TurnWorld unit :=
  catch (when_memory MemReconcile)
    (fun e => if is_exception e
              then modify (fun w => set_warnings (tw_warnings w ++ ["Long-term memory update failed: " +:+ exn_msg e]) w)
              else fail e).

Definition turn_body : M TurnWorld TurnResult :=
  plane <- lift ensure_plane ;;
  modify (fun w => set_warnings (pv_warnings plane) w) ;;;
  (if pv_agent plane then ret tt else fail (Exn EAssertion "")) ;;;
  modify (fun w => MkTurnWorld (tw_runner w) true (tw_memory w) (tw_calls w) (tw_warnings w)) ;;;
  lift (on_phase (pv_warnings plane)) ;;;
  modify (fun w => MkTurnWorld (tw_runner w) (tw_started w) (pv_memory plane) (tw_calls w) []) ;;;
  when_memory MemBegin ;;;
  lift attachments ;;;
  usage <- on_runner agent_run ;;
  reconcile ;;;
  ret (MkTurnResult OutCompleted usage None false).

Definition turn_handler (e : exn) : M TurnWorld TurnResult :=
  if is_class EKeyboardInterrupt e || is_class EAgentCancelled e
  then when_memory MemDiscard ;;; ret (MkTurnResult OutCancelled None None false)
  else if is_exception e
  then when_memory MemDiscard ;;;
       w <- get ;; ret (MkTurnResult OutFailed None (Some (runtime_error_info e (details e))) (negb (tw_started w)))
  else fail e.

Definition run_turn (turn_id : string) : M TurnWorld TurnResult :=
  on_runner (begin_run turn_id) ;;;
  modify (fun w => MkTurnWorld (tw_runner w) false false (tw_calls w) (tw_warnings w)) ;;;
  finally (catch turn_body turn_handler) (on_runner (fun r => (end_run r, Ok tt))).
End run_turn.
