(* ===== verification/TurnRunnerThms.v ===== *)
(** * Turns of the runtime: steering and memory

    Steering that is accepted for a turn, before it starts or while it runs,
    reaches the agent exactly once; a turn always releases the runner, and the
    long-term memory takes over what a turn collected only when it completed. *)

From stdpp Require Import base list strings.
From Stdlib Require Import ZArith Lia.
From S2P Require Import Prelude PyData PyStr Json Content Authority TurnControl TurnRunner.

(** ** The run of a turn *)

Section run_turn.
Context (ensure_plane : res PlaneView) (on_phase : list string -> res unit) (memory_call : MemoryCall -> res unit).
Context (attachments : res unit) (agent_run : M Runner (option TokenUsage)) (details : exn -> list (string * json)).

(** The memory calls of a turn that completed, and of one that did not. *)
Definition completed_calls (memory : bool) : list MemoryCall := if memory then [MemBegin; MemReconcile] else [].
Definition abandoned_calls (calls : list MemoryCall) : Prop := calls = [] \/ exists l, calls = MemBegin :: l ++ [MemDiscard].

(** The long-term memory after a turn. *)
Definition memory_settled (calls : list MemoryCall) (r : res TurnResult) : Prop :=
  match r with
  | Ok result =>
      match res_status result with
      | OutCompleted => exists plane, ensure_plane = Ok plane /\ calls = completed_calls (pv_memory plane)
      | _ => abandoned_calls calls
      end /\
      (res_startup_failed result = true -> calls = [] /\ forall plane, ensure_plane = Ok plane -> pv_agent plane = false)
  | Err e => is_exception e = false \/ memory_call MemDiscard = Err e
  end.

(** The handlers, from a world in which the turn has called the memory with [calls]. *)
Lemma handler_settled e w before calls :
  tw_calls w = before ++ calls ->
  (if tw_memory w then exists l, calls = MemBegin :: l else calls = []) ->
  (tw_started w = false -> calls = [] /\ forall plane, ensure_plane = Ok plane -> pv_agent plane = false) ->
  let '(w', r) := turn_handler memory_call details e w in
  exists calls', tw_calls w' = before ++ calls' /\ memory_settled calls' r.
Proof.
  intros Hc Hm Hs. unfold turn_handler, when_memory, call_memory, bind, get, ret, fail.
  destruct (is_class EKeyboardInterrupt e || is_class EAgentCancelled e) eqn:Ei; simpl.
  - destruct (tw_memory w); simpl.
    + destruct Hm as [l ->]. rewrite Hc, <- app_assoc. destruct (memory_call MemDiscard) as [[]|e'] eqn:Ed; simpl;
        (eexists; split; [reflexivity|]).
      * split; [|done]. right. by exists l.
      * by right.
    + subst calls. exists []. split; [done|]. split; [by left|done].
  - destruct (is_exception e) eqn:Ee; simpl; [|exists calls; split; [done|by left]].
    destruct (tw_memory w); simpl.
    + destruct Hm as [l ->]. rewrite Hc, <- app_assoc. destruct (memory_call MemDiscard) as [[]|e'] eqn:Ed; simpl;
        (eexists; split; [reflexivity|]).
      * split; [right; by exists l|]. simpl. intros Hst%negb_true_iff. by destruct (Hs Hst).
      * by right.
    + subst calls. exists []. split; [done|]. split; [by left|]. simpl. intros Hst%negb_true_iff. auto.
Qed.

(** What the handlers rely on when an exception leaves the body. *)
Definition body_calls (w : TurnWorld) (calls : list MemoryCall) : Prop :=
  (if tw_memory w then exists l, calls = MemBegin :: l else calls = []) /\
  (tw_started w = false -> calls = [] /\ forall plane, ensure_plane = Ok plane -> pv_agent plane = false).

Lemma body_settled w :
  tw_started w = false -> tw_memory w = false ->
  let '(w', r) := turn_body ensure_plane on_phase memory_call attachments agent_run w in
  exists calls, tw_calls w' = tw_calls w ++ calls /\
    match r with Ok _ => memory_settled calls r | Err _ => body_calls w' calls end.
Proof.
  intros Hs Hm. unfold turn_body, reconcile, when_memory, call_memory, on_runner, catch, bind, get, ret, fail, lift, modify.
  destruct ensure_plane as [plane|e] eqn:Ep; simpl.
  2: { exists []. rewrite app_nil_r. split; [done|]. unfold body_calls. rewrite Hm. split; [done|]. intros _. split; [done|]. 
    intros p Hp. congruence. }
  destruct (pv_agent plane) eqn:Ea; simpl.
  2: { exists []. rewrite app_nil_r. split; [done|]. unfold body_calls. simpl. rewrite Hm. split; [done|]. intros _. split; [done|].
    intros p Hp. congruence. }
  destruct (on_phase (pv_warnings plane)) as [[]|e]; simpl.
  2: { exists []. rewrite app_nil_r. split; [done|]. unfold body_calls. simpl. by rewrite Hm. }
  destruct (pv_memory plane) eqn:Em; simpl.
  - destruct (memory_call MemBegin) as [[]|e]; simpl; [|exists [MemBegin]; split; [done|]; split; [by exists []|done]].
    destruct attachments as [[]|e]; simpl; [|exists [MemBegin]; split; [done|]; split; [by exists []|done]].
    destruct (agent_run (tw_runner w)) as [r' [u|e]]; simpl; [|exists [MemBegin]; split; [done|]; split; [by exists []|done]].
    rewrite <- app_assoc. destruct (memory_call MemReconcile) as [[]|e]; simpl.
    + eexists. split; [reflexivity|]. split; [|done]. simpl. exists plane. by rewrite Em.
    + destruct (is_exception e); simpl; (eexists; split; [reflexivity|]).
      * split; [|done]. simpl. exists plane. by rewrite Em.
      * split; [by eexists|done].
  - destruct attachments as [[]|e]; simpl; [|exists []; rewrite app_nil_r; by split].
    destruct (agent_run (tw_runner w)) as [r' [u|e]]; simpl; (exists []; rewrite app_nil_r; split; [done|]); [|by split].
    split; [|done]. simpl. exists plane. by rewrite Em.
Qed.
End run_turn.

(** C6: however the collaborators of a turn behave, a turn that began releases the
    runner when it ends, with a result or an exception, and what it collected for
    the long-term memory is settled: reconciled exactly when the turn completed,
    discarded when it was cancelled or failed; a turn is reported as failed at
    startup only if no plane with an agent was there, and then the memory was
    never touched.  Only an interpreter exit or an error of discarding leaves as
    an exception. *)
Theorem run_turn_outcome (ensure_plane : res PlaneView) (on_phase : list string -> res unit) (memory_call : MemoryCall -> res unit)
    (attachments : res unit) (agent_run : M Runner (option TokenUsage)) (details : exn -> list (string * json)) turn_id w :
  rn_turn_id (tw_runner w) = None ->
  let '(w', r) := run_turn ensure_plane on_phase memory_call attachments agent_run details turn_id w in
  rn_turn_id (tw_runner w') = None /\ rn_control (tw_runner w') = None /\
  exists calls, tw_calls w' = tw_calls w ++ calls /\ memory_settled ensure_plane memory_call calls r.
Proof.
  intros Hidle. unfold run_turn. unfold bind at 1, on_runner at 1, begin_run. rewrite Hidle. unfold bind, modify, finally, catch.
  match goal with |- context [turn_body _ _ _ _ _ ?w1] => set (w0 := w1) end.
  pose proof (body_settled ensure_plane on_phase memory_call attachments agent_run w0 eq_refl eq_refl) as Hb.
  destruct (turn_body _ _ _ _ _ w0) as [w1 [result|e]]; destruct Hb as (calls & Hc & Hb).
  - simpl. split_and!; [done..|]. by exists calls.
  - destruct Hb as [Hm Hs]. pose proof (handler_settled ensure_plane memory_call details e w1 (tw_calls w0) calls Hc Hm Hs) as Hh.
    destruct (turn_handler memory_call details e w1) as [w2 r2]. destruct Hh as (calls' & Hc' & Hr). simpl.
    split_and!; [done..|]. by exists calls'.
Qed.

Lemma run_turn_outcome_witness :
  let calls m := match m with MemReconcile => Err (Exn EValueError "offline") | _ => Ok tt end in
  let agent r := (r, Err (Exn EAgentCancelled "")) in
  let w := MkTurnWorld (enqueue "t" new_runner) false false [] [] in
  let '(w', r) := run_turn (Ok (MkPlaneView true true [])) (fun _ => Ok tt) calls (Ok tt) agent (fun _ => []) "t" w in
  r = Ok (MkTurnResult OutCancelled None None false) /\ tw_calls w' = [MemBegin; MemDiscard] /\
  exists c, tw_calls w' = tw_calls w ++ c /\ memory_settled (Ok (MkPlaneView true true [])) calls c r.
Proof.
  intros calls agent w.
  pose proof (run_turn_outcome (Ok (MkPlaneView true true [])) (fun _ => Ok tt) calls (Ok tt) agent (fun _ => []) "t" w eq_refl) as H.
  destruct (run_turn _ _ _ _ _ _ "t" w) as [w' r] eqn:E. vm_compute in E. injection E as <- <-. split_and!; [done..|]. apply H.
Defined.

(** ** Steering, from the queue to the agent *)

Inductive RunnerOp :=
| REnqueue (turn_id : string)
| RSteer (turn_id steer_id text : string)
| RCancel (turn_id : string)
| RShutdown
| RBegin (turn_id : string)
| RDrain
| RFinish
| REnd.

(** One step: the runner, the steering handed to the agent, and the steering for
    [turn] whose sender was told it was accepted. *)
Definition runner_step (turn : string) (op : RunnerOp) (r : Runner) : Runner * list UserSteer * list UserSteer :=
  match op with
  | REnqueue t => (enqueue t r, [], [])
  | RSteer t id text =>
      let '(r', b) := runner_steer t id text r in (r', [], if b && String.eqb t turn then [MkSteer id text] else [])
  | RCancel t => (fst (runner_cancel t r), [], [])
  | RShutdown => (fst (runner_shutdown r), [], [])
  | RBegin t => (fst (begin_run t r), [], [])
  | RDrain =>
      match rn_control r with
      | Some c => let '(c', d) := drain_steering c in (set_control (Some c') r, d, [])
      | None => (r, [], [])
      end
  | RFinish =>
      match rn_control r with
      | Some c => let '(c', d) := finish c in (set_control (Some c') r, d, [])
      | None => (r, [], [])
      end
  | REnd => (end_run r, [], [])
  end.

Fixpoint runner_steps (turn : string) (ops : list RunnerOp) (r : Runner) : Runner * list UserSteer * list UserSteer :=
  match ops with
  | [] => (r, [], [])
  | op :: ops' =>
      let '(r1, d1, a1) := runner_step turn op r in
      let '(r2, d2, a2) := runner_steps turn ops' r1 in
      (r2, d1 ++ d2, a1 ++ a2)
  end.

(** Before the turn begins: its steering waits, in order. *)
Definition waiting (turn : string) (r : Runner) : list (string * string) := default [] (dget turn (rn_pending_steers r)).
Definition as_steer (st : string * string) : UserSteer := MkSteer (fst st) (snd st).

Lemma live_control_none turn r : rn_turn_id r <> Some turn -> live_control turn r = None.
Proof.
  unfold live_control. intros H. destruct (rn_control r); [|done]. destruct (rn_turn_id r) as [t|]; [|done].
  destruct (String.eqb_spec turn t); congruence.
Qed.

Lemma waiting_pending turn t id text r :
  waiting turn (add_pending_steer t id text r) = waiting turn r ++ (if String.eqb t turn then [(id, text)] else []).
Proof.
  unfold waiting, add_pending_steer. simpl. destruct (String.eqb_spec t turn) as [->|Hne].
  - by rewrite dget_dset_eq.
  - by rewrite dget_dset_ne, app_nil_r.
Qed.

Lemma runner_step_waiting turn op r r' d a :
  op <> RBegin turn -> rn_turn_id r <> Some turn -> runner_step turn op r = (r', d, a) ->
  rn_turn_id r' <> Some turn /\ map as_steer (waiting turn r') = map as_steer (waiting turn r) ++ a.
Proof.
  intros Hop Hid. pose proof (live_control_none turn r Hid) as Hlive.
  destruct op as [t|t id text|t| |t| | |]; simpl.
  - intros [= <- <- <-]. by rewrite app_nil_r.
  - unfold runner_steer. destruct (live_control t r) as [c|] eqn:El.
    + assert (t <> turn) by (intros ->; congruence). destruct (steer id text c) as [c' b].
      intros [= <- <- <-]. destruct (String.eqb_spec t turn); [done|]. rewrite andb_false_r, app_nil_r. done.
    + destruct (name_in t (rn_queued r) && negb (rn_shutdown r)); intros [= <- <- <-]; [|by rewrite app_nil_r].
      split; [done|]. rewrite waiting_pending, map_app. simpl. by destruct (String.eqb t turn).
  - intros [= <- <- <-]. rewrite app_nil_r. unfold runner_cancel. destruct (live_control t r); [by destruct (cancel c)|].
    by destruct (name_in t (rn_queued r)).
  - intros [= <- <- <-]. rewrite app_nil_r. unfold runner_shutdown. destruct (rn_control r); [by destruct (cancel c)|done].
  - intros [= <- <- <-]. rewrite app_nil_r. unfold begin_run. destruct (rn_turn_id r) eqn:E; [simpl; by rewrite E|]. simpl.
    assert (t <> turn) by (intros ->; done). split; [congruence|]. unfold waiting. simpl. by rewrite dget_dpop_ne.
  - destruct (rn_control r) as [c|]; [destruct (drain_steering c)|]; intros [= <- <- <-]; by rewrite app_nil_r.
  - destruct (rn_control r) as [c|]; [destruct (finish c)|]; intros [= <- <- <-]; by rewrite app_nil_r.
  - intros [= <- <- <-]. by rewrite app_nil_r.
Qed.

Lemma runner_steps_waiting turn ops r r' d a :
  Forall (fun op => op <> RBegin turn) ops -> rn_turn_id r <> Some turn -> runner_steps turn ops r = (r', d, a) ->
  map as_steer (waiting turn r') = map as_steer (waiting turn r) ++ a.
Proof.
  intros Hq. revert r r' d a. induction Hq as [|op ops Hop _ IH]; intros r r' d a Hid Hrun; simpl in Hrun.
  - injection Hrun as <- <- <-. by rewrite app_nil_r.
  - destruct (runner_step turn op r) as [[r1 d1] a1] eqn:E1. destruct (runner_steps turn ops r1) as [[r2 d2] a2] eqn:E2.
    injection Hrun as <- <- <-. destruct (runner_step_waiting _ _ _ _ _ _ Hop Hid E1) as [Hid1 Hw1].
    by rewrite (IH _ _ _ _ Hid1 E2), Hw1, app_assoc.
Qed.

(** The first steer of each id. *)
Fixpoint first_by_id (seen : list string) (l : list UserSteer) : list UserSteer :=
  match l with
  | [] => []
  | s :: l' => if name_in (steer_id s) seen then first_by_id seen l' else s :: first_by_id (seen ++ [steer_id s]) l'
  end.

Lemma first_by_id_app seen a b :
  first_by_id seen (a ++ b) = first_by_id seen a ++ first_by_id (seen ++ map steer_id (first_by_id seen a)) b.
Proof.
  revert seen. induction a as [|s a IH]; intros seen; simpl; [by rewrite app_nil_r|].
  destruct (name_in (steer_id s) seen); [apply IH|]. simpl. by rewrite IH, <- app_assoc.
Qed.

(** A control that did what [cops] say, and what was accepted on the way. *)
Definition acted (c c' : Control) (d a : list UserSteer) : Prop :=
  exists cops, run_ops cops c = (c', d, first_by_id (mb_received (c_steering c)) a).

Lemma acted_refl c : acted c c [] [].
Proof. by exists []. Qed.

Lemma acted_one op c c' d a :
  run_op op c = (c', d, first_by_id (mb_received (c_steering c)) a) -> acted c c' d a.
Proof. intros H. exists [op]. simpl. rewrite H. by rewrite !app_nil_r. Qed.

Lemma run_ops_app ops1 ops2 c :
  run_ops (ops1 ++ ops2) c =
  let '(c1, d1, a1) := run_ops ops1 c in let '(c2, d2, a2) := run_ops ops2 c1 in (c2, d1 ++ d2, a1 ++ a2).
Proof.
  revert c. induction ops1 as [|op ops1 IH]; intros c; simpl; [by destruct (run_ops ops2 c) as [[? ?] ?]|].
  destruct (run_op op c) as [[c1 d1] a1]. rewrite IH. destruct (run_ops ops1 c1) as [[c2 d2] a2].
  destruct (run_ops ops2 c2) as [[c3 d3] a3]. by rewrite !app_assoc.
Qed.

Lemma acted_trans c c1 c2 d1 d2 a1 a2 :
  control_wf c -> acted c c1 d1 a1 -> acted c1 c2 d2 a2 -> acted c c2 (d1 ++ d2) (a1 ++ a2).
Proof.
  intros Hw [ops1 H1] [ops2 H2]. exists (ops1 ++ ops2). rewrite run_ops_app, H1, H2.
  destruct (run_ops_spec _ _ _ _ _ Hw H1) as (_ & Hr & _). rewrite first_by_id_app. by rewrite Hr.
Qed.

Lemma acted_wf c c' d a : control_wf c -> acted c c' d a -> control_wf c'.
Proof. intros Hw [ops H]. by destruct (run_ops_spec _ _ _ _ _ Hw H). Qed.

Lemma acted_steer id text c : let '(c', b) := steer id text c in acted c c' [] (if b then [MkSteer id text] else []).
Proof.
  destruct (steer id text c) as [c' b] eqn:E. apply (acted_one (OpSteer id text)). simpl. rewrite E. do 2 f_equal.
  destruct b; simpl; [|done]. by destruct (name_in id (mb_received (c_steering c))).
Qed.

Lemma acted_cancel c : acted c (fst (cancel c)) [] [].
Proof. by apply (acted_one OpCancel). Qed.

Lemma hand_over_acted pending c :
  control_wf c -> c_cancelled c || c_finished c = false -> acted c (hand_over pending c) [] (map as_steer pending).
Proof.
  revert c. induction pending as [|[id text] pending IH]; intros c Hw Ho; [apply acted_refl|]. simpl.
  pose proof (acted_steer id text c) as Ha. destruct (steer id text c) as [c1 b] eqn:E. simpl.
  assert (Hb : b = true /\ c_cancelled c1 || c_finished c1 = false).
  { unfold steer in E. rewrite Ho in E. unfold submit in E. rewrite (wf_accepting _ Hw), Ho in E. simpl in E.
    destruct (name_in id (mb_received (c_steering c))); injection E as <- <-; done. }
  destruct Hb as [-> Ho1]. apply (acted_trans c c1 _ [] [] [MkSteer id text]); [done|done|].
  apply IH; [by apply (acted_wf _ _ _ _ Hw Ha)|done].
Qed.

(** While the turn runs. *)
Lemma runner_step_live turn op r r' d a c :
  op <> REnd -> rn_turn_id r = Some turn -> rn_control r = Some c -> runner_step turn op r = (r', d, a) ->
  rn_turn_id r' = Some turn /\ exists c', rn_control r' = Some c' /\ acted c c' d a.
Proof.
  intros Hop Hid Hc. assert (Hlive : live_control turn r = Some c) by (unfold live_control; by rewrite Hc, Hid, String.eqb_refl).
  assert (Hother : forall t, t <> turn -> live_control t r = None) by (intros t Ht; apply live_control_none; congruence).
  destruct op as [t|t id text|t| |t| | |]; simpl.
  - intros [= <- <- <-]. split; [done|]. exists c. split; [done|apply acted_refl].
  - unfold runner_steer. destruct (String.eqb_spec t turn) as [->|Hne].
    + rewrite Hlive. pose proof (acted_steer id text c) as Ha. destruct (steer id text c) as [c' b].
      rewrite andb_true_r. intros [= <- <- <-]. split; [done|]. by exists c'.
    + rewrite (Hother t Hne). destruct (_ && _); simpl; intros [= <- <- <-]; (split; [done|]); exists c; (split; [done|apply acted_refl]).
  - intros [= <- <- <-]. unfold runner_cancel. destruct (decide (t = turn)) as [->|Hne].
    + rewrite Hlive. pose proof (acted_cancel c) as Ha. destruct (cancel c) as [c' b]. split; [done|]. by exists c'.
    + rewrite (Hother t Hne). destruct (name_in t (rn_queued r)); (split; [done|]); exists c; (split; [done|apply acted_refl]).
  - intros [= <- <- <-]. unfold runner_shutdown. rewrite Hc. pose proof (acted_cancel c) as Ha. destruct (cancel c) as [c' b].
    split; [done|]. by exists c'.
  - intros [= <- <- <-]. unfold begin_run. rewrite Hid. split; [done|]. exists c. split; [done|apply acted_refl].
  - rewrite Hc. destruct (drain_steering c) as [c' ds] eqn:E. intros [= <- <- <-]. split; [done|]. exists c'. split; [done|].
    apply (acted_one OpDrain). simpl. by rewrite E.
  - rewrite Hc. destruct (finish c) as [c' ds] eqn:E. intros [= <- <- <-]. split; [done|]. exists c'. split; [done|].
    apply (acted_one OpFinish). simpl. by rewrite E.
  - done.
Qed.

Lemma runner_steps_live turn ops r r' d a c :
  Forall (fun op => op <> REnd) ops -> control_wf c -> rn_turn_id r = Some turn -> rn_control r = Some c ->
  runner_steps turn ops r = (r', d, a) -> exists c', rn_control r' = Some c' /\ acted c c' d a.
Proof.
  intros Hq. revert r r' d a c. induction Hq as [|op ops Hop _ IH]; intros r r' d a c Hw Hid Hc Hrun; simpl in Hrun.
  - injection Hrun as <- <- <-. exists c. split; [done|apply acted_refl].
  - destruct (runner_step turn op r) as [[r1 d1] a1] eqn:E1. destruct (runner_steps turn ops r1) as [[r2 d2] a2] eqn:E2.
    injection Hrun as <- <- <-. destruct (runner_step_live _ _ _ _ _ _ _ Hop Hid Hc E1) as (Hid1 & c1 & Hc1 & Ha1).
    destruct (IH _ _ _ _ c1 (acted_wf _ _ _ _ Hw Ha1) Hid1 Hc1 E2) as (c2 & Hc2 & Ha2). exists c2. split; [done|].
    by apply (acted_trans c c1 c2).
Qed.

(** C5: steering reaches the agent whether it is sent before its turn has begun or
    while it runs: for every interleaving of senders, cancellations, shutdown and
    the agent, the steering the agent of a turn is handed is, in order and
    without repeating an id, a prefix of all steering for that turn whose sender
    was told it was accepted; all of it that is not yet handed over is still in
    the mailbox unless the turn was cancelled, and nothing is left when the turn
    finishes. *)
Theorem accepted_steering_arrives turn before live r0 r1 d0 d1 a0 a1 c :
  Forall (fun op => op <> RBegin turn) before -> Forall (fun op => op <> REnd) live ->
  runner_steps turn before new_runner = (r0, d0, a0) -> rn_turn_id r0 = None ->
  runner_steps turn live (fst (begin_run turn r0)) = (r1, d1, a1) -> rn_control r1 = Some c ->
  let accepted := first_by_id [] (a0 ++ a1) in
  d1 `prefix_of` accepted /\ NoDup (map steer_id accepted) /\
  (c_cancelled c = false -> accepted = d1 ++ mb_items (c_steering c)) /\
  (c_finished c = true -> accepted = d1).
Proof.
  intros Hq Hl H0 Hid H1 Hc accepted.
  assert (Hnone : rn_turn_id new_runner <> Some turn) by done.
  pose proof (runner_steps_waiting _ _ _ _ _ _ Hq Hnone H0) as Hw. simpl in Hw.
  unfold begin_run in H1. rewrite Hid in H1. cbn [fst] in H1.
  set (pending := default [] (dget turn (rn_pending_steers r0))) in *. fold (waiting turn r0) in pending.
  set (c0 := if name_in turn (rn_pending_cancels r0) || rn_shutdown r0 then fst (cancel (hand_over pending (new_control false)))
             else hand_over pending (new_control false)) in *.
  assert (Ha0 : acted (new_control false) c0 [] a0).
  { rewrite <- Hw. pose proof (hand_over_acted pending (new_control false) (new_control_wf false) eq_refl) as Hh.
    unfold c0. destruct (name_in turn (rn_pending_cancels r0) || rn_shutdown r0); [|exact Hh]. replace (map as_steer (waiting turn r0)) with (map as_steer (waiting turn r0) ++ []) by (by rewrite app_nil_r).
    apply (acted_trans _ _ _ [] [] _ _ (new_control_wf false) Hh). apply acted_cancel. }
  match type of H1 with runner_steps _ _ ?r = _ => destruct (runner_steps_live turn live r r1 d1 a1 c0) as (c' & Hc' & Ha1); try done end.
  { by apply (acted_wf _ _ _ _ (new_control_wf false) Ha0). }
  replace c' with c in * by congruence.
  destruct (acted_trans _ _ _ _ _ _ _ (new_control_wf false) Ha0 Ha1) as [cops Hrun]. simpl in Hrun. fold accepted in Hrun.
  destruct (run_ops_spec _ _ _ _ _ (new_control_wf false) Hrun) as (Hwf & Hr & Hn & Hp & _). simpl in *.
  split; [done|]. split; [rewrite <- Hr; apply Hwf|]. split; [done|]. intros Hf. pose proof (wf_exclusive _ Hwf) as Hx.
  rewrite Hf in Hx. rewrite (Hn ltac:(by destruct (c_cancelled c))), (wf_closed _ Hwf); [by rewrite app_nil_r|]. by rewrite Hf, orb_true_r.
Qed.

Lemma accepted_steering_arrives_witness :
  let before := [REnqueue "t"; RSteer "t" "1" "a"; RSteer "t" "1" "a"; RSteer "u" "9" "z"] in
  let live := [RDrain; RSteer "t" "2" "b"; RFinish; RFinish] in
  let '(r0, _, a0) := runner_steps "t" before new_runner in
  let '(r1, d1, a1) := runner_steps "t" live (fst (begin_run "t" r0)) in
  d1 = [MkSteer "1" "a"; MkSteer "2" "b"] /\ d1 `prefix_of` first_by_id [] (a0 ++ a1).
Proof.
  destruct (accepted_steering_arrives "t" [REnqueue "t"; RSteer "t" "1" "a"; RSteer "t" "1" "a"; RSteer "u" "9" "z"]
    [RDrain; RSteer "t" "2" "b"; RFinish; RFinish]
    (MkRunner None None ["t"] [("t", [("1", "a"); ("1", "a")])] [] false)
    (MkRunner (Some "t") (Some (MkControl (MkMailbox [] ["1"; "2"] false) false true false)) [] [] [] false)
    [] [MkSteer "1" "a"; MkSteer "2" "b"] [MkSteer "1" "a"; MkSteer "1" "a"] [MkSteer "2" "b"]
    (MkControl (MkMailbox [] ["1"; "2"] false) false true false)) as [Hp _]; try reflexivity.
  - repeat (constructor; [done|]). constructor.
  - repeat (constructor; [done|]). constructor.
  - split; [reflexivity|exact Hp].
Defined.
