(* ===== verification/Runtime.v ===== *)
(** * The runtime: sessions, planes and what they hold open

    agent_runtime/session_controller.py (the binding of a session and its journal
    writer), agent_runtime/execution_plane.py and plane_manager.py (the assembly of
    an execution plane) and agent_runtime/host.py (the operations on both).  What
    the model follows is which resources are open: journal writers, MCP clients,
    the desktop, command executors, job managers and title tasks.  Every call that
    can fail takes its outcome from a parameter, closing included; a resource
    counts as closed when its [close] has been called. *)

From stdpp Require Import base list strings.
From Stdlib Require Import ZArith Lia.
From S2P Require Import Prelude PyData PyStr Json Content Authority.

(** Resources; those of a plane carry the number of the plane. *)
Inductive Resource :=
| Writer (session_id : string)
| Mcp (plane : nat)
| Desktop (plane : nat)
| WorkspaceExecutor (plane : nat)
| HostExecutor (plane : nat)
| JobThreads (plane : nat)
| TitleTask (plane : nat).

#[export] Instance Resource_eq_dec : EqDecision Resource.
Proof. solve_decision. Defined.

(** What a plane was built from: what [matches] compares, and the MCP configuration. *)
Record PlaneKey := MkKey {
  pk_workspace : string;
  pk_provider_name : string;
  pk_agent_config : string;
  pk_configuration_fingerprint : string;
  pk_instructions : string;
  pk_mcp : string;
}.

#[export] Instance PlaneKey_eq_dec : EqDecision PlaneKey.
Proof. solve_decision. Defined.

Record Plane := MkPlane {
  pl_id : nat;
  pl_key : PlaneKey;
  pl_computer : bool;
  pl_agent : bool;
  pl_jobs : bool;
  pl_title_task : bool;
}.

Record Controller := MkController {
  ct_session : option string;
  ct_sink : option string;
  ct_workspace : option string;
  ct_provider_name : option string;
  ct_journal : list string;
}.

Record RuntimeState := MkRuntime {
  rt_open : list Resource;
  rt_controller : Controller;
  rt_current : option Plane;
  rt_next : nat;
  rt_turn_id : option string;
}.

Definition set_open (v : list Resource) (s : RuntimeState) :=
  MkRuntime v (rt_controller s) (rt_current s) (rt_next s) (rt_turn_id s).
Definition set_controller (c : Controller) (s : RuntimeState) :=
  MkRuntime (rt_open s) c (rt_current s) (rt_next s) (rt_turn_id s).
Definition set_current_plane (p : option Plane) (s : RuntimeState) :=
  MkRuntime (rt_open s) (rt_controller s) p (rt_next s) (rt_turn_id s).
Definition on_controller (f : Controller -> Controller) : M RuntimeState unit :=
  modify (fun s => set_controller (f (rt_controller s)) s).

(** [x] without its first occurrence. *)
Fixpoint remove_one (x : Resource) (l : list Resource) : list Resource :=
  match l with
  | [] => []
  | y :: l' => if decide (x = y) then l' else y :: remove_one x l'
  end.

Section runtime.
(** What closing a resource raises. *)
Variable close_error : Resource -> option exn.

Definition acquire (r : Resource) : M RuntimeState unit := modify (fun s => set_open (r :: rt_open s) s).

Definition close_resource (r : Resource) : M RuntimeState unit :=
  modify (fun s => set_open (remove_one r (rt_open s)) s) ;;;
  match close_error r with Some e => fail e | None => ret tt end.

Definition when (b : bool) (c : M RuntimeState unit) : M RuntimeState unit := if b then c else ret tt.

(** ** execution_plane.py *)

Definition with_binding (agent jobs title_task : bool) (p : Plane) : Plane :=
  MkPlane (pl_id p) (pl_key p) (pl_computer p) agent jobs title_task.

(** The plane object is shared by the manager and its callers: assigning to its
    attributes changes [rt_current] when it is the current one. *)
Definition assign_plane (p : Plane) : M RuntimeState unit := modify (fun s =>
  match rt_current s with
  | Some q => if Nat.eqb (pl_id q) (pl_id p) then set_current_plane (Some p) s else s
  | None => s
  end).

(** [ExecutionPlane.unbind_session] *)
Definition unbind_plane (p : Plane) : M RuntimeState unit :=
  assign_plane (with_binding (pl_agent p) (pl_jobs p) false p) ;;;
  when (pl_title_task p) (close_resource (TitleTask (pl_id p))) ;;;
  assign_plane (with_binding false false false p) ;;;
  when (pl_jobs p) (close_resource (JobThreads (pl_id p))).

(** [ExecutionRouter.close] *)
Definition close_router (k : nat) : M RuntimeState unit :=
  finally (close_resource (WorkspaceExecutor k)) (close_resource (HostExecutor k)).

(** [ExecutionPlane.close] *)
Definition close_plane (p : Plane) : M RuntimeState unit :=
  finally (when (pl_computer p) (close_resource (Desktop (pl_id p))))
    (finally (unbind_plane p)
      (finally (close_resource (Mcp (pl_id p)))
        (close_router (pl_id p)))).

(** ** plane_manager.py *)

(** [ExecutionPlaneManager.close] *)
Definition close_planes : M RuntimeState unit :=
  s <- get ;;
  modify (set_current_plane None) ;;;
  match rt_current s with Some p => close_plane p | None => ret tt end.

(** [ExecutionPlaneManager.unbind_session] *)
Definition unbind_session : M RuntimeState unit :=
  s <- get ;; match rt_current s with Some p => unbind_plane p | None => ret tt end.

(** The outcomes of one call of [ensure]: reading the configuration; the phase
    callback; the provider, agents, hooks and roles; starting MCP, then skills,
    prompts and the main provider; whether a desktop is wanted, and creating it; the
    image and vision providers, the catalog and the tools of the roles; the
    executors, the router and the plane; then, for the binding, the permissions and the memory
    ([es_permissions]), the subagents, the context and the tools ([es_jobs]), the
    agent, whether titles are generated, and the context window. *)
Record EnsureSteps := MkSteps {
  es_inputs : Controller -> res PlaneKey;
  es_phase : res unit;
  es_config : res unit;
  es_start : res unit;
  es_wants_desktop : bool;
  es_desktop : res unit;
  es_catalog : res unit;
  es_workspace_executor : res unit;
  es_host_executor : res unit;
  es_router : res unit;
  es_plane : res unit;
  es_permissions : res unit;
  es_jobs : res unit;
  es_agent : res unit;
  es_title : bool;
  es_context_window : res unit;
}.

Definition current_is (k : nat) (s : RuntimeState) : bool :=
  match rt_current s with Some q => Nat.eqb (pl_id q) k | None => false end.

(** [_bind_session]; the agent is set before its context window is asked for. *)
Definition bind_session (steps : EnsureSteps) (p : Plane) : M RuntimeState Plane := fun s =>
  let fresh := with_binding (pl_agent p) (pl_jobs p) (pl_title_task p) p in
  let abandon (q : Plane) (e : exn) : M RuntimeState Plane :=
    s <- get ;;
    (if current_is (pl_id q) s then modify (set_current_plane None) else ret tt) ;;;
    close_plane q ;;;
    fail e in
  match es_permissions steps with
  | Err e => abandon fresh e s
  | Ok _ =>
      let p1 := with_binding (pl_agent p) true (pl_title_task p) p in
      let s1 := fst ((acquire (JobThreads (pl_id p)) ;;; assign_plane p1) s) in
      match es_jobs steps with
      | Err e => abandon p1 e s1
      | Ok _ =>
          match es_agent steps with
          | Err e => abandon p1 e s1
          | Ok _ =>
              let p2 := with_binding (pl_agent p1) true (es_title steps) p1 in
              let s2 := fst ((when (es_title steps) (acquire (TitleTask (pl_id p))) ;;; assign_plane p2) s1) in
              let p3 := with_binding true true (es_title steps) p2 in
              let s3 := fst (assign_plane p3 s2) in
              match es_context_window steps with
              | Err e => abandon p3 e s3
              | Ok _ => (s3, Ok p3)
              end
          end
      end
  end.

(** The [try] block of [ensure] with its handler. The local variables that name a
    resource are bound when it has been created. *)
Record Locals := MkLocals { lo_desktop : bool; lo_workspace : bool; lo_host : bool; lo_router : bool }.

Definition release_locals (k : nat) (lo : Locals) : M RuntimeState unit :=
  finally (when (lo_desktop lo) (close_resource (Desktop k)))
    (finally (close_resource (Mcp k))
      (if lo_router lo then close_router k
       else finally (when (lo_workspace lo) (close_resource (WorkspaceExecutor k)))
              (when (lo_host lo) (close_resource (HostExecutor k))))).

Definition assemble (steps : EnsureSteps) (k : nat) (key : PlaneKey) : M RuntimeState Plane :=
  let step (lo : Locals) (r : res unit) (next : M RuntimeState Plane) : M RuntimeState Plane :=
    match r with Ok _ => next | Err e => release_locals k lo ;;; fail e end in
  let desktop := es_wants_desktop steps in
  acquire (Mcp k) ;;;
  step (MkLocals false false false false) (es_start steps)
    (step (MkLocals false false false false) (if desktop then es_desktop steps else Ok tt)
      (when desktop (acquire (Desktop k)) ;;;
       step (MkLocals desktop false false false) (es_catalog steps)
         (step (MkLocals desktop false false false) (es_workspace_executor steps)
           (acquire (WorkspaceExecutor k) ;;;
            step (MkLocals desktop true false false) (es_host_executor steps)
              (acquire (HostExecutor k) ;;;
               step (MkLocals desktop true true false) (es_router steps)
                 (step (MkLocals desktop true true true) (es_plane steps)
                   (ret (MkPlane k key desktop false false false)))))))).

(** [ensure] *)
Definition ensure (steps : EnsureSteps) (force : bool) : M RuntimeState Plane :=
  s <- get ;;
  match ct_session (rt_controller s), ct_workspace (rt_controller s), ct_provider_name (rt_controller s) with
  | Some _, Some _, Some _ =>
      key <- lift (es_inputs steps (rt_controller s)) ;;
      let reusable := match rt_current s with
                      | Some p => if negb force && bool_decide (pl_key p = key) then Some p else None
                      | None => None
                      end in
      match reusable with
      | Some p => if pl_agent p then ret p else bind_session steps p
      | None =>
          close_planes ;;;
          lift (es_phase steps) ;;;
          lift (es_config steps) ;;;
          s <- get ;;
          let k := rt_next s in
          modify (fun s => MkRuntime (rt_open s) (rt_controller s) (rt_current s) (S k) (rt_turn_id s)) ;;;
          plane <- assemble steps k key ;;
          bound <- bind_session steps plane ;;
          modify (set_current_plane (Some bound)) ;;;
          ret bound
      end
  | _, _, _ => fail (Exn ERuntimeError "received 'user_turn' before 'open_session'")
  end.

(** ** session_controller.py *)

(** [ExitStack.close] of the writers: all are closed, the last exception leaves. *)
Fixpoint close_writers (ids : list string) : M RuntimeState unit :=
  match ids with
  | [] => ret tt
  | id :: ids' => finally (close_resource (Writer id)) (close_writers ids')
  end.

(** [SessionRuntimeController.close] *)
Definition controller_close : M RuntimeState unit :=
  s <- get ;;
  let c := rt_controller s in
  on_controller (fun c => MkController (ct_session c) None (ct_workspace c) (ct_provider_name c) []) ;;;
  close_writers (rev (ct_journal c)).

(** The outcomes of one call of [open_session]: the environment; the workspace path;
    the models; what the store knows of the session; opening its journal; loading,
    binding and recovering it; the id of a new session. *)
Record OpenSteps := MkOpen {
  os_reload : res unit;
  os_workspace : res string;
  os_models : res (string * list string);
  os_stored_provider : res (option string);
  os_bound_workspace : res (option string);
  os_open_journal : res unit;
  os_load : res unit;
  os_bind : res unit;
  os_recover : res unit;
  os_new_id : string;
}.

Definition given (o : option string) : option string :=
  match o with Some x => if nonempty x then Some x else None | None => None end.

Definition set_session (id workspace : string) (sink : option string) (journal : list string) : M RuntimeState unit :=
  on_controller (fun c => MkController (Some id) sink (Some workspace) (ct_provider_name c) journal).

Definition set_provider_name (name : string) : M RuntimeState unit :=
  on_controller (fun c => MkController (ct_session c) (ct_sink c) (ct_workspace c) (Some name) (ct_journal c)).

(** [open_session]; [body] is the block of the caller's [with] statement. *)
Definition open_session_with (steps : OpenSteps) (session_id provider : option string) (body : M RuntimeState unit) : M RuntimeState bool :=
  lift (os_reload steps) ;;;
  requested <- lift (os_workspace steps) ;;
  models <- lift (os_models steps) ;;
  stored <- lift (match given session_id with Some _ => os_stored_provider steps | None => Ok None end) ;;
  let main_provider_name :=
    match given provider with Some p => p | None => match given stored with Some p => p | None => fst models end end in
  if negb (name_in main_provider_name (snd models))
  then fail (Exn EValueError ("provider '" +:+ main_provider_name +:+ "' is not configured")) else
  let resumed := match given session_id with Some _ => true | None => false end in
  bound <- lift (if resumed then os_bound_workspace steps else Ok None) ;;
  let workspace := match given bound with Some w => w | None => requested end in
  s <- get ;;
  let current := ct_session (rt_controller s) in
  (match current with
   | None => on_controller (fun c => MkController None (ct_sink c) (Some workspace) (ct_provider_name c) (ct_journal c))
   | Some _ => ret tt
   end) ;;;
  let reuse := match current, session_id with Some id, Some id' => String.eqb id id' | _, _ => false end in
  (if reuse
   then body ;;;
        s <- get ;;
        let c := rt_controller s in
        set_session (default "" current) workspace (ct_sink c) (ct_journal c)
   else
     let opening_id := match given session_id with Some id => id | None => os_new_id steps end in
     lift (os_open_journal steps) ;;;
     acquire (Writer opening_id) ;;;
     catch
       ((if resumed then lift (os_load steps) else ret tt) ;;;
        lift (os_bind steps) ;;;
        lift (os_recover steps) ;;;
        body ;;;
        controller_close)
       (fun e => close_resource (Writer opening_id) ;;; fail e) ;;;
     set_session opening_id workspace (Some opening_id) [opening_id]) ;;;
  set_provider_name main_provider_name ;;;
  ret resumed.

(** [change_provider] of the controller; [stored]: writing the metadata. *)
Definition controller_change_provider (stored : res unit) (provider : string) : M RuntimeState unit :=
  lift stored ;;; set_provider_name provider.

(** [change_workspace] of the controller. *)
Definition controller_change_workspace (bind open_journal : res unit) (workspace : string) : M RuntimeState unit :=
  controller_close ;;;
  finally
    (lift bind ;;;
     on_controller (fun c => MkController (ct_session c) (ct_sink c) (Some workspace) (ct_provider_name c) (ct_journal c)))
    (lift open_journal ;;;
     s <- get ;;
     match ct_session (rt_controller s) with
     | Some id =>
         acquire (Writer id) ;;;
         on_controller (fun c => MkController (ct_session c) (Some id) (ct_workspace c) (ct_provider_name c) (ct_journal c ++ [id]))
     | None => ret tt
     end).

(** ** host.py *)

Definition require_idle : M RuntimeState unit :=
  s <- get ;;
  match rt_turn_id s with Some _ => fail (Exn ERuntimeError "cannot change runtime during a turn") | None => ret tt end.

Definition open_session (steps : OpenSteps) (session_id provider : option string) : M RuntimeState bool :=
  require_idle ;;;
  open_session_with steps session_id provider unbind_session.

Definition require_session : M RuntimeState unit :=
  s <- get ;;
  match ct_session (rt_controller s) with
  | None => fail (Exn ERuntimeError "session is not initialized")
  | Some _ => ret tt
  end.

Definition change_provider (models : res (list string)) (stored : res unit) (provider : string) : M RuntimeState bool :=
  require_idle ;;;
  require_session ;;;
  names <- lift models ;;
  if negb (name_in provider names) then fail (Exn EValueError ("provider '" +:+ provider +:+ "' is not configured")) else
  s <- get ;;
  let changed := negb (bool_decide (ct_provider_name (rt_controller s) = Some provider)) in
  (if changed then close_planes ;;; controller_change_provider stored provider else ret tt) ;;;
  ret changed.

Definition change_workspace (workspace : res string) (bind open_journal : res unit) : M RuntimeState bool :=
  require_idle ;;;
  require_session ;;;
  path <- lift workspace ;;
  s <- get ;;
  let changed := negb (bool_decide (ct_workspace (rt_controller s) = Some path)) in
  (if changed then close_planes ;;; controller_change_workspace bind open_journal path else ret tt) ;;;
  ret changed.

(** [refresh_runtime]; [on_failed], [on_idle]: the phase callback. *)
Definition refresh_runtime (steps : EnsureSteps) (on_failed on_idle : res unit) : M RuntimeState unit :=
  require_idle ;;;
  catch (ensure steps true ;;; ret tt)
    (fun e => if is_exception e then lift on_failed ;;; fail e else fail e) ;;;
  lift on_idle.

(** [close]; the services of the process are not modelled. *)
Definition close_host : M RuntimeState unit := finally close_planes controller_close.
End runtime.
