(* ===== verification/RuntimeThms.v ===== *)
(** * The runtime: nothing is left open

    Whatever fails, the resources that are open are those of the current plane and
    the journal writer of the bound session; opening a session either replaces the
    binding as a whole or leaves it. *)

From stdpp Require Import base list strings.
From Stdlib Require Import ZArith Lia.
From S2P Require Import Prelude PyData PyStr Json Content Authority Runtime.

(** ** Resources that are held *)

Definition fixed_resources (p : Plane) : list Resource :=
  let k := pl_id p in
  [Mcp k; WorkspaceExecutor k; HostExecutor k] ++ (if pl_computer p then [Desktop k] else []).
Definition bound_resources (p : Plane) : list Resource :=
  let k := pl_id p in
  (if pl_jobs p then [JobThreads k] else []) ++ (if pl_title_task p then [TitleTask k] else []).
Definition plane_resources (p : Plane) : list Resource := fixed_resources p ++ bound_resources p.

Definition current_resources (s : RuntimeState) : list Resource :=
  match rt_current s with Some p => plane_resources p | None => [] end.
Definition controller_resources (s : RuntimeState) : list Resource := map Writer (ct_journal (rt_controller s)).

(** A plane is bound to a session completely or not at all. *)
Definition tidy (p : Plane) : Prop := pl_jobs p = pl_agent p /\ (pl_title_task p = true -> pl_agent p = true).

(** The books, with the resources [extra] that a running operation holds. *)
Record accounted_with (extra : list Resource) (s : RuntimeState) : Prop := {
  ac_open : rt_open s ≡ₚ current_resources s ++ extra ++ controller_resources s;
  ac_tidy : forall p, rt_current s = Some p -> tidy p;
  ac_fresh : forall p, rt_current s = Some p -> (pl_id p < rt_next s)%nat;
  ac_writer :
    ct_journal (rt_controller s) = [] /\ ct_sink (rt_controller s) = None \/
    exists id, ct_session (rt_controller s) = Some id /\ ct_journal (rt_controller s) = [id] /\ ct_sink (rt_controller s) = Some id;
}.
Definition accounted : RuntimeState -> Prop := accounted_with [].

Lemma remove_one_perm x l l' : l ≡ₚ x :: l' -> remove_one x l ≡ₚ l'.
Proof.
  intros H. assert (Hin : x ∈ l) by (rewrite H; constructor).
  enough (l ≡ₚ x :: remove_one x l) as H' by (apply (Permutation_cons_inv (a := x)); by rewrite <- H', <- H).
  clear H. induction l as [|y l IH]; [inversion Hin|]. simpl. destruct (decide (x = y)) as [->|Hne]; [done|].
  apply elem_of_cons in Hin as [?|Hin]; [done|]. rewrite Permutation_swap. f_equiv. by apply IH.
Qed.

(** ** What closing does, whatever it raises *)

Section effects.
Context (close_error : Resource -> option exn).
Context (Htitle : forall k, close_error (TitleTask k) = None).

(** [c] ends in [f s], with a value or an exception. *)
Definition effect {A} (c : M RuntimeState A) (f : RuntimeState -> RuntimeState) : Prop := forall s, fst (c s) = f s.

Definition dropped (r : Resource) (s : RuntimeState) : RuntimeState := set_open (remove_one r (rt_open s)) s.

Lemma effect_close r : effect (close_resource close_error r) (dropped r).
Proof. intros s. unfold close_resource, bind, modify. by destruct (close_error r). Qed.

Lemma effect_finally {A} (a : M RuntimeState A) b f g : effect a f -> effect b g -> effect (finally a b) (fun s => g (f s)).
Proof.
  intros Ha Hb s. unfold finally. specialize (Ha s). destruct (a s) as [s1 r]. simpl in Ha. subst s1.
  specialize (Hb (f s)). destruct (b (f s)) as [s2 [|]]; simpl in *; done.
Qed.

Lemma effect_when b c f : effect c f -> effect (when b c) (fun s => if b then f s else s).
Proof. intros H s. destruct b; [apply H|done]. Qed.

Definition assigned (p : Plane) (s : RuntimeState) : RuntimeState := fst (assign_plane p s).

Lemma effect_unbind p :
  effect (unbind_plane close_error p) (fun s =>
    let s1 := assigned (with_binding (pl_agent p) (pl_jobs p) false p) s in
    let s2 := if pl_title_task p then dropped (TitleTask (pl_id p)) s1 else s1 in
    let s3 := assigned (with_binding false false false p) s2 in
    if pl_jobs p then dropped (JobThreads (pl_id p)) s3 else s3).
Proof.
  intros s. unfold unbind_plane, bind at 1. unfold assigned, assign_plane at 1, modify at 1. simpl.
  set (s1 := match rt_current s with Some q => _ | None => _ end).
  assert (Ht : when (pl_title_task p) (close_resource close_error (TitleTask (pl_id p))) s1
               = (if pl_title_task p then dropped (TitleTask (pl_id p)) s1 else s1, Ok tt)).
  { destruct (pl_title_task p); [|done]. unfold when, close_resource, bind, modify. by rewrite Htitle. }
  unfold bind. rewrite Ht. unfold assign_plane, modify. simpl. apply effect_when, effect_close.
Qed.
#[local] Hint Resolve effect_close effect_finally effect_when effect_unbind : core.

Lemma effect_router k : effect (close_router close_error k) (fun s => dropped (HostExecutor k) (dropped (WorkspaceExecutor k) s)).
Proof. apply effect_finally; auto. Qed.

(** [frame s s']: only the open resources and the attributes of plane [k] differ. *)
Definition same_rest (s s' : RuntimeState) : Prop :=
  rt_controller s' = rt_controller s /\ rt_next s' = rt_next s /\ rt_turn_id s' = rt_turn_id s.

Lemma assigned_open p s : rt_open (assigned p s) = rt_open s.
Proof. unfold assigned, assign_plane, modify. simpl. destruct (rt_current s) as [q|]; [by destruct (Nat.eqb _ _)|done]. Qed.
Lemma assigned_rest p s : same_rest s (assigned p s).
Proof. unfold assigned, assign_plane, modify, same_rest. simpl. destruct (rt_current s) as [q|]; [by destruct (Nat.eqb _ _)|done]. Qed.
Lemma assigned_current p s :
  rt_current (assigned p s) = if current_is (pl_id p) s then Some p else rt_current s.
Proof.
  unfold assigned, assign_plane, modify, current_is. simpl. destruct (rt_current s) as [q|] eqn:E; [|done].
  by destruct (Nat.eqb _ _).
Qed.

Lemma dropped_open r s rest : rt_open s ≡ₚ r :: rest -> rt_open (dropped r s) ≡ₚ rest.
Proof. apply remove_one_perm. Qed.
Lemma dropped_if_open (b : bool) r s rest :
  rt_open s ≡ₚ (if b then [r] else []) ++ rest -> rt_open (if b then dropped r s else s) ≡ₚ rest.
Proof. destruct b; [apply dropped_open|done]. Qed.
Lemma dropped_if_rest (b : bool) r s : same_rest s (if b then dropped r s else s) /\ rt_current (if b then dropped r s else s) = rt_current s.
Proof. by destruct b. Qed.

Lemma same_rest_trans s1 s2 s3 : same_rest s1 s2 -> same_rest s2 s3 -> same_rest s1 s3.
Proof. unfold same_rest. intuition congruence. Qed.

(** Unbinding gives up the job threads and the title task. *)
Lemma unbind_effect p s rest :
  rt_open s ≡ₚ bound_resources p ++ rest ->
  let s' := fst (unbind_plane close_error p s) in
  rt_open s' ≡ₚ rest /\ same_rest s s' /\
  rt_current s' = if current_is (pl_id p) s then Some (with_binding false false false p) else rt_current s.
Proof.
  intros Ho s'. unfold s'. rewrite effect_unbind. cbv zeta.
  set (s1 := assigned _ s). set (s2 := if pl_title_task p then _ else s1). set (s3 := assigned _ s2).
  assert (H1 : rt_open s1 ≡ₚ (if pl_title_task p then [TitleTask (pl_id p)] else []) ++
    (if pl_jobs p then [JobThreads (pl_id p)] else []) ++ rest).
  { unfold s1. rewrite assigned_open, Ho. unfold bound_resources. solve_Permutation. }
  apply dropped_if_open in H1. fold s2 in H1.
  assert (H3 : rt_open s3 ≡ₚ (if pl_jobs p then [JobThreads (pl_id p)] else []) ++ rest)
    by (unfold s3; by rewrite assigned_open).
  split_and!; [by apply dropped_if_open|..].
  - apply (same_rest_trans s s1); [apply assigned_rest|]. apply (same_rest_trans s1 s2); [apply dropped_if_rest|].
    apply (same_rest_trans s2 s3); [apply assigned_rest|]. apply dropped_if_rest.
  - destruct (dropped_if_rest (pl_jobs p) (JobThreads (pl_id p)) s3) as [_ ->]. unfold s3. rewrite assigned_current. simpl.
    destruct (dropped_if_rest (pl_title_task p) (TitleTask (pl_id p)) s1) as [_ Hc]. fold s2 in Hc.
    unfold current_is. rewrite Hc. unfold s1. rewrite assigned_current. unfold current_is. simpl.
    destruct (rt_current s) as [q|] eqn:E; [|done]. destruct (Nat.eqb_spec (pl_id q) (pl_id p)) as [Eq|Hne]; simpl; rewrite ?E.
    + by rewrite Nat.eqb_refl.
    + by destruct (Nat.eqb_spec (pl_id q) (pl_id p)).
Qed.

(** The resources of the assembly of a plane, and closing all of them. *)
Lemma router_effect k s rest :
  rt_open s ≡ₚ [WorkspaceExecutor k; HostExecutor k] ++ rest ->
  let s' := fst (close_router close_error k s) in
  rt_open s' ≡ₚ rest /\ same_rest s s' /\ rt_current s' = rt_current s.
Proof.
  intros Ho s'. unfold s'. rewrite effect_router. split; [|done]. by apply dropped_open, dropped_open.
Qed.

Lemma finally_state {A} (a : M RuntimeState A) b s : fst (finally a b s) = fst (b (fst (a s))).
Proof. unfold finally. destruct (a s) as [s1 r]. simpl. by destruct (b s1) as [s2 [|]]. Qed.

Lemma close_plane_effect p s rest :
  rt_open s ≡ₚ plane_resources p ++ rest -> current_is (pl_id p) s = false ->
  let s' := fst (close_plane close_error p s) in
  rt_open s' ≡ₚ rest /\ same_rest s s' /\ rt_current s' = rt_current s.
Proof.
  intros Ho Hc s'. unfold s', close_plane. rewrite !finally_state.
  rewrite (effect_when _ _ _ (effect_close (Desktop (pl_id p)))). set (s1 := if pl_computer p then _ else s).
  assert (H1 : rt_open s1 ≡ₚ bound_resources p ++ Mcp (pl_id p) :: [WorkspaceExecutor (pl_id p); HostExecutor (pl_id p)] ++ rest).
  { apply dropped_if_open. rewrite Ho. unfold plane_resources, fixed_resources. solve_Permutation. }
  destruct (dropped_if_rest (pl_computer p) (Desktop (pl_id p)) s) as [Hr1 Hc1]. fold s1 in Hr1, Hc1.
  destruct (unbind_effect p s1 _ H1) as (H2 & Hr2 & Hc2). set (s2 := fst (unbind_plane close_error p s1)) in *.
  assert (Hcur : current_is (pl_id p) s1 = false) by (unfold current_is in *; by rewrite Hc1). rewrite Hcur in Hc2.
  rewrite (effect_close (Mcp (pl_id p)) s2). apply dropped_open in H2.
  destruct (router_effect (pl_id p) (dropped (Mcp (pl_id p)) s2) rest H2) as (H3 & Hr3 & Hc3).
  split_and!; [done| |by rewrite Hc3; simpl; rewrite Hc2].
  apply (same_rest_trans s s1); [done|]. by apply (same_rest_trans s1 s2).
Qed.

Definition local_resources (k : nat) (lo : Locals) : list Resource :=
  (if lo_desktop lo then [Desktop k] else []) ++ [Mcp k]
  ++ (if lo_workspace lo then [WorkspaceExecutor k] else []) ++ (if lo_host lo then [HostExecutor k] else []).

Lemma release_effect k lo s rest :
  (lo_router lo = true -> lo_workspace lo = true /\ lo_host lo = true) ->
  rt_open s ≡ₚ local_resources k lo ++ rest ->
  let s' := fst (release_locals close_error k lo s) in
  rt_open s' ≡ₚ rest /\ same_rest s s' /\ rt_current s' = rt_current s.
Proof.
  intros Hrt Ho s'. unfold s', release_locals. rewrite !finally_state.
  rewrite (effect_when _ _ _ (effect_close (Desktop k))), (effect_close (Mcp k)).
  set (s1 := if lo_desktop lo then _ else s).
  destruct (dropped_if_rest (lo_desktop lo) (Desktop k) s) as [Hr1 Hc1]. fold s1 in Hr1, Hc1.
  assert (H1 : rt_open (dropped (Mcp k) s1) ≡ₚ (if lo_workspace lo then [WorkspaceExecutor k] else []) ++ (if lo_host lo then [HostExecutor k] else []) ++ rest).
  { apply dropped_open, dropped_if_open. rewrite Ho. unfold local_resources. solve_Permutation. }
  destruct (lo_router lo) eqn:Er.
  - destruct (Hrt eq_refl) as [Hw Hh]. rewrite Hw, Hh in H1.
    destruct (router_effect k (dropped (Mcp k) s1) rest H1) as (H2 & Hr2 & Hc2). split_and!; [done| |rewrite Hc2; exact Hc1].
    by apply (same_rest_trans s s1).
  - rewrite finally_state, (effect_when _ _ _ (effect_close (WorkspaceExecutor k))), (effect_when _ _ _ (effect_close (HostExecutor k))).
    apply dropped_if_open in H1. set (s2 := if lo_workspace lo then _ else _) in *. apply dropped_if_open in H1.
    destruct (dropped_if_rest (lo_workspace lo) (WorkspaceExecutor k) (dropped (Mcp k) s1)) as [Hr2 Hc2]. fold s2 in Hr2, Hc2.
    destruct (dropped_if_rest (lo_host lo) (HostExecutor k) s2) as [Hr3 Hc3].
    split_and!; [done| |rewrite Hc3, Hc2; exact Hc1].
    apply (same_rest_trans s s1); [done|]. apply (same_rest_trans s1 s2); [exact Hr2|exact Hr3].
Qed.

Definition built (k : nat) (key : PlaneKey) (rest : list Resource) (s : RuntimeState) (x : RuntimeState * res Plane) : Prop :=
  same_rest s (fst x) /\ rt_current (fst x) = rt_current s /\
  match snd x with
  | Ok p => rt_open (fst x) ≡ₚ plane_resources p ++ rest /\ pl_id p = k /\ pl_key p = key /\ with_binding false false false p = p
  | Err _ => rt_open (fst x) ≡ₚ rest
  end.

Lemma built_release k key rest s s1 lo e :
  (lo_router lo = true -> lo_workspace lo = true /\ lo_host lo = true) ->
  rt_open s1 ≡ₚ local_resources k lo ++ rest -> same_rest s s1 -> rt_current s1 = rt_current s ->
  built k key rest s ((release_locals close_error k lo ;;; fail e) s1).
Proof.
  intros Hrt Ho Hr Hc. destruct (release_effect k lo s1 rest Hrt Ho) as (H1 & H2 & H3).
  unfold built, bind, fail. destruct (release_locals close_error k lo s1) as [s2 [|]]; simpl in *;
    (split_and!; [by apply (same_rest_trans s s1)|congruence|done]).
Qed.

Lemma assemble_effect steps k key s rest :
  rt_open s ≡ₚ rest -> built k key rest s (assemble close_error steps k key s).
Proof.
  intros Ho. unfold assemble. unfold bind, acquire, modify, when.
  destruct (es_start steps); [|apply built_release; try done; simpl; by rewrite Ho].
  destruct (es_wants_desktop steps) eqn:Ed; [destruct (es_desktop steps)|];
    try (apply built_release; try done; simpl; by rewrite Ho).
  all: destruct (es_catalog steps); [|apply built_release; try done; simpl; rewrite Ho; solve_Permutation].
  all: destruct (es_workspace_executor steps); [|apply built_release; try done; simpl; rewrite Ho; solve_Permutation].
  all: destruct (es_host_executor steps); [|apply built_release; try done; simpl; rewrite Ho; solve_Permutation].
  all: destruct (es_router steps); [|apply built_release; try done; simpl; rewrite Ho; solve_Permutation].
  all: destruct (es_plane steps); [|apply built_release; try done; simpl; rewrite Ho; solve_Permutation].
  all: unfold built, ret; simpl; split_and!; try done; rewrite Ho; unfold plane_resources, fixed_resources, bound_resources; simpl; solve_Permutation.
Qed.

(** ** Binding a session to a plane *)

Definition bound_to (p : Plane) (rest : list Resource) (s : RuntimeState) (x : RuntimeState * res Plane) : Prop :=
  same_rest s (fst x) /\
  match snd x with
  | Ok q => rt_open (fst x) ≡ₚ plane_resources q ++ rest /\ tidy q /\ pl_id q = pl_id p /\ pl_agent q = true /\
            rt_current (fst x) = if current_is (pl_id p) s then Some q else rt_current s
  | Err _ => rt_open (fst x) ≡ₚ rest /\ rt_current (fst x) = if current_is (pl_id p) s then None else rt_current s
  end.

(** The state in which [q], a version of [p], holds its resources. *)
Definition holds (p q : Plane) (rest : list Resource) (s s1 : RuntimeState) : Prop :=
  pl_id q = pl_id p /\ rt_open s1 ≡ₚ plane_resources q ++ rest /\ same_rest s s1 /\
  rt_current s1 = if current_is (pl_id p) s then Some q else rt_current s.

Lemma current_is_holds p q rest s s1 : holds p q rest s s1 -> current_is (pl_id q) s1 = current_is (pl_id p) s.
Proof.
  intros (Hid & _ & _ & Hc). unfold current_is at 1. rewrite Hc, Hid. destruct (current_is (pl_id p) s) eqn:E; [by rewrite Hid, Nat.eqb_refl|].
  unfold current_is in E. by destruct (rt_current s).
Qed.

Lemma abandon_effect p q rest s s1 e :
  holds p q rest s s1 ->
  bound_to p rest s
    ((s <- get ;;
      (if current_is (pl_id q) s then modify (set_current_plane None) else ret tt) ;;;
      close_plane close_error q ;;;
      @fail _ Plane e) s1).
Proof.
  intros Hh. pose proof (current_is_holds _ _ _ _ _ Hh) as Hcur. destruct Hh as (Hid & Ho & Hr & Hc).
  unfold bind, get. rewrite Hcur.
  set (s2 := if current_is (pl_id p) s then set_current_plane None s1 else s1).
  assert (Hs2 : (if current_is (pl_id p) s then modify (set_current_plane None) else ret tt) s1 = (s2, Ok tt))
    by (unfold s2; by destruct (current_is (pl_id p) s)).
  rewrite Hs2. assert (H2 : rt_open s2 = rt_open s1 /\ same_rest s1 s2 /\
    rt_current s2 = if current_is (pl_id p) s then None else rt_current s).
  { unfold s2. destruct (current_is (pl_id p) s); done. }
  destruct H2 as (Ho2 & Hr2 & Hc2). assert (Hn : current_is (pl_id q) s2 = false).
  { unfold s2. destruct (current_is (pl_id p) s) eqn:E; [done|]. by rewrite Hcur. }
  destruct (close_plane_effect q s2 rest) as (H3 & Hr3 & Hc3); [by rewrite Ho2|done|].
  unfold bound_to, fail. destruct (close_plane close_error q s2) as [s3 [|]]; simpl in *;
    (split; [by apply (same_rest_trans s s1); [|apply (same_rest_trans s1 s2)]|]); (split; [done|congruence]).
Qed.

Lemma holds_assign p q q' rest s s1 extra :
  holds p q rest s s1 -> pl_id q' = pl_id q -> plane_resources q' ≡ₚ extra ++ plane_resources q ->
  holds p q' rest s (assigned q' (set_open (extra ++ rt_open s1) s1)).
Proof.
  intros Hh Hid' He. pose proof (current_is_holds _ _ _ _ _ Hh) as Hcur. destruct Hh as (Hid & Ho & Hr & Hc). split_and!.
  - congruence.
  - rewrite assigned_open. cbn [rt_open set_open]. by rewrite Ho, He, app_assoc.
  - apply (same_rest_trans s s1); [done|]. apply (same_rest_trans s1 (set_open (extra ++ rt_open s1) s1)); [done|apply assigned_rest].
  - rewrite assigned_current, Hid'. change (current_is (pl_id q) (set_open (extra ++ rt_open s1) s1)) with (current_is (pl_id q) s1).
    rewrite Hcur. simpl. destruct (current_is (pl_id p) s); done.
Qed.

Lemma bind_effect steps p s rest :
  rt_open s ≡ₚ plane_resources p ++ rest -> with_binding false false false p = p -> (forall q, rt_current s = Some q -> pl_id q = pl_id p -> q = p) ->
  bound_to p rest s (bind_session close_error steps p s).
Proof.
  intros Ho Hp Hsame. assert (Hb : pl_agent p = false /\ pl_jobs p = false /\ pl_title_task p = false).
  { rewrite <- Hp. done. }
  destruct Hb as (Hag & Hjb & Htt).
  assert (H0 : holds p p rest s s).
  { split_and!; try done. unfold current_is. destruct (rt_current s) as [q|] eqn:E; [|done].
    destruct (Nat.eqb_spec (pl_id q) (pl_id p)); [|done]. f_equal. by apply Hsame. }
  unfold bind_session. destruct (es_permissions steps).
  2: { assert (Hf : with_binding (pl_agent p) (pl_jobs p) (pl_title_task p) p = p) by (by destruct p). rewrite Hf. by apply abandon_effect. }
  set (p1 := with_binding (pl_agent p) true (pl_title_task p) p).
  assert (H1 : holds p p1 rest s (fst ((acquire (JobThreads (pl_id p)) ;;; assign_plane p1) s))).
  { apply (holds_assign p p p1 rest s s [JobThreads (pl_id p)]); [done|done|].
    unfold plane_resources, fixed_resources, bound_resources. simpl. rewrite Hjb, Htt. solve_Permutation. }
  set (s1 := fst ((acquire (JobThreads (pl_id p)) ;;; assign_plane p1) s)) in *. cbv zeta.
  destruct (es_jobs steps); [|by apply (abandon_effect p p1)]. destruct (es_agent steps); [|by apply (abandon_effect p p1)].
  set (p2 := with_binding (pl_agent p1) true (es_title steps) p1).
  assert (H2 : holds p p2 rest s (fst ((when (es_title steps) (acquire (TitleTask (pl_id p))) ;;; assign_plane p2) s1))).
  { assert (He : fst ((when (es_title steps) (acquire (TitleTask (pl_id p))) ;;; assign_plane p2) s1)
      = assigned p2 (set_open ((if es_title steps then [TitleTask (pl_id p)] else []) ++ rt_open s1) s1)).
    { unfold bind, when, acquire, modify, ret. destruct (es_title steps); [done|]. simpl. by destruct s1. }
    rewrite He. apply (holds_assign p p1 p2 rest s s1); [done|done|].
    unfold plane_resources, fixed_resources, bound_resources. simpl. rewrite Htt. destruct (es_title steps); simpl; solve_Permutation. }
  set (s2 := fst ((when _ _ ;;; assign_plane p2) s1)) in *.
  set (p3 := with_binding true true (es_title steps) p2).
  assert (H3 : holds p p3 rest s (fst (assign_plane p3 s2))).
  { assert (He : fst (assign_plane p3 s2) = assigned p3 (set_open ([] ++ rt_open s2) s2)) by (unfold assigned; simpl; by destruct s2).
    rewrite He. by apply (holds_assign p p2 p3 rest s s2). }
  destruct (es_context_window steps); [|by apply (abandon_effect p p3)].
  destruct H3 as (Hid3 & Ho3 & Hr3 & Hc3). split; [done|]. simpl. split_and!; try done.
Qed.

(** ** The operations keep the books *)

Lemma accounted_planes extra s s' :
  accounted_with extra s -> rt_controller s' = rt_controller s ->
  rt_open s' ≡ₚ current_resources s' ++ extra ++ controller_resources s ->
  (forall p, rt_current s' = Some p -> tidy p /\ (pl_id p < rt_next s')%nat) -> accounted_with extra s'.
Proof.
  intros [_ _ _ Hw] Hc Ho Hp. split; unfold controller_resources in *; rewrite ?Hc; try done.
  - intros p Hcur. by apply Hp.
  - intros p Hcur. by apply Hp.
Qed.

Lemma close_planes_effect extra s :
  accounted_with extra s ->
  let s' := fst (close_planes close_error s) in accounted_with extra s' /\ rt_current s' = None /\ same_rest s s'.
Proof.
  intros Ha s'. unfold s', close_planes, bind, get, modify. destruct (rt_current s) as [p|] eqn:E; simpl.
  - destruct (close_plane_effect p (set_current_plane None s) (extra ++ controller_resources s)) as (Ho & Hr & Hc).
    { simpl. rewrite (ac_open _ _ Ha). unfold current_resources. by rewrite E. }
    { done. }
    simpl in Hc. split_and!; [|done|done]. apply (accounted_planes extra s); [done|apply Hr|unfold current_resources; by rewrite Hc|]. by rewrite Hc.
  - split_and!; [|done|done]. apply (accounted_planes extra s); [done|done| |done].
    simpl. rewrite (ac_open _ _ Ha). unfold current_resources. by rewrite E.
Qed.

Lemma unbind_session_keeps extra : preserves (accounted_with extra) (unbind_session close_error).
Proof.
  intros s Ha. unfold unbind_session, bind, get. destruct (rt_current s) as [p|] eqn:E; [|done].
  destruct (unbind_effect p s (fixed_resources p ++ extra ++ controller_resources s)) as (Ho & Hr & Hc).
  { rewrite (ac_open _ _ Ha). unfold current_resources. rewrite E. unfold plane_resources. solve_Permutation. }
  assert (Hcur : current_is (pl_id p) s = true) by (unfold current_is; by rewrite E, Nat.eqb_refl). rewrite Hcur in Hc.
  apply (accounted_planes extra s); [done|apply Hr|..].
  - rewrite Ho. unfold current_resources. rewrite Hc. unfold plane_resources, bound_resources. simpl. by rewrite app_nil_r.
  - rewrite Hc. intros q [= <-]. split; [done|]. destruct Hr as (_ & -> & _). exact (ac_fresh _ _ Ha p E).
Qed.

Lemma tidy_unbound p : tidy p -> pl_agent p = false -> with_binding false false false p = p.
Proof.
  intros [Hj Ht] Ha. destruct p as [k key c a j t]. unfold with_binding. simpl in *. subst. destruct t; [|done]. by discriminate Ht.
Qed.

Lemma ensure_keeps steps force : preserves accounted (ensure close_error steps force).
Proof.
  intros s Ha. unfold ensure. unfold bind at 1, get at 1.
  destruct (ct_session (rt_controller s)) as [sid|], (ct_workspace (rt_controller s)) as [ws|], (ct_provider_name (rt_controller s)) as [pn|]; try done.
  unfold bind at 1, lift at 1. destruct (es_inputs steps (rt_controller s)) as [key|]; [|done].
  assert (Hbuild : accounted (fst ((close_planes close_error ;;;
          lift (es_phase steps) ;;;
          lift (es_config steps) ;;;
          s <- get ;;
          let k := rt_next s in
          modify (fun s => MkRuntime (rt_open s) (rt_controller s) (rt_current s) (S k) (rt_turn_id s)) ;;;
          plane <- assemble close_error steps k key ;;
          bound <- bind_session close_error steps plane ;;
          modify (set_current_plane (Some bound)) ;;;
          ret bound) s))).
  { destruct (close_planes_effect [] s Ha) as (Ha1 & Hn & _). unfold bind at 1.
    destruct (close_planes close_error s) as [s1 [|]]; simpl in Ha1, Hn; [|done].
    unfold bind at 1, lift at 1. destruct (es_phase steps); [|done]. unfold bind at 1, lift at 1. destruct (es_config steps); [|done].
    unfold bind at 1, get. cbv zeta. unfold bind at 1, modify at 1.
    set (s2 := MkRuntime (rt_open s1) (rt_controller s1) (rt_current s1) (S (rt_next s1)) (rt_turn_id s1)).
    assert (Ho2 : rt_open s2 ≡ₚ controller_resources s1).
    { simpl. rewrite (ac_open _ _ Ha1). unfold current_resources. by rewrite Hn. }
    destruct (assemble_effect steps (rt_next s1) key s2 _ Ho2) as (Hr3 & Hc3 & H3). unfold bind at 1.
    destruct (assemble close_error steps (rt_next s1) key s2) as [s3 [p|e]]; simpl in Hr3, Hc3, H3.
    2: { apply (accounted_planes [] s1); [done|exact (proj1 Hr3)| |simpl; by rewrite Hc3; simpl; rewrite Hn].
         unfold current_resources. simpl. rewrite Hc3. simpl. by rewrite Hn. }
    destruct H3 as (Ho3 & Hid & _ & Hub). simpl in Hc3. rewrite Hn in Hc3.
    destruct (bind_effect steps p s3 (controller_resources s1) Ho3 Hub) as (Hr4 & H4); [by rewrite Hc3|]. unfold bind at 1.
    assert (Hci : current_is (pl_id p) s3 = false) by (unfold current_is; by rewrite Hc3). rewrite Hci in H4.
    pose proof (same_rest_trans _ _ _ Hr3 Hr4) as (Hctl & Hnext & _). simpl in Hctl, Hnext.
    destruct (bind_session close_error steps p s3) as [s4 [q|e]]; simpl in *.
    - destruct H4 as (Ho4 & Htq & Hidq & _ & Hc4). apply (accounted_planes [] s1); [done|done|done|].
      intros q' [= <-]. split; [done|]. simpl. rewrite Hnext, Hidq, Hid. lia.
    - destruct H4 as (Ho4 & Hc4). apply (accounted_planes [] s1); [done|done| |by rewrite Hc4, Hc3].
      unfold current_resources. by rewrite Hc4, Hc3. }
  destruct (rt_current s) as [p|] eqn:Ep; [|exact Hbuild].
  destruct (negb force && bool_decide (pl_key p = key)); [|exact Hbuild].
  destruct (pl_agent p) eqn:Eag; [done|].
  assert (Ho : rt_open s ≡ₚ plane_resources p ++ controller_resources s).
  { rewrite (ac_open _ _ Ha). unfold current_resources. by rewrite Ep. }
  destruct (bind_effect steps p s _ Ho (tidy_unbound p (ac_tidy _ _ Ha p Ep) Eag)) as (Hr & H4); [congruence|].
  assert (Hcur : current_is (pl_id p) s = true) by (unfold current_is; by rewrite Ep, Nat.eqb_refl). rewrite Hcur in H4.
  destruct Hr as (Hctl & Hnext & _). destruct (bind_session close_error steps p s) as [s4 [q|e]]; simpl in *.
  - destruct H4 as (Ho4 & Htq & Hidq & _ & Hc4). apply (accounted_planes [] s); [done|done|unfold current_resources; by rewrite Hc4|].
    rewrite Hc4. intros q' [= <-]. split; [done|]. rewrite Hnext, Hidq. by apply (ac_fresh _ _ Ha).
  - destruct H4 as (Ho4 & Hc4). apply (accounted_planes [] s); [done|done|unfold current_resources; by rewrite Hc4|by rewrite Hc4].
Qed.

Lemma close_writers_effect ids s rest :
  rt_open s ≡ₚ map Writer ids ++ rest ->
  let s' := fst (close_writers close_error ids s) in
  rt_open s' ≡ₚ rest /\ same_rest s s' /\ rt_current s' = rt_current s.
Proof.
  revert s. induction ids as [|id ids IH]; intros s Ho s'; [done|]. unfold s'. cbn [close_writers].
  rewrite finally_state, (effect_close (Writer id)). apply dropped_open in Ho. exact (IH (dropped (Writer id) s) Ho).
Qed.

Lemma controller_close_effect extra s :
  accounted_with extra s ->
  let s' := fst (controller_close close_error s) in
  accounted_with extra s' /\ rt_current s' = rt_current s /\ rt_next s' = rt_next s /\
  rt_controller s' = MkController (ct_session (rt_controller s)) None (ct_workspace (rt_controller s)) (ct_provider_name (rt_controller s)) [].
Proof.
  intros Ha s'. unfold s', controller_close, on_controller, bind, get, modify. simpl.
  set (s1 := set_controller _ s).
  destruct (close_writers_effect (rev (ct_journal (rt_controller s))) s1 (current_resources s ++ extra)) as (Ho & Hr & Hc).
  { simpl. rewrite (ac_open _ _ Ha). unfold controller_resources. rewrite map_rev. rewrite <- (Permutation_rev (map Writer _)). solve_Permutation. }
  destruct Hr as (Hctl & Hnext & _). split_and!; [|done..]. split.
  - rewrite Ho. unfold current_resources, controller_resources. rewrite Hc, Hctl. simpl. by rewrite app_nil_r.
  - rewrite Hc. apply Ha.
  - rewrite Hc, Hnext. apply Ha.
  - left. by rewrite Hctl.
Qed.

(** A controller that differs in its workspace and provider only. *)
Lemma accounted_settings extra s c :
  accounted_with extra s -> ct_session c = ct_session (rt_controller s) -> ct_sink c = ct_sink (rt_controller s) ->
  ct_journal c = ct_journal (rt_controller s) -> accounted_with extra (set_controller c s).
Proof.
  intros [H1 H2 H3 H4] Hs Hk Hj. split; try done; unfold controller_resources in *; simpl.
  - by rewrite Hj.
  - by rewrite Hs, Hk, Hj.
Qed.

(** The session [id] takes over the writer that is at hand. *)
Lemma accounted_writer s c id :
  accounted_with [Writer id] s -> ct_journal (rt_controller s) = [] ->
  ct_session c = Some id -> ct_sink c = Some id -> ct_journal c = [id] -> accounted (set_controller c s).
Proof.
  intros [H1 H2 H3 _] Hj Hs Hk Hjc. split; try done; unfold controller_resources in *; simpl.
  - rewrite Hj in H1. rewrite Hjc. simpl in *. exact H1.
  - right. by exists id.
Qed.

Lemma acquire_writer id s : accounted s -> accounted_with [Writer id] (fst (acquire (Writer id) s)).
Proof.
  intros [H1 H2 H3 H4]. split; try done.
  change (Writer id :: rt_open s ≡ₚ current_resources s ++ [Writer id] ++ controller_resources s). rewrite H1. simpl. solve_Permutation.
Qed.

Lemma release_writer id s : accounted_with [Writer id] s -> accounted (dropped (Writer id) s).
Proof.
  intros [H1 H2 H3 H4]. split; try done. apply dropped_open.
  change (rt_open s ≡ₚ Writer id :: current_resources s ++ controller_resources s). rewrite H1. simpl. solve_Permutation.
Qed.

(** ** Opening a session *)

(** The steps of [open_session] before a writer is opened. *)
Definition same_binding (s s' : RuntimeState) : Prop :=
  ct_session (rt_controller s') = ct_session (rt_controller s) /\ ct_sink (rt_controller s') = ct_sink (rt_controller s) /\
  ct_journal (rt_controller s') = ct_journal (rt_controller s) /\ ct_provider_name (rt_controller s') = ct_provider_name (rt_controller s).

Definition lost_writer (s s' : RuntimeState) : Prop :=
  exists id, ct_journal (rt_controller s) = [id] /\ close_error (Writer id) <> None /\
    ct_session (rt_controller s') = Some id /\ ct_journal (rt_controller s') = [].

Lemma unbind_session_controller s : rt_controller (fst (unbind_session close_error s)) = rt_controller s.
Proof.
  unfold unbind_session, bind, get. destruct (rt_current s) as [p|]; [|done]. rewrite effect_unbind. cbv zeta.
  destruct (pl_jobs p), (pl_title_task p); simpl;
    repeat (rewrite (proj1 (assigned_rest _ _)) || simpl); done.
Qed.

(** The new writer is opened, and closed again if the session cannot take over. *)
Definition take_over (steps : OpenSteps) (resumed : bool) (id : string) : M RuntimeState unit :=
  catch
    ((if resumed then lift (os_load steps) else ret tt) ;;;
     lift (os_bind steps) ;;;
     lift (os_recover steps) ;;;
     unbind_session close_error ;;;
     controller_close close_error)
    (fun e => close_resource close_error (Writer id) ;;; fail e).

Lemma close_writer_fails id e s :
  exists e', (close_resource close_error (Writer id) ;;; @fail _ unit e) s = (dropped (Writer id) s, Err e').
Proof. unfold close_resource, bind, modify, fail. destruct (close_error (Writer id)); simpl; eauto. Qed.

Definition taken_over (id : string) (s : RuntimeState) (x : RuntimeState * res unit) : Prop :=
  match snd x with
  | Ok _ => accounted_with [Writer id] (fst x) /\ rt_controller (fst x) =
      MkController (ct_session (rt_controller s)) None (ct_workspace (rt_controller s)) (ct_provider_name (rt_controller s)) []
  | Err _ => accounted (fst x) /\ (same_binding s (fst x) \/ lost_writer s (fst x))
  end.

Lemma taken_back id s s1 e :
  accounted_with [Writer id] s1 -> same_binding s s1 \/ lost_writer s s1 ->
  taken_over id s ((close_resource close_error (Writer id) ;;; fail e) s1).
Proof.
  intros Ha Hb. destruct (close_writer_fails id e s1) as [e' ->]. split; [by apply release_writer|exact Hb].
Qed.

Lemma close_writers_error id s s' e :
  close_writers close_error [id] s = (s', Err e) -> close_error (Writer id) <> None.
Proof.
  cbn [close_writers]. unfold finally, ret, close_resource, bind, modify, fail. by destruct (close_error (Writer id)).
Qed.

Lemma take_over_effect steps resumed id s :
  accounted_with [Writer id] s -> taken_over id s (take_over steps resumed id s).
Proof.
  intros Ha. assert (Hself : same_binding s s \/ lost_writer s s) by (by left).
  unfold take_over. assert (Hl : (if resumed then lift (os_load steps) else ret tt) = @lift RuntimeState unit (if resumed then os_load steps else Ok tt))
    by (by destruct resumed).
  rewrite Hl. unfold catch, lift. unfold bind at 1. destruct (if resumed then os_load steps else Ok tt); [|by apply taken_back].
  unfold bind at 1. destruct (os_bind steps); [|by apply taken_back]. unfold bind at 1. destruct (os_recover steps); [|by apply taken_back].
  unfold bind at 1. pose proof (unbind_session_keeps [Writer id] s Ha) as Ha1. pose proof (unbind_session_controller s) as Hc1.
  destruct (unbind_session close_error s) as [s1 [[]|e]]; simpl in Ha1, Hc1.
  2: { apply taken_back; [done|]. left. unfold same_binding. by rewrite Hc1. }
  destruct (controller_close_effect [Writer id] s1 Ha1) as (Ha2 & _ & _ & Hc2). rewrite Hc1 in Hc2.
  destruct (controller_close close_error s1) as [s2 [[]|e]] eqn:E2; simpl in Ha2, Hc2; [by split|].
  apply taken_back; [done|]. right.
  unfold controller_close, bind, get, on_controller, modify in E2.
  destruct (ac_writer _ _ Ha1) as [[Hj _]|(old & Hs & Hj & _)]; rewrite Hj in E2; [done|].
  apply close_writers_error in E2. rewrite Hc1 in Hs, Hj. exists old. split_and!; [done|done|by rewrite Hc2|by rewrite Hc2].
Qed.

(** What [open_session] comes to. *)
Definition opened (session_id : option string) (s : RuntimeState) (x : RuntimeState * res bool) : Prop :=
  accounted (fst x) /\
  match snd x with
  | Ok _ =>
      (forall id, given session_id = Some id -> ct_session (rt_controller (fst x)) = Some id) /\
      (session_id <> ct_session (rt_controller s) \/ session_id = None ->
       exists id, ct_session (rt_controller (fst x)) = Some id /\ ct_sink (rt_controller (fst x)) = Some id /\
         ct_journal (rt_controller (fst x)) = [id])
  | Err _ => same_binding s (fst x) \/ lost_writer s (fst x)
  end.

Lemma opened_early session_id s e : accounted s -> opened session_id s (s, Err e).
Proof. intros Ha. split; [done|]. by left. Qed.

Lemma opened_settings session_id s s1 e :
  accounted s1 -> same_binding s s1 -> opened session_id s (s1, Err e).
Proof. intros Ha Hb. split; [done|]. by left. Qed.

Lemma bind_lift {A B} (r : res A) (k : A -> M RuntimeState B) s :
  bind (lift r) k s = match r with Ok a => k a s | Err e => (s, Err e) end.
Proof. by destruct r. Qed.

Lemma open_session_outcome steps session_id provider s :
  accounted s -> opened session_id s (open_session close_error steps session_id provider s).
Proof.
  intros Ha. unfold open_session, require_idle. unfold bind at 1 2, get at 1.
  destruct (rt_turn_id s); [by apply opened_early|]. unfold ret at 1, open_session_with. cbv zeta.
  rewrite bind_lift. destruct (os_reload steps); [|by apply opened_early].
  rewrite bind_lift. destruct (os_workspace steps) as [requested|]; [|by apply opened_early].
  rewrite bind_lift. destruct (os_models steps) as [models|]; [|by apply opened_early].
  rewrite bind_lift. destruct (match given session_id with Some _ => os_stored_provider steps | None => Ok None end) as [stored|]; [|by apply opened_early].
  set (main := match given provider with Some p => p | None => _ end). destruct (negb (name_in main (snd models))); [by apply opened_early|].
  rewrite bind_lift. set (resumed := match given session_id with Some _ => true | None => false end).
  destruct (if resumed then os_bound_workspace steps else Ok None) as [bound|]; [|by apply opened_early].
  set (workspace := match given bound with Some w => w | None => requested end).
  unfold bind at 1, get at 1. unfold bind at 1.
  set (s1 := match ct_session (rt_controller s) with
             | None => set_controller (MkController None (ct_sink (rt_controller s)) (Some workspace) (ct_provider_name (rt_controller s)) (ct_journal (rt_controller s))) s
             | Some _ => s end).
  assert (Hs1 : match ct_session (rt_controller s) with
    | None => on_controller (fun c => MkController None (ct_sink c) (Some workspace) (ct_provider_name c) (ct_journal c))
    | Some _ => ret tt end s = (s1, Ok tt)) by (unfold s1; by destruct (ct_session (rt_controller s))).
  rewrite Hs1. assert (Ha1 : accounted s1) by (unfold s1; destruct (ct_session (rt_controller s)) eqn:E; [done|]; by apply accounted_settings).
  assert (Hb1 : same_binding s s1) by (unfold s1, same_binding; destruct (ct_session (rt_controller s)) eqn:E; simpl; by rewrite ?E).
  clearbody s1. unfold bind at 1.
  destruct (match ct_session (rt_controller s) with Some id => match session_id with Some id' => String.eqb id id' | None => false end | None => false end) eqn:Er.
  - unfold bind at 1. pose proof (unbind_session_keeps [] s1 Ha1) as Ha2. pose proof (unbind_session_controller s1) as Hc2.
    destruct (ct_session (rt_controller s)) as [cur|] eqn:Ecur; [|done]. destruct session_id as [id'|]; [|done]. apply String.eqb_eq in Er as <-.
    destruct (unbind_session close_error s1) as [s2 [[]|e]]; simpl in Ha2, Hc2.
    2: { apply opened_settings; [done|]. unfold same_binding in *. by rewrite Hc2. }
    assert (Hses : ct_session (rt_controller s2) = Some cur) by (rewrite Hc2; destruct Hb1 as [-> _]; done).
    unfold bind, get, set_session, set_provider_name, on_controller, modify, ret. simpl. split; simpl.
    + by apply (accounted_settings [] (set_controller _ s2)); [apply (accounted_settings [] s2)|..].
    + split; [|by intros [?|?]]. intros id Hg. unfold given in Hg. destruct (nonempty cur); simplify_eq. done.
  - set (oid := match given session_id with Some id => id | None => os_new_id steps end).
    rewrite bind_lift. destruct (os_open_journal steps); [|by apply opened_settings].
    unfold bind at 1. pose proof (acquire_writer oid s1 Ha1) as Ha2. set (s2 := fst (acquire (Writer oid) s1)) in *.
    replace (acquire (Writer oid) s1) with (s2, @Ok unit tt) by done.
    assert (Hb2 : same_binding s s2) by done. clearbody s2. unfold bind at 1.
    pose proof (take_over_effect steps resumed oid s2 Ha2) as Ht. unfold take_over in Ht.
    destruct (catch _ _ s2) as [s3 [[]|e]]; unfold taken_over in Ht; simpl in Ht.
    2: { destruct Ht as [Ha3 Hk]. split; [done|]. simpl. destruct Hb2 as (B1 & B2 & B3 & B4). destruct Hk as [(C1 & C2 & C3 & C4)|(id & L1 & L2 & L3 & L4)].
         - left. unfold same_binding. split_and!; congruence.
         - right. exists id. split_and!; congruence. }
    destruct Ht as [Ha3 Hc3]. unfold bind, set_session, set_provider_name, on_controller, modify, ret. simpl. split; simpl.
    + apply (accounted_settings [] (set_controller (MkController (Some oid) (Some oid) (Some workspace) (ct_provider_name (rt_controller s3)) [oid]) s3)); try done.
      apply (accounted_writer s3 _ oid); try done. by rewrite Hc3.
    + split; [|by exists oid]. intros id Hg. unfold oid. by rewrite Hg.
Qed.

(** ** The other operations of the host *)

Lemma close_planes_keeps extra : preserves (accounted_with extra) (close_planes close_error).
Proof. intros s Ha. by destruct (close_planes_effect extra s Ha). Qed.

Lemma require_idle_keeps (P : RuntimeState -> Prop) : preserves P require_idle.
Proof. intros s Hs. unfold require_idle, bind, get. by destruct (rt_turn_id s). Qed.

Lemma require_session_keeps (P : RuntimeState -> Prop) : preserves P require_session.
Proof. intros s Hs. unfold require_session, bind, get. by destruct (ct_session (rt_controller s)). Qed.

Lemma lift_keeps {A} (P : RuntimeState -> Prop) (r : res A) : preserves P (lift r).
Proof. by intros s Hs. Qed.

Lemma set_provider_keeps extra name : preserves (accounted_with extra) (set_provider_name name).
Proof. intros s Ha. by apply accounted_settings. Qed.

Lemma reopen_keeps (open_journal : res unit) s :
  accounted s -> ct_journal (rt_controller s) = [] ->
  accounted (fst ((lift open_journal ;;;
     s <- get ;;
     match ct_session (rt_controller s) with
     | Some id =>
         acquire (Writer id) ;;;
         on_controller (fun c => MkController (ct_session c) (Some id) (ct_workspace c) (ct_provider_name c) (ct_journal c ++ [id]))
     | None => ret tt
     end) s)).
Proof.
  intros Ha Hj. rewrite bind_lift. destruct open_journal; [|done]. unfold bind, get.
  destruct (ct_session (rt_controller s)) as [id|] eqn:E; [|done].
  apply (accounted_writer (fst (acquire (Writer id) s)) _ id); [by apply acquire_writer|done|done|done|]. simpl. by rewrite Hj.
Qed.

Lemma change_workspace_keeps bind_ open_journal workspace :
  preserves accounted (controller_change_workspace close_error bind_ open_journal workspace).
Proof.
  intros s Ha. destruct (controller_close_effect [] s Ha) as (Ha1 & _ & _ & Hc1). unfold controller_change_workspace, bind at 1.
  destruct (controller_close close_error s) as [s1 [[]|e]]; simpl in Ha1, Hc1; [|done]. rewrite finally_state. rewrite bind_lift.
  destruct bind_; simpl.
  - apply reopen_keeps; [by apply accounted_settings|]. simpl. by rewrite Hc1.
  - apply reopen_keeps; [done|]. by rewrite Hc1.
Qed.

Inductive HostOp :=
| HOpen (steps : OpenSteps) (session_id provider : option string)
| HEnsure (steps : EnsureSteps)
| HRefresh (steps : EnsureSteps) (on_failed on_idle : res unit)
| HProvider (models : res (list string)) (stored : res unit) (provider : string)
| HWorkspace (workspace : res string) (bind open_journal : res unit)
| HTurn (turn_id : option string)
| HClose.

Definition host_op (op : HostOp) (s : RuntimeState) : RuntimeState :=
  match op with
  | HOpen steps session_id provider => fst (open_session close_error steps session_id provider s)
  | HEnsure steps => fst (ensure close_error steps false s)
  | HRefresh steps on_failed on_idle => fst (refresh_runtime close_error steps on_failed on_idle s)
  | HProvider models stored provider => fst (change_provider close_error models stored provider s)
  | HWorkspace workspace bind open_journal => fst (change_workspace close_error workspace bind open_journal s)
  | HTurn turn_id => MkRuntime (rt_open s) (rt_controller s) (rt_current s) (rt_next s) turn_id
  | HClose => fst (close_host close_error s)
  end.

Lemma if_keeps {A} (P : RuntimeState -> Prop) (b : bool) (c d : M RuntimeState A) : preserves P c -> preserves P d -> preserves P (if b then c else d).
Proof. by destruct b. Qed.
#[local] Hint Resolve close_planes_keeps require_idle_keeps require_session_keeps set_provider_keeps change_workspace_keeps ensure_keeps lift_keeps if_keeps : core.

Lemma get_keeps (P : RuntimeState -> Prop) {A} (k : RuntimeState -> M RuntimeState A) :
  (forall s, preserves P (k s)) -> preserves P (bind get k).
Proof. intros H s Hs. unfold bind, get. by apply H. Qed.

Lemma host_op_keeps op s : accounted s -> accounted (host_op op s).
Proof.
  intros Ha. destruct op as [steps sid pr|steps|steps f i|models stored pr|ws b oj|t|]; simpl.
  - by apply (open_session_outcome steps sid pr s Ha).
  - by apply ensure_keeps.
  - revert s Ha. change (preserves accounted (refresh_runtime close_error steps f i)). unfold refresh_runtime.
    apply preserves_bind; [auto|]. intros _. apply preserves_bind; [|auto]. apply preserves_catch.
    + apply preserves_bind; [auto|]. intros ?. apply preserves_ret.
    + intros e. destruct (is_exception e); [|apply preserves_fail]. apply preserves_bind; [auto|]. intros ?. apply preserves_fail.
  - revert s Ha. change (preserves accounted (change_provider close_error models stored pr)). unfold change_provider, controller_change_provider.
    apply preserves_bind; [auto|]. intros _. apply preserves_bind; [auto|]. intros _. apply preserves_bind; [auto|]. intros names.
    apply if_keeps; [apply preserves_fail|]. apply get_keeps. intros s0. cbv zeta. apply preserves_bind; [|intros ?; apply preserves_ret].
    apply if_keeps; [|apply preserves_ret]. apply preserves_bind; [apply close_planes_keeps|]. intros _.
    apply preserves_bind; [auto|]. intros _. apply set_provider_keeps.
  - revert s Ha. change (preserves accounted (change_workspace close_error ws b oj)). unfold change_workspace.
    apply preserves_bind; [auto|]. intros _. apply preserves_bind; [auto|]. intros _. apply preserves_bind; [auto|]. intros path.
    apply get_keeps. intros s0. cbv zeta. apply preserves_bind; [|intros ?; apply preserves_ret].
    apply if_keeps; [|apply preserves_ret]. apply preserves_bind; [apply close_planes_keeps|]. intros _. apply change_workspace_keeps.
  - destruct Ha as [H1 H2 H3 H4]. by split.
  - unfold close_host. rewrite finally_state. destruct (close_planes_effect [] s Ha) as (Ha1 & _). by destruct (controller_close_effect [] _ Ha1).
Qed.
End effects.

Definition initial_runtime : RuntimeState := MkRuntime [] (MkController None None None None []) None 0 None.

Lemma initial_accounted : accounted initial_runtime.
Proof. split; try done. by left. Qed.

(** C10: whatever sequence of operations the host of a runtime goes through, and
    whichever of their steps fail (closing a resource included; only the title
    task is taken to close cleanly), what is open afterwards is what is in use:
    the MCP clients, executors, desktop, job threads and title task of the
    current plane, and the journal writer of the bound session, which has at
    most one.  After [close_host] nothing is open. *)
Theorem runtime_holds_what_it_uses close_error ops :
  (forall k, close_error (TitleTask k) = None) ->
  let s := fold_left (fun s op => host_op close_error op s) ops initial_runtime in
  accounted s /\ rt_open (host_op close_error HClose s) = [].
Proof.
  intros Ht s. assert (Ha : accounted s).
  { unfold s. generalize initial_accounted. generalize initial_runtime. induction ops as [|op ops IH]; intros s0 H0; [done|].
    simpl. apply IH. by apply host_op_keeps. }
  split; [done|]. simpl. unfold close_host. rewrite finally_state.
  destruct (close_planes_effect close_error Ht [] s Ha) as (Ha1 & Hn & _). destruct (controller_close_effect close_error [] _ Ha1) as (Ha2 & Hc2 & _ & Hc).
  apply Permutation_nil. symmetry. rewrite (ac_open _ _ Ha2). unfold current_resources, controller_resources. by rewrite Hc2, Hn, Hc.
Qed.

(** Opening a session replaces the binding as a whole or leaves it: when it
    returns, the requested session (or a new one) is bound and holds the only
    journal writer; when it raises, session, writer and provider are the ones from
    before, and a writer that was opened for the target has been closed.  The
    exception is an old writer whose [close] raises: the old session stays bound
    and has no writer any more. *)
Theorem open_session_replaces_or_keeps close_error steps session_id provider s :
  (forall k, close_error (TitleTask k) = None) -> accounted s ->
  opened close_error session_id s (open_session close_error steps session_id provider s).
Proof. intros Ht Ha. by apply open_session_outcome. Qed.

(** ** A concrete runtime *)

Definition demo_open (id : string) (recover : res unit) : OpenSteps :=
  MkOpen (Ok tt) (Ok "/w") (Ok ("main", ["main"])) (Ok None) (Ok None) (Ok tt) (Ok tt) (Ok tt) recover id.
Definition demo_steps (host : res unit) : EnsureSteps :=
  MkSteps (fun _ => Ok (MkKey "/w" "main" "" "" "" "")) (Ok tt) (Ok tt) (Ok tt) true (Ok tt) (Ok tt) (Ok tt) host (Ok tt) (Ok tt)
    (Ok tt) (Ok tt) (Ok tt) true (Ok tt).
Definition demo_close (r : Resource) : option exn := match r with Mcp _ => Some (Exn EOSError "server gone") | _ => None end.

(** A plane is built, then its successor fails half way and the MCP client does not
    close cleanly: only the writer is left. *)
Lemma runtime_holds_what_it_uses_witness :
  let ops := [HOpen (demo_open "a" (Ok tt)) None None; HEnsure (demo_steps (Ok tt));
              HRefresh (demo_steps (Err (Exn EOSError "no shell"))) (Ok tt) (Ok tt)] in
  let s := fold_left (fun s op => host_op demo_close op s) ops initial_runtime in
  rt_open s = [Writer "a"] /\ accounted s /\ rt_open (host_op demo_close HClose s) = [].
Proof.
  split; [vm_compute; reflexivity|].
  apply (runtime_holds_what_it_uses demo_close
    [HOpen (demo_open "a" (Ok tt)) None None; HEnsure (demo_steps (Ok tt));
     HRefresh (demo_steps (Err (Exn EOSError "no shell"))) (Ok tt) (Ok tt)]). done.
Defined.

(** The target session cannot be recovered: the runtime stays on the old one. *)
Lemma open_session_replaces_or_keeps_witness :
  let s := host_op demo_close (HOpen (demo_open "a" (Ok tt)) None None) initial_runtime in
  let x := open_session demo_close (demo_open "" (Err (Exn EValueError "bad event"))) (Some "b") None s in
  rt_open (fst x) = [Writer "a"] /\ ct_session (rt_controller (fst x)) = Some "a" /\ opened demo_close (Some "b") s x.
Proof.
  split_and!; [vm_compute; reflexivity|vm_compute; reflexivity|].
  apply (open_session_replaces_or_keeps demo_close (demo_open "" (Err (Exn EValueError "bad event"))) (Some "b") None
    (host_op demo_close (HOpen (demo_open "a" (Ok tt)) None None) initial_runtime)); [done|].
  split; [vm_compute; reflexivity|done|done|right; exists "a"; vm_compute; done].
Defined.
