(* ===== verification/Protocol.v ===== *)
(** * The protocol between the bridge and its front ends

    interfaces/bridge/protocol.py and interfaces/bridge/event_stream.py: the
    messages, their encoding as lines of JSON, the commands a bridge accepts and
    the numbering of the events of a session. *)

From stdpp Require Import base list strings.
From Stdlib Require Import ZArith Lia.
From S2P Require Import Prelude PyData PyStr Json PyTime Content Plan Message Session PyText JsonText.
From S2P Require Import ContextManager Agent.

(** A Python dict with string keys. *)
Notation dict := (list (string * json)).

Definition PROTOCOL_VERSION : Z := 3.

Definition COMMAND_TYPES : list string :=
  ["open_session"; "user_turn"; "user_steer"; "cancel"; "approval_response";
   "user_question_response"; "permission_set"; "provider_set"; "workspace_set";
   "list_sessions"; "list_workspaces"; "load_session"; "session_snapshot"; "settings_get";
   "settings_provider_save"; "settings_agent_save"; "settings_routing_save";
   "runtime_refresh"].

Definition str_in (l : list string) (s : string) : bool := existsb (String.eqb s) l.

(** [value in {...}] and [value == ...] for strings. *)
Definition is_type (l : list string) (ty : json) : bool := match ty with JStr t => str_in l t | _ => false end.

(** ** Lines *)

Definition encode `{FloatText} (message : json) : string := dumps message.

Definition decode `{FloatText} `{FloatRead} (line : string) : res dict :=
  message <~ loads line ;;
  match message with
  | JObj d =>
      match jget "type" d with
      | JStr ty => if str_in COMMAND_TYPES ty then Ok d
                   else value_error ("unknown command type: " +:+ repr_string ty)
      | _ => value_error "protocol message must have a string 'type'"
      end
  | _ => value_error "protocol message must be a JSON object"
  end.

(** The classes that derive from [ValueError]. *)
Definition is_value_error (e : exn) : bool :=
  match exn_class e with EValueError | EJSONDecode | EUnicodeDecode | EProtocol => true | _ => false end.

(** [except ValueError as error: raise ProtocolError(str(error)) from error] *)
Definition as_protocol_error {A} (r : res A) : res A :=
  match r with
  | Ok a => Ok a
  | Err e => Err (if is_value_error e then Exn EProtocol (exn_msg e) else e)
  end.

Definition protocol_error {A} (m : string) : res A := raise EProtocol m.

Definition decode_bridge_command `{FloatText} `{FloatRead} (line : string) : res dict :=
  message <~ as_protocol_error (loads line) ;;
  match message with
  | JObj d =>
      let expected := protocol_error "expected 'channel_command', 'close_channel' or 'shutdown'" in
      match jget "type" d with
      | JStr ty =>
          if String.eqb ty "shutdown" then Ok d else
          if negb (str_in ["channel_command"; "close_channel"] ty) then expected else
          match jget "channel_id" d with
          | JStr channel_id =>
              if negb (nonempty channel_id) then protocol_error "'channel_id' must be a non-empty string" else
              if String.eqb ty "channel_command"
              then command <~ as_protocol_error (decode (encode (jget "command" d))) ;;
                   Ok (dset "command" (JObj command) d)
              else Ok d
          | _ => protocol_error "'channel_id' must be a non-empty string"
          end
      | JArr _ => raise ETypeError "unhashable type: 'list'"
      | JObj _ => raise ETypeError "unhashable type: 'dict'"
      | _ => expected
      end
  | _ => protocol_error "bridge command must be a JSON object"
  end.

(** [value.isoformat(timespec="microseconds")] of a UTC time, with "Z". *)
Definition isoformat_microseconds (d : datetime) : string :=
  let '(y, m, day) := ord2ymd (ordinal d) in
  let us := wall d mod us_day in
  pad 4 y +:+ "-" +:+ pad 2 m +:+ "-" +:+ pad 2 day +:+ "T"
  +:+ pad 2 (us / us_hour) +:+ ":" +:+ pad 2 (us / us_minute mod 60) +:+ ":"
  +:+ pad 2 (us / us_second mod 60) +:+ "." +:+ pad 6 (us mod us_second) +:+ print_offset (utcoffset d).

Definition format_timestamp (t : Z) : string := str_replace "+00:00" "Z" (isoformat_microseconds (utc t)).

(** ** Messages *)

Definition runtime_failure_to_dict (e : RuntimeErrorInfo) : json :=
  JObj [("type", JStr (rei_type e)); ("message", JStr (rei_message e)); ("details", JObj (rei_details e))].

Definition context_window_fields (w : ContextWindow) : dict :=
  [("input_tokens", JInt (w_input_tokens w)); ("system_prompt_tokens", JInt (w_system_prompt_tokens w));
   ("max_input_tokens", JInt (w_max_input_tokens w)); ("max_context_tokens", JInt (w_max_context_tokens w));
   ("output_reserve_tokens", JInt (w_output_reserve_tokens w));
   ("compression_threshold", JInt (w_compression_threshold w)); ("compression_count", JInt (w_compression_count w));
   ("compression_summary", ostr (w_compression_summary w))].

Definition session_ready_message (session_id workspace provider model : string) (resumed : bool) (message_count : Z)
    (permission_preset : string) : dict :=
  [("type", JStr "session_ready"); ("protocol_version", JInt PROTOCOL_VERSION); ("session_id", JStr session_id);
   ("workspace", JStr workspace); ("provider", JStr provider); ("model", JStr model); ("resumed", JBool resumed);
   ("message_count", JInt message_count); ("permission_preset", JStr permission_preset)].

Definition session_open_failed_message (session_id : json) (e : exn) : dict :=
  [("type", JStr "session_open_failed"); ("session_id", session_id);
   ("error", JObj [("type", JStr (class_name (exn_class e))); ("message", JStr (exn_msg e))])].

(** The arguments of [runtime_state_message] that have a default are options. *)
Record RuntimeFields := MkFields {
  rf_phase : string;
  rf_turn_id : option string;
  rf_approval : option dict;
  rf_question : option dict;
  rf_provider : option string;
  rf_permission_preset : option string;
  rf_context_window : option ContextWindow;
  rf_cache_usage : json;
  rf_jobs : list json;
  rf_event_sequence : option Z;
  rf_runtime_warnings : list string;
  rf_plan : json;
  rf_workspace : option string;
}.

Definition odict (o : option dict) : json := match o with Some d => JObj d | None => JNull end.

Definition runtime_state_message (f : RuntimeFields) : dict :=
  [("type", JStr "runtime_state"); ("phase", JStr (rf_phase f)); ("turn_id", ostr (rf_turn_id f));
   ("approval", odict (rf_approval f)); ("question", odict (rf_question f)); ("provider", ostr (rf_provider f));
   ("permission_preset", JStr (default "ask_for_approval" (rf_permission_preset f)));
   ("context_window", odict (context_window_fields <$> rf_context_window f));
   ("cache_usage", rf_cache_usage f); ("jobs", JArr (rf_jobs f));
   ("runtime_warnings", JArr (map JStr (rf_runtime_warnings f))); ("plan", rf_plan f)]
  ++ match rf_event_sequence f with Some n => [("event_sequence", JInt n)] | None => [] end
  ++ match rf_workspace f with Some w => [("workspace", JStr w)] | None => [] end.

Definition inactive_runtime_state (provider workspace : option string) (cache_usage : json) (event_sequence : option Z) : dict :=
  runtime_state_message (MkFields "inactive" None None None provider None None cache_usage [] event_sequence [] JNull workspace).

Definition plan_updated_message (plan : PlanSnapshot) : dict :=
  [("type", JStr "plan_updated"); ("plan", plan_snapshot_to_dict plan)].

Definition attachment_replaced_message (phase : json) : dict := [("type", JStr "attachment_replaced"); ("phase", phase)].

Definition user_turn_received_message (turn_id : string) : dict :=
  [("type", JStr "user_turn_received"); ("turn_id", JStr turn_id)].

Definition sessions_listed_message (sessions : list json) : dict := [("type", JStr "sessions_listed"); ("sessions", JArr sessions)].
Definition workspaces_listed_message (workspaces : list string) : dict :=
  [("type", JStr "workspaces_listed"); ("workspaces", JArr (map JStr workspaces))].
Definition session_items_message (items : list json) : dict := [("type", JStr "session_items"); ("items", JArr items)].

Definition with_request_id (request_id : option string) (m : dict) : dict :=
  match request_id with Some r => m ++ [("request_id", JStr r)] | None => m end.

Definition settings_snapshot_message (snapshot : json) (request_id : option string) : dict :=
  with_request_id request_id [("type", JStr "settings_snapshot"); ("settings", snapshot)].

Definition settings_update_failed_message (e : exn) (request_id : option string) : dict :=
  with_request_id request_id
    [("type", JStr "settings_update_failed");
     ("error", JObj [("type", JStr (class_name (exn_class e))); ("message", JStr (exn_msg e))])].

(** ** Events of the agent

    Besides the events of the agent loop, the callbacks publish the results of
    hooks (hooks.py) and the status of jobs. *)

Record HookCompleted := MkHookCompleted {
  hc_session_id : string;
  hc_invocation_id : string;
  hc_hook_id : string;
  hc_event : string;
  hc_status : string;
  hc_decision : option string;
  hc_reason : option string;
  hc_duration_ms : Z;
  hc_tool_call_id : option string;
}.

Inductive PublicEvent :=
| FromAgent (e : AgentEvent)
| HookCompletedEvent (e : HookCompleted)
| JobStatusEvent (job_id kind status : string) (details : dict).

Definition attachment_json (p : ContentPart) : json :=
  match p with
  | ImagePart path mime filename size =>
      JObj [("type", JStr "image"); ("path", JStr path); ("mime_type", JStr mime); ("filename", JStr filename); ("size_bytes", JInt size)]
  | FilePart path filename mime size =>
      JObj [("type", JStr "file"); ("path", JStr path); ("mime_type", JStr mime); ("filename", JStr filename); ("size_bytes", JInt size)]
  | TextPart _ => JNull
  end.

Definition event_to_message (event : PublicEvent) (turn_id : string) : res dict :=
  let message (ty : string) (fields : dict) : res dict := Ok (("type", JStr ty) :: ("turn_id", JStr turn_id) :: fields) in
  match event with
  | HookCompletedEvent e =>
      message "hook_completed"
        [("session_id", JStr (hc_session_id e)); ("invocation_id", JStr (hc_invocation_id e)); ("hook_id", JStr (hc_hook_id e));
         ("event", JStr (hc_event e)); ("status", JStr (hc_status e)); ("decision", ostr (hc_decision e));
         ("reason", ostr (hc_reason e)); ("duration_ms", JInt (hc_duration_ms e)); ("tool_call_id", ostr (hc_tool_call_id e))]
  | FromAgent (AssistantMessageDeltaEvent text index) =>
      message "assistant_delta" [("text", JStr text); ("model_call_index", JInt index)]
  | FromAgent (ReasoningDeltaEvent text index) =>
      message "reasoning_delta" [("text", JStr text); ("model_call_index", JInt index)]
  | FromAgent (CompressionCompletedEvent cache) =>
      message "compression_completed" [("cache_usage", cache_usage_to_dict cache)]
  | FromAgent (ModelCompletedEvent index usage cache) =>
      message "model_completed"
        [("model_call_index", JInt index); ("usage", usage_to_dict usage); ("cache_usage", cache_usage_to_dict cache)]
  | FromAgent (ContextWindowEvent w) => message "context_window" (context_window_fields w)
  | FromAgent (AssistantMessageEvent content t index) =>
      message "assistant_message"
        [("content", JStr content); ("timestamp_utc", JStr (format_timestamp t)); ("model_call_index", JInt index)]
  | FromAgent (ToolBatchStartedEvent index calls) =>
      message "tool_batch_started" [("model_call_index", JInt index); ("tool_calls", JArr (map ToolCall_to_dict calls))]
  | FromAgent (ToolCallEvent call i n) =>
      message "tool_call" [("tool_call", ToolCall_to_dict call); ("tool_index", JInt i); ("tool_count", JInt n)]
  | FromAgent (ToolResultEvent result i n) =>
      message "tool_result"
        [("tool_call_id", JStr (tr_tool_call_id result)); ("name", JStr (tr_name result));
         ("ok", JBool (match tr_error result with None => true | Some _ => false end));
         ("error", match tr_error result with None => JNull | Some e => JObj (ToolError_to_dict e) end);
         ("tool_index", JInt i); ("tool_count", JInt n)]
  | FromAgent (ToolMediaEvent attachments present) =>
      message "tool_media" [("present_to_user", JBool present); ("attachments", JArr (map attachment_json attachments))]
  | FromAgent (UserSteerAppliedEvent steer_id text t) =>
      message "user_steer_applied"
        [("steer_id", JStr steer_id); ("text", JStr text); ("timestamp_utc", JStr (format_timestamp t))]
  | JobStatusEvent job_id kind status details =>
      message "job_status" [("job_id", JStr job_id); ("kind", JStr kind); ("status", JStr status); ("details", JObj details)]
  | FromAgent (UnitCompletedEvent _ _) => raise ETypeError "unsupported agent event: UnitCompletedEvent"
  end.

(** ** event_stream.py *)

Definition runtime_is_active (phase : string) : bool :=
  str_in ["starting"; "running"; "waiting_approval"; "waiting_user"] phase.

(** [EventStream.publish]; the state is [self.sequence]. *)
Definition publish (message : dict) (state : option dict) (items : option (list json)) : M Z dict := fun sequence =>
  let n := sequence + 1 in
  (n, ty <~ jindex "type" message ;;
      let result := dset "resume_after" (JInt (if is_type ["fatal"; "session_open_failed"] ty then n - 1 else n))
                      (dset "event_sequence" (JInt n) message) in
      let result := match state with
                    | Some st => if is_type ["runtime_state"] ty then result else dset "runtime" (JObj st) result
                    | None => result
                    end in
      Ok (match items with
          | Some l => dset "transcript" (JObj [("items", JArr l); ("event_sequence", JInt n)]) result
          | None => result
          end)).
