(* ===== verification/SessionHost.v ===== *)
(** * Sessions of a front end

    interfaces/session_host.py: an [ActiveSession] reads the events of one channel
    of the bridge, keeps the latest ones and passes them on to the client that is
    attached; the registry owns the sessions.

    asyncio runs one task at a time and switches at an [await] that has to wait.
    The locks are held across no such [await] in [ActiveSession], so a block under
    the lock is one step.  A queue holds what was ever put into it: the client
    reads it from the front. *)

From stdpp Require Import base list strings.
From Stdlib Require Import ZArith Lia.
From S2P Require Import Prelude PyData PyStr Json PyText Protocol.

Definition EVENT_REPLAY_LIMIT : nat := 512.

(** [deque(maxlen=EVENT_REPLAY_LIMIT).append] *)
Definition deque_append {A} (x : A) (l : list A) : list A := drop (S (length l) - EVENT_REPLAY_LIMIT) (l ++ [x]).

(** ** ActiveSession

    A queue and the event that tells that it was detached are created together:
    both are the index of a [Subscription]. *)

Record Subscription := MkSub { sub_queue : list (option dict); sub_detached : bool }.

Record ActiveSession := MkActive {
  as_state : dict;
  as_transcript : json;
  as_pending_turn : option string;
  as_pending_refresh : bool;
  as_snapshot_ready : bool;
  as_resume_after : Z;
  as_done : bool;
  as_closed : bool;
  as_failure_pending : bool;
  as_attachment_id : option string;
  as_subscriber : option nat;
  as_subscriber_detached : option nat;
  as_events : list dict;
  as_event_sequence : Z;
  as_subscriptions : list Subscription;
}.

Definition new_session (provider : option string) (workspace : string) (items : list json) : ActiveSession :=
  MkActive (inactive_runtime_state provider (Some workspace) JNull None) (JObj [("items", JArr items); ("event_sequence", JInt 0)])
    None false false 0 false false false None None None [] 0 [].

Definition set_flow (pending_turn : option string) (pending_refresh ready : bool) (a : ActiveSession) : ActiveSession :=
  MkActive (as_state a) (as_transcript a) pending_turn pending_refresh ready (as_resume_after a) (as_done a) (as_closed a)
    (as_failure_pending a) (as_attachment_id a) (as_subscriber a) (as_subscriber_detached a) (as_events a)
    (as_event_sequence a) (as_subscriptions a).
Definition set_life (done closed failure : bool) (a : ActiveSession) : ActiveSession :=
  MkActive (as_state a) (as_transcript a) (as_pending_turn a) (as_pending_refresh a) (as_snapshot_ready a) (as_resume_after a)
    done closed failure (as_attachment_id a) (as_subscriber a) (as_subscriber_detached a) (as_events a)
    (as_event_sequence a) (as_subscriptions a).
Definition set_view (state : dict) (transcript : json) (a : ActiveSession) : ActiveSession :=
  MkActive state transcript (as_pending_turn a) (as_pending_refresh a) (as_snapshot_ready a) (as_resume_after a)
    (as_done a) (as_closed a) (as_failure_pending a) (as_attachment_id a) (as_subscriber a) (as_subscriber_detached a)
    (as_events a) (as_event_sequence a) (as_subscriptions a).
Definition set_cursor (sequence resume_after : Z) (events : list dict) (a : ActiveSession) : ActiveSession :=
  MkActive (as_state a) (as_transcript a) (as_pending_turn a) (as_pending_refresh a) (as_snapshot_ready a) resume_after
    (as_done a) (as_closed a) (as_failure_pending a) (as_attachment_id a) (as_subscriber a) (as_subscriber_detached a)
    events sequence (as_subscriptions a).
Definition set_attachment (id : option string) (subscriber detached : option nat) (subs : list Subscription)
    (a : ActiveSession) : ActiveSession :=
  MkActive (as_state a) (as_transcript a) (as_pending_turn a) (as_pending_refresh a) (as_snapshot_ready a) (as_resume_after a)
    (as_done a) (as_closed a) (as_failure_pending a) id subscriber detached (as_events a) (as_event_sequence a) subs.

Definition put_nowait (x : option dict) (q : nat) (subs : list Subscription) : list Subscription :=
  alter (fun s => MkSub (sub_queue s ++ [x]) (sub_detached s)) q subs.

(** [if self._subscriber is not None: self._subscriber.put_nowait(x)] *)
Definition put_subscriber (x : option dict) (a : ActiveSession) : ActiveSession :=
  match as_subscriber a with
  | Some q => set_attachment (as_attachment_id a) (as_subscriber a) (as_subscriber_detached a) (put_nowait x q (as_subscriptions a)) a
  | None => a
  end.

Definition event_seq (m : dict) : Z := match jget "event_sequence" m with JInt z => z | _ => 0 end.

(** The block of [attach] under the lock: the attachment is refused ([None]), made
    (queue, events to replay, state), or has to wait until the subscriber has
    detached. *)
Inductive AttachOutcome :=
| Refused
| Attached (queue : nat) (events : list dict) (state : dict)
| Waits (detached : option nat).

Definition attach_locked (after_event : Z) (attachment_id : string) (takeover claimed : bool) : M ActiveSession AttachOutcome :=
  a <- get ;;
  let replacing := match as_attachment_id a with Some id => negb (String.eqb id attachment_id) | None => false end in
  let subscribed := match as_subscriber a with Some _ => true | None => false end in
  if replacing && (claimed || (negb takeover && subscribed)) then ret Refused else
  modify (set_attachment (Some attachment_id) (as_subscriber a) (as_subscriber_detached a) (as_subscriptions a)) ;;;
  match as_subscriber a with
  | None =>
      let queue := length (as_subscriptions a) in
      let first := if as_done a then [None] else [] in
      modify (set_attachment (Some attachment_id) (Some queue) (Some queue) (as_subscriptions a ++ [MkSub first false])) ;;;
      ret (Attached queue (List.filter (fun e => after_event <? event_seq e) (as_events a))
             (dset "event_sequence" (JInt (as_resume_after a)) (as_state a)))
  | Some previous =>
      (if replacing
       then phase <- lift (jindex "phase" (as_state a)) ;; modify (put_subscriber (Some (attachment_replaced_message phase)))
       else ret tt) ;;;
      modify (put_subscriber None) ;;;
      ret (Waits (as_subscriber_detached a))
  end.

Definition detach (queue : nat) (a : ActiveSession) : ActiveSession :=
  if bool_decide (as_subscriber a = Some queue) then
    match as_subscriber_detached a with
    | Some e => set_attachment (as_attachment_id a) None None
                  (alter (fun s => MkSub (sub_queue s) true) e (as_subscriptions a)) a
    | None => set_attachment (as_attachment_id a) None None (as_subscriptions a) a
    end
  else a.

(** [bridge_send] is the outcome of handing the message to the bridge. *)
Definition session_send `{FloatText} (message : dict) (bridge_send : res unit) : M ActiveSession unit :=
  (match get_str "type" message with
   | Some ty =>
       if String.eqb ty "user_turn"
       then turn_id <- lift (jindex "turn_id" message) ;;
            modify (fun a => set_flow (Some (py_str turn_id)) (as_pending_refresh a) false a)
       else if String.eqb ty "runtime_refresh"
       then modify (fun a => set_flow (as_pending_turn a) true false a)
       else ret tt
   | None => ret tt
   end) ;;;
  lift bridge_send.

Definition owns_attachment (id : string) (a : ActiveSession) : bool := bool_decide (as_attachment_id a = Some id).
Definition attachable (a : ActiveSession) : bool := negb (as_done a) || as_failure_pending a.

Definition phase_active (a : ActiveSession) : res bool :=
  phase <~ jindex "phase" (as_state a) ;;
  match phase with JStr p => Ok (runtime_is_active p) | _ => Ok false end.

Definition running (a : ActiveSession) : res bool :=
  if as_done a then Ok false else
  match as_pending_turn a with
  | Some _ => Ok true
  | None => if as_pending_refresh a then Ok true else phase_active a
  end.

Definition mark_failure_delivered (a : ActiveSession) : ActiveSession := set_life (as_done a) (as_closed a) false a.

(** ** _read_bridge *)

Definition failed_state (state : dict) : dict :=
  dset "jobs" (JArr []) (dset "question" JNull (dset "approval" JNull (dset "turn_id" JNull (dset "phase" (JStr "failed") state)))).

Definition state_fields (state : dict) : dict :=
  List.filter (fun kv => negb (str_in ["event_sequence"; "resume_after"; "transcript"] (fst kv))) state.

Definition FAILURES : list string := ["fatal"; "session_open_failed"].

(** [self.state] and what follows from it for a turn that was sent. *)
Definition receive_state (state : dict) : M ActiveSession unit :=
  modify (fun a => set_view (state_fields state) (as_transcript a) a) ;;;
  a <- get ;;
  reached <- match as_pending_turn a with
             | None => ret true
             | Some t => turn_id <- lift (jindex "turn_id" (as_state a)) ;; ret (bool_decide (turn_id = JStr t))
             end ;;
  if reached then modify (fun a => set_flow None (as_pending_refresh a) true a) else ret tt.

(** What the transcript and the type of a message change. *)
Definition note_message (ty : json) (message : dict) (a : ActiveSession) : ActiveSession :=
  let a := match dget "transcript" message with Some t => set_view (as_state a) t a | None => a end in
  let a := if is_type (["turn_completed"; "turn_cancelled"; "turn_failed"] ++ FAILURES) ty
           then set_flow None (as_pending_refresh a) true a else a in
  let a := if is_type (["runtime_refreshed"; "runtime_refresh_failed"] ++ FAILURES) ty
           then set_flow (as_pending_turn a) false (as_snapshot_ready a) a else a in
  if is_type FAILURES ty then set_life (as_done a) (as_closed a) true a else a.

(** The block of [_read_bridge] for one message; [true]: the loop ends. *)
Definition receive (message : dict) : M ActiveSession bool :=
  sequence <- lift (x <~ jindex "event_sequence" message ;; typed_int x) ;;
  modify (fun a => set_cursor sequence (as_resume_after a) (as_events a) a) ;;;
  resume_after <- lift (x <~ jindex "resume_after" message ;; typed_int x) ;;
  modify (fun a => set_cursor (as_event_sequence a) resume_after (as_events a) a) ;;;
  ty <- lift (jindex "type" message) ;;
  given <- lift (if is_type ["runtime_state"] ty then Ok (Some message)
                 else match jget "runtime" message with JNull => Ok None | x => d <~ typed_obj x ;; Ok (Some d) end) ;;
  a <- get ;;
  let synthetic := match given with None => is_type ["fatal"] ty | Some _ => false end in
  let state := if synthetic then Some (failed_state (as_state a)) else given in
  let message := if synthetic then dset "runtime" (JObj (failed_state (as_state a))) message else message in
  match state with Some st => receive_state st | None => ret tt end ;;;
  modify (note_message ty message) ;;;
  modify (fun a => put_subscriber (Some message)
                     (set_cursor (as_event_sequence a) (as_resume_after a) (deque_append message (as_events a)) a)) ;;;
  ret (is_type FAILURES ty).

(** ** The tasks of a session

    [Reading]: the reader waits for the channel; [Closing]: it closes the channel in
    its [finally] block. *)
Inductive ReaderPc := Reading | Closing | Ended.

(** A call of [attach]: before the lock (has it seen the snapshot event, has it
    claimed the attachment), waiting for the previous subscriber, returned. *)
Inductive AttachPc :=
| AtTop (seen claimed : bool)
| AtDetached (e : option nat)
| Returned (r : res (option (nat * list dict * dict))).

Record Client := MkClient { cl_after : Z; cl_id : string; cl_takeover : bool; cl_pc : AttachPc }.

Record HostState := MkHost {
  hs_session : ActiveSession;
  hs_reader : ReaderPc;
  hs_incoming : list (option dict);
  hs_clients : list Client;
}.

Definition on_session (f : ActiveSession -> ActiveSession) (h : HostState) : HostState :=
  MkHost (f (hs_session h)) (hs_reader h) (hs_incoming h) (hs_clients h).
Definition set_pc (i : nat) (pc : AttachPc) (h : HostState) : HostState :=
  MkHost (hs_session h) (hs_reader h) (hs_incoming h)
    (alter (fun c => MkClient (cl_after c) (cl_id c) (cl_takeover c) pc) i (hs_clients h)).

(** The [finally] block of [_read_bridge], up to [await self.bridge.close()]. *)
Definition reader_finally (h : HostState) : HostState :=
  let a := hs_session h in
  let unexpected_exit := negb (as_closed a) in
  let a1 := set_flow (as_pending_turn a) (as_pending_refresh a) true (set_life true true (as_failure_pending a) a) in
  if unexpected_exit then MkHost a1 Closing (hs_incoming h) (hs_clients h)
  else MkHost (put_subscriber None a1) Ended (hs_incoming h) (hs_clients h).

(** One iteration of the loop of [_read_bridge]. *)
Definition reader_step (h : HostState) : HostState :=
  match hs_reader h, hs_incoming h with
  | Reading, None :: rest => reader_finally (MkHost (hs_session h) Reading rest (hs_clients h))
  | Reading, Some message :: rest =>
      match receive message (hs_session h) with
      | (a, Ok false) => MkHost a Reading rest (hs_clients h)
      | (a, _) => reader_finally (MkHost a Reading rest (hs_clients h))
      end
  | _, _ => h
  end.

(** [await self.bridge.close()] in the reader has returned or raised. *)
Definition reader_closed (bridge_close : res unit) (h : HostState) : HostState :=
  match hs_reader h with
  | Closing => MkHost (match bridge_close with Ok _ => put_subscriber None (hs_session h) | Err _ => hs_session h end)
                 Ended (hs_incoming h) (hs_clients h)
  | _ => h
  end.

(** [close] up to [await self.bridge.close()], and the rest of it: a reader that
    waits for the channel is cancelled and goes through its [finally] block, one
    that closes the channel just ends. *)
Definition close_begin (h : HostState) : HostState :=
  on_session (fun a => if as_closed a then a else set_life true true (as_failure_pending a) a) h.
Definition close_rest (h : HostState) : HostState :=
  if as_closed (hs_session h) then
    let h1 := match hs_reader h with
              | Reading => reader_finally h
              | Closing => MkHost (hs_session h) Ended (hs_incoming h) (hs_clients h)
              | Ended => h
              end in
    on_session (put_subscriber None) h1
  else h.

(** [attach] runs through its lock. *)
Definition attach_step (i : nat) (h : HostState) : HostState :=
  match hs_clients h !! i with
  | Some (MkClient after id takeover (AtTop true claimed)) =>
      match attach_locked after id takeover claimed (hs_session h) with
      | (a, Ok Refused) => set_pc i (Returned (Ok None)) (on_session (fun _ => a) h)
      | (a, Ok (Attached q events state)) => set_pc i (Returned (Ok (Some (q, events, state)))) (on_session (fun _ => a) h)
      | (a, Ok (Waits e)) => set_pc i (AtDetached e) (on_session (fun _ => a) h)
      | (a, Err e) => set_pc i (Returned (Err e)) (on_session (fun _ => a) h)
      end
  | _ => h
  end.

(** [await self._snapshot_ready.wait()] has seen the event set. *)
Definition snapshot_seen (i : nat) (h : HostState) : HostState :=
  match hs_clients h !! i with
  | Some (MkClient _ _ _ (AtTop false claimed)) =>
      if as_snapshot_ready (hs_session h) then set_pc i (AtTop true claimed) h else h
  | _ => h
  end.

(** [await detached.wait()] has returned: [attach] starts over. *)
Definition detached_seen (i : nat) (h : HostState) : HostState :=
  match hs_clients h !! i with
  | Some (MkClient _ _ _ (AtDetached (Some e))) =>
      match as_subscriptions (hs_session h) !! e with
      | Some s => if sub_detached s then set_pc i (AtTop false true) h else h
      | None => h
      end
  | Some (MkClient _ _ _ (AtDetached None)) => set_pc i (AtTop false true) h
  | _ => h
  end.

Definition client_detach (i : nat) (h : HostState) : HostState :=
  match hs_clients h !! i with
  | Some (MkClient _ _ _ (Returned (Ok (Some (q, _, _))))) => on_session (detach q) h
  | _ => h
  end.

Inductive HostOp :=
| HAttach (after : Z) (id : string) (takeover : bool)
| HSnapshotSeen (i : nat)
| HAttachStep (i : nat)
| HDetachedSeen (i : nat)
| HDetach (i : nat)
| HSend (message : dict) (bridge_send : res unit)
| HRead
| HReaderClosed (bridge_close : res unit)
| HFailureDelivered
| HCloseBegin
| HCloseRest.

Definition host_step `{FloatText} (op : HostOp) (h : HostState) : HostState :=
  match op with
  | HAttach after id takeover =>
      MkHost (hs_session h) (hs_reader h) (hs_incoming h) (hs_clients h ++ [MkClient after id takeover (AtTop false false)])
  | HSnapshotSeen i => snapshot_seen i h
  | HAttachStep i => attach_step i h
  | HDetachedSeen i => detached_seen i h
  | HDetach i => client_detach i h
  | HSend message bridge_send => on_session (fun a => fst (session_send message bridge_send a)) h
  | HRead => reader_step h
  | HReaderClosed r => reader_closed r h
  | HFailureDelivered => on_session mark_failure_delivered h
  | HCloseBegin => close_begin h
  | HCloseRest => close_rest h
  end.

Definition new_host (provider : option string) (workspace : string) (items : list json) (incoming : list (option dict)) : HostState :=
  MkHost (new_session provider workspace items) Reading incoming [].

(** ** ActiveSessionRegistry

    The sessions are objects; [rg_closing] are the tasks that close one, and
    [rg_closing_all] the sessions that [close_all] has taken. *)

Record Registry := MkRegistry {
  rg_objects : list (string * HostState);
  rg_sessions : list (string * nat);
  rg_closing : list (string * nat);
  rg_closing_all : list nat;
}.

Definition new_registry : Registry := MkRegistry [] [] [] [].

Definition object (k : nat) (r : Registry) : option ActiveSession := hs_session ∘ snd <$> rg_objects r !! k.
Definition set_sessions (l : list (string * nat)) (r : Registry) : Registry :=
  MkRegistry (rg_objects r) l (rg_closing r) (rg_closing_all r).

(** What the other parts answer while a session is opened: the start of the bridge,
    the stored items and plan, the channel (what it will deliver) and the sending of
    the opening message. *)
Record OpenAnswers := MkAnswers {
  oa_start : res unit;
  oa_load : res (list json * json);
  oa_channel : res (list (option dict));
  oa_send : res unit;
}.

(** [None]: a task closes the session, the caller waits for it and tries again. *)
Definition open_or_attach (opening : dict) (session_id workspace : string) (attach_only : bool) (answers : OpenAnswers) :
    M Registry (option (option nat * bool)) :=
  r <- get ;;
  if dhas session_id (rg_closing r) then ret None else
  let current := dget session_id (rg_sessions r) in
  let usable := match current with
                | Some k => match object k r with
                            | Some a => as_done a && as_failure_pending a || negb (as_done a)
                            | None => false
                            end
                | None => false
                end in
  if usable then ret (Some (current, false)) else
  modify (fun r => match current with Some _ => set_sessions (dpop session_id (rg_sessions r)) r | None => r end) ;;;
  if attach_only then ret (Some (None, false)) else
  lift (oa_start answers) ;;;
  stored <- lift (oa_load answers) ;;
  incoming <- lift (oa_channel answers) ;;
  let h := new_host (get_str "provider" opening) workspace (fst stored) incoming in
  let h := on_session (fun a => set_view (dset "plan" (snd stored) (as_state a)) (as_transcript a) a) h in
  r <- get ;;
  let k := length (rg_objects r) in
  modify (fun r => MkRegistry (rg_objects r ++ [(session_id, h)]) (dset session_id k (rg_sessions r)) (rg_closing r) (rg_closing_all r)) ;;;
  lift (oa_send answers) ;;;
  ret (Some (Some k, true)).

(** [release_idle] up to its wait for the closing task. *)
Definition release_idle (session_id : string) (provider attachment_id : option string) : M Registry bool :=
  r <- get ;;
  match dget session_id (rg_sessions r) with
  | None => ret false
  | Some k =>
      match object k r with
      | None => ret false
      | Some a =>
          other <- match provider with
                   | Some p => current <- lift (jindex "provider" (as_state a)) ;; ret (negb (bool_decide (current = JStr p)))
                   | None => ret false
                   end ;;
          if other then ret false else
          if match attachment_id with Some id => negb (owns_attachment id a) | None => false end then ret false else
          busy <- lift (running a) ;;
          if busy then fail (Exn ESessionRunning "session is running") else
          modify (fun r => MkRegistry (rg_objects r) (dpop session_id (rg_sessions r)) (dset session_id k (rg_closing r)) (rg_closing_all r)) ;;;
          ret true
      end
  end.

(** The closing task has ended: [close] has at least marked the session. *)
Definition closing_done (session_id : string) (r : Registry) : Registry :=
  match dget session_id (rg_closing r) with
  | Some k => match object k r with
              | Some a => if as_done a then MkRegistry (rg_objects r) (rg_sessions r) (dpop session_id (rg_closing r)) (rg_closing_all r) else r
              | None => r
              end
  | None => r
  end.

Definition remove_if_finished (k : nat) (r : Registry) : Registry :=
  match rg_objects r !! k with
  | Some (session_id, h) =>
      if attachable (hs_session h) then r else
      if bool_decide (dget session_id (rg_sessions r) = Some k) then set_sessions (dpop session_id (rg_sessions r)) r else r
  | None => r
  end.

(** [close_all], up to its waits. *)
Definition close_all (r : Registry) : Registry :=
  MkRegistry (rg_objects r) [] (rg_closing r) (rg_closing_all r ++ dvalues (rg_sessions r)).

Inductive RegistryOp :=
| ROpen (opening : dict) (session_id workspace : string) (attach_only : bool) (answers : OpenAnswers)
| RRelease (session_id : string) (provider attachment_id : option string)
| RClosingDone (session_id : string)
| RRemove (k : nat)
| RCloseAll
| RSession (k : nat) (op : HostOp).

Definition registry_step `{FloatText} (op : RegistryOp) (r : Registry) : Registry :=
  match op with
  | ROpen opening id workspace attach_only answers => fst (open_or_attach opening id workspace attach_only answers r)
  | RRelease id provider attachment_id => fst (release_idle id provider attachment_id r)
  | RClosingDone id => closing_done id r
  | RRemove k => remove_if_finished k r
  | RCloseAll => close_all r
  | RSession k op => MkRegistry (alter (fun o => (fst o, host_step op (snd o))) k (rg_objects r)) (rg_sessions r) (rg_closing r) (rg_closing_all r)
  end.
