(* ===== verification/SessionHostThms.v ===== *)
(** * What a client of a session sees

    The events of a session are numbered by the bridge ([Protocol.publish]); a
    client that attaches gets the latest ones behind the number it has and then
    every event as it arrives, until its queue is ended. *)

From stdpp Require Import base list strings list_numbers.
From Stdlib Require Import ZArith Lia.
From S2P Require Import Prelude PyData PyStr Json PyText Protocol SessionHost.

(** What the client takes out of its queue before the end mark: the events, without
    the notice that another client has taken over. *)
Fixpoint seen (q : list (option dict)) : list dict :=
  match q with
  | Some m :: q' => (if dhas "event_sequence" m then [m] else []) ++ seen q'
  | _ => []
  end.
Definition ended (q : list (option dict)) : bool := existsb (fun x => match x with None => true | Some _ => false end) q.

(** The number of events that have been dropped from the replay. *)
Definition dropped (n : Z) : Z := Z.max 0 (n - 512).

Definition numbered_from (n : Z) (l : list dict) : Prop := map event_seq l = seqZ (n + 1) (Z.of_nat (length l)).

Lemma seen_app_end q x : ended q = true -> seen (q ++ [x]) = seen q /\ ended (q ++ [x]) = true.
Proof.
  intros H. split.
  - induction q as [|[m|] q IH]; simpl in *; [done| |done]. by rewrite IH.
  - unfold ended in *. by rewrite existsb_app, H.
Qed.

Lemma seen_app_open q x : ended q = false -> seen (q ++ [x]) = seen q ++ seen [x].
Proof. induction q as [|[m|] q IH]; simpl; [done| |done]. intros H. rewrite <- app_assoc. by rewrite IH. Qed.

Lemma ended_app q x : ended (q ++ [x]) = ended q || match x with None => true | Some _ => false end.
Proof. unfold ended. rewrite existsb_app. simpl. by rewrite orb_false_r. Qed.

Lemma seen_app_silent q x : seen [x] = [] -> seen (q ++ [x]) = seen q.
Proof.
  intros Hx. destruct (ended q) eqn:E; [by apply seen_app_end|]. by rewrite seen_app_open, Hx, app_nil_r by done.
Qed.

(** ** The numbers of the stream *)

Lemma jindex_jget k d v : jindex k d = Ok v -> jget k d = v.
Proof. unfold jindex, jget. destruct (dget k d); [by intros [= ->]|done]. Qed.

Lemma event_seq_dset k v m : k <> "event_sequence" -> event_seq (dset k v m) = event_seq m.
Proof. intros H. unfold event_seq, jget. by rewrite dget_dset_ne. Qed.

Lemma dhas_dset_ne {V} k k' (v : V) m : k <> k' -> dhas k' (dset k v m) = dhas k' m.
Proof. intros H. unfold dhas. by rewrite dget_dset_ne. Qed.

(** The events of a bridge, in the order in which it publishes them. *)
Fixpoint stream (n : Z) (raws : list (dict * option dict * option (list json))) : list dict :=
  match raws with
  | [] => []
  | (message, state, items) :: raws' =>
      match publish message state items n with
      | (n', Ok m) => m :: stream n' raws'
      | (n', Err _) => stream n' raws'
      end
  end.

Lemma stream_numbered raws : forall n, Forall (fun r => dhas "type" r.1.1 = true) raws -> numbered_from n (stream n raws).
Proof.
  induction raws as [|[[message state] items] raws IH]; intros n Hf; [done|].
  apply Forall_cons in Hf as [Hty Hf]. simpl. unfold publish, jindex. unfold dhas in Hty. simpl in Hty.
  destruct (dget "type" message) as [ty|]; [|done]. simpl. unfold numbered_from in *. simpl.
  rewrite (IH (n + 1) Hf). rewrite Nat2Z.inj_succ, <- Z.add_1_r.
  rewrite (seqZ_cons (n + 1)) by lia. replace (Z.pred (Z.of_nat _ + 1)) with (Z.of_nat (length (stream (n + 1) raws))) by lia. f_equal.
  destruct items; rewrite ?event_seq_dset by done.
  all: destruct state; [destruct (is_type ["runtime_state"] ty)|]; rewrite ?event_seq_dset by done.
  all: unfold event_seq, jget; by rewrite dget_dset_eq.
Qed.

(** ** What an operation does to the events and the queues *)

Definition core (a : ActiveSession) : list dict * list Subscription * option nat * option nat * Z :=
  (as_events a, as_subscriptions a, as_subscriber a, as_subscriber_detached a, as_event_sequence a).

(** An event [m] has arrived. *)
Definition arrived (m : dict) (a a' : ActiveSession) : Prop :=
  as_events a' = deque_append m (as_events a) /\ as_event_sequence a' = event_seq m /\
  as_subscriber a' = as_subscriber a /\ as_subscriber_detached a' = as_subscriber_detached a /\
  as_subscriptions a' = match as_subscriber a with
                        | Some q => put_nowait (Some m) q (as_subscriptions a)
                        | None => as_subscriptions a
                        end.

(** What stays of the queues when an event is refused. *)
Definition kept (a a' : ActiveSession) : Prop :=
  as_events a' = as_events a /\ as_subscriptions a' = as_subscriptions a /\ as_subscriber a' = as_subscriber a /\
  as_subscriber_detached a' = as_subscriber_detached a.

Lemma core_kept a a' : core a' = core a -> kept a a'.
Proof. intros [= H1 H2 H3 H4 H5]. by split_and!. Qed.

Lemma receive_state_core st a : core (fst (receive_state st a)) = core a.
Proof.
  unfold receive_state, bind, modify, get, ret, lift. simpl. destruct (as_pending_turn a); simpl; [|done].
  destruct (jindex "turn_id" (state_fields st)) as [j|]; simpl; [|done]. by case_bool_decide.
Qed.

Lemma typed_seq m z : (x <~ jindex "event_sequence" m ;; typed_int x) = Ok z -> event_seq m = z /\ dhas "event_sequence" m = true.
Proof. unfold jindex, event_seq, jget, dhas. destruct (dget "event_sequence" m) as [[]|]; simpl; try done. by intros [= ->]. Qed.

Lemma note_message_core ty m a : core (note_message ty m a) = core a.
Proof.
  unfold note_message.
  by destruct (dget "transcript" m), (is_type (["turn_completed"; "turn_cancelled"; "turn_failed"] ++ FAILURES) ty),
    (is_type (["runtime_refreshed"; "runtime_refresh_failed"] ++ FAILURES) ty), (is_type FAILURES ty).
Qed.

Lemma maybe_state_core o a : core (fst (match o with Some st => receive_state st | None => ret tt end a)) = core a.
Proof. destruct o; [apply receive_state_core|done]. Qed.

Lemma receive_effect m a :
  match receive m a with
  | (a', Ok _) => exists m', arrived m' a a' /\ event_seq m' = event_seq m /\ dhas "event_sequence" m' = true
  | (a', Err _) => kept a a'
  end.
Proof.
  unfold receive, bind at 1, lift at 1.
  destruct (x <~ jindex "event_sequence" m ;; typed_int x) as [z|] eqn:Ez; [|by split_and!].
  apply typed_seq in Ez as [Hz Hk]. unfold bind at 1, modify at 1, bind at 1, lift at 1.
  destruct (x <~ jindex "resume_after" m ;; typed_int x) as [r|]; [|by split_and!].
  unfold bind at 1, modify at 1, bind at 1, lift at 1. destruct (jindex "type" m) as [ty|]; [|by split_and!].
  unfold bind at 1, lift at 1.
  destruct (if is_type ["runtime_state"] ty then Ok (Some m) else _) as [given|]; [|by split_and!].
  unfold bind at 1, get. cbv zeta. set (synthetic := match given with None => _ | Some _ => _ end).
  match goal with |- context [bind (match ?o with Some st => receive_state st | None => _ end) _ ?x] =>
    pose proof (maybe_state_core o x) as Hc; unfold bind at 1; destruct (match o with Some st => receive_state st | None => ret tt end x) as [a2 [[]|e]] end.
  all: cbn [fst] in Hc; injection Hc as H1 H2 H3 H4 H5.
  2: by split_and!.
  set (m' := if synthetic then _ else m) in *. exists m'.
  assert (Hm : event_seq m' = event_seq m /\ dhas "event_sequence" m' = true).
  { unfold m'. destruct synthetic; [|done]. by rewrite event_seq_dset, dhas_dset_ne by done. }
  split; [|done]. destruct Hm as [Hm _]. pose proof (note_message_core ty m' a2) as Hn. injection Hn as N1 N2 N3 N4 N5.
  unfold arrived, put_subscriber. simpl. rewrite N1, N2, N3, N4, N5, H3. destruct (as_subscriber a) eqn:Es; simpl.
  all: rewrite ?N1, ?N2, ?N3, ?N4, ?N5, ?H1, ?H2, ?H3, ?H4, ?H5, ?Es; split_and!; try done; by rewrite Hm, Hz.
Qed.

(** ** The invariant

    [n] events have arrived.  A client that attached when there were [n0] of them got
    the kept ones behind its own number, and up to [m] since then; all of them,
    while it is the subscriber and its queue is open. *)

Definition client_ok (n : Z) (a : ActiveSession) (c : Client) : Prop :=
  match cl_pc c with
  | Returned (Ok (Some (q, events, _))) =>
      exists s n0 m, as_subscriptions a !! q = Some s /\ 0 <= n0 <= m /\ m <= n /\
        map event_seq events = List.filter (fun k => cl_after c <? k) (seqZ (dropped n0 + 1) (n0 - dropped n0)) /\
        map event_seq (seen (sub_queue s)) = seqZ (n0 + 1) (m - n0) /\
        (as_subscriber a = Some q -> ended (sub_queue s) = false -> m = n)
  | _ => True
  end.

Record inv (n : Z) (h : HostState) : Prop := {
  inv_count : 0 <= n;
  inv_events : map event_seq (as_events (hs_session h)) = seqZ (dropped n + 1) (n - dropped n);
  inv_incoming : hs_reader h = Reading ->
    as_event_sequence (hs_session h) = n /\ numbered_from n (omap id (hs_incoming h));
  inv_subscriber : match as_subscriber (hs_session h) with Some q => (q < length (as_subscriptions (hs_session h)))%nat | None => True end;
  inv_clients : Forall (client_ok n (hs_session h)) (hs_clients h);
}.

(** How the queues may move on while the number of events goes from [n] to [n']. *)
Definition moved (n n' : Z) (a a' : ActiveSession) : Prop :=
  forall q s, as_subscriptions a !! q = Some s -> exists s', as_subscriptions a' !! q = Some s' /\
    (map event_seq (seen (sub_queue s')) = map event_seq (seen (sub_queue s)) /\
     (as_subscriber a' = Some q -> ended (sub_queue s') = false -> as_subscriber a = Some q /\ ended (sub_queue s) = false /\ n' = n)
     \/ as_subscriber a = Some q /\ ended (sub_queue s) = false /\ n' = n + 1 /\
        map event_seq (seen (sub_queue s')) = map event_seq (seen (sub_queue s)) ++ [n']).

Lemma client_ok_moved n n' a a' c : n <= n' -> moved n n' a a' -> client_ok n a c -> client_ok n' a' c.
Proof.
  intros Hn Hmv. unfold client_ok. destruct (cl_pc c) as [| |[[[[q events] st]|]|]]; try done.
  intros (s & n0 & m & Hs & Hm & Hmn & He & Hq & Hl). destruct (Hmv q s Hs) as (s' & Hs' & [[Hseen Hopen]|(Hsub & Hopen & -> & Hseen)]).
  - exists s', n0, m. split_and!; try done; try lia; [congruence|]. intros H1 H2. destruct (Hopen H1 H2) as (H3 & H4 & ->). auto.
  - specialize (Hl Hsub Hopen) as ->. exists s', n0, (n + 1). split_and!; try done; try lia.
    rewrite Hseen, Hq. replace (n + 1 - n0) with ((n - n0) + 1) by lia. rewrite seqZ_app by lia. f_equal.
    rewrite seqZ_cons, seqZ_nil by lia. f_equal. lia.
Qed.

Lemma moved_same n a a' : as_subscriptions a' = as_subscriptions a -> as_subscriber a' = as_subscriber a -> moved n n a a'.
Proof. intros H1 H2 q s Hs. exists s. rewrite H1, H2. split; [done|]. left. done. Qed.

(** A mark that is no event is put into the queue of the subscriber. *)
Lemma moved_silent n x a : seen [x] = [] -> moved n n a (put_subscriber x a).
Proof.
  intros Hx q s Hs. unfold put_subscriber. destruct (as_subscriber a) as [q'|] eqn:E; [|exists s; split; [done|]; left; split; [done|]; by rewrite E].
  simpl. unfold put_nowait. destruct (decide (q = q')) as [->|Hne].
  - rewrite list_lookup_alter_eq, Hs. eexists. split; [done|]. left. simpl. rewrite seen_app_silent by done. split; [done|].
    intros _. rewrite ended_app. by intros [? _]%orb_false_iff.
  - rewrite list_lookup_alter_ne by done. exists s. split; [done|]. left. split; [done|]. intros [= ->]. done.
Qed.

Lemma moved_arrived m a a' :
  arrived m a a' -> dhas "event_sequence" m = true -> event_seq m = as_event_sequence a + 1 ->
  moved (as_event_sequence a) (as_event_sequence a + 1) a a'.
Proof.
  intros (_ & _ & Hsub & _ & Hsubs) Hk Hm q s Hs. rewrite Hsubs. destruct (as_subscriber a) as [q'|] eqn:E.
  - unfold put_nowait. destruct (decide (q = q')) as [->|Hne].
    + rewrite list_lookup_alter_eq, Hs. eexists. split; [done|]. simpl. destruct (ended (sub_queue s)) eqn:Ee.
      * left. destruct (seen_app_end _ (Some m) Ee) as [-> Hend]. split; [done|]. by rewrite Hend.
      * right. rewrite seen_app_open by done. simpl. rewrite Hk, map_app. simpl. by rewrite Hm.
    + rewrite list_lookup_alter_ne by done. exists s. split; [done|]. left. split; [done|]. rewrite Hsub. intros [= ->]. done.
  - exists s. split; [done|]. left. split; [done|]. by rewrite Hsub.
Qed.

(** ** Every step keeps it *)

Lemma inv_on_session n h f :
  (let a := hs_session h in as_events (f a) = as_events a /\ as_event_sequence (f a) = as_event_sequence a /\
   (as_subscriber (f a) = as_subscriber a \/ as_subscriber (f a) = None) /\
   length (as_subscriptions (f a)) = length (as_subscriptions a) /\ moved n n a (f a)) ->
  inv n h -> inv n (on_session f h).
Proof.
  intros (H1 & H2 & H3 & H4 & H5) [I1 I2 I3 I4 I5]. split; simpl; try done.
  - by rewrite H1.
  - by rewrite H2.
  - rewrite H4. destruct H3 as [->| ->]; done.
  - eapply Forall_impl; [exact I5|]. intros c Hc. by apply (client_ok_moved n n (hs_session h)).
Qed.

Lemma inv_silent n h x : seen [x] = [] -> inv n h -> inv n (on_session (put_subscriber x) h).
Proof.
  intros Hx. apply inv_on_session. simpl. split_and!; [| | | |by apply moved_silent].
  all: unfold put_subscriber; destruct (as_subscriber (hs_session h)) eqn:E; simpl; auto.
  apply length_alter.
Qed.

Lemma inv_core n h f : (core (f (hs_session h)) = core (hs_session h)) -> inv n h -> inv n (on_session f h).
Proof.
  intros [= H1 H2 H3 H4 H5]. apply inv_on_session. simpl. rewrite H1, H2, H3, H5. split_and!; auto. by apply moved_same.
Qed.

Lemma inv_reader n h pc incoming : pc <> Reading -> inv n h -> inv n (MkHost (hs_session h) pc incoming (hs_clients h)).
Proof. intros Hpc [I1 I2 I3 I4 I5]. by split. Qed.

Lemma Forall_alter_all {A} (P : A -> Prop) f i l : (forall x, l !! i = Some x -> P x -> P (f x)) -> Forall P l -> Forall P (alter f i l).
Proof.
  intros Hf Hl. apply Forall_lookup. intros j x Hx. destruct (decide (i = j)) as [->|Hne].
  - rewrite list_lookup_alter_eq in Hx. destruct (l !! j) as [y|] eqn:E; [|done]. injection Hx as <-. apply Hf; [done|].
    by eapply Forall_lookup_1.
  - rewrite list_lookup_alter_ne in Hx by done. by eapply Forall_lookup_1.
Qed.

Lemma inv_set_pc n h i pc :
  (forall c, hs_clients h !! i = Some c -> client_ok n (hs_session h) (MkClient (cl_after c) (cl_id c) (cl_takeover c) pc)) ->
  inv n h -> inv n (set_pc i pc h).
Proof. intros Hc [I1 I2 I3 I4 I5]. split; simpl; try done. apply Forall_alter_all; [|done]. intros c Hi _. by apply Hc. Qed.

Lemma deque_append_numbered n events m :
  0 <= n -> map event_seq events = seqZ (dropped n + 1) (n - dropped n) -> event_seq m = n + 1 ->
  map event_seq (deque_append m events) = seqZ (dropped (n + 1) + 1) (n + 1 - dropped (n + 1)).
Proof.
  intros Hn He Hm. assert (Hl : length events = Z.to_nat (n - dropped n)) by (rewrite <- (length_map event_seq), He; apply length_seqZ).
  unfold deque_append. rewrite <- skipn_map, map_app, He, Hl. simpl. rewrite Hm.
  assert (Hs : seqZ (dropped n + 1) (n - dropped n) ++ [n + 1] = seqZ (dropped n + 1) (n - dropped n + 1)).
  { unfold dropped in *. rewrite seqZ_app by lia. f_equal. rewrite seqZ_cons, seqZ_nil by lia. f_equal. lia. }
  rewrite Hs. simpl Nat.sub. destruct (Z.ltb_spec n 512).
  - replace (dropped n) with 0 by (unfold dropped; lia). replace (dropped (n + 1)) with 0 by (unfold dropped; lia).
    replace (Z.to_nat (n - 0) - 511)%nat with 0%nat by lia. rewrite drop_0. f_equal; lia.
  - replace (dropped (n + 1)) with (dropped n + 1) by (unfold dropped; lia). replace (n - dropped n) with 512 by (unfold dropped; lia).
    rewrite (seqZ_cons (dropped n + 1)) by lia. change (Z.to_nat 512 - 511)%nat with 1%nat. rewrite skipn_cons, drop_0.
    f_equal; unfold dropped; lia.
Qed.

Lemma inv_finally n h : inv n h -> inv n (reader_finally h).
Proof.
  intros H0. unfold reader_finally.
  set (f := fun a => set_flow (as_pending_turn a) (as_pending_refresh a) true (set_life true true (as_failure_pending a) a)).
  assert (H1 : inv n (on_session f h)) by (by apply inv_core).
  destruct (negb _); [exact (inv_reader n _ Closing _ ltac:(done) H1)|].
  exact (inv_reader n _ Ended _ ltac:(done) (inv_silent n _ None eq_refl H1)).
Qed.

Lemma inv_kept n h a incoming pc :
  kept (hs_session h) a -> inv n h -> inv n (reader_finally (MkHost a pc incoming (hs_clients h))).
Proof.
  intros (K1 & K2 & K3 & K4) [I1 I2 I3 I4 I5]. 
  assert (H0 : inv n (MkHost a Ended incoming (hs_clients h))).
  { split; simpl; try done; [by rewrite K1|by rewrite K2, K3|].
    eapply Forall_impl; [exact I5|]. intros c Hc. apply (client_ok_moved n n (hs_session h)); [done| |done]. by apply moved_same. }
  exact (inv_finally n _ H0).
Qed.

Lemma inv_arrived h a m incoming :
  hs_reader h = Reading -> arrived m (hs_session h) a -> dhas "event_sequence" m = true ->
  event_seq m = as_event_sequence (hs_session h) + 1 -> numbered_from (as_event_sequence a) (omap id incoming) ->
  inv (as_event_sequence (hs_session h)) h -> inv (as_event_sequence a) (MkHost a Reading incoming (hs_clients h)).
Proof.
  intros Hr Ha Hk Hm Hin [I1 I2 I3 I4 I5]. pose proof (moved_arrived m _ _ Ha Hk Hm) as Hmv.
  destruct Ha as (A1 & A2 & A3 & A4 & A5). rewrite A2, Hm in *. split; simpl; [lia| |done| |].
  - rewrite A1. by apply deque_append_numbered.
  - rewrite A3, A5. destruct (as_subscriber (hs_session h)); [|done]. unfold put_nowait. by rewrite length_alter.
  - eapply Forall_impl; [exact I5|]. intros c Hc. eapply client_ok_moved; [|exact Hmv|done]. lia.
Qed.

Lemma numbered_cons n m l : numbered_from n (m :: l) -> event_seq m = n + 1 /\ numbered_from (n + 1) l.
Proof.
  unfold numbered_from. simpl. rewrite Nat2Z.inj_succ, seqZ_cons by lia. intros [= -> ->]. split; [done|]. f_equal; lia.
Qed.

Lemma inv_read n h : inv n h -> exists n', n <= n' /\ inv n' (reader_step h).
Proof.
  intros H0. unfold reader_step. destruct (hs_reader h) eqn:Er; [|exists n; split; [lia|done]..].
  destruct (hs_incoming h) as [|[m|] rest] eqn:Ei; [exists n; split; [lia|done]| |].
  2:{ exists n. split; [lia|]. apply inv_finally. destruct (inv_incoming n h H0 Er) as [Hs Hin]. rewrite Ei in Hin.
      destruct H0 as [I1 I2 I3 I4 I5]. by split. }
  destruct (inv_incoming n h H0 Er) as [<- Hin]. rewrite Ei in Hin. change (omap id (Some m :: rest)) with (m :: omap id rest) in Hin.
  apply numbered_cons in Hin as [Hm Hin]. pose proof (receive_effect m (hs_session h)) as Hrec.
  destruct (receive m (hs_session h)) as [a [b|e]].
  - destruct Hrec as (m' & Ha & Hseq & Hk). pose proof Ha as (_ & Hs & _). rewrite Hseq, Hm in Hs.
    exists (as_event_sequence a). split; [lia|].
    assert (H1 : inv (as_event_sequence a) (MkHost a Reading rest (hs_clients h))).
    { apply (inv_arrived h a m'); try done; rewrite ?Hs; try done. by rewrite Hseq. }
    destruct b; [by apply inv_finally|done].
  - exists (as_event_sequence (hs_session h)). split; [lia|]. by apply inv_kept.
Qed.

Lemma moved_fresh n a a' x : as_subscriber a = None -> as_subscriptions a' = as_subscriptions a ++ [x] ->
  as_subscriber a' = Some (length (as_subscriptions a)) -> moved n n a a'.
Proof.
  intros Hn Hs Hq q s Hl. pose proof (lookup_lt_Some _ _ _ Hl). exists s. rewrite Hs, lookup_app_l by done. split; [done|].
  left. split; [done|]. rewrite Hq. intros [= <-]. lia.
Qed.

Lemma filter_seq after events l :
  map event_seq events = l -> map event_seq (List.filter (fun e => after <? event_seq e) events) = List.filter (fun k => after <? k) l.
Proof. intros <-. induction events as [|e events IH]; simpl; [done|]. destruct (after <? event_seq e); simpl; by rewrite IH. Qed.

(** A new queue begins with the events that follow. *)
Lemma inv_attached n h i after id takeover claimed a' q events st :
  inv n h -> hs_clients h !! i = Some (MkClient after id takeover (AtTop true claimed)) ->
  as_subscriber (hs_session h) = None -> q = length (as_subscriptions (hs_session h)) ->
  events = List.filter (fun e => after <? event_seq e) (as_events (hs_session h)) ->
  a' = set_attachment (Some id) (Some q) (Some q) (as_subscriptions (hs_session h) ++ [MkSub (if as_done (hs_session h) then [None] else []) false])
         (hs_session h) ->
  inv n (set_pc i (Returned (Ok (Some (q, events, st)))) (on_session (fun _ => a') h)).
Proof.
  intros [I1 I2 I3 I4 I5] Hi Hs -> -> ->. apply inv_set_pc.
  - intros c Hc. simpl in *. assert (c = MkClient after id takeover (AtTop true claimed)) as -> by congruence.
    unfold client_ok. simpl. eexists _, n, n. rewrite lookup_app_r, Nat.sub_diag by lia. split_and!; try done; try lia.
    + by apply filter_seq.
    + rewrite seqZ_nil by lia. by destruct (as_done (hs_session h)).
  - split; simpl; try done; [rewrite length_app; simpl; lia|]. eapply Forall_impl; [exact I5|]. intros c Hc.
    eapply client_ok_moved; [| |exact Hc]; [done|]. by eapply moved_fresh.
Qed.

Lemma inv_silent_pc n h i pc : (forall q l st, pc <> Returned (Ok (Some (q, l, st)))) -> inv n h -> inv n (set_pc i pc h).
Proof.
  intros Hpc. apply inv_set_pc. intros c _. unfold client_ok. simpl. destruct pc as [| |[[[[q l] st]|]|]]; try done. by destruct (Hpc q l st).
Qed.

Lemma inv_claim n h id q : inv n h -> as_subscriber (hs_session h) = Some q ->
  inv n (on_session (set_attachment (Some id) (Some q) (as_subscriber_detached (hs_session h)) (as_subscriptions (hs_session h))) h).
Proof. intros H0 Hs. apply inv_core; [|done]. unfold core. simpl. by rewrite Hs. Qed.

Lemma inv_attach_step n h i : inv n h -> inv n (attach_step i h).
Proof.
  intros H0. unfold attach_step. destruct (hs_clients h !! i) as [[after id takeover [[] claimed| |]]|] eqn:Hi; try done.
  unfold attach_locked, bind, get, ret, modify, lift. cbv zeta.
  set (replacing := match as_attachment_id (hs_session h) with Some _ => _ | None => _ end).
  match goal with |- context [if replacing && ?b then _ else _] => destruct (replacing && b) end.
  { apply inv_silent_pc; [done|]. by apply inv_core. }
  destruct (as_subscriber (hs_session h)) as [q|] eqn:Hs; simpl; [|by eapply inv_attached].
  pose proof (inv_claim n h id q H0 Hs) as H1. destruct replacing; simpl.
  - destruct (jindex "phase" (as_state (hs_session h))) as [phase|e]; simpl; (apply inv_silent_pc; [done|]); [|done].
    exact (inv_silent n _ None eq_refl (inv_silent n _ (Some (attachment_replaced_message phase)) eq_refl H1)).
  - apply inv_silent_pc; [done|]. exact (inv_silent n _ None eq_refl H1).
Qed.

Lemma inv_detach n h q : inv n h -> inv n (on_session (detach q) h).
Proof.
  apply inv_on_session. simpl. unfold detach. case_bool_decide as Hq; [|split_and!; auto; by apply moved_same].
  destruct (as_subscriber_detached (hs_session h)) as [e|]; simpl; rewrite ?length_alter; split_and!; auto; intros q' s Hs; simpl.
  - destruct (decide (e = q')) as [->|Hne].
    + rewrite list_lookup_alter_eq, Hs. eexists. split; [done|]. by left.
    + rewrite list_lookup_alter_ne by done. exists s. split; [done|]. by left.
  - exists s. split; [done|]. by left.
Qed.

Lemma session_send_core `{FloatText} m r a : core (fst (session_send m r a)) = core a.
Proof.
  unfold session_send, bind, lift, modify, ret. destruct (get_str "type" m) as [ty|]; [|done].
  destruct (String.eqb ty "user_turn"); [by destruct (jindex "turn_id" m)|]. by destruct (String.eqb ty "runtime_refresh").
Qed.

#[export] Instance HostOp_read_dec (op : HostOp) : Decision (op = HRead).
Proof. destruct op; first [by left | by right]. Defined.

Lemma inv_step `{FloatText} n op h : inv n h -> exists n', n <= n' /\ inv n' (host_step op h).
Proof.
  intros H0. destruct (decide (op = HRead)) as [->|Hop]; [by apply inv_read|]. exists n. split; [lia|]. destruct op; simpl; try done.
  - destruct H0 as [I1 I2 I3 I4 I5]. split; simpl; try done. apply Forall_app. split; [done|]. by apply Forall_singleton.
  - unfold snapshot_seen. destruct (hs_clients h !! i) as [[? ? ? [[] ?| |]]|]; try done. destruct (as_snapshot_ready _); [|done]. by apply inv_silent_pc.
  - by apply inv_attach_step.
  - unfold detached_seen. destruct (hs_clients h !! i) as [[? ? ? [| [e|] |]]|]; try done; [|by apply inv_silent_pc].
    destruct (as_subscriptions (hs_session h) !! e) as [s|]; [|done]. destruct (sub_detached s); [|done]. by apply inv_silent_pc.
  - unfold client_detach. destruct (hs_clients h !! i) as [[? ? ? [| |[[[[q ?] ?]|]|]]]|]; try done. by apply inv_detach.
  - apply inv_core; [|done]. apply session_send_core.
  - unfold reader_closed. destruct (hs_reader h); try done.
    destruct bridge_close; [|by apply inv_reader]. exact (inv_reader n _ Ended _ ltac:(done) (inv_silent n h None eq_refl H0)).
  - by apply inv_core.
  - apply inv_core; [|done]. by destruct (as_closed (hs_session h)).
  - unfold close_rest. destruct (as_closed (hs_session h)); [|done]. apply inv_silent; [done|].
    destruct (hs_reader h); [by apply inv_finally|by apply inv_reader|done].
Qed.

Lemma inv_run `{FloatText} ops : forall n h, inv n h ->
  exists n', n <= n' /\ inv n' (fold_left (fun h op => host_step op h) ops h).
Proof.
  induction ops as [|op ops IH]; intros n h H0; simpl; [by exists n|].
  destruct (inv_step n op h H0) as (n1 & Hn1 & H1). destruct (IH n1 _ H1) as (n2 & Hn2 & H2). exists n2. split; [lia|done].
Qed.

Lemma filter_all (P : Z -> bool) b l : Forall (fun k => P k = b) l -> List.filter P l = if b then l else [].
Proof. induction 1 as [|k l Hk _ IH]; simpl; [by destruct b|]. rewrite Hk, IH. by destruct b. Qed.

Lemma filter_seqZ after d n : d <= after <= n -> List.filter (fun k => after <? k) (seqZ (d + 1) (n - d)) = seqZ (after + 1) (n - after).
Proof.
  intros Hd. replace (n - d) with ((after - d) + (n - after)) by lia. rewrite seqZ_app, List.filter_app by lia.
  rewrite (filter_all _ false), (filter_all _ true); [simpl; f_equal; lia|..]; apply Forall_seqZ; intros k Hk; [apply Z.ltb_lt|apply Z.ltb_ge]; lia.
Qed.

Lemma inv_initial provider workspace items incoming :
  numbered_from 0 (omap id incoming) -> inv 0 (new_host provider workspace items incoming).
Proof. intros Hn. by split. Qed.

(** What a client has received. *)
Lemma received_numbers `{FloatText} provider workspace items incoming ops i c q events st :
  numbered_from 0 (omap id incoming) ->
  let h := fold_left (fun h op => host_step op h) ops (new_host provider workspace items incoming) in
  hs_clients h !! i = Some c -> cl_pc c = Returned (Ok (Some (q, events, st))) ->
  exists sub n0 m, as_subscriptions (hs_session h) !! q = Some sub /\ 0 <= n0 <= m /\
    let received := map event_seq (events ++ seen (sub_queue sub)) in
    received = List.filter (fun k => cl_after c <? k) (seqZ (dropped n0 + 1) (n0 - dropped n0)) ++ seqZ (n0 + 1) (m - n0) /\
    (n0 - Z.of_nat EVENT_REPLAY_LIMIT <= cl_after c -> 0 <= cl_after c <= n0 -> received = seqZ (cl_after c + 1) (m - cl_after c)) /\
    (as_subscriber (hs_session h) = Some q -> ended (sub_queue sub) = false -> hs_reader h = Reading ->
     m = as_event_sequence (hs_session h)).
Proof.
  intros Hn h Hc Hpc. destruct (inv_run ops 0 _ (inv_initial provider workspace items incoming Hn)) as (n & _ & I).
  fold h in I. pose proof (Forall_lookup_1 _ _ _ _ (inv_clients n h I) Hc) as Hok. unfold client_ok in Hok. rewrite Hpc in Hok.
  destruct Hok as (sub & n0 & m & Hs & Hm & Hmn & He & Hq & Hl). exists sub, n0, m. cbv zeta. rewrite map_app, He, Hq. split_and!; try done; try lia.
  - intros H1 H2. rewrite filter_seqZ by (unfold dropped, EVENT_REPLAY_LIMIT in *; lia).
    replace (m - cl_after c) with ((n0 - cl_after c) + (m - n0)) by lia. rewrite seqZ_app by lia. do 2 f_equal; lia.
  - intros H1 H2 H3. rewrite (Hl H1 H2). by destruct (inv_incoming n h I H3) as [-> _].
Qed.

(** C11: however the bridge, clients that attach, detach and take over, and the
    shutdown interleave, a client whose attachment has returned receives the events
    of its session in order, none twice and none left out from the moment it
    attached (when there were [n0] of them): first the kept ones behind the number
    it has seen, then everything that arrived since, up to the end of its queue;
    while it is the subscriber and its queue is open it has been given all of them.
    If at most EVENT_REPLAY_LIMIT events came after the number it has seen, it has
    missed none at all. *)
Theorem attached_client_misses_nothing `{FloatText} provider workspace items incoming ops i c q events st :
  numbered_from 0 (omap id incoming) ->
  let h := fold_left (fun h op => host_step op h) ops (new_host provider workspace items incoming) in
  hs_clients h !! i = Some c -> cl_pc c = Returned (Ok (Some (q, events, st))) ->
  exists sub n0 m, as_subscriptions (hs_session h) !! q = Some sub /\ 0 <= n0 <= m /\
    let received := map event_seq (events ++ seen (sub_queue sub)) in
    received = List.filter (fun k => cl_after c <? k) (seqZ (dropped n0 + 1) (n0 - dropped n0)) ++ seqZ (n0 + 1) (m - n0) /\
    (n0 - Z.of_nat EVENT_REPLAY_LIMIT <= cl_after c -> 0 <= cl_after c <= n0 -> received = seqZ (cl_after c + 1) (m - cl_after c)) /\
    (as_subscriber (hs_session h) = Some q -> ended (sub_queue sub) = false -> hs_reader h = Reading ->
     m = as_event_sequence (hs_session h)).
Proof. intros Hn h Hc Hpc. exact (received_numbers provider workspace items incoming ops i c q events st Hn Hc Hpc). Qed.

#[local] Instance host_floats : FloatText := {| float_repr b := "0.0" |}.

Definition demo_raws : list (dict * option dict * option (list json)) :=
  [([("type", JStr "session_ready")], None, None);
   (inactive_runtime_state None None JNull None, None, None);
   ([("type", JStr "assistant_delta")], None, None);
   ([("type", JStr "fatal")], None, None)].

(** A client that has seen the first event attaches after the second and is taken
    over by another one. *)
Lemma attached_client_misses_nothing_witness :
  let incoming := map Some (stream 0 demo_raws) ++ [None] in
  let ops := [HRead; HRead; HAttach 1 "tab" false; HSnapshotSeen 0; HAttachStep 0; HRead; HAttach 0 "phone" true;
              HSnapshotSeen 1; HAttachStep 1; HRead] in
  let h := fold_left (fun h op => host_step op h) ops (new_host None "/w" [] incoming) in
  exists c q events st sub n0 m, hs_clients h !! 0%nat = Some c /\ cl_pc c = Returned (Ok (Some (q, events, st))) /\
    as_subscriptions (hs_session h) !! q = Some sub /\ map event_seq (events ++ seen (sub_queue sub)) = [2; 3] /\
    [2; 3] = List.filter (fun k => cl_after c <? k) (seqZ (dropped n0 + 1) (n0 - dropped n0)) ++ seqZ (n0 + 1) (m - n0).
Proof.
  intros incoming ops h.
  assert (Hn : numbered_from 0 (omap id incoming)) by (vm_compute; reflexivity).
  assert (exists c q events st, hs_clients h !! 0%nat = Some c /\ cl_pc c = Returned (Ok (Some (q, events, st))) /\
    exists sub, as_subscriptions (hs_session h) !! q = Some sub /\ map event_seq (events ++ seen (sub_queue sub)) = [2; 3])
    as (c & q & events & st & Hc & Hpc & sub & Hsub & Hr).
  { vm_compute. eexists _, _, _, _. split_and!; [reflexivity..|]. eexists. split; reflexivity. }
  destruct (attached_client_misses_nothing None "/w" [] incoming ops 0%nat c q events st Hn Hc Hpc) as (sub' & n0 & m & Hs & _ & Hrec & _).
  assert (sub' = sub) as -> by (apply Some_inj; exact (eq_trans (eq_sym Hs) Hsub)).
  exists c, q, events, st, sub, n0, m. rewrite <- Hr. split_and!; [exact Hc|exact Hpc|exact Hsub|reflexivity|exact Hrec].
Defined.

(** ** The registry *)

Lemma receive_done m a : as_done (fst (receive m a)) = as_done a.
Proof.
  assert (Hs : forall st x, as_done (fst (receive_state st x)) = as_done x).
  { intros st x. unfold receive_state, bind, modify, get, ret, lift. simpl. destruct (as_pending_turn x); simpl; [|done].
    destruct (jindex "turn_id" (state_fields st)) as [j|]; simpl; [|done]. by case_bool_decide. }
  assert (Hnote : forall ty m x, as_done (note_message ty m x) = as_done x).
  { intros ty m' x. unfold note_message.
    by destruct (dget "transcript" m'), (is_type (["turn_completed"; "turn_cancelled"; "turn_failed"] ++ FAILURES) ty),
      (is_type (["runtime_refreshed"; "runtime_refresh_failed"] ++ FAILURES) ty), (is_type FAILURES ty). }
  unfold receive, bind at 1, lift at 1. destruct (x <~ jindex "event_sequence" m ;; typed_int x) as [z|]; [|done].
  unfold bind at 1, modify at 1, bind at 1, lift at 1. destruct (x <~ jindex "resume_after" m ;; typed_int x) as [r|]; [|done].
  unfold bind at 1, modify at 1, bind at 1, lift at 1. destruct (jindex "type" m) as [ty|]; [|done].
  unfold bind at 1, lift at 1. destruct (if is_type ["runtime_state"] ty then Ok (Some m) else _) as [given|]; [|done].
  unfold bind at 1, get. cbv zeta. set (synthetic := match given with None => _ | Some _ => _ end).
  match goal with |- context [bind (match ?o with Some st => receive_state st | None => _ end) _ ?x] =>
    assert (Hc : as_done (fst (match o with Some st => receive_state st | None => ret tt end x)) = as_done x)
      by (destruct o; [apply Hs|done]);
    unfold bind at 1; destruct (match o with Some st => receive_state st | None => ret tt end x) as [a2 [[]|e]] end.
  2: exact Hc.
  simpl. unfold put_subscriber. simpl. destruct (as_subscriber _); simpl; rewrite Hnote; exact Hc.
Qed.

Lemma put_subscriber_done x a : as_done (put_subscriber x a) = as_done a.
Proof. unfold put_subscriber. by destruct (as_subscriber a). Qed.

Lemma attach_locked_done after id takeover claimed a : as_done (fst (attach_locked after id takeover claimed a)) = as_done a.
Proof.
  unfold attach_locked, bind, get, ret, modify, lift. destruct (_ && _); [done|].
  destruct (as_subscriber a); simpl; [|done]. destruct (match as_attachment_id a with Some _ => _ | None => _ end); simpl; [|by rewrite ?put_subscriber_done].
  destruct (jindex "phase" (as_state a)); simpl; [|done]. by rewrite ?put_subscriber_done.
Qed.

Lemma reader_finally_done h : as_done (hs_session (reader_finally h)) = true.
Proof. unfold reader_finally. destruct (negb _); simpl; [done|]. by rewrite put_subscriber_done. Qed.

(** A session that is done stays done. *)
Lemma host_step_done `{FloatText} op h : as_done (hs_session h) = true -> as_done (hs_session (host_step op h)) = true.
Proof.
  intros Hd. destruct op; simpl; try done.
  - unfold snapshot_seen. destruct (hs_clients h !! i) as [[? ? ? [[] ?| |]]|]; try done. by destruct (as_snapshot_ready _).
  - unfold attach_step. destruct (hs_clients h !! i) as [[? ? ? [[] ?| |]]|]; try done.
    match goal with |- context [attach_locked ?x ?y ?z ?w ?v] => pose proof (attach_locked_done x y z w v) as Ha; destruct (attach_locked x y z w v) as [a' [[]|]] end.
    all: simpl in *; congruence.
  - unfold detached_seen. destruct (hs_clients h !! i) as [[? ? ? [| [e|] |]]|]; try done.
    destruct (as_subscriptions (hs_session h) !! e) as [s|]; [|done]. by destruct (sub_detached s).
  - unfold client_detach. destruct (hs_clients h !! i) as [[? ? ? [| |[[[[q ?] ?]|]|]]]|]; try done. simpl. unfold detach.
    case_bool_decide; [|done]. by destruct (as_subscriber_detached (hs_session h)).
  - unfold session_send, bind, lift, modify, ret. destruct (get_str "type" message) as [ty|]; [|done].
    destruct (String.eqb ty "user_turn"); [by destruct (jindex "turn_id" message)|]. by destruct (String.eqb ty "runtime_refresh").
  - unfold reader_step. destruct (hs_reader h); [|done..]. destruct (hs_incoming h) as [|[m|] rest]; [done| |by rewrite reader_finally_done].
    pose proof (receive_done m (hs_session h)) as Hr. destruct (receive m (hs_session h)) as [a [[]|]]; simpl in *; [by rewrite reader_finally_done|congruence|by rewrite reader_finally_done].
  - unfold reader_closed. destruct (hs_reader h); [done| |done]. destruct bridge_close; simpl; [by rewrite put_subscriber_done|done].
  - by destruct (as_closed (hs_session h)).
  - unfold close_rest. destruct (as_closed (hs_session h)); [|done]. simpl. rewrite put_subscriber_done.
    destruct (hs_reader h); [by rewrite reader_finally_done|done..].
Qed.

Record registered (r : Registry) : Prop := {
  rg_keys : NoDup (dkeys (rg_sessions r)) /\ NoDup (dkeys (rg_closing r));
  rg_named : forall id k, dget id (rg_sessions r) = Some k \/ dget id (rg_closing r) = Some k -> exists h, rg_objects r !! k = Some (id, h);
  rg_apart : forall id, dhas id (rg_sessions r) = true -> dhas id (rg_closing r) = false;
  rg_live : forall id k h, rg_objects r !! k = Some (id, h) -> as_done (hs_session h) = false ->
    dget id (rg_sessions r) = Some k \/ dget id (rg_closing r) = Some k \/ k ∈ rg_closing_all r;
}.

Lemma dhas_false {V} id (d : list (string * V)) : dhas id d = false <-> dget id d = None.
Proof. unfold dhas. by destruct (dget id d). Qed.
Lemma dhas_true {V} id (d : list (string * V)) : dhas id d = true <-> exists v, dget id d = Some v.
Proof. unfold dhas. destruct (dget id d) as [v|]; split; [by exists v|done|done|by intros []]. Qed.

Lemma dget_dpop {V} k k' (d : list (string * V)) v : NoDup (dkeys d) -> dget k' (dpop k d) = Some v -> k <> k' /\ dget k' d = Some v.
Proof.
  intros Hn H. destruct (decide (k = k')) as [->|Hne]; [by rewrite dget_dpop_eq in H|]. by rewrite dget_dpop_ne in H.
Qed.

(** A session that is done may be dropped. *)
Lemma registered_pop id r :
  (forall k h, dget id (rg_sessions r) = Some k -> rg_objects r !! k = Some (id, h) -> as_done (hs_session h) = true) ->
  registered r -> registered (set_sessions (dpop id (rg_sessions r)) r).
Proof.
  intros Hd [[K1 K2] N A L]. split; simpl.
  - split; [by apply dpop_NoDup|done].
  - intros id' k [H|H]; [|by auto]. apply dget_dpop in H as [_ H]; [|done]. auto.
  - intros id' [k H]%dhas_true. apply dget_dpop in H as [_ H]; [|done]. apply A. apply dhas_true. by exists k.
  - intros id' k h Ho Hl. destruct (L id' k h Ho Hl) as [H|[H|H]]; [|by auto..]. destruct (decide (id = id')) as [->|Hne].
    + rewrite (Hd k h H Ho) in Hl. done.
    + left. by rewrite dget_dpop_ne.
Qed.

Lemma registered_add id h r :
  dget id (rg_sessions r) = None -> dhas id (rg_closing r) = false -> registered r ->
  registered (MkRegistry (rg_objects r ++ [(id, h)]) (dset id (length (rg_objects r)) (rg_sessions r)) (rg_closing r) (rg_closing_all r)).
Proof.
  intros Hn Hc [[K1 K2] N A L]. split; simpl.
  - split; [by apply dset_NoDup|done].
  - intros id' k Hk. assert (Hold : (dget id' (rg_sessions r) = Some k \/ dget id' (rg_closing r) = Some k) \/ id' = id /\ k = length (rg_objects r)).
    { destruct Hk as [Hk|Hk]; [|by auto]. destruct (decide (id = id')) as [->|Hne]; [rewrite dget_dset_eq in Hk; injection Hk as <-; by auto|].
      rewrite dget_dset_ne in Hk by done. auto. }
    destruct Hold as [Hold|[-> ->]]; [|exists h; by rewrite lookup_app_r, Nat.sub_diag by lia].
    destruct (N id' k Hold) as [h' Hh]. exists h'. by apply lookup_app_l_Some.
  - intros id' [k Hk]%dhas_true. destruct (decide (id = id')) as [->|Hne]; [done|]. rewrite dget_dset_ne in Hk by done.
    apply A, dhas_true. by exists k.
  - intros id' k h' Ho Hl. apply lookup_app_Some in Ho as [Ho|[Hk Ho]].
    + destruct (L id' k h' Ho Hl) as [H|[H|H]]; [|by auto..]. left. rewrite dget_dset_ne; [done|]. intros ->. congruence.
    + left. destruct (k - length (rg_objects r))%nat eqn:E; [|done]. injection Ho as <- <-. rewrite dget_dset_eq. f_equal. lia.
Qed.

Lemma object_at k r id h : rg_objects r !! k = Some (id, h) -> object k r = Some (hs_session h).
Proof. intros H. unfold object. by rewrite H. Qed.

Lemma registered_open opening id workspace attach_only answers r :
  registered r -> registered (fst (open_or_attach opening id workspace attach_only answers r)).
Proof.
  intros Hr. unfold open_or_attach, bind, get, ret, modify, lift. destruct (dhas id (rg_closing r)) eqn:Hc; [done|].
  set (usable := match dget id (rg_sessions r) with Some _ => _ | None => _ end). destruct usable eqn:Hu; [done|].
  set (r1 := match dget id (rg_sessions r) with Some _ => set_sessions _ r | None => r end).
  assert (H1 : registered r1 /\ dget id (rg_sessions r1) = None /\ rg_closing r1 = rg_closing r).
  { unfold r1, usable in *. destruct (dget id (rg_sessions r)) as [k|] eqn:Es; [|done]. simpl. split_and!; [|by apply dget_dpop_eq, Hr|done].
    apply registered_pop; [|done]. intros k' h Hk Ho. assert (k' = k) as -> by congruence. rewrite (object_at _ _ _ _ Ho) in Hu.
    destruct (as_done (hs_session h)); [done|]. by rewrite orb_true_r in Hu. }
  destruct H1 as (H1 & Hn & Hcl). destruct attach_only; [done|].
  destruct (oa_start answers); [|done]. destruct (oa_load answers) as [stored|]; [|done]. destruct (oa_channel answers) as [incoming|]; [|done].
  cbv zeta. destruct (oa_send answers); simpl; (apply registered_add; [done|by rewrite Hcl|done]).
Qed.

(** [release_idle] leaves the registry alone or hands a session that is not running
    to a closing task. *)
Lemma release_idle_effect id provider attachment_id r :
  let r' := fst (release_idle id provider attachment_id r) in
  r' = r \/ exists k a, dget id (rg_sessions r) = Some k /\ object k r = Some a /\ running a = Ok false /\
    r' = MkRegistry (rg_objects r) (dpop id (rg_sessions r)) (dset id k (rg_closing r)) (rg_closing_all r).
Proof.
  intros r'. unfold r', release_idle, bind, get, ret, modify, lift, fail.
  destruct (dget id (rg_sessions r)) as [k|]; [|by left]. destruct (object k r) as [a|] eqn:Eo; [|by left].
  destruct provider as [p|]; [destruct (jindex "provider" (as_state a)) as [j|]; [|by left]; simpl; destruct (negb _); [by left|]|].
  all: destruct (match attachment_id with Some _ => _ | None => _ end); [by left|].
  all: destruct (running a) as [[]|] eqn:Er; [by left| |by left]; right; exists k, a; by split_and!.
Qed.

Lemma registered_release id provider attachment_id r : registered r -> registered (fst (release_idle id provider attachment_id r)).
Proof.
  intros Hr. destruct (release_idle_effect id provider attachment_id r) as [->|(k & a & Hk & Ho & _ & ->)]; [done|].
  destruct Hr as [[K1 K2] N A L]. pose proof (A id (proj2 (dhas_true _ _) (ex_intro _ k Hk))) as Hc. split; simpl.
  - split; [by apply dpop_NoDup|by apply dset_NoDup].
  - intros id' k' [H|H]; [apply dget_dpop in H as [_ H]; [|done]; auto|].
    destruct (decide (id = id')) as [->|Hne]; [rewrite dget_dset_eq in H; injection H as <-; auto|]. rewrite dget_dset_ne in H by done. auto.
  - intros id' [k' H]%dhas_true. apply dget_dpop in H as [Hne H]; [|done]. rewrite dhas_dset_ne by done. apply A, dhas_true. by exists k'.
  - intros id' k' h Hob Hl. destruct (decide (id = id')) as [<-|Hne]; [|rewrite dget_dpop_ne, dget_dset_ne by done; by eapply L].
    rewrite dget_dset_eq. destruct (L id k' h Hob Hl) as [H|[H|H]]; [|by apply dhas_false in Hc; congruence|by auto].
    right. left. congruence.
Qed.

Lemma registered_closing_done id r : registered r -> registered (closing_done id r).
Proof.
  intros Hr. unfold closing_done. destruct (dget id (rg_closing r)) as [k|] eqn:Hk; [|done]. destruct (object k r) as [a|] eqn:Ho; [|done].
  destruct (as_done a) eqn:Hd; [|done]. destruct Hr as [[K1 K2] N A L]. split; simpl.
  - split; [done|by apply dpop_NoDup].
  - intros id' k' [H|H]; [by auto|]. apply dget_dpop in H as [_ H]; [|done]. auto.
  - intros id' H. apply dhas_false. destruct (dget id' (dpop id (rg_closing r))) eqn:E; [|done]. apply dget_dpop in E as [_ E]; [|done].
    apply A, dhas_false in H. congruence.
  - intros id' k' h Hob Hl. destruct (L id' k' h Hob Hl) as [H|[H|H]]; [by auto| |by auto]. destruct (decide (id = id')) as [<-|Hne].
    + assert (k' = k) as -> by congruence. rewrite (object_at _ _ _ _ Hob) in Ho. injection Ho as <-. congruence.
    + right. left. by rewrite dget_dpop_ne.
Qed.

Lemma registered_remove k r : registered r -> registered (remove_if_finished k r).
Proof.
  intros Hr. unfold remove_if_finished. destruct (rg_objects r !! k) as [[id h]|] eqn:Ho; [|done].
  unfold attachable. destruct (as_done (hs_session h)) eqn:Hd; [|done]. destruct (_ || _); [done|]. case_bool_decide as Hk; [|done].
  apply registered_pop; [|done]. intros k' h' Hk' Ho'. congruence.
Qed.

Lemma registered_close_all r : registered r -> registered (close_all r).
Proof.
  intros [[K1 K2] N A L]. split; simpl.
  - split; [constructor|done].
  - intros id k [H|H]; [done|auto].
  - done.
  - intros id k h Ho Hl. destruct (L id k h Ho Hl) as [H|[H|H]]; [|by auto|right; right; apply elem_of_app; by left].
    right. right. apply elem_of_app. right. apply dget_Some_in in H. unfold dvalues. by apply (list_elem_of_fmap_2 snd _ (id, k)).
Qed.

Lemma registered_step `{FloatText} op r : registered r -> registered (registry_step op r).
Proof.
  intros Hr. destruct op; simpl; auto using registered_open, registered_release, registered_closing_done, registered_remove, registered_close_all.
  destruct Hr as [[K1 K2] N A L]. split; simpl; try done.
  - intros id k' Hk. destruct (N id k' Hk) as [h Hh]. destruct (decide (k = k')) as [->|Hne].
    + rewrite list_lookup_alter_eq, Hh. by eexists.
    + rewrite list_lookup_alter_ne by done. by eexists.
  - intros id k' h Ho Hl. destruct (decide (k = k')) as [->|Hne]; [|rewrite list_lookup_alter_ne in Ho by done; by eapply L].
    rewrite list_lookup_alter_eq in Ho. destruct (rg_objects r !! k') as [[id0 h0]|] eqn:E; [|done]. injection Ho as <- <-. simpl in Hl.
    apply (L id0 k' h0 E). destruct (as_done (hs_session h0)) eqn:Hd; [|done]. by rewrite host_step_done in Hl.
Qed.

Lemma done_not_running a : as_done a = true -> running a = Ok false.
Proof. intros H. unfold running. by rewrite H. Qed.

(** A session leaves the registry only when it is not running. *)
Lemma step_leaves_idle `{FloatText} op r id k h :
  op <> RCloseAll -> dget id (rg_sessions r) = Some k -> rg_objects r !! k = Some (id, h) ->
  dget id (rg_sessions (registry_step op r)) = Some k \/ running (hs_session h) = Ok false.
Proof.
  intros Hop Hk Hh. destruct op; simpl; try done; [| | | |by left].
  - unfold open_or_attach, bind, get, ret, modify, lift. destruct (dhas session_id (rg_closing r)); [by left|].
    set (usable := match dget session_id (rg_sessions r) with Some _ => _ | None => _ end). destruct usable eqn:Hu; [by left|].
    destruct (decide (session_id = id)) as [->|Hne].
    { right. unfold usable in Hu. rewrite Hk, (object_at _ _ _ _ Hh) in Hu. apply done_not_running.
      destruct (as_done (hs_session h)); [done|]. by rewrite orb_true_r in Hu. }
    left. destruct (dget session_id (rg_sessions r)) as [k0|]; simpl; destruct attach_only, (oa_start answers), (oa_load answers), (oa_channel answers), (oa_send answers);
      simpl; rewrite ?dget_dset_ne, ?dget_dpop_ne by done; done.
  - destruct (release_idle_effect session_id provider attachment_id r) as [->|(k0 & a & Hk0 & Ho & Hrun & ->)]; [by left|]. simpl.
    destruct (decide (session_id = id)) as [->|Hne]; [|left; by rewrite dget_dpop_ne]. right.
    assert (k0 = k) as -> by congruence. rewrite (object_at _ _ _ _ Hh) in Ho. by injection Ho as <-.
  - left. unfold closing_done. destruct (dget session_id (rg_closing r)); [|done]. destruct (object _ r); [|done]. by destruct (as_done _).
  - unfold remove_if_finished. destruct (rg_objects r !! k0) as [[id0 h0]|] eqn:E; [|by left].
    unfold attachable. destruct (as_done (hs_session h0)) eqn:Hd; [|by left]. destruct (_ || _); [by left|]. case_bool_decide as Hk0; [|by left]. simpl.
    destruct (decide (id0 = id)) as [->|Hne]; [|left; by rewrite dget_dpop_ne]. right. apply done_not_running. congruence.
Qed.


