(* ===== verification/Transport.v ===== *)
(** * The transport between a front end and the bridge process

    interfaces/bridge_process.py, and [BridgeServer.emit] of
    interfaces/bridge/server.py, which writes what the front end reads: lines of
    JSON over a pipe, each for one of the channels.

    The reader task takes what the pipe hands over: a chunk of any length (also
    one that ends within a character), or its end.  Other tasks run between two
    chunks. *)

From stdpp Require Import base list strings pretty.
From Stdlib Require Import ZArith Lia Ascii.
From S2P Require Import Prelude PyData PyStr Json Content PyText JsonText Jsonl Protocol.

(** [BridgeServer.emit]: the bytes of a message. *)
Definition emit_bytes `{FloatText} (message : dict) : string := record_line (JObj message).

(** ** BridgeChannel

    [ch_messages] is everything that was put into the queue of the channel. *)

Record BridgeChannel := MkChannel {
  ch_id : string;
  ch_messages : list (option dict);
  ch_closed : bool;
  ch_sequence : Z;
}.

(** The channels are objects that sessions hold: the process knows the open ones by
    their id. *)
Record BridgeProcess := MkBridge {
  bp_read_buffer : string;
  bp_channels : list (string * nat);
  bp_objects : list BridgeChannel;
  bp_ready : bool;
  bp_error : option exn;
  bp_reading : bool;
  bp_closing : bool;
  bp_close_task : bool;
  bp_stdin : list json;
  bp_stdin_closed : bool;
}.

Definition new_bridge : BridgeProcess := MkBridge "" [] [] false None true false false [] false.

Definition set_buffer (b : string) (p : BridgeProcess) : BridgeProcess :=
  MkBridge b (bp_channels p) (bp_objects p) (bp_ready p) (bp_error p) (bp_reading p) (bp_closing p) (bp_close_task p)
    (bp_stdin p) (bp_stdin_closed p).
Definition set_channels (cs : list (string * nat)) (objects : list BridgeChannel) (p : BridgeProcess) : BridgeProcess :=
  MkBridge (bp_read_buffer p) cs objects (bp_ready p) (bp_error p) (bp_reading p) (bp_closing p) (bp_close_task p)
    (bp_stdin p) (bp_stdin_closed p).
Definition set_ready (p : BridgeProcess) : BridgeProcess :=
  MkBridge (bp_read_buffer p) (bp_channels p) (bp_objects p) true (bp_error p) (bp_reading p) (bp_closing p) (bp_close_task p)
    (bp_stdin p) (bp_stdin_closed p).
Definition set_stdin (l : list json) (closed closing close_task : bool) (p : BridgeProcess) : BridgeProcess :=
  MkBridge (bp_read_buffer p) (bp_channels p) (bp_objects p) (bp_ready p) (bp_error p) (bp_reading p) closing close_task l closed.

(** [BridgeChannel.deliver] *)
Definition deliver (message : dict) (c : BridgeChannel) : res BridgeChannel :=
  sequence <~ (x <~ jindex "event_sequence" message ;; typed_int x) ;;
  Ok (MkChannel (ch_id c) (ch_messages c ++ [Some message]) (ch_closed c) sequence).

Definition fatal_message (e : exn) : dict :=
  [("type", JStr "fatal");
   ("error", JObj [("type", JStr (class_name (exn_class e))); ("message", JStr (exn_msg e)); ("details", JObj [])])].

(** [BridgeChannel.finish]: a channel that is lost learns of it by a fatal event
    that continues its numbers. *)
Definition finish (error : option exn) (c : BridgeChannel) : BridgeChannel :=
  if ch_closed c then c else
  let c1 := match error with
            | None => c
            | Some e =>
                match snd (publish (fatal_message e) None None (ch_sequence c)) with
                | Ok m => match deliver m c with Ok c' => c' | Err _ => c end
                | Err _ => c
                end
            end in
  MkChannel (ch_id c1) (ch_messages c1 ++ [None]) true (ch_sequence c1).

(** ** BridgeProcess *)

Definition open_channel (channel_id : string) (p : BridgeProcess) : BridgeProcess * res nat :=
  match bp_error p with
  | Some e => (p, Err e)
  | None =>
      if bp_closing p then (p, Err (Exn ERuntimeError "Bridge is closing")) else
      if dhas channel_id (bp_channels p)
      then (p, Err (Exn EValueError ("channel '" +:+ channel_id +:+ "' is already open"))) else
      let k := length (bp_objects p) in
      (set_channels (dset channel_id k (bp_channels p)) (bp_objects p ++ [MkChannel channel_id [] false 0]) p, Ok k)
  end.

(** [BridgeProcess.send]; the pipe takes the line as a whole. *)
Definition bridge_send (message : json) : M BridgeProcess unit := fun p =>
  if bp_stdin_closed p then (p, Err (Exn ERuntimeError "Bridge input is closed"))
  else (set_stdin (bp_stdin p ++ [message]) false (bp_closing p) (bp_close_task p) p, Ok tt).

(** [BridgeChannel.send] and [BridgeChannel.close] up to its wait. *)
Definition channel_send (k : nat) (message : dict) : M BridgeProcess unit := fun p =>
  match bp_objects p !! k with
  | Some c => bridge_send (JObj [("type", JStr "channel_command"); ("channel_id", JStr (ch_id c)); ("command", JObj message)]) p
  | None => (p, Ok tt)
  end.
Definition channel_close (k : nat) : M BridgeProcess unit := fun p =>
  match bp_objects p !! k with
  | Some c => if ch_closed c then (p, Ok tt)
              else bridge_send (JObj [("type", JStr "close_channel"); ("channel_id", JStr (ch_id c))]) p
  | None => (p, Ok tt)
  end.

(** ** Reading *)

(** [bytes.strip] takes ASCII white space off. *)
Definition byte_space (c : ascii) : bool := between 9 13 c || Ascii.eqb c SPC.
Definition bytes_strip (b : string) : string := strip_by byte_space b.

(** [newline = buffer.find(b"\n")]: the line and what is behind it. *)
Fixpoint take_line (b : string) : option (string * string) :=
  match b with
  | "" => None
  | String c b' => if Ascii.eqb c LF then Some ("", b')
                   else match take_line b' with Some (l, r) => Some (String c l, r) | None => None end
  end.

(** The key of [self._channels.get(value)]: a value that is not a string is no key. *)
Definition channel_key (value : json) : res (option string) :=
  match value with
  | JStr id => Ok (Some id)
  | JArr _ => raise ETypeError "unhashable type: 'list'"
  | JObj _ => raise ETypeError "unhashable type: 'dict'"
  | _ => Ok None
  end.

Definition find_channel (key : option string) (p : BridgeProcess) : option nat :=
  match key with Some id => dget id (bp_channels p) | None => None end.

(** One message of [_dispatch]. *)
Definition handle `{FloatText} (message : json) : M BridgeProcess unit :=
  d <- lift (typed_obj message) ;;
  kind <- lift (jindex "type" d) ;;
  if is_type ["bridge_ready"] kind then
    version <- lift (jindex "protocol_version" d) ;;
    if bool_decide (version = JInt PROTOCOL_VERSION) then modify set_ready
    else fail (Exn EValueError "Unsupported Bridge protocol version")
  else if is_type ["fatal"] kind then
    m <- lift (x <~ jindex "error" d ;; e <~ typed_obj x ;; jindex "message" e) ;;
    fail (Exn ERuntimeError (py_str m))
  else if is_type ["channel_event"] kind then
    key <- lift (x <~ jindex "channel_id" d ;; channel_key x) ;;
    p <- get ;;
    match find_channel key p with
    | None => ret tt
    | Some k =>
        event <- lift (x <~ jindex "event" d ;; typed_obj x) ;;
        match bp_objects p !! k with
        | None => ret tt
        | Some c => c' <- lift (deliver event c) ;;
                    modify (set_channels (bp_channels p) (<[k := c']> (bp_objects p)))
        end
    end
  else if is_type ["channel_closed"] kind then
    key <- lift (x <~ jindex "channel_id" d ;; channel_key x) ;;
    p <- get ;;
    match find_channel key p with
    | None => ret tt
    | Some k => modify (set_channels (dpop (default "" key) (bp_channels p)) (alter (finish None) k (bp_objects p)))
    end
  else fail (Exn EValueError ("Unknown Bridge event: " +:+ py_str kind)).

(** The end of [_dispatch]: every channel that is still open is finished. *)
Definition finish_all (error : option exn) (objects : list BridgeChannel) (open : list nat) : list BridgeChannel :=
  fold_left (fun l k => alter (finish error) k l) open objects.

Definition end_dispatch (error : option exn) (p : BridgeProcess) : BridgeProcess :=
  MkBridge (bp_read_buffer p) [] (finish_all error (bp_objects p) (dvalues (bp_channels p))) true error false (bp_closing p)
    (bp_close_task p || match error with Some _ => true | None => false end) (bp_stdin p) (bp_stdin_closed p).

Section reading.
Context `{FloatText} `{FloatRead}.

(** One line that is not blank: parse it and act on it; an exception ends the
    dispatcher ([except Exception]). *)
Definition dispatch_line (line : string) (p : BridgeProcess) : BridgeProcess :=
  match (message <- lift (loads_bytes line) ;; handle message) p with
  | (p', Ok _) => p'
  | (p', Err e) => end_dispatch (Some e) p'
  end.

(** The loop of [_dispatch] and [read], up to the point where it needs more bytes. *)
Fixpoint dispatch_buffered (fuel : nat) (p : BridgeProcess) : BridgeProcess :=
  match fuel with
  | O => p
  | S fuel' =>
      if negb (bp_reading p) then p else
      match take_line (bp_read_buffer p) with
      | None => p
      | Some (line, rest) =>
          let p1 := set_buffer rest p in
          dispatch_buffered fuel' (if nonempty (bytes_strip line) then dispatch_line line p1 else p1)
      end
  end.

(** [chunk = await stdout.read(65536)] has returned bytes. *)
Definition read_chunk (chunk : string) (p : BridgeProcess) : BridgeProcess :=
  if negb (bp_reading p) then p else
  let b := bp_read_buffer p +:+ chunk in
  dispatch_buffered (S (String.length b)) (set_buffer b p).

(** It has returned no bytes: the process has ended. *)
Definition read_eof (returncode : Z) (p : BridgeProcess) : BridgeProcess :=
  if negb (bp_reading p) then p else
  if nonempty (bytes_strip (bp_read_buffer p))
  then end_dispatch (Some (Exn EValueError "Bridge output ended without a final newline")) p
  else end_dispatch (if bp_closing p then None
                     else Some (Exn ERuntimeError ("Bridge exited unexpectedly (" +:+ pretty returncode +:+ ")"))) p.

(** [close] and [_close] up to the wait for the process: the shutdown is announced
    once. *)
Definition bridge_close (p : BridgeProcess) : BridgeProcess :=
  if bp_closing p then set_stdin (bp_stdin p) (bp_stdin_closed p) true true p else
  if bp_stdin_closed p then set_stdin (bp_stdin p) true true true p
  else set_stdin (bp_stdin p ++ [JObj [("type", JStr "shutdown")]]) true true true p.

Definition available (returncode : option Z) (p : BridgeProcess) : bool :=
  negb (bp_closing p) && match bp_error p with None => true | Some _ => false end
  && match returncode with None => true | Some _ => false end.

(** What the tasks of the front end do with the process. *)
Inductive BridgeOp :=
| BOpen (channel_id : string)
| BSend (k : nat) (message : dict)
| BCloseChannel (k : nat)
| BClose.

Definition bridge_op (op : BridgeOp) (p : BridgeProcess) : BridgeProcess :=
  match op with
  | BOpen id => fst (open_channel id p)
  | BSend k m => fst (channel_send k m p)
  | BCloseChannel k => fst (channel_close k p)
  | BClose => bridge_close p
  end.
End reading.
