(* ===== verification/TransportThms.v ===== *)
(** * The transport delivers each channel its events

    Whatever the chunks are in which the pipe hands over the bytes, the front end
    acts on the records the bridge has written, one after the other; each channel
    gets the events for it, in their order. *)

From stdpp Require Import base list strings list_numbers pretty.
From Stdlib Require Import ZArith Lia Ascii.
From S2P Require Import Prelude PyData PyStr Json Content PyText JsonText Jsonl Protocol SessionHost SessionHostThms Transport.

(** ** Lines *)

Lemma take_line_app l t : has_char LF l = false -> take_line (l +:+ NL +:+ t) = Some (l, t).
Proof.
  induction l as [|c l IH]; [done|]. cbn [has_char String.append take_line]. intros [Hc Hl]%orb_false_iff.
  rewrite Hc. by rewrite IH.
Qed.

Lemma take_line_none b : has_char LF b = false -> take_line b = None.
Proof. induction b as [|c b IH]; [done|]. cbn [has_char take_line]. intros [Hc Hb]%orb_false_iff. by rewrite Hc, IH. Qed.

Section records.
Context `{FloatText} `{FloatRead}.

Lemma encoded_record r : is_record r -> exists t, utf8_encode (dumps r) = String "{" t.
Proof. intros [_ [d ->]]. by eexists. Qed.

Lemma record_not_blank r : is_record r -> nonempty (bytes_strip (utf8_encode (dumps r))) = true.
Proof.
  intros [t ->]%encoded_record. unfold bytes_strip, strip_by. change (lstrip_by byte_space (String "{" t)) with (String "{" t).
  by destruct (rstrip_by_cons byte_space "{" t eq_refl) as [x ->].
Qed.

Lemma loads_bytes_record r : is_record r -> loads_bytes (utf8_encode (dumps r)) = Ok r.
Proof.
  intros Hr. unfold loads_bytes. destruct (record_brace r "" Hr) as [u Hu]. rewrite sapp_nil_r in Hu.
  rewrite encode_record_bytes, utf8_roundtrip; [by apply loads_dumps, Hr|by apply dumps_graphic, Hr|by exists u].
Qed.

(** ** Records instead of chunks *)

(** What the dispatcher does with a record. *)
Definition record_step (r : json) (p : BridgeProcess) : BridgeProcess :=
  if bp_reading p then
    match handle r p with
    | (p', Ok _) => p'
    | (p', Err e) => end_dispatch (Some e) p'
    end
  else p.

Lemma handle_buffer r b p : handle r (set_buffer b p) = (set_buffer b (fst (handle r p)), snd (handle r p)).
Proof.
  unfold handle, bind, lift, get, modify, ret, fail. destruct (typed_obj r) as [d|]; [|done]. destruct (jindex "type" d) as [kind|]; [|done].
  destruct (is_type ["bridge_ready"] kind); [destruct (jindex "protocol_version" d); [by case_bool_decide|done]|].
  destruct (is_type ["fatal"] kind); [by destruct (x <~ jindex "error" d ;; e <~ typed_obj x ;; jindex "message" e)|].
  destruct (is_type ["channel_event"] kind).
  { destruct (x <~ jindex "channel_id" d ;; channel_key x) as [key|]; [|done]. change (find_channel key (set_buffer b p)) with (find_channel key p).
    destruct (find_channel key p) as [k|]; [|done]. destruct (x <~ jindex "event" d ;; typed_obj x) as [event|]; [|done].
    simpl. destruct (bp_objects p !! k) as [c|]; [|done]. by destruct (deliver event c). }
  destruct (is_type ["channel_closed"] kind); [|done].
  destruct (x <~ jindex "channel_id" d ;; channel_key x) as [key|]; [|done]. change (find_channel key (set_buffer b p)) with (find_channel key p).
  by destruct (find_channel key p) as [k|].
Qed.

Lemma record_step_buffer r b p : record_step r (set_buffer b p) = set_buffer b (record_step r p).
Proof.
  unfold record_step. simpl. destruct (bp_reading p); [|done]. rewrite handle_buffer. by destruct (handle r p) as [p' [|e]].
Qed.

Lemma dispatch_record r b p : is_record r -> bp_reading p = true ->
  dispatch_line (utf8_encode (dumps r)) (set_buffer b p) = set_buffer b (record_step r p).
Proof.
  intros Hr Hp. rewrite <- record_step_buffer. unfold dispatch_line, record_step, bind, lift. simpl. by rewrite loads_bytes_record, Hp.
Qed.

(** Where a chunk ends: within the first line, or behind it. *)
Lemma split_line l t : forall b more, b +:+ more = l +:+ NL +:+ t ->
  (exists l', l = b +:+ l') \/ exists b', b = l +:+ NL +:+ b' /\ b' +:+ more = t.
Proof.
  induction l as [|c l IH]; intros b more Hb.
  - destruct b as [|x b]; [left; by exists ""|]. right. exists b. cbn in Hb. injection Hb as -> ->. done.
  - destruct b as [|x b]; [left; by exists (String c l)|]. cbn [String.append] in Hb. injection Hb as -> Hb.
    destruct (IH b more Hb) as [[l' ->]|(b' & -> & Hb')]; [left; by exists l'|right; by exists b'].
Qed.

(** What the reader does with the bytes it has: it acts on the complete records, and
    keeps the rest of an incomplete one. *)
Lemma dispatch_buffered_records todo : forall fuel b more p, Forall is_record todo -> (String.length b < fuel)%nat ->
  b +:+ more = record_lines todo -> bp_reading p = true ->
  exists now later b', todo = now ++ later /\ b = record_lines now +:+ b' /\
    dispatch_buffered fuel (set_buffer b p) = set_buffer b' (fold_left (fun p r => record_step r p) now p) /\
    (bp_reading (fold_left (fun p r => record_step r p) now p) = true -> b' +:+ more = record_lines later /\ has_char LF b' = false).
Proof.
  induction todo as [|r todo IH]; intros fuel b more p Hrs Hfuel Hb Hp.
  - assert (b = "") as -> by (by destruct b). exists [], [], "". split_and!; [done|done| |done]. destruct fuel; [lia|]. simpl. by rewrite Hp.
  - apply Forall_cons in Hrs as [Hr Hrs]. assert (Hlf : has_char LF (utf8_encode (dumps r)) = false) by (rewrite has_lf_encode; by apply dumps_no_lf, Hr).
    change (record_lines (r :: todo)) with ((utf8_encode (dumps r) +:+ NL) +:+ record_lines todo) in Hb. rewrite sapp_assoc in Hb.
    destruct (split_line _ _ _ _ Hb) as [[l' Hl]|(b2 & -> & Hb2)].
    + assert (Hn : has_char LF b = false) by (by eapply prefix_no_char). exists [], (r :: todo), b. split_and!; [done|done| |].
      * destruct fuel; [lia|]. simpl. by rewrite Hp, take_line_none.
      * intros _. split; [|done]. by rewrite Hb, <- sapp_assoc.
    + destruct fuel as [|fuel]; [lia|]. cbn [dispatch_buffered].
      set (b := utf8_encode (dumps r) +:+ NL +:+ b2). change (bp_reading (set_buffer b p)) with (bp_reading p).
      change (bp_read_buffer (set_buffer b p)) with b. rewrite Hp. cbn [negb]. change (take_line b) with (take_line (utf8_encode (dumps r) +:+ NL +:+ b2)). rewrite take_line_app, record_not_blank by done.
      change (set_buffer b2 (set_buffer _ p)) with (set_buffer b2 p). rewrite dispatch_record by done.
      destruct (bp_reading (record_step r p)) eqn:Hread.
      * destruct (IH fuel b2 more (record_step r p) Hrs) as (now & later & b' & -> & Hb' & Hd & Hl); try done.
        { rewrite !length_sapp in Hfuel. simpl in Hfuel. lia. }
        exists (r :: now), later, b'. split_and!; [done| |done|done]. unfold b. rewrite Hb'. cbn [record_lines foldr]. by rewrite <- !sapp_assoc.
      * exists [r], todo, b2. split_and!; [done|unfold b; cbn [record_lines foldr]; by rewrite sapp_nil_r, <- ?sapp_assoc| |simpl; by rewrite Hread]. destruct fuel; simpl; [done|]. by rewrite Hread.
Qed.

(** ** Traces

    What happens to the process: chunks, the end of the pipe and what the tasks of
    the front end do; and the same with the records in place of the chunks. *)

(** The end of the pipe is an error unless the process is being closed. *)
Inductive PipeStep := PChunk (bytes : string) | PEof (returncode : Z) | POp (op : BridgeOp).
Inductive TraceStep := TRecord (r : json) | TEof (error : option exn) | TOp (op : BridgeOp).

Definition pipe_step (s : PipeStep) (p : BridgeProcess) : BridgeProcess :=
  match s with PChunk c => read_chunk c p | PEof n => read_eof n p | POp op => bridge_op op p end.
Definition trace_step (s : TraceStep) (p : BridgeProcess) : BridgeProcess :=
  match s with
  | TRecord r => record_step r p
  | TEof e => if bp_reading p then end_dispatch (if bp_closing p then e else Some (default (Exn EAssertion "") e)) p else p
  | TOp op => bridge_op op p
  end.
Definition pipe_run (l : list PipeStep) (p : BridgeProcess) : BridgeProcess := fold_left (fun p s => pipe_step s p) l p.
Definition trace_run (l : list TraceStep) (p : BridgeProcess) : BridgeProcess := fold_left (fun p s => trace_step s p) l p.

Definition chunks (l : list PipeStep) : string := foldr (fun s b => match s with PChunk c => c +:+ b | _ => b end) "" l.
Definition trace_records (l : list TraceStep) : list json := omap (fun s => match s with TRecord r => Some r | _ => None end) l.

(** The trace does what the steps of the pipe do, in their order; a chunk brings
    records that it and the incomplete line [b] before it hold. *)
Inductive trace_of : string -> list PipeStep -> list TraceStep -> Prop :=
| trace_of_nil b : trace_of b [] []
| trace_of_chunk b c now b' pipe t : b +:+ c = record_lines now +:+ b' -> trace_of b' pipe t ->
    trace_of b (PChunk c :: pipe) (map TRecord now ++ t)
| trace_of_eof b n e pipe t : trace_of b pipe t -> trace_of b (PEof n :: pipe) (TEof e :: t)
| trace_of_op b op pipe t : trace_of b pipe t -> trace_of b (POp op :: pipe) (TOp op :: t).

Lemma bridge_op_buffer op b p : bridge_op op (set_buffer b p) = set_buffer b (bridge_op op p).
Proof.
  destruct op; simpl; unfold open_channel, channel_send, channel_close, bridge_send, bridge_close; simpl.
  - destruct (bp_error p); [done|]. destruct (bp_closing p); [done|]. by destruct (dhas channel_id (bp_channels p)).
  - destruct (bp_objects p !! k); [|done]. by destruct (bp_stdin_closed p).
  - destruct (bp_objects p !! k); [|done]. destruct (ch_closed _); [done|]. by destruct (bp_stdin_closed p).
  - destruct (bp_closing p); [done|]. by destruct (bp_stdin_closed p).
Qed.

Lemma trace_step_buffer s b p : trace_step s (set_buffer b p) = set_buffer b (trace_step s p).
Proof. destruct s; simpl; [apply record_step_buffer| |apply bridge_op_buffer]. by destruct (bp_reading p). Qed.

Lemma trace_run_buffer l b : forall p, trace_run l (set_buffer b p) = set_buffer b (trace_run l p).
Proof. induction l as [|s l IH]; intros p; [done|]. simpl. by rewrite trace_step_buffer, IH. Qed.

Lemma trace_run_records now l p : trace_run (map TRecord now ++ l) p = trace_run l (fold_left (fun p r => record_step r p) now p).
Proof. revert p. induction now as [|r now IH]; intros p; [done|]. simpl. apply IH. Qed.

Lemma trace_records_app now l : trace_records (map TRecord now ++ l) = now ++ trace_records l.
Proof. induction now as [|r now IH]; [done|]. cbn. by f_equal. Qed.

Lemma read_eof_reading n p : bp_reading (read_eof n p) = false.
Proof. unfold read_eof. destruct (bp_reading p) eqn:E; [|done]. simpl. by destruct (nonempty _). Qed.

Lemma bridge_op_frame op p : bp_reading (bridge_op op p) = bp_reading p /\ bp_read_buffer (bridge_op op p) = bp_read_buffer p /\
  bp_error (bridge_op op p) = bp_error p.
Proof.
  destruct op; simpl; unfold open_channel, channel_send, channel_close, bridge_send, bridge_close.
  - destruct (bp_error p) eqn:E; [done|]. destruct (bp_closing p); [done|]. by destruct (dhas channel_id (bp_channels p)).
  - destruct (bp_objects p !! k); [|done]. by destruct (bp_stdin_closed p).
  - destruct (bp_objects p !! k); [|done]. destruct (ch_closed _); [done|]. by destruct (bp_stdin_closed p).
  - destruct (bp_closing p); [done|]. by destruct (bp_stdin_closed p).
Qed.

Lemma set_buffer_same p : set_buffer (bp_read_buffer p) p = p.
Proof. by destruct p. Qed.

(** The chunks do not matter: the process does what the records say. *)
Lemma pipe_refines pipe : forall b0 p rs more, Forall is_record rs ->
  (bp_reading p = true -> bp_read_buffer p = b0 /\ bp_read_buffer p +:+ chunks pipe +:+ more = record_lines rs /\ has_char LF (bp_read_buffer p) = false) ->
  exists trace b, trace_of b0 pipe trace /\ trace_records trace `prefix_of` rs /\
    pipe_run pipe p = set_buffer b (trace_run trace p) /\
    (bp_reading (pipe_run pipe p) = true -> exists later, rs = trace_records trace ++ later /\ b +:+ more = record_lines later /\ has_char LF b = false).
Proof.
  induction pipe as [|s pipe IH]; intros b0 p rs more Hrs Hb.
  - exists [], (bp_read_buffer p). split_and!; [constructor|apply prefix_nil|by rewrite set_buffer_same|]. intros Hp. exists rs. by destruct (Hb Hp) as (_ & ?).
  - destruct s as [c|n|op]; simpl.
    + unfold read_chunk. destruct (bp_reading p) eqn:Hp; simpl negb; cbv iota.
      2:{ destruct (IH (b0 +:+ c) p rs more Hrs) as (trace & b & Htr & Hrest); [by rewrite Hp|]. exists trace, b. split; [|done].
          by apply (trace_of_chunk b0 c [] (b0 +:+ c)). }
      destruct (Hb eq_refl) as (Hb0 & Hbytes & _). simpl in Hbytes. rewrite !sapp_assoc in Hbytes. rewrite <- (sapp_assoc (bp_read_buffer p)) in Hbytes.
      destruct (dispatch_buffered_records rs (S (String.length (bp_read_buffer p +:+ c))) (bp_read_buffer p +:+ c) (chunks pipe +:+ more) p Hrs (Nat.lt_succ_diag_r _) Hbytes Hp)
        as (now & later & b' & -> & Hb' & Hd & Hl). rewrite Hd. set (pa := fold_left _ now p) in *. apply Forall_app in Hrs as [Hnow Hlater].
      destruct (IH b' (set_buffer b' pa) later more Hlater) as (trace & b & Hops & Hrec & Hrun & Hend).
      { intros Hr. destruct (Hl Hr) as [H1 H2]. done. }
      exists (map TRecord now ++ trace), b. rewrite trace_records_app, trace_run_records.
      split_and!; [apply (trace_of_chunk _ _ _ b'); by rewrite <- ?Hb0|by apply prefix_app| |].
      * fold pa. rewrite Hrun, trace_run_buffer. done.
      * intros Hr. destruct (Hend Hr) as (later' & -> & H1 & H2). exists later'. by rewrite app_assoc.
    + set (e := if nonempty (bytes_strip (bp_read_buffer p)) then Some (Exn EValueError "Bridge output ended without a final newline")
                else if bp_closing p then None else Some (Exn ERuntimeError ("Bridge exited unexpectedly (" +:+ pretty n +:+ ")"))).
      assert (He : read_eof n p = trace_step (TEof e) p).
      { unfold read_eof, e. simpl. destruct (bp_reading p); [|done]. simpl. destruct (nonempty _); by destruct (bp_closing p). }
      destruct (IH b0 (read_eof n p) rs more Hrs) as (trace & b & Hops & Hrec & Hrun & Hend); [by rewrite read_eof_reading|].
      exists (TEof e :: trace), b. split_and!; [by constructor|done| |done]. rewrite Hrun, He. done.
    + destruct (IH b0 (bridge_op op p) rs more Hrs) as (trace & b & Hops & Hrec & Hrun & Hend).
      { destruct (bridge_op_frame op p) as (-> & -> & _). done. }
      exists (TOp op :: trace), b. split_and!; [by constructor|done..].
Qed.

(** ** What a channel gets *)

(** What a record says to the channel [id]: an event, or that it is closed ([None]). *)
Definition event_for (id : string) (r : json) : option (option dict) :=
  match r with
  | JObj d =>
      if negb (bool_decide (jget "channel_id" d = JStr id)) then None else
      if is_type ["channel_event"] (jget "type" d) then match jget "event" d with JObj e => Some (Some e) | _ => None end else
      if is_type ["channel_closed"] (jget "type" d) then Some None else None
  | _ => None
  end.

Definition step_event (id : string) (s : TraceStep) : list (option dict) :=
  match s with TRecord r => match event_for id r with Some x => [x] | None => [] end | _ => [] end.

(** The events for the channel [id] in a trace, up to its closing. *)
Fixpoint channel_events (id : string) (l : list TraceStep) : list (option dict) :=
  match l with
  | [] => []
  | s :: l' => match step_event id s with
               | [None] => [None]
               | x => x ++ channel_events id l'
               end
  end.

Lemma channel_events_snoc id l s :
  channel_events id (l ++ [s]) = if ended (channel_events id l) then channel_events id l else channel_events id l ++ step_event id s.
Proof.
  assert (Hs : forall s0, step_event id s0 = [] \/ step_event id s0 = [None] \/ exists e, step_event id s0 = [Some e]).
  { intros [r| |]; simpl; auto. destruct (event_for id r) as [[e|]|]; eauto. }
  induction l as [|s0 l IH]; simpl.
  - destruct (Hs s) as [->|[->|[e ->]]]; by rewrite ?app_nil_r.
  - destruct (Hs s0) as [->|[->|[e ->]]]; simpl; [exact IH|done|]. rewrite IH. by destruct (ended (channel_events id l)).
Qed.

Definition last_seq (l : list (option dict)) : Z := default 0 (event_seq <$> last (omap id l)).

Lemma last_seq_event l e : last_seq (l ++ [Some e]) = event_seq e.
Proof. unfold last_seq. rewrite omap_app. simpl. by rewrite last_snoc. Qed.
Lemma last_seq_close l : last_seq (l ++ [None]) = last_seq l.
Proof. unfold last_seq. rewrite omap_app. simpl. by rewrite app_nil_r. Qed.

(** What a channel that is lost with [error] gets at the end. *)
Definition lost_message (e : exn) (n : Z) : dict := fatal_message e ++ [("event_sequence", JInt (n + 1)); ("resume_after", JInt (n + 1 - 1))].
Definition lost (error : option exn) (n : Z) : list (option dict) :=
  match error with Some e => [Some (lost_message e n)] | None => [] end ++ [None].

Lemma finish_open error c : ch_closed c = false ->
  finish error c = MkChannel (ch_id c) (ch_messages c ++ lost error (ch_sequence c)) true
                     (match error with Some _ => ch_sequence c + 1 | None => ch_sequence c end).
Proof. intros Hc. unfold finish, lost. rewrite Hc. destruct error as [e|]; [|done]. simpl. by rewrite <- app_assoc. Qed.

Lemma finish_closed error c : ch_closed c = true -> finish error c = c.
Proof. intros Hc. unfold finish. by rewrite Hc. Qed.

Lemma finish_idem error c : finish error (finish error c) = finish error c.
Proof. destruct (ch_closed c) eqn:E; [by rewrite !(finish_closed error c) by done|]. by rewrite finish_closed; rewrite finish_open. Qed.

Lemma finish_all_lookup error ks : forall l k c, l !! k = Some c ->
  finish_all error l ks !! k = Some (if bool_decide (k ∈ ks) then finish error c else c).
Proof.
  induction ks as [|k0 ks IH]; intros l k c Hk; [done|].
  change (finish_all error l (k0 :: ks)) with (finish_all error (alter (finish error) k0 l) ks). destruct (decide (k0 = k)) as [->|Hne].
  - rewrite (IH _ k (finish error c)) by (by rewrite list_lookup_alter_eq, Hk).
    rewrite (bool_decide_eq_true_2 (k ∈ k :: ks)) by left. case_bool_decide; [by rewrite finish_idem|done].
  - rewrite (IH _ k c) by (by rewrite list_lookup_alter_ne). do 2 f_equal. case_bool_decide as H1; case_bool_decide as H2; try done; exfalso.
    + apply H2. by right.
    + apply H1. apply elem_of_cons in H2 as [->|H2]; done.
Qed.

Lemma finish_all_length error ks : forall l, length (finish_all error l ks) = length l.
Proof. induction ks as [|k ks IH]; intros l; [done|]. etransitivity; [apply IH|apply length_alter]. Qed.

(** The channels a process knows are open objects of their names. *)
Record channels_wf (p : BridgeProcess) : Prop := {
  cw_keys : NoDup (dkeys (bp_channels p));
  cw_open : forall id k, dget id (bp_channels p) = Some k -> exists c, bp_objects p !! k = Some c /\ ch_id c = id /\ ch_closed c = false;
}.

(** What a record that is accepted does: nothing to any channel, an event, or a
    closing. *)
Inductive handled (r : json) (p p' : BridgeProcess) : Prop :=
| handled_none : bp_channels p' = bp_channels p -> bp_objects p' = bp_objects p ->
    (forall id k, dget id (bp_channels p) = Some k -> event_for id r = None) -> handled r p p'
| handled_event id k c e : dget id (bp_channels p) = Some k -> bp_objects p !! k = Some c -> event_for id r = Some (Some e) ->
    (forall id', id' <> id -> event_for id' r = None) -> bp_channels p' = bp_channels p ->
    bp_objects p' = <[k := MkChannel (ch_id c) (ch_messages c ++ [Some e]) (ch_closed c) (event_seq e)]> (bp_objects p) -> handled r p p'
| handled_close id k : dget id (bp_channels p) = Some k -> event_for id r = Some None ->
    (forall id', id' <> id -> event_for id' r = None) -> bp_channels p' = dpop id (bp_channels p) ->
    bp_objects p' = alter (finish None) k (bp_objects p) -> handled r p p'.

Lemma is_type_disjoint a b ty : is_type [a] ty = true -> a <> b -> is_type [b] ty = false.
Proof. destruct ty; simpl; try done. rewrite !orb_false_r. intros ->%String.eqb_eq Hab. by apply String.eqb_neq. Qed.

Lemma event_for_other d id id' : jget "channel_id" d = JStr id -> id' <> id -> event_for id' (JObj d) = None.
Proof. intros H1 Hne. unfold event_for. rewrite H1. by rewrite bool_decide_eq_false_2 by congruence. Qed.

Lemma event_for_here d id : jget "channel_id" d = JStr id ->
  event_for id (JObj d) = if is_type ["channel_event"] (jget "type" d) then match jget "event" d with JObj e => Some (Some e) | _ => None end
                          else if is_type ["channel_closed"] (jget "type" d) then Some None else None.
Proof. intros H1. unfold event_for. by rewrite H1, bool_decide_eq_true_2. Qed.

(** A record for no channel the process knows. *)
Lemma event_for_unknown d key p id k : (x <~ jindex "channel_id" d ;; channel_key x) = Ok key -> find_channel key p = None ->
  dget id (bp_channels p) = Some k -> event_for id (JObj d) = None.
Proof.
  intros Hk Hf Hid. destruct (jindex "channel_id" d) as [v|] eqn:Ev; [|done]. apply jindex_jget in Ev. simpl in Hk. unfold event_for. rewrite Ev.
  case_bool_decide as Hv; [|done]. exfalso. subst v. rewrite Hv in Hk. injection Hk as <-. simpl in Hf. congruence.
Qed.

Lemma channel_key_found d key p k : (x <~ jindex "channel_id" d ;; channel_key x) = Ok key -> find_channel key p = Some k ->
  exists id, key = Some id /\ jget "channel_id" d = JStr id /\ dget id (bp_channels p) = Some k.
Proof.
  intros Hk Hf. destruct (jindex "channel_id" d) as [v|] eqn:Ev; [|done]. apply jindex_jget in Ev. simpl in Hk.
  destruct v; try done; injection Hk as <-; simpl in Hf; try done. by eexists.
Qed.

Lemma handle_effect r p p' : channels_wf p -> handle r p = (p', Ok tt) ->
  handled r p p' /\ bp_reading p' = bp_reading p /\ bp_error p' = bp_error p /\ bp_closing p' = bp_closing p.
Proof.
  intros Hw. unfold handle, bind, lift, get, modify, ret, fail. destruct (typed_obj r) as [d|] eqn:Er; [|done].
  assert (r = JObj d) as -> by (destruct r; try done; by injection Er as ->). clear Er.
  destruct (jindex "type" d) as [kind|] eqn:Ek; [|done]. apply jindex_jget in Ek. subst kind.
  destruct (is_type ["bridge_ready"] (jget "type" d)) eqn:T1.
  { destruct (jindex "protocol_version" d); [|done]. case_bool_decide; [|done]. intros [= <-]. split; [|done]. apply handled_none; [done..|].
    intros id k _. unfold event_for. rewrite (is_type_disjoint _ "channel_event" _ T1), (is_type_disjoint _ "channel_closed" _ T1) by done.
    by destruct (negb _). }
  destruct (is_type ["fatal"] (jget "type" d)); [by destruct (x <~ jindex "error" d ;; e <~ typed_obj x ;; jindex "message" e)|].
  destruct (is_type ["channel_event"] (jget "type" d)) eqn:T2.
  - destruct (x <~ jindex "channel_id" d ;; channel_key x) as [key|] eqn:Eid; [|done].
    destruct (find_channel key p) as [k|] eqn:Ef; [|intros [= <-]; split; [|done]; apply handled_none; [done..|]; intros; by eapply event_for_unknown].
    destruct (channel_key_found _ _ _ _ Eid Ef) as (id & -> & Hid & Hd).
    destruct (jindex "event" d) as [v|] eqn:Ee; [|done]. apply jindex_jget in Ee. simpl. destruct v as [| | | | | |e]; try done. simpl.
    destruct (cw_open p Hw id k Hd) as (c & Ho & Hcid & Hcc). rewrite Ho. unfold deliver.
    destruct (x <~ jindex "event_sequence" e ;; typed_int x) as [z|] eqn:Ez; [|done]. apply typed_seq in Ez as [<- _]. intros [= <-].
    split; [|done]. apply (handled_event _ _ _ id k c e); try done; [by rewrite event_for_here, T2, Ee|]. intros id' Hne. by apply (event_for_other d id).
  - destruct (is_type ["channel_closed"] (jget "type" d)) eqn:T3; [|done].
    destruct (x <~ jindex "channel_id" d ;; channel_key x) as [key|] eqn:Eid; [|done].
    destruct (find_channel key p) as [k|] eqn:Ef; [|intros [= <-]; split; [|done]; apply handled_none; [done..|]; intros; by eapply event_for_unknown].
    destruct (channel_key_found _ _ _ _ Eid Ef) as (id & -> & Hid & Hd). intros [= <-]. split; [|done].
    apply (handled_close _ _ _ id k); try done; [by rewrite event_for_here, T2, T3|]. intros id' Hne. by apply (event_for_other d id).
Qed.

(** A record that is refused changes nothing. *)
Lemma handle_error r p p' e : handle r p = (p', Err e) -> p' = p.
Proof.
  unfold handle, bind, lift, get, modify, ret, fail. destruct (typed_obj r) as [d|]; [|by intros [= <-]].
  destruct (jindex "type" d) as [kind|]; [|by intros [= <-]].
  destruct (is_type ["bridge_ready"] kind); [destruct (jindex "protocol_version" d); [case_bool_decide|]; by intros [= <-]|].
  destruct (is_type ["fatal"] kind); [destruct (x <~ jindex "error" d ;; e <~ typed_obj x ;; jindex "message" e); by intros [= <-]|].
  destruct (is_type ["channel_event"] kind).
  { destruct (x <~ jindex "channel_id" d ;; channel_key x) as [key|]; [|by intros [= <-]].
    destruct (find_channel key p) as [k|]; [|done]. destruct (x <~ jindex "event" d ;; typed_obj x) as [event|]; [|by intros [= <-]].
    destruct (bp_objects p !! k) as [c|]; [|done]. destruct (deliver event c); [done|by intros [= <-]]. }
  destruct (is_type ["channel_closed"] kind); [|by intros [= <-]].
  destruct (x <~ jindex "channel_id" d ;; channel_key x) as [key|]; [|by intros [= <-]]. by destruct (find_channel key p).
Qed.

(** ** The invariant of a trace *)

(** While the process reads: a channel has got exactly the events since it was
    opened. *)
Definition channel_live (l : list TraceStep) (p : BridgeProcess) (k : nat) (c : BridgeChannel) : Prop :=
  exists before after, l = before ++ TOp (BOpen (ch_id c)) :: after /\ ch_messages c = channel_events (ch_id c) after /\
    ch_closed c = ended (ch_messages c) /\ (ch_closed c = false -> dget (ch_id c) (bp_channels p) = Some k) /\ ch_sequence c = last_seq (ch_messages c) /\
    length (bp_objects (trace_run before new_bridge)) = k.

Record live (l : list TraceStep) (p : BridgeProcess) : Prop := {
  lv_wf : channels_wf p;
  lv_error : bp_error p = None;
  lv_channels : forall k c, bp_objects p !! k = Some c -> channel_live l p k c;
}.

(** Afterwards: it has got the events up to the end, and a channel that was open then
    has been told. *)
Definition channel_delivered (l : list TraceStep) (p : BridgeProcess) (k : nat) (c : BridgeChannel) : Prop :=
  exists before after, l = before ++ TOp (BOpen (ch_id c)) :: after /\ length (bp_objects (trace_run before new_bridge)) = k /\
    ch_messages c = channel_events (ch_id c) after ++
      (if bp_reading p || ended (channel_events (ch_id c) after) then []
       else lost (bp_error p) (last_seq (channel_events (ch_id c) after))).

Definition delivered (l : list TraceStep) (p : BridgeProcess) : Prop :=
  exists l0, l0 `prefix_of` l /\ (bp_reading p = true -> l0 = l) /\ forall k c, bp_objects p !! k = Some c -> channel_delivered l0 p k c.

Definition over (l : list TraceStep) (p : BridgeProcess) : Prop :=
  bp_reading p = false /\ (bp_error p <> None \/ bp_closing p = true) /\ delivered l p.

Lemma live_delivered l p : bp_reading p = true -> live l p -> delivered l p.
Proof.
  intros Hr [_ _ Hc]. exists l. split_and!; [done|done|]. intros k c Hk. destruct (Hc k c Hk) as (before & after & Hl & Hm & _ & _ & _ & Hat).
  exists before, after. rewrite Hr. simpl. by rewrite app_nil_r.
Qed.

(** The dispatcher ends. *)
Lemma live_end l s p error : live l p -> (error <> None \/ bp_closing p = true) -> over (l ++ [s]) (end_dispatch error p).
Proof.
  intros [Hw _ Hc] He. split_and!; [done|done|]. exists l. split_and!; [by apply prefix_app_r|done|]. simpl. intros k c Hk.
  destruct (bp_objects p !! k) as [c0|] eqn:E.
  2:{ apply lookup_lt_Some in Hk. rewrite finish_all_length in Hk. apply lookup_ge_None in E. lia. }
  rewrite (finish_all_lookup _ _ _ _ _ E) in Hk. destruct (Hc k c0 E) as (before & after & Hl & Hm & Hcl & Hopen & Hseq & Hat).
  exists before, after. destruct (ch_closed c0) eqn:Hclosed.
  - assert (c = c0) as -> by (case_bool_decide; [rewrite finish_closed in Hk by done|]; by injection Hk as ->).
    split_and!; [done|done|]. simpl. rewrite <- Hm, <- Hcl. by rewrite app_nil_r.
  - specialize (Hopen eq_refl). apply dget_Some_in in Hopen. rewrite bool_decide_eq_true_2, finish_open in Hk by
      (try done; unfold dvalues; by apply (list_elem_of_fmap_2 snd _ (ch_id c0, k))).
    injection Hk as <-. simpl. split_and!; [done|done|]. rewrite <- Hm, <- Hcl. simpl. by rewrite Hm, Hseq, <- Hm.
Qed.

(** A step that touches no channel. *)
Lemma live_silent l s p p' : live l p -> bp_channels p' = bp_channels p -> bp_objects p' = bp_objects p -> bp_error p' = bp_error p ->
  (forall id k, dget id (bp_channels p) = Some k -> step_event id s = []) -> live (l ++ [s]) p'.
Proof.
  intros [[W1 W2] He Hc] H1 H2 H3 Hs. split; [split; rewrite ?H1, ?H2; done|congruence|]. intros k c. rewrite H2. intros Hk.
  destruct (Hc k c Hk) as (before & after & -> & Hm & Hcl & Hopen & Hseq & Hat). exists before, (after ++ [s]).
  split_and!; [by rewrite <- app_assoc| |done|by rewrite H1|done|done]. rewrite channel_events_snoc, <- Hm, <- Hcl.
  destruct (ch_closed c); [done|]. by rewrite (Hs _ k), app_nil_r by auto.
Qed.

Lemma ended_channel_event l e : ended (l ++ [Some e]) = ended l.
Proof. by rewrite ended_app, orb_false_r. Qed.

(** What stays true of a channel when a record is for another one. *)
Lemma channel_live_other l s p p' k c : channel_live l p k c ->
  (ch_closed c = false -> dget (ch_id c) (bp_channels p') = Some k) -> (ch_closed c = false -> step_event (ch_id c) s = []) ->
  channel_live (l ++ [s]) p' k c.
Proof.
  intros (before & after & -> & Hm & Hcl & Hopen & Hseq & Hat) Hp Hs. exists before, (after ++ [s]).
  split_and!; [by rewrite <- app_assoc| |done|done|done|done]. rewrite channel_events_snoc, <- Hm, <- Hcl.
  destruct (ch_closed c); [done|]. by rewrite Hs, app_nil_r.
Qed.

Lemma live_handled l r p p' : live l p -> handled r p p' -> bp_error p' = bp_error p -> live (l ++ [TRecord r]) p'.
Proof.
  intros Hl [H1 H2 H3|id k c e Hd Ho Hev Hoth H1 H2|id k Hd Hev Hoth H1 H2] He.
  - apply (live_silent l _ p); try done. intros id k Hk. simpl. by rewrite (H3 id k Hk).
  - destruct Hl as [Hw Hne Hc]. destruct (cw_open p Hw id k Hd) as (c' & Ho' & Hcid & Hcc). assert (c' = c) as -> by congruence. clear Ho'.
    split; [|congruence|].
    + split; [rewrite H1; apply Hw|]. rewrite H1, H2. intros id' k' Hd'. destruct (decide (k = k')) as [<-|Hk].
      * rewrite list_lookup_insert_eq by (by eapply lookup_lt_Some). eexists. split; [done|]. simpl.
        destruct (cw_open p Hw id' k Hd') as (c'' & Hc'' & Hi & _). split; congruence.
      * rewrite list_lookup_insert_ne by done. by apply Hw.
    + intros k' c'. rewrite H2. destruct (decide (k = k')) as [<-|Hk].
      * rewrite list_lookup_insert_eq by (by eapply lookup_lt_Some). intros [= <-].
        destruct (Hc k c Ho) as (before & after & -> & Hm & Hcl & Hopen & Hseq & Hat). exists before, (after ++ [TRecord r]). simpl.
        rewrite channel_events_snoc, <- Hm, <- Hcl, Hcc, Hcid. simpl. rewrite Hev, ended_channel_event, last_seq_event, H1.
        split_and!; [by rewrite <- app_assoc|done|congruence|done|done|done].
      * rewrite list_lookup_insert_ne by done. intros Hk'. apply (channel_live_other l _ p); [by apply Hc| |].
        { rewrite H1. by destruct (Hc k' c' Hk') as (? & ? & _ & _ & _ & ? & _). }
        { intros Hop. simpl. rewrite Hoth; [done|]. intros Heq. destruct (Hc k' c' Hk') as (? & ? & _ & _ & _ & Hopen & _).
          specialize (Hopen Hop). rewrite Heq in Hopen. congruence. }
  - destruct Hl as [Hw Hne Hc]. destruct (cw_open p Hw id k Hd) as (c & Ho & Hcid & Hcc). split; [|congruence|].
    + split; [rewrite H1; by apply dpop_NoDup, Hw|]. rewrite H1, H2. intros id' k' Hd'. apply dget_dpop in Hd' as [Hne' Hd']; [|apply Hw].
      destruct (cw_open p Hw id' k' Hd') as (c' & Ho' & Hcid' & Hcc'). exists c'. split; [|done]. rewrite list_lookup_alter_ne; [done|]. intros ->. congruence.
    + intros k' c'. rewrite H2. destruct (decide (k = k')) as [<-|Hk].
      * rewrite list_lookup_alter_eq, Ho. simpl. rewrite finish_open by done. intros [= <-].
        destruct (Hc k c Ho) as (before & after & -> & Hm & Hcl & Hopen & Hseq & Hat). exists before, (after ++ [TRecord r]). simpl.
        rewrite channel_events_snoc, <- Hm, <- Hcl, Hcc, Hcid. simpl. rewrite Hev, last_seq_close. unfold lost. simpl.
        split_and!; [by rewrite <- app_assoc|done|by rewrite ended_app, orb_true_r|done|done|done].
      * rewrite list_lookup_alter_ne by done. intros Hk'. destruct (Hc k' c' Hk') as (? & ? & _ & _ & _ & Hopen & _).
        assert (Hid : ch_closed c' = false -> ch_id c' <> id) by (intros Hop Heq; specialize (Hopen Hop); rewrite Heq in Hopen; congruence).
        apply (channel_live_other l _ p); [by apply Hc| |].
        { intros Hop. rewrite H1, dget_dpop_ne; [auto|]. intros ->. by apply Hid. }
        { intros Hop. simpl. by rewrite Hoth by auto. }
Qed.

Lemma live_open l id p : length (bp_objects (trace_run l new_bridge)) = length (bp_objects p) -> live l p -> live (l ++ [TOp (BOpen id)]) (fst (open_channel id p)).
Proof.
  intros Hat Hl. unfold open_channel. rewrite (lv_error _ _ Hl).
  destruct (bp_closing p); [by apply (live_silent l _ p)|]. destruct (dhas id (bp_channels p)) eqn:Hh; [by apply (live_silent l _ p)|].
  apply dhas_false in Hh. destruct Hl as [Hw Hne Hc]. split; simpl; [|done|].
  - split; simpl; [by apply dset_NoDup, Hw|]. intros id' k' Hd. destruct (decide (id = id')) as [->|Hd'].
    + rewrite dget_dset_eq in Hd. injection Hd as <-. rewrite lookup_app_r, Nat.sub_diag by lia. by eexists.
    + rewrite dget_dset_ne in Hd by done. destruct (cw_open p Hw id' k' Hd) as (c & Ho & Hi). exists c. split; [|done]. by apply lookup_app_l_Some.
  - intros k c Hk. apply lookup_app_Some in Hk as [Hk|[Hge Hk]].
    + apply (channel_live_other l _ p); [by apply Hc| |done]. simpl. intros Hop. destruct (Hc k c Hk) as (? & ? & _ & _ & _ & Hopen & _).
      specialize (Hopen Hop). rewrite dget_dset_ne; [done|]. intros ->. congruence.
    + destruct (k - length (bp_objects p))%nat eqn:Ek; [|done]. injection Hk as <-. exists l, []. simpl. split_and!; try done.
      * intros _. rewrite dget_dset_eq. f_equal. lia.
      * lia.
Qed.

Definition trace_inv (l : list TraceStep) (p : BridgeProcess) : Prop := bp_reading p = true /\ live l p \/ over l p.

Lemma delivered_same l s p p' : bp_reading p = false -> bp_reading p' = bp_reading p -> bp_error p' = bp_error p ->
  bp_objects p' = bp_objects p -> delivered l p -> delivered (l ++ [s]) p'.
Proof.
  intros Hr H1 H2 H3 (l0 & Hl & _ & Hc). exists l0. rewrite H1. split_and!; [by apply prefix_app_r|congruence|]. rewrite H3. intros k c Hk.
  destruct (Hc k c Hk) as (before & after & Hl0 & Hat & Hm). exists before, after. by rewrite H1, H2.
Qed.

Lemma other_op_frame op p : (forall id, op <> BOpen id) ->
  bp_channels (bridge_op op p) = bp_channels p /\ bp_objects (bridge_op op p) = bp_objects p /\
  (bp_closing p = true -> bp_closing (bridge_op op p) = true).
Proof.
  intros Hop. destruct op; simpl; unfold channel_send, channel_close, bridge_send, bridge_close; [by destruct (Hop channel_id)|..].
  - destruct (bp_objects p !! k); [|done]. by destruct (bp_stdin_closed p).
  - destruct (bp_objects p !! k); [|done]. destruct (ch_closed _); [done|]. by destruct (bp_stdin_closed p).
  - destruct (bp_closing p); [done|]. by destruct (bp_stdin_closed p).
Qed.

#[export] Instance is_open_dec op : Decision (exists id, op = BOpen id).
Proof. destruct op; [left; by eexists|right; by intros []..]. Defined.

Lemma trace_inv_step l s p : trace_run l new_bridge = p -> trace_inv l p -> trace_inv (l ++ [s]) (trace_step s p).
Proof.
  intros Hrun [[Hr Hl]|Ho]; destruct s as [r|e|op]; simpl.
  - unfold record_step. rewrite Hr. destruct (handle r p) as [p' [[]|e]] eqn:Eh.
    + destruct (handle_effect r p p' (lv_wf _ _ Hl) Eh) as (Hh & H1 & H2 & _). left. split; [congruence|]. by apply (live_handled l r p).
    + apply handle_error in Eh as ->. right. apply live_end; [done|by left].
  - rewrite Hr. right. apply live_end; [done|]. destruct (bp_closing p); [by right|by left].
  - destruct (bridge_op_frame op p) as (F1 & _ & F3). left. split; [congruence|]. destruct (decide (exists id, op = BOpen id)) as [[id ->]|Hop]; [by apply live_open; [rewrite Hrun|]|].
    destruct (other_op_frame op p) as (G1 & G2 & _); [intros id ->; apply Hop; by exists id|]. by apply (live_silent l _ p).
  - destruct Ho as (Hr & He & Hd). right. unfold record_step. rewrite Hr. split_and!; [done|done|]. by apply (delivered_same l _ p).
  - destruct Ho as (Hr & He & Hd). right. rewrite Hr. split_and!; [done|done|]. by apply (delivered_same l _ p).
  - destruct Ho as (Hr & He & Hd). right. destruct (bridge_op_frame op p) as (F1 & _ & F3). destruct (decide (exists id, op = BOpen id)) as [[id ->]|Hop].
    + simpl. unfold open_channel. destruct (bp_error p) as [x|] eqn:Ex.
      * simpl. split_and!; [done|by left; rewrite Ex|]. by apply (delivered_same l _ p).
      * destruct He as [He|He]; [done|]. rewrite He. simpl. split_and!; [done|by right|]. by apply (delivered_same l _ p).
    + destruct (other_op_frame op p) as (G1 & G2 & G3); [intros id ->; apply Hop; by exists id|]. split_and!; [congruence| |].
      * destruct He as [He|He]; [left; congruence|right; auto].
      * by apply (delivered_same l _ p).
Qed.

Lemma trace_inv_run l : trace_inv l (trace_run l new_bridge).
Proof.
  induction l as [|s l IH] using rev_ind.
  - left. split; [done|]. split; [split; [constructor|done]|done|done].
  - replace (trace_run (l ++ [s]) new_bridge) with (trace_step s (trace_run l new_bridge)) by (unfold trace_run; by rewrite fold_left_app). by apply trace_inv_step.
Qed.

Lemma trace_delivered l : delivered l (trace_run l new_bridge).
Proof. destruct (trace_inv_run l) as [[Hr Hl]|(_ & _ & Hd)]; [by apply live_delivered|done]. Qed.

Lemma numbered_snoc n l m : numbered_from n l -> event_seq m = n + Z.of_nat (length l) + 1 -> numbered_from n (l ++ [m]).
Proof.
  unfold numbered_from. intros Hl Hm. rewrite map_app, Hl, length_app, Nat2Z.inj_add, seqZ_app by lia. f_equal. simpl.
  rewrite seqZ_cons, seqZ_nil by lia. f_equal. lia.
Qed.

Lemma last_seq_numbered l : numbered_from 0 (omap id l) -> last_seq l = Z.of_nat (length (omap id l)).
Proof.
  intros Hn. unfold last_seq. destruct (omap id l) as [|x l' _] eqn:E using rev_ind; [done|]. rewrite last_snoc. simpl.
  unfold numbered_from in Hn. rewrite length_app in *. simpl length in *. rewrite Nat.add_1_r, seqZ_S, map_app in Hn.
  apply (f_equal last) in Hn. simpl map in Hn. rewrite !last_snoc in Hn. injection Hn as ->. lia.
Qed.

(** A fatal event at the end continues the numbers. *)
Lemma lost_numbered l error : numbered_from 0 (omap id l) -> numbered_from 0 (omap id (l ++ lost error (last_seq l))).
Proof.
  intros Hn. rewrite omap_app. unfold lost. destruct error as [e|]; simpl; [|by rewrite app_nil_r]. apply numbered_snoc; [done|].
  rewrite (last_seq_numbered l Hn). unfold event_seq. simpl. lia.
Qed.
End records.

(** What a channel has got. *)
Lemma channel_delivery `{FloatText} `{FloatRead} rs pipe more :
  Forall is_record rs -> chunks pipe +:+ more = record_lines rs ->
  let p := pipe_run pipe new_bridge in
  exists trace, trace_of "" pipe trace /\ trace_records trace `prefix_of` rs /\
    (bp_reading p = true -> exists later, rs = trace_records trace ++ later /\
       bp_read_buffer p +:+ more = record_lines later /\ has_char LF (bp_read_buffer p) = false) /\
    forall k c, bp_objects p !! k = Some c ->
      exists before after, before ++ TOp (BOpen (ch_id c)) :: after `prefix_of` trace /\
        (bp_reading p = true -> before ++ TOp (BOpen (ch_id c)) :: after = trace) /\
        length (bp_objects (trace_run before new_bridge)) = k /\
        ch_messages c = channel_events (ch_id c) after ++
          (if bp_reading p || ended (channel_events (ch_id c) after) then []
           else lost (bp_error p) (last_seq (channel_events (ch_id c) after))) /\
        (numbered_from 0 (omap id (channel_events (ch_id c) after)) -> numbered_from 0 (omap id (ch_messages c))).
Proof.
  intros Hrs Hb p. destruct (pipe_refines pipe "" new_bridge rs more Hrs) as (trace & b & Hops & Hrec & Hrun & Hend).
  { intros _. simpl. by split. }
  exists trace. fold p in Hrun, Hend. split_and!; [done|done| |].
  - intros Hr. destruct (Hend Hr) as (later & H1 & H2 & H3). exists later. rewrite Hrun. done.
  - rewrite Hrun. simpl. intros k c Hk. destruct (trace_delivered trace) as (l0 & Hl & Hall & Hc).
    destruct (Hc k c Hk) as (before & after & -> & Hat & Hm). exists before, after. split_and!; [done|by intros Hr; apply Hall|done|done|].
    intros Hn. rewrite Hm. destruct (_ || _); [by rewrite app_nil_r|by apply lost_numbered].
Qed.

(** C13: for every way in which the bytes a bridge writes are cut into chunks (also
    within a character) and every interleaving with opening, using and closing
    channels, the front end behaves as if it had got the records one by one: while
    it reads, only an incomplete record is outstanding, and a channel has got
    exactly the events for it since it was opened (by the step that made the [k]-th
    channel object), in order, up to its closing.
    When the transport ends, a channel that was still open has been given a fatal
    event (unless the process was closed on purpose) and the end mark; if the events
    of a channel are numbered, so is all it gets. *)
Theorem channel_gets_its_events `{FloatText} `{FloatRead} rs pipe more :
  Forall is_record rs -> chunks pipe +:+ more = record_lines rs ->
  let p := pipe_run pipe new_bridge in
  exists trace, trace_of "" pipe trace /\ trace_records trace `prefix_of` rs /\
    (bp_reading p = true -> exists later, rs = trace_records trace ++ later /\
       bp_read_buffer p +:+ more = record_lines later /\ has_char LF (bp_read_buffer p) = false) /\
    forall k c, bp_objects p !! k = Some c ->
      exists before after, before ++ TOp (BOpen (ch_id c)) :: after `prefix_of` trace /\
        (bp_reading p = true -> before ++ TOp (BOpen (ch_id c)) :: after = trace) /\
        length (bp_objects (trace_run before new_bridge)) = k /\
        ch_messages c = channel_events (ch_id c) after ++
          (if bp_reading p || ended (channel_events (ch_id c) after) then []
           else lost (bp_error p) (last_seq (channel_events (ch_id c) after))) /\
        (numbered_from 0 (omap id (channel_events (ch_id c) after)) -> numbered_from 0 (omap id (ch_messages c))).
Proof. apply channel_delivery. Qed.

#[local] Instance wire_floats : FloatText := {| float_repr b := "0.0" |}.
#[local] Instance wire_float_read : FloatRead := {| float_value s := 0 |}.

Definition demo_event (n : Z) : dict := [("type", JStr "assistant_delta"); ("event_sequence", JInt n); ("resume_after", JInt n)].
Definition demo_records : list json :=
  [JObj [("type", JStr "channel_event"); ("channel_id", JStr "a"); ("event", JObj (demo_event 1))];
   JObj [("type", JStr "channel_event"); ("channel_id", JStr "b"); ("event", JObj (demo_event 1))];
   JObj [("type", JStr "channel_closed"); ("channel_id", JStr "b")]].

(** Two channels; the first chunk ends within the second record, and then the process
    exits. *)
Lemma channel_gets_its_events_witness :
  let bytes := record_lines demo_records in
  let pipe := [POp (BOpen "a"); POp (BOpen "b"); PChunk (stake 150 bytes); PChunk (sdrop 150 bytes); PEof 1] in
  let p := pipe_run pipe new_bridge in
  map ch_messages (bp_objects p) =
    [[Some (demo_event 1); Some (lost_message (Exn ERuntimeError "Bridge exited unexpectedly (1)") 1); None]; [Some (demo_event 1); None]] /\
  exists trace, trace_records trace `prefix_of` demo_records /\ trace_of "" pipe trace.
Proof.
  split; [vm_compute; reflexivity|].
  destruct (channel_gets_its_events demo_records
    [POp (BOpen "a"); POp (BOpen "b"); PChunk (stake 150 (record_lines demo_records)); PChunk (sdrop 150 (record_lines demo_records)); PEof 1] "")
    as (trace & Hops & Hrec & _).
  - repeat (apply Forall_cons; split; [split; [apply plain_json_ok; vm_compute; reflexivity|by eexists]|]). constructor.
  - vm_compute. reflexivity.
  - by exists trace.
Defined.
