(* ===== verification/Bridge.v ===== *)
(** * The protocol adapter of a session

    interfaces/bridge/bridge.py: commands of a front end are routed to the runtime
    and its events are published.  The transport thread submits commands, the
    serving thread executes them, and the threads of tools ask the user for
    permission or for a choice.

    The state of the runtime host is a [HostView], what it answers to an operation a
    [HostAnswers]: both are arguments.  A block under a lock is one step; the
    threads interleave between the blocks ([bridge_act]).  Writing to the front end
    succeeds. *)

From stdpp Require Import base list strings pretty.
From Stdlib Require Import ZArith Lia.
From S2P Require Import Prelude PyData PyStr Json Content Plan Authority PyText ContextManager TurnControl TurnRunner Protocol.

(** ** State *)

Record SessionView := MkSessionView {
  sv_session_id : string;
  sv_permission_preset : string;
  sv_cache_usage : option CacheUsage;
  sv_items : list json;
}.

Record HostView := MkView {
  hv_session : option SessionView;
  hv_context_window : option ContextWindow;
  hv_provider : option string;
  hv_plan : option PlanSnapshot;
  hv_workspace : option string;
}.

(** What the snapshots report, and the events that were sent. *)
Record Status := MkStatus {
  st_phase : string;
  st_warnings : list string;
  st_approval : option dict;
  st_question : option dict;
  st_jobs : list (string * json);
  st_checkpoint_turn : option string;
  st_sequence : Z;
  st_sent : list dict;
}.

Inductive Reply := Response (message : dict) | Cancelled.

Inductive InteractionKind :=
| Permission (command kind : string) (server tool_name : option string)
| Choice (question : string) (options : list dict) (allow_free_text : bool).

(** A thread in [request_permission] or [request_user_choice]: it holds the
    interaction lock. *)
Inductive InteractionPc := Started | Registered | Published.
Record Interaction := MkInteraction {
  in_kind : InteractionKind;
  in_turn_id : option string;
  in_request_id : string;
  in_waiter : nat;
  in_pc : InteractionPc;
}.

(** A thread that wakes waiters: [Collect] is [_route_cancel] before it takes the
    lock, [Wake] puts the cancellation into the queues that are left. *)
Inductive RouterPc := Collect (turn_id : string) (cancelled : bool) | Wake (waiters : list nat) (notify_commands : bool).

Record Router := MkRouter {
  ro_waiters : list (string * (option string * nat));
  ro_queues : list (list Reply);
  ro_input_closed : bool;
  ro_shutdown_requested : bool;
  ro_interaction_ids : Z;
  ro_active : option Interaction;
  ro_results : list (string * option json);
  ro_threads : list RouterPc;
}.

Record Bridge := MkBridgeState {
  b_status : Status;
  b_router : Router;
  b_turns : Runner;
  b_messages : list (option dict);
  b_session_opened : bool;
  b_opened : bool;
  b_running : option string;
  b_ended : bool;
}.

Definition new_router : Router := MkRouter [] [] false false 1 None [] [].
Definition new_bridge_state : Bridge :=
  MkBridgeState (MkStatus "inactive" [] None None [] None 0 []) new_router new_runner [] false false None false.

Definition set_status (x : Status) (b : Bridge) : Bridge :=
  MkBridgeState x (b_router b) (b_turns b) (b_messages b) (b_session_opened b) (b_opened b) (b_running b) (b_ended b).
Definition set_router (x : Router) (b : Bridge) : Bridge :=
  MkBridgeState (b_status b) x (b_turns b) (b_messages b) (b_session_opened b) (b_opened b) (b_running b) (b_ended b).
Definition set_turns (x : Runner) (b : Bridge) : Bridge :=
  MkBridgeState (b_status b) (b_router b) x (b_messages b) (b_session_opened b) (b_opened b) (b_running b) (b_ended b).
Definition set_messages (x : list (option dict)) (b : Bridge) : Bridge :=
  MkBridgeState (b_status b) (b_router b) (b_turns b) x (b_session_opened b) (b_opened b) (b_running b) (b_ended b).
Definition set_serving (session_opened opened : bool) (running : option string) (ended : bool) (b : Bridge) : Bridge :=
  MkBridgeState (b_status b) (b_router b) (b_turns b) (b_messages b) session_opened opened running ended.

Definition on_status (f : Status -> Status) : M Bridge unit := modify (fun b => set_status (f (b_status b)) b).
Definition set_phase (phase : string) (warnings : list string) (s : Status) : Status :=
  MkStatus phase warnings (st_approval s) (st_question s) (st_jobs s) (st_checkpoint_turn s) (st_sequence s) (st_sent s).
Definition set_interaction (approval question : option dict) (s : Status) : Status :=
  MkStatus (st_phase s) (st_warnings s) approval question (st_jobs s) (st_checkpoint_turn s) (st_sequence s) (st_sent s).
Definition set_jobs (jobs : list (string * json)) (s : Status) : Status :=
  MkStatus (st_phase s) (st_warnings s) (st_approval s) (st_question s) jobs (st_checkpoint_turn s) (st_sequence s) (st_sent s).
Definition set_checkpoint (turn_id : option string) (s : Status) : Status :=
  MkStatus (st_phase s) (st_warnings s) (st_approval s) (st_question s) (st_jobs s) turn_id (st_sequence s) (st_sent s).

(** ** Events *)

Section bridge.
Context `{FloatText}.
(** The details a provider error carries. *)
Variable details : exn -> dict.

Definition runtime_snapshot (v : HostView) (b : Bridge) : dict :=
  let s := b_status b in
  runtime_state_message
    (MkFields (st_phase s) (rn_turn_id (b_turns b)) (st_approval s) (st_question s) (hv_provider v)
       (sv_permission_preset <$> hv_session v) (hv_context_window v)
       (match hv_session v with Some x => cache_usage_to_dict (sv_cache_usage x) | None => JNull end)
       (dvalues (st_jobs s)) None (st_warnings s)
       (match hv_plan v with Some p => plan_snapshot_to_dict p | None => JNull end) (hv_workspace v)).

(** What [emit] does to the jobs and on a fatal error. *)
Definition note_event (message : dict) : M Bridge unit :=
  let ty := jget "type" message in
  (if is_type ["job_status"] ty then
     job_id <- lift (jindex "job_id" message) ;;
     status <- lift (jindex "status" message) ;;
     if is_type ["submitted"; "running"] status then
       kind <- lift (jindex "kind" message) ;;
       job_details <- lift (jindex "details" message) ;;
       on_status (fun s => set_jobs (dset (py_str job_id)
         (JObj [("job_id", job_id); ("kind", kind); ("status", status); ("details", job_details)]) (st_jobs s)) s)
     else on_status (fun s => set_jobs (dpop (py_str job_id) (st_jobs s)) s)
   else ret tt) ;;;
  if is_type ["fatal"] ty
  then on_status (fun s => set_jobs [] (set_interaction None None (set_phase "failed" (st_warnings s) s)))
  else ret tt.

(** The types of events that carry a snapshot, and those that carry the items. *)
Definition SNAPSHOT_TYPES : list string :=
  ["permission_changed"; "provider_changed"; "workspace_changed"; "plan_updated"; "context_window"; "model_completed";
   "compression_completed"; "job_status"; "fatal"; "turn_completed"; "turn_cancelled"; "turn_failed"; "runtime_refreshed";
   "runtime_refresh_failed"].

Definition event_state (v : HostView) (message : dict) (b : Bridge) : option dict :=
  let ty := jget "type" message in
  if is_type ["runtime_state"] ty then Some message else
  if is_type ["session_open_failed"] ty && match hv_session v with Some _ => true | None => false end then Some (runtime_snapshot v b) else
  if is_type SNAPSHOT_TYPES ty then Some (runtime_snapshot v b) else None.

Definition is_checkpoint (message : dict) (b : Bridge) : bool :=
  let ty := jget "type" message in
  is_type ["session_ready"; "turn_completed"; "turn_cancelled"; "turn_failed"] ty
  || is_type ["context_window"] ty && bool_decide (ostr (st_checkpoint_turn (b_status b)) = jget "turn_id" message).

Definition publish_event (message : dict) (state : option dict) (items : option (list json)) : M Bridge unit := fun b =>
  let s := b_status b in
  let '(n, r) := publish message state items (st_sequence s) in
  let s1 sent := MkStatus (st_phase s) (st_warnings s) (st_approval s) (st_question s) (st_jobs s) (st_checkpoint_turn s) n sent in
  match r with
  | Ok m => (set_status (s1 (st_sent s ++ [m])) b, Ok tt)
  | Err e => (set_status (s1 (st_sent s)) b, Err e)
  end.

(** [emit], under the event lock. *)
Definition emit (v : HostView) (message : dict) : M Bridge unit :=
  note_event message ;;;
  b <- get ;;
  let state := event_state v message b in
  if is_checkpoint message b
  then on_status (set_checkpoint None) ;;;
       publish_event message state (sv_items <$> hv_session v)
  else publish_event message state None.

Definition event (ty : string) (fields : dict) : dict := ("type", JStr ty) :: fields.

Definition emit_runtime_state (v : HostView) (phase : string) (warnings : list string) : M Bridge unit :=
  on_status (set_phase phase warnings) ;;;
  b <- get ;;
  emit v (runtime_snapshot v b).

Definition emit_fatal (v : HostView) (e : exn) : M Bridge unit :=
  emit v (event "fatal" [("error", runtime_failure_to_dict (runtime_error_info e (details e)))]).

Definition emit_agent_event (v : HostView) (e : PublicEvent) (turn_id : string) : M Bridge unit :=
  message <- lift (event_to_message e turn_id) ;; emit v message.

(** ** Interactions *)

Definition with_active (x : option Interaction) (r : Router) : Router :=
  MkRouter (ro_waiters r) (ro_queues r) (ro_input_closed r) (ro_shutdown_requested r) (ro_interaction_ids r) x (ro_results r) (ro_threads r).
Definition with_threads (l : list RouterPc) (r : Router) : Router :=
  MkRouter (ro_waiters r) (ro_queues r) (ro_input_closed r) (ro_shutdown_requested r) (ro_interaction_ids r) (ro_active r) (ro_results r) l.
Definition put_reply (x : Reply) (w : nat) (r : Router) : Router :=
  MkRouter (ro_waiters r) (alter (fun q => q ++ [x]) w (ro_queues r)) (ro_input_closed r) (ro_shutdown_requested r)
    (ro_interaction_ids r) (ro_active r) (ro_results r) (ro_threads r).

Definition is_running_cancelled (turn_id : option string) (r : Runner) : bool :=
  match rn_control r with Some c => bool_decide (rn_turn_id r = turn_id) && is_cancelled c | None => false end.

(** A thread takes the interaction lock and draws its request id. *)
Definition interaction_start (kind : InteractionKind) (b : Bridge) : Bridge :=
  let r := b_router b in
  match ro_active r with
  | Some _ => b
  | None =>
      let turn_id := rn_turn_id (b_turns b) in
      let n := ro_interaction_ids r in
      let request_id := default "None" turn_id +:+ ":" +:+ pretty n in
      set_router (MkRouter (ro_waiters r) (ro_queues r) (ro_input_closed r) (ro_shutdown_requested r) (n + 1)
        (Some (MkInteraction kind turn_id request_id 0 Started)) (ro_results r) (ro_threads r)) b
  end.

(** [_register_interaction] *)
Definition register_interaction (b : Bridge) : Bridge :=
  let r := b_router b in
  match ro_active r with
  | Some (MkInteraction kind turn_id request_id _ Started) =>
      let w := length (ro_queues r) in
      let first := if ro_input_closed r || is_running_cancelled turn_id (b_turns b) then [Cancelled] else [] in
      set_router (MkRouter (dset request_id (turn_id, w) (ro_waiters r)) (ro_queues r ++ [first]) (ro_input_closed r)
        (ro_shutdown_requested r) (ro_interaction_ids r) (Some (MkInteraction kind turn_id request_id w Registered))
        (ro_results r) (ro_threads r)) b
  | _ => b
  end.

Definition request_message (i : Interaction) : dict :=
  match in_kind i with
  | Permission command kind server tool_name =>
      event "approval_request"
        [("turn_id", ostr (in_turn_id i)); ("request_id", JStr (in_request_id i)); ("command", JStr command); ("kind", JStr kind);
         ("server", ostr server); ("tool_name", ostr tool_name)]
  | Choice question options allow_free_text =>
      event "user_question"
        [("turn_id", ostr (in_turn_id i)); ("request_id", JStr (in_request_id i)); ("question", JStr question);
         ("options", JArr (map JObj options)); ("allow_free_text", JBool allow_free_text)]
  end.

Definition when_session (v : HostView) (c : M Bridge unit) : M Bridge unit :=
  match hv_session v with Some _ => c | None => ret tt end.

(** The request is shown. *)
Definition publish_interaction (v : HostView) : M Bridge unit :=
  b <- get ;;
  match ro_active (b_router b) with
  | Some (MkInteraction kind turn_id request_id w Registered as i) =>
      let message := request_message i in
      match kind with
      | Permission _ _ _ _ => on_status (set_interaction (Some message) None) ;;; when_session v (emit_runtime_state v "waiting_approval" [])
      | Choice _ _ _ => on_status (set_interaction None (Some message)) ;;; when_session v (emit_runtime_state v "waiting_user" [])
      end ;;;
      emit v message ;;;
      modify (fun b => set_router (with_active (Some (MkInteraction kind turn_id request_id w Published)) (b_router b)) b)
  | _ => ret tt
  end.

Definition option_by_id (options : list dict) : list (string * dict) :=
  fold_left (fun d o => dset (py_str (jget "id" o)) o d) options [].

(** What a response means; [None]: go on waiting. *)
Definition read_response (kind : InteractionKind) (message : dict) : option json :=
  match kind with
  | Permission _ _ _ _ => Some (JBool (truthy (jget "approved" message)))
  | Choice _ options allow_free_text =>
      let free_text :=
        match jget "text" message with
        | JStr text => if allow_free_text && nonempty (strip text) then Some (JObj [("type", JStr "text"); ("text", JStr (strip text))]) else None
        | _ => None
        end in
      match jget "option_id" message with
      | JStr id =>
          match dget id (option_by_id options) with
          | Some o => Some (JObj [("type", JStr "option"); ("id", JStr id); ("label", jget "label" o)])
          | None => free_text
          end
      | _ => free_text
      end
  end.

(** The [finally] block: the waiter is taken out and the lock released. *)
Definition finish_interaction (v : HostView) (i : Interaction) (outcome : option json) : M Bridge unit :=
  modify (fun b => let r := b_router b in
    set_router (MkRouter (dpop (in_request_id i) (ro_waiters r)) (ro_queues r) (ro_input_closed r) (ro_shutdown_requested r)
      (ro_interaction_ids r) None (ro_results r ++ [(in_request_id i, outcome)]) (ro_threads r)) b) ;;;
  on_status (fun s => match in_kind i with
                      | Permission _ _ _ _ => set_interaction None (st_question s) s
                      | Choice _ _ _ => set_interaction (st_approval s) None s
                      end) ;;;
  when_session v (emit_runtime_state v "running" []).

(** [_wait_for_interaction] returns: the first reply of the queue is taken.  A
    cancelled interaction has no outcome. *)
Definition take_reply (v : HostView) : M Bridge unit :=
  b <- get ;;
  match ro_active (b_router b) with
  | Some (MkInteraction _ _ _ w Published as i) =>
      match ro_queues (b_router b) !! w with
      | Some (x :: rest) =>
          modify (fun b => let r := b_router b in
            set_router (MkRouter (ro_waiters r) (<[w := rest]> (ro_queues r)) (ro_input_closed r) (ro_shutdown_requested r)
              (ro_interaction_ids r) (ro_active r) (ro_results r) (ro_threads r)) b) ;;;
          match x with
          | Cancelled => finish_interaction v i None
          | Response message =>
              match read_response (in_kind i) message with
              | Some outcome => finish_interaction v i (Some outcome)
              | None => ret tt
              end
          end
      | _ => ret tt
      end
  | _ => ret tt
  end.

(** ** Routing *)

(** The first step of [_route_cancel]. *)
Definition route_cancel (message : dict) (b : Bridge) : Bridge :=
  match jget "turn_id" message with
  | JStr turn_id =>
      let '(turns, cancelled) := runner_cancel turn_id (b_turns b) in
      let b1 := set_turns turns b in
      set_router (with_threads (ro_threads (b_router b1) ++ [Collect turn_id cancelled]) (b_router b1)) b1
  | _ => b
  end.

(** [_route_shutdown] under the lock. *)
Definition route_shutdown (notify_commands : bool) (b : Bridge) : Bridge :=
  let r := b_router b in
  set_router (MkRouter (ro_waiters r) (ro_queues r) true true (ro_interaction_ids r) (ro_active r) (ro_results r)
    (ro_threads r ++ [Wake (map snd (dvalues (ro_waiters r))) notify_commands])) (set_turns (fst (runner_shutdown (b_turns b))) b).

(** The next step of a thread that wakes waiters. *)
Definition router_step (t : nat) (b : Bridge) : Bridge :=
  let r := b_router b in
  match ro_threads r !! t with
  | Some (Collect turn_id cancelled) =>
      let waiters := map snd (List.filter (fun w => cancelled && bool_decide (fst w = Some turn_id)) (dvalues (ro_waiters r))) in
      set_router (with_threads (<[t := Wake waiters false]> (ro_threads r)) r) b
  | Some (Wake (w :: rest) notify_commands) =>
      set_router (with_threads (<[t := Wake rest notify_commands]> (ro_threads r)) (put_reply Cancelled w r)) b
  | Some (Wake [] true) =>
      set_router (with_threads (<[t := Wake [] false]> (ro_threads r)) r) (set_messages (b_messages b ++ [None]) b)
  | _ => b
  end.

Definition route_steer (v : HostView) (message : dict) : M Bridge unit :=
  match jget "steer_id" message with
  | JStr steer_id =>
      if negb (nonempty steer_id) then ret tt else
      accepted <- (match jget "turn_id" message, jget "text" message with
                   | JStr turn_id, JStr text =>
                       if nonempty (strip text)
                       then fun b => let '(turns, ok) := runner_steer turn_id steer_id (strip text) (b_turns b) in (set_turns turns b, Ok ok)
                       else ret false
                   | _, _ => ret false
                   end) ;;
      emit v (event (if accepted then "user_steer_received" else "user_steer_rejected")
                [("turn_id", jget "turn_id" message); ("steer_id", JStr steer_id);
                 ("text", match jget "text" message with JStr text => JStr text | _ => JStr "" end)])
  | _ => ret tt
  end.

(** [_set_permission_preset]; [answer] is the outcome of [host.set_permission_preset]. *)
Definition bridge_set_preset (v : HostView) (message : dict) (answer : res unit) : M Bridge unit :=
  preset <- lift (preset_of (py_str (jget "preset" message))) ;;
  lift answer ;;;
  emit v (event "permission_changed" [("preset", JStr (preset_value preset))]).

Definition enqueue_command (message : option dict) : M Bridge unit := modify (fun b => set_messages (b_messages b ++ [message]) b).

Definition submit_command (v : HostView) (message : dict) (answer : res unit) : M Bridge unit :=
  ty <- lift (jindex "type" message) ;;
  if is_type ["approval_response"; "user_question_response"] ty then
    match jget "request_id" message with
    | JStr request_id =>
        modify (fun b => match dget request_id (ro_waiters (b_router b)) with
                         | Some (_, w) => set_router (put_reply (Response message) w (b_router b)) b
                         | None => b
                         end)
    | _ => ret tt
    end
  else if is_type ["permission_set"] ty then
    b <- get ;; if b_session_opened b then bridge_set_preset v message answer else enqueue_command (Some message)
  else if is_type ["user_steer"] ty then route_steer v message
  else if is_type ["cancel"] ty then modify (route_cancel message)
  else
    (if is_type ["user_turn"] ty then
       match jget "turn_id" message with
       | JStr turn_id => modify (fun b => set_turns (enqueue turn_id (b_turns b)) b) ;;; emit v (user_turn_received_message turn_id)
       | _ => ret tt
       end
     else ret tt) ;;;
    enqueue_command (Some message).

(** ** Serving *)

(** What the host and its parts answer to a command: opening, the model of the
    provider, the stored sessions, the changes and the settings (snapshot, save). *)
Record HostAnswers := MkHostAnswers {
  ha_store : bool;
  ha_open : res bool;
  ha_model : res string;
  ha_sessions : list json;
  ha_workspaces : list string;
  ha_preset : res unit;
  ha_provider : res (bool * string);
  ha_workspace : res bool;
  ha_refresh : res (string * string);
  ha_snapshot : res json;
  ha_save : res json;
  ha_reload : res unit;
}.

(** The classes that derive from [OSError]. *)
Definition is_os_error (e : exn) : bool :=
  match exn_class e with
  | EOSError | EFileNotFound | EFileExists | ENotADirectory | EIsADirectory | EPermissionError | EBlockingIO => true
  | _ => false
  end.

Definition emit_session_snapshot (v : HostView) (answers : HostAnswers) (resumed : bool) : M Bridge unit :=
  match hv_session v, hv_workspace v, hv_provider v with
  | Some x, Some workspace, Some provider =>
      model <- lift (ha_model answers) ;;
      emit v (session_ready_message (sv_session_id x) workspace provider model resumed (Z.of_nat (length (sv_items x))) (sv_permission_preset x)) ;;;
      b <- get ;; emit v (runtime_snapshot v b)
  | _, _, _ => fail (Exn ETypeError "'NoneType' object has no attribute")
  end.

Definition reset_status (phase : string) (s : Status) : Status := set_jobs [] (set_interaction None None (set_phase phase [] s)).

(** [open_session], before the host opens the session ([v] is the view after it). *)
Definition bridge_open_session (v : HostView) (message : dict) (answers : HostAnswers) : M Bridge unit :=
  lift (jindex "workspace" message) ;;;
  resumed <- lift (ha_open answers) ;;
  on_status (fun s => set_checkpoint None (reset_status "inactive" s)) ;;;
  modify (fun b => set_serving true (b_opened b) (b_running b) (b_ended b) b) ;;;
  emit_session_snapshot v answers resumed.

Definition settings_request_id (message : dict) : option string :=
  match jget "request_id" message with JStr s => if nonempty s then Some s else None | _ => None end.

(** [try: ... except (OSError, ValueError) as error: ...] of the settings commands. *)
Definition settings_guard (v : HostView) (message : dict) (c : M Bridge unit) : M Bridge unit :=
  catch c (fun e => if is_os_error e || is_value_error e
                    then emit v (settings_update_failed_message e (settings_request_id message)) else fail e).

Definition emit_settings (v : HostView) (message : dict) (snapshot : res json) : M Bridge unit :=
  settings_guard v message (x <- lift snapshot ;; emit v (settings_snapshot_message x (settings_request_id message))).

Definition save_provider_settings (v : HostView) (message : dict) (answers : HostAnswers) : M Bridge unit :=
  settings_guard v message
    (match jget "provider" message with
     | JStr p => if nonempty p then ret tt else fail (Exn EValueError "provider must be a non-empty string")
     | _ => fail (Exn EValueError "provider must be a non-empty string")
     end ;;;
     x <- lift (ha_save answers) ;;
     lift (ha_reload answers) ;;;
     emit v (settings_snapshot_message x (settings_request_id message))).

Definition bridge_set_provider (v : HostView) (message : dict) (answers : HostAnswers) : M Bridge unit :=
  match jget "provider" message with
  | JStr provider =>
      if negb (nonempty provider) then fail (Exn EValueError "provider must be a non-empty string") else
      changed <- lift (ha_provider answers) ;;
      emit v (event "provider_changed" [("provider", JStr provider); ("model", JStr (snd changed))]) ;;;
      if fst changed then emit_runtime_state v "inactive" [] else ret tt
  | _ => fail (Exn EValueError "provider must be a non-empty string")
  end.

Definition bridge_set_workspace (v : HostView) (message : dict) (answers : HostAnswers) : M Bridge unit :=
  match jget "workspace" message with
  | JStr value =>
      if negb (nonempty (strip value)) then fail (Exn EValueError "workspace must be a non-empty path") else
      changed <- lift (ha_workspace answers) ;;
      emit v (event "workspace_changed" [("workspace", ostr (hv_workspace v))]) ;;;
      if (changed : bool) then emit_runtime_state v "inactive" [] else ret tt
  | _ => fail (Exn EValueError "workspace must be a non-empty path")
  end.

Definition bridge_refresh (v : HostView) (answers : HostAnswers) : M Bridge unit :=
  match ha_refresh answers with
  | Ok (provider, model) => emit v (event "runtime_refreshed" [("provider", JStr provider); ("model", JStr model)])
  | Err e => if is_exception e
             then emit v (event "runtime_refresh_failed" [("error", runtime_failure_to_dict (runtime_error_info e (details e)))])
             else fail e
  end.

(** [run_turn] up to the run of the turn, which has the runner from here on. *)
Definition start_turn (message : dict) : M Bridge unit :=
  turn_id <- lift (jindex "turn_id" message) ;;
  on_status (set_checkpoint (Some (py_str turn_id))) ;;;
  lift (jindex "text" message) ;;;
  b <- get ;;
  match begin_run (py_str turn_id) (b_turns b) with
  | (turns, Ok _) => modify (fun b => set_serving (b_session_opened b) (b_opened b) (Some (py_str turn_id)) (b_ended b) (set_turns turns b))
  | (_, Err e) => fail e
  end.

(** The rest of [run_turn]: the runner is released and the result reported. *)
Definition end_turn (v : HostView) (turn_id : string) (outcome : res TurnResult) : M Bridge unit :=
  modify (fun b => set_serving (b_session_opened b) (b_opened b) None (b_ended b) (set_turns (end_run (b_turns b)) b)) ;;;
  result <- lift outcome ;;
  let phase := if res_startup_failed result then "failed" else "idle" in
  on_status (reset_status phase) ;;;
  emit_runtime_state v phase [] ;;;
  b <- get ;;
  match res_status result with
  | OutFailed =>
      emit v (event "turn_failed" [("turn_id", JStr turn_id);
                ("error", match res_error result with Some e => runtime_failure_to_dict e | None => JNull end)])
  | OutCancelled => emit v (event "turn_cancelled" [("turn_id", JStr turn_id)])
  | OutCompleted =>
      if ro_shutdown_requested (b_router b) then ret tt
      else emit v (event "turn_completed" [("turn_id", JStr turn_id); ("usage", usage_to_dict (res_usage result))])
  end.

Definition protocol_fatal (v : HostView) (m : string) : M Bridge unit :=
  emit v (event "fatal" [("error", JObj [("type", JStr "ProtocolError"); ("message", JStr m); ("details", JObj [])])]) ;;;
  fail (Exn ESystemExit "1").

Definition set_opened (opened : bool) : M Bridge unit := modify (fun b => set_serving (b_session_opened b) opened (b_running b) (b_ended b) b).

Definition emit_sessions (v : HostView) (answers : HostAnswers) : M Bridge unit :=
  if negb (ha_store answers) || match hv_workspace v with None => true | Some _ => false end
  then fail (Exn ERuntimeError "received 'list_sessions' before 'open_session'")
  else emit v (sessions_listed_message (ha_sessions answers)).

(** One command of the loop of [serve]. *)
Definition serve_command (v : HostView) (answers : HostAnswers) (message : dict) : M Bridge unit :=
  ty <- lift (jindex "type" message) ;;
  b <- get ;;
  if is_type ["list_workspaces"] ty && ha_store answers then emit v (workspaces_listed_message (ha_workspaces answers)) else
  if negb (b_opened b) || is_type ["open_session"] ty then
    if is_type ["list_sessions"] ty && match hv_workspace v with Some _ => true | None => false end
    then emit_sessions v answers else
    if negb (is_type ["open_session"] ty) then protocol_fatal v "first message must be 'open_session'" else
    catch (bridge_open_session v message answers ;;; set_opened true)
      (fun e => if is_class ESessionInUse e || is_value_error e || is_os_error e
                then let opened := match hv_session v with Some _ => true | None => false end in
                     modify (fun b => set_serving opened opened (b_running b) (b_ended b) b) ;;;
                     emit v (session_open_failed_message (jget "session_id" message) e)
                else fail e)
  else if is_type ["user_turn"] ty then start_turn message
  else if is_type ["permission_set"] ty then bridge_set_preset v message (ha_preset answers)
  else if is_type ["provider_set"] ty then bridge_set_provider v message answers
  else if is_type ["workspace_set"] ty then bridge_set_workspace v message answers
  else if is_type ["runtime_refresh"] ty then bridge_refresh v answers
  else if is_type ["list_sessions"] ty then emit_sessions v answers
  else if is_type ["load_session"] ty then
    match hv_session v with
    | Some x => emit v (session_items_message (sv_items x))
    | None => fail (Exn ERuntimeError "received 'load_session' before 'open_session'")
    end
  else if is_type ["session_snapshot"] ty then emit_session_snapshot v answers true
  else if is_type ["settings_get"] ty then emit_settings v message (ha_snapshot answers)
  else if is_type ["settings_provider_save"] ty then save_provider_settings v message answers
  else if is_type ["settings_agent_save"; "settings_routing_save"] ty then emit_settings v message (ha_save answers)
  else ret tt.

(** The thread ends: [close]. *)
Definition serve_end (b : Bridge) : Bridge := route_shutdown false (set_serving (b_session_opened b) (b_opened b) None true b).

(** An exception ends the thread with a fatal event ([BridgeServer._serve_channel]). *)
Definition serve_guard (v : HostView) (c : M Bridge unit) (b : Bridge) : Bridge :=
  match c b with
  | (b1, Ok _) => b1
  | (b1, Err e) => serve_end (fst (emit_fatal v e b1))
  end.

(** The serving thread takes the next command. *)
Definition serve_step (v : HostView) (answers : HostAnswers) (b : Bridge) : Bridge :=
  match b_ended b, b_running b, b_messages b with
  | false, None, None :: rest => serve_end (set_messages rest b)
  | false, None, Some message :: rest => serve_guard v (serve_command v answers message) (set_messages rest b)
  | _, _, _ => b
  end.

(** ** The threads *)

Inductive BridgeAct :=
| ASubmit (v : HostView) (message : dict) (answer : res unit)
| AStop
| ARouter (t : nat)
| AInteract (kind : InteractionKind)
| ARegister
| APublish (v : HostView)
| AReply (v : HostView)
| AServe (v : HostView) (answers : HostAnswers)
| AControl (op : ControlOp)
| AEndTurn (v : HostView) (result : res TurnResult)
| AEvent (v : HostView) (ty : string) (fields : dict)
| AAgentEvent (v : HostView) (e : PublicEvent) (turn_id : string).

(** What the agent does with the control of the running turn: take steering, finish. *)
Definition agent_control (op : ControlOp) (r : Runner) : Runner :=
  match op, rn_control r with
  | OpDrain, Some c => set_control (Some (fst (drain_steering c))) r
  | OpFinish, Some c => set_control (Some (fst (finish c))) r
  | _, _ => r
  end.

Definition bridge_act (a : BridgeAct) (b : Bridge) : Bridge :=
  match a with
  | ASubmit v message answer =>
      match submit_command v message answer b with
      | (b1, Ok _) => b1
      | (b1, Err e) => route_shutdown true (fst (emit_fatal v e b1))
      end
  | AStop => route_shutdown true b
  | ARouter t => router_step t b
  | AInteract kind => interaction_start kind b
  | ARegister => register_interaction b
  | APublish v => fst (publish_interaction v b)
  | AReply v => fst (take_reply v b)
  | AServe v answers => serve_step v answers b
  | AControl op => set_turns (agent_control op (b_turns b)) b
  | AEndTurn v result =>
      match b_running b with
      | Some turn_id => serve_guard v (end_turn v turn_id result) b
      | None => b
      end
  | AEvent v ty fields => fst (emit v (event ty fields) b)
  | AAgentEvent v e turn_id => fst (emit_agent_event v e turn_id b)
  end.
End bridge.
