(* ===== verification/BridgeThms.v ===== *)
(** * The protocol adapter: numbered events, answered questions

    Every event of a session carries the next number; a permission is granted only
    by an answer to its own request, and a question of a cancelled turn or a closed
    session is woken. *)

From stdpp Require Import base list strings list_numbers pretty.
From Stdlib Require Import ZArith Lia Ascii.
From S2P Require Import Prelude PyData PyStr Json Content Plan Authority PyText JsonText ContextManager TurnControl TurnRunner.
From S2P Require Import Protocol SessionHost SessionHostThms Bridge.

Section events.
Context `{FloatText} (details : exn -> dict).

(** ** Events do not touch the routing *)

Definition routing (b : Bridge) : Router * Runner * list (option dict) := (b_router b, b_turns b, b_messages b).
Definition quiet {A} (c : M Bridge A) : Prop := forall x, preserves (fun b => routing b = x) c.

Lemma quiet_status f : quiet (on_status f).
Proof. intros x b Hb. exact Hb. Qed.
Lemma quiet_publish m state items : quiet (publish_event m state items).
Proof. intros x b Hb. unfold publish_event. by destruct (publish m state items (st_sequence (b_status b))) as [n [d|e]]. Qed.

Lemma note_event_keeps P m : (forall f, (forall s, st_sent (f s) = st_sent s /\ st_sequence (f s) = st_sequence s) -> preserves P (on_status f)) ->
  preserves P (note_event m).
Proof.
  intros Hf. unfold note_event. apply preserves_bind; [|intros _].
  - destruct (is_type ["job_status"] (jget "type" m)); [|apply preserves_ret].
    apply preserves_bind; [apply preserves_lift|intros job_id]. apply preserves_bind; [apply preserves_lift|intros status].
    destruct (is_type ["submitted"; "running"] status); [|by apply Hf].
    apply preserves_bind; [apply preserves_lift|intros kind]. apply preserves_bind; [apply preserves_lift|intros d]. by apply Hf.
  - destruct (is_type ["fatal"] (jget "type" m)); [by apply Hf|apply preserves_ret].
Qed.

Lemma emit_keeps P v m :
  (forall f, (forall s, st_sent (f s) = st_sent s /\ st_sequence (f s) = st_sequence s) -> preserves P (on_status f)) ->
  (forall state items, preserves P (publish_event m state items)) -> preserves P (emit v m).
Proof.
  intros Hf Hp. unfold emit. apply preserves_bind; [by apply note_event_keeps|intros _]. apply preserves_bind; [apply preserves_get|intros b].
  destruct (is_checkpoint m b); [|apply Hp]. apply preserves_bind; [by apply Hf|intros _]. apply Hp.
Qed.

Lemma quiet_emit v m : quiet (emit v m).
Proof. intros x. apply emit_keeps; [intros; apply quiet_status|intros; apply quiet_publish]. Qed.

(** ** The log of events

    A property of what was sent and of the last number that holds again when an
    event is published holds whatever the threads do. *)

Section log.
Variable P : list dict -> Z -> Prop.
Hypothesis P_publish : forall m state items sent n n' d, dhas "type" m = true -> publish m state items n = (n', Ok d) -> P sent n -> P (sent ++ [d]) n'.

Definition logged (b : Bridge) : Prop := P (st_sent (b_status b)) (st_sequence (b_status b)).
Definition counts {A} (c : M Bridge A) : Prop := preserves logged c.

Lemma counts_status f : (forall s, st_sent (f s) = st_sent s /\ st_sequence (f s) = st_sequence s) -> counts (on_status f).
Proof. intros Hf b Hb. destruct (Hf (b_status b)) as [E1 E2]. unfold logged. simpl. by rewrite E1, E2. Qed.

Lemma counts_publish m state items : dhas "type" m = true -> counts (publish_event m state items).
Proof.
  intros Hty b Hb. unfold publish_event. destruct (publish m state items (st_sequence (b_status b))) as [n [d|e]] eqn:E.
  - by apply (P_publish m state items _ (st_sequence (b_status b))).
  - exfalso. unfold publish, jindex, dhas in *. by destruct (dget "type" m).
Qed.

Lemma counts_emit v m : dhas "type" m = true -> counts (emit v m).
Proof. intros Hm. apply emit_keeps; [intros; by apply counts_status|intros; by apply counts_publish]. Qed.

Lemma counts_modify f : (forall b, b_status (f b) = b_status b) -> counts (modify f).
Proof. intros Hf b Hb. unfold modify, logged. simpl. by rewrite Hf. Qed.

(** Take a handler apart, down to its events and changes. *)
Ltac counts_steps :=
  repeat first [progress intros | lazymatch goal with
  | |- preserves logged (bind _ _) => apply preserves_bind
  | |- preserves logged (ret _) => apply preserves_ret
  | |- preserves logged (fail _) => apply preserves_fail
  | |- preserves logged (lift _) => apply preserves_lift
  | |- preserves logged get => apply preserves_get
  | |- preserves logged (catch _ _) => apply preserves_catch
  | |- preserves logged (emit _ _) => apply counts_emit; first [reflexivity | assumption]
  | |- preserves logged (on_status _) => apply counts_status; intros; done
  | |- preserves logged (modify _) => apply counts_modify; intros; done
  | |- preserves logged (match ?x with _ => _ end) => destruct x
  end].

Lemma counts_runtime_state v phase warnings : counts (emit_runtime_state v phase warnings).
Proof. unfold counts, emit_runtime_state. counts_steps. Qed.
Lemma counts_fatal v e : counts (emit_fatal details v e).
Proof. unfold counts, emit_fatal. counts_steps. Qed.

Lemma event_to_message_typed e turn_id m : event_to_message e turn_id = Ok m -> dhas "type" m = true.
Proof. destruct e as [[]| |]; simpl; by intros [= <-]. Qed.

Lemma counts_agent_event v e turn_id : counts (emit_agent_event v e turn_id).
Proof.
  intros b Hb. unfold emit_agent_event, bind, lift. destruct (event_to_message e turn_id) as [m|] eqn:E; [|done].
  apply counts_emit; [by eapply event_to_message_typed|done].
Qed.

Lemma counts_session v c : counts c -> counts (when_session v c).
Proof. intros Hc. unfold when_session. destruct (hv_session v); [done|apply preserves_ret]. Qed.

Lemma counts_finish v i outcome : counts (finish_interaction v i outcome).
Proof.
  unfold counts, finish_interaction. counts_steps; [|apply counts_session, counts_runtime_state].
  apply counts_status. intros s. by destruct (in_kind i).
Qed.

Lemma counts_publish_interaction v : counts (publish_interaction v).
Proof.
  unfold counts, publish_interaction. counts_steps; try (by apply counts_session, counts_runtime_state).
  apply counts_emit. by destruct in_kind.
Qed.

Lemma counts_take_reply v : counts (take_reply v).
Proof. unfold counts, take_reply. counts_steps; apply counts_finish. Qed.

Lemma counts_route_steer v m : counts (route_steer v m).
Proof.
  unfold counts, route_steer. counts_steps.
  intros b Hb. by destruct (runner_steer _ _ _ (b_turns b)).
Qed.

Lemma counts_submit v m answer : counts (submit_command v m answer).
Proof.
  unfold counts, submit_command, bridge_set_preset, enqueue_command. counts_steps; try apply counts_route_steer.
  - apply counts_modify. intros b. by destruct (dget s (ro_waiters (b_router b))) as [[]|].
  - apply counts_modify. intros b. unfold route_cancel. destruct (jget "turn_id" m); try done. by destruct (runner_cancel s (b_turns b)).
Qed.

Lemma counts_serve v answers m : counts (serve_command details v answers m).
Proof.
  unfold counts, serve_command, emit_sessions, protocol_fatal, bridge_open_session, emit_session_snapshot, set_opened, start_turn, bridge_set_preset,
    bridge_set_provider, bridge_set_workspace, bridge_refresh, emit_settings, save_provider_settings, settings_guard, settings_snapshot_message,
    settings_update_failed_message, with_request_id.
  counts_steps; try apply counts_runtime_state; apply counts_emit; by destruct (settings_request_id m).
Qed.

Lemma counts_end_turn v turn_id outcome : counts (end_turn v turn_id outcome).
Proof. unfold counts, end_turn. counts_steps; apply counts_runtime_state. Qed.

Lemma logged_shutdown notify b : logged b -> logged (route_shutdown notify b).
Proof. done. Qed.

Lemma logged_guard v c b : counts c -> logged b -> logged (serve_guard details v c b).
Proof.
  intros Hc Hb. unfold serve_guard. specialize (Hc b Hb). destruct (c b) as [b1 [u|e]]; [exact Hc|].
  exact (counts_fatal v e b1 Hc).
Qed.

Lemma logged_act a b : logged b -> logged (bridge_act details a b).
Proof.
  intros Hb. destruct a; simpl.
  - pose proof (counts_submit v message answer b Hb) as Hc. destruct (submit_command v message answer b) as [b1 [u|e]]; [exact Hc|].
    apply logged_shutdown. by apply counts_fatal.
  - by apply logged_shutdown.
  - unfold router_step. by destruct (ro_threads (b_router b) !! t) as [[| [|w rest] []]|].
  - unfold interaction_start. by destruct (ro_active (b_router b)).
  - unfold register_interaction. by destruct (ro_active (b_router b)) as [[? ? ? ? []]|].
  - by apply counts_publish_interaction.
  - by apply counts_take_reply.
  - unfold serve_step. destruct (b_ended b), (b_running b), (b_messages b) as [|[m|] rest]; try done.
    by apply logged_guard; [apply counts_serve|].
  - done.
  - destruct (b_running b); [|done]. by apply logged_guard; [apply counts_end_turn|].
  - by apply counts_emit.
  - by apply counts_agent_event.
Qed.

End log.

(** The numbers. *)
Definition numbered_log (sent : list dict) (n : Z) : Prop := numbered_from 0 sent /\ n = Z.of_nat (length sent).

Lemma numbered_publish m state items sent n n' d :
  dhas "type" m = true -> publish m state items n = (n', Ok d) -> numbered_log sent n -> numbered_log (sent ++ [d]) n'.
Proof.
  intros Hty E [Hn Hs]. pose proof (stream_numbered [(m, state, items)] n) as Hone. cbn [stream] in Hone. rewrite E in Hone.
  specialize (Hone ltac:(by apply Forall_singleton)). apply numbered_cons in Hone as [Hd _]. assert (n' = n + 1) as -> by (by injection E).
  unfold numbered_log. rewrite length_app, Hs. simpl. split; [|lia]. unfold numbered_from in *. rewrite map_app, Hn, length_app, Nat2Z.inj_add, seqZ_app by lia.
  f_equal. simpl. rewrite seqZ_cons, seqZ_nil, Hd, Hs by lia. f_equal. lia.
Qed.

(** Nothing that was sent is taken back. *)
Lemma sent_grows a b : st_sent (b_status b) `prefix_of` st_sent (b_status (bridge_act details a b)).
Proof.
  apply (logged_act (fun sent _ => st_sent (b_status b) `prefix_of` sent)); [|unfold logged; reflexivity].
  intros m state items sent n n' d _ _ Hp. by apply prefix_app_r.
Qed.

(** ** What changes the routing *)

Lemma quiet_modify f : (forall b, routing (f b) = routing b) -> quiet (modify f).
Proof. intros Hf x b Hb. unfold modify. simpl. by rewrite Hf. Qed.

Ltac quiet_steps :=
  repeat first [progress intros | lazymatch goal with
  | |- preserves _ (bind _ _) => apply preserves_bind
  | |- preserves _ (ret _) => apply preserves_ret
  | |- preserves _ (fail _) => apply preserves_fail
  | |- preserves _ (lift _) => apply preserves_lift
  | |- preserves _ get => apply preserves_get
  | |- preserves _ (catch _ _) => apply preserves_catch
  | |- preserves _ (emit _ _) => apply quiet_emit
  | |- preserves _ (on_status _) => apply quiet_status
  | |- preserves _ (modify _) => apply quiet_modify; intros; done
  | |- preserves _ (match ?x with _ => _ end) => destruct x
  end].

Lemma quiet_runtime_state v phase warnings : quiet (emit_runtime_state v phase warnings).
Proof. intros x. unfold emit_runtime_state. quiet_steps. Qed.
Lemma quiet_fatal v e : quiet (emit_fatal details v e).
Proof. intros x. apply quiet_emit. Qed.
Lemma quiet_session v c : quiet c -> quiet (when_session v c).
Proof. intros Hc. unfold when_session. destruct (hv_session v); [done|]. intros x. apply preserves_ret. Qed.
Lemma quiet_eq {A} (c : M Bridge A) b : quiet c -> routing (fst (c b)) = routing b.
Proof. intros Hc. by apply (Hc (routing b)). Qed.

(** A command other than a turn leaves the routing alone. *)
Lemma quiet_serve v answers m : is_type ["user_turn"] (jget "type" m) = false -> quiet (serve_command details v answers m).
Proof.
  intros Hty x. unfold serve_command, emit_sessions, protocol_fatal, bridge_open_session, emit_session_snapshot, set_opened, bridge_set_preset,
    bridge_set_provider, bridge_set_workspace, bridge_refresh, emit_settings, save_provider_settings, settings_guard.
  intros b Hb. unfold bind at 1, lift at 1. destruct (jindex "type" m) as [ty|] eqn:E; [|done].
  apply jindex_jget in E. rewrite E in Hty. rewrite Hty.
  revert b Hb. match goal with |- forall b, _ -> routing (fst (?c b)) = x => change (preserves (fun b => routing b = x) c) end.
  quiet_steps; apply quiet_runtime_state.
Qed.

Lemma quiet_end_rest v turn_id outcome b :
  routing (fst (end_turn v turn_id outcome b)) = (b_router b, end_run (b_turns b), b_messages b).
Proof.
  unfold end_turn. unfold bind at 1, modify at 1. match goal with |- routing (fst (?c ?b0)) = _ => change (b_router b, end_run (b_turns b), b_messages b) with (routing b0); apply (quiet_eq c) end.
  intros x. quiet_steps; apply quiet_runtime_state.
Qed.

(** ** The invariant of the routing *)

Definition RESPONSES : list string := ["approval_response"; "user_question_response"].

(** [m] was submitted as an answer to the request [rid]. *)
Definition answered (acts : list BridgeAct) (rid : string) (m : dict) : Prop :=
  exists v answer, ASubmit v m answer ∈ acts /\ is_type RESPONSES (jget "type" m) = true /\ jget "request_id" m = JStr rid.

Definition turn_of (m : dict) : list string := if is_type ["user_turn"] (jget "type" m) then [py_str (jget "turn_id" m)] else [].
Definition queued_turns (l : list (option dict)) : list string := flat_map (fun o => match o with Some m => turn_of m | None => [] end) l.
(** The turns that were submitted. *)
Definition submitted_turns (acts : list BridgeAct) : list string := flat_map (fun a => match a with ASubmit _ m _ => turn_of m | _ => [] end) acts.

Definition waiters_of (a : option Interaction) : list (string * (option string * nat)) :=
  match a with
  | Some i => match in_pc i with Started => [] | _ => [(in_request_id i, (in_turn_id i, in_waiter i))] end
  | None => []
  end.

(** The interaction has to be woken, and a thread is about to. *)
Definition must_wake (i : Interaction) (r : Router) (t : Runner) : Prop :=
  ro_input_closed r = true \/ is_running_cancelled (in_turn_id i) t = true.
Definition wakes (i : Interaction) (th : RouterPc) : Prop :=
  match th with Collect t c => c = true /\ in_turn_id i = Some t | Wake ws _ => in_waiter i ∈ ws end.
Definition waking (i : Interaction) (r : Router) : Prop := Exists (wakes i) (ro_threads r).

Definition waits (acts : list BridgeAct) (r : Router) (t : Runner) (i : Interaction) : Prop :=
  exists q, ro_queues r !! in_waiter i = Some q /\ (forall m, Response m ∈ q -> answered acts (in_request_id i) m) /\
    (must_wake i r t -> Cancelled ∈ q \/ waking i r).

Definition request_ids (r : Router) : list string :=
  map fst (ro_results r) ++ match ro_active r with Some i => [in_request_id i] | None => [] end.

Record routed (acts : list BridgeAct) (r : Router) (t : Runner) (consumed : list string) (l : list (option dict)) : Prop := {
  rd_waiters : ro_waiters r = waiters_of (ro_active r);
  rd_waits : forall i, ro_active r = Some i -> in_pc i <> Started -> waits acts r t i;
  rd_results : forall rid out, (rid, Some out) ∈ ro_results r -> exists kind m, answered acts rid m /\ read_response kind m = Some out;
  rd_turns : consumed ++ queued_turns l `sublist_of` submitted_turns acts;
  rd_active : forall i x, ro_active r = Some i -> in_turn_id i = Some x -> x ∈ consumed;
  rd_running : forall x, rn_turn_id t = Some x -> x ∈ consumed;
  rd_idle : rn_turn_id t = None -> rn_control t = None;
  rd_ids : NoDup (request_ids r) /\ forall rid, rid ∈ request_ids r -> exists x n, rid = x +:+ ":" +:+ pretty n /\ n < ro_interaction_ids r;
}.

Lemma answered_more acts acts' rid m : answered acts rid m -> answered (acts ++ acts') rid m.
Proof. intros (v & answer & Hin & Hm). exists v, answer. split; [|done]. apply elem_of_app. by left. Qed.

Lemma routed_more acts a r t c l : routed acts r t c l -> routed (acts ++ [a]) r t c l.
Proof.
  intros [W Q R T A N I D]. split; try done.
  - intros i Hi Hpc. destruct (Q i Hi Hpc) as (q & Hq & Ha & Hw). exists q. split_and!; [done| |done]. intros m Hm. by apply answered_more, Ha.
  - intros rid out Ho. destruct (R rid out Ho) as (kind & m & Ha & Hr). exists kind, m. split; [by apply answered_more|done].
  - unfold submitted_turns in *. rewrite flat_map_app. by apply sublist_inserts_r.
Qed.

(** An answer arrives in the queue of its request. *)
Lemma routed_response acts r t c l rid m x w : routed acts r t c l -> answered acts rid m -> dget rid (ro_waiters r) = Some (x, w) ->
  routed acts (put_reply (Response m) w r) t c l.
Proof.
  intros [W Q R T A N I D] Ha Hd. split; try done. intros i Hi Hpc. simpl in Hi. destruct (Q i Hi Hpc) as (q & Hq & Hr & Hw).
  rewrite W, Hi in Hd. unfold waiters_of in Hd. assert (rid = in_request_id i /\ w = in_waiter i) as [-> ->].
  { destruct (in_pc i); [done|..]; simpl in Hd; destruct (String.eqb_spec rid (in_request_id i)); try done; by injection Hd as <- <-. }
  exists (q ++ [Response m]). simpl. rewrite list_lookup_alter_eq, Hq. split_and!; [done| |].
  - intros m' [Hm|Hm]%elem_of_app; [by auto|]. apply list_elem_of_singleton in Hm. by injection Hm as ->.
  - intros Hmust. destruct (Hw Hmust) as [Hc|Hc]; [left; apply elem_of_app; by left|by right].
Qed.

(** The runner changes, but neither the running turn nor its cancellation. *)
Lemma routed_turns acts r t t' c l : routed acts r t c l -> rn_turn_id t' = rn_turn_id t ->
  (forall x, is_running_cancelled x t' = true -> is_running_cancelled x t = true) -> (rn_control t = None -> rn_control t' = None) ->
  routed acts r t' c l.
Proof.
  intros [W Q R T A N I D] Hid Hc Hn. split; try done; [|by rewrite Hid|rewrite Hid; auto].
  intros i Hi Hpc. destruct (Q i Hi Hpc) as (q & Hq & Hr & Hw). exists q. split_and!; [done|done|]. intros [Hm|Hm]; apply Hw; [by left|right; auto].
Qed.

(** Threads that wake are added. *)
Lemma routed_thread acts r t c l th : routed acts r t c l -> routed acts (with_threads (ro_threads r ++ [th]) r) t c l.
Proof.
  intros [W Q R T A N I D]. split; try done. intros i Hi Hpc. destruct (Q i Hi Hpc) as (q & Hq & Hr & Hw). exists q. split_and!; [done|done|].
  intros Hm. destruct (Hw Hm) as [Hc|Hc]; [by left|]. right. apply Exists_app. by left.
Qed.

Lemma routed_messages acts r t c l o : routed acts r t c l -> queued_turns [o] = [] -> routed acts r t c (l ++ [o]).
Proof. intros [W Q R T A N I D] Ho. split; try done. unfold queued_turns in *. rewrite flat_map_app, Ho. simpl. by rewrite app_nil_r. Qed.

(** ** Cancelling and closing *)

Lemma is_cancelled_cancel c : is_cancelled (fst (cancel c)) = true -> is_cancelled c = true \/ snd (cancel c) = true.
Proof. unfold cancel. destruct (c_finished c || c_cancelled c); simpl; auto. Qed.

(** If a cancellation makes a turn cancelled, it is told so. *)
Lemma runner_cancel_told x y t : is_running_cancelled y (fst (runner_cancel x t)) = true ->
  is_running_cancelled y t = true \/ y = Some x /\ snd (runner_cancel x t) = true.
Proof.
  unfold runner_cancel, live_control, is_running_cancelled. destruct (rn_control t) as [c|] eqn:Ec.
  - destruct (rn_turn_id t) as [z|] eqn:Ez.
    + destruct (String.eqb_spec x z) as [->|Hne].
      * pose proof (is_cancelled_cancel c) as Hc. destruct (cancel c) as [c' told]. simpl in *. rewrite Ez. case_bool_decide; simpl; [|done].
        intros H1. destruct (Hc H1) as [H2|H2]; [by left|right; by subst].
      * destruct (name_in x (rn_queued t)); simpl; rewrite ?Ec, ?Ez; auto.
    + destruct (name_in x (rn_queued t)); simpl; rewrite ?Ec, ?Ez; auto.
  - destruct (name_in x (rn_queued t)); simpl; rewrite ?Ec; auto.
Qed.

Lemma runner_cancel_frame x t : rn_turn_id (fst (runner_cancel x t)) = rn_turn_id t /\
  (rn_control t = None -> rn_control (fst (runner_cancel x t)) = None).
Proof.
  unfold runner_cancel, live_control. destruct (rn_control t) as [c|] eqn:Ec.
  - destruct (rn_turn_id t) as [z|] eqn:Ez; [destruct (String.eqb x z); [by destruct (cancel c)|]|]; destruct (name_in x (rn_queued t)); simpl; rewrite ?Ec; done.
  - destruct (name_in x (rn_queued t)); simpl; by rewrite ?Ec.
Qed.

Lemma routed_cancel acts r t c l x : routed acts r t c l ->
  routed acts (with_threads (ro_threads r ++ [Collect x (snd (runner_cancel x t))]) r) (fst (runner_cancel x t)) c l.
Proof.
  intros [W Q R T A N I D]. destruct (runner_cancel_frame x t) as [F1 F2]. split; try done; [|by rewrite F1|rewrite F1; auto].
  intros i Hi Hpc. destruct (Q i Hi Hpc) as (q & Hq & Hr & Hw). exists q. split_and!; [done|done|]. unfold waking. simpl.
  assert (Hold : must_wake i r t -> Cancelled ∈ q \/ Exists (wakes i) (ro_threads r ++ [Collect x (snd (runner_cancel x t))])).
  { intros Hm. destruct (Hw Hm); [by left|right; apply Exists_app; by left]. }
  intros [Hm|Hm]; [apply Hold; by left|]. destruct (runner_cancel_told _ _ _ Hm) as [H1|[H1 H2]]; [apply Hold; by right|].
  right. apply Exists_app. right. apply Exists_cons. by left.
Qed.

Lemma runner_shutdown_frame t : rn_turn_id (fst (runner_shutdown t)) = rn_turn_id t /\
  (rn_control t = None -> rn_control (fst (runner_shutdown t)) = None).
Proof. unfold runner_shutdown. destruct (rn_control t) as [c|]; [by destruct (cancel c)|done]. Qed.

Lemma routed_shutdown acts notify b c :
  routed acts (b_router b) (b_turns b) c (b_messages b) ->
  let b' := route_shutdown notify b in routed acts (b_router b') (b_turns b') c (b_messages b').
Proof.
  intros [W Q R T A N I D] b'. destruct (runner_shutdown_frame (b_turns b)) as [F1 F2]. split; try done; simpl; [|by rewrite F1|rewrite F1; auto].
  intros i Hi Hpc. destruct (Q i Hi Hpc) as (q & Hq & Hr & Hw). exists q. split_and!; [done|done|]. intros _. right. apply Exists_app. right.
  apply Exists_cons. left. simpl. rewrite W, Hi. unfold waiters_of. destruct (in_pc i); [done|..]; simpl; left.
Qed.

(** A thread goes on: what it was about to do is done or still to be done. *)
Lemma exists_insert_keep {A} (P : A -> Prop) (l : list A) t x y : l !! t = Some x -> Exists P l -> (P x -> P y) -> Exists P (<[t := y]> l).
Proof.
  intros Hx (z & Hz & HP)%Exists_exists Hxy. apply list_elem_of_lookup in Hz as [j Hj]. apply Exists_exists. destruct (decide (t = j)) as [->|Hne].
  - exists y. split; [|naive_solver]. apply list_elem_of_lookup. exists j. apply list_lookup_insert_eq. by eapply lookup_lt_Some.
  - exists z. split; [|done]. apply list_elem_of_lookup. exists j. by rewrite list_lookup_insert_ne.
Qed.

Lemma routed_router_step acts k b c :
  routed acts (b_router b) (b_turns b) c (b_messages b) ->
  let b' := router_step k b in routed acts (b_router b') (b_turns b') c (b_messages b').
Proof.
  intros Hb b'. unfold b', router_step. destruct (ro_threads (b_router b) !! k) as [[x told|[|w rest] notify]|] eqn:Ek; [| | |done].
  - destruct Hb as [W Q R T A N I D]. split; try done. intros i Hi Hpc. destruct (Q i Hi Hpc) as (q & Hq & Hr & Hw). exists q. split_and!; [done|done|].
    intros Hm. destruct (Hw Hm) as [Hc|Hc]; [by left|right]. unfold waking. simpl. apply (exists_insert_keep _ _ _ _ _ Ek Hc).
    intros [-> Ht]. simpl in Hi |- *. rewrite W, Hi. unfold waiters_of. destruct (in_pc i); [done|..]; simpl; rewrite Ht, bool_decide_eq_true_2 by done; left.
  - destruct notify; [|done]. simpl. apply routed_messages; [|done]. destruct Hb as [W Q R T A N I D]. split; try done.
    intros i Hi Hpc. destruct (Q i Hi Hpc) as (q & Hq & Hr & Hw). exists q. split_and!; [done|done|]. intros Hm. destruct (Hw Hm) as [Hc|Hc]; [by left|right].
    by apply (exists_insert_keep _ _ _ _ _ Ek Hc).
  - destruct Hb as [W Q R T A N I D]. split; try done. intros i Hi Hpc. destruct (Q i Hi Hpc) as (q & Hq & Hr & Hw). simpl.
    destruct (decide (w = in_waiter i)) as [->|Hne].
    + exists (q ++ [Cancelled]). simpl. rewrite list_lookup_alter_eq, Hq. split_and!; [done| |left; apply elem_of_app; right; left].
      intros m [Hm|Hm]%elem_of_app; [by auto|]. by apply list_elem_of_singleton in Hm.
    + exists q. simpl. rewrite list_lookup_alter_ne by done. split_and!; [done|done|]. intros Hm. destruct (Hw Hm) as [Hc|Hc]; [by left|right].
      apply (exists_insert_keep _ _ _ _ _ Ek Hc). simpl. intros [?|?]%elem_of_cons; [congruence|done].
Qed.

(** ** Interactions *)

Lemma span_digits_all t : span_digits t = (t, "") -> has_char ":" t = false.
Proof.
  induction t as [|a t IH]; [done|]. cbn [span_digits has_char]. destruct (is_digit a) eqn:Ea; [|done].
  destruct (span_digits t) as [d r]. intros [= -> ->]. rewrite IH by done. rewrite orb_false_r.
  destruct (Ascii.eqb_spec ":" a) as [<-|]; [done|]. destruct (Ascii.eqb_spec a ":") as [->|]; done.
Qed.

Lemma pretty_no_colon (n : Z) : has_char ":" (pretty n) = false.
Proof.
  assert (Hp : forall p, has_char ":" (pretty (Npos p)) = false).
  { intros p. destruct (pretty_N_go_digits (Npos p)) as (t & Hgo & Hspan & _). change (pretty (Npos p)) with (pretty_N_go (Npos p) "").
    rewrite Hgo, sapp_nil_r. apply span_digits_all. specialize (Hspan "" eq_refl). by rewrite sapp_nil_r in Hspan. }
  destruct n as [|p|p]; [done|exact (Hp p)|]. change (pretty (Zneg p)) with (String "-" (pretty (Npos p))). cbn [has_char]. by rewrite Hp.
Qed.

(** The number of a request is what follows its last colon. *)
Lemma after_colon x p : forall y q, x +:+ ":" +:+ p = y +:+ ":" +:+ q -> has_char ":" p = false -> has_char ":" q = false -> p = q.
Proof.
  assert (Hlen : forall u v w z, u +:+ ":" +:+ v = w +:+ ":" +:+ z -> has_char ":" v = false -> (String.length w <= String.length u)%nat).
  { intros u. induction u as [|a u IH]; intros v w z He Hv; destruct w as [|b w]; cbn [String.append String.length] in *; try lia.
    - injection He as <- ->. rewrite has_char_app in Hv. cbn in Hv. by rewrite orb_true_r in Hv.
    - injection He as <- He. specialize (IH _ _ _ He Hv). lia. }
  intros y q He Hp Hq. pose proof (Hlen _ _ _ _ He Hp) as L1. pose proof (Hlen _ _ _ _ (eq_sym He) Hq) as L2.
  assert (Hl : String.length x = String.length y) by lia. clear -He Hl. revert y He Hl. induction x as [|a x IH]; intros [|b y] He Hl; try done.
  - by injection He as ->.
  - cbn [String.append String.length] in *. injection He as <- He. apply (IH y He). lia.
Qed.

Lemma request_id_fresh acts r t c l x : routed acts r t c l -> x +:+ ":" +:+ pretty (ro_interaction_ids r) ∉ request_ids r.
Proof.
  intros Hr Hin. destruct (rd_ids _ _ _ _ _ Hr) as [_ Hf]. destruct (Hf _ Hin) as (y & n & He & Hn).
  apply after_colon in He; try apply pretty_no_colon. apply (inj pretty) in He. lia.
Qed.

Lemma routed_start acts kind b c :
  routed acts (b_router b) (b_turns b) c (b_messages b) ->
  let b' := interaction_start kind b in routed acts (b_router b') (b_turns b') c (b_messages b').
Proof.
  intros Hb b'. unfold b', interaction_start. destruct (ro_active (b_router b)) as [i|] eqn:Ha; [done|].
  set (x := default "None" (rn_turn_id (b_turns b))). pose proof (request_id_fresh _ _ _ _ _ x Hb) as Hfresh.
  destruct Hb as [W Q R T A N I [D1 D2]]. unfold request_ids in *. rewrite Ha in *. rewrite app_nil_r in *. split; try done; simpl.
  - by intros i [= <-].
  - intros i y [= <-]. simpl. auto.
  - split.
    + apply NoDup_app. split_and!; [done| |apply NoDup_singleton]. intros z Hz Hx%list_elem_of_singleton. subst z. done.
    + intros rid [Hr|Hr]%elem_of_app.
      * destruct (D2 rid Hr) as (y & n & -> & Hn). exists y, n. split; [done|lia].
      * apply list_elem_of_singleton in Hr as ->. eexists _, _. split; [reflexivity|]. lia.
Qed.

Lemma routed_register acts b c :
  routed acts (b_router b) (b_turns b) c (b_messages b) ->
  let b' := register_interaction b in routed acts (b_router b') (b_turns b') c (b_messages b').
Proof.
  intros Hb b'. unfold b', register_interaction. destruct (ro_active (b_router b)) as [[kind x rid w []]|] eqn:Ha; try done.
  destruct Hb as [W Q R T A N I D]. unfold request_ids in D. rewrite Ha in *. split; try done; simpl.
  - by rewrite W.
  - intros i [= <-] _. eexists. simpl. rewrite lookup_app_r, Nat.sub_diag by lia. split_and!; [reflexivity| |].
    + intros m Hm. destruct (ro_input_closed (b_router b) || is_running_cancelled x (b_turns b)); [by apply list_elem_of_singleton in Hm|by apply elem_of_nil in Hm].
    + intros [Hm|Hm]; simpl in Hm; rewrite Hm; rewrite ?orb_true_r; left; left.
  - intros i y [= <-] Hy. by eapply A.
Qed.

(** The request is shown: only that is noted. *)
Lemma publish_routing v b : exists y, routing (fst (publish_interaction v b)) = y /\ (y = routing b \/
  exists kind x rid w, ro_active (b_router b) = Some (MkInteraction kind x rid w Registered) /\
    y = (with_active (Some (MkInteraction kind x rid w Published)) (b_router b), b_turns b, b_messages b)).
Proof.
  unfold publish_interaction. unfold bind at 1, get. destruct (ro_active (b_router b)) as [[kind x rid w []]|] eqn:Ha; try (exists (routing b); by auto).
  set (i := MkInteraction kind x rid w Registered).
  set (c1 := match kind with Permission _ _ _ _ => _ | Choice _ _ _ => _ end).
  assert (H1 : quiet c1) by (intros y; unfold c1; destruct kind; quiet_steps; apply quiet_session, quiet_runtime_state).
  unfold bind at 1. pose proof (quiet_eq c1 b H1) as E1. destruct (c1 b) as [b1 [u|e]]; simpl in E1; [|exists (routing b); by auto].
  unfold bind at 1. pose proof (quiet_eq _ b1 (quiet_emit v (request_message i))) as E2. rewrite E1 in E2.
  destruct (emit v (request_message i) b1) as [b2 [u'|e]]; simpl in E2; [|exists (routing b); by auto].
  eexists. split; [reflexivity|]. right. exists kind, x, rid, w. split; [done|]. injection E2 as R1 R2 R3. unfold routing. simpl. by rewrite R1, R2, R3.
Qed.

Lemma routed_published acts r t c l kind x rid w : routed acts r t c l -> ro_active r = Some (MkInteraction kind x rid w Registered) ->
  routed acts (with_active (Some (MkInteraction kind x rid w Published)) r) t c l.
Proof.
  intros [W Q R T A N I D] Ha. unfold request_ids in D. rewrite Ha in *. split; try done; simpl.
  - intros i [= <-] _. destruct (Q _ eq_refl) as (q & Hq & Hr & Hw); [done|]. exists q. split_and!; [done|done|]. intros Hm. destruct (Hw Hm); [by left|by right].
  - intros i y [= <-] Hy. by eapply A.
Qed.

Definition finished (i : Interaction) (outcome : option json) (r : Router) : Router :=
  MkRouter (dpop (in_request_id i) (ro_waiters r)) (ro_queues r) (ro_input_closed r) (ro_shutdown_requested r) (ro_interaction_ids r) None
    (ro_results r ++ [(in_request_id i, outcome)]) (ro_threads r).

Lemma finish_routing v i outcome b :
  routing (fst (finish_interaction v i outcome b)) = (finished i outcome (b_router b), b_turns b, b_messages b).
Proof.
  unfold finish_interaction. unfold bind at 1, modify at 1.
  match goal with |- routing (fst (?c ?b0)) = _ => change (finished i outcome (b_router b), b_turns b, b_messages b) with (routing b0); apply (quiet_eq c) end.
  intros x. quiet_steps. apply quiet_session, quiet_runtime_state.
Qed.

(** An interaction that ends with an outcome has an answer for it. *)
Lemma routed_finished acts r t c l i outcome : routed acts r t c l -> ro_active r = Some i -> in_pc i <> Started ->
  (forall out, outcome = Some out -> exists kind m, answered acts (in_request_id i) m /\ read_response kind m = Some out) ->
  routed acts (finished i outcome r) t c l.
Proof.
  intros [W Q R T A N I D] Ha Hpc Hout. unfold request_ids in D. rewrite Ha in D. split; try done; simpl.
  - rewrite W, Ha. unfold waiters_of. destruct (in_pc i); [done|..]; simpl; by rewrite String.eqb_refl.
  - intros rid out [Hr|Hr]%elem_of_app; [by eapply R|]. apply list_elem_of_singleton in Hr. injection Hr as -> Ho. by apply Hout.
  - unfold request_ids. simpl. rewrite map_app, app_nil_r. done.
Qed.

Definition popped (w : nat) (rest : list Reply) (r : Router) : Router :=
  MkRouter (ro_waiters r) (<[w := rest]> (ro_queues r)) (ro_input_closed r) (ro_shutdown_requested r) (ro_interaction_ids r) (ro_active r)
    (ro_results r) (ro_threads r).

Lemma routed_popped acts r t c l i x rest : routed acts r t c l -> ro_active r = Some i -> ro_queues r !! in_waiter i = Some (x :: rest) ->
  (in_pc i <> Started -> x <> Cancelled) -> routed acts (popped (in_waiter i) rest r) t c l.
Proof.
  intros [W Q R T A N I D] Ha Hq Hx. split; try done. intros i' Hi Hpc. simpl in Hi. rewrite Ha in Hi. injection Hi as <-.
  destruct (Q i Ha Hpc) as (q & Hq' & Hr & Hw). rewrite Hq in Hq'. injection Hq' as <-. exists rest. simpl. split_and!.
  - apply list_lookup_insert_eq. by eapply lookup_lt_Some.
  - intros m Hm. apply Hr. by right.
  - intros Hm. destruct (Hw Hm) as [Hc|Hc]; [left|by right]. apply elem_of_cons in Hc as [<-|Hc]; [by destruct (Hx Hpc)|done].
Qed.

Lemma routed_reply acts v b c :
  routed acts (b_router b) (b_turns b) c (b_messages b) ->
  exists r t l, routing (fst (take_reply v b)) = (r, t, l) /\ routed acts r t c l.
Proof.
  intros Hb. unfold take_reply. unfold bind at 1, get.
  destruct (ro_active (b_router b)) as [[kind x rid w []]|] eqn:Ha; try (by exists (b_router b), (b_turns b), (b_messages b)).
  set (i := MkInteraction kind x rid w Published) in *.
  destruct (ro_queues (b_router b) !! w) as [[|y rest]|] eqn:Eq; try (by exists (b_router b), (b_turns b), (b_messages b)).
  unfold bind at 1, modify at 1.
  destruct (rd_waits _ _ _ _ _ Hb i Ha ltac:(done)) as (q & Hq & Hr & _). change (in_waiter i) with w in Hq. rewrite Eq in Hq. injection Hq as <-.
  destruct y as [m|].
  - assert (Hp : routed acts (popped w rest (b_router b)) (b_turns b) c (b_messages b)) by (by apply (routed_popped acts _ _ _ _ i (Response m))).
    destruct (read_response (in_kind i) m) as [out|] eqn:Eo; [|by exists (popped w rest (b_router b)), (b_turns b), (b_messages b)].
    rewrite finish_routing. eexists _, _, _. split; [reflexivity|]. apply routed_finished; [exact Hp|done|done|]. intros out' [= <-].
    exists (in_kind i), m. split; [|done]. apply Hr. left.
  - rewrite finish_routing. eexists _, _, _. split; [reflexivity|].
    assert (Hf : routed acts (finished i None (b_router b)) (b_turns b) c (b_messages b)) by (by apply routed_finished).
    destruct Hf as [W Q R T A N I D]. by split.
Qed.

(** ** Commands *)

Lemma begin_run_frame x t t' : begin_run x t = (t', Ok tt) -> rn_turn_id t = None /\ rn_turn_id t' = Some x /\ rn_control t' <> None.
Proof. unfold begin_run. destruct (rn_turn_id t); [done|]. by intros [= <-]. Qed.

(** A new turn: no interaction is under way for it yet. *)
Lemma routed_begin acts r t t' c l x : routed acts r t (c ++ [x]) l -> begin_run x t = (t', Ok tt) -> x ∉ c ->
  (forall i, ro_active r = Some i -> in_turn_id i <> Some x) -> routed acts r t' (c ++ [x]) l.
Proof.
  intros [W Q R T A N I D] Hb Hx Hact. destruct (begin_run_frame x t t' Hb) as (H1 & H2 & H3). split; try done.
  - intros i Hi Hpc. destruct (Q i Hi Hpc) as (q & Hq & Hr & Hw). exists q. split_and!; [done|done|]. intros [Hm|Hm]; [apply Hw; by left|].
    unfold is_running_cancelled in Hm. destruct (rn_control t'); [|done]. rewrite H2 in Hm. case_bool_decide as He; [|done]. by destruct (Hact i Hi).
  - intros y. rewrite H2. intros [= <-]. apply elem_of_app. right. left.
  - by rewrite H2.
Qed.

Lemma routed_end acts r t c l : routed acts r t c l -> routed acts r (end_run t) c l.
Proof.
  intros [W Q R T A N I D]. split; try done. intros i Hi Hpc. destruct (Q i Hi Hpc) as (q & Hq & Hr & Hw). exists q. split_and!; [done|done|].
  intros [Hm|Hm]; [apply Hw; by left|done].
Qed.

(** The serving thread takes a command off the queue. *)
Lemma routed_take acts r t c o l : routed acts r t c (o :: l) -> routed acts r t (c ++ queued_turns [o]) l.
Proof.
  intros [W Q R T A N I D]. split; try done.
  - unfold queued_turns in *. simpl in *. by rewrite app_nil_r, <- app_assoc.
  - intros i x Hi Hx. apply elem_of_app. left. by eapply A.
  - intros x Hx. apply elem_of_app. left. by apply N.
Qed.

Definition held (acts : list BridgeAct) (c : list string) (b : Bridge) : Prop := routed acts (b_router b) (b_turns b) c (b_messages b).

Lemma held_routing acts c b b' : routing b' = routing b -> held acts c b -> held acts c b'.
Proof. intros [= H1 H2 H3]. unfold held. by rewrite H1, H2, H3. Qed.

Lemma held_fatal acts c v e b : held acts c b -> held acts c (fst (emit_fatal details v e b)).
Proof. apply held_routing. apply quiet_eq, quiet_fatal. Qed.

Lemma is_type_one a ty : is_type [a] ty = true -> ty = JStr a.
Proof. destruct ty; simpl; try done. rewrite orb_false_r. by intros ->%String.eqb_eq. Qed.

(** What a command does to the routing: a turn begins, or nothing. *)
Lemma serve_routing v answers m b : exists y, routing (fst (serve_command details v answers m b)) = y /\
  (y = routing b \/ exists x t', turn_of m = [x] /\ begin_run x (b_turns b) = (t', Ok tt) /\ y = (b_router b, t', b_messages b)).
Proof.
  destruct (is_type ["user_turn"] (jget "type" m)) eqn:Hty; [|exists (routing b); split; [by apply quiet_eq, quiet_serve|by left]].
  assert (Hturn : turn_of m = [py_str (jget "turn_id" m)]) by (unfold turn_of; by rewrite Hty). apply is_type_one in Hty.
  unfold serve_command. unfold bind at 1, lift at 1. destruct (jindex "type" m) as [ty|] eqn:E; [|exists (routing b); by auto].
  apply jindex_jget in E. rewrite Hty in E. subst ty. unfold bind at 1, get. cbn [is_type str_in existsb String.eqb Ascii.eqb Bool.eqb andb orb negb].
  destruct (negb (b_opened b) || false).
  { exists (routing b). split; [|by left]. apply (quiet_eq (protocol_fatal v _)). intros x. unfold protocol_fatal. quiet_steps. }
  unfold start_turn. unfold bind at 1, lift at 1. destruct (jindex "turn_id" m) as [tid|] eqn:Et; [|exists (routing b); by auto].
  apply jindex_jget in Et. subst tid. unfold bind at 1, on_status, modify at 1. unfold bind at 1, lift at 1.
  destruct (jindex "text" m); [|eexists; split; [reflexivity|]; by left]. unfold bind at 1, get. simpl.
  destruct (begin_run (py_str (jget "turn_id" m)) (b_turns b)) as [t' [[]|e]] eqn:Eb; simpl; (eexists; split; [reflexivity|]); [|by left].
  right. by exists (py_str (jget "turn_id" m)), t'.
Qed.

Lemma held_serve_end acts c b : held acts c b -> held acts c (serve_end b).
Proof. intros Hb. unfold serve_end. by apply routed_shutdown. Qed.

Lemma held_serve acts v answers b c : NoDup (submitted_turns acts) -> held acts c b -> exists c', held acts c' (serve_step details v answers b).
Proof.
  intros Hnd Hb. unfold serve_step. destruct (b_ended b), (b_running b), (b_messages b) as [|o rest] eqn:El; try (by exists c).
  pose proof Hb as Ht. unfold held in Ht. rewrite El in Ht. pose proof (routed_take _ _ _ _ _ _ Ht) as Htake.
  destruct o as [m|]; [|exists (c ++ queued_turns [None]); by apply held_serve_end]. exists (c ++ queued_turns [Some m]).
  assert (H0 : held acts (c ++ queued_turns [Some m]) (set_messages rest b)) by exact Htake.
  unfold serve_guard. destruct (serve_routing v answers m (set_messages rest b)) as (y & Hy & Hcase).
  assert (H1 : held acts (c ++ queued_turns [Some m]) (fst (serve_command details v answers m (set_messages rest b)))).
  { destruct Hcase as [->|(x & t' & Hx & Hbegin & ->)]; [by apply (held_routing _ _ _ _ Hy)|]. injection Hy as R1 R2 R3. unfold held. rewrite R1, R2, R3.
    assert (Hq : queued_turns [Some m] = [x]) by (unfold queued_turns; simpl; by rewrite Hx). unfold held in H0. rewrite Hq in *.
    assert (Hfresh : x ∉ c).
    { pose proof (sublist_NoDup _ _ Hnd (rd_turns _ _ _ _ _ Htake)) as Hd. rewrite <- app_assoc in Hd. apply NoDup_app in Hd as (_ & Hd & _).
      intros Hin. apply (Hd x Hin). left. }
    apply (routed_begin acts _ (b_turns b)); [exact H0|done|done|]. intros i Hi Hix. apply Hfresh. by apply (rd_active _ _ _ _ _ Ht i x). }
  destruct (serve_command details v answers m (set_messages rest b)) as [b1 [u|e]]; [exact H1|]. by apply held_serve_end, held_fatal.
Qed.

(** ** Submitting *)

Lemma routed_queue acts r t c l v m answer : routed acts r t c l -> routed (acts ++ [ASubmit v m answer]) r t c (l ++ [Some m]).
Proof.
  intros Hr. pose proof (rd_turns _ _ _ _ _ Hr) as Ht. apply (routed_more acts (ASubmit v m answer)) in Hr as [W Q R T A N I D]. split; try done.
  unfold queued_turns, submitted_turns in *. rewrite !flat_map_app, app_assoc. by apply sublist_app.
Qed.

Lemma steer_cancelled id text c : is_cancelled (fst (steer id text c)) = is_cancelled c.
Proof. unfold steer. destruct (c_cancelled c || c_finished c); [done|]. by destruct (submit (MkSteer id text) (c_steering c)). Qed.

Lemma routed_steer acts r t c l x id text : routed acts r t c l -> routed acts r (fst (runner_steer x id text t)) c l.
Proof.
  intros Hr. unfold runner_steer. destruct (live_control x t) as [ctl|] eqn:El.
  - assert (Hc : rn_control t = Some ctl) by (unfold live_control in El; destruct (rn_control t), (rn_turn_id t); try done; destruct (String.eqb x s); [by injection El as ->|done]).
    pose proof (steer_cancelled id text ctl) as Hs. destruct (steer id text ctl) as [ctl' ok]. simpl in *. apply (routed_turns _ _ t); [done|done| |by rewrite Hc].
    intros y. unfold is_running_cancelled. simpl. by rewrite Hc, Hs.
  - destruct (name_in x (rn_queued t) && negb (rn_shutdown t)); [|done]. by apply (routed_turns _ _ t).
Qed.

Lemma held_steer acts c v m b : held acts c b -> held acts c (fst (route_steer v m b)).
Proof.
  intros Hb. unfold route_steer. destruct (jget "steer_id" m) as [| | | |sid| |]; try done. destruct (negb (nonempty sid)); [done|].
  unfold bind at 1. match goal with |- held _ _ (fst (let '(_, _) := ?c b in _)) => set (accept := c) end.
  assert (Ha : held acts c (fst (accept b)) /\ exists ok, snd (accept b) = Ok ok).
  { unfold accept. destruct (jget "turn_id" m) as [| | | |x| |]; try (split; [done|by eexists]). destruct (jget "text" m) as [| | | |text| |]; try (split; [done|by eexists]).
    destruct (nonempty (strip text)); [|split; [done|by eexists]]. pose proof (routed_steer _ _ _ _ _ x sid (strip text) Hb) as Hs.
    destruct (runner_steer x sid (strip text) (b_turns b)) as [t' ok]. split; [exact Hs|by eexists]. }
  destruct (accept b) as [b1 [ok|e]]; simpl in Ha; [|by destruct Ha as [_ []]]. eapply held_routing; [apply quiet_eq, quiet_emit|]. apply Ha.
Qed.

Lemma held_submit acts c v m answer b : held acts c b -> held (acts ++ [ASubmit v m answer]) c (fst (submit_command v m answer b)).
Proof.
  intros Hb. pose proof (routed_more _ (ASubmit v m answer) _ _ _ _ Hb) as Hm. change (held (acts ++ [ASubmit v m answer]) c b) in Hm.
  unfold submit_command. unfold bind at 1, lift at 1. destruct (jindex "type" m) as [ty|] eqn:Ety; [|done]. apply jindex_jget in Ety.
  destruct (is_type ["approval_response"; "user_question_response"] ty) eqn:T1.
  { destruct (jget "request_id" m) as [| | | |rid| |] eqn:Er; try done. unfold modify. simpl.
    destruct (dget rid (ro_waiters (b_router b))) as [[x w]|] eqn:Ed; [|done]. unfold held. simpl.
    apply (routed_response _ _ _ _ _ rid m x); [exact Hm| |done]. exists v, answer. split_and!; [apply elem_of_app; right; left|by rewrite Ety|done]. }
  destruct (is_type ["permission_set"] ty) eqn:T2.
  { unfold bind at 1, get. destruct (b_session_opened b).
    - eapply held_routing; [|exact Hm]. apply quiet_eq. intros x. unfold bridge_set_preset. quiet_steps.
    - unfold held. simpl. apply routed_messages; [exact Hm|]. unfold queued_turns. simpl. unfold turn_of. rewrite Ety. apply is_type_one in T2. by rewrite T2. }
  destruct (is_type ["user_steer"] ty); [by apply held_steer|].
  destruct (is_type ["cancel"] ty).
  { unfold modify. simpl. unfold route_cancel. destruct (jget "turn_id" m) as [| | | |x| |]; try done.
    pose proof (routed_cancel _ _ _ _ _ x Hm) as Hc. destruct (runner_cancel x (b_turns b)) as [t' told]. exact Hc. }
  set (announce := if is_type ["user_turn"] ty then _ else ret tt).
  assert (Ha : held acts c (fst (announce b)) /\ held (acts ++ [ASubmit v m answer]) c (fst (announce b))).
  { unfold announce. destruct (is_type ["user_turn"] ty); [|done]. destruct (jget "turn_id" m) as [| | | |x| |]; try done. unfold bind, modify.
    split; (eapply held_routing; [apply quiet_eq, quiet_emit|]); by apply (routed_turns _ _ (b_turns b)). }
  unfold bind at 1. destruct (announce b) as [b1 [u|e]]; [|apply Ha]. by apply routed_queue, Ha.
Qed.

Lemma agent_control_frame op t : rn_turn_id (agent_control op t) = rn_turn_id t /\
  (forall x, is_running_cancelled x (agent_control op t) = true -> is_running_cancelled x t = true) /\ (rn_control t = None -> rn_control (agent_control op t) = None).
Proof.
  assert (Hd : forall c, is_cancelled (fst (drain_steering c)) = is_cancelled c).
  { intros c. unfold drain_steering. by destruct (c_cancelled c || c_finished c). }
  assert (Hf : forall c, is_cancelled (fst (finish c)) = is_cancelled c).
  { intros c. unfold finish. destruct (c_cancelled c || c_finished c); [done|]. by destruct (drain_or_close (c_steering c)). }
  unfold agent_control, is_running_cancelled. destruct op, (rn_control t) eqn:E; simpl; rewrite ?E, ?Hd, ?Hf; done.
Qed.

Lemma held_act acts a b c : NoDup (submitted_turns (acts ++ [a])) -> held acts c b -> exists c', held (acts ++ [a]) c' (bridge_act details a b).
Proof.
  intros Hnd Hb. pose proof (routed_more _ a _ _ _ _ Hb) as Hm. change (held (acts ++ [a]) c b) in Hm. destruct a; simpl.
  - exists c. pose proof (held_submit acts c v message answer b Hb) as Hs. destruct (submit_command v message answer b) as [b1 [u|e]]; [exact Hs|].
    apply routed_shutdown. by apply held_fatal.
  - exists c. by apply routed_shutdown.
  - exists c. by apply routed_router_step.
  - exists c. by apply routed_start.
  - exists c. by apply routed_register.
  - exists c. destruct (publish_routing v b) as (y & Hy & [->|(kind & x & rid & w & Ha & ->)]); [by apply (held_routing _ _ _ _ Hy)|].
    injection Hy as R1 R2 R3. unfold held. rewrite R1, R2, R3. by apply routed_published.
  - exists c. destruct (routed_reply _ v b c Hm) as (r & t & l & Hy & Hr). injection Hy as R1 R2 R3. unfold held. by rewrite R1, R2, R3.
  - by apply (held_serve _ _ _ _ c).
  - exists c. destruct (agent_control_frame op (b_turns b)) as (F1 & F2 & F3). by apply (routed_turns _ _ (b_turns b)).
  - exists c. destruct (b_running b) as [x|]; [|done]. unfold serve_guard. pose proof (quiet_end_rest v x result b) as Hy.
    destruct (end_turn v x result b) as [b1 [u|e]]; injection Hy as R1 R2 R3.
    + unfold held. rewrite R1, R2, R3. by apply routed_end.
    + apply held_serve_end, held_fatal. unfold held. rewrite R1, R2, R3. by apply routed_end.
  - exists c. eapply held_routing; [apply quiet_eq, quiet_emit|done].
  - exists c. eapply held_routing; [|exact Hm]. apply quiet_eq. intros x. unfold emit_agent_event. quiet_steps.
Qed.
End events.

Definition bridge_run `{FloatText} (details : exn -> dict) (acts : list BridgeAct) : Bridge :=
  fold_left (fun b a => bridge_act details a b) acts new_bridge_state.

(** Whatever the threads of a bridge do, the events it has sent are numbered 1, 2, 3,
    ...: what [channel_gets_its_events] and [attached_client_misses_nothing] ask of
    a channel. *)
Lemma bridge_events_numbered `{FloatText} details acts : numbered_from 0 (st_sent (b_status (bridge_run details acts))).
Proof.
  assert (Hn : logged numbered_log (bridge_run details acts)); [|apply Hn]. unfold bridge_run.
  assert (H0 : logged numbered_log new_bridge_state) by done. revert H0.
  generalize new_bridge_state. induction acts as [|a acts IH]; intros b Hb; [done|]. simpl. apply IH, logged_act; [apply numbered_publish|done].
Qed.

Lemma bridge_held `{FloatText} details acts : NoDup (submitted_turns acts) -> exists c, held acts c (bridge_run details acts).
Proof.
  induction acts as [|a acts IH] using rev_ind; intros Hnd.
  - exists []. split; simpl; try done; [by intros ? ? ?%elem_of_nil|split; [constructor|by intros ? ?%elem_of_nil]].
  - unfold bridge_run. rewrite fold_left_app. simpl. destruct IH as [c Hc].
    { unfold submitted_turns in *. rewrite flat_map_app in Hnd. by apply NoDup_app in Hnd as (? & _ & _). }
    by apply (held_act _ _ _ _ c).
Qed.

(** C15: however the transport, the serving thread, threads that ask the user,
    cancellations and shutdown interleave (turns have different ids), permission is
    granted only by an answer the front end has submitted for this very request, a
    request id is never used twice, and nobody waits in vain: once the threads that
    route a cancellation or a shutdown are done, the question that is open for a
    cancelled turn or a closed session has the cancellation in its queue. *)
Theorem question_answered_or_woken `{FloatText} details acts :
  NoDup (submitted_turns acts) ->
  let b := bridge_run details acts in
  let r := b_router b in
  (forall rid, (rid, Some (JBool true)) ∈ ro_results r ->
     exists v m answer, ASubmit v m answer ∈ acts /\ is_type RESPONSES (jget "type" m) = true /\
       jget "request_id" m = JStr rid /\ truthy (jget "approved" m) = true) /\
  NoDup (request_ids r) /\
  (forall i, ro_active r = Some i -> in_pc i <> Started -> Forall (fun th => exists n, th = Wake [] n) (ro_threads r) ->
     must_wake i r (b_turns b) -> exists q, ro_queues r !! in_waiter i = Some q /\ Cancelled ∈ q).
Proof.
  intros Hnd b r. destruct (bridge_held details acts Hnd) as [c Hc]. fold b in Hc. unfold held in Hc. fold r in Hc. split_and!.
  - intros rid Hr. destruct (rd_results _ _ _ _ _ Hc rid _ Hr) as (kind & m & (v & answer & Hin & Hty & Hid) & Ho). exists v, m, answer. split_and!; [done..|].
    destruct kind as [|question options free]; simpl in Ho; [by injection Ho|]. exfalso. revert Ho.
    destruct (jget "option_id" m); try (destruct (dget s (option_by_id options))); destruct (jget "text" m); try done; by destruct (_ && _).
  - apply Hc.
  - intros i Hi Hpc Hth Hm. destruct (rd_waits _ _ _ _ _ Hc i Hi Hpc) as (q & Hq & _ & Hw). exists q. split; [done|]. destruct (Hw Hm) as [|Hx]; [done|].
    apply Exists_exists in Hx as (th & Hin & Hwake). rewrite Forall_forall in Hth. destruct (Hth th Hin) as [n ->]. by apply elem_of_nil in Hwake.
Qed.

#[local] Instance bridge_floats : FloatText := {| float_repr b := "0.0" |}.
Definition demo_view : HostView := MkView None None None None None.
Definition demo_turn : dict := [("type", JStr "user_turn"); ("turn_id", JStr "t"); ("text", JStr "hi")].
Definition demo_cancel : dict := [("type", JStr "cancel"); ("turn_id", JStr "t")].
Definition demo_answer (rid : string) : dict := [("type", JStr "approval_response"); ("request_id", JStr rid); ("approved", JBool true)].
Definition demo_host : HostAnswers :=
  MkHostAnswers true (Ok false) (Ok "m") [] [] (Ok tt) (Ok (false, "m")) (Ok false) (Ok ("p", "m")) (Ok JNull) (Ok JNull) (Ok tt).
Definition demo_session : HostView := MkView (Some (MkSessionView "s" "ask_for_approval" None [])) None (Some "p") None (Some "/w").

(** The first question is answered; the second is open when the turn is cancelled. *)
Lemma question_answered_or_woken_witness :
  let ask := AInteract (Permission "ls" "shell" None None) in
  let acts := [ASubmit demo_view [("type", JStr "open_session"); ("workspace", JStr "/w")] (Ok tt); AServe demo_session demo_host;
               ASubmit demo_session demo_turn (Ok tt); AServe demo_session demo_host;
               ask; ARegister; APublish demo_session; ASubmit demo_session (demo_answer "t:1") (Ok tt); AReply demo_session;
               ask; ARegister; APublish demo_session; ASubmit demo_session demo_cancel (Ok tt); ARouter 0; ARouter 0] in
  let b := bridge_run (fun _ => []) acts in
  ro_results (b_router b) = [("t:1", Some (JBool true))] /\
  exists i q, ro_active (b_router b) = Some i /\ ro_queues (b_router b) !! in_waiter i = Some q /\ Cancelled ∈ q.
Proof.
  intros ask acts b. split; [vm_compute; reflexivity|].
  assert (Hnd : NoDup (submitted_turns acts)) by (vm_compute; repeat constructor; apply not_elem_of_nil).
  destruct (question_answered_or_woken (fun _ => []) acts Hnd) as (_ & _ & Hw). fold b in Hw.
  assert (exists i, ro_active (b_router b) = Some i /\ in_pc i = Published /\ must_wake i (b_router b) (b_turns b)) as (i & Hi & Hp & Hm).
  { vm_compute. eexists. split_and!; [reflexivity|reflexivity|]. right. reflexivity. }
  assert (Hth : Forall (fun th => exists n, th = Wake [] n) (ro_threads (b_router b))) by (vm_compute; repeat constructor; by eexists).
  assert (Hpc : in_pc i <> Started) by (rewrite Hp; discriminate).
  destruct (Hw i Hi Hpc Hth Hm) as (q & Hq & Hc). exists i, q. split; [exact Hi|]. split; [exact Hq|exact Hc].
Defined.
