(* ===== verification/BridgeServer.v ===== *)
(** * The bridge process

    interfaces/bridge/server.py: one process serves the channels of all sessions.
    Its main thread reads command lines and submits them to the adapter of their
    channel ([Bridge]), a thread per channel serves them, and all write events to
    one output.  A command that a front end sends ([Transport.channel_send]) is read
    back as it was sent, and the output holds, for each channel, the numbered events
    of its adapter. *)

From stdpp Require Import base list strings.
From Stdlib Require Import ZArith Lia.
From S2P Require Import Prelude PyData PyStr Json Content PyText JsonText Jsonl TurnRunner Protocol SessionHost SessionHostThms Bridge BridgeThms.

(** What the process has written. *)
Inductive Output := OReady | OEvent (channel_id : string) (event : dict) | OClosed (channel_id : string).

Definition output_message (o : Output) : dict :=
  match o with
  | OReady => [("type", JStr "bridge_ready"); ("protocol_version", JInt PROTOCOL_VERSION)]
  | OEvent id e => [("type", JStr "channel_event"); ("channel_id", JStr id); ("event", JObj e)]
  | OClosed id => [("type", JStr "channel_closed"); ("channel_id", JStr id)]
  end.

Record Server := MkServer { sv_channels : list (string * Bridge); sv_output : list Output }.
Definition new_server : Server := MkServer [] [OReady].

Inductive ServeOutcome := ServeOn | ServeReturns | ServeRaises (e : exn).

Section server.
Context `{FloatText} `{FloatRead}.
Variable details : exn -> dict.

(** A thread acts on the adapter of a channel: what it sends is written. *)
Definition channel_act (id : string) (a : BridgeAct) (s : Server) : Server :=
  match dget id (sv_channels s) with
  | Some b =>
      let b' := bridge_act details a b in
      MkServer (dset id b' (sv_channels s))
        (sv_output s ++ map (OEvent id) (drop (length (st_sent (b_status b))) (st_sent (b_status b'))))
  | None => s
  end.

(** One line of [serve]; [v] and [answer] are what the host of the channel is and
    answers. *)
Definition serve_line (line : string) (v : HostView) (answer : res unit) (s : Server) : Server * ServeOutcome :=
  if negb (nonempty (strip line)) then (s, ServeOn) else
  match decode_bridge_command line with
  | Err e => (s, ServeRaises e)
  | Ok message =>
      if is_type ["shutdown"] (jget "type" message) then (s, ServeReturns) else
      match jget "channel_id" message with
      | JStr id =>
          if is_type ["close_channel"] (jget "type" message) then
            match dget id (sv_channels s) with
            | Some _ => (channel_act id AStop s, ServeOn)
            | None => (MkServer (sv_channels s) (sv_output s ++ [OClosed id]), ServeOn)
            end
          else
            match jget "command" message with
            | JObj command =>
                match dget id (sv_channels s) with
                | Some _ => (channel_act id (ASubmit v command answer) s, ServeOn)
                | None =>
                    if is_type ["open_session"] (jget "type" command)
                    then (channel_act id (ASubmit v command answer) (MkServer (dset id new_bridge_state (sv_channels s)) (sv_output s)), ServeOn)
                    else (s, ServeRaises (Exn EProtocol "first channel command must be 'open_session'"))
                end
            | _ => (s, ServeOn)
            end
      | _ => (s, ServeOn)
      end
  end.

(** The end of [_serve_channel]: the channel is taken out and reported. *)
Definition channel_ended (id : string) (s : Server) : Server :=
  match dget id (sv_channels s) with
  | Some b => if b_ended b then MkServer (dpop id (sv_channels s)) (sv_output s ++ [OClosed id]) else s
  | None => s
  end.

Inductive ServerOp :=
| SLine (line : string) (v : HostView) (answer : res unit)
| SAct (id : string) (a : BridgeAct)
| SEnded (id : string).

Definition server_step (op : ServerOp) (s : Server) : Server :=
  match op with
  | SLine line v answer => fst (serve_line line v answer s)
  | SAct id a => channel_act id a s
  | SEnded id => channel_ended id s
  end.

(** ** Commands *)

(** The line a front end writes for a command. *)
Definition command_line (channel_id : string) (command : dict) : string :=
  dumps (JObj [("type", JStr "channel_command"); ("channel_id", JStr channel_id); ("command", JObj command)]) +:+ NL.

Lemma command_roundtrip channel_id command :
  channel_id <> "" -> json_ok (JObj command) -> is_type COMMAND_TYPES (jget "type" command) = true ->
  decode_bridge_command (command_line channel_id command) =
    Ok [("type", JStr "channel_command"); ("channel_id", JStr channel_id); ("command", JObj command)].
Proof.
  intros Hid Hok Hty. set (d := [("type", JStr "channel_command"); ("channel_id", JStr channel_id); ("command", JObj command)]).
  assert (Hrec : is_record (JObj d)).
  { split; [|by eexists]. split; [apply (bool_decide_unpack _); vm_compute; exact I|]. cbn [map fold_right snd d]. split; [exact I|]. split; [exact I|]. split; [exact Hok|exact I]. }
  assert (Hdec : decode (encode (JObj command)) = Ok command).
  { unfold decode, encode. rewrite loads_dumps by done. cbn [res_bind]. destruct (jget "type" command) as [| | | |ty| |]; try done.
    cbn [is_type] in Hty. by rewrite Hty. }
  unfold decode_bridge_command, command_line. fold d. rewrite loads_line by done. cbn [as_protocol_error res_bind].
  change (jget "type" d) with (JStr "channel_command"). change (jget "channel_id" d) with (JStr channel_id). change (jget "command" d) with (JObj command).
  cbv beta iota zeta. rewrite (proj2 (nonempty_true channel_id) Hid), Hdec. done.
Qed.

(** ** What is written for a channel *)

(** The events of the channel since it was last closed. *)
Fixpoint current_events (id : string) (acc : list dict) (l : list Output) : list dict :=
  match l with
  | [] => acc
  | OEvent id' e :: l' => current_events id (if String.eqb id id' then acc ++ [e] else acc) l'
  | OClosed id' :: l' => current_events id (if String.eqb id id' then [] else acc) l'
  | OReady :: l' => current_events id acc l'
  end.

Lemma current_events_app id l l' : forall acc, current_events id acc (l ++ l') = current_events id (current_events id acc l) l'.
Proof. induction l as [|[|id' e|id'] l IH]; intros acc; simpl; auto. Qed.

Lemma current_events_own id es acc : current_events id acc (map (OEvent id) es) = acc ++ es.
Proof. revert acc. induction es as [|e es IH]; intros acc; simpl; [by rewrite app_nil_r|]. rewrite String.eqb_refl, IH, <- app_assoc. done. Qed.
Lemma current_events_other id id' es acc : id <> id' -> current_events id acc (map (OEvent id') es) = acc.
Proof. intros Hne. revert acc. induction es as [|e es IH]; intros acc; simpl; [done|]. by rewrite (proj2 (String.eqb_neq _ _) Hne), IH. Qed.

(** What is written for a channel at any time is numbered, and is what its adapter
    has sent. *)
Record served (s : Server) : Prop := {
  sd_keys : NoDup (dkeys (sv_channels s));
  sd_log : forall id b, dget id (sv_channels s) = Some b -> logged numbered_log b /\ current_events id [] (sv_output s) = st_sent (b_status b);
  sd_none : forall id, dget id (sv_channels s) = None -> current_events id [] (sv_output s) = [];
  sd_prefix : forall id l, l `prefix_of` sv_output s -> numbered_from 0 (current_events id [] l);
}.

Lemma numbered_prefix l l' : l `prefix_of` l' -> numbered_from 0 l' -> numbered_from 0 l.
Proof.
  intros [r ->] Hn. unfold numbered_from in *. rewrite map_app, length_app, Nat2Z.inj_add, seqZ_app in Hn by lia.
  apply app_inj_1 in Hn as [Hn _]; [done|]. rewrite length_map, length_seqZ. lia.
Qed.

Lemma prefix_map_inv {A B} (f : A -> B) l l' : l `prefix_of` map f l' -> exists l1, l = map f l1 /\ l1 `prefix_of` l'.
Proof.
  intros [r Hr]. exists (take (length l) l'). split; [|apply prefix_take]. rewrite <- firstn_map, Hr. by rewrite take_app_length.
Qed.

Lemma prefix_of_app {A} (l a b : list A) : l `prefix_of` a ++ b -> l `prefix_of` a \/ exists l2, l = a ++ l2 /\ l2 `prefix_of` b.
Proof.
  intros [r Hr]. apply app_eq_inv in Hr as [(k & -> & ->)|(k & -> & ->)]; [left; by eexists|right]. exists k. split; [done|by eexists].
Qed.

(** Events of one channel are appended. *)
Lemma served_events s id b b' new :
  served s -> dget id (sv_channels s) = Some b -> logged numbered_log b' -> st_sent (b_status b') = st_sent (b_status b) ++ new ->
  served (MkServer (dset id b' (sv_channels s)) (sv_output s ++ map (OEvent id) new)).
Proof.
  intros [K L O P] Hb Hlog Hnew. destruct (L id b Hb) as [_ Hcur]. split; simpl.
  - by apply dset_NoDup.
  - intros id' b2 Hd. rewrite current_events_app. destruct (decide (id = id')) as [<-|Hne].
    + rewrite dget_dset_eq in Hd. injection Hd as <-. by rewrite current_events_own, Hcur.
    + rewrite dget_dset_ne in Hd by done. destruct (L id' b2 Hd) as [H1 H2]. split; [done|]. by rewrite current_events_other by done.
  - intros id' Hd. destruct (decide (id = id')) as [<-|Hne]; [by rewrite dget_dset_eq in Hd|]. rewrite dget_dset_ne in Hd by done.
    rewrite current_events_app, current_events_other by done. auto.
  - intros id' l Hl. apply prefix_of_app in Hl as [Hl|(l2 & -> & Hl2)]; [by apply P|]. apply prefix_map_inv in Hl2 as (es & -> & Hes).
    rewrite current_events_app. destruct (decide (id' = id)) as [->|Hne]; [|rewrite current_events_other by done; by apply P].
    rewrite current_events_own, Hcur. destruct Hlog as [Hn _]. rewrite Hnew in Hn. eapply numbered_prefix; [|exact Hn]. by apply prefix_app.
Qed.

Lemma served_closed s id cs : served s -> NoDup (dkeys cs) -> dget id cs = None -> (forall id', id' <> id -> dget id' cs = dget id' (sv_channels s)) ->
  served (MkServer cs (sv_output s ++ [OClosed id])).
Proof.
  intros [K L O P] Hk Hid Hcs.
  assert (Hc : forall id', current_events id' [] (sv_output s ++ [OClosed id]) = if String.eqb id' id then [] else current_events id' [] (sv_output s)).
  { intros id'. by rewrite current_events_app. }
  split; simpl; [done| | |].
  - intros id' b Hb. assert (Hne : id' <> id) by (intros ->; congruence). rewrite Hc, (proj2 (String.eqb_neq _ _) Hne). rewrite Hcs in Hb by done. auto.
  - intros id' Hb. rewrite Hc. destruct (String.eqb_spec id' id) as [->|Hne]; [done|]. apply O. by rewrite <- Hcs.
  - intros id' l Hl. apply prefix_of_app in Hl as [Hl|(l2 & -> & Hl2)]; [by apply P|]. destruct l2 as [|o l2]; [rewrite app_nil_r; by apply P|].
    destruct Hl2 as [r Hr]. injection Hr as <- Hr. assert (l2 = []) as -> by (by destruct l2). rewrite Hc. destruct (String.eqb id' id); [done|]. by apply P.
Qed.

Lemma served_act s id a : served s -> served (channel_act id a s).
Proof.
  intros Hs. unfold channel_act. destruct (dget id (sv_channels s)) as [b|] eqn:Hb; [|done].
  destruct (sent_grows details a b) as [new Hnew]. rewrite Hnew, drop_app_length. apply (served_events s id b); [done|done| |done].
  apply logged_act; [apply numbered_publish|]. by destruct (sd_log _ Hs id b Hb).
Qed.

Lemma served_open s id : served s -> dget id (sv_channels s) = None -> served (MkServer (dset id new_bridge_state (sv_channels s)) (sv_output s)).
Proof.
  intros [K L O P] Hid. split; simpl; [by apply dset_NoDup| | |done].
  - intros id' b Hb. destruct (decide (id = id')) as [<-|Hne]; [|rewrite dget_dset_ne in Hb by done; auto].
    rewrite dget_dset_eq in Hb. injection Hb as <-. split; [done|]. by apply O.
  - intros id' Hb. destruct (decide (id = id')) as [<-|Hne]; [by rewrite dget_dset_eq in Hb|]. rewrite dget_dset_ne in Hb by done. auto.
Qed.

Lemma served_step op s : served s -> served (server_step op s).
Proof.
  intros Hs. destruct op as [line v answer|id a|id]; simpl; [|by apply served_act|].
  - unfold serve_line. destruct (negb (nonempty (strip line))); [done|]. destruct (decode_bridge_command line) as [m|]; [|done].
    destruct (is_type ["shutdown"] (jget "type" m)); [done|]. destruct (jget "channel_id" m) as [| | | |id| |]; try done.
    destruct (is_type ["close_channel"] (jget "type" m)).
    + destruct (dget id (sv_channels s)) eqn:Hb; [by apply served_act|]. by apply served_closed; [|apply Hs|..].
    + destruct (jget "command" m) as [| | | | | |command]; try done. destruct (dget id (sv_channels s)) eqn:Hb; [by apply served_act|].
      destruct (is_type ["open_session"] (jget "type" command)); [|done]. by apply served_act, served_open.
  - unfold channel_ended. destruct (dget id (sv_channels s)) as [b|] eqn:Hb; [|done]. destruct (b_ended b); [|done].
    apply served_closed; [done|by apply dpop_NoDup, Hs|by apply dget_dpop_eq, Hs|]. intros id' Hne. by apply dget_dpop_ne.
Qed.

Definition server_run (ops : list ServerOp) : Server := fold_left (fun s op => server_step op s) ops new_server.

Lemma served_run ops : served (server_run ops).
Proof.
  unfold server_run. assert (H1 : served new_server).
  { split; simpl; [constructor|done|done|]. intros id l [r Hr]. destruct l as [|o l]; [done|]. injection Hr as <- Hr. assert (l = []) as -> by (by destruct l). done. }
  revert H1. generalize new_server. induction ops as [|op ops IH]; intros s Hs; [done|]. simpl. by apply IH, served_step.
Qed.
End server.
