(* ===== verification/Delivery.v ===== *)
(** * From the adapter of a session to its clients

    The parts put together: the server numbers and writes the events of a session
    ([BridgeServer]), the pipe hands the bytes over in chunks and the front end sorts
    them by channel ([Transport]), and the host of the session gives them to its
    clients ([SessionHost]). *)

From stdpp Require Import base list strings list_numbers.
From Stdlib Require Import ZArith Lia.
From S2P Require Import Prelude PyData PyStr Json Content PyText JsonText Jsonl TurnRunner Protocol SessionHost SessionHostThms Transport TransportThms Bridge BridgeThms BridgeServer.

(** What the server writes, as the front end reads it. *)
Definition wire (o : Output) : json := JObj (output_message o).

Section delivery.
Context `{FloatText} `{FloatRead}.

(** What a channel that reads the records from [l] gets continues what was written
    for it, up to where it is closed. *)
Lemma channel_events_current id tr : forall l acc, trace_records tr = map wire l ->
  exists l', l' `prefix_of` l /\ acc ++ omap Datatypes.id (channel_events id tr) = current_events id acc l'.
Proof.
  assert (Hnil : forall (l : list Output) acc, exists l', l' `prefix_of` l /\ acc ++ [] = current_events id acc l').
  { intros l acc. exists []. split; [apply prefix_nil|]. by rewrite app_nil_r. }
  induction tr as [|[r|e|op] tr IH]; intros l acc Hr; [apply Hnil| |by apply IH..].
  destruct l as [|o l]; [done|]. cbn in Hr. injection Hr as -> Hr. cbn [channel_events step_event].
  assert (Hgo : forall x acc', event_for id (wire o) = x -> (forall l', current_events id acc (o :: l') = current_events id acc' l') ->
    (match x with Some (Some e) => acc' = acc ++ [e] | Some None => False | None => acc' = acc end) ->
    exists l', l' `prefix_of` o :: l /\ acc ++ omap Datatypes.id (channel_events id (TRecord (wire o) :: tr)) = current_events id acc l').
  { intros x acc' Hx Hcur Hacc. destruct (IH l acc' Hr) as (l' & Hl' & Heq). exists (o :: l'). split; [by apply prefix_cons|]. rewrite Hcur, <- Heq.
    cbn [channel_events step_event]. rewrite Hx. destruct x as [[e|]|]; [subst acc'; cbn; by rewrite <- app_assoc|done|by subst acc']. }
  destruct o as [|id' e|id'].
  - by apply (Hgo None acc).
  - unfold wire, event_for in Hgo. cbn in Hgo. destruct (String.eqb_spec id id') as [<-|Hne].
    + apply (Hgo (Some (Some e)) (acc ++ [e])); [|done|done]. by rewrite bool_decide_eq_true_2.
    + apply (Hgo None acc); [|done|done]. by rewrite bool_decide_eq_false_2 by congruence.
  - destruct (String.eqb_spec id id') as [<-|Hne].
    + unfold wire, event_for. cbn. rewrite bool_decide_eq_true_2 by done. cbn. apply Hnil.
    + apply (Hgo None acc); [|intros l'; cbn; by rewrite (proj2 (String.eqb_neq _ _) Hne)|done]. unfold wire, event_for. cbn. by rewrite bool_decide_eq_false_2 by congruence.
Qed.

Lemma trace_records_split l l' : trace_records (l ++ l') = trace_records l ++ trace_records l'.
Proof. apply omap_app. Qed.

(** The records a prefix of the trace has are the outputs up to a point. *)
Lemma records_outputs before after out :
  trace_records (before ++ after) `prefix_of` map wire out ->
  exists o1 o2 o3, out = o1 ++ o2 ++ o3 /\ trace_records before = map wire o1 /\ trace_records after = map wire o2.
Proof.
  rewrite trace_records_split. intros [r Hr]. rewrite <- app_assoc in Hr. apply map_eq_app in Hr as (o1 & o' & -> & H1 & Hr).
  apply map_eq_app in Hr as (o2 & o3 & -> & H2 & H3). by exists o1, o2, o3.
Qed.
End delivery.

(** A channel that is opened when nothing is left of a former one of its name gets
    what is written for it from then on, numbered from 1, and at the end perhaps the
    report that the transport is lost. *)
Lemma channel_numbered `{FloatText} `{FloatRead} details ops pipe more k ch :
  let out := sv_output (server_run details ops) in
  let p := pipe_run pipe new_bridge in
  Forall is_record (map wire out) -> chunks pipe +:+ more = record_lines (map wire out) -> bp_objects p !! k = Some ch ->
  exists before read, length (bp_objects (trace_run before new_bridge)) = k /\ trace_records before = map wire read /\ read `prefix_of` out /\
    (exists rest, trace_of "" pipe (before ++ TOp (BOpen (ch_id ch)) :: rest)) /\
    (current_events (ch_id ch) [] read = [] ->
     numbered_from 0 (omap id (ch_messages ch)) /\
     exists written report, read ++ written `prefix_of` out /\ omap id (ch_messages ch) = current_events (ch_id ch) [] written ++ report /\
       (bp_reading p = true -> report = [])).
Proof.
  intros out p Hrs Hb Hk. destruct (channel_delivery _ pipe more Hrs Hb) as (trace & Hops & Hrec & _ & Hc). fold p in Hc.
  destruct (Hc k ch Hk) as (before & after & [rest ->] & _ & Hat & Hm & Hnum).
  assert (Hpre : trace_records (before ++ after) `prefix_of` map wire out).
  { etransitivity; [|exact Hrec]. rewrite !trace_records_split. exists (trace_records rest). by rewrite <- ?app_assoc. }
  destruct (records_outputs before after out Hpre) as (o1 & o2 & o3 & Hout & H1 & H2).
  exists before, o1. split_and!; [done|done|by exists (o2 ++ o3)| |].
  { exists (after ++ rest). by rewrite <- app_assoc in Hops. }
  intros Hnil. destruct (channel_events_current (ch_id ch) after o2 [] H2) as (l & [l2 ->] & Hl). simpl in Hl. split.
  - apply Hnum. rewrite Hl. pose proof (sd_prefix _ (served_run details ops) (ch_id ch) (o1 ++ l)) as Hp.
    rewrite current_events_app, Hnil in Hp. apply Hp. fold out. rewrite Hout. exists (l2 ++ o3). by rewrite <- !app_assoc.
  - eexists l, _. split_and!; [exists (l2 ++ o3); rewrite Hout; by rewrite <- !app_assoc|rewrite Hm, omap_app, Hl; reflexivity|].
    intros ->. done.
Qed.


#[local] Instance demo_float_text : FloatText := {| float_repr b := "0.0" |}.
#[local] Instance demo_float_read : FloatRead := {| float_value s := 0 |}.

Lemma wire_records l : forallb (fun o => plain_json (wire o)) l = true -> Forall is_record (map wire l).
Proof.
  rewrite forallb_forall. intros Hl. apply Forall_forall. intros r Hr. apply list_elem_of_In, in_map_iff in Hr as (o & <- & Ho).
  split; [by apply plain_json_ok, Hl|by eexists].
Qed.

Lemma chunks_only_records op rest pipe : Forall (fun s => exists c, s = PChunk c) pipe ->
  forall b before, trace_of b pipe (before ++ TOp op :: rest) -> False.
Proof.
  induction 1 as [|s' pipe [c ->] Hp IH]; intros b before Ht.
  - inversion Ht. by destruct before.
  - inversion Ht as [|b' c' now b'' pipe' t H1 H2 H3 H5 H4| |]; subst. assert (exists before', t = before' ++ TOp op :: rest) as [before' ->].
    { clear -H4. revert before H4. induction now as [|r now IH]; intros before H4; [by exists before|]. destruct before as [|s before]; [done|].
      injection H4 as _ H4. by apply (IH before). }
    by apply (IH b'' before').
Qed.

(** The first step of the pipe opens the channel: nothing was read before. *)
Lemma opened_first id pipe before rest : Forall (fun s => exists c, s = PChunk c) pipe ->
  trace_of "" (POp (BOpen id) :: pipe) (before ++ TOp (BOpen id) :: rest) -> before = [].
Proof.
  intros Hp Ht. inversion Ht as [| | |b op pipe' t Ht' Hb Hop Htr]; subst. destruct before as [|s before]; [done|].
  injection Htr as _ ->. by apply chunks_only_records in Ht'.
Qed.

(** Opening a session: the command of the front end, and the thread that serves it. *)
Definition demo_open : dict := [("type", JStr "open_session"); ("session_id", JStr "s"); ("workspace", JStr "/w")].
Definition demo_ops : list ServerOp := [SLine (command_line "s" demo_open) demo_session (Ok tt); SAct "s" (AServe demo_session demo_host);
   SAct "s" (AEvent demo_session "assistant_delta" [("text", JStr "hi")])].


(** A channel that ends while the front end closes it is reported closed twice; if
    the front end has opened the session again in between, the second report ends
    the new channel, for which nothing was written. *)
Definition failing_host : HostAnswers :=
  MkHostAnswers true (Err (Exn ERuntimeError "no runtime")) (Ok "m") [] [] (Ok tt) (Ok (false, "m")) (Ok false) (Ok ("p", "m")) (Ok JNull) (Ok JNull) (Ok tt).
Definition close_line (channel_id : string) : string := dumps (JObj [("type", JStr "close_channel"); ("channel_id", JStr channel_id)]) +:+ NL.

Lemma late_close_ends_new_channel :
  let first := [SLine (command_line "s" demo_open) demo_view (Ok tt); SAct "s" (AServe demo_view failing_host); SEnded "s"] in
  let bytes ops := record_lines (map wire (sv_output (server_run (fun _ => []) ops))) in
  let pipe := [POp (BOpen "s"); PChunk (bytes first); POp (BOpen "s");
               PChunk (sdrop (String.length (bytes first)) (bytes (first ++ [SLine (close_line "s") demo_view (Ok tt)])))] in
  map (fun c => (ch_closed c, length (ch_messages c))) (bp_objects (pipe_run pipe new_bridge)) = [(true, 2%nat); (true, 1%nat)].
Proof. vm_compute. reflexivity. Qed.
