(* ===== verification/Scheduler.v ===== *)
(** * The scheduler

    agent_core/scheduler.py: triggers and their next occurrence, the inputs of
    users, the records of the schedule file and [SchedulerService] with its
    journal, its poll and the runs it starts.  Every critical section of the
    service's lock is one operation.  A time zone other than UTC is a parameter:
    its offsets are data of the system. *)

From stdpp Require Import base list strings pretty.
From Stdlib Require Import ZArith Lia Ascii.
From S2P Require Import Prelude PyData PyStr Json PyTime PyText JsonText Jsonl.

(** ** Datetimes and durations *)

(** What zoneinfo knows of a zone: the wall clock and the fold at an instant, and
    the offset of a wall clock with its fold. *)
Record Zone := MkZone { from_utc : Z -> Z * bool; zone_offset : Z -> bool -> Z }.

Definition utc_zone : Zone := MkZone (fun t => (t, false)) (fun _ _ => 0).

Class TimeZones := { zone_info : string -> option Zone }.

Definition MAX_DAYS : Z := 999999999.

(** The range of a [timedelta], in microseconds. *)
Definition timedelta (us : Z) : res Z :=
  let days := us / us_day in
  if Z.abs days <=? MAX_DAYS then Ok us
  else if Z.abs days <? 2 ^ 31 then raise EOverflow ("days=" +:+ pretty days +:+ "; must have magnitude <= 999999999")
  else raise EOverflow "Python int too large to convert to C int".

(** A wall clock within the years 1 to 9999. *)
Definition in_range (w : Z) : res Z :=
  if (0 <=? w) && (w <? max_wall) then Ok w else raise EOverflow "date value out of range".

Definition add_delta (d : datetime) (us : Z) : res datetime := w <~ in_range (wall d + us) ;; Ok (Datetime w (utcoffset d)).

Definition later (a b : datetime) : bool := instant b <? instant a.

(** [_require_aware] *)
Definition require_aware (d : datetime) (name : string) : res unit :=
  match utcoffset d with
  | Some _ => Ok tt
  | None => value_error (name +:+ " must include a timezone offset")
  end.

Definition fromiso (s : string) : res datetime :=
  match fromisoformat s with
  | Some d => Ok d
  | None => value_error ("Invalid isoformat string: " +:+ repr_string s)
  end.

(** ** Triggers, schedules and runs *)

Inductive Trigger :=
| OneShotTrigger (at_ : datetime)
| CronTrigger (expression timezone : string)
| IntervalTrigger (seconds : Z) (start_at : option datetime).

#[export] Instance Trigger_eq_dec : EqDecision Trigger.
Proof. solve_decision. Defined.

Record Schedule := MkSchedule {
  sc_schedule_id : string;
  sc_trigger : Trigger;
  sc_prompt : string;
  sc_workspace : string;
  sc_origin_session_id : string;
  sc_schedule_session_id : string;
  sc_enabled : bool;
  sc_end_at : option datetime;
  sc_created_at : datetime;
  sc_next_run_at : option datetime;
}.

#[export] Instance Schedule_eq_dec : EqDecision Schedule.
Proof. solve_decision. Defined.

Record ScheduledRun := MkRun {
  r_run_id : string;
  r_schedule_id : string;
  r_session_id : string;
  r_turn_id : string;
  r_scheduled_for : datetime;
  r_started_at : option datetime;
  r_finished_at : option datetime;
  r_status : string;
  r_error : option string;
}.

Definition with_next (enabled : bool) (next : option datetime) (s : Schedule) : Schedule :=
  MkSchedule (sc_schedule_id s) (sc_trigger s) (sc_prompt s) (sc_workspace s) (sc_origin_session_id s)
    (sc_schedule_session_id s) enabled (sc_end_at s) (sc_created_at s) next.

Definition is_interval (t : Trigger) : bool := match t with IntervalTrigger _ _ => true | _ => false end.
Definition is_once (t : Trigger) : bool := match t with OneShotTrigger _ => true | _ => false end.

(** ** Cron expressions *)

(** Whether [number] is among the numbers a token of a field allows. *)
Definition token_allows (low high number : Z) (token : string) : res bool :=
  if String.eqb token "*" then Ok ((low <=? number) && (number <=? high))
  else if startswith "*/" token then
    step <~ py_int (sdrop 2 token) ;;
    if step =? 0 then value_error "range() arg 3 must not be zero"
    else Ok ((0 <? step) && (low <=? number) && (number <=? high) && ((number - low) mod step =? 0))
  else if has_char "-" token then
    match split_char "-" token with
    | start :: rest =>
        a <~ py_int start ;;
        b <~ py_int (sjoin "-" rest) ;;
        Ok ((a <=? number) && (number <=? b))
    | [] => Ok false
    end
  else n <~ py_int token ;; Ok (number =? n).

Definition field_allows (low high number : Z) (field : string) : res bool :=
  res_fold (fun acc token => b <~ token_allows low high number token ;; Ok (acc || b)) false (split_char "," field).

Fixpoint fields_allow (fields : list (string * Z * (Z * Z))) : res bool :=
  match fields with
  | [] => Ok true
  | (field, number, (low, high)) :: fields' =>
      b <~ field_allows low high number field ;;
      if b then fields_allow fields' else Ok false
  end.

(** [_cron_matches], at a wall clock. *)
Definition cron_matches (expression : string) (w : Z) : res bool :=
  match split_ws expression with
  | [f1; f2; f3; f4; f5] =>
      let d := Datetime w None in
      fields_allow [(f1, minute_of d, (0, 59)); (f2, hour_of d, (0, 23)); (f3, day_of d, (1, 31)); (f4, month_of d, (1, 12));
                    (f5, (weekday d + 1) mod 7, (0, 6))]
  | _ => value_error "cron expression must have five fields"
  end.

Section triggers.
Context `{TimeZones}.

(** [_timezone] *)
Definition timezone_of (name : string) : res Zone :=
  if String.eqb name "UTC" then Ok utc_zone else
  match (if nonempty name then zone_info name else None) with
  | Some z => Ok z
  | None => value_error ("unknown IANA timezone: " +:+ name)
  end.

(** The constructors, with their [__post_init__]. *)
Definition once_trigger (at_ : datetime) : res Trigger :=
  _ <~ require_aware at_ "once trigger at" ;; Ok (OneShotTrigger at_).

Definition cron_trigger (expression name : string) : res Trigger :=
  _ <~ timezone_of name ;; Ok (CronTrigger expression name).

Definition interval_trigger (seconds : json) (start_at : option datetime) : res Trigger :=
  match seconds with
  | JInt n =>
      if n <? 1 then value_error "interval seconds must be a positive integer" else
      match start_at with
      | Some d => _ <~ require_aware d "interval trigger start_at" ;; Ok (IntervalTrigger n (Some d))
      | None => Ok (IntervalTrigger n None)
      end
  | _ => value_error "interval seconds must be a positive integer"
  end.

(** ** Next occurrences *)

(** [d.astimezone(zone)]: the wall clock there. *)
Definition to_zone (z : Zone) (d : datetime) : res Z :=
  t <~ in_range (instant d) ;; in_range (fst (from_utc z t)).

(** [cursor.astimezone(timezone.utc)] of a wall clock with fold 0. *)
Definition zone_to_utc (z : Zone) (w : Z) : res datetime :=
  t <~ in_range (w - zone_offset z w false) ;; Ok (utc t).

(** The loop over minutes. *)
Fixpoint cron_search (n : nat) (z : Zone) (expression : string) (cursor : Z) : res (option datetime) :=
  match n with
  | O => Ok None
  | S n' =>
      b <~ cron_matches expression cursor ;;
      if b then d <~ zone_to_utc z cursor ;; Ok (Some d)
      else next <~ in_range (cursor + us_minute) ;; cron_search n' z expression next
  end.

Definition CRON_MINUTES : nat := Z.to_nat (60 * 24 * 370).

(** The first wall clock the loop looks at; adding to a datetime resets its fold. *)
Definition cron_start (z : Zone) (after : datetime) : res Z :=
  w <~ to_zone z after ;; in_range (w - w mod us_minute + us_minute).

Definition trigger_candidate (trigger : Trigger) (after : datetime) : res (option datetime) :=
  match trigger with
  | OneShotTrigger at_ => Ok (if later at_ after then Some at_ else None)
  | IntervalTrigger seconds start_at =>
      delta <~ timedelta (seconds * us_second) ;;
      candidate <~ match start_at with Some d => Ok d | None => add_delta after delta end ;;
      if instant candidate <=? instant after then
        shift <~ timedelta (((instant after - instant candidate) / delta + 1) * delta) ;;
        c <~ add_delta candidate shift ;; Ok (Some c)
      else Ok (Some candidate)
  | CronTrigger expression name =>
      z <~ timezone_of name ;;
      cursor <~ cron_start z after ;;
      cron_search CRON_MINUTES z expression cursor
  end.

(** Not after the end of a schedule. *)
Definition before_end (end_at : option datetime) (candidate : option datetime) : option datetime :=
  match candidate, end_at with
  | Some c, Some e => if later c e then None else Some c
  | _, _ => candidate
  end.

(** [_next_occurrence] *)
Definition next_occurrence (trigger : Trigger) (end_at : option datetime) (after : datetime) : res (option datetime) :=
  c <~ trigger_candidate trigger after ;; Ok (before_end end_at c).

(** [_missed] *)
Definition missed_reason (trigger : Trigger) (scheduled_for now : datetime) : res (option string) :=
  match trigger with
  | CronTrigger _ _ =>
      limit <~ add_delta now (- us_minute) ;;
      Ok (if later limit scheduled_for then Some "missed cron occurrence" else None)
  | IntervalTrigger seconds _ =>
      delta <~ timedelta (seconds * us_second) ;;
      tolerance <~ timedelta (delta + 100000) ;;
      Ok (if tolerance <? instant now - instant scheduled_for then Some "missed interval occurrence" else None)
  | OneShotTrigger _ => Ok None
  end.

(** [_next_after_missed_interval] *)
Definition next_after_missed_interval (seconds : Z) (scheduled_for now : datetime) : res datetime :=
  delta <~ timedelta (seconds * us_second) ;;
  shift <~ timedelta (((instant now - instant scheduled_for) / delta + 1) * delta) ;;
  add_delta scheduled_for shift.
End triggers.

(** ** Inputs *)

Definition parse_schedule_prompt_input (value : json) : res string :=
  match value with
  | JStr s => if nonempty (strip s) then Ok (strip s) else value_error "prompt must be a non-empty string"
  | _ => value_error "prompt must be a non-empty string"
  end.

Definition parse_schedule_id_input (value : json) : res string :=
  match value with
  | JStr s => if nonempty s then Ok s else value_error "schedule_id must be a non-empty string"
  | _ => value_error "schedule_id must be a non-empty string"
  end.

Definition parse_schedule_enabled_input (value : json) : res bool :=
  match value with JBool b => Ok b | _ => value_error "enabled must be a boolean" end.

Definition parse_end_at_input (value : json) : res (option datetime) :=
  match value with
  | JNull => Ok None
  | JStr s =>
      if nonempty s then d <~ fromiso s ;; _ <~ require_aware d "schedule end_at" ;; Ok (Some d)
      else value_error "end_at must be an ISO-8601 string or null"
  | _ => value_error "end_at must be an ISO-8601 string or null"
  end.

(** [', '.join(sorted(set(value) - allowed))] *)
Fixpoint insert_string (x : string) (l : list string) : list string :=
  match l with [] => [x] | y :: l' => if string_leb x y then x :: l else y :: insert_string x l' end.
Definition unknown_fields (value : list (string * json)) (allowed : list string) : list string :=
  fold_right insert_string [] (List.filter (fun k => negb (existsb (String.eqb k) allowed)) (dkeys value)).

Definition check_fields (kind : string) (value : list (string * json)) (allowed : list string) : res unit :=
  match unknown_fields value allowed with
  | [] => Ok tt
  | names => value_error (kind +:+ " trigger has unsupported field(s): " +:+ sjoin ", " names)
  end.

(** A field that must be a nonempty string. *)
Definition text_field (value : json) (message : string) : res string :=
  match value with JStr s => if nonempty s then Ok s else value_error message | _ => value_error message end.

Section inputs.
Context `{TimeZones}.

Definition parse_trigger_input (value : json) : res Trigger :=
  match value with
  | JObj d =>
      match jget "type" d with
      | JStr "once" =>
          _ <~ check_fields "once" d ["type"; "at"] ;;
          at_ <~ text_field (jget "at" d)
            ("Error: once trigger requires 'at'. Retry with at=" +:+ String DQ "<ISO-8601 with UTC offset>" +:+ String DQ "" +:+ ".") ;;
          t <~ fromiso at_ ;; once_trigger t
      | JStr "cron" =>
          _ <~ check_fields "cron" d ["type"; "expression"; "timezone"] ;;
          expression <~ text_field (jget "expression" d)
            ("Error: cron trigger requires 'expression'. Retry with expression=" +:+ String DQ "<five-field cron>" +:+ String DQ "" +:+ ".") ;;
          name <~ text_field (default (JStr "UTC") (dget "timezone" d)) "cron trigger timezone must be an IANA timezone name" ;;
          cron_trigger expression name
      | JStr "interval" =>
          _ <~ check_fields "interval" d ["type"; "seconds"; "start_at"] ;;
          match jget "seconds" d with
          | JInt seconds =>
              if seconds <? 1
              then value_error "Error: interval trigger requires positive integer 'seconds'. Retry with seconds=<positive integer>."
              else match jget "start_at" d with
                   | JNull => interval_trigger (JInt seconds) None
                   | j => s <~ text_field j "interval trigger start_at must be an ISO-8601 string or null" ;;
                          t <~ fromiso s ;; interval_trigger (JInt seconds) (Some t)
                   end
          | _ => value_error "Error: interval trigger requires positive integer 'seconds'. Retry with seconds=<positive integer>."
          end
      | _ => value_error "trigger.type must be once, cron, or interval"
      end
  | _ => value_error "trigger must be an object"
  end.

(** [ScheduleUpdateInput]: what an update changes; [Some None] as the end removes
    it. *)
Record ScheduleUpdate := MkUpdate {
  up_prompt : option string;
  up_trigger : option Trigger;
  up_enabled : option bool;
  up_end_at : option (option datetime);
}.

(** A field of the update that is present. *)
Definition update_field {A} (k : string) (d : list (string * json)) (parse : json -> res A) : res (option A) :=
  match dget k d with
  | Some v => x <~ parse v ;; Ok (Some x)
  | None => Ok None
  end.

Definition parse_schedule_update_input (value : json) : res ScheduleUpdate :=
  match value with
  | JObj d =>
      match unknown_fields d ["prompt"; "trigger"; "enabled"; "end_at"] with
      | [] =>
          prompt <~ update_field "prompt" d parse_schedule_prompt_input ;;
          trigger <~ update_field "trigger" d parse_trigger_input ;;
          enabled <~ update_field "enabled" d parse_schedule_enabled_input ;;
          end_at <~ update_field "end_at" d parse_end_at_input ;;
          Ok (MkUpdate prompt trigger enabled end_at)
      | names => value_error ("unsupported schedule update field(s): " +:+ sjoin ", " names)
      end
  | _ => value_error "schedule update must be an object"
  end.

(** ** Records *)

Definition dt_json (d : option datetime) : json := match d with Some d => JStr (isoformat d) | None => JNull end.

(** [_parse_dt] *)
Definition parse_dt (value : json) : res (option datetime) :=
  match value with
  | JStr s => if nonempty s then d <~ fromiso s ;; _ <~ require_aware d "datetime value" ;; Ok (Some d) else Ok None
  | _ => Ok None
  end.

Definition trigger_to_dict (t : Trigger) : json :=
  match t with
  | OneShotTrigger at_ => JObj [("type", JStr "once"); ("at", dt_json (Some at_))]
  | CronTrigger expression name => JObj [("type", JStr "cron"); ("expression", JStr expression); ("timezone", JStr name)]
  | IntervalTrigger seconds start_at => JObj [("type", JStr "interval"); ("seconds", JInt seconds); ("start_at", dt_json start_at)]
  end.

Context `{FloatText}.

Definition trigger_from_dict (d : list (string * json)) : res Trigger :=
  match jget "type" d with
  | JStr "once" =>
      at_ <~ parse_dt (jget "at" d) ;;
      match at_ with Some t => once_trigger t | None => value_error "once trigger requires at" end
  | JStr "cron" =>
      expression <~ jindex "expression" d ;;
      cron_trigger (py_str expression) (py_str (default (JStr "UTC") (dget "timezone" d)))
  | JStr "interval" =>
      start_at <~ parse_dt (jget "start_at" d) ;;
      interval_trigger (jget "seconds" d) start_at
  | _ => value_error "unknown trigger type"
  end.

Definition schedule_to_dict (s : Schedule) : json :=
  JObj [("schedule_id", JStr (sc_schedule_id s)); ("trigger", trigger_to_dict (sc_trigger s));
        ("action", JObj [("prompt", JStr (sc_prompt s)); ("type", JStr "agent_turn")]);
        ("workspace", JStr (sc_workspace s)); ("origin_session_id", JStr (sc_origin_session_id s));
        ("schedule_session_id", JStr (sc_schedule_session_id s)); ("enabled", JBool (sc_enabled s));
        ("end_at", dt_json (sc_end_at s)); ("created_at", dt_json (Some (sc_created_at s)));
        ("next_run_at", dt_json (sc_next_run_at s))].

(** [now]: the clock, for a record without a creation time. *)
Definition schedule_from_dict (now : datetime) (j : json) : res Schedule :=
  d <~ typed_obj j ;;
  id <~ jindex "schedule_id" d ;;
  trigger <~ (t <~ res_bind (jindex "trigger" d) typed_obj ;; trigger_from_dict t) ;;
  prompt <~ (a <~ res_bind (jindex "action" d) typed_obj ;; jindex "prompt" a) ;;
  workspace <~ jindex "workspace" d ;;
  origin <~ jindex "origin_session_id" d ;;
  session <~ jindex "schedule_session_id" d ;;
  end_at <~ parse_dt (jget "end_at" d) ;;
  created_at <~ parse_dt (jget "created_at" d) ;;
  next_run_at <~ parse_dt (jget "next_run_at" d) ;;
  Ok (MkSchedule (py_str id) trigger (py_str prompt) (py_str workspace) (py_str origin) (py_str session)
        (truthy (default (JBool true) (dget "enabled" d))) end_at (default now created_at) next_run_at).

Definition run_to_dict (r : ScheduledRun) : json :=
  JObj [("run_id", JStr (r_run_id r)); ("schedule_id", JStr (r_schedule_id r)); ("session_id", JStr (r_session_id r));
        ("turn_id", JStr (r_turn_id r)); ("scheduled_for", dt_json (Some (r_scheduled_for r))); ("started_at", dt_json (r_started_at r));
        ("finished_at", dt_json (r_finished_at r)); ("status", JStr (r_status r)); ("error", ostr (r_error r))].

Definition run_from_dict (now : datetime) (j : json) : res ScheduledRun :=
  d <~ typed_obj j ;;
  run_id <~ jindex "run_id" d ;;
  schedule_id <~ jindex "schedule_id" d ;;
  session_id <~ jindex "session_id" d ;;
  turn_id <~ jindex "turn_id" d ;;
  scheduled_for <~ parse_dt (jget "scheduled_for" d) ;;
  started_at <~ parse_dt (jget "started_at" d) ;;
  finished_at <~ parse_dt (jget "finished_at" d) ;;
  Ok (MkRun (py_str run_id) (py_str schedule_id) (py_str session_id) (py_str turn_id) (default now scheduled_for) started_at finished_at
        (py_str (default (JStr "scheduled") (dget "status" d))) (get_str "error" d)).
End inputs.

(** ** SchedulerService *)

(** The file, the state read from it, the schedules with a run of this process
    under way, and the number of draws from the surroundings so far. *)
Record Service := MkService {
  sv_file : option string;
  sv_schedules : list (string * Schedule);
  sv_runs : list (string * ScheduledRun);
  sv_running : list string;
  sv_tick : nat;
  sv_leader : bool;
  sv_stop : bool;
}.

Definition set_loaded a b s := MkService (sv_file s) a b (sv_running s) (sv_tick s) (sv_leader s) (sv_stop s).
Definition set_schedules v s := set_loaded v (sv_runs s) s.
Definition set_runs v s := set_loaded (sv_schedules s) v s.
Definition set_running v s := MkService (sv_file s) (sv_schedules s) (sv_runs s) v (sv_tick s) (sv_leader s) (sv_stop s).
Definition set_file v s := MkService (Some v) (sv_schedules s) (sv_runs s) (sv_running s) (sv_tick s) (sv_leader s) (sv_stop s).
Definition set_flags l t s := MkService (sv_file s) (sv_schedules s) (sv_runs s) (sv_running s) (sv_tick s) l t.
Definition count_draw s := MkService (sv_file s) (sv_schedules s) (sv_runs s) (sv_running s) (S (sv_tick s)) (sv_leader s) (sv_stop s).

(** [str(uuid4())], the clock, the outcome of the n-th write to the file, the
    resolved path of a workspace. *)
Class Surroundings := {
  new_uuid : nat -> string;
  clock : nat -> Z;
  write_result : nat -> option exn;
  resolved_workspace : string -> string;
}.

Section service.
Context `{TimeZones} `{FloatText} `{FloatRead} `{Surroundings}.

Definition draw_uuid : M Service string := s <- get ;; modify count_draw ;;; ret (new_uuid (sv_tick s)).
Definition now_utc : M Service datetime := s <- get ;; modify count_draw ;;; ret (utc (clock (sv_tick s))).

(** [_append] *)
Definition append (record : json) : M Service unit :=
  s <- get ;;
  modify count_draw ;;;
  match write_result (sv_tick s) with
  | Some e => fail e
  | None => modify (set_file (default "" (sv_file s) +:+ record_line record))
  end.

(** *** _reload *)

Definition Loaded : Type := list (string * Schedule) * list (string * ScheduledRun).

Definition apply_record (now : datetime) (acc : Loaded) (record : json) : res Loaded :=
  d <~ typed_obj record ;;
  match jget "op" d with
  | JStr "create" | JStr "update" =>
      s <~ res_bind (jindex "schedule" d) (schedule_from_dict now) ;;
      Ok (dset (sc_schedule_id s) s (fst acc), snd acc)
  | JStr "delete" =>
      id <~ jindex "schedule_id" d ;;
      Ok (dpop (py_str id) (fst acc), snd acc)
  | JStr "run" =>
      r <~ res_bind (jindex "run" d) (run_from_dict now) ;;
      Ok (fst acc, dset (r_run_id r) r (snd acc))
  | _ => Ok acc
  end.

(** [torn]: the text does not end in a line feed. *)
Fixpoint reload_lines (now : datetime) (torn : bool) (lines : list string) (acc : Loaded) : res Loaded :=
  match lines with
  | [] => Ok acc
  | line :: lines' =>
      if negb (nonempty (strip line)) then reload_lines now torn lines' acc
      else match loads line with
           | Ok record => acc' <~ apply_record now acc record ;; reload_lines now torn lines' acc'
           | Err e => if is_class EJSONDecode e && torn && match lines' with [] => true | _ => false end then Ok acc else Err e
           end
  end.

Definition reload_text (now : datetime) (file : string) : res Loaded :=
  text <~ utf8_decode false file ;;
  let text := universal text in
  reload_lines now (negb (endswith_char LF text)) (splitlines text) ([], []).

Definition reload : M Service unit :=
  now <- now_utc ;;
  s <- get ;;
  match sv_file s with
  | None => modify (set_loaded [] [])
  | Some file => loaded <- lift (reload_text now file) ;; modify (set_loaded (fst loaded) (snd loaded))
  end.

(** *** Operations *)

(** The next run of a new or changed schedule. *)
Definition first_run (trigger : Trigger) (end_at : option datetime) (now : datetime) : res (option datetime) :=
  if is_interval trigger then next_occurrence trigger end_at now
  else before <~ add_delta now (- us_second) ;; next_occurrence trigger end_at before.

Definition check_end (end_at : option datetime) : res unit :=
  match end_at with Some d => require_aware d "schedule end_at" | None => Ok tt end.

Definition create_schedule (trigger : Trigger) (prompt workspace origin session : string) (end_at : option datetime) : M Service Schedule :=
  prompt <- lift (parse_schedule_prompt_input (JStr prompt)) ;;
  lift (check_end end_at) ;;;
  now <- now_utc ;;
  next <- lift (first_run trigger end_at now) ;;
  id <- draw_uuid ;;
  created <- now_utc ;;
  let schedule := MkSchedule id trigger prompt (resolved_workspace workspace) origin session true end_at created next in
  reload ;;;
  modify (fun s => set_schedules (dset id schedule (sv_schedules s)) s) ;;;
  append (JObj [("op", JStr "create"); ("schedule", schedule_to_dict schedule)]) ;;;
  ret schedule.

Definition find_schedule (id : string) : M Service Schedule :=
  s <- get ;;
  match dget id (sv_schedules s) with
  | Some x => ret x
  | None => fail (Exn EValueError "scheduled task not found")
  end.

(** The arguments as [parse_schedule_update_input] produces them. *)
Definition update_schedule (id : string) (u : ScheduleUpdate) : M Service Schedule :=
  id <- lift (parse_schedule_id_input (JStr id)) ;;
  reload ;;;
  schedule <- find_schedule id ;;
  prompt <- lift (match up_prompt u with Some p => parse_schedule_prompt_input (JStr p) | None => Ok (sc_prompt schedule) end) ;;
  let trigger := default (sc_trigger schedule) (up_trigger u) in
  let enabled := default (sc_enabled schedule) (up_enabled u) in
  lift (match up_end_at u with Some e => check_end e | None => Ok tt end) ;;;
  let end_at := default (sc_end_at schedule) (up_end_at u) in
  now <- now_utc ;;
  next <- lift (first_run trigger end_at now) ;;
  let updated := MkSchedule (sc_schedule_id schedule) trigger prompt (sc_workspace schedule) (sc_origin_session_id schedule)
    (sc_schedule_session_id schedule) enabled end_at (sc_created_at schedule) next in
  modify (fun s => set_schedules (dset id updated (sv_schedules s)) s) ;;;
  append (JObj [("op", JStr "update"); ("schedule", schedule_to_dict updated)]) ;;;
  ret updated.

Definition delete_schedule (id : string) : M Service unit :=
  id <- lift (parse_schedule_id_input (JStr id)) ;;
  reload ;;;
  find_schedule id ;;;
  modify (fun s => set_schedules (dpop id (sv_schedules s)) s) ;;;
  append (JObj [("op", JStr "delete"); ("schedule_id", JStr id)]).

Definition schedules : M Service (list Schedule) := reload ;;; s <- get ;; ret (dvalues (sv_schedules s)).
Definition runs : M Service (list ScheduledRun) := reload ;;; s <- get ;; ret (dvalues (sv_runs s)).

(** *** poll_once *)

Record Due := MkDue { due_schedule : Schedule; due_for : datetime; due_missed : option string }.

Definition is_due (now : datetime) (s : Schedule) : option datetime :=
  match sc_next_run_at s with
  | Some next => if sc_enabled s && negb (later next now) then Some next else None
  | None => None
  end.

(** The due schedules, with the reason why an occurrence is skipped. *)
Fixpoint collect_due (now : datetime) (l : list Schedule) : res (list Due) :=
  match l with
  | [] => Ok []
  | s :: l' =>
      match is_due now s with
      | Some next => m <~ missed_reason (sc_trigger s) next now ;; ds <~ collect_due now l' ;; Ok (MkDue s next m :: ds)
      | None => collect_due now l'
      end
  end.

(** The next run after a due one. *)
Definition following_run (now : datetime) (d : Due) : res (option datetime) :=
  let s := due_schedule d in
  match due_missed d, sc_trigger s with
  | Some _, IntervalTrigger seconds _ =>
      c <~ next_after_missed_interval seconds (due_for d) now ;; Ok (before_end (sc_end_at s) (Some c))
  | Some _, t => next_occurrence t (sc_end_at s) now
  | None, t => next_occurrence t (sc_end_at s) (due_for d)
  end.

Definition advance_schedule (now : datetime) (d : Due) : M Service unit :=
  next <- lift (following_run now d) ;;
  let s := due_schedule d in
  let updated := with_next (if is_once (sc_trigger s) then false else sc_enabled s) next s in
  modify (fun x => set_schedules (dset (sc_schedule_id s) updated (sv_schedules x)) x) ;;;
  append (JObj [("op", JStr "update"); ("schedule", schedule_to_dict updated)]).

(** The first critical section of a poll. *)
Definition take_due (now : datetime) : M Service (list Due) :=
  reload ;;;
  s <- get ;;
  due <- lift (collect_due now (dvalues (sv_schedules s))) ;;
  for_each (advance_schedule now) due ;;;
  ret due.

Definition in_running (id : string) (s : Service) : bool := existsb (String.eqb id) (sv_running s).

(** The critical section for one due schedule; [has_runner]: a runner was given. *)
Definition start_run (has_runner : bool) (now : datetime) (d : Due) : M Service ScheduledRun :=
  let sc := due_schedule d in
  run_id <- draw_uuid ;;
  turn_id <- draw_uuid ;;
  s <- get ;;
  let base := MkRun run_id (sc_schedule_id sc) (sc_schedule_session_id sc) turn_id (due_for d) in
  let run :=
    match due_missed d with
    | Some reason => base None None "skipped" (Some reason)
    | None =>
        if in_running (sc_schedule_id sc) s then base None None "skipped" (Some "previous scheduled run still running")
        else if negb has_runner then base (Some now) (Some now) "failed" (Some "scheduled task runner is unavailable")
        else base (Some now) None "running" None
    end in
  (if String.eqb (r_status run) "running" then modify (set_running (sc_schedule_id sc :: sv_running s)) else ret tt) ;;;
  modify (fun s => set_runs (dset run_id run (sv_runs s)) s) ;;;
  append (JObj [("op", JStr "run"); ("run", run_to_dict run)]) ;;;
  ret run.

Fixpoint start_runs (has_runner : bool) (now : datetime) (due : list Due) : M Service (list ScheduledRun) :=
  match due with
  | [] => ret []
  | d :: due' => r <- start_run has_runner now d ;; rs <- start_runs has_runner now due' ;; ret (r :: rs)
  end.

(** [poll_once] when no other thread runs in between. *)
Definition poll_once (has_runner : bool) (now : option datetime) : M Service (list ScheduledRun) :=
  now <- match now with Some n => ret n | None => now_utc end ;;
  lift (require_aware now "scheduler poll time") ;;;
  due <- take_due now ;;
  start_runs has_runner now due.

(** The [finally] part of [_execute]: [outcome] is what the runner raised. *)
Definition finish_run (run : ScheduledRun) (outcome : option string) : M Service unit :=
  finished <- now_utc ;;
  let run := MkRun (r_run_id run) (r_schedule_id run) (r_session_id run) (r_turn_id run) (r_scheduled_for run) (r_started_at run)
    (Some finished) (match outcome with None => "completed" | Some _ => "failed" end)
    (match outcome with None => r_error run | Some m => Some m end) in
  modify (fun s => set_running (List.filter (fun x => negb (String.eqb (r_schedule_id run) x)) (sv_running s)) s) ;;;
  modify (fun s => set_runs (dset (r_run_id run) run (sv_runs s)) s) ;;;
  append (JObj [("op", JStr "run"); ("run", run_to_dict run)]).

(** *** The loop of start() *)

(** [_acquire_leader_lock]: [lock] is what taking the file lock raises. *)
Definition acquire_leader_lock (lock : option exn) : M Service bool :=
  match lock with
  | None => modify (fun s => set_flags true (sv_stop s) s) ;;; ret true
  | Some e => if is_class EBlockingIO e then ret false else fail e
  end.

Definition release_leader_lock : M Service unit := modify (fun s => set_flags false (sv_stop s) s).

(** One round; whether the loop goes on. *)
Definition loop_round (has_runner : bool) (lock : option exn) : M Service bool :=
  s <- get ;;
  if sv_stop s then ret false else
  leader <- (if sv_leader s then ret true else acquire_leader_lock lock) ;;
  (if leader then poll_once has_runner None ;;; ret tt else ret tt) ;;;
  ret true.

Definition close_service : M Service unit := modify (fun s => set_flags (sv_leader s) true s).
End service.
