(* ===== verification/SchedulerThms.v ===== *)
(** * Theorems on the scheduler

    Claims about agent_core/scheduler.py: the next occurrence of a trigger is the
    earliest one, occurrences move forward, a schedule has at most one run at a
    time, and the schedule file holds what the service has in memory; and the two
    ways in which it fails: a repeated hour and a line separator in a prompt. *)

From stdpp Require Import base list strings pretty relations.
From Stdlib Require Import ZArith Lia Ascii.
From S2P Require Import Prelude PyData PyStr Json PyTime PyText JsonText Jsonl Scheduler.

Lemma in_range_ok w x : in_range w = Ok x -> x = w /\ 0 <= w < max_wall.
Proof. unfold in_range. destruct ((0 <=? w) && (w <? max_wall)) eqn:E; [|done]. intros [= <-]. bsimp. lia. Qed.

Lemma timedelta_ok us x : timedelta us = Ok x -> x = us.
Proof. unfold timedelta. destruct (_ <=? _); [by intros [= <-]|]. by destruct (_ <? _). Qed.

Lemma add_delta_ok d us x : add_delta d us = Ok x -> instant x = instant d + us /\ utcoffset x = utcoffset d.
Proof.
  unfold add_delta. intros (w & [-> _]%in_range_ok & [= <-])%res_bind_ok. unfold instant. cbn. split; [lia|done].
Qed.

Lemma instant_utc t : instant (utc t) = t.
Proof. unfold instant. cbn. apply Z.sub_0_r. Qed.

(** ** Cron in a zone with one offset *)

(** A zone without transitions, such as UTC. *)
Definition fixed_zone (z : Zone) (o : Z) : Prop := (forall t, from_utc z t = (t + o, false)) /\ (forall w f, zone_offset z w f = o).

Lemma utc_fixed : fixed_zone utc_zone 0.
Proof. split; intros; cbn; [by rewrite Z.add_0_r|done]. Qed.

(** The minutes the search has passed do not match. *)
Lemma cron_search_spec z o expression n : fixed_zone z o -> forall cursor r, cron_search n z expression cursor = Ok r ->
  match r with
  | Some c => exists k, 0 <= k < Z.of_nat n /\ c = utc (cursor + k * us_minute - o) /\ cron_matches expression (cursor + k * us_minute) = Ok true /\
      forall j, 0 <= j < k -> cron_matches expression (cursor + j * us_minute) = Ok false
  | None => forall j, 0 <= j < Z.of_nat n -> cron_matches expression (cursor + j * us_minute) = Ok false
  end.
Proof.
  intros Hz. induction n as [|n IH]; intros cursor r; cbn [cron_search]; [intros [= <-]; lia|].
  intros (b & Hb & Hr)%res_bind_ok. destruct b.
  - apply res_bind_ok in Hr as (d & Hd & [= <-]). unfold zone_to_utc in Hd. apply res_bind_ok in Hd as (t & [-> _]%in_range_ok & [= <-]).
    exists 0. rewrite Z.mul_0_l, Z.add_0_r. split; [lia|]. split; [|split; [done|lia]]. by rewrite (proj2 Hz).
  - apply res_bind_ok in Hr as (next & [-> _]%in_range_ok & Hr). specialize (IH _ _ Hr).
    assert (Hshift : forall k, cursor + us_minute + k * us_minute = cursor + (k + 1) * us_minute) by (intros; lia). destruct r as [c|].
    + destruct IH as (k & Hk & Hc & Hm & Hno). rewrite Hshift in Hc, Hm. exists (k + 1). split; [lia|]. split; [done|]. split; [done|].
      intros j Hj. destruct (decide (j = 0)) as [->|Hj0]; [by rewrite Z.mul_0_l, Z.add_0_r|].
      specialize (Hno (j - 1) ltac:(lia)). rewrite Hshift in Hno. by replace (j - 1 + 1) with j in Hno by lia.
    + intros j Hj. destruct (decide (j = 0)) as [->|Hj0]; [by rewrite Z.mul_0_l, Z.add_0_r|].
      specialize (IH (j - 1) ltac:(lia)). rewrite Hshift in IH. by replace (j - 1 + 1) with j in IH by lia.
Qed.

Section triggers.
Context {TZ : TimeZones}.

Lemma cron_start_ok z o after cursor : fixed_zone z o -> cron_start z after = Ok cursor ->
  cursor mod us_minute = 0 /\ instant after + o < cursor <= instant after + o + us_minute.
Proof.
  intros Hz. unfold cron_start, to_zone. intros (w & (t & [-> _]%in_range_ok & Hw)%res_bind_ok & [-> _]%in_range_ok)%res_bind_ok.
  rewrite (proj1 Hz) in Hw. cbn [fst] in Hw. apply in_range_ok in Hw as [-> _]. unfold us_minute, us_second. zdiv.
Qed.

(** The occurrences of an interval. *)
Definition interval_origin (seconds : Z) (start_at : option datetime) (after : datetime) : Z :=
  match start_at with Some d => instant d | None => instant after + seconds * us_second end.

Lemma interval_candidate seconds start_at after c : 1 <= seconds ->
  trigger_candidate (IntervalTrigger seconds start_at) after = Ok c ->
  exists d k, c = Some d /\ 0 <= k /\ instant d = interval_origin seconds start_at after + k * (seconds * us_second) /\
    instant after < instant d /\ (0 < k -> instant d - seconds * us_second <= instant after).
Proof.
  intros Hs. cbn [trigger_candidate]. intros (delta & ->%timedelta_ok & (d0 & Hd0 & Hc)%res_bind_ok)%res_bind_ok.
  set (delta := seconds * us_second) in *. assert (Hdelta : 0 < delta) by (subst delta; unfold us_second; lia).
  assert (Ho : instant d0 = interval_origin seconds start_at after).
  { destruct start_at as [d|]; [by injection Hd0 as <-|]. apply add_delta_ok in Hd0 as [-> _]. done. }
  destruct (Z.leb_spec (instant d0) (instant after)) as [Hle|Hgt].
  - apply res_bind_ok in Hc as (shift & ->%timedelta_ok & (d & [Hd _]%add_delta_ok & [= <-])%res_bind_ok).
    exists d, ((instant after - instant d0) / delta + 1). split; [done|]. rewrite Hd, Ho. clearbody delta.
    rewrite Ho in Hle. set (a := instant after) in *. set (b := interval_origin _ _ _) in *. clearbody a b. clear -Hle Hdelta.
    pose proof (Z.mul_div_le (a - b) delta Hdelta). pose proof (Z.mul_succ_div_gt (a - b) delta Hdelta).
    pose proof (Z.div_pos (a - b) delta ltac:(lia) Hdelta). split_and!; nia.
  - injection Hc as <-. exists d0, 0. split_and!; [done|lia|lia|lia|lia].
Qed.

(** Triggers as the constructors let them through. *)
Definition trigger_wf (t : Trigger) : Prop :=
  match t with
  | OneShotTrigger d => is_Some (utcoffset d)
  | CronTrigger _ name => exists z, timezone_of name = Ok z
  | IntervalTrigger seconds start_at => 1 <= seconds /\ (forall d, start_at = Some d -> is_Some (utcoffset d))
  end.

Definition steady (t : Trigger) : Prop :=
  match t with CronTrigger _ name => exists z o, timezone_of name = Ok z /\ fixed_zone z o | _ => True end.

(** The instants a trigger stands for, seen from [after]. *)
Definition occurs (t : Trigger) (after : datetime) (x : Z) : Prop :=
  match t with
  | OneShotTrigger d => x = instant d
  | IntervalTrigger seconds start_at => exists k, 0 <= k /\ x = interval_origin seconds start_at after + k * (seconds * us_second)
  | CronTrigger expression name =>
      exists z o, timezone_of name = Ok z /\ fixed_zone z o /\ (x + o) mod us_minute = 0 /\ cron_matches expression (x + o) = Ok true
  end.

Definition horizon (t : Trigger) (after : datetime) (x : Z) : Prop :=
  match t with CronTrigger _ _ => instant after + 370 * us_day < x | _ => False end.

Lemma fixed_zone_unique z o o' : fixed_zone z o -> fixed_zone z o' -> o = o'.
Proof. intros [_ H1] [_ H2]. by rewrite <-(H1 0 false), <-(H2 0 false). Qed.

(** A whole minute after [a] is one of those the search counts. *)
Lemma minute_index a cursor x : cursor mod us_minute = 0 -> a < cursor <= a + us_minute -> x mod us_minute = 0 -> a < x ->
  exists j, 0 <= j /\ x = cursor + j * us_minute.
Proof.
  intros Hc Hac Hx Hax. exists ((x - cursor) / us_minute). unfold us_minute, us_second in *. split; [|zdiv].
  apply Z.div_pos; [|done]. zdiv.
Qed.

Lemma cron_candidate expression name after c : steady (CronTrigger expression name) ->
  trigger_candidate (CronTrigger expression name) after = Ok c ->
  match c with
  | Some d => occurs (CronTrigger expression name) after (instant d) /\ instant after < instant d /\
      (forall x, occurs (CronTrigger expression name) after x -> instant after < x -> instant d <= x)
  | None => forall x, occurs (CronTrigger expression name) after x -> instant after < x -> instant after + 370 * us_day < x
  end.
Proof.
  intros (z & o & Hz & Ho). cbn [trigger_candidate]. rewrite Hz. cbn [res_bind]. intros (cursor & Hcur & Hs)%res_bind_ok.
  apply (cron_start_ok z o) in Hcur as [Hmod Hbound]; [|done]. apply (cron_search_spec z o) in Hs; [|done].
  assert (Hidx : forall x, occurs (CronTrigger expression name) after x -> instant after < x ->
    exists j, 0 <= j /\ x + o = cursor + j * us_minute /\ cron_matches expression (cursor + j * us_minute) = Ok true).
  { intros x (z' & o' & Hz' & Ho' & Hx & Hm) Hax. rewrite Hz in Hz'. injection Hz' as <-. rewrite <-(fixed_zone_unique _ _ _ Ho Ho') in *.
    destruct (minute_index (instant after + o) cursor (x + o)) as (j & Hj & E); [done..|lia|]. exists j. rewrite <-E. done. }
  destruct c as [d|].
  - destruct Hs as (k & Hk & -> & Hm & Hno). rewrite instant_utc.
    split; [|split; [unfold us_minute, us_second in *; lia|]].
    + exists z, o. split; [done|]. split; [done|]. rewrite Z.sub_add. split; [|done].
      rewrite Z.add_mod, Hmod, Z_mod_mult by done. done.
    + intros x Hx Hax. destruct (Hidx x Hx Hax) as (j & Hj & E & Hmj). destruct (decide (j < k)) as [Hlt|]; [|nia].
      rewrite Hno in Hmj by lia. done.
  - intros x Hx Hax. destruct (Hidx x Hx Hax) as (j & Hj & E & Hmj). destruct (decide (j < Z.of_nat CRON_MINUTES)) as [Hlt|Hge].
    + rewrite Hs in Hmj by lia. done.
    + unfold CRON_MINUTES in Hge. rewrite Z2Nat.id in Hge by lia. unfold us_day, us_hour in *. unfold us_minute, us_second in *. lia.
Qed.

Lemma candidate_earliest t after c : trigger_wf t -> steady t -> trigger_candidate t after = Ok c ->
  match c with
  | Some d => occurs t after (instant d) /\ instant after < instant d /\
      (forall x, occurs t after x -> instant after < x -> instant d <= x)
  | None => forall x, occurs t after x -> instant after < x -> horizon t after x
  end.
Proof.
  intros Hwf Hst Hc. destruct t as [at_|expression name|seconds start_at].
  - cbn [trigger_candidate] in Hc. injection Hc as <-. unfold later. destruct (Z.ltb_spec (instant after) (instant at_)).
    + split_and!; [done|done|]. intros x -> _. lia.
    + intros x -> Hx. lia.
  - by apply cron_candidate.
  - destruct Hwf as [Hs _]. destruct (interval_candidate _ _ _ _ Hs Hc) as (d & k & -> & Hk & Hd & Hafter & Hmin).
    split; [by exists k|]. split; [done|]. intros x (j & Hj & ->) Hx. rewrite Hd in *.
    set (delta := seconds * us_second) in *. assert (0 < delta) by (subst delta; unfold us_second; lia).
    destruct (decide (j < k)) as [Hlt|]; [|nia]. exfalso. specialize (Hmin ltac:(lia)). nia.
Qed.

(** The next occurrence of a schedule is the earliest one.  For a trigger the
    constructors accept (a cron trigger in UTC or another zone without
    transitions), what [_next_occurrence] returns is an occurrence of the trigger
    strictly after the given time and not after the end of the schedule, and no
    occurrence lies between; if it returns nothing, every later occurrence is
    after the end, or more than 370 days ahead for a cron trigger. *)
Theorem next_occurrence_earliest (t : Trigger) (end_at : option datetime) (after : datetime) (r : option datetime) :
  trigger_wf t -> steady t -> next_occurrence t end_at after = Ok r ->
  match r with
  | Some c => occurs t after (instant c) /\ instant after < instant c /\
      (forall e, end_at = Some e -> instant c <= instant e) /\
      (forall x, occurs t after x -> instant after < x -> instant c <= x)
  | None => forall x, occurs t after x -> instant after < x -> (exists e, end_at = Some e /\ instant e < x) \/ horizon t after x
  end.
Proof.
  intros Hwf Hst (c & Hc & [= <-])%res_bind_ok. apply candidate_earliest in Hc; [|done..]. unfold before_end.
  destruct c as [c|]; [|by eauto]. destruct Hc as (Ho & Ha & Hmin). destruct end_at as [e|]; [|by split_and!].
  unfold later. destruct (Z.ltb_spec (instant e) (instant c)) as [He|He].
  - intros x Hx Hax. left. exists e. split; [done|]. specialize (Hmin x Hx Hax). lia.
  - split_and!; [done|done|by intros ? [= <-]|done].
Qed.
End triggers.

(** ** What is loaded *)

Section loading.
Context {TZ : TimeZones} {FT : FloatText} {FR : FloatRead} {SU : Surroundings}.

Lemma require_aware_ok d name u : require_aware d name = Ok u -> is_Some (utcoffset d).
Proof. unfold require_aware. by destruct (utcoffset d). Qed.

Lemma once_wf d t : once_trigger d = Ok t -> trigger_wf t.
Proof. unfold once_trigger. intros (u & Hu%require_aware_ok & [= <-])%res_bind_ok. done. Qed.

Lemma cron_wf e n t : cron_trigger e n = Ok t -> trigger_wf t.
Proof. unfold cron_trigger. intros (z & Hz & [= <-])%res_bind_ok. by exists z. Qed.

Lemma interval_wf j start t : interval_trigger j start = Ok t -> trigger_wf t.
Proof.
  unfold interval_trigger. destruct j; try done. destruct (Z.ltb_spec z 1); [done|]. destruct start as [d|].
  - intros (u & Hu%require_aware_ok & [= <-])%res_bind_ok. split; [lia|]. by intros ? [= <-].
  - intros [= <-]. by split; [lia|].
Qed.

Lemma trigger_from_dict_wf d t : trigger_from_dict d = Ok t -> trigger_wf t.
Proof.
  unfold trigger_from_dict. destruct (jget "type" d) as [| | | |ty| |]; try done.
  destruct (decide (ty = "once")) as [->|H1]; [intros ([x|] & _ & Hx)%res_bind_ok; [by eapply once_wf|done]|].
  destruct (decide (ty = "cron")) as [->|H2]; [intros (x & _ & Hx)%res_bind_ok; by eapply cron_wf|].
  destruct (decide (ty = "interval")) as [->|H3]; [intros (x & _ & Hx)%res_bind_ok; by eapply interval_wf|].
  intros Ht. exfalso. revert Ht. by repeat (case_match; try done).
Qed.

(** The input a user gives is checked as the records are. *)
Lemma parse_trigger_wf j t : parse_trigger_input j = Ok t -> trigger_wf t.
Proof.
  unfold parse_trigger_input. destruct j as [| | | | | |d]; try done. destruct (jget "type" d) as [| | | |ty| |]; try done.
  destruct (decide (ty = "once")) as [->|H1].
  { intros (_ & _ & (x & _ & (y & _ & Ht)%res_bind_ok)%res_bind_ok)%res_bind_ok. by eapply once_wf. }
  destruct (decide (ty = "cron")) as [->|H2].
  { intros (_ & _ & (x & _ & (y & _ & Ht)%res_bind_ok)%res_bind_ok)%res_bind_ok. by eapply cron_wf. }
  destruct (decide (ty = "interval")) as [->|H3]; [|intros Ht; exfalso; revert Ht; by repeat (case_match; try done)].
  intros (_ & _ & Ht)%res_bind_ok. destruct (jget "seconds" d); try done. destruct (z <? 1); [done|].
  destruct (jget "start_at" d); [exact (interval_wf _ _ _ Ht)|..];
    (apply res_bind_ok in Ht as (x & _ & (y & _ & Ht)%res_bind_ok); exact (interval_wf _ _ _ Ht)).
Qed.

Definition keyed_wf (kv : string * Schedule) : Prop := fst kv = sc_schedule_id (snd kv) /\ trigger_wf (sc_trigger (snd kv)).
Definition schedules_wf (l : list (string * Schedule)) : Prop := NoDup (dkeys l) /\ Forall keyed_wf l.

Lemma schedules_wf_dset s l : trigger_wf (sc_trigger s) -> schedules_wf l -> schedules_wf (dset (sc_schedule_id s) s l).
Proof.
  intros Hs [Hn Hl]. split; [by apply dset_NoDup|]. rewrite Forall_forall in *. intros x Hx. apply dset_in in Hx as [->|Hx]; [done|by apply Hl].
Qed.

Lemma schedules_wf_dpop id l : schedules_wf l -> schedules_wf (dpop id l).
Proof. intros [Hn Hl]. split; [by apply dpop_NoDup|by apply Forall_dpop]. Qed.

Lemma schedule_from_dict_wf now j s : schedule_from_dict now j = Ok s -> trigger_wf (sc_trigger s).
Proof.
  unfold schedule_from_dict. intros (d & _ & (id & _ & (t & (td & _ & Ht)%res_bind_ok & Hs)%res_bind_ok)%res_bind_ok)%res_bind_ok.
  apply trigger_from_dict_wf in Ht. repeat (apply res_bind_ok in Hs as (? & _ & Hs)). injection Hs as <-. done.
Qed.

Lemma apply_record_wf now acc j acc' : apply_record now acc j = Ok acc' -> schedules_wf (fst acc) -> schedules_wf (fst acc').
Proof.
  unfold apply_record. intros (d & _ & Hr)%res_bind_ok Hw. destruct (jget "op" d) as [| | | |op| |]; try (by injection Hr as <-).
  assert (Hput : forall r, (s <~ res_bind (jindex "schedule" d) (schedule_from_dict now) ;; Ok (dset (sc_schedule_id s) s (fst acc), snd acc)) = Ok r ->
    schedules_wf (fst r)).
  { intros r (s & (x & _ & Hs%schedule_from_dict_wf)%res_bind_ok & [= <-])%res_bind_ok. by apply schedules_wf_dset. }
  destruct (decide (op = "create")) as [->|H1]; [by apply Hput|].
  destruct (decide (op = "update")) as [->|H2]; [by apply Hput|].
  destruct (decide (op = "delete")) as [->|H3]; [apply res_bind_ok in Hr as (x & _ & [= <-]); by apply schedules_wf_dpop|].
  destruct (decide (op = "run")) as [->|H4]; [apply res_bind_ok in Hr as (x & _ & [= <-]); done|].
  revert Hr. by repeat (case_match; try (by intros [= <-]); try done).
Qed.

Lemma reload_lines_wf now torn lines : forall acc acc', reload_lines now torn lines acc = Ok acc' -> schedules_wf (fst acc) -> schedules_wf (fst acc').
Proof.
  induction lines as [|line lines IH]; intros acc acc'; cbn [reload_lines]; [by intros [= <-]|].
  destruct (negb _); [by apply IH|]. destruct (loads line) as [j|e].
  - intros (acc1 & H1 & H2)%res_bind_ok Hw. eapply IH; [exact H2|]. by eapply apply_record_wf.
  - destruct (_ && _); [by intros [= <-]|done].
Qed.

Lemma empty_wf : schedules_wf [].
Proof. split; [apply NoDup_nil_2|constructor]. Qed.

Lemma reload_wf s s' : reload s = (s', Ok tt) -> schedules_wf (sv_schedules s').
Proof.
  unfold reload, bind, now_utc, bind, get, modify, ret, lift. cbn. destruct (sv_file s) as [file|]; [|intros [= <-]; apply empty_wf].
  destruct (reload_text _ file) as [[a b]|] eqn:E; [|done]. intros [= <-]. cbn. unfold reload_text in E.
  apply res_bind_ok in E as (text & _ & E). apply reload_lines_wf in E; [done|apply empty_wf].
Qed.

(** ** A poll moves every due schedule forward *)

Hypothesis zones_fixed : forall name z, zone_info name = Some z -> exists o, fixed_zone z o.

Lemma wf_steady t : trigger_wf t -> steady t.
Proof.
  destruct t as [|e name|]; cbn; [done| |done]. intros [z Hz]. exists z. unfold timezone_of in *. destruct (String.eqb name "UTC").
  - injection Hz as <-. exists 0. split; [done|apply utc_fixed].
  - destruct (nonempty name); [|done]. destruct (zone_info name) as [z'|] eqn:E; [|done]. injection Hz as <-.
    destruct (zones_fixed _ _ E) as [o Ho]. by exists o.
Qed.

Lemma next_after t end_at after n : trigger_wf t -> next_occurrence t end_at after = Ok (Some n) -> instant after < instant n.
Proof. intros Hwf Hn. apply next_occurrence_earliest in Hn; [by destruct Hn as (_ & ? & _)|done|by apply wf_steady]. Qed.

Definition due_ok (now : datetime) (d : Due) : Prop :=
  is_due now (due_schedule d) = Some (due_for d) /\ trigger_wf (sc_trigger (due_schedule d)).

Lemma is_due_spec now s next : is_due now s = Some next -> sc_next_run_at s = Some next /\ sc_enabled s = true /\ instant next <= instant now.
Proof.
  unfold is_due. destruct (sc_next_run_at s) as [x|]; [|done]. destruct (sc_enabled s && negb (later x now)) eqn:E; [|done].
  intros [= <-]. apply andb_true_iff in E as [-> E]. apply negb_true_iff in E. unfold later in E. bsimp. split_and!; [done|done|lia].
Qed.

Lemma following_forward now d n : due_ok now d -> following_run now d = Ok (Some n) ->
  instant (due_for d) < instant n /\ (due_missed d <> None -> instant now < instant n).
Proof.
  intros [(_ & _ & Hle)%is_due_spec Hwf]. unfold following_run. destruct (due_missed d) as [reason|].
  - assert (Hnow : instant now < instant n -> instant (due_for d) < instant n /\ (Some reason <> None -> instant now < instant n)) by (intros; split; [lia|done]).
    destruct (sc_trigger (due_schedule d)) as [at_|e name|seconds start_at]; intros Hn; apply Hnow; [by eapply next_after|by eapply next_after|].
    apply res_bind_ok in Hn as (c & Hc & Hn). assert (c = n) as ->.
    { injection Hn as Hn. unfold before_end in Hn. destruct (sc_end_at _); [|by injection Hn]. destruct (later c d0); [done|by injection Hn]. }
    unfold next_after_missed_interval in Hc. apply res_bind_ok in Hc as (delta & ->%timedelta_ok & (shift & ->%timedelta_ok & [-> _]%add_delta_ok)%res_bind_ok).
    destruct Hwf as [Hs _]. set (delta := seconds * us_second). assert (Hdelta : 0 < delta) by (subst delta; unfold us_second; lia).
    pose proof (Z.mul_succ_div_gt (instant now - instant (due_for d)) delta Hdelta). lia.
  - intros Hn%next_after; [|done]. by split.
Qed.

Lemma collect_due_spec now l : forall ds, collect_due now l = Ok ds -> Forall (fun s => trigger_wf (sc_trigger s)) l ->
  Forall (due_ok now) ds /\ map (fun d => sc_schedule_id (due_schedule d)) ds `sublist_of` map sc_schedule_id l.
Proof.
  induction l as [|s l IH]; intros ds; cbn [collect_due]; [by intros [= <-]|]. intros Hd Hl. inversion Hl as [|? ? Hs Hl']; subst.
  destruct (is_due now s) as [next|] eqn:E.
  - apply res_bind_ok in Hd as (m & _ & (ds' & Hds & [= <-])%res_bind_ok). destruct (IH _ Hds Hl') as [Hf Hsub]. split; [by constructor|].
    cbn [map]. by apply sublist_skip.
  - destruct (IH _ Hd Hl') as [Hf Hsub]. split; [done|]. cbn [map]. by apply sublist_cons.
Qed.

(** The schedule after it was due. *)
Definition moved (now : datetime) (d : Due) (sc : Schedule) : Prop :=
  exists next, following_run now d = Ok next /\
    sc = with_next (if is_once (sc_trigger (due_schedule d)) then false else sc_enabled (due_schedule d)) next (due_schedule d).

Lemma append_schedules j s s' r : append j s = (s', r) -> sv_schedules s' = sv_schedules s.
Proof. unfold append, bind, get, modify, fail. cbn. destruct (write_result (sv_tick s)); by intros [= <- <-]. Qed.

Lemma advance_schedule_ok now d s s' : advance_schedule now d s = (s', Ok tt) ->
  exists sc, moved now d sc /\ sv_schedules s' = dset (sc_schedule_id (due_schedule d)) sc (sv_schedules s).
Proof.
  unfold advance_schedule, bind, lift, modify. destruct (following_run now d) as [next|] eqn:E; [|done]. intros Ha.
  apply append_schedules in Ha. eexists. split; [by exists next|]. exact Ha.
Qed.

Lemma advance_all_ok now ds : forall s s', for_each (advance_schedule now) ds s = (s', Ok tt) ->
  NoDup (map (fun d => sc_schedule_id (due_schedule d)) ds) ->
  Forall (fun d => exists sc, moved now d sc /\ dget (sc_schedule_id (due_schedule d)) (sv_schedules s') = Some sc) ds /\
  (forall id, id ∉ map (fun d => sc_schedule_id (due_schedule d)) ds -> dget id (sv_schedules s') = dget id (sv_schedules s)).
Proof.
  induction ds as [|d ds IH]; intros s s'; cbn [for_each map]; [by intros [= <-]|]. unfold bind.
  destruct (advance_schedule now d s) as [s1 [[]|]] eqn:Ea; [|done]. intros Hr Hn. apply NoDup_cons in Hn as [Hd Hn].
  apply advance_schedule_ok in Ea as (sc & Hm & E1). destruct (IH _ _ Hr Hn) as [Hf Hother]. split.
  - constructor; [|done]. exists sc. split; [done|]. by rewrite Hother, E1, dget_dset_eq.
  - intros id [Hne Hid]%not_elem_of_cons. rewrite Hother, E1 by done. by rewrite dget_dset_ne.
Qed.

(** A poll moves every due schedule forward.  Whatever the schedule file
    holds, when the first part of [poll_once] returns the due schedules, they are
    enabled, different, and due by the given time; each is stored with a next run
    strictly after the occurrence that was due, strictly after the present if that
    occurrence was missed, or without one, and a one-shot schedule is disabled; so
    no occurrence is handed out twice.  Time zones are taken without transitions. *)
Theorem poll_moves_forward (now : datetime) (s s' : Service) (due : list Due) :
  take_due now s = (s', Ok due) ->
  NoDup (map (fun d => sc_schedule_id (due_schedule d)) due) /\
  Forall (fun d =>
    sc_enabled (due_schedule d) = true /\ instant (due_for d) <= instant now /\
    exists sc, dget (sc_schedule_id (due_schedule d)) (sv_schedules s') = Some sc /\
      (is_once (sc_trigger (due_schedule d)) = true -> sc_enabled sc = false) /\
      (forall n, sc_next_run_at sc = Some n -> instant (due_for d) < instant n /\ (due_missed d <> None -> instant now < instant n))) due.
Proof.
  unfold take_due, bind, get, lift. destruct (reload s) as [s0 [[]|]] eqn:Er; [|done]. apply reload_wf in Er as [Hn Hf].
  destruct (collect_due now (dvalues (sv_schedules s0))) as [ds|] eqn:Ec; [|done].
  destruct (for_each (advance_schedule now) ds s0) as [s1 [[]|]] eqn:Ea; [|done]. intros [= <- <-].
  apply collect_due_spec in Ec as [Hok Hsub]; [|apply Forall_fmap; eapply Forall_impl; [exact Hf|]; by intros kv [_ ?]].
  assert (Hids : map sc_schedule_id (dvalues (sv_schedules s0)) = dkeys (sv_schedules s0)).
  { unfold dvalues, dkeys. rewrite map_map. apply List.map_ext_in. intros kv Hkv%list_elem_of_In. rewrite Forall_forall in Hf. by destruct (Hf _ Hkv). }
  rewrite Hids in Hsub. pose proof (sublist_NoDup _ _ Hn Hsub) as Hnd. split; [done|].
  apply advance_all_ok in Ea as [Hm _]; [|done]. rewrite Forall_forall in *. intros d Hd. destruct (Hok d Hd) as [Hdue Hwf].
  destruct (Hm d Hd) as (sc & (next & Hnext & ->) & Hget). apply is_due_spec in Hdue as Hd'. destruct Hd' as (_ & He & Hle).
  split; [done|]. split; [done|]. eexists. split; [exact Hget|]. cbn [with_next sc_enabled sc_next_run_at]. split; [by intros ->|].
  intros n ->. by apply (following_forward now d).
Qed.

(** ** At most one run of a schedule at a time *)

(** The service and the runs whose threads are under way. *)
Inductive proc_step (hr : bool) : Service * list ScheduledRun -> Service * list ScheduledRun -> Prop :=
| ps_create t p w o i e s s' r th : create_schedule t p w o i e s = (s', r) -> proc_step hr (s, th) (s', th)
| ps_update id u s s' r th : update_schedule id u s = (s', r) -> proc_step hr (s, th) (s', th)
| ps_delete id s s' r th : delete_schedule id s = (s', r) -> proc_step hr (s, th) (s', th)
| ps_take now s s' r th : take_due now s = (s', r) -> proc_step hr (s, th) (s', th)
| ps_start now d s s' r th : start_run hr now d s = (s', r) ->
    proc_step hr (s, th) (s', match r with
                              | Ok run => if String.eqb (r_status run) "running" && hr then run :: th else th
                              | Err _ => th
                              end)
| ps_finish run outcome s s' r th1 th2 : finish_run run outcome s = (s', r) -> proc_step hr (s, th1 ++ run :: th2) (s', th1 ++ th2).

Definition running_is (l : list string) (s : Service) : Prop := sv_running s = l.

Lemma append_running l j : preserves (running_is l) (append j).
Proof. unfold append. preserve_steps; done. Qed.
Lemma reload_running l : preserves (running_is l) reload.
Proof. unfold reload, now_utc. preserve_steps; done. Qed.
Lemma create_running l t p w o i e : preserves (running_is l) (create_schedule t p w o i e).
Proof. unfold create_schedule, now_utc, draw_uuid. preserve_steps; try done; apply reload_running || apply append_running. Qed.
Lemma update_running l id u : preserves (running_is l) (update_schedule id u).
Proof. unfold update_schedule, find_schedule, now_utc. preserve_steps; try done; apply reload_running || apply append_running. Qed.
Lemma delete_running l id : preserves (running_is l) (delete_schedule id).
Proof. unfold delete_schedule, find_schedule. preserve_steps; try done; apply reload_running || apply append_running. Qed.
Lemma take_running l now : preserves (running_is l) (take_due now).
Proof.
  unfold take_due. preserve_steps; [apply reload_running|]. apply preserves_for_each. intros d. unfold advance_schedule.
  preserve_steps; [done|apply append_running].
Qed.

Definition one_each (x : Service * list ScheduledRun) : Prop :=
  NoDup (map r_schedule_id (snd x)) /\ Forall (fun run => r_schedule_id run ∈ sv_running (fst x)) (snd x).

Lemma one_each_same s s' th : running_is (sv_running s) s' -> one_each (s, th) -> one_each (s', th).
Proof. intros Hr [Hn Hf]. split; [done|]. cbn [fst snd] in *. by rewrite Hr. Qed.

Lemma in_running_spec id s : in_running id s = false <-> id ∉ sv_running s.
Proof.
  unfold in_running. rewrite <-not_true_iff_false, existsb_exists. split.
  - intros Hno Hin. apply Hno. exists id. split; [by apply list_elem_of_In|apply String.eqb_refl].
  - intros Hno (x & Hin & ->%String.eqb_eq). by apply Hno, list_elem_of_In.
Qed.

(** What the critical section does to the set of running schedules. *)
Lemma start_run_spec hr now d s s' r : start_run hr now d s = (s', r) ->
  let id := sc_schedule_id (due_schedule d) in
  (sv_running s' = sv_running s /\ forall run, r = Ok run -> String.eqb (r_status run) "running" = false) \/
  ((id ∉ sv_running s) /\ sv_running s' = id :: sv_running s /\ forall run, r = Ok run -> r_schedule_id run = id).
Proof.
  unfold start_run, draw_uuid. cbv zeta. unfold bind at 1 2 3 4 5 6 7, get, modify, ret. cbn -[append].
  set (s1 := count_draw (count_draw s)).
  match goal with |- context [r_status ?x] => set (run := x) end. intros Hr.
  assert (Hrun : (String.eqb (r_status run) "running" = false) \/
    (String.eqb (r_status run) "running" = true /\ in_running (sc_schedule_id (due_schedule d)) s = false /\
     r_schedule_id run = sc_schedule_id (due_schedule d))).
  { subst run. clear Hr. destruct (due_missed d); [by left|].
    unfold in_running. destruct (existsb _ (sv_running s)); [by left|]. destruct hr; [by right|by left]. }
  clearbody run. destruct Hrun as [E|(E & Hin & Hid)]; rewrite E in Hr; unfold bind, ret, modify in Hr;
    match type of Hr with context [append ?j ?x] => pose proof (append_running (sv_running x) j x eq_refl) as Ha; destruct (append j x) as [s2 [[]|]] end;
    injection Hr as <- <-; cbn in Ha.
  - left. split; [exact Ha|]. by intros ? [= <-].
  - left. by split.
  - right. apply in_running_spec in Hin. split; [done|]. split; [exact Ha|]. by intros ? [= <-].
  - right. apply in_running_spec in Hin. by split.
Qed.

Lemma finish_run_running run outcome s s' r : finish_run run outcome s = (s', r) ->
  sv_running s' = List.filter (fun x => negb (String.eqb (r_schedule_id run) x)) (sv_running s).
Proof.
  unfold finish_run, now_utc, bind, get, modify, ret. cbn -[append]. intros Hr.
  match type of Hr with append ?j ?x = _ => pose proof (append_running (sv_running x) j x eq_refl) as Ha; rewrite Hr in Ha end. exact Ha.
Qed.

Lemma proc_step_one hr x y : proc_step hr x y -> one_each x -> one_each y.
Proof.
  intros Hs. assert (Hsame : forall s s' (A : Type) (r : res A) th c, preserves (running_is (sv_running s)) c -> c s = (s', r) ->
    one_each (s, th) -> one_each (s', th)).
  { intros s s' A r th c Hc E. apply one_each_same. specialize (Hc s eq_refl). by rewrite E in Hc. }
  destruct Hs as [t p w o i e s s' r th E|id u s s' r th E|id s s' r th E|now s s' r th E|now d s s' r th E|run outcome s s' r th1 th2 E].
  - by eapply Hsame; [apply create_running|].
  - by eapply Hsame; [apply update_running|].
  - by eapply Hsame; [apply delete_running|].
  - by eapply Hsame; [apply take_running|].
  - intros [Hn Hf]. cbn [fst snd] in *. apply start_run_spec in E as [[Hr Hno]|(Hnot & Hr & Hid)].
    + assert (Hth : (match r with Ok run => if String.eqb (r_status run) "running" && hr then run :: th else th | Err _ => th end) = th)
        by (destruct r as [run|]; [by rewrite (Hno run eq_refl)|done]). rewrite Hth. split; [done|]. cbn [fst snd]. by rewrite Hr.
    + assert (Hf' : Forall (fun run => r_schedule_id run ∈ sv_running s') th) by (rewrite Hr; eapply Forall_impl; [exact Hf|]; intros; by right).
      destruct r as [run|]; [|by split]. destruct (String.eqb (r_status run) "running" && hr); [|by split]. specialize (Hid run eq_refl).
      split; cbn [fst snd map].
      * apply NoDup_cons. split; [|done]. intros (z & Hz & Hin)%list_elem_of_fmap. rewrite Forall_forall in Hf. apply Hnot. rewrite <-Hid, Hz. by apply Hf.
      * constructor; [|done]. rewrite Hr, Hid. left.
  - intros [Hn Hf]. cbn [fst snd] in *. apply finish_run_running in E. rewrite map_app in Hn. cbn [map] in Hn.
    apply Forall_app in Hf as [Hf1 Hf2]. inversion Hf2 as [|? ? Hrun Hf2']; subst.
    assert (Hn' : NoDup (r_schedule_id run :: map r_schedule_id (th1 ++ th2))) by (rewrite map_app; eapply NoDup_Permutation_proper; [|exact Hn]; apply Permutation_middle).
    apply NoDup_cons in Hn' as [Hnot Hn']. split; [done|]. cbn [fst snd]. rewrite E.
    assert (Hall : Forall (fun x => r_schedule_id x ∈ sv_running s) (th1 ++ th2)) by (by apply Forall_app).
    rewrite Forall_forall in *. intros z Hz. apply list_elem_of_In, List.filter_In. split; [by apply list_elem_of_In, Hall|].
    apply negb_true_iff, String.eqb_neq. intros Heq. apply Hnot. rewrite Heq. by apply list_elem_of_fmap_2.
Qed.

(** C35: at most one run of a schedule executes at a time.  However polls, the
    starting and the ending of runs and the operations of users interleave, and
    whichever writes of the schedule file fail, the runs under way belong to
    different schedules. *)
Theorem one_run_per_schedule (hr : bool) (s s' : Service) (threads : list ScheduledRun) :
  rtc (proc_step hr) (s, []) (s', threads) -> NoDup (map r_schedule_id threads).
Proof.
  intros Hr. assert (Hinv : one_each (s', threads)); [|by destruct Hinv].
  assert (H0 : one_each (s, [])) by (split; [apply NoDup_nil_2|constructor]). revert H0. generalize (s, @nil ScheduledRun) (s', threads) Hr.
  intros x y Hxy. induction Hxy as [x|x y z Hxy _ IH]; [done|]. intros Hx. by apply IH, (proc_step_one hr x).
Qed.

(** ** The schedule file *)

Definition dt_valid (d : datetime) : Prop := datetime_valid d /\ is_Some (utcoffset d).
Definition odt_valid (o : option datetime) : Prop := forall d, o = Some d -> dt_valid d.

Definition trigger_valid (t : Trigger) : Prop :=
  trigger_wf t /\ match t with
                  | OneShotTrigger d => dt_valid d
                  | IntervalTrigger _ start_at => odt_valid start_at
                  | CronTrigger _ _ => True
                  end.

Definition schedule_valid (s : Schedule) : Prop :=
  trigger_valid (sc_trigger s) /\ odt_valid (sc_end_at s) /\ dt_valid (sc_created_at s) /\ odt_valid (sc_next_run_at s).

Definition run_valid (r : ScheduledRun) : Prop :=
  dt_valid (r_scheduled_for r) /\ odt_valid (r_started_at r) /\ odt_valid (r_finished_at r).

Lemma parse_dt_json o : odt_valid o -> parse_dt (dt_json o) = Ok o.
Proof.
  destruct o as [d|]; [|done]. intros Ho. destruct (Ho d eq_refl) as [Hd [u Hu]]. cbn [dt_json parse_dt].
  pose proof (fromisoformat_isoformat d Hd) as Hf. assert (Hne : nonempty (isoformat d) = true) by (by destruct (isoformat d)).
  rewrite Hne. unfold fromiso. rewrite Hf. cbn [res_bind]. unfold require_aware. by rewrite Hu.
Qed.

Lemma some_valid d : dt_valid d -> odt_valid (Some d).
Proof. by intros Hd ? [= <-]. Qed.

Lemma aware_ok d name : is_Some (utcoffset d) -> require_aware d name = Ok tt.
Proof. intros [u Hu]. unfold require_aware. by rewrite Hu. Qed.

Lemma trigger_codec t : trigger_valid t -> exists d, trigger_to_dict t = JObj d /\ trigger_from_dict d = Ok t.
Proof.
  intros [Hw Hv]. destruct t as [at_|e name|seconds start_at]; eexists; (split; [reflexivity|]); unfold trigger_from_dict; cbn -[parse_dt dt_json interval_trigger once_trigger].
  - rewrite parse_dt_json by (by apply some_valid). cbn [res_bind]. unfold once_trigger. rewrite aware_ok by apply Hv. done.
  - destruct Hw as [z Hz]. unfold cron_trigger. by rewrite Hz.
  - rewrite parse_dt_json by done. cbn [res_bind]. unfold interval_trigger. destruct Hw as [Hs Ha].
    destruct (Z.ltb_spec seconds 1); [lia|]. destruct start_at as [d|]; [|done]. by rewrite aware_ok by (by apply Ha).
Qed.

Lemma schedule_codec now s : schedule_valid s -> schedule_from_dict now (schedule_to_dict s) = Ok s.
Proof.
  intros (Ht & He & Hc & Hn). destruct s as [id t prompt ws origin session enabled end_at created next]. cbn in Ht, He, Hc, Hn.
  destruct (trigger_codec t Ht) as (td & Etd & Et). unfold schedule_from_dict, schedule_to_dict.
  cbn [sc_trigger sc_end_at sc_created_at sc_next_run_at sc_schedule_id sc_prompt sc_workspace sc_origin_session_id sc_schedule_session_id sc_enabled].
  rewrite Etd. cbn -[parse_dt dt_json trigger_from_dict]. rewrite Et. cbn -[parse_dt dt_json].
  rewrite (parse_dt_json end_at He). cbn -[parse_dt dt_json]. rewrite (parse_dt_json (Some created) (some_valid _ Hc)). cbn -[parse_dt dt_json].
  rewrite (parse_dt_json next Hn). done.
Qed.

Lemma run_codec now r : run_valid r -> run_from_dict now (run_to_dict r) = Ok r.
Proof.
  intros (Hs & Hst & Hf). destruct r as [id sid session turn for_ started finished status error]. cbn in Hs, Hst, Hf.
  unfold run_from_dict, run_to_dict.
  cbn [r_run_id r_schedule_id r_session_id r_turn_id r_scheduled_for r_started_at r_finished_at r_status r_error].
  cbn -[parse_dt dt_json ostr]. rewrite (parse_dt_json (Some for_) (some_valid _ Hs)). cbn -[parse_dt dt_json ostr].
  rewrite (parse_dt_json started Hst). cbn -[parse_dt dt_json ostr]. rewrite (parse_dt_json finished Hf). by destruct error.
Qed.

(** What the service writes: a schedule created or changed, one deleted, a run. *)
Inductive Op := OpCreate (s : Schedule) | OpUpdate (s : Schedule) | OpDelete (id : string) | OpRun (r : ScheduledRun).

Definition op_record (o : Op) : json :=
  match o with
  | OpCreate s => JObj [("op", JStr "create"); ("schedule", schedule_to_dict s)]
  | OpUpdate s => JObj [("op", JStr "update"); ("schedule", schedule_to_dict s)]
  | OpDelete id => JObj [("op", JStr "delete"); ("schedule_id", JStr id)]
  | OpRun r => JObj [("op", JStr "run"); ("run", run_to_dict r)]
  end.

Definition op_valid (o : Op) : Prop :=
  match o with OpCreate s | OpUpdate s => schedule_valid s | OpDelete _ => True | OpRun r => run_valid r end.

(** The abstract store of schedules and runs. *)
Definition op_apply (acc : Loaded) (o : Op) : Loaded :=
  match o with
  | OpCreate s | OpUpdate s => (dset (sc_schedule_id s) s (fst acc), snd acc)
  | OpDelete id => (dpop id (fst acc), snd acc)
  | OpRun r => (fst acc, dset (r_run_id r) r (snd acc))
  end.

Lemma apply_record_op now acc o : op_valid o -> apply_record now acc (op_record o) = Ok (op_apply acc o).
Proof.
  destruct o as [s|s|id|r]; intros Hv; unfold apply_record, op_record; cbn -[schedule_from_dict schedule_to_dict run_from_dict run_to_dict];
    [by rewrite schedule_codec|by rewrite schedule_codec|done|by rewrite run_codec].
Qed.

Lemma op_is_record o : is_record (op_record o).
Proof.
  destruct o as [s|s|id|r]; (split; [|by eexists]); apply plain_json_ok; [destruct s as [? [] ? ? ? ? ? [] ? []]..|done|destruct r as [? ? ? ? ? [] [] ? []]];
    try (match goal with |- context [IntervalTrigger _ ?x] => destruct x end); reflexivity.
Qed.

(** *** Lines *)

Definition NEL : ascii := chr 133.

Lemma graphic_boundary c : (32 <=? scode c) = true -> is_line_boundary c = Ascii.eqb c NEL.
Proof. intros Hc. by destruct c as [[] [] [] [] [] [] [] []]; try (by vm_compute in Hc). Qed.

Lemma one_line_graphic t : graphic t = true -> has_char NEL t = false -> one_line t = true.
Proof.
  induction t as [|c t IH]; [done|]. cbn [graphic has_char one_line]. intros [Hc Ht]%andb_true_iff [Hn Hnt]%orb_false_iff.
  by rewrite graphic_boundary, Hn, IH.
Qed.

Lemma splitlines_text rs t : Forall is_record rs -> Forall (fun r => has_char NEL (dumps r) = false) rs ->
  splitlines (journal_text rs +:+ t) = map dumps rs ++ splitlines t.
Proof.
  intros Hrs Hn. unfold splitlines. induction Hrs as [|r rs Hr _ IH]; [done|]. inversion Hn as [|? ? Hnel Hn']; subst.
  cbn [journal_text foldr map app]. rewrite !sapp_assoc. change (NL +:+ ?x) with (String LF x). rewrite splitlines_line; [|by apply one_line_graphic; [apply dumps_graphic, Hr|]|done|done].
  cbn [String.append]. f_equal. by apply IH.
Qed.

Lemma reload_lines_ops now torn ops rest : Forall op_valid ops -> forall acc,
  reload_lines now torn (map dumps (map op_record ops) ++ rest) acc = reload_lines now torn rest (fold_left op_apply ops acc).
Proof.
  induction 1 as [|o ops Ho _ IH]; intros acc; [done|]. cbn [map app reload_lines fold_left].
  destruct (record_brace (op_record o) "" (op_is_record o)) as [u Hu]. rewrite sapp_nil_r in Hu. rewrite Hu, strip_brace, <-Hu. cbn [negb].
  rewrite loads_dumps by apply op_is_record. rewrite apply_record_op by done. apply IH.
Qed.

Lemma journal_text_end rs : rs <> [] -> endswith_char LF (journal_text rs) = true.
Proof.
  induction rs as [|r rs IH]; [done|]. intros _. cbn [journal_text foldr]. destruct rs as [|r' rs].
  - cbn [foldr]. rewrite sapp_nil_r. by rewrite endswith_char_app.
  - rewrite endswith_char_app by done. change (NL +:+ ?x) with (String LF x). cbn [endswith_char].
    specialize (IH ltac:(done)). unfold journal_text in IH. by destruct (foldr _ "" (r' :: rs)).
Qed.

Lemma first_nel t : has_char NEL t = true -> exists a b, t = a +:+ String NEL b /\ has_char NEL a = false.
Proof.
  induction t as [|c t IH]; [done|]. cbn [has_char]. destruct (Ascii.eqb_spec c NEL) as [->|Hne]; [by exists "", t|].
  intros Ht. destruct (IH Ht) as (a & b & -> & Ha). exists (String c a), b. split; [done|]. cbn [has_char]. rewrite Ha, orb_false_r. by apply Ascii.eqb_neq.
Qed.

Lemma journal_text_app rs rs' : journal_text (rs ++ rs') = journal_text rs +:+ journal_text rs'.
Proof. unfold journal_text. induction rs as [|r rs IH]; [done|]. cbn [app foldr]. by rewrite IH, !sapp_assoc. Qed.

(** The text of a file of records, as [_reload] sees it. *)
Lemma reload_text_records now rs : rs <> [] -> Forall is_record rs ->
  reload_text now (record_lines rs) = reload_lines now false (splitlines (journal_text rs)) ([], []).
Proof.
  intros Hne Hrs. unfold reload_text. rewrite record_lines_encode, utf8_roundtrip. cbn [res_bind].
  rewrite universal_id by (by apply journal_text_no_cr). by rewrite journal_text_end.
Qed.

Definition separator_free (o : Op) : bool := negb (has_char NEL (dumps (op_record o))).

(** The schedule file and the memory of the service.  For any sequence of
    operations the service has written, reading the file gives the schedules and
    runs that applying the operations gives, if no record contains the character
    U+0085; and if one does, reading the file raises [JSONDecodeError], because
    [splitlines] cuts the record at a character that [json.dumps] leaves as it is. *)
Theorem schedule_file_exact (now : datetime) (ops : list Op) :
  Forall op_valid ops ->
  (forallb separator_free ops = true -> reload_text now (record_lines (map op_record ops)) = Ok (fold_left op_apply ops ([], []))) /\
  (forallb separator_free ops = false ->
     exists e, reload_text now (record_lines (map op_record ops)) = Err e /\ exn_class e = EJSONDecode).
Proof.
  intros Hv. destruct (decide (ops = [])) as [->|Hne]; [by split|].
  assert (Hrs : forall l, Forall is_record (map op_record l)) by (intros l; apply Forall_fmap, Forall_true; intros o; apply op_is_record).
  rewrite reload_text_records by (done || by destruct ops). split; intros Hsep.
  - rewrite <-(sapp_nil_r (journal_text _)), splitlines_text; [|done|].
    + rewrite reload_lines_ops by done. done.
    + apply Forall_fmap, Forall_forall. intros o Ho. rewrite forallb_forall in Hsep. apply negb_true_iff, Hsep. by apply list_elem_of_In.
  - assert (Hsplit : exists pre o post, ops = pre ++ o :: post /\ forallb separator_free pre = true /\ separator_free o = false).
    { clear -Hsep. induction ops as [|o ops IH]; [done|]. cbn [forallb] in Hsep. destruct (separator_free o) eqn:E; [|by exists [], o, ops].
      destruct (IH Hsep) as (pre & x & post & -> & Hp & Hx). exists (o :: pre), x, post. split_and!; [done|by cbn [forallb]; rewrite E|done]. }
    destruct Hsplit as (pre & o & post & -> & Hpre & Ho). apply Forall_app in Hv as [Hvpre _]. apply negb_false_iff in Ho.
    destruct (first_nel _ Ho) as (a & b & Hd & Ha). rewrite map_app, journal_text_app, splitlines_text; [|done|].
    + rewrite reload_lines_ops by done. cbn [map journal_text foldr]. fold (journal_text (map op_record post)). rewrite Hd, sapp_assoc. cbn [String.append].
      destruct (op_is_record o) as [Hok [d Hobj]]. assert (Hg : graphic a = true).
      { apply dumps_graphic in Hok. rewrite Hd, graphic_app in Hok. by apply andb_true_iff in Hok as [? _]. }
      unfold splitlines. rewrite splitlines_line; [|by apply one_line_graphic|done|done]. cbn [reload_lines String.append].
      assert (Hu : exists u, a = String "{" u).
      { destruct (record_brace (op_record o) "" (op_is_record o)) as [u Hu]. rewrite sapp_nil_r, Hd in Hu. destruct a as [|c a]; injection Hu as Hc _; [done|by subst; eexists]. }
      destruct Hu as [u Eu]. rewrite Eu, strip_brace, <-Eu. cbn [negb]. rewrite Hobj in Hok, Hd.
      destruct (loads_prefix d a (String NEL b) Hok Hd ltac:(done)) as (e & -> & He). exists e. rewrite andb_false_r. by split.
    + apply Forall_fmap, Forall_forall. intros x Hx. rewrite forallb_forall in Hpre. apply negb_true_iff, Hpre. by apply list_elem_of_In.
Qed.
End loading.

(** ** A repeated hour

    A zone that at the instant [T] goes back from offset [o1] to [o2]: wall clocks
    from [T + o2] to [T + o1] occur twice, the second time with fold 1. *)

Definition going_back (T o1 o2 : Z) : Zone :=
  MkZone (fun t => if t <? T then (t + o1, false) else (t + o2, t <? T + (o1 - o2)))
         (fun w fold => if w <? T + o2 then o1 else if w <? T + o1 then (if fold then o2 else o1) else o2).

(** Within the second pass of a repeated hour, the next occurrence of a cron
    trigger that matches the next minute lies in the first pass, before the time
    it was asked for: adding a minute to the local time resets its fold. *)
Theorem repeated_hour_goes_back `{TimeZones} (T o1 o2 : Z) (expression name : string) (after : datetime) (cursor : Z) (c : datetime) :
  us_minute < o1 - o2 -> timezone_of name = Ok (going_back T o1 o2) -> T <= instant after ->
  cron_start (going_back T o1 o2) after = Ok cursor -> cursor < T + o1 -> cron_matches expression cursor = Ok true ->
  next_occurrence (CronTrigger expression name) None after = Ok (Some c) -> instant c < instant after.
Proof.
  intros Ho Hz HT Hcur Hlt Hm. unfold next_occurrence, trigger_candidate. rewrite Hz. cbn [res_bind]. rewrite Hcur. cbn [res_bind].
  assert (Hn : CRON_MINUTES = S (Nat.pred CRON_MINUTES)) by (unfold CRON_MINUTES; rewrite Nat.succ_pred_pos; lia).
  rewrite Hn. cbn [cron_search]. rewrite Hm. cbn [res_bind]. unfold cron_start, to_zone in Hcur.
  apply res_bind_ok in Hcur as (w & (t & [-> _]%in_range_ok & Hw)%res_bind_ok & [-> _]%in_range_ok). cbn [going_back from_utc] in Hw.
  destruct (Z.ltb_spec (instant after) T); [lia|]. cbn [fst] in Hw. apply in_range_ok in Hw as [-> _]. set (a := instant after) in *.
  intros (r & (d & (x & Hx & [= <-])%res_bind_ok & [= <-])%res_bind_ok & [= <-])%res_bind_ok. apply in_range_ok in Hx as [-> _]. rewrite instant_utc.
  cbn [zone_offset going_back]. unfold us_minute, us_second in *. destruct (Z.ltb_spec (a + o2 - (a + o2) mod (60 * 1000000) + 60 * 1000000) (T + o2)); [zdiv|].
  destruct (Z.ltb_spec (a + o2 - (a + o2) mod (60 * 1000000) + 60 * 1000000) (T + o1)); zdiv.
Qed.

(** New York, 2 November 2025: at 06:30 UTC the next run of a cron trigger for
    every minute is found at 05:31 UTC. *)
Definition fall_2025 : Z := 739556 * us_day + 6 * us_hour.
Definition new_york : TimeZones := {| zone_info name := if String.eqb name "America/New_York" then Some (going_back fall_2025 (-4 * us_hour) (-5 * us_hour)) else None |}.

Lemma repeated_hour_goes_back_witness :
  isoformat (utc fall_2025) = "2025-11-02T06:00:00+00:00" /\
  exists c, @next_occurrence new_york (CronTrigger "* * * * *" "America/New_York") None (utc (fall_2025 + 30 * us_minute)) = Ok (Some c) /\
    isoformat c = "2025-11-02T05:31:00+00:00" /\ instant c < instant (utc (fall_2025 + 30 * us_minute)).
Proof.
  set (c := utc (fall_2025 - 29 * us_minute)).
  assert (Hn : @next_occurrence new_york (CronTrigger "* * * * *" "America/New_York") None (utc (fall_2025 + 30 * us_minute)) = Ok (Some c))
    by (vm_compute; reflexivity).
  split; [vm_compute; reflexivity|]. exists c. split; [exact Hn|]. split; [vm_compute; reflexivity|].
  refine (@repeated_hour_goes_back new_york fall_2025 (-4 * us_hour) (-5 * us_hour) "* * * * *" "America/New_York"
    (utc (fall_2025 + 30 * us_minute)) (fall_2025 - 5 * us_hour + 31 * us_minute) c _ _ _ _ _ _ Hn);
    [vm_compute; reflexivity|reflexivity|vm_compute; discriminate|vm_compute; reflexivity|vm_compute; reflexivity|vm_compute; reflexivity].
Defined.

(** ** Examples *)

Definition no_zones : TimeZones := {| zone_info _ := None |}.
Definition example_surroundings : Surroundings :=
  {| new_uuid n := pretty n; clock _ := fall_2025; write_result _ := None; resolved_workspace w := w |}.
Definition text_floats : FloatText := {| float_repr _ := "0.0" |}.
Definition read_floats : FloatRead := {| float_value _ := 0 |}.

Definition nine_oclock : Trigger := CronTrigger "0 9 * * 1-5" "UTC".

Lemma next_occurrence_earliest_witness : exists c,
  @next_occurrence no_zones nine_oclock None (utc fall_2025) = Ok (Some c) /\ instant (utc fall_2025) < instant c /\
  (forall x, @occurs no_zones nine_oclock (utc fall_2025) x -> instant (utc fall_2025) < x -> instant c <= x).
Proof.
  assert (Hn : exists c, @next_occurrence no_zones nine_oclock None (utc fall_2025) = Ok (Some c)) by (eexists; vm_compute; reflexivity).
  destruct Hn as [c Hn]. exists c. split; [exact Hn|].
  assert (Hst : @steady no_zones nine_oclock) by (exists utc_zone, 0; split; [reflexivity|apply utc_fixed]).
  destruct (@next_occurrence_earliest no_zones nine_oclock None (utc fall_2025) (Some c) (ex_intro _ utc_zone eq_refl) Hst Hn) as (_ & Ha & _ & Hm).
  split; [exact Ha|exact Hm].
Defined.

(** A schedule every ten minutes whose last run was due an hour ago. *)
Definition every_ten : Schedule :=
  MkSchedule "s" (IntervalTrigger 600 None) "check" "/w" "o" "i" true None (utc 0) (Some (utc (fall_2025 - us_hour))).
Definition example_file : string := @record_lines text_floats (map op_record [OpCreate every_ten]).
Definition example_service : Service := MkService (Some example_file) [] [] [] 0 false false.

Lemma poll_moves_forward_witness : exists s' due,
  @take_due no_zones text_floats read_floats example_surroundings (utc fall_2025) example_service = (s', Ok due) /\ length due = 1%nat /\
  NoDup (map (fun d => sc_schedule_id (due_schedule d)) due).
Proof.
  assert (Hrun : exists s' due, @take_due no_zones text_floats read_floats example_surroundings (utc fall_2025) example_service = (s', Ok due) /\
    length due = 1%nat) by (eexists _, _; vm_compute; split; reflexivity).
  destruct Hrun as (s' & due & Hrun & Hlen). exists s', due. split; [exact Hrun|]. split; [exact Hlen|].
  refine (proj1 (@poll_moves_forward no_zones text_floats read_floats example_surroundings _ (utc fall_2025) example_service s' due Hrun)).
  intros name z Hz. discriminate Hz.
Defined.

Definition due_now : Due := MkDue every_ten (utc fall_2025) None.

Lemma one_run_per_schedule_witness : exists s' threads,
  rtc (@proc_step no_zones text_floats read_floats example_surroundings true) (example_service, []) (s', threads) /\ length threads = 1%nat /\
  NoDup (map r_schedule_id threads).
Proof.
  assert (Hrun : exists s' run, @start_run text_floats example_surroundings true (utc fall_2025) due_now example_service = (s', Ok run) /\
    r_status run = "running") by (eexists _, _; vm_compute; split; reflexivity).
  destruct Hrun as (s' & run & Hrun & Hst). exists s', [run].
  assert (Hsteps : rtc (@proc_step no_zones text_floats read_floats example_surroundings true) (example_service, []) (s', [run])).
  { eapply rtc_once. pose proof (@ps_start no_zones text_floats read_floats example_surroundings true _ _ _ _ _ [] Hrun) as Hp.
    cbv beta iota in Hp. rewrite Hst in Hp. exact Hp. }
  split; [exact Hsteps|]. split; [reflexivity|].
  exact (@one_run_per_schedule no_zones text_floats read_floats example_surroundings true example_service s' [run] Hsteps).
Defined.

Lemma schedule_file_exact_witness :
  @reload_text no_zones text_floats read_floats (utc 0) example_file = Ok ([("s", every_ten)], []).
Proof.
  assert (Hv : Forall (@op_valid no_zones) [OpCreate every_ten]).
  { apply Forall_singleton. split_and!; try done; try (intros ? [= <-]); (split; [split; [by vm_compute|]|by eexists]); by intros us [= <-]. }
  exact (proj1 (@schedule_file_exact no_zones text_floats read_floats (utc 0) [OpCreate every_ten] Hv) ltac:(vm_compute; reflexivity)).
Defined.

(** A record whose writing was interrupted is ignored by [_reload], but the next
    record is appended to the same line, after which no reload succeeds. *)
Definition torn_service : Service := MkService (Some (stake 20 example_file)) [] [] [] 0 false false.

Lemma torn_append_example :
  snd (@reload no_zones text_floats read_floats example_surroundings torn_service) = Ok tt /\
  exists s', @create_schedule no_zones text_floats read_floats example_surroundings nine_oclock "check" "/w" "o" "i" None torn_service =
    (s', Ok (MkSchedule "1" nine_oclock "check" "/w" "o" "i" true None (utc fall_2025) (Some (utc (fall_2025 + us_day + 3 * us_hour))))) /\
  exists e, snd (@reload no_zones text_floats read_floats example_surroundings s') = Err e /\ exn_class e = EJSONDecode.
Proof. split; [vm_compute; reflexivity|]. eexists. split; [vm_compute; reflexivity|]. eexists. split; vm_compute; reflexivity. Qed.
