(* ===== verification/Memory.v ===== *)
(** * Long-term memory: agent_core/memory.py

    Two Markdown files, one for all workspaces and one for each, hold what should
    be remembered.  During a turn a manager collects candidates; after a turn that
    completed it asks a model to merge them into the documents it has loaded, and
    writes the result if the files still hold those documents.

    The files are those of [FileTools]: bytes by path, changed by primitive
    operations that may fail.  An access under the file lock is one step; steps of
    all managers (also of other processes) interleave. *)

From stdpp Require Import base list strings pretty.
From Stdlib Require Import ZArith Lia.
From S2P Require Import Prelude PyData PyStr Json PyTime Content Message Session PyText JsonText Jsonl Llm TextView Patch FileTools.

(** ** Documents *)

Inductive MemoryKind := Preference | Fact | Decision_.
#[export] Instance MemoryKind_eq_dec : EqDecision MemoryKind.
Proof. solve_decision. Defined.

Inductive MemoryScope := GlobalScope | WorkspaceScope.
#[export] Instance MemoryScope_eq_dec : EqDecision MemoryScope.
Proof. solve_decision. Defined.

Definition KINDS : list MemoryKind := [Preference; Fact; Decision_].
Definition kind_str (k : MemoryKind) : string :=
  match k with Preference => "preference" | Fact => "fact" | Decision_ => "decision" end.
Definition HEADINGS (k : MemoryKind) : string :=
  match k with Preference => "Preferences" | Fact => "Facts" | Decision_ => "Decisions" end.
Definition scope_str (s : MemoryScope) : string := match s with GlobalScope => "global" | WorkspaceScope => "workspace" end.

Record MemoryCandidate := MkCandidate { mc_kind : MemoryKind; mc_scope : MemoryScope; mc_content : string }.
#[export] Instance MemoryCandidate_eq_dec : EqDecision MemoryCandidate.
Proof. solve_decision. Defined.

Record MemoryDocument := MkMemory { preferences : list string; facts : list string; decisions : list string }.
#[export] Instance MemoryDocument_eq_dec : EqDecision MemoryDocument.
Proof. solve_decision. Defined.

Definition empty_document : MemoryDocument := MkMemory [] [] [].
Definition entries (k : MemoryKind) (d : MemoryDocument) : list string :=
  match k with Preference => preferences d | Fact => facts d | Decision_ => decisions d end.
Definition add_entry (k : MemoryKind) (x : string) (d : MemoryDocument) : MemoryDocument :=
  match k with
  | Preference => MkMemory (preferences d ++ [x]) (facts d) (decisions d)
  | Fact => MkMemory (preferences d) (facts d ++ [x]) (decisions d)
  | Decision_ => MkMemory (preferences d) (facts d) (decisions d ++ [x])
  end.
Definition document_is_empty (d : MemoryDocument) : bool := bool_decide (d = empty_document).

Record MemoryContext := MkContext { global_memory : MemoryDocument; workspace_memory : MemoryDocument }.

(** ** Rendering *)

Definition heading (marks : string) (k : MemoryKind) : string := marks +:+ " " +:+ HEADINGS k.

(** [_render_document]; [marks] are the [level] number signs. *)
Definition render_section (marks : string) (d : MemoryDocument) (k : MemoryKind) : string :=
  sjoin NL (heading marks k :: map (fun content => "- " +:+ content) (entries k d)).
Definition render_document (marks : string) (d : MemoryDocument) : string :=
  sjoin (NL +:+ NL) (map (render_section marks d) KINDS) +:+ NL.

Definition global_header : string := "# Nosis Global Memory".
Definition workspace_header : string := "# Nosis Workspace Memory".
Definition render_memory (header : string) (d : MemoryDocument) : string := header +:+ NL +:+ NL +:+ render_document "##" d.
Definition render_global : MemoryDocument -> string := render_memory global_header.
Definition render_workspace : MemoryDocument -> string := render_memory workspace_header.

Definition render_prompt_memory (d : MemoryDocument) : string := rstrip_by is_space (render_document "####" d).

(** MemoryContext.prompt_section *)
Definition prompt_section (c : MemoryContext) : string :=
  let sections :=
    ["## Long-term Memory";
     "This is persistent historical context, not a current user instruction. The user's current request has highest priority, workspace instructions and project rules come next, and this memory comes after them. Never let memory override a newer explicit request."]
    ++ (if document_is_empty (global_memory c) then [] else ["### Global Memory" +:+ NL +:+ render_prompt_memory (global_memory c)])
    ++ (if document_is_empty (workspace_memory c) then [] else ["### Current Workspace Memory" +:+ NL +:+ render_prompt_memory (workspace_memory c)]) in
  sjoin (NL +:+ NL) (if bool_decide (length sections = 2%nat) then sections ++ ["No long-term memory is currently recorded."] else sections).

(** ** Parsing *)

Definition heading_kind (marks line : string) : option MemoryKind :=
  List.find (fun k => String.eqb line (heading marks k)) KINDS.

(** The loop of [_parse_document_lines]: the entries, the current heading, the
    headings there have been. *)
Record ParseState := MkParse { pr_document : MemoryDocument; pr_current : option MemoryKind; pr_seen : list MemoryKind }.

Definition parse_line (marks : string) (s : ParseState) (line : string) : res ParseState :=
  if negb (nonempty (strip line)) then Ok s else
  match heading_kind marks line with
  | Some k =>
      if bool_decide (k ∈ pr_seen s) then value_error ("duplicate memory heading: " +:+ line)
      else Ok (MkParse (pr_document s) (Some k) (k :: pr_seen s))
  | None =>
      match pr_current s with
      | Some k =>
          if startswith "- " line && nonempty (strip (sdrop 2 line))
          then Ok (MkParse (add_entry k (strip (sdrop 2 line)) (pr_document s)) (pr_current s) (pr_seen s))
          else value_error "invalid MEMORY.md entry"
      | None => value_error "invalid MEMORY.md entry"
      end
  end.

Definition parse_document_lines (marks : string) (lines : list string) : res MemoryDocument :=
  s <~ res_fold (parse_line marks) (MkParse empty_document None []) lines ;; Ok (pr_document s).

Definition parse_memory (header what text : string) : res MemoryDocument :=
  if negb (nonempty (strip text)) then Ok empty_document else
  match splitlines text with
  | line :: lines => if String.eqb line header then parse_document_lines "##" lines else value_error ("invalid " +:+ what +:+ " MEMORY.md header")
  | [] => value_error ("invalid " +:+ what +:+ " MEMORY.md header")
  end.
Definition parse_global : string -> res MemoryDocument := parse_memory global_header "global".
Definition parse_workspace : string -> res MemoryDocument := parse_memory workspace_header "workspace".

(** ** The answer of the model *)

Section answer.
Context `{FloatText} `{FloatRead}.

Definition kind_of (j : json) : option MemoryKind :=
  match j with JStr s => List.find (fun k => String.eqb s (kind_str k)) KINDS | _ => None end.

(** [" ".join(content.split())] *)
Definition normalize_content (s : string) : string := sjoin " " (split_ws s).

Definition read_entry (d : MemoryDocument) (entry : json) : res MemoryDocument :=
  match entry with
  | JObj e =>
      if negb (only_keys ["kind"; "content"] e && dhas "kind" e && dhas "content" e)
      then value_error "each memory entry must contain kind and content" else
      match kind_of (jget "kind" e) with
      | None => value_error ("invalid memory kind: " +:+ py_str (jget "kind" e))
      | Some k =>
          match jget "content" e with
          | JStr content =>
              if nonempty (strip content)
              then let normalized := normalize_content content in
                   Ok (if bool_decide (normalized ∈ entries k d) then d else add_entry k normalized d)
              else value_error "memory content must be a non-empty string"
          | _ => value_error "memory content must be a non-empty string"
          end
      end
  | _ => value_error "each memory entry must contain kind and content"
  end.

Definition document_from_json (content : string) : res MemoryDocument :=
  match loads content with
  | Err e => if is_class EJSONDecode e then value_error "memory reconciler returned invalid JSON" else Err e
  | Ok (JObj value) =>
      if negb (only_keys ["entries"] value && dhas "entries" value)
      then value_error "memory reconciler JSON must contain only 'entries'" else
      match jget "entries" value with
      | JArr l => res_fold read_entry empty_document l
      | _ => value_error "memory reconciler 'entries' must be an array"
      end
  | Ok _ => value_error "memory reconciler JSON must contain only 'entries'"
  end.

Definition document_to_json (d : MemoryDocument) : json :=
  JArr (flat_map (fun k => map (fun content => JObj [("kind", JStr (kind_str k)); ("content", JStr content)]) (entries k d)) KINDS).

(** ** MemoryReconciler

    [stream n] is the answer of the provider to the call made at tick [n],
    [clock n] when the call began and how long it took, [on_call n] what the
    listener of auxiliary calls does. *)

Variable stream : nat -> LLMRequest -> res LLMResponse.
Variable clock : nat -> Z * Z.
Variable on_call : option (nat -> AuxiliaryModelCall -> res unit).
Variables (global_prompt workspace_prompt : string) (global_max_tokens workspace_max_tokens : Z).

Definition reconcile_prompt (scope : MemoryScope) : string :=
  match scope with
  | GlobalScope => str_replace "{{global_max_tokens}}" (pretty global_max_tokens) global_prompt
  | WorkspaceScope => str_replace "{{workspace_max_tokens}}" (pretty workspace_max_tokens) workspace_prompt
  end.

Definition reconcile_request (scope : MemoryScope) (current : MemoryDocument) (candidates : list MemoryCandidate) : LLMRequest :=
  let payload := JObj [("scope", JStr (scope_str scope)); ("current_memory", document_to_json current);
    ("candidates", JArr (map (fun c => JObj [("kind", JStr (kind_str (mc_kind c))); ("content", JStr (mc_content c))]) candidates))] in
  MkRequest (reconcile_prompt scope) [fresh_obj (plain_message RUser (CStr (dumps payload)))] [] None None.

Definition read_response (r : LLMResponse) : res MemoryDocument :=
  match rs_content r, rs_tool_calls r with
  | Some content, [] => document_from_json content
  | _, _ => value_error "memory reconciler must return JSON content only"
  end.

Definition reconcile (n : nat) (scope : MemoryScope) (current : MemoryDocument) (candidates : list MemoryCandidate) : res MemoryDocument :=
  match candidates with
  | [] => Ok current
  | _ =>
      let outcome := stream n (reconcile_request scope current candidates) in
      let response := match outcome with Ok r => Some r | Err _ => None end in
      let result := r <~ outcome ;; read_response r in
      let error := match result with Ok _ => None | Err e => Some e end in
      match on_call with
      | None => result
      | Some call =>
          _x <~ call n (tracked_call "memory" (Some (scope_str scope)) 1 (fst (clock n)) (snd (clock n)) error response) ;; result
      end
  end.
End answer.

(** ** MemoryStore *)

Section store.
Variable io : nat -> IoOutcome.
(** The new name [mkstemp] finds. *)
Variable temporary : FileSystem -> string.
Variables (global_path : string) (workspace_path : string -> string).

(** Acquiring the lock file may fail; it changes no memory file. *)
Definition lock_files : M FileSystem unit := primitive io id untouched.

(** [_read_text] *)
Definition file_text (path : string) (files : list (string * string)) : res string :=
  match dget path files with
  | None => Ok ""
  | Some bytes => t <~ utf8_decode false bytes ;; Ok (universal t)
  end.
(** [FileNotFoundError] is raised, and caught, when there is no file; the operation
    may also fail otherwise. *)
Definition read_text (path : string) : M FileSystem string :=
  s <- get ;;
  if dhas path (fs_files s) then primitive io id untouched ;;; lift (file_text path (fs_files s)) else ret "".

Definition write_memory (path text : string) : M FileSystem unit :=
  s <- get ;; atomic_write_text io (temporary s) path text false.

Definition initialize_file (path text : string) : M FileSystem (list string) :=
  s <- get ;;
  if dhas path (fs_files s) then ret [] else write_memory path text ;;; ret [path].

Definition initialize (workspace : option string) : M FileSystem (list string) :=
  lock_files ;;;
  created <- initialize_file global_path (render_global empty_document) ;;
  more <- match workspace with
          | Some w => initialize_file (workspace_path w) (render_workspace empty_document)
          | None => ret []
          end ;;
  ret (created ++ more).

Definition load (workspace : string) : M FileSystem MemoryContext :=
  lock_files ;;;
  global_text <- read_text global_path ;;
  workspace_text <- read_text (workspace_path workspace) ;;
  g <- lift (parse_global global_text) ;;
  w <- lift (parse_workspace workspace_text) ;;
  ret (MkContext g w).

(** [load_all]; [listing] are the workspaces whose directories have a memory file. *)
Fixpoint load_workspace_files (listing : list string) : M FileSystem (list (string * MemoryDocument)) :=
  match listing with
  | [] => ret []
  | w :: rest =>
      text <- read_text (workspace_path w) ;;
      d <- lift (parse_workspace text) ;;
      more <- load_workspace_files rest ;;
      ret ((w, d) :: more)
  end.
Definition load_all (listing : list string) : M FileSystem (MemoryDocument * list (string * MemoryDocument)) :=
  lock_files ;;;
  global_text <- read_text global_path ;;
  workspaces <- load_workspace_files listing ;;
  g <- lift (parse_global global_text) ;;
  ret (g, workspaces).

Definition changed (what : string) : exn := Exn ERuntimeError (what +:+ " memory changed during reconciliation").

(** A document is given and is not what was expected. *)
Definition conflicts (update expected : option MemoryDocument) (current : MemoryDocument) : bool :=
  match update, expected with Some _, Some e => negb (bool_decide (current = e)) | _, _ => false end.

Definition write_updates (workspace : string) (global_update workspace_update : option MemoryDocument) (expected : option MemoryContext) : M FileSystem unit :=
  lock_files ;;;
  global_text <- read_text global_path ;;
  current_global <- lift (parse_global global_text) ;;
  workspace_text <- read_text (workspace_path workspace) ;;
  current_workspace <- lift (parse_workspace workspace_text) ;;
  if conflicts global_update (global_memory <$> expected) current_global then fail (changed "global") else
  if conflicts workspace_update (workspace_memory <$> expected) current_workspace then fail (changed "workspace") else
  match global_update with Some d => write_memory global_path (render_global d) | None => ret tt end ;;;
  match workspace_update with Some d => write_memory (workspace_path workspace) (render_workspace d) | None => ret tt end.

(** ** MemoryManager *)

Inductive ReconcilePc :=
| Resting
| Took (candidates : list MemoryCandidate)
| Loaded (candidates : list MemoryCandidate) (context : MemoryContext)
| Answered (candidates : list MemoryCandidate) (context : MemoryContext) (global_update workspace_update : option MemoryDocument).

Record MemoryManager := MkManager { mm_workspace : string; mm_pending : list MemoryCandidate; mm_pc : ReconcilePc; mm_results : list (res bool) }.
Definition new_manager (workspace : string) : MemoryManager := MkManager workspace [] Resting [].

Definition remember (c : MemoryCandidate) (m : MemoryManager) : MemoryManager :=
  MkManager (mm_workspace m) (mm_pending m ++ [c]) (mm_pc m) (mm_results m).
Definition discard_pending (m : MemoryManager) : MemoryManager := MkManager (mm_workspace m) [] (mm_pc m) (mm_results m).

Definition go_to (pc : ReconcilePc) (m : MemoryManager) : MemoryManager := MkManager (mm_workspace m) (mm_pending m) pc (mm_results m).
Definition finish_reconcile (r : res bool) (m : MemoryManager) : MemoryManager :=
  MkManager (mm_workspace m) (mm_pending m) Resting (mm_results m ++ [r]).

(** [reconcile_pending] in the steps between which others may act: taking the
    candidates, loading, asking the model, writing.  (The lock of the store keeps
    two managers of one process apart; nothing here relies on it.) *)
Definition take_candidates (m : MemoryManager) : MemoryManager :=
  match mm_pc m with
  | Resting =>
      let m' := MkManager (mm_workspace m) [] Resting (mm_results m) in
      match mm_pending m with [] => finish_reconcile (Ok false) m' | candidates => go_to (Took candidates) m' end
  | _ => m
  end.

Definition scoped (scope : MemoryScope) (l : list MemoryCandidate) : list MemoryCandidate :=
  List.filter (fun c => bool_decide (mc_scope c = scope)) l.

Section reconciling.
Variable ask : nat -> MemoryScope -> MemoryDocument -> list MemoryCandidate -> res MemoryDocument.

Definition ask_scope (n : nat) (scope : MemoryScope) (current : MemoryDocument) (candidates : list MemoryCandidate) : res (option MemoryDocument) :=
  match scoped scope candidates with
  | [] => Ok None
  | l => d <~ ask n scope current l ;; Ok (Some d)
  end.

Record MemoryWorld := MkMemoryWorld { mw_fs : FileSystem; mw_managers : list MemoryManager; mw_tick : nat }.

Definition on_manager (i : nat) (f : MemoryManager -> MemoryManager) (w : MemoryWorld) : MemoryWorld :=
  MkMemoryWorld (mw_fs w) (alter f i (mw_managers w)) (mw_tick w).

Definition load_step (i : nat) (w : MemoryWorld) : MemoryWorld :=
  match mw_managers w !! i with
  | Some (MkManager ws _ (Took candidates) _) =>
      let '(fs, r) := load ws (mw_fs w) in
      MkMemoryWorld fs (alter (match r with Ok c => go_to (Loaded candidates c) | Err e => finish_reconcile (Err e) end) i (mw_managers w)) (mw_tick w)
  | _ => w
  end.

Definition ask_step (i : nat) (w : MemoryWorld) : MemoryWorld :=
  match mw_managers w !! i with
  | Some (MkManager _ _ (Loaded candidates c) _) =>
      let n := mw_tick w in
      let updates := g <~ ask_scope n GlobalScope (global_memory c) candidates ;;
                     x <~ ask_scope (S n) WorkspaceScope (workspace_memory c) candidates ;; Ok (g, x) in
      MkMemoryWorld (mw_fs w)
        (alter (match updates with Ok (g, x) => go_to (Answered candidates c g x) | Err e => finish_reconcile (Err e) end) i (mw_managers w)) (S (S n))
  | _ => w
  end.

Definition write_step (i : nat) (w : MemoryWorld) : MemoryWorld :=
  match mw_managers w !! i with
  | Some (MkManager ws _ (Answered _ c g x) _) =>
      let '(fs, r) := write_updates ws g x (Some c) (mw_fs w) in
      MkMemoryWorld fs (alter (finish_reconcile (_x <~ r ;; Ok true)) i (mw_managers w)) (mw_tick w)
  | _ => w
  end.

Inductive MemoryOp :=
| MInitialize (workspace : option string)
| MRemember (i : nat) (c : MemoryCandidate)
| MDiscard (i : nat)
| MTake (i : nat)
| MLoad (i : nat)
| MAsk (i : nat)
| MWrite (i : nat).

Definition memory_step (op : MemoryOp) (w : MemoryWorld) : MemoryWorld :=
  match op with
  | MInitialize workspace => MkMemoryWorld (fst (initialize workspace (mw_fs w))) (mw_managers w) (mw_tick w)
  | MRemember i c => on_manager i (remember c) w
  | MDiscard i => on_manager i discard_pending w
  | MTake i => on_manager i take_candidates w
  | MLoad i => load_step i w
  | MAsk i => ask_step i w
  | MWrite i => write_step i w
  end.

Definition memory_run (ops : list MemoryOp) (w : MemoryWorld) : MemoryWorld := fold_left (fun w op => memory_step op w) ops w.
End reconciling.
End store.
