(* ===== verification/MemoryThms.v ===== *)
(** * What the memory files hold

    A document that is written is read back as it was, and the documents that are
    written follow from each other: the memory after any interleaving is what
    reconciling one batch of candidates after the other gives. *)

From stdpp Require Import base list strings sets.
From Stdlib Require Import ZArith Lia Ascii.
From S2P Require Import Prelude PyData PyStr Json PyTime Content Message Session PyText JsonText Jsonl Llm TextView Patch FileTools Memory.

(** ** Entries *)

Definition wf_entry (s : string) : Prop := nonempty s = true /\ strip s = s /\ one_line s = true.
Definition wf_document (d : MemoryDocument) : Prop := forall k, Forall wf_entry (entries k d).

Fixpoint no_space (s : string) : bool := match s with "" => true | String c s' => negb (is_space c) && no_space s' end.

Lemma no_space_app a b : no_space (a +:+ b) = no_space a && no_space b.
Proof. induction a as [|c a IH]; [done|]. cbn [String.append no_space]. by rewrite IH, andb_assoc. Qed.
Lemma boundary_space c : is_line_boundary c = true -> is_space c = true.
Proof. by destruct c as [[] [] [] [] [] [] [] []]. Qed.

Lemma no_space_line s : no_space s = true -> one_line s = true.
Proof.
  induction s as [|c s IH]; [done|]. cbn [no_space one_line]. intros [Hc Hs]%andb_true_iff. rewrite (IH Hs), andb_true_r.
  destruct (is_line_boundary c) eqn:E; [|done]. by rewrite (boundary_space c E) in Hc.
Qed.

Definition word (s : string) : Prop := nonempty s = true /\ no_space s = true.

Lemma split_ws_words s : forall cur, no_space cur = true -> Forall word (split_ws_go cur s).
Proof.
  induction s as [|c s IH]; intros cur Hcur; cbn [split_ws_go].
  - destruct (nonempty cur) eqn:E; [|constructor]. repeat constructor; done.
  - destruct (is_space c) eqn:Ec.
    + destruct (nonempty cur) eqn:E; [constructor; [done|]|]; by apply IH.
    + apply IH. rewrite no_space_app, Hcur. cbn. by rewrite Ec.
Qed.

Lemma split_ws_nil s : forall cur, split_ws_go cur s = [] -> nonempty cur = false /\ lstrip_by is_space s = "".
Proof.
  induction s as [|c s IH]; intros cur; cbn [split_ws_go lstrip_by].
  - by destruct (nonempty cur).
  - destruct (is_space c).
    + destruct (nonempty cur); [done|]. intros H. by destruct (IH "" H).
    + intros H. destruct (IH _ H) as [Hc _]. by destruct cur.
Qed.

(** A text whose first and last characters are no spaces is its own [strip]. *)
Lemma rstrip_word p w : w <> "" -> no_space w = true -> rstrip_by is_space (p +:+ w) = p +:+ w.
Proof.
  intros Hw Hn. induction p as [|c p IH]; cbn [String.append rstrip_by].
  - induction w as [|c w IH]; [done|]. cbn [no_space] in Hn. apply andb_true_iff in Hn as [Hc Hn]. cbn [rstrip_by].
    destruct w as [|c' w]; [cbn; by rewrite (proj1 (negb_true_iff _) Hc)|]. by rewrite IH.
  - rewrite IH. destruct p; cbn; [by destruct w|done].
Qed.

Lemma join_words w ws : Forall word (w :: ws) -> exists p l, sjoin " " (w :: ws) = p +:+ l /\ word l.
Proof.
  revert w. induction ws as [|w' ws IH]; intros w Hw; inversion Hw as [|? ? H1 H2]; subst; [by exists "", w|].
  destruct (IH w' H2) as (p & l & Hj & Hl). exists (w +:+ " " +:+ p), l. split; [|done].
  rewrite sjoin_cons, Hj by done. by rewrite !sapp_assoc.
Qed.

Lemma join_words_line ws : Forall word ws -> one_line (sjoin " " ws) = true.
Proof.
  induction ws as [|w ws IH]; intros Hw; [done|]. inversion Hw as [|? ? [H1 H2] H3]; subst. destruct ws as [|w' ws]; [by apply no_space_line|].
  rewrite sjoin_cons, !one_line_app, (no_space_line w H2) by done. cbn. by apply IH.
Qed.

Lemma normalize_wf content : nonempty (strip content) = true -> wf_entry (normalize_content content).
Proof.
  intros Hs. unfold normalize_content. pose proof (split_ws_words content "" eq_refl) as Hw. fold (split_ws content) in Hw.
  destruct (split_ws content) as [|w ws] eqn:E.
  { apply split_ws_nil in E as [_ E]. unfold strip, strip_by in Hs. by rewrite E in Hs. }
  destruct (join_words w ws Hw) as (p & l & Hj & Hl1 & Hl2). inversion Hw as [|? ? [H1 H2] H3]; subst.
  assert (Hhead : exists c t, sjoin " " (w :: ws) = String c t /\ is_space c = false).
  { destruct w as [|c w]; [done|]. cbn [no_space] in H2. apply andb_true_iff in H2 as [Hc _]. exists c.
    destruct ws as [|w' ws]; [exists w; split; [done|by apply negb_true_iff]|]. eexists. split; [by rewrite sjoin_cons|by apply negb_true_iff]. }
  destruct Hhead as (c & t & Ht & Hc). split_and!; [by rewrite Ht| |by apply join_words_line].
  unfold strip, strip_by. rewrite Ht. cbn [lstrip_by]. rewrite Hc, <- Ht, Hj. apply rstrip_word; [by destruct l|done].
Qed.

Lemma add_entry_wf k x d : wf_entry x -> wf_document d -> wf_document (add_entry k x d).
Proof.
  intros Hx Hd k'. specialize (Hd k'). destruct k, k'; cbn in *; try done; apply Forall_app; split; try done; by constructor.
Qed.

Lemma document_from_json_wf `{FloatText} `{FloatRead} content d : document_from_json content = Ok d -> wf_document d.
Proof.
  unfold document_from_json. destruct (loads content) as [j|e]; [|by destruct (is_class EJSONDecode e)]. destruct j as [| | | | | |value]; try done.
  destruct (negb _); [done|]. destruct (jget "entries" value) as [| | | | |l|]; try done.
  assert (H0' : wf_document empty_document) by (intros []; constructor). revert H0'. generalize empty_document.
  induction l as [|x l IH]; intros d0 Hd0; cbn [res_fold]; [by intros [= <-]|]. destruct (read_entry d0 x) as [d1|] eqn:E; [|done]. cbn [res_bind]. apply IH.
  revert E. unfold read_entry. destruct x as [| | | | | |e]; try done. destruct (negb _); [done|]. destruct (kind_of _) as [k|]; [|done].
  destruct (jget "content" e) as [| | | |c| |]; try done. destruct (nonempty (strip c)) eqn:Es; [|done]. intros [= <-].
  case_bool_decide; [done|]. apply add_entry_wf; [by apply normalize_wf|done].
Qed.

(** ** Lines *)

Definition lines_text (ls : list string) : string := foldr (fun l b => l +:+ NL +:+ b) "" ls.

Lemma sjoin_lines l ls t : sjoin NL (l :: ls) +:+ NL +:+ t = lines_text (l :: ls) +:+ t.
Proof.
  revert l. induction ls as [|l' ls IH]; intros l; cbn [lines_text foldr]; [cbn [sjoin String.concat]; by rewrite !sapp_assoc|].
  rewrite sjoin_cons, !sapp_assoc by done. rewrite IH. cbn [lines_text foldr]. by rewrite !sapp_assoc.
Qed.

Lemma lines_text_app a b : lines_text (a ++ b) = lines_text a +:+ lines_text b.
Proof. induction a as [|x a IH]; [done|]. cbn [lines_text foldr app]. fold (lines_text (a ++ b)). rewrite IH. by rewrite <- !sapp_assoc. Qed.

Lemma splitlines_lines ls : Forall (fun l => one_line l = true) ls -> splitlines (lines_text ls) = ls.
Proof.
  unfold splitlines. induction 1 as [|l ls Hl _ IH]; [done|]. cbn [lines_text foldr]. change (NL +:+ ?x) with (String LF x).
  rewrite splitlines_line by done. cbn [String.append]. f_equal. exact IH.
Qed.

Lemma splitlines_single s : one_line s = true -> nonempty s = true -> splitlines s = [s].
Proof.
  unfold splitlines. intros Hs Hn. destruct s as [|c s]; [done|]. cbn [one_line splitlines_go] in *. apply andb_true_iff in Hs as [Hc%negb_true_iff Hs].
  rewrite Hc. clear Hn Hc. change (String c s) with ("" +:+ String c "" +:+ s). rewrite <- sapp_assoc. generalize ("" +:+ String c ""). revert Hs.
  induction s as [|a s IH]; intros Hs cur; cbn [splitlines_go]; [by rewrite sapp_nil_r|]. cbn [one_line] in Hs. apply andb_true_iff in Hs as [Ha%negb_true_iff Hs].
  rewrite Ha, IH by done. by rewrite sapp_assoc.
Qed.

Definition section_lines (d : MemoryDocument) (k : MemoryKind) : list string := heading "##" k :: map (fun c => "- " +:+ c) (entries k d).
Definition memory_lines (header : string) (d : MemoryDocument) : list string :=
  header :: "" :: section_lines d Preference ++ "" :: section_lines d Fact ++ "" :: section_lines d Decision_.

Lemma section_text d k t : render_section "##" d k +:+ NL +:+ t = lines_text (section_lines d k) +:+ t.
Proof. apply sjoin_lines. Qed.

Lemma render_lines header d : render_memory header d = lines_text (memory_lines header d).
Proof.
  unfold render_memory, render_document, memory_lines. cbn [map KINDS].
  rewrite (sjoin_cons (NL +:+ NL)), (sjoin_cons (NL +:+ NL)) by done. change (sjoin (NL +:+ NL) [?x]) with x.
  cbn [lines_text foldr]. change (foldr (fun l b => l +:+ NL +:+ b) "" ?l) with (lines_text l). rewrite !lines_text_app.
  cbn [lines_text foldr]. change (foldr (fun l b => l +:+ NL +:+ b) "" ?l) with (lines_text l). rewrite !lines_text_app.
  cbn [lines_text foldr]. change (foldr (fun l b => l +:+ NL +:+ b) "" ?l) with (lines_text l).
  rewrite !sapp_assoc, !section_text. change ("" +:+ ?x) with x.
  pose proof (section_text d Decision_ "") as H3. rewrite !sapp_nil_r in H3. by rewrite H3.
Qed.

(** ** Reading a document back *)

Definition add_entries (k : MemoryKind) (l : list string) (d : MemoryDocument) : MemoryDocument := fold_left (fun d x => add_entry k x d) l d.

Lemma add_entries_eq k l : forall d, add_entries k l d =
  match k with
  | Preference => MkMemory (preferences d ++ l) (facts d) (decisions d)
  | Fact => MkMemory (preferences d) (facts d ++ l) (decisions d)
  | Decision_ => MkMemory (preferences d) (facts d) (decisions d ++ l)
  end.
Proof.
  unfold add_entries. induction l as [|x l IH]; intros d; cbn [fold_left]; [destruct k; rewrite app_nil_r; by destruct d|].
  rewrite IH. destruct k; cbn; by rewrite <- app_assoc.
Qed.

Lemma strip_dash e : nonempty (strip ("- " +:+ e)) = true.
Proof. unfold strip, strip_by. change (lstrip_by is_space ("- " +:+ e)) with (String "-" (" " +:+ e)). by destruct (rstrip_by_cons is_space "-" (" " +:+ e) eq_refl) as [r ->]. Qed.

Lemma parse_entries k l : forall d seen, Forall wf_entry l ->
  res_fold (parse_line "##") (MkParse d (Some k) seen) (map (fun c => "- " +:+ c) l) = Ok (MkParse (add_entries k l d) (Some k) seen).
Proof.
  induction l as [|e l IH]; intros d seen Hl; [done|]. inversion Hl as [|? ? (H1 & H2 & H3) H4]; subst. cbn [map res_fold].
  assert (Hp : parse_line "##" (MkParse d (Some k) seen) ("- " +:+ e) = Ok (MkParse (add_entry k e d) (Some k) seen)).
  { unfold parse_line. rewrite strip_dash. cbn [negb pr_current pr_document pr_seen]. change (heading_kind "##" ("- " +:+ e)) with (@None MemoryKind).
    change (sdrop 2 ("- " +:+ e)) with e. rewrite H2, H1. done. }
  rewrite Hp. cbn [res_bind]. by apply IH.
Qed.

Lemma parse_section k d0 d cur seen rest : k ∉ seen -> Forall wf_entry (entries k d0) ->
  res_fold (parse_line "##") (MkParse d cur seen) (section_lines d0 k ++ rest) =
  res_fold (parse_line "##") (MkParse (add_entries k (entries k d0) d) (Some k) (k :: seen)) rest.
Proof.
  intros Hk Hl. unfold section_lines. cbn [app res_fold].
  assert (Hp : parse_line "##" (MkParse d cur seen) (heading "##" k) = Ok (MkParse d (Some k) (k :: seen))).
  { unfold parse_line. assert (negb (nonempty (strip (heading "##" k))) = false) as -> by (by destruct k).
    assert (heading_kind "##" (heading "##" k) = Some k) as -> by (by destruct k). cbn [pr_seen pr_document]. by rewrite bool_decide_eq_false_2. }
  rewrite Hp. cbn [res_bind]. by rewrite res_fold_app, parse_entries.
Qed.

Lemma parse_blank s rest : res_fold (parse_line "##") s ("" :: rest) = res_fold (parse_line "##") s rest.
Proof. done. Qed.

Lemma parse_sections d : wf_document d ->
  parse_document_lines "##" ("" :: section_lines d Preference ++ "" :: section_lines d Fact ++ "" :: section_lines d Decision_) = Ok d.
Proof.
  intros Hd. unfold parse_document_lines. rewrite parse_blank, parse_section, parse_blank, parse_section, parse_blank by (try apply Hd; set_solver).
  rewrite <- (app_nil_r (section_lines d Decision_)), parse_section by (try apply Hd; set_solver). cbn [res_fold res_bind pr_document].
  rewrite !add_entries_eq. by destruct d.
Qed.

Lemma memory_lines_one header d : one_line header = true -> wf_document d -> Forall (fun l => one_line l = true) (memory_lines header d).
Proof.
  intros Hh Hd. assert (Hs : forall k, Forall (fun l => one_line l = true) (section_lines d k)).
  { intros k. constructor; [by destruct k|]. apply Forall_map. eapply Forall_impl; [apply (Hd k)|]. intros e (_ & _ & He). exact He. }
  unfold memory_lines. do 2 (constructor; [done|]). do 2 (apply Forall_app; split; [apply Hs|constructor; [done|]]). apply Hs.
Qed.

Definition is_header (header : string) : Prop := one_line header = true /\ exists t, header = String "#" t.

Lemma parse_render header what d : is_header header -> wf_document d -> parse_memory header what (render_memory header d) = Ok d.
Proof.
  intros [Hh [t ->]] Hd. unfold parse_memory. rewrite render_lines, splitlines_lines by (by apply memory_lines_one).
  assert (nonempty (strip (lines_text (memory_lines (String "#" t) d))) = true) as ->.
  { unfold strip, strip_by. unfold memory_lines. cbn [lines_text foldr String.append lstrip_by].
    match goal with |- context [rstrip_by is_space (if is_space "#" then _ else String "#" ?x)] => change (is_space "#") with false; cbv iota; by destruct (rstrip_by_cons is_space "#" x eq_refl) as [r ->] end. }
  unfold memory_lines. cbn [negb]. rewrite String.eqb_refl. by apply parse_sections.
Qed.

Lemma one_line_no_cr s : one_line s = true -> has_char CR s = false.
Proof.
  induction s as [|c s IH]; [done|]. cbn [one_line has_char]. intros [Hc Hs]%andb_true_iff. rewrite (IH Hs), orb_false_r.
  destruct (Ascii.eqb_spec c CR) as [->|]; done.
Qed.

Lemma lines_no_cr ls : Forall (fun l => one_line l = true) ls -> has_char CR (lines_text ls) = false.
Proof.
  induction 1 as [|l ls Hl _ IH]; [done|]. cbn [lines_text foldr]. rewrite !has_char_app, (one_line_no_cr l Hl). exact IH.
Qed.

(** The bytes of a file that was written are read as the text. *)
Lemma file_text_render path header d files : is_header header -> wf_document d -> dget path files = Some (utf8_encode (render_memory header d)) ->
  file_text path files = Ok (render_memory header d).
Proof.
  intros [Hh _] Hd Hf. unfold file_text. rewrite Hf. pose proof (utf8_decode_encode false (render_memory header d) "") as He.
  rewrite sapp_nil_r in He. rewrite He. cbn [utf8_decode res_bind]. rewrite sapp_nil_r, universal_id; [done|]. rewrite render_lines.
  by apply lines_no_cr, memory_lines_one.
Qed.

(** ** Effects on the files *)

Lemma atomic_write_effect io temporary path data mode s :
  temporary <> path -> NoDup (dkeys (fs_files s)) -> dget temporary (fs_files s) = None ->
  let '(s', r) := atomic_write_bytes io temporary path data mode s in
  NoDup (dkeys (fs_files s')) /\ (forall q, q <> path -> q <> temporary -> dget q (fs_files s') = dget q (fs_files s)) /\
  (dget path (fs_files s') = dget path (fs_files s) \/ dget path (fs_files s') = Some data) /\
  (r = Ok tt -> dget path (fs_files s') = Some data).
Proof.
  intros Hne Hnd Hfresh. destruct s as [old past n]. simpl in *.
  unfold atomic_write_bytes, make_parent, make_temporary, write_bytes, sync_file, change_mode, replace_file, unlink_missing_ok.
  unfold bind, finally, primitive, untouched, ret, id.
  destruct mode; cbn -[dget dset dpop dkeys];
    repeat (match goal with |- context [match io ?k with _ => _ end] => destruct (io k) eqn:? end; cbn -[dget dset dpop dkeys]);
    rewrite ?dget_dset_eq; cbn -[dget dset dpop dkeys].
  all: split; [auto 8 using dset_NoDup, dpop_NoDup|].
  all: split; [intros q Hq Hq'; rewrite ?dget_dpop_ne, ?dget_dset_ne, ?dget_dpop_ne, ?dget_dset_ne, ?dget_dset_ne by done; done|].
  all: rewrite ?dget_dpop_ne, ?dget_dset_eq, ?dget_dset_ne, ?dget_dpop_ne, ?dget_dset_eq, ?dget_dset_ne, ?dget_dset_ne by done.
  all: split; [auto|done].
Qed.

Section files.
Context (io : nat -> IoOutcome) (temporary : FileSystem -> string) (global_path : string) (workspace_path : string -> string).

Definition memory_path (q : string) : Prop := q = global_path \/ exists w, q = workspace_path w.

(** [mkstemp] finds a name that is no file and no memory file ([.MEMORY.md.*.tmp]);
    the global file is not the file of a workspace. *)
Context (Hfresh : forall s, dget (temporary s) (fs_files s) = None) (Htemp : forall s q, memory_path q -> temporary s <> q)
  (Hapart : forall w, workspace_path w <> global_path).

Lemma write_memory_effect path text s : memory_path path -> NoDup (dkeys (fs_files s)) ->
  let '(s', r) := write_memory io temporary path text s in
  NoDup (dkeys (fs_files s')) /\ (forall q, memory_path q -> q <> path -> dget q (fs_files s') = dget q (fs_files s)) /\
  (dget path (fs_files s') = dget path (fs_files s) \/ dget path (fs_files s') = Some (utf8_encode text)) /\
  (r = Ok tt -> dget path (fs_files s') = Some (utf8_encode text)).
Proof.
  intros Hp Hnd. unfold write_memory, bind, get, atomic_write_text.
  pose proof (atomic_write_effect io (temporary s) path (utf8_encode text) false s (Htemp s path Hp) Hnd (Hfresh s)) as H.
  destruct (atomic_write_bytes _ _ _ _ _ s) as [s' r]. destruct H as (H1 & H2 & H3 & H4). split_and!; [done| |done|done].
  intros q Hq Hne. apply H2; [done|]. intros ->. by apply (Htemp s (temporary s)).
Qed.

Lemma lock_effect s : fs_files (fst (lock_files io s)) = fs_files s.
Proof. unfold lock_files, primitive. by destruct (io (fs_io s)). Qed.

Lemma read_text_effect path s : fs_files (fst (read_text io path s)) = fs_files s /\
  forall t, snd (read_text io path s) = Ok t -> file_text path (fs_files s) = Ok t.
Proof.
  unfold read_text, bind, get, dhas, ret. destruct (dget path (fs_files s)) as [b|] eqn:E.
  - unfold primitive, lift. destruct (io (fs_io s)); simpl; by split.
  - simpl. split; [done|]. intros t [= <-]. unfold file_text. by rewrite E.
Qed.

Definition document_at (parse : string -> res MemoryDocument) (path : string) (files : list (string * string)) : res MemoryDocument :=
  t <~ file_text path files ;; parse t.

Lemma document_at_dget parse path files files' : dget path files' = dget path files -> document_at parse path files' = document_at parse path files.
Proof. intros H. unfold document_at, file_text. by rewrite H. Qed.

(** What [load] gives is what the files hold. *)
Lemma load_effect w s : fs_files (fst (load io global_path workspace_path w s)) = fs_files s /\
  forall c, snd (load io global_path workspace_path w s) = Ok c ->
    document_at parse_global global_path (fs_files s) = Ok (global_memory c) /\
    document_at parse_workspace (workspace_path w) (fs_files s) = Ok (workspace_memory c).
Proof.
  unfold load, bind, lift, ret. pose proof (lock_effect s) as H0. destruct (lock_files io s) as [s0 [[]|e]]; simpl in H0; [|done].
  destruct (read_text_effect global_path s0) as [H1 G1]. destruct (read_text io global_path s0) as [s1 [t1|e]]; simpl in *; [|by rewrite H1, H0].
  destruct (read_text_effect (workspace_path w) s1) as [H2 G2]. destruct (read_text io (workspace_path w) s1) as [s2 [t2|e]]; simpl in *; [|by rewrite H2, H1, H0].
  specialize (G1 t1 eq_refl). specialize (G2 t2 eq_refl). rewrite H0 in G1. rewrite H1, H0 in G2.
  assert (H3 : fs_files s2 = fs_files s) by congruence. unfold document_at. rewrite G1, G2. cbn [res_bind].
  destruct (parse_global t1) as [g|]; simpl; [|done]. destruct (parse_workspace t2) as [x|]; simpl; [|done]. split; [done|]. by intros c [= <-].
Qed.

Definition maybe_write (path : string) (render : MemoryDocument -> string) (update : option MemoryDocument) : M FileSystem unit :=
  match update with Some d => write_memory io temporary path (render d) | None => ret tt end.

Lemma maybe_write_effect path render update s : memory_path path -> NoDup (dkeys (fs_files s)) ->
  let '(s', r) := maybe_write path render update s in
  NoDup (dkeys (fs_files s')) /\ (forall q, memory_path q -> q <> path -> dget q (fs_files s') = dget q (fs_files s)) /\
  (dget path (fs_files s') = dget path (fs_files s) \/ exists d, update = Some d /\ dget path (fs_files s') = Some (utf8_encode (render d))) /\
  (r = Ok tt -> forall d, update = Some d -> dget path (fs_files s') = Some (utf8_encode (render d))).
Proof.
  intros Hp Hnd. unfold maybe_write. destruct update as [d|]; [|split_and!; [done..|by left|done]].
  pose proof (write_memory_effect path (render d) s Hp Hnd) as H. destruct (write_memory _ _ _ _ s) as [s' r]. destruct H as (H1 & H2 & H3 & H4).
  split_and!; [done|done| |by intros Hr d' [= <-]; apply H4]. destruct H3 as [H3|H3]; [by left|right; by exists d].
Qed.

(** A file is as it was, or its document was the expected one and the new one is in
    it. *)
Definition rewritten (parse : string -> res MemoryDocument) (render : MemoryDocument -> string) (path : string)
    (update : option MemoryDocument) (expected : MemoryDocument) (files files' : list (string * string)) : Prop :=
  dget path files' = dget path files \/
  exists d, update = Some d /\ document_at parse path files = Ok expected /\ dget path files' = Some (utf8_encode (render d)).

Lemma write_updates_effect w g x c s : NoDup (dkeys (fs_files s)) ->
  let '(s', r) := write_updates io temporary global_path workspace_path w g x (Some c) s in
  NoDup (dkeys (fs_files s')) /\
  (forall q, memory_path q -> q <> global_path -> q <> workspace_path w -> dget q (fs_files s') = dget q (fs_files s)) /\
  rewritten parse_global render_global global_path g (global_memory c) (fs_files s) (fs_files s') /\
  rewritten parse_workspace render_workspace (workspace_path w) x (workspace_memory c) (fs_files s) (fs_files s') /\
  (r = Ok tt -> (forall d, g = Some d -> dget global_path (fs_files s') = Some (utf8_encode (render_global d))) /\
                (forall d, x = Some d -> dget (workspace_path w) (fs_files s') = Some (utf8_encode (render_workspace d)))).
Proof.
  intros Hnd. assert (Hsame : forall s' (r : res unit), fs_files s' = fs_files s -> r <> Ok tt -> let '(s', r) := (s', r) in
    NoDup (dkeys (fs_files s')) /\
    (forall q, memory_path q -> q <> global_path -> q <> workspace_path w -> dget q (fs_files s') = dget q (fs_files s)) /\
    rewritten parse_global render_global global_path g (global_memory c) (fs_files s) (fs_files s') /\
    rewritten parse_workspace render_workspace (workspace_path w) x (workspace_memory c) (fs_files s) (fs_files s') /\
    (r = Ok tt -> (forall d, g = Some d -> dget global_path (fs_files s') = Some (utf8_encode (render_global d))) /\
                  (forall d, x = Some d -> dget (workspace_path w) (fs_files s') = Some (utf8_encode (render_workspace d))))).
  { intros s' r -> Hr. split_and!; [done|done|by left|by left|done]. }
  unfold write_updates, bind at 1. pose proof (lock_effect s) as E0. destruct (lock_files io s) as [s0 [[]|e]]; simpl in E0; [|by apply Hsame].
  unfold bind at 1. destruct (read_text_effect global_path s0) as [E1 G1]. destruct (read_text io global_path s0) as [s1 [t1|e]]; simpl in E1, G1; [|apply Hsame; congruence].
  specialize (G1 t1 eq_refl). unfold bind at 1, lift at 1. destruct (parse_global t1) as [cg|e] eqn:P1; [|apply Hsame; congruence].
  unfold bind at 1. destruct (read_text_effect (workspace_path w) s1) as [E2 G2]. destruct (read_text io (workspace_path w) s1) as [s2 [t2|e]]; simpl in E2, G2; [|apply Hsame; congruence].
  specialize (G2 t2 eq_refl). unfold bind at 1, lift at 1. destruct (parse_workspace t2) as [cw|e] eqn:P2; [|apply Hsame; congruence].
  assert (Es : fs_files s2 = fs_files s) by congruence. rewrite E0 in G1. rewrite E1, E0 in G2.
  destruct (conflicts g (global_memory <$> Some c) cg) eqn:K1; [by apply Hsame|]. destruct (conflicts x (workspace_memory <$> Some c) cw) eqn:K2; [by apply Hsame|].
  assert (D1 : forall d, g = Some d -> document_at parse_global global_path (fs_files s) = Ok (global_memory c)).
  { intros d ->. simpl in K1. apply negb_false_iff, bool_decide_eq_true in K1. unfold document_at. rewrite G1. cbn [res_bind]. by rewrite P1, K1. }
  assert (D2 : forall d, x = Some d -> document_at parse_workspace (workspace_path w) (fs_files s) = Ok (workspace_memory c)).
  { intros d ->. simpl in K2. apply negb_false_iff, bool_decide_eq_true in K2. unfold document_at. rewrite G2. cbn [res_bind]. by rewrite P2, K2. }
  assert (Mg : memory_path global_path) by (by left). assert (Mw : memory_path (workspace_path w)) by (right; by exists w).
  rewrite <- Es in Hnd. pose proof (maybe_write_effect global_path render_global g s2 Mg Hnd) as Hg. fold (maybe_write global_path render_global g).
  unfold bind. destruct (maybe_write global_path render_global g s2) as [s3 r3]. destruct Hg as (N3 & F3 & W3 & C3). rewrite Es in *.
  assert (Rg : rewritten parse_global render_global global_path g (global_memory c) (fs_files s) (fs_files s3)).
  { destruct W3 as [W3|(d & Hd & W3)]; [by left|right]. exists d. split_and!; [done|by apply (D1 d)|done]. }
  destruct r3 as [[]|e].
  - pose proof (maybe_write_effect (workspace_path w) render_workspace x s3 Mw N3) as Hx. fold (maybe_write (workspace_path w) render_workspace x).
    destruct (maybe_write (workspace_path w) render_workspace x s3) as [s4 r4]. destruct Hx as (N4 & F4 & W4 & C4).
    assert (Eg : dget global_path (fs_files s4) = dget global_path (fs_files s3)) by (apply F4; [done|]; intros H; by apply (Hapart w)).
    assert (Ew : dget (workspace_path w) (fs_files s3) = dget (workspace_path w) (fs_files s)) by (by apply F3).
    split_and!; [done| | | |].
    + intros q Hq H1 H2. rewrite F4, F3 by done. done.
    + unfold rewritten. rewrite Eg. exact Rg.
    + destruct W4 as [W4|(d & Hd & W4)]; [left; congruence|right]. exists d. split_and!; [done|by apply (D2 d)|done].
    + intros ->. split; [|by apply C4]. rewrite Eg. by apply C3.
  - split_and!; [done| |done| |done].
    + intros q Hq H1 H2. by apply F3.
    + left. by apply F3.
Qed.

Lemma initialize_file_effect path text s : memory_path path -> NoDup (dkeys (fs_files s)) ->
  let '(s', r) := initialize_file io temporary path text s in
  NoDup (dkeys (fs_files s')) /\ (forall q, memory_path q -> q <> path -> dget q (fs_files s') = dget q (fs_files s)) /\
  (dget path (fs_files s') = dget path (fs_files s) \/ dget path (fs_files s) = None /\ dget path (fs_files s') = Some (utf8_encode text)).
Proof.
  intros Hp Hnd. unfold initialize_file, bind, get, ret, dhas. destruct (dget path (fs_files s)) eqn:E; [by split_and!; auto|].
  pose proof (write_memory_effect path text s Hp Hnd) as H. destruct (write_memory _ _ _ _ s) as [s' [[]|e]]; destruct H as (H1 & H2 & H3 & _); (split_and!; [done|done|]).
  all: rewrite E in H3; destruct H3 as [H3|H3]; [by left|by right].
Qed.

(** [initialize] creates empty documents where there is no file. *)
Lemma initialize_effect workspace s : NoDup (dkeys (fs_files s)) ->
  let '(s', _) := initialize io temporary global_path workspace_path workspace s in
  NoDup (dkeys (fs_files s')) /\
  (dget global_path (fs_files s') = dget global_path (fs_files s) \/
   dget global_path (fs_files s) = None /\ dget global_path (fs_files s') = Some (utf8_encode (render_global empty_document))) /\
  (forall w, dget (workspace_path w) (fs_files s') = dget (workspace_path w) (fs_files s) \/
     dget (workspace_path w) (fs_files s) = None /\ dget (workspace_path w) (fs_files s') = Some (utf8_encode (render_workspace empty_document))).
Proof.
  intros Hnd. unfold initialize, bind at 1. pose proof (lock_effect s) as E0. destruct (lock_files io s) as [s0 [[]|e]]; simpl in E0; [|rewrite E0; split_and!; [done|by left|intros w; by left]].
  rewrite <- E0 in Hnd. pose proof (initialize_file_effect global_path (render_global empty_document) s0 (or_introl eq_refl) Hnd) as H1.
  unfold bind at 1. destruct (initialize_file io temporary global_path _ s0) as [s1 r1]. destruct H1 as (N1 & F1 & W1). rewrite E0 in *.
  assert (Fw : forall w, dget (workspace_path w) (fs_files s1) = dget (workspace_path w) (fs_files s)) by (intros w; apply F1; [right; by exists w|done]).
  destruct r1 as [l1|e]; [|split_and!; [done|done|intros w; by left]]. destruct workspace as [v|]; [|unfold bind, ret; split_and!; [done|done|intros w; by left]].
  pose proof (initialize_file_effect (workspace_path v) (render_workspace empty_document) s1 (or_intror (ex_intro _ v eq_refl)) N1) as H2.
  unfold bind. destruct (initialize_file io temporary (workspace_path v) _ s1) as [s2 r2]. destruct H2 as (N2 & F2 & W2).
  enough (Hgoal : NoDup (dkeys (fs_files s2)) /\ _) by (destruct r2; exact Hgoal). split_and!; [done| |].
  - rewrite F2; [done|by left|]. intros H. by apply (Hapart v).
  - intros w. destruct (decide (workspace_path w = workspace_path v)) as [->|Hne]; [by rewrite <- (Fw v)|]. left. rewrite F2; [apply Fw|right; by exists w|done].
Qed.
End files.

(** ** One reconciliation after the other *)

Section serial.
Context (io : nat -> IoOutcome) (temporary : FileSystem -> string) (global_path : string) (workspace_path : string -> string).
Context (ask : nat -> MemoryScope -> MemoryDocument -> list MemoryCandidate -> res MemoryDocument).
Context (Hfresh : forall s, dget (temporary s) (fs_files s) = None)
  (Htemp : forall s q, memory_path global_path workspace_path q -> temporary s <> q)
  (Hapart : forall w, workspace_path w <> global_path)
  (Hask : forall n scope d l d', l <> [] -> ask n scope d l = Ok d' -> wf_document d').

(** A memory file: that of all workspaces, or that of one. *)
Inductive Target := TGlobal | TWorkspace (w : string).
Definition target_scope (t : Target) : MemoryScope := match t with TGlobal => GlobalScope | TWorkspace _ => WorkspaceScope end.
Definition target_document (t : Target) (files : list (string * string)) : res MemoryDocument :=
  match t with
  | TGlobal => document_at parse_global global_path files
  | TWorkspace w => document_at parse_workspace (workspace_path w) files
  end.

(** [l] are the reconciliations, each with its candidates, that lead from one
    document to another. *)
Inductive chain (scope : MemoryScope) : res MemoryDocument -> list (list MemoryCandidate * MemoryDocument) -> res MemoryDocument -> Prop :=
| chain_nil r : chain scope r [] r
| chain_snoc r us d n l d' : chain scope r us (Ok d) -> l <> [] -> ask n scope d l = Ok d' -> chain scope r (us ++ [(l, d')]) (Ok d').

Definition belongs (t : Target) (m : MemoryManager) : bool :=
  match t with TGlobal => true | TWorkspace w => bool_decide (workspace_path (mm_workspace m) = workspace_path w) end.

(** The candidates that were remembered for a file. *)
Definition remembered (t : Target) (names : list string) (ops : list MemoryOp) : list MemoryCandidate :=
  flat_map (fun op => match op with
                      | MRemember i c => match names !! i with
                                         | Some name => if belongs t (new_manager name) then scoped (target_scope t) [c] else []
                                         | None => []
                                         end
                      | _ => []
                      end) ops.

Definition flight (pc : ReconcilePc) : list MemoryCandidate :=
  match pc with Resting => [] | Took l | Loaded l _ | Answered l _ _ _ => l end.
Definition held (t : Target) (m : MemoryManager) : list MemoryCandidate :=
  if belongs t m then scoped (target_scope t) (mm_pending m ++ flight (mm_pc m)) else [].

Definition asked (scope : MemoryScope) (d : MemoryDocument) (l : list MemoryCandidate) (u : option MemoryDocument) : Prop :=
  (u = None -> scoped scope l = []) /\
  forall d', u = Some d' -> scoped scope l <> [] /\ exists n, ask n scope d (scoped scope l) = Ok d'.
Definition updates_ok (m : MemoryManager) : Prop :=
  match mm_pc m with
  | Answered l c g x => asked GlobalScope (global_memory c) l g /\ asked WorkspaceScope (workspace_memory c) l x
  | _ => True
  end.

Record serial (t : Target) (names : list string) (d0 : res MemoryDocument) (rem : list MemoryCandidate) (w : MemoryWorld) : Prop := {
  sr_keys : NoDup (dkeys (fs_files (mw_fs w)));
  sr_names : map mm_workspace (mw_managers w) = names;
  sr_updates : Forall updates_ok (mw_managers w);
  sr_chain : exists us, chain (target_scope t) d0 us (target_document t (fs_files (mw_fs w))) /\
    concat (map fst us) ++ concat (map (held t) (mw_managers w)) ⊆+ rem;
}.

Lemma alter_split {A B} (h : A -> list B) f i ms m : ms !! i = Some m ->
  exists rest, concat (map h ms) ≡ₚ h m ++ rest /\ concat (map h (alter f i ms)) ≡ₚ h (f m) ++ rest.
Proof.
  revert i. induction ms as [|x ms IH]; intros [|i] Hi; [done..| |].
  - injection Hi as ->. by exists (concat (map h ms)).
  - destruct (IH i Hi) as (rest & H1 & H2). exists (h x ++ rest). cbn. rewrite H1. change (alter f (S i) (x :: ms)) with (x :: alter f i ms).
    cbn. rewrite H2. split; by rewrite !(Permutation_app_comm (h x)), <- !app_assoc, (Permutation_app_comm rest).
Qed.

Lemma alter_names f i (ms : list MemoryManager) : (forall m, mm_workspace (f m) = mm_workspace m) -> map mm_workspace (alter f i ms) = map mm_workspace ms.
Proof.
  intros Hf. revert i. induction ms as [|x ms IH]; intros [|i]; [done..|cbn; by rewrite Hf|]. change (alter f (S i) (x :: ms)) with (x :: alter f i ms). cbn. by rewrite IH.
Qed.


(** One manager moves on; [l] are the candidates it has reconciled into the file. *)
Lemma serial_move t names d0 rem extra w fs' f i m l tick' :
  serial t names d0 rem w -> mw_managers w !! i = Some m -> (forall m, mm_workspace (f m) = mm_workspace m) -> updates_ok (f m) ->
  NoDup (dkeys (fs_files fs')) ->
  (forall us, chain (target_scope t) d0 us (target_document t (fs_files (mw_fs w))) ->
     exists us', chain (target_scope t) d0 us' (target_document t (fs_files fs')) /\ concat (map fst us') = concat (map fst us) ++ l) ->
  held t (f m) ++ l ⊆+ held t m ++ extra ->
  serial t names d0 (rem ++ extra) (MkMemoryWorld fs' (alter f i (mw_managers w)) tick').
Proof.
  intros [K N U (us & Hc & Hs)] Hi Hf Hu Hnd Hchain Hheld. split; simpl; [done|by rewrite alter_names| |].
  - apply Forall_lookup. intros j x Hx. destruct (decide (i = j)) as [<-|Hne].
    + rewrite list_lookup_alter_eq, Hi in Hx. by injection Hx as <-.
    + rewrite list_lookup_alter_ne in Hx by done. by eapply Forall_lookup_1 in U.
  - destruct (Hchain us Hc) as (us' & Hc' & Hus). exists us'. split; [done|]. rewrite Hus.
    destruct (alter_split (held t) f i (mw_managers w) m Hi) as (rest & H1 & H2). rewrite H2. rewrite H1 in Hs.
    transitivity ((concat (map fst us) ++ held t m ++ rest) ++ extra); [|by apply submseteq_app].
    rewrite <- !app_assoc. apply submseteq_skips_l. rewrite (Permutation_app_comm rest extra), !app_assoc. apply submseteq_skips_r.
    by rewrite (Permutation_app_comm l).
Qed.

(** Nothing is reconciled and the files hold what they held. *)
Lemma serial_quiet t names d0 rem w fs' f i m tick' :
  serial t names d0 rem w -> mw_managers w !! i = Some m -> (forall m, mm_workspace (f m) = mm_workspace m) -> updates_ok (f m) ->
  fs_files fs' = fs_files (mw_fs w) -> held t (f m) ⊆+ held t m ->
  serial t names d0 rem (MkMemoryWorld fs' (alter f i (mw_managers w)) tick').
Proof.
  intros Hs Hi Hf Hu Hfs Hheld. rewrite <- (app_nil_r rem). apply (serial_move t names d0 rem [] w fs' f i m []); try done.
  - rewrite Hfs. apply Hs.
  - intros us Hc. exists us. by rewrite Hfs, app_nil_r.
  - by rewrite !app_nil_r.
Qed.

Lemma scoped_app scope a b : scoped scope (a ++ b) = scoped scope a ++ scoped scope b.
Proof. apply List.filter_app. Qed.

Lemma held_finish t r m : held t (finish_reconcile r m) ⊆+ held t m.
Proof.
  unfold held. change (belongs t (finish_reconcile r m)) with (belongs t m). destruct (belongs t m); [|done]. simpl.
  rewrite !scoped_app. apply submseteq_skips_l, submseteq_nil_l.
Qed.

Lemma held_go t pc m : flight pc = flight (mm_pc m) -> held t (go_to pc m) = held t m.
Proof. intros Hf. unfold held. change (belongs t (go_to pc m)) with (belongs t m). simpl. by rewrite Hf. Qed.

Lemma missing_alter {A} (f : A -> A) i (l : list A) : l !! i = None -> alter f i l = l.
Proof.
  revert i. induction l as [|x l IH]; intros [|i]; try done. intros H. change (alter f (S i) (x :: l)) with (x :: alter f i l). f_equal. by apply IH.
Qed.

Lemma global_is_header : is_header global_header.
Proof. split; [done|by eexists]. Qed.
Lemma workspace_is_header : is_header workspace_header.
Proof. split; [done|by eexists]. Qed.

(** The document of a file that was written. *)
Lemma written_global files d : wf_document d -> dget global_path files = Some (utf8_encode (render_global d)) -> target_document TGlobal files = Ok d.
Proof.
  intros Hd Hf. simpl. unfold document_at. rewrite (file_text_render _ _ d files global_is_header Hd Hf). cbn [res_bind]. by apply parse_render; [apply global_is_header|].
Qed.
Lemma written_workspace v files d : wf_document d -> dget (workspace_path v) files = Some (utf8_encode (render_workspace d)) -> target_document (TWorkspace v) files = Ok d.
Proof.
  intros Hd Hf. simpl. unfold document_at. rewrite (file_text_render _ _ d files workspace_is_header Hd Hf). cbn [res_bind]. by apply parse_render; [apply workspace_is_header|].
Qed.

Lemma empty_document_wf : wf_document empty_document.
Proof. intros []; constructor. Qed.

Lemma initialize_document t workspace s : NoDup (dkeys (fs_files s)) ->
  let s' := fst (initialize io temporary global_path workspace_path workspace s) in
  NoDup (dkeys (fs_files s')) /\ target_document t (fs_files s') = target_document t (fs_files s).
Proof.
  intros Hnd s'. pose proof (initialize_effect io temporary global_path workspace_path Hfresh Htemp Hapart workspace s Hnd) as H. unfold s'.
  destruct (initialize _ _ _ _ _ s) as [s1 r]. simpl. destruct H as (H1 & H2 & H3). split; [done|]. destruct t as [|v].
  - destruct H2 as [H2|[H2 H2']]; [by apply document_at_dget|]. rewrite (written_global _ empty_document empty_document_wf H2'). simpl. unfold document_at, file_text. by rewrite H2.
  - destruct (H3 v) as [H4|[H4 H4']]; [by apply document_at_dget|]. rewrite (written_workspace v _ empty_document empty_document_wf H4'). simpl. unfold document_at, file_text. by rewrite H4.
Qed.

Lemma ask_scope_asked n scope d l u : ask_scope ask n scope d l = Ok u -> asked scope d l u.
Proof.
  unfold ask_scope, asked. destruct (scoped scope l) as [|c rest] eqn:E; [by intros [= <-]|]. destruct (ask n scope d (c :: rest)) as [d1|] eqn:Ea; [|done].
  intros [= <-]. split; [done|]. intros d' [= <-]. split; [done|]. by exists n.
Qed.

(** What a write does to the chain of a file: nothing, or one more reconciliation
    with the candidates of the manager. *)
Lemma write_extends t w ws pending l c g x results i s' r :
  NoDup (dkeys (fs_files (mw_fs w))) -> mw_managers w !! i = Some (MkManager ws pending (Answered l c g x) results) ->
  updates_ok (MkManager ws pending (Answered l c g x) results) ->
  write_updates io temporary global_path workspace_path ws g x (Some c) (mw_fs w) = (s', r) ->
  NoDup (dkeys (fs_files s')) /\
  exists done, (done = [] \/ belongs t (new_manager ws) = true /\ done = scoped (target_scope t) l) /\
    forall d0 us, chain (target_scope t) d0 us (target_document t (fs_files (mw_fs w))) ->
      exists us', chain (target_scope t) d0 us' (target_document t (fs_files s')) /\ concat (map fst us') = concat (map fst us) ++ done.
Proof.
  intros Hnd Hi [[_ Ag] [_ Ax]] Hw. pose proof (write_updates_effect io temporary global_path workspace_path Hfresh Htemp Hapart ws g x c (mw_fs w) Hnd) as H.
  rewrite Hw in H. destruct H as (N & F & Rg & Rx & _). split; [done|].
  assert (Hsame : target_document t (fs_files s') = target_document t (fs_files (mw_fs w)) ->
    exists done, (done = [] \/ belongs t (new_manager ws) = true /\ done = scoped (target_scope t) l) /\
    forall d0 us, chain (target_scope t) d0 us (target_document t (fs_files (mw_fs w))) ->
      exists us', chain (target_scope t) d0 us' (target_document t (fs_files s')) /\ concat (map fst us') = concat (map fst us) ++ done).
  { intros Hd. exists []. split; [by left|]. intros d0 us Hc. exists us. by rewrite Hd, app_nil_r. }
  assert (Hmore : forall d d' n, belongs t (new_manager ws) = true -> target_document t (fs_files (mw_fs w)) = Ok d ->
    target_document t (fs_files s') = Ok d' -> scoped (target_scope t) l <> [] -> ask n (target_scope t) d (scoped (target_scope t) l) = Ok d' ->
    exists done, (done = [] \/ belongs t (new_manager ws) = true /\ done = scoped (target_scope t) l) /\
    forall d0 us, chain (target_scope t) d0 us (target_document t (fs_files (mw_fs w))) ->
      exists us', chain (target_scope t) d0 us' (target_document t (fs_files s')) /\ concat (map fst us') = concat (map fst us) ++ done).
  { intros d d' n Hb H1 H2 H3 H4. exists (scoped (target_scope t) l). split; [by right|]. intros d0 us Hc. rewrite H1 in Hc. rewrite H2.
    exists (us ++ [(scoped (target_scope t) l, d')]). split; [by apply (chain_snoc _ _ _ d n)|]. rewrite map_app, concat_app. cbn. by rewrite app_nil_r. }
  destruct t as [|v]; simpl in Hmore, Hsame.
  - destruct Rg as [Rg|(d & -> & Rd & Rg)]; [apply Hsame; by apply document_at_dget|]. destruct (Ag d eq_refl) as [H1 [n H2]].
    apply (Hmore (global_memory c) d n); try done. apply (written_global _ d); [by eapply Hask|done].
  - destruct (decide (workspace_path ws = workspace_path v)) as [Heq|Hne].
    + rewrite Heq in Rx. destruct Rx as [Rx|(d & -> & Rd & Rx)]; [apply Hsame; by apply document_at_dget|]. destruct (Ax d eq_refl) as [H1 [n H2]].
      apply (Hmore (workspace_memory c) d n); try done; [by apply bool_decide_eq_true_2|]. apply (written_workspace v _ d); [by eapply Hask|done].
    + apply Hsame, document_at_dget, F; [right; by exists v|done|done].
Qed.

Lemma updates_of t names d0 rem w i m : serial t names d0 rem w -> mw_managers w !! i = Some m -> updates_ok m.
Proof. intros Hs Hi. by eapply (Forall_lookup_1 updates_ok); [apply Hs|]. Qed.

Lemma remembered_app t names a b : remembered t names (a ++ b) = remembered t names a ++ remembered t names b.
Proof. unfold remembered. by rewrite flat_map_app. Qed.

Lemma serial_step t names d0 rem w op : serial t names d0 rem w ->
  serial t names d0 (rem ++ remembered t names [op]) (memory_step io temporary global_path workspace_path ask op w).
Proof.
  intros Hs. assert (Hsame : serial t names d0 (rem ++ []) w) by (by rewrite app_nil_r). destruct op as [workspace|i c|i|i|i|i|i]; simpl.
  - rewrite app_nil_r. destruct (initialize_document t workspace (mw_fs w) (sr_keys _ _ _ _ _ Hs)) as [H1 H2].
    destruct Hs as [K N U C]. split; simpl; [done..|by rewrite H2].
  - rewrite app_nil_r. unfold on_manager. destruct (mw_managers w !! i) as [m|] eqn:Hi.
    + assert (Hname : names !! i = Some (mm_workspace m)) by (rewrite <- (sr_names _ _ _ _ _ Hs), list_lookup_fmap, Hi; done). rewrite Hname.
      apply (serial_move t names d0 rem _ w _ _ i m []); try done.
      * exact (updates_of _ _ _ _ _ _ _ Hs Hi).
      * apply Hs.
      * intros us Hc. exists us. by rewrite app_nil_r.
      * rewrite app_nil_r. unfold held. change (belongs t (remember c m)) with (belongs t m). change (belongs t (new_manager (mm_workspace m))) with (belongs t m).
        destruct (belongs t m); [|done]. cbn [remember mm_pending mm_pc]. rewrite !scoped_app, <- !app_assoc. apply submseteq_skips_l. by rewrite Permutation_app_comm.
    + rewrite missing_alter by done.
      assert (Hname : names !! i = None) by (rewrite <- (sr_names _ _ _ _ _ Hs), list_lookup_fmap, Hi; done). rewrite Hname. by destruct w.
  - unfold on_manager. destruct (mw_managers w !! i) as [m|] eqn:Hi; [|rewrite missing_alter by done; by destruct w]. rewrite app_nil_r.
    apply (serial_quiet t names d0 rem w _ _ i m); try done; [exact (updates_of _ _ _ _ _ _ _ Hs Hi)|].
    unfold held. change (belongs t (discard_pending m)) with (belongs t m). destruct (belongs t m); [|done]. simpl. rewrite scoped_app.
    apply submseteq_inserts_l. done.
  - unfold on_manager. destruct (mw_managers w !! i) as [m|] eqn:Hi; [|rewrite missing_alter by done; by destruct w]. rewrite app_nil_r.
    apply (serial_quiet t names d0 rem w _ _ i m); try done.
    + intros m'. unfold take_candidates. destruct (mm_pc m'); [|done..]. by destruct (mm_pending m').
    + unfold take_candidates. destruct (mm_pc m) eqn:Ep; [|exact (updates_of _ _ _ _ _ _ _ Hs Hi)..]. by destruct (mm_pending m).
    + unfold take_candidates. destruct (mm_pc m) eqn:Ep; [|done..]. unfold held. destruct m as [ws pending pc results]. simpl in Ep. subst pc.
      destruct pending; simpl; [done|]. change (belongs t (go_to _ _)) with (belongs t (new_manager ws)). change (belongs t (MkManager ws _ _ _)) with (belongs t (new_manager ws)).
      destruct (belongs t (new_manager ws)); [|done]. simpl. by rewrite app_nil_r.
  - rewrite app_nil_r in *. unfold load_step. destruct (mw_managers w !! i) as [[ws pending [|l| |] results]|] eqn:Hi; try done.
    destruct (load_effect io global_path workspace_path ws (mw_fs w)) as [Hf _]. destruct (load io global_path workspace_path ws (mw_fs w)) as [fs' [c|e]]; simpl in Hf.
    + by apply (serial_quiet t names d0 rem w _ _ i _ _ Hs Hi); [done|done|done|rewrite held_go].
    + by apply (serial_quiet t names d0 rem w _ _ i _ _ Hs Hi); [done|done|done|apply held_finish].
  - rewrite app_nil_r in *. unfold ask_step. destruct (mw_managers w !! i) as [[ws pending [|l|l c|] results]|] eqn:Hi; try done.
    destruct (ask_scope ask (mw_tick w) GlobalScope (global_memory c) l) as [g|e] eqn:Eg; cbn [res_bind];
      [destruct (ask_scope ask (S (mw_tick w)) WorkspaceScope (workspace_memory c) l) as [x|e] eqn:Ex; cbn [res_bind]|].
    + apply (serial_quiet t names d0 rem w _ _ i _ _ Hs Hi); [done| |done|by rewrite held_go]. split; simpl; by eapply ask_scope_asked.
    + by apply (serial_quiet t names d0 rem w _ _ i _ _ Hs Hi); [done|done|done|apply held_finish].
    + by apply (serial_quiet t names d0 rem w _ _ i _ _ Hs Hi); [done|done|done|apply held_finish].
  - rewrite app_nil_r in *. unfold write_step. destruct (mw_managers w !! i) as [[ws pending [| | |l c g x] results]|] eqn:Hi; try done.
    destruct (write_updates io temporary global_path workspace_path ws g x (Some c) (mw_fs w)) as [fs' r] eqn:Ew.
    destruct (write_extends t w ws pending l c g x results i fs' r (sr_keys _ _ _ _ _ Hs) Hi) as (N & l' & Hl & Hc); [|done|].
    { exact (updates_of _ _ _ _ _ _ _ Hs Hi). }
    rewrite <- (app_nil_r rem). apply (serial_move t names d0 rem [] w fs' _ i _ l' _ Hs Hi); try done; [by apply Hc|]. rewrite app_nil_r.
    destruct Hl as [->|[Hb ->]]; [rewrite app_nil_r; apply held_finish|]. unfold held. change (belongs t (finish_reconcile _ _)) with (belongs t (new_manager ws)).
    change (belongs t (MkManager ws _ _ _)) with (belongs t (new_manager ws)). rewrite Hb. simpl. by rewrite !scoped_app, app_nil_r.
Qed.

Lemma serial_run t ops fs0 names : NoDup (dkeys (fs_files fs0)) ->
  serial t names (target_document t (fs_files fs0)) (remembered t names ops)
    (memory_run io temporary global_path workspace_path ask ops (MkMemoryWorld fs0 (map new_manager names) 0)).
Proof.
  intros Hnd. assert (H0 : serial t names (target_document t (fs_files fs0)) [] (MkMemoryWorld fs0 (map new_manager names) 0)).
  { split; simpl; [done| |apply Forall_forall; intros m Hm; by apply list_elem_of_fmap in Hm as (? & -> & _)|].
    - rewrite map_map. apply map_id.
    - exists []. split; [constructor|]. simpl. assert (concat (map (held t) (map new_manager names)) = []) as ->; [|done].
      induction names as [|n l IH]; [done|]. simpl. rewrite IH, app_nil_r. unfold held. by destruct (belongs t (new_manager n)). }
  revert H0. change (remembered t names ops) with ([] ++ remembered t names ops). generalize (@nil MemoryCandidate).
  generalize (MkMemoryWorld fs0 (map new_manager names) 0). induction ops as [|op ops IH]; intros w rem Hs; [by rewrite app_nil_r|].
  change (op :: ops) with ([op] ++ ops). rewrite remembered_app, app_assoc. apply IH. by apply serial_step.
Qed.

(** A write that returns has stored the answer for every scope that had candidates. *)
Lemma write_stores t names d0 rem w i ws pending l c g x results fs' :
  serial t names d0 rem w -> mw_managers w !! i = Some (MkManager ws pending (Answered l c g x) results) ->
  write_updates io temporary global_path workspace_path ws g x (Some c) (mw_fs w) = (fs', Ok tt) ->
  (scoped GlobalScope l <> [] -> exists n d, ask n GlobalScope (global_memory c) (scoped GlobalScope l) = Ok d /\ target_document TGlobal (fs_files fs') = Ok d) /\
  (scoped WorkspaceScope l <> [] -> exists n d, ask n WorkspaceScope (workspace_memory c) (scoped WorkspaceScope l) = Ok d /\
     target_document (TWorkspace ws) (fs_files fs') = Ok d).
Proof.
  intros Hs Hi Hw. destruct (updates_of _ _ _ _ _ _ _ Hs Hi) as [[Ng Ag] [Nx Ax]].
  pose proof (write_updates_effect io temporary global_path workspace_path Hfresh Htemp Hapart ws g x c (mw_fs w) (sr_keys _ _ _ _ _ Hs)) as H.
  rewrite Hw in H. destruct H as (_ & _ & _ & _ & Hok). destruct (Hok eq_refl) as [Hg Hx]. split.
  - intros Hne. destruct g as [d|]; [|by rewrite Ng in Hne]. destruct (Ag d eq_refl) as [_ [n Hn]]. exists n, d. split; [done|].
    apply written_global; [by eapply Hask|by apply Hg].
  - intros Hne. destruct x as [d|]; [|by rewrite Nx in Hne]. destruct (Ax d eq_refl) as [_ [n Hn]]. exists n, d. split; [done|].
    apply written_workspace; [by eapply Hask|by apply Hx].
Qed.
End serial.

Lemma reconcile_wf `{FloatText} `{FloatRead} stream clock on_call gp wp gm wm n scope d l d' : l <> [] ->
  reconcile stream clock on_call gp wp gm wm n scope d l = Ok d' -> wf_document d'.
Proof.
  intros Hl. unfold reconcile. destruct l as [|c l]; [done|]. cbv zeta. set (result := r <~ stream n _ ;; read_response r).
  assert (Hr : forall d', result = Ok d' -> wf_document d').
  { intros d1. unfold result, read_response. destruct (stream n _) as [r|]; [|done]. cbn [res_bind]. destruct (rs_content r); [|done]. destruct (rs_tool_calls r); [|done].
    apply document_from_json_wf. }
  destruct on_call as [call|]; [|apply Hr]. destruct (call n _); [|done]. cbn [res_bind]. apply Hr.
Qed.

(** A memory document as the reconciler accepts it from the model is, written to
    a memory file and read again, the same document: no entry is lost, split, merged
    or moved to another heading. *)
Theorem memory_document_roundtrip `{FloatText} `{FloatRead} content d path files :
  document_from_json content = Ok d ->
  (dget path files = Some (utf8_encode (render_global d)) -> (t <~ file_text path files ;; parse_global t) = Ok d) /\
  (dget path files = Some (utf8_encode (render_workspace d)) -> (t <~ file_text path files ;; parse_workspace t) = Ok d) /\
  Forall (fun e => strip e = e /\ e <> "" /\ splitlines e = [e]) (preferences d ++ facts d ++ decisions d).
Proof.
  intros Hd%document_from_json_wf. split_and!.
  - intros Hf. rewrite (file_text_render _ _ d files global_is_header Hd Hf). by apply parse_render; [apply global_is_header|].
  - intros Hf. rewrite (file_text_render _ _ d files workspace_is_header Hd Hf). by apply parse_render; [apply workspace_is_header|].
  - assert (He : forall k, Forall (fun e => strip e = e /\ e <> "" /\ splitlines e = [e]) (entries k d)).
    { intros k. eapply Forall_impl; [apply (Hd k)|]. intros e (H1 & H2 & H3). split_and!; [done|by apply nonempty_true|by apply splitlines_single]. }
    repeat (apply Forall_app; split); [apply (He Preference)|apply (He Fact)|apply (He Decision_)].
Qed.

#[local] Instance memory_floats : FloatText := {| float_repr b := "0.0" |}.
#[local] Instance memory_float_read : FloatRead := {| float_value s := 0 |}.

(** Spaces and a line break within an entry become single spaces; a repeated entry is
    kept once. *)
Definition entry_json (kind content : string) : json := JObj [("kind", JStr kind); ("content", JStr content)].
Definition demo_answer : string :=
  dumps (JObj [("entries", JArr [entry_json "fact" ("  uses" +:+ NL +:+ "# uv "); entry_json "fact" "uses # uv"; entry_json "preference" "- terse"])]).
Definition demo_document : MemoryDocument := MkMemory ["- terse"] ["uses # uv"] [].

Lemma memory_document_roundtrip_witness :
  document_from_json demo_answer = Ok demo_document /\
  (t <~ file_text "MEMORY.md" [("MEMORY.md", utf8_encode (render_global demo_document))] ;; parse_global t) = Ok demo_document.
Proof.
  assert (Hd : document_from_json demo_answer = Ok demo_document) by (vm_compute; reflexivity). split; [exact Hd|].
  destruct (memory_document_roundtrip demo_answer demo_document "MEMORY.md" [("MEMORY.md", utf8_encode (render_global demo_document))] Hd) as [H _].
  apply H. reflexivity.
Defined.

(** C23: however managers (of this and of other processes) collect, discard, load, ask
    and write, and whichever file operations and model calls fail, a memory file
    always holds what reconciliations done one after the other give: each was asked
    to merge its candidates into exactly the document the one before had left, and
    no candidate is merged into a file twice.  A reconciliation that returns has
    stored the answer for every scope it had candidates for. *)
Theorem memory_updates_serialize `{FloatText} `{FloatRead} io temporary global_path workspace_path stream clock on_call gp wp gm wm fs0 names ops :
  (forall s, dget (temporary s) (fs_files s) = None) ->
  (forall s q, memory_path global_path workspace_path q -> temporary s <> q) ->
  (forall w, workspace_path w <> global_path) ->
  NoDup (dkeys (fs_files fs0)) ->
  let ask := reconcile stream clock on_call gp wp gm wm in
  let w := memory_run io temporary global_path workspace_path ask ops (MkMemoryWorld fs0 (map new_manager names) 0) in
  let document t files := target_document global_path workspace_path t files in
  (forall t, exists us, chain ask (target_scope t) (document t (fs_files fs0)) us (document t (fs_files (mw_fs w))) /\
     concat (map fst us) ⊆+ remembered workspace_path t names ops) /\
  (forall i ws pending l c g x results fs',
     mw_managers w !! i = Some (MkManager ws pending (Answered l c g x) results) ->
     write_updates io temporary global_path workspace_path ws g x (Some c) (mw_fs w) = (fs', Ok tt) ->
     (scoped GlobalScope l <> [] -> exists n d, ask n GlobalScope (global_memory c) (scoped GlobalScope l) = Ok d /\ document TGlobal (fs_files fs') = Ok d) /\
     (scoped WorkspaceScope l <> [] -> exists n d, ask n WorkspaceScope (workspace_memory c) (scoped WorkspaceScope l) = Ok d /\
        document (TWorkspace ws) (fs_files fs') = Ok d)).
Proof.
  intros Hfresh Htemp Hapart Hnd ask w document.
  assert (Hask : forall n scope d l d', l <> [] -> ask n scope d l = Ok d' -> wf_document d') by (intros n scope d l d'; apply reconcile_wf).
  pose proof (fun t => serial_run io temporary global_path workspace_path ask Hfresh Htemp Hapart Hask t ops fs0 names Hnd) as Hs. split.
  - intros t. destruct (Hs t) as [_ _ _ (us & Hc & Hsub)]. exists us. split; [done|]. etransitivity; [|exact Hsub]. by apply submseteq_inserts_r.
  - intros i ws pending l c g x results fs' Hi Hw.
    by apply (write_stores io temporary global_path workspace_path ask Hfresh Htemp Hapart Hask TGlobal names _ _ w i ws pending l c g x results fs' (Hs TGlobal)).
Qed.

(** A name that is longer than every file's. *)
Definition demo_temporary (s : FileSystem) : string := String "." (sjoin "" (dkeys (fs_files s))).

Lemma demo_temporary_fresh s : dget (demo_temporary s) (fs_files s) = None.
Proof.
  apply dget_None_not_in. intros Hin. assert (Hle : forall k l, k ∈ l -> (String.length k <= String.length (sjoin "" l))%nat).
  { intros k l. induction l as [|x l IH]; intros Hk; [by apply elem_of_nil in Hk|].
    assert (Hx : String.length (sjoin "" (x :: l)) = (String.length x + String.length (sjoin "" l))%nat).
    { destruct l; [simpl; lia|]. rewrite sjoin_cons by done. change ("" +:+ ?y) with y. apply length_sapp. }
    rewrite Hx. apply elem_of_cons in Hk as [->|Hk]; [lia|]. specialize (IH Hk). lia. }
  specialize (Hle _ _ Hin). simpl in Hle. lia.
Qed.

Definition demo_stream (n : nat) (r : LLMRequest) : res LLMResponse := Ok (MkResponse (Some demo_answer) None [] None []).

(** Two managers load the same document; the second to write is refused and its
    candidate is dropped. *)
Lemma memory_updates_serialize_witness :
  let ask := reconcile demo_stream (fun _ => (0, 0)) None "" "" 10 10 in
  let c := MkCandidate Fact GlobalScope "uses uv" in
  let ops := [MRemember 0 c; MRemember 1 c; MTake 0; MTake 1; MLoad 0; MLoad 1; MAsk 0; MAsk 1; MWrite 0; MWrite 1] in
  let w := memory_run (fun _ => IoOk) demo_temporary "MEMORY.md" (fun v => "w/" +:+ v) ask ops (MkMemoryWorld (MkFS [] [] 0) (map new_manager ["a"; "b"]) 0) in
  map mm_results (mw_managers w) = [[Ok true]; [Err (changed "global")]] /\
  target_document "MEMORY.md" (fun v => "w/" +:+ v) TGlobal (fs_files (mw_fs w)) = Ok demo_document /\
  exists us, chain ask GlobalScope (Ok empty_document) us (Ok demo_document) /\ concat (map fst us) ⊆+ [c; c].
Proof.
  intros ask c ops w. assert (Hdoc : target_document "MEMORY.md" (fun v => "w/" +:+ v) TGlobal (fs_files (mw_fs w)) = Ok demo_document) by (vm_compute; reflexivity).
  split; [vm_compute; reflexivity|]. split; [exact Hdoc|].
  destruct (memory_updates_serialize (fun _ => IoOk) demo_temporary "MEMORY.md" (fun v => "w/" +:+ v) demo_stream (fun _ => (0, 0)) None "" "" 10 10 (MkFS [] [] 0) ["a"; "b"] ops)
    as [Hall _].
  - apply demo_temporary_fresh.
  - intros s q [->|[v ->]]; discriminate.
  - intros v; discriminate.
  - apply NoDup_nil_2.
  - destruct (Hall TGlobal) as (us & Hc & Hsub). exists us. fold ask in Hc. change (memory_run _ _ _ _ _ _ _) with w in Hc. rewrite Hdoc in Hc. split; [exact Hc|exact Hsub].
Defined.
