(* ===== verification/Config.v ===== *)
(** * Configuration: agent_core/config.py, tools/config.py, mcp/config.py

    The parsed JSON of the configuration files, checked field by field; [environ]
    are the environment variables. *)

From stdpp Require Import base list strings sorting.
From Stdlib Require Import ZArith Lia Ascii.
From S2P Require Import Prelude PyData PyStr Json Content Plan Authority Message Session PyText Llm ContextManager.

Definition cdict := list (string * json).

(** ** Names *)

Definition string_le (a b : string) : Prop := string_leb a b = true.
#[export] Instance string_le_dec : RelDecision string_le.
Proof. intros a b. unfold string_le. apply _. Defined.

(** [sorted(names)] *)
Definition sorted (l : list string) : list string := merge_sort string_le l.
Definition comma_list (l : list string) : string := sjoin ", " (sorted l).

Definition config_error {A} (path what : string) : res A := value_error ("config field '" +:+ path +:+ "' must be " +:+ what).

Definition unknown_keys (allowed : list string) (d : cdict) : list string := List.filter (fun k => negb (name_in k allowed)) (dkeys d).

(** [data.get(field, default)] *)
Definition get_or (k : string) (d : cdict) (v : json) : json := default v (dget k d).

Definition string_in (j : json) : option string := match j with JStr s => if nonempty (strip s) then Some (strip s) else None | _ => None end.

(** ** tools/config.py *)

Definition TOOL_NAMES : list string :=
  ["read_file"; "apply_patch"; "edit_file"; "write_file"; "generate_image"; "search_files"; "list_directory"; "shell"; "web_search"; "web_fetch";
   "subagent"; "job_control"; "scheduled_task"; "computer_screenshot"; "computer_action"].
Definition ROLE_TOOL_NAMES : list string :=
  List.filter (fun n => negb (name_in n ["subagent"; "job_control"; "generate_image"; "computer_screenshot"; "computer_action"])) TOOL_NAMES.

(** The names that are enabled, in the order of [allowed]. *)
Fixpoint enabled_tools (allowed : list string) (d : cdict) : res (list string) :=
  match allowed with
  | [] => Ok []
  | name :: rest =>
      match get_or name d (JBool false) with
      | JBool b => l <~ enabled_tools rest d ;; Ok (if b then name :: l else l)
      | _ => config_error ("tools." +:+ name) "a boolean"
      end
  end.

Definition load_tool_config (allowed : list string) (data : json) : res (list string) :=
  match data with
  | JObj d =>
      match unknown_keys allowed d with
      | [] => enabled_tools allowed d
      | names => value_error ("unknown tool config field(s): " +:+ comma_list names)
      end
  | _ => config_error "tools" "an object"
  end.

(** ** mcp/config.py *)

Record McpToolConfig := MkMcpTools { mt_enabled : option (list string); mt_require_approval : option (list string) }.

Inductive McpTransport := Stdio | StreamableHttp.
#[export] Instance McpTransport_eq_dec : EqDecision McpTransport.
Proof. solve_decision. Defined.

Record McpServerConfig := MkMcpServer {
  ms_name : string;
  ms_transport : McpTransport;
  ms_enabled : bool;
  ms_command : option string;
  ms_args : list string;
  ms_cwd : option string;
  ms_env : list (string * string);
  ms_url : option string;
  ms_headers : list (string * string);
  ms_tools : McpToolConfig;
  ms_startup_timeout_seconds : Z;
  ms_call_timeout_seconds : Z;
  ms_namespace : option string;
}.

Definition identifier (s : McpServerConfig) : string :=
  match ms_namespace s with None => ms_name s | Some n => n +:+ ":" +:+ ms_name s end.

Record McpConfig := MkMcp { mcp_enabled : bool; mcp_servers : list McpServerConfig }.

Definition COMMON_FIELDS : list string := ["enabled"; "transport"; "tools"; "startup_timeout_seconds"; "call_timeout_seconds"].
Definition STDIO_FIELDS : list string := COMMON_FIELDS ++ ["command"; "args"; "cwd"; "env"].
Definition HTTP_FIELDS : list string := COMMON_FIELDS ++ ["url"; "headers"].

Definition server_char (c : ascii) : bool :=
  let z := scode c in
  ((65 <=? z) && (z <=? 90)) || ((97 <=? z) && (z <=? 122)) || ((48 <=? z) && (z <=? 57)) || (z =? 95) || (z =? 45).
Fixpoint all_chars (p : ascii -> bool) (s : string) : bool := match s with "" => true | String c s' => p c && all_chars p s' end.
(** [_SERVER_NAME.fullmatch(name)] *)
Definition server_name (s : string) : bool := nonempty s && all_chars server_char s.

Definition reject_unknown (d : cdict) (allowed : list string) (path : string) : res unit :=
  match unknown_keys allowed d with
  | [] => Ok tt
  | names => value_error ("unknown config field(s) in '" +:+ path +:+ "': " +:+ comma_list names)
  end.

Definition boolean (d : cdict) (field path : string) (v : bool) : res bool :=
  match get_or field d (JBool v) with JBool b => Ok b | _ => config_error (path +:+ "." +:+ field) "a boolean" end.

(** [_positive_integer] of mcp/config.py and [_positive_integer_with_default]. *)
Definition positive_integer (d : cdict) (field path : string) (v : Z) : res Z :=
  match get_or field d (JInt v) with
  | JInt z => if z <? 1 then config_error (path +:+ "." +:+ field) "a positive integer" else Ok z
  | _ => config_error (path +:+ "." +:+ field) "a positive integer"
  end.

Definition optional_string (d : cdict) (field path : string) : res (option string) :=
  match jget field d with
  | JNull => Ok None
  | j => match string_in j with Some s => Ok (Some s) | None => config_error (path +:+ "." +:+ field) "a non-empty string" end
  end.
Definition required_string (d : cdict) (field path : string) : res string :=
  o <~ optional_string d field path ;;
  match o with Some s => Ok s | None => config_error (path +:+ "." +:+ field) "a non-empty string" end.

(** A list of strings, or nothing. *)
Fixpoint strings (l : list json) : option (list string) :=
  match l with
  | [] => Some []
  | JStr s :: l' => cons s <$> strings l'
  | _ => None
  end.
Definition string_tuple (d : cdict) (field path : string) : res (list string) :=
  match get_or field d (JArr []) with
  | JArr l => match strings l with Some x => Ok x | None => config_error (path +:+ "." +:+ field) "an array of strings" end
  | _ => config_error (path +:+ "." +:+ field) "an array of strings"
  end.

Definition string_set (value : json) (path : string) : res (list string) :=
  match value with
  | JArr l =>
      match strings l with
      | None => config_error path "an array of strings"
      | Some x =>
          if negb (forallb nonempty x) then value_error ("config field '" +:+ path +:+ "' cannot contain empty strings") else
          if bool_decide (NoDup x) then Ok x else value_error ("config field '" +:+ path +:+ "' cannot contain duplicates")
      end
  | _ => config_error path "an array of strings"
  end.
Definition optional_string_set (d : cdict) (field path : string) : res (option (list string)) :=
  match dget field d with
  | None => Ok None
  | Some j => x <~ string_set j (path +:+ "." +:+ field) ;; Ok (Some x)
  end.

Section environment.
Variable environ : string -> option string.

(** [value.startswith("${") and value.endswith("}")], and the part between. *)
Definition env_reference (value : string) : option string :=
  if startswith "${" value && endswith_char "}" value then Some (stake (String.length value - 3) (sdrop 2 value)) else None.

Definition expand_environment (value path : string) : res string :=
  match env_reference value with
  | None => Ok value
  | Some variable =>
      if negb (nonempty variable) then value_error ("config field '" +:+ path +:+ "' has an empty environment reference") else
      match environ variable with
      | Some x => Ok x
      | None => value_error ("environment variable '" +:+ variable +:+ "' is required by '" +:+ path +:+ "'")
      end
  end.

Definition all_strings (d : cdict) : option (list (string * string)) :=
  (fun l => zip (dkeys d) l) <$> strings (dvalues d).
Definition string_map (d : cdict) (field path : string) : res (list (string * string)) :=
  match get_or field d (JObj []) with
  | JObj m =>
      match all_strings m with
      | None => config_error (path +:+ "." +:+ field) "an object of strings"
      | Some l => res_map (fun kv => x <~ expand_environment (snd kv) (path +:+ "." +:+ field +:+ "." +:+ fst kv) ;; Ok (fst kv, x)) l
      end
  | _ => config_error (path +:+ "." +:+ field) "an object of strings"
  end.

Definition transport_of (d : cdict) (path : string) : res McpTransport :=
  match dget "transport" d with
  | Some j =>
      if bool_decide (j = JStr "stdio") then Ok Stdio else
      if bool_decide (j = JStr "streamable_http") then Ok StreamableHttp else config_error (path +:+ ".transport") "'stdio' or 'streamable_http'"
  | None =>
      if dhas "command" d && dhas "url" d
      then value_error ("config field '" +:+ path +:+ "' cannot infer transport because both 'command' and 'url' are present") else
      if dhas "command" d then Ok Stdio else
      if dhas "url" d then Ok StreamableHttp else
      value_error ("config field '" +:+ path +:+ "' must specify 'transport', 'command', or 'url'")
  end.

(** The tools that need an approval: [None] for all. *)
Definition approval_of (d : cdict) (path : string) : res (option (list string)) :=
  match get_or "approval" d (JStr "always") with
  | JStr s =>
      if String.eqb s "always" then Ok None else
      if String.eqb s "never" then Ok (Some []) else config_error (path +:+ ".approval") "'always', 'never', or an object with an 'always' array"
  | JObj a =>
      _x <~ reject_unknown a ["always"] (path +:+ ".approval") ;;
      match dget "always" a with
      | None => value_error ("config field '" +:+ path +:+ ".approval.always' is required")
      | Some j => l <~ string_set j (path +:+ ".approval.always") ;; Ok (Some l)
      end
  | _ => config_error (path +:+ ".approval") "'always', 'never', or an object with an 'always' array"
  end.

Definition outside (enabled : list string) (l : list string) : list string := List.filter (fun x => negb (name_in x enabled)) l.

Definition tool_config (value : json) (server_path : string) : res McpToolConfig :=
  let path := server_path +:+ ".tools" in
  match value with
  | JNull => Ok (MkMcpTools None None)
  | JObj d =>
      _x <~ reject_unknown d ["enabled"; "approval"] path ;;
      enabled <~ optional_string_set d "enabled" path ;;
      approval <~ approval_of d path ;;
      match enabled, approval with
      | Some e, Some a =>
          match outside e a with
          | [] => Ok (MkMcpTools enabled approval)
          | unknown => value_error ("config field '" +:+ path +:+ ".approval.always' contains tools not listed in '" +:+ path +:+ ".enabled': " +:+ comma_list unknown)
          end
      | _, _ => Ok (MkMcpTools enabled approval)
      end
  | _ => config_error path "an object"
  end.

Definition load_server (name : string) (value : json) : res McpServerConfig :=
  if negb (server_name name) then value_error "MCP server names may contain only letters, numbers, '_' and '-'" else
  let path := "mcp.servers." +:+ name in
  match value with
  | JObj d =>
      transport <~ transport_of d path ;;
      _x <~ reject_unknown d (match transport with Stdio => STDIO_FIELDS | StreamableHttp => HTTP_FIELDS end) path ;;
      enabled <~ boolean d "enabled" path true ;;
      tools <~ tool_config (jget "tools" d) path ;;
      startup <~ positive_integer d "startup_timeout_seconds" path 15 ;;
      call <~ positive_integer d "call_timeout_seconds" path 60 ;;
      match transport with
      | Stdio =>
          command <~ required_string d "command" path ;;
          args <~ string_tuple d "args" path ;;
          cwd <~ optional_string d "cwd" path ;;
          env <~ string_map d "env" path ;;
          Ok (MkMcpServer name transport enabled (Some command) args cwd env None [] tools startup call None)
      | StreamableHttp =>
          url <~ required_string d "url" path ;;
          headers <~ string_map d "headers" path ;;
          Ok (MkMcpServer name transport enabled None [] None [] (Some url) headers tools startup call None)
      end
  | _ => config_error path "an object"
  end.

Definition load_mcp_config (value : json) : res McpConfig :=
  match value with
  | JNull => Ok (MkMcp false [])
  | JObj d =>
      _x <~ reject_unknown d ["enabled"; "servers"] "mcp" ;;
      enabled <~ boolean d "enabled" "mcp" false ;;
      match get_or "servers" d (JObj []) with
      | JObj servers => l <~ res_map (fun kv => load_server (fst kv) (snd kv)) servers ;; Ok (MkMcp enabled l)
      | _ => config_error "mcp.servers" "an object"
      end
  | _ => config_error "mcp" "an object"
  end.

(** One server of [.mcp.json]. *)
Definition adapt_server (name : string) (value : json) : res cdict :=
  match value with
  | JObj settings =>
      let adapted := dpop "type" settings in
      match jget "type" settings with
      | JNull => Ok adapted
      | ty =>
          if dhas "transport" adapted then value_error ("MCP server '" +:+ name +:+ "' cannot specify both 'type' and 'transport'") else
          if bool_decide (ty = JStr "http") then Ok (dset "transport" (JStr "streamable_http") adapted) else
          if bool_decide (ty = JStr "stdio") then Ok (dset "transport" (JStr "stdio") adapted) else
          value_error ("MCP server '" +:+ name +:+ "' type must be 'http' or 'stdio'")
      end
  | _ => value_error ("MCP server '" +:+ name +:+ "' must be an object")
  end.
Definition load_mcp_server_map (value : json) : res (list McpServerConfig) :=
  match value with
  | JObj d =>
      servers <~ res_map (fun kv => s <~ adapt_server (fst kv) (snd kv) ;; Ok (fst kv, JObj s)) d ;;
      c <~ load_mcp_config (JObj [("servers", JObj servers)]) ;; Ok (mcp_servers c)
  | _ => value_error "MCP server map must be an object"
  end.
End environment.

(** [namespace_mcp_servers]; [directory] resolves a path of the package. *)
Definition namespace_server (namespace : string) (directory : option (option string -> option string)) (s : McpServerConfig) : McpServerConfig :=
  let cwd := match directory, ms_transport s with Some f, Stdio => f (ms_cwd s) | _, _ => ms_cwd s end in
  MkMcpServer (ms_name s) (ms_transport s) (ms_enabled s) (ms_command s) (ms_args s) cwd (ms_env s) (ms_url s) (ms_headers s) (ms_tools s)
    (ms_startup_timeout_seconds s) (ms_call_timeout_seconds s) (Some namespace).

Definition add_server (d : list (string * McpServerConfig)) (s : McpServerConfig) : res (list (string * McpServerConfig)) :=
  if dhas (identifier s) d then value_error ("MCP server '" +:+ identifier s +:+ "' is already registered") else Ok (dset (identifier s) s d).
Definition merge_mcp_servers (sources : list (list McpServerConfig)) : res (list McpServerConfig) :=
  d <~ res_fold add_server [] (concat sources) ;; Ok (dvalues d).

(** ** config.py *)

Inductive McpSelection := AllTools (b : bool) | SomeTools (tools : list (string * bool)).

Record SubagentRoleConfig := MkRoleConfig { rc_description : string; rc_tools : list string; rc_enabled : bool; rc_mcp : list (string * McpSelection) }.

Record AgentConfig := MkAgentConfig {
  ac_max_same_tool_calls : Z;
  ac_output_reserve_tokens : Z;
  ac_tools : list string;
  ac_workspace_instruction_files : list string;
  ac_max_generation_tokens : option Z;
  ac_generate_session_title : bool;
  ac_request_timeout_seconds : Z;
  ac_max_retries : Z;
  ac_skill_global_paths : list string;
  ac_skill_workspace_paths : list string;
  ac_compression_enabled : bool;
  ac_trigger_ratio : option Z;
  ac_keep_recent_units : Z;
  ac_user_anchor_token_budget : Z;
  ac_mcp : McpConfig;
  ac_memory_enabled : bool;
  ac_global_max_tokens : Z;
  ac_workspace_max_tokens : Z;
  ac_subagent_roles : list (string * SubagentRoleConfig);
}.

Definition required_positive (d : cdict) (field : string) : res Z :=
  match jget field d with
  | JInt z => if z <? 1 then config_error field "a positive integer" else Ok z
  | _ => config_error field "a positive integer"
  end.
Definition optional_positive (d : cdict) (field : string) : res (option Z) :=
  match jget field d with
  | JNull => Ok None
  | JInt z => if z <? 1 then config_error field "a positive integer or null" else Ok (Some z)
  | _ => config_error field "a positive integer or null"
  end.
Definition non_negative_integer (d : cdict) (field prefix : string) (v : Z) : res Z :=
  match get_or field d (JInt v) with
  | JInt z => if z <? 0 then config_error (prefix +:+ "." +:+ field) "a non-negative integer" else Ok z
  | _ => config_error (prefix +:+ "." +:+ field) "a non-negative integer"
  end.

(** 1.0 *)
Definition ONE_BITS : Z := 4607182418800017408.

(** [0 < value < 1] for a float: the bits of positive numbers are ordered as the
    numbers are.  No integer is in between. *)
Definition optional_ratio (d : cdict) (field : string) : res (option Z) :=
  match jget field d with
  | JNull => Ok None
  | JFloat bits => if (0 <? bits) && (bits <? ONE_BITS) then Ok (Some bits) else config_error ("context.compression." +:+ field) "between 0 and 1"
  | _ => config_error ("context.compression." +:+ field) "between 0 and 1"
  end.

Definition provider_config (value : json) : res (Z * Z) :=
  match value with
  | JNull => Ok (300, 2)
  | JObj d =>
      timeout <~ positive_integer d "request_timeout_seconds" "provider" 300 ;;
      retries <~ non_negative_integer d "max_retries" "provider" 2 ;; Ok (timeout, retries)
  | _ => config_error "provider" "an object"
  end.

(** The loop over an array of stripped strings; [check] refuses some of them. *)
Fixpoint distinct_strings (blank : exn) (duplicate : exn) (check : string -> res unit) (seen : list string) (l : list json) : res (list string) :=
  match l with
  | [] => Ok seen
  | j :: l' =>
      match string_in j with
      | None => Err blank
      | Some s => _x <~ check s ;; if name_in s seen then Err duplicate else distinct_strings blank duplicate check (seen ++ [s]) l'
      end
  end.

Definition field_error (path what : string) : exn := Exn EValueError ("config field '" +:+ path +:+ "' must " +:+ what).

Definition skill_paths (value : json) (field : string) : res (list string) :=
  match value with
  | JArr l => distinct_strings (field_error ("skills." +:+ field) "contain non-empty strings") (field_error ("skills." +:+ field) "not contain duplicate paths")
                (fun _ => Ok tt) [] l
  | _ => config_error ("skills." +:+ field) "an array"
  end.
Definition skill_config (value : json) : res (list string * list string) :=
  match value with
  | JObj d =>
      g <~ skill_paths (jget "global_paths" d) "global_paths" ;;
      w <~ skill_paths (jget "workspace_paths" d) "workspace_paths" ;; Ok (g, w)
  | _ => config_error "skills" "an object"
  end.

(** A file name of the workspace root. *)
Definition root_filename (s : string) : bool := negb (has_char "/" s || has_char "\" s || name_in s ["."; ".."]).
Definition workspace_instruction_files (value : json) : res (list string) :=
  let path := "workspace_instruction_files" in
  match value with
  | JArr l => distinct_strings (field_error path "contain non-empty strings") (field_error path "not contain duplicate filenames")
                (fun s => if root_filename s then Ok tt else Err (field_error path "contain workspace root filenames")) [] l
  | _ => config_error path "an array"
  end.

Definition main_agent_tools (value : json) : res (list string) :=
  match value with
  | JObj d => load_tool_config TOOL_NAMES (jget "tools" d)
  | _ => config_error "main_agent" "an object"
  end.

(** The tools of one server: names and whether they are selected, all alike. *)
Fixpoint tool_switches (path : string) (l : cdict) : res (list (string * bool)) :=
  match l with
  | [] => Ok []
  | (tool, j) :: l' =>
      if negb (nonempty (strip tool)) then value_error ("config field '" +:+ path +:+ "' must use non-empty tool names") else
      match j with
      | JBool b => rest <~ tool_switches path l' ;; Ok ((tool, b) :: rest)
      | _ => config_error (path +:+ "." +:+ tool) "a boolean"
      end
  end.
Definition all_alike (l : list (string * bool)) : bool :=
  match l with [] => false | (_, b) :: l' => forallb (fun kv => Bool.eqb (snd kv) b) l' end.

Definition server_selection (path server : string) (value : json) : res McpSelection :=
  let server_path := path +:+ "." +:+ server in
  if negb (nonempty (strip server)) then value_error ("config field '" +:+ path +:+ "' must use non-empty server names") else
  match value with
  | JBool b => Ok (AllTools b)
  | JObj [] => value_error ("config field '" +:+ server_path +:+ "' must not be an empty tool map")
  | JObj tools =>
      switches <~ tool_switches server_path tools ;;
      if all_alike switches then Ok (SomeTools switches) else value_error ("config field '" +:+ server_path +:+ "' must not mix true and false")
  | _ => config_error server_path "a boolean or an object"
  end.
Definition subagent_mcp (value : json) (path : string) : res (list (string * McpSelection)) :=
  match value with
  | JObj d => res_map (fun kv => s <~ server_selection path (fst kv) (snd kv) ;; Ok (fst kv, s)) d
  | _ => config_error path "an object"
  end.

Definition subagent_role (name : string) (value : json) : res SubagentRoleConfig :=
  let path := "subagent_roles." +:+ name in
  if negb (nonempty (strip name)) then value_error "a subagent role name must not be empty" else
  match value with
  | JObj settings =>
      match string_in (jget "description" settings) with
      | None => config_error (path +:+ ".description") "a non-empty string"
      | Some description =>
          enabled <~ boolean settings "enabled" path true ;;
          tools <~ load_tool_config ROLE_TOOL_NAMES (get_or "tools" settings (JObj [])) ;;
          mcp <~ subagent_mcp (get_or "mcp" settings (JObj [])) (path +:+ ".mcp") ;;
          Ok (MkRoleConfig description tools enabled mcp)
      end
  | _ => config_error path "an object"
  end.
Definition subagent_roles (value : json) : res (list (string * SubagentRoleConfig)) :=
  match value with
  | JNull => Ok []
  | JObj d => res_map (fun kv => r <~ subagent_role (fst kv) (snd kv) ;; Ok (fst kv, r)) d
  | _ => config_error "subagent_roles" "an object"
  end.

(** Enabled, ratio, units to keep and anchor budget. *)
Definition context_config (value : json) : res (bool * option Z * Z * Z) :=
  match value with
  | JNull => Ok (true, None, 6, 2000)
  | JObj d =>
      match jget "compression" d with
      | JNull => Ok (true, None, 6, 2000)
      | JObj compression =>
          enabled <~ boolean compression "enabled" "context.compression" true ;;
          trigger <~ optional_ratio compression "trigger_ratio" ;;
          keep <~ positive_integer compression "keep_recent_units" "context.compression" 6 ;;
          budget <~ positive_integer compression "user_anchor_token_budget" "context.compression" 2000 ;;
          Ok (enabled, trigger, keep, budget)
      | _ => config_error "context.compression" "an object"
      end
  | _ => config_error "context" "an object"
  end.

Definition memory_config (value : json) : res (bool * Z * Z) :=
  match value with
  | JNull => Ok (true, 2000, 3000)
  | JObj d =>
      enabled <~ boolean d "enabled" "memory" true ;;
      g <~ positive_integer d "global_max_tokens" "memory" 2000 ;;
      w <~ positive_integer d "workspace_max_tokens" "memory" 3000 ;; Ok (enabled, g, w)
  | _ => config_error "memory" "an object"
  end.

(** [load_agent_config] on the parsed file. *)
Definition load_agent_config (environ : string -> option string) (value : json) : res AgentConfig :=
  data <~ typed_obj value ;;
  same <~ required_positive data "max_same_tool_calls" ;;
  reserve <~ required_positive data "output_reserve_tokens" ;;
  generation <~ optional_positive data "max_generation_tokens" ;;
  provider <~ provider_config (jget "provider" data) ;;
  skills <~ skill_config (jget "skills" data) ;;
  files <~ workspace_instruction_files (jget "workspace_instruction_files" data) ;;
  tools <~ main_agent_tools (jget "main_agent" data) ;;
  roles <~ subagent_roles (jget "subagent_roles" data) ;;
  context <~ context_config (jget "context" data) ;;
  mcp <~ load_mcp_config environ (jget "mcp" data) ;;
  memory <~ memory_config (jget "memory" data) ;;
  let '(compression, trigger, keep, budget) := context in
  let '(memory_enabled, g, w) := memory in
  match get_or "generate_session_title" data (JBool true) with
  | JBool title =>
      Ok (MkAgentConfig same reserve tools files generation title (fst provider) (snd provider) (fst skills) (snd skills)
            compression trigger keep budget mcp memory_enabled g w roles)
  | _ => config_error "generate_session_title" "a boolean"
  end.

(** What the context manager takes of it. *)
Definition context_of (c : AgentConfig) : ContextConfig :=
  MkContextConfig (ac_output_reserve_tokens c) (ac_max_generation_tokens c) (ac_compression_enabled c) (ac_trigger_ratio c)
    (ac_keep_recent_units c) (ac_user_anchor_token_budget c).
