(* ===== verification/Mcp.v ===== *)
(** * MCP servers and the tools of a role

    agent_core/mcp/manager.py (the servers that are started, the tools they offer,
    approvals, instructions), agent_core/mcp/tool.py (qualified names) and
    agent_runtime/role_tools.py.  How a server is reached is an argument: the pages
    of tools it lists, or why it could not be started. *)

From stdpp Require Import base list strings sorting.
From Stdlib Require Import ZArith Lia Ascii.
From S2P Require Import Prelude PyData PyStr Json Authority Config.

(** ** Tools *)

Record McpTool := MkMcpTool { mtl_server : string; mtl_remote_name : string; mtl_name : string; mtl_description : string; mtl_schema : json }.

(** [_INVALID_TOOL_NAME.sub("_", s)] *)
Fixpoint sanitize (s : string) : string :=
  match s with "" => "" | String c s' => String (if server_char c then c else "_"%char) (sanitize s') end.

Definition qualified_tool_name (server tool : string) : res string :=
  if nonempty (sanitize server) && nonempty (sanitize tool) then Ok ("mcp__" +:+ sanitize server +:+ "__" +:+ sanitize tool)
  else value_error ("MCP server '" +:+ sanitize server +:+ "' returned an empty tool name").

Record RemoteTool := MkRemote { rt_name : string; rt_description : option string; rt_schema : json }.

Definition make_tool (server : string) (r : RemoteTool) : res McpTool :=
  name <~ qualified_tool_name server (rt_name r) ;;
  Ok (MkMcpTool server (rt_name r) name
        (match rt_description r with Some d => if nonempty d then d else "MCP tool " +:+ rt_name r | None => "MCP tool " +:+ rt_name r end) (rt_schema r)).

(** ** Discovery *)

Definition offered (config : McpServerConfig) (r : RemoteTool) : bool :=
  match mt_enabled (ms_tools config) with Some e => name_in (rt_name r) e | None => true end.

Definition remote_le (a b : McpTool) : Prop := string_le (mtl_remote_name a) (mtl_remote_name b).
#[export] Instance remote_le_dec : RelDecision remote_le.
Proof. intros a b. unfold remote_le. apply _. Defined.

(** [_discover_tools]: the pages the server lists, one after the other, and then the
    end or an exception. *)
Definition discover_tools (config : McpServerConfig) (pages : list (list RemoteTool)) (stopped : option exn) : res (list McpTool) :=
  l <~ res_map (make_tool (identifier config)) (List.filter (offered config) (concat pages)) ;;
  match stopped with Some e => Err e | None => Ok (merge_sort remote_le l) end.

(** ** Registration *)

Record McpServerStatus := MkServerStatus { st_server : string; st_state : string; st_tool_count : option Z; st_error : option string }.

Record McpState := MkMcpState {
  mst_tools : list McpTool;
  mst_origins : list (string * (string * string));
  mst_instructions : list (string * string);
  mst_sessions : list string;
  mst_statuses : list McpServerStatus;
}.

(** [self._servers]: the servers that are started, by name. *)
Definition server_map (config : McpConfig) : list (string * McpServerConfig) :=
  fold_left (fun d c => dset (identifier c) c d) (if mcp_enabled config then List.filter ms_enabled (mcp_servers config) else []) [].
Definition active_servers (config : McpConfig) : list McpServerConfig := dvalues (server_map config).

Definition emit_status (x : McpServerStatus) (s : McpState) : McpState :=
  MkMcpState (mst_tools s) (mst_origins s) (mst_instructions s) (mst_sessions s) (mst_statuses s ++ [x]).

(** The origins of the tools of a server, or the name that is taken. *)
Fixpoint collect_origins (taken origins : list (string * (string * string))) (server : string) (l : list McpTool)
    : list (string * (string * string)) + string :=
  match l with
  | [] => inl origins
  | t :: l' =>
      if dhas (mtl_name t) taken || dhas (mtl_name t) origins then inr (mtl_name t)
      else collect_origins taken (dset (mtl_name t) (server, mtl_remote_name t) origins) server l'
  end.

(** What starting a server gave: its tools and its instructions, or the message of
    the exception. *)
Definition Outcome : Type := (list McpTool * option string) + string.

Definition register_server (s : McpState) (x : McpServerConfig * Outcome) : McpState :=
  let id := identifier (fst x) in
  match snd x with
  | inr error => emit_status (MkServerStatus id "unavailable" None (Some error)) s
  | inl (tools, instructions) =>
      match collect_origins (mst_origins s) [] id tools with
      | inr name =>
          emit_status (MkServerStatus id "unavailable" None
            (Some ("MCP server '" +:+ id +:+ "' produced duplicate qualified tool name '" +:+ name +:+ "'"))) s
      | inl origins =>
          let text := match instructions with Some t => strip t | None => "" end in
          emit_status (MkServerStatus id "ready" (Some (Z.of_nat (length tools))) None)
            (MkMcpState (mst_tools s ++ tools) (fold_left (fun d kv => dset (fst kv) (snd kv) d) origins (mst_origins s))
               (if nonempty text then dset id text (mst_instructions s) else mst_instructions s)
               (mst_sessions s ++ [id]) (mst_statuses s))
      end
  end.

(** [_serve] up to the point where requests are taken; [outcomes] has what each of
    the active servers gave. *)
Definition connecting (config : McpConfig) : McpState :=
  MkMcpState [] [] [] [] (map (fun c => MkServerStatus (identifier c) "connecting" None None) (active_servers config)).
Definition start_servers (config : McpConfig) (outcomes : list Outcome) : McpState :=
  fold_left register_server (zip (active_servers config) outcomes) (connecting config).

(** ** What the runtime asks *)

Definition tool_identity (s : McpState) (name : string) : option (string * string) := dget name (mst_origins s).

Definition requires_approval (config : McpConfig) (s : McpState) (name : string) : res bool :=
  match tool_identity s name with
  | None => Ok false
  | Some (server, remote) =>
      match dget server (server_map config) with
      | None => key_error server
      | Some c => Ok (match mt_require_approval (ms_tools c) with None => true | Some required => name_in remote required end)
      end
  end.

Definition instructions_for (s : McpState) (names : list string) : list (string * string) :=
  let selected := map fst (omap (tool_identity s) names) in
  List.filter (fun kv => name_in (fst kv) selected) (mst_instructions s).

(** ** role_tools.py *)

(** The remote names of the tools of the catalog, by server; the name of a server
    that is not configured is a [KeyError]. *)
Fixpoint catalog_servers (s : McpState) (names : list string) (servers : list (string * list (string * string))) : res (list (string * list (string * string))) :=
  match names with
  | [] => Ok servers
  | name :: rest =>
      match tool_identity s name with
      | None => catalog_servers s rest servers
      | Some (server, remote) =>
          match dget server servers with
          | None => key_error server
          | Some tools => catalog_servers s rest (dset server (dset remote name tools) servers)
          end
      end
  end.

(** What a selection adds. *)
Definition select_server (servers : list (string * list (string * string))) (server : string) (selection : McpSelection) : res (list string) :=
  match dget server servers with
  | None => value_error ("unknown MCP server reference '" +:+ server +:+ "' after Tool Catalog assembly")
  | Some tools =>
      match selection with
      | AllTools b => Ok (if b then dvalues tools else [])
      | SomeTools chosen =>
          match List.filter (fun remote => negb (dhas remote tools)) (dkeys chosen) with
          | (_ :: _) as missing =>
              value_error ("MCP tool reference(s) unavailable after Tool Catalog assembly for server '" +:+ server +:+ "': " +:+ comma_list missing)
          | [] =>
              match chosen with
              | [] => raise EStopIteration ""
              | (_, whitelist) :: _ => Ok (map snd (List.filter (fun kv => Bool.eqb (dhas (fst kv) chosen) whitelist) tools))
              end
          end
      end
  end.

Fixpoint select_servers (servers : list (string * list (string * string))) (selection : list (string * McpSelection)) : res (list string) :=
  match selection with
  | [] => Ok []
  | (server, x) :: rest => l <~ select_server servers server x ;; more <~ select_servers servers rest ;; Ok (l ++ more)
  end.

Definition resolve_role_tools (tools : list string) (selection : list (string * McpSelection)) (catalog : list string) (config : McpConfig) (s : McpState) : res (list string) :=
  match List.filter (fun t => negb (name_in t catalog)) (remove_dups tools) with
  | (_ :: _) as missing => value_error ("tool(s) unavailable after Tool Catalog assembly: " +:+ comma_list missing)
  | [] =>
      servers <~ catalog_servers s catalog (fold_left (fun d c => dset (identifier c) [] d) (mcp_servers config) []) ;;
      more <~ select_servers servers selection ;;
      let selected := tools ++ more in
      Ok (List.filter (fun name => name_in name selected) ROLE_TOOL_NAMES ++
          sorted (List.filter (fun name => negb (name_in name ROLE_TOOL_NAMES)) (remove_dups selected)))
  end.
