(* ===== verification/McpThms.v ===== *)
(** * Approvals and selections follow the configuration *)

From stdpp Require Import base list strings sorting sets.
From Stdlib Require Import ZArith Lia Ascii.
From S2P Require Import Prelude PyData PyStr Json Content Plan Authority TurnControl Config Mcp.

(** ** The order of names *)

Lemma scode_inj a b : scode a = scode b -> a = b.
Proof. unfold scode. intros H. rewrite <- (ascii_nat_embedding a), <- (ascii_nat_embedding b). f_equal. lia. Qed.

#[export] Instance string_le_total : Total string_le.
Proof.
  intros a. unfold string_le. induction a as [|x a IH]; intros b; [by left|]. destruct b as [|y b]; [by right|]. cbn [string_leb].
  destruct (Z.ltb_spec (scode x) (scode y)), (Z.ltb_spec (scode y) (scode x)); try lia; auto.
Qed.
#[export] Instance string_le_trans : Transitive string_le.
Proof.
  intros a. unfold string_le. induction a as [|x a IH]; intros b c; [done|]. destruct b as [|y b]; [done|]. destruct c as [|z c]; [done|]. cbn [string_leb].
  destruct (Z.ltb_spec (scode x) (scode y)), (Z.ltb_spec (scode y) (scode x)); try lia; try done;
    destruct (Z.ltb_spec (scode y) (scode z)), (Z.ltb_spec (scode z) (scode y)); try lia; try done;
    destruct (Z.ltb_spec (scode x) (scode z)), (Z.ltb_spec (scode z) (scode x)); try lia; try done. by apply IH.
Qed.
#[export] Instance string_le_antisymm : AntiSymm (=) string_le.
Proof.
  intros a. unfold string_le. induction a as [|x a IH]; intros b; [by destruct b|]. destruct b as [|y b]; [done|]. cbn [string_leb].
  destruct (Z.ltb_spec (scode x) (scode y)), (Z.ltb_spec (scode y) (scode x)); try lia; try done. intros H1 H2.
  f_equal; [apply scode_inj; lia|by apply IH].
Qed.

Lemma sorted_perm l l' : l ≡ₚ l' -> sorted l = sorted l'.
Proof.
  intros Hp. apply (StronglySorted_unique string_le); [by apply StronglySorted_merge_sort; apply _..|].
  unfold sorted. by rewrite !merge_sort_Permutation.
Qed.

(** ** Loading *)

(** The approval a server object asks for: of every tool, of none, or of those it
    lists. *)
Definition approval_rule (tools : json) (remote : string) : bool :=
  match tools with
  | JObj d =>
      match get_or "approval" d (JStr "always") with
      | JStr s => negb (String.eqb s "never")
      | JObj a => match jget "always" a with JArr l => bool_decide (JStr remote ∈ l) | _ => true end
      | _ => true
      end
  | _ => true
  end.

Lemma strings_spec l x : strings l = Some x -> l = map JStr x.
Proof.
  revert x. induction l as [|j l IH]; intros x; [by intros [= <-]|]. destruct j; try done. cbn [strings]. destruct (strings l) as [y|] eqn:E; [|done].
  intros [= <-]. cbn. by rewrite (IH y eq_refl).
Qed.

Lemma string_set_spec j path x : string_set j path = Ok x -> j = JArr (map JStr x) /\ NoDup x.
Proof.
  unfold string_set. destruct j as [| | | | |l|]; try done. destruct (strings l) as [y|] eqn:E; [|done]. destruct (negb _); [done|].
  case_bool_decide as Hn; [|done]. intros [= <-]. by rewrite (strings_spec l y E).
Qed.

Lemma in_strings s x : JStr s ∈ map JStr x <-> s ∈ x.
Proof. rewrite list_elem_of_fmap. split; [by intros (y & [= ->] & Hy)|by exists s]. Qed.

Definition needs (c : McpToolConfig) (remote : string) : bool :=
  match mt_require_approval c with None => true | Some required => name_in remote required end.

Lemma approval_of_rule d path a remote : approval_of d path = Ok a ->
  (match a with None => true | Some required => name_in remote required end) = approval_rule (JObj d) remote.
Proof.
  unfold approval_of, approval_rule. destruct (get_or "approval" d (JStr "always")) as [| | | |s| |o]; try done.
  - destruct (String.eqb_spec s "always") as [->|]; [by intros [= <-]|]. destruct (String.eqb_spec s "never") as [->|]; [by intros [= <-]|done].
  - destruct (reject_unknown o ["always"] _); [|done]. cbn [res_bind]. unfold jget. destruct (dget "always" o) as [j|]; [|done].
    destruct (string_set j _) as [l|] eqn:El; [|done]. apply string_set_spec in El as [-> _]. intros [= <-]. simpl.
    apply eq_true_iff_eq. rewrite name_in_spec, bool_decide_eq_true. by rewrite in_strings.
Qed.

Lemma tool_config_rule v path c remote : tool_config v path = Ok c -> needs c remote = approval_rule v remote.
Proof.
  unfold tool_config, needs. destruct v as [| | | | | |d]; try done; [by intros [= <-]|]. destruct (reject_unknown d _ _); [|done]. cbn [res_bind].
  destruct (optional_string_set d "enabled" _) as [e|]; [|done]. cbn [res_bind]. destruct (approval_of d _) as [ap|] eqn:Ea; [|done]. cbn [res_bind].
  intros Hc. rewrite <- (approval_of_rule d _ ap remote Ea). destruct e as [e|]; [|by injection Hc as <-]. destruct ap as [ap|]; [|by injection Hc as <-].
  destruct (outside e ap); [by injection Hc as <-|done].
Qed.

(** What a server that was loaded keeps of its object. *)
Lemma load_server_spec environ name v c : load_server environ name v = Ok c ->
  identifier c = name /\ exists d, v = JObj d /\ (forall remote, needs (ms_tools c) remote = approval_rule (jget "tools" d) remote) /\
    1 <= ms_startup_timeout_seconds c /\ 1 <= ms_call_timeout_seconds c.
Proof.
  unfold load_server. destruct (negb (server_name name)); [done|]. destruct v as [| | | | | |d]; try done.
  destruct (transport_of d _) as [tr|]; [|done]. cbn [res_bind]. destruct (reject_unknown d _ _); [|done]. cbn [res_bind].
  destruct (boolean d "enabled" _ _) as [en|]; [|done]. cbn [res_bind]. destruct (tool_config (jget "tools" d) _) as [tc|] eqn:Et; [|done]. cbn [res_bind].
  assert (Hpos : forall f p v z, positive_integer d f p v = Ok z -> 1 <= z).
  { intros f p v z. unfold positive_integer. destruct (get_or f d (JInt v)); try done. destruct (Z.ltb_spec z0 1); [done|]. intros [= <-]. lia. }
  destruct (positive_integer d "startup_timeout_seconds" _ _) as [z1|] eqn:E1; [|done]. cbn [res_bind].
  destruct (positive_integer d "call_timeout_seconds" _ _) as [z2|] eqn:E2; [|done]. cbn [res_bind].
  apply Hpos in E1. apply Hpos in E2. intros Hc.
  assert (Hgoal : ms_name c = name /\ ms_namespace c = None /\ ms_tools c = tc /\ ms_startup_timeout_seconds c = z1 /\ ms_call_timeout_seconds c = z2).
  { destruct tr.
    - destruct (required_string d "command" _); [|done]. cbn [res_bind] in Hc. destruct (string_tuple d "args" _); [|done]. cbn [res_bind] in Hc.
      destruct (optional_string d "cwd" _); [|done]. cbn [res_bind] in Hc. destruct (string_map environ d "env" _); [|done]. by injection Hc as <-.
    - destruct (required_string d "url" _); [|done]. cbn [res_bind] in Hc. destruct (string_map environ d "headers" _); [|done]. by injection Hc as <-. }
  destruct Hgoal as (H1 & H2 & -> & -> & ->). split; [unfold identifier; by rewrite H2|]. exists d. split_and!; [done| |done|done].
  intros remote. by apply tool_config_rule with (path := "mcp.servers." +:+ name).
Qed.

(** ** Registration *)

Definition origin_of (t : McpTool) : string * (string * string) := (mtl_name t, (mtl_server t, mtl_remote_name t)).

Lemma keys_origins l : dkeys (map origin_of l) = map mtl_name l.
Proof. unfold dkeys. rewrite map_map. done. Qed.

Lemma collect_origins_spec taken server l : forall acc o, Forall (fun t => mtl_server t = server) l -> NoDup (dkeys acc) ->
  collect_origins taken acc server l = inl o ->
  o = acc ++ map origin_of l /\ NoDup (dkeys o) /\ Forall (fun t => dget (mtl_name t) taken = None) l.
Proof.
  induction l as [|t l IH]; intros acc o Hs Hn; cbn [collect_origins].
  - intros [= <-]. rewrite app_nil_r. by split_and!.
  - inversion Hs as [|? ? Ht Hl]; subst. destruct (dhas (mtl_name t) taken || dhas (mtl_name t) acc) eqn:E; [done|]. apply orb_false_iff in E as [E1 E2].
    assert (F1 : dget (mtl_name t) taken = None) by (unfold dhas in E1; by destruct (dget _ taken)).
    assert (F2 : dget (mtl_name t) acc = None) by (unfold dhas in E2; by destruct (dget _ acc)).
    intros Hc. apply IH in Hc as (-> & H2 & H3); [|done|by apply dset_NoDup]. split_and!; [|done|by constructor].
    rewrite dset_fresh by done. by rewrite <- app_assoc.
Qed.

Lemma add_origins (o : list (string * (string * string))) : forall d, NoDup (dkeys (d ++ o)) -> fold_left (fun d kv => dset (fst kv) (snd kv) d) o d = d ++ o.
Proof.
  induction o as [|[k v] o IH]; intros d Hn; cbn [fold_left]; [by rewrite app_nil_r|]. simpl.
  assert (Hk : dget k d = None). { apply dget_None_not_in. intros Hin. unfold dkeys in *. rewrite map_app in Hn. apply NoDup_app in Hn as (_ & Hn & _). apply (Hn k Hin). by left. }
  rewrite dset_fresh by done. rewrite IH; rewrite <- app_assoc; done.
Qed.

(** The tools a server was found to have. *)
Definition discovered (c : McpServerConfig) (tools : list McpTool) : Prop := exists pages, discover_tools c pages None = Ok tools.

(** A tool of a server: its name is made of both names, and the filter lets it
    through. *)
Definition tool_of (c : McpServerConfig) (t : McpTool) : Prop :=
  mtl_server t = identifier c /\ qualified_tool_name (identifier c) (mtl_remote_name t) = Ok (mtl_name t) /\
  match mt_enabled (ms_tools c) with Some e => mtl_remote_name t ∈ e | None => True end.

Lemma discovered_tools c tools : discovered c tools -> Forall (tool_of c) tools.
Proof.
  intros [pages H]. unfold discover_tools in H. destruct (res_map _ _) as [l|] eqn:E; [|done]. cbn [res_bind] in H. injection H as <-.
  apply Forall_forall. intros t Ht. rewrite merge_sort_Permutation in Ht. apply res_map_Forall2 in E.
  apply list_elem_of_lookup in Ht as [i Hi]. destruct (Forall2_lookup_r _ _ _ _ _ E Hi) as (r & Hr & Hm).
  apply list_elem_of_lookup_2, list_elem_of_In, filter_In in Hr as [_ Ho]. unfold make_tool in Hm. destruct (qualified_tool_name _ _) as [n|] eqn:En; [|done].
  injection Hm as <-. split_and!; [done|done|]. unfold offered in Ho. simpl. destruct (mt_enabled (ms_tools c)); [|done]. by apply name_in_spec.
Qed.

Definition started_ok (x : McpServerConfig * Outcome) : Prop :=
  match snd x with inl (tools, _) => discovered (fst x) tools | inr _ => True end.

Record registered (l : list McpServerConfig) (s : McpState) : Prop := {
  rg_origins : mst_origins s = map origin_of (mst_tools s);
  rg_names : NoDup (map mtl_name (mst_tools s));
  rg_servers : Forall (fun t => exists c, c ∈ l /\ tool_of c t) (mst_tools s);
}.

Lemma registered_server l s x : started_ok x -> registered l s -> registered (l ++ [fst x]) (register_server s x).
Proof.
  intros Hx [O N S]. assert (Hw : Forall (fun t => exists c, c ∈ l ++ [fst x] /\ tool_of c t) (mst_tools s)).
  { eapply Forall_impl; [exact S|]. intros t (c & Hc & Ht). exists c. split; [|done]. apply elem_of_app. by left. }
  unfold register_server. destruct x as [c [[tools instructions]|error]]; simpl in *; [|by split].
  apply discovered_tools in Hx. assert (Hserver : Forall (fun t => mtl_server t = identifier c) tools) by (eapply Forall_impl; [exact Hx|]; by intros t (Ht & _)).
  destruct (collect_origins (mst_origins s) [] (identifier c) tools) as [o|name] eqn:E; [|by split].
  apply collect_origins_spec in E as (-> & Hn & Hfree); [|done|constructor]. simpl in *. rewrite keys_origins in Hn.
  assert (Hall : NoDup (map mtl_name (mst_tools s ++ tools))).
  { rewrite map_app. apply NoDup_app. split_and!; [done| |done]. intros n Hn1 Hn2. apply list_elem_of_fmap in Hn2 as (t & -> & Ht).
    rewrite Forall_forall in Hfree. specialize (Hfree t Ht). rewrite O in Hfree. apply dget_None_not_in in Hfree. rewrite keys_origins in Hfree. done. }
  split; simpl; [|done|].
  - rewrite O, add_origins, map_app; [done|]. rewrite <- map_app, keys_origins. done.
  - apply Forall_app. split; [done|]. eapply Forall_impl; [exact Hx|]. intros t Ht. exists c. split; [|done]. apply elem_of_app. right. by left.
Qed.

Lemma registered_start config outcomes : Forall started_ok (zip (active_servers config) outcomes) ->
  registered (active_servers config) (start_servers config outcomes).
Proof.
  intros Ho. unfold start_servers. assert (H0 : registered [] (connecting config)) by (split; [done|constructor|constructor]).
  assert (Hgo : forall l0 s xs, Forall started_ok xs -> registered l0 s -> registered (l0 ++ map fst xs) (fold_left register_server xs s)).
  { intros l0 s xs Hxs. revert l0 s. induction Hxs as [|x xs Hx _ IH]; intros l0 s Hs; cbn [fold_left map]; [by rewrite app_nil_r|].
    change (fst x :: map fst xs) with ([fst x] ++ map fst xs). rewrite app_assoc. by apply IH, registered_server. }
  specialize (Hgo [] _ _ Ho H0). destruct Hgo as [O N S]. split; [done|done|]. eapply Forall_impl; [exact S|]. intros t (c & Hc & Ht). exists c. split; [|done].
  simpl in Hc. apply list_elem_of_fmap in Hc as ([c' o] & -> & Hz). by apply elem_of_zip_l in Hz.
Qed.

Lemma identity_tool l s n server remote : registered l s ->
  tool_identity s n = Some (server, remote) <-> exists t, t ∈ mst_tools s /\ mtl_name t = n /\ mtl_server t = server /\ mtl_remote_name t = remote.
Proof.
  intros [O N S]. unfold tool_identity. split.
  - intros Hd. apply dget_Some_in in Hd. rewrite O in Hd. apply list_elem_of_fmap in Hd as (t & [= -> -> ->] & Ht). by exists t.
  - intros (t & Ht & <- & <- & <-). apply dget_in_NoDup; rewrite O; [by rewrite keys_origins|]. apply (list_elem_of_fmap_2 origin_of _ t Ht).
Qed.

(** ** The configuration a tool falls under *)

Lemma servers_fold (l : list McpServerConfig) : forall d, NoDup (dkeys d) -> Forall (fun kv => identifier (snd kv) = fst kv) d ->
  let d' := fold_left (fun d c => dset (identifier c) c d) l d in
  NoDup (dkeys d') /\ Forall (fun kv => identifier (snd kv) = fst kv) d' /\ forall kv, kv ∈ d' -> kv ∈ d \/ snd kv ∈ l.
Proof.
  induction l as [|c l IH]; intros d Hn Hd; cbn [fold_left]; [by split_and!; auto|].
  destruct (IH (dset (identifier c) c d)) as (H1 & H2 & H3); [by apply dset_NoDup|by apply Forall_dset|]. split_and!; [done|done|].
  intros kv Hk. destruct (H3 kv Hk) as [Hin|Hin]; [|right; by right]. apply dset_in in Hin as [->|Hin]; [right; by left|by left].
Qed.

Lemma active_server config c : c ∈ active_servers config ->
  dget (identifier c) (server_map config) = Some c /\ c ∈ mcp_servers config /\ ms_enabled c = true /\ mcp_enabled config = true.
Proof.
  unfold active_servers, server_map. set (l := if mcp_enabled config then _ else _).
  destruct (servers_fold l [] (NoDup_nil_2) (Forall_nil_2 _)) as (H1 & H2 & H3). set (d := fold_left _ l []) in *. intros Hc.
  apply list_elem_of_fmap in Hc as ([k c'] & -> & Hk). simpl. rewrite Forall_forall in H2. pose proof (H2 _ Hk) as Hid. simpl in Hid. rewrite Hid.
  split; [by apply dget_in_NoDup|]. destruct (H3 _ Hk) as [Hin|Hin]; [by apply elem_of_nil in Hin|]. simpl in Hin. unfold l in Hin.
  destruct (mcp_enabled config); [|by apply elem_of_nil in Hin]. apply list_elem_of_In, filter_In in Hin as [Hin He]. split_and!; [by apply list_elem_of_In|done|done].
Qed.

Lemma enabled_filter v path c l : tool_config v path = Ok c -> (forall d, v = JObj d -> dget "enabled" d = Some (JArr l) -> mt_enabled c = Some (omap jstr l) /\ l = map JStr (omap jstr l)).
Proof.
  unfold tool_config. intros Hc d -> Hl. destruct (reject_unknown d _ _); [|done]. cbn [res_bind] in Hc. unfold optional_string_set in Hc. rewrite Hl in Hc.
  destruct (string_set (JArr l) _) as [x|] eqn:Ex; [|done]. apply string_set_spec in Ex as [[= ->] _]. cbn [res_bind] in Hc.
  assert (Hx : omap jstr (map JStr x) = x) by (clear; induction x as [|y x IH]; [done|]; simpl; by f_equal). rewrite Hx. split; [|done].
  destruct (approval_of d _) as [ap|]; [|done]. cbn [res_bind] in Hc. destruct ap as [ap|]; [|by injection Hc as <-]. destruct (outside x ap); [by injection Hc as <-|done].
Qed.

Lemma loaded_server environ d servers config c : load_mcp_config environ (JObj d) = Ok config -> get_or "servers" d (JObj []) = JObj servers -> NoDup (dkeys servers) ->
  c ∈ mcp_servers config -> exists v, dget (identifier c) servers = Some v /\ load_server environ (identifier c) v = Ok c.
Proof.
  intros Hl Hs Hn Hc. unfold load_mcp_config in Hl. destruct (reject_unknown d _ _); [|done]. cbn [res_bind] in Hl. destruct (boolean d "enabled" _ _); [|done].
  cbn [res_bind] in Hl. rewrite Hs in Hl. destruct (res_map _ servers) as [l|] eqn:El; [|done]. injection Hl as <-. simpl in Hc.
  apply res_map_Forall2 in El. apply list_elem_of_lookup in Hc as [i Hi]. destruct (Forall2_lookup_r _ _ _ _ _ El Hi) as ([name v] & Hk & Hld). simpl in Hld.
  destruct (load_server_spec _ _ _ _ Hld) as [-> _]. exists v. split; [|done]. apply dget_in_NoDup; [done|]. by eapply list_elem_of_lookup_2.
Qed.

(** What the configuration object of a server says about one of its tools. *)
Definition tool_allowed (object : cdict) (remote : string) : Prop :=
  get_or "enabled" object (JBool true) = JBool true /\
  forall tools l, jget "tools" object = JObj tools -> dget "enabled" tools = Some (JArr l) -> JStr remote ∈ l.

Lemma server_object environ name v c : load_server environ name v = Ok c -> ms_enabled c = true ->
  exists d, v = JObj d /\ (forall remote, needs (ms_tools c) remote = approval_rule (jget "tools" d) remote) /\
    forall remote, match mt_enabled (ms_tools c) with Some e => remote ∈ e | None => True end -> tool_allowed d remote.
Proof.
  intros Hl He. destruct (load_server_spec _ _ _ _ Hl) as (_ & d & -> & Hneeds & _). exists d. split_and!; [done|done|]. intros remote Hr.
  unfold load_server in Hl. destruct (negb (server_name name)); [done|]. destruct (transport_of d _) as [tr|]; [|done]. cbn [res_bind] in Hl.
  destruct (reject_unknown d _ _); [|done]. cbn [res_bind] in Hl. destruct (boolean d "enabled" _ _) as [en|] eqn:Een; [|done]. cbn [res_bind] in Hl.
  destruct (tool_config (jget "tools" d) _) as [tc|] eqn:Et; [|done]. cbn [res_bind] in Hl.
  destruct (positive_integer d "startup_timeout_seconds" _ _) as [z1|]; [|done]. cbn [res_bind] in Hl. destruct (positive_integer d "call_timeout_seconds" _ _) as [z2|]; [|done]. cbn [res_bind] in Hl.
  assert (Hgoal : ms_enabled c = en /\ ms_tools c = tc).
  { destruct tr.
    - destruct (required_string d "command" _); [|done]. cbn [res_bind] in Hl. destruct (string_tuple d "args" _); [|done]. cbn [res_bind] in Hl.
      destruct (optional_string d "cwd" _); [|done]. cbn [res_bind] in Hl. destruct (string_map environ d "env" _); [|done]. by injection Hl as <-.
    - destruct (required_string d "url" _); [|done]. cbn [res_bind] in Hl. destruct (string_map environ d "headers" _); [|done]. by injection Hl as <-. }
  destruct Hgoal as [<- <-]. rewrite He in Een. split.
  - unfold boolean in Een. destruct (get_or "enabled" d (JBool true)); try done. by injection Een as ->.
  - intros tools l Ht Hd. destruct (enabled_filter _ _ _ l Et tools Ht Hd) as [Hm ->]. rewrite Hm in Hr. by apply in_strings.
Qed.

(** C20: the tools of MCP servers under the configuration file: a tool is offered only
    when MCP, its server and the server's filter enable it, under a name of its own
    that begins with mcp__; and it can be called without an approval exactly when
    the object of its server says so (approval never, or a list that leaves it out);
    whatever the servers answer. *)
Theorem approvals_follow_config environ d servers config outcomes :
  load_mcp_config environ (JObj d) = Ok config -> get_or "servers" d (JObj []) = JObj servers -> NoDup (dkeys servers) ->
  Forall started_ok (zip (active_servers config) outcomes) ->
  let s := start_servers config outcomes in
  NoDup (map mtl_name (mst_tools s)) /\
  (forall t, t ∈ mst_tools s -> get_or "enabled" d (JBool false) = JBool true /\ startswith "mcp__" (mtl_name t) = true /\
     tool_identity s (mtl_name t) = Some (mtl_server t, mtl_remote_name t) /\
     exists object, dget (mtl_server t) servers = Some (JObj object) /\ tool_allowed object (mtl_remote_name t) /\
       requires_approval config s (mtl_name t) = Ok (approval_rule (jget "tools" object) (mtl_remote_name t))) /\
  (forall n, n ∉ map mtl_name (mst_tools s) -> tool_identity s n = None /\ requires_approval config s n = Ok false).
Proof.
  intros Hl Hs Hn Ho s. pose proof (registered_start config outcomes Ho) as Hr. fold s in Hr. split_and!; [apply Hr| |].
  - intros t Ht. pose proof (rg_servers _ _ Hr) as Hserver. rewrite Forall_forall in Hserver. destruct (Hserver t Ht) as (c & Hc & Hid & Hq & Hf).
    destruct (active_server config c Hc) as (Hget & Hin & He & Hon).
    assert (Hident : tool_identity s (mtl_name t) = Some (mtl_server t, mtl_remote_name t)) by (apply (identity_tool _ _ _ _ _ Hr); by exists t).
    destruct (loaded_server _ _ _ _ _ Hl Hs Hn Hin) as (v & Hv & Hld). destruct (server_object _ _ _ _ Hld He) as (object & -> & Hneeds & Hallow). split_and!.
    + unfold load_mcp_config in Hl. destruct (reject_unknown d _ _); [|done]. cbn [res_bind] in Hl. unfold boolean in Hl.
      destruct (get_or "enabled" d (JBool false)) as [|b| | | | |]; try done. cbn [res_bind] in Hl. rewrite Hs in Hl. destruct (res_map _ servers); [|done].
      injection Hl as <-. simpl in Hon. by subst b.
    + unfold qualified_tool_name in Hq. destruct (_ && _); [|done]. injection Hq as <-. exact (startswith_app "mcp__" _).
    + done.
    + exists object. rewrite Hid. split_and!; [done|by apply Hallow|]. unfold requires_approval. rewrite Hident, Hid, Hget. f_equal. apply Hneeds.
  - intros n Hnot. assert (Hnone : tool_identity s n = None).
    { unfold tool_identity. apply dget_None_not_in. rewrite (rg_origins _ _ Hr), keys_origins. done. }
    split; [done|]. unfold requires_approval. by rewrite Hnone.
Qed.

(** A file with two servers, one of them off, and what the other lists. *)
Definition demo_mcp : cdict :=
  [("enabled", JBool true);
   ("servers", JObj [("files", JObj [("transport", JStr "stdio"); ("command", JStr "serve");
       ("tools", JObj [("enabled", JArr [JStr "read"; JStr "write"]); ("approval", JObj [("always", JArr [JStr "write"])])])]);
     ("web", JObj [("transport", JStr "streamable_http"); ("url", JStr "http://host"); ("enabled", JBool false)])])].
Definition demo_servers : list (string * json) := match get_or "servers" demo_mcp (JObj []) with JObj l => l | _ => [] end.
Definition demo_config : McpConfig := match load_mcp_config (fun _ => None) (JObj demo_mcp) with Ok c => c | Err _ => MkMcp false [] end.
Definition demo_pages : list (list RemoteTool) := [[MkRemote "write" None JNull; MkRemote "drop" None JNull]; [MkRemote "read" (Some "Read.") JNull]].
Definition demo_outcomes : list Outcome :=
  map (fun c => match discover_tools c demo_pages None with Ok l => inl (l, None) | Err _ => inr "" end) (active_servers demo_config).

Lemma demo_started : Forall started_ok (zip (active_servers demo_config) demo_outcomes).
Proof. constructor; [exists demo_pages; vm_compute; reflexivity|constructor]. Qed.

Lemma approvals_follow_config_witness :
  map (fun t => (mtl_name t, requires_approval demo_config (start_servers demo_config demo_outcomes) (mtl_name t)))
    (mst_tools (start_servers demo_config demo_outcomes)) = [("mcp__files__read", Ok false); ("mcp__files__write", Ok true)] /\
  NoDup (map mtl_name (mst_tools (start_servers demo_config demo_outcomes))).
Proof.
  split; [vm_compute; reflexivity|].
  apply (approvals_follow_config (fun _ => None) demo_mcp demo_servers demo_config demo_outcomes);
    [vm_compute; reflexivity|reflexivity|apply (bool_decide_unpack (NoDup (dkeys demo_servers))); vm_compute; exact I|apply demo_started].
Defined.

(** ** The tools of a role *)

Definition ServerTools : Type := list (string * list (string * string)).

(** The table of a catalog: the servers of the configuration, and of each the tools
    of the catalog, by remote name. *)
Record table_of (s : McpState) (names : list string) (servers : ServerTools) : Prop := {
  tb_keys : forall server tools, dget server servers = Some tools -> NoDup (dkeys tools);
  tb_tools : forall server tools remote name, dget server servers = Some tools ->
    (dget remote tools = Some name <-> name ∈ names /\ tool_identity s name = Some (server, remote));
}.

Definition identity_inj (s : McpState) : Prop :=
  forall n1 n2 x, tool_identity s n1 = Some x -> tool_identity s n2 = Some x -> n1 = n2.

Lemma identities_inj l s : registered l s -> identity_inj s.
Proof.
  intros Hr n1 n2 [server remote] H1 H2. apply (identity_tool _ _ _ _ _ Hr) in H1 as (t1 & I1 & <- & S1 & R1).
  apply (identity_tool _ _ _ _ _ Hr) in H2 as (t2 & I2 & <- & S2 & R2). destruct Hr as [_ _ S]. rewrite Forall_forall in S.
  destruct (S _ I1) as (c1 & _ & E1 & Q1 & _). destruct (S _ I2) as (c2 & _ & E2 & Q2 & _). congruence.
Qed.

Lemma catalog_step s names servers server remote name tools : identity_inj s -> table_of s names servers ->
  tool_identity s name = Some (server, remote) -> dget server servers = Some tools ->
  table_of s (names ++ [name]) (dset server (dset remote name tools) servers).
Proof.
  intros Hinj [Hk Ht] Hi Hs. split.
  - intros server' tools' Hd. destruct (decide (server' = server)) as [->|Hne]; [|rewrite dget_dset_ne in Hd by congruence; by eapply Hk].
    rewrite dget_dset_eq in Hd. injection Hd as <-. apply dset_NoDup. by eapply Hk.
  - intros server' tools' r n Hd. rewrite elem_of_app, list_elem_of_singleton. destruct (decide (server' = server)) as [->|Hne].
    + rewrite dget_dset_eq in Hd. injection Hd as <-. destruct (decide (r = remote)) as [->|Hr].
      * rewrite dget_dset_eq. split; [intros [= <-]; auto|]. intros [_ Hn]. f_equal. by eapply Hinj.
      * rewrite dget_dset_ne by congruence. rewrite (Ht _ _ r n Hs). split; [intros [? ?]; auto|]. intros [[?| ->] ?]; [done|congruence].
    + rewrite dget_dset_ne in Hd by congruence. rewrite (Ht _ _ r n Hd). split; [intros [? ?]; auto|]. intros [[?| ->] ?]; [done|congruence].
Qed.

Lemma catalog_table s names : forall done_ servers, identity_inj s -> table_of s done_ servers ->
  (forall n server remote, tool_identity s n = Some (server, remote) -> dhas server servers = true) ->
  exists servers', catalog_servers s names servers = Ok servers' /\ table_of s (done_ ++ names) servers' /\
    forall server, dhas server servers' = dhas server servers.
Proof.
  induction names as [|name names IH]; intros done_ servers Hinj Ht Hd; cbn [catalog_servers].
  - exists servers. rewrite app_nil_r. by split_and!.
  - change (name :: names) with ([name] ++ names). rewrite app_assoc. destruct (tool_identity s name) as [[server remote]|] eqn:Hi.
    + pose proof (Hd _ _ _ Hi) as Hh. unfold dhas in Hh. destruct (dget server servers) as [tools|] eqn:Es; [|done].
      assert (Hdom : forall x, dhas x (dset server (dset remote name tools) servers) = dhas x servers).
      { intros x. unfold dhas. destruct (decide (x = server)) as [->|]; [by rewrite dget_dset_eq, Es|rewrite dget_dset_ne; congruence]. }
      destruct (IH (done_ ++ [name]) (dset server (dset remote name tools) servers)) as (s' & H1 & H2 & H3); [done|by eapply catalog_step| |].
      { intros n server' remote' Hn. rewrite Hdom. by eapply Hd. }
      exists s'. split_and!; [done|done|]. intros x. by rewrite H3.
    + apply IH; [done| |done]. destruct Ht as [Hk Ht]. split; [done|]. intros server tools remote n Hs. rewrite (Ht _ _ remote n Hs), elem_of_app, list_elem_of_singleton.
      split; [intros [? ?]; auto|]. intros [[?| ->] ?]; [done|congruence].
Qed.

(** The tools of a server that a selection asks for: all or none; those it lists; or
    all but those it lists. *)
Definition wanted (x : McpSelection) (remote : string) : bool :=
  match x with
  | AllTools b => b
  | SomeTools [] => false
  | SomeTools (((_, whitelist) :: _) as listed) => if whitelist then dhas remote listed else negb (dhas remote listed)
  end.

Definition selected_by (s : McpState) (selection : list (string * McpSelection)) (names : list string) (n : string) : Prop :=
  exists server x remote, (server, x) ∈ selection /\ n ∈ names /\ tool_identity s n = Some (server, remote) /\ wanted x remote = true.

Lemma select_server_members s names servers server x l n : table_of s names servers -> select_server servers server x = Ok l ->
  n ∈ l <-> exists remote, n ∈ names /\ tool_identity s n = Some (server, remote) /\ wanted x remote = true.
Proof.
  intros [Hk Ht] Hs. unfold select_server in Hs. destruct (dget server servers) as [tools|] eqn:E; [|done].
  assert (Hin : forall remote, (remote, n) ∈ tools <-> n ∈ names /\ tool_identity s n = Some (server, remote)).
  { intros remote. rewrite <- (Ht _ _ _ _ E). split; [apply dget_in_NoDup; by eapply Hk|apply dget_Some_in]. }
  assert (Hfil : forall f : string * string -> bool, n ∈ map snd (List.filter f tools) <-> exists remote, (remote, n) ∈ tools /\ f (remote, n) = true).
  { intros f. rewrite list_elem_of_fmap. split.
    - intros ([r n'] & -> & Hr). apply list_elem_of_In, filter_In in Hr as [Hr Hf]. exists r. split; [by apply list_elem_of_In|done].
    - intros (r & Hr & Hf). exists (r, n). split; [done|]. apply list_elem_of_In, filter_In. split; [by apply list_elem_of_In|done]. }
  destruct x as [b|chosen].
  - injection Hs as <-. destruct b; simpl.
    + unfold dvalues. rewrite list_elem_of_fmap. split; [intros ([r n'] & -> & Hr); apply Hin in Hr as [? ?]; by exists r|].
      intros (r & ? & ? & _). exists (r, n). split; [done|]. by apply Hin.
    + split; [by intros ?%elem_of_nil|]. by intros (? & ? & ? & ?).
  - destruct (List.filter _ (dkeys chosen)); [|done]. destruct chosen as [|[k w] rest]; [done|]. injection Hs as <-. rewrite Hfil. simpl wanted.
    assert (Hw : forall r, Bool.eqb (dhas r ((k, w) :: rest)) w = true <-> (if w then dhas r ((k, w) :: rest) else negb (dhas r ((k, w) :: rest))) = true)
      by (intros r; by destruct w, (dhas r _)).
    apply exist_proper. intros r. cbn [fst]. rewrite Hin, Hw. tauto.
Qed.

Lemma select_servers_members s names servers sel : forall l, table_of s names servers -> select_servers servers sel = Ok l ->
  forall n, n ∈ l <-> selected_by s sel names n.
Proof.
  unfold selected_by. induction sel as [|[server x] sel IH]; intros l Ht Hs n; cbn [select_servers] in Hs.
  - injection Hs as <-. split; [by intros ?%elem_of_nil|]. by intros (? & ? & ? & ?%elem_of_nil & _).
  - destruct (select_server servers server x) as [l1|] eqn:E1; [|done]. cbn [res_bind] in Hs. destruct (select_servers servers sel) as [l2|] eqn:E2; [|done].
    injection Hs as <-. rewrite elem_of_app, (select_server_members _ _ _ _ _ _ n Ht E1), (IH l2 Ht eq_refl n). split.
    + intros [(r & ? & ? & ?)|(sv & x' & r & ? & ?)]; [exists server, x, r|exists sv, x', r]; rewrite elem_of_cons; auto.
    + intros (sv & x' & r & Hin & Hrest). apply elem_of_cons in Hin as [[= -> ->]|Hin]; [left; by exists r|right; by exists sv, x', r].
Qed.

(** Two tables of the same tools answer alike. *)
Lemma same_selection s names names' servers servers' sel : table_of s names servers -> table_of s names' servers' ->
  (forall n, n ∈ names <-> n ∈ names') -> (forall server, dhas server servers = dhas server servers') ->
  match select_servers servers sel, select_servers servers' sel with Ok _, Ok _ => True | Err e, Err e' => e = e' | _, _ => False end.
Proof.
  intros T T' Hn Hd.
  assert (Hone : forall server x, match select_server servers server x, select_server servers' server x with Ok _, Ok _ => True | Err e, Err e' => e = e' | _, _ => False end).
  { intros server x. specialize (Hd server). unfold dhas in Hd. unfold select_server.
    destruct (dget server servers) as [tools|] eqn:E, (dget server servers') as [tools'|] eqn:E'; try done. destruct x as [b|chosen]; [done|].
    assert (Hsame : forall r, dhas r tools = dhas r tools').
    { intros r. unfold dhas. destruct (dget r tools) as [n|] eqn:F, (dget r tools') as [n'|] eqn:F'; try done.
      - apply (tb_tools _ _ _ T _ _ _ _ E) in F as [F1 F2]. rewrite Hn in F1. pose proof (proj2 (tb_tools _ _ _ T' _ _ _ _ E') (conj F1 F2)). congruence.
      - apply (tb_tools _ _ _ T' _ _ _ _ E') in F' as [F1 F2]. rewrite <- Hn in F1. pose proof (proj2 (tb_tools _ _ _ T _ _ _ _ E) (conj F1 F2)). congruence. }
    rewrite (filter_ext (fun r => negb (dhas r tools')) (fun r => negb (dhas r tools))) by (intros r; by rewrite Hsame).
    destruct (List.filter _ _); [|done]. by destruct chosen as [|[k w] ?]. }
  induction sel as [|[server x] sel IH]; cbn [select_servers]; [done|]. specialize (Hone server x).
  destruct (select_server servers server x), (select_server servers' server x); try done. cbn [res_bind].
  destruct (select_servers servers sel), (select_servers servers' sel); done.
Qed.

Lemma config_servers config outcomes n server remote : Forall started_ok (zip (active_servers config) outcomes) ->
  tool_identity (start_servers config outcomes) n = Some (server, remote) ->
  dhas server (fold_left (fun d c => dset (identifier c) ([] : list (string * string)) d) (mcp_servers config) []) = true.
Proof.
  intros Ho Hi. pose proof (registered_start config outcomes Ho) as Hr. apply (identity_tool _ _ _ _ _ Hr) in Hi as (t & Ht & _ & <- & _).
  destruct Hr as [_ _ S]. rewrite Forall_forall in S. destruct (S t Ht) as (c & Hc & -> & _). apply active_server in Hc as (_ & Hc & _).
  revert Hc. generalize (mcp_servers config). clear. intros l.
  assert (Hkeep : forall k l d, dhas k d = true -> dhas k (fold_left (fun d c => dset (identifier c) ([] : list (string * string)) d) l d) = true).
  { clear. intros k l. induction l as [|x l IH]; intros d Hd; cbn [fold_left]; [done|]. apply IH. unfold dhas in *.
    destruct (decide (k = identifier x)) as [->|]; [by rewrite dget_dset_eq|rewrite dget_dset_ne; [done|congruence]]. }
  generalize (@nil (string * list (string * string))). induction l as [|x l IH]; intros d Hc; [by apply elem_of_nil in Hc|]. cbn [fold_left].
  apply elem_of_cons in Hc as [->|Hc]; [|by apply IH]. apply Hkeep. unfold dhas. by rewrite dget_dset_eq.
Qed.

Lemma empty_table s config : table_of s [] (fold_left (fun d c => dset (identifier c) ([] : list (string * string)) d) (mcp_servers config) []).
Proof.
  set (d := fold_left _ _ _). assert (Hd : forall server tools, dget server d = Some tools -> tools = []).
  { subst d. assert (Hgo : forall l d, (forall k (v : list (string * string)), dget k d = Some v -> v = []) ->
      forall k v, dget k (fold_left (fun d c => dset (identifier c) [] d) l d) = Some v -> v = []).
    { clear. intros l. induction l as [|x l IH]; intros d Hd; cbn [fold_left]; [done|]. apply IH. intros k v.
      destruct (decide (k = identifier x)) as [->|]; [rewrite dget_dset_eq; congruence|rewrite dget_dset_ne by congruence; apply Hd]. }
    apply Hgo. done. }
  split; [intros ? ? ->%Hd; constructor|]. intros server tools remote name ->%Hd. split; [done|]. by intros [?%elem_of_nil _].
Qed.

(** The order the names are given in. *)
Definition role_order (selected : list string) : list string :=
  List.filter (fun name => name_in name selected) ROLE_TOOL_NAMES ++
  sorted (List.filter (fun name => negb (name_in name ROLE_TOOL_NAMES)) (remove_dups selected)).

Lemma in_role_order l n : n ∈ role_order l <-> n ∈ l.
Proof.
  unfold role_order, sorted. rewrite elem_of_app, merge_sort_Permutation, !elem_of_filter_bool, elem_of_remove_dups, negb_true_iff, name_in_spec.
  split; [tauto|]. intros Hn. destruct (name_in n ROLE_TOOL_NAMES) eqn:E; [left|by right]. split; [by apply name_in_spec|done].
Qed.

Lemma role_order_NoDup l : NoDup (role_order l).
Proof.
  unfold role_order, sorted. rewrite merge_sort_Permutation. apply NoDup_app. split_and!.
  - apply NoDup_ListNoDup, List.NoDup_filter, NoDup_ListNoDup. apply (bool_decide_unpack (NoDup ROLE_TOOL_NAMES)). vm_compute. exact I.
  - intros n H1 H2. apply elem_of_filter_bool in H1 as [H1 _]. apply elem_of_filter_bool in H2 as [_ H2]. apply name_in_spec in H1. by rewrite H1 in H2.
  - apply NoDup_ListNoDup, List.NoDup_filter, NoDup_ListNoDup, NoDup_remove_dups.
Qed.

Lemma role_order_same l l' : (forall n, n ∈ l <-> n ∈ l') -> role_order l = role_order l'.
Proof.
  intros H. unfold role_order. f_equal.
  - apply filter_ext. intros n. apply eq_true_iff_eq. by rewrite !name_in_spec.
  - apply sorted_perm, NoDup_Permutation; [apply NoDup_ListNoDup, List.NoDup_filter, NoDup_ListNoDup, NoDup_remove_dups..|].
    intros n. rewrite !elem_of_filter_bool, !elem_of_remove_dups. by rewrite H.
Qed.

(** C26: the tools of a role over the catalog: what is resolved is exactly the tools
    the role declares, all of them in the catalog, and the tools of the catalog that
    its selections ask for of their servers (all, those listed, or all but those
    listed); each name once, the built-in tools in their fixed order and the others
    sorted; and the answer, an error included, does not depend on the order in
    which the catalog was assembled. *)
Theorem role_tools_exact config outcomes tools selection catalog : Forall started_ok (zip (active_servers config) outcomes) ->
  let s := start_servers config outcomes in
  (forall l, resolve_role_tools tools selection catalog config s = Ok l ->
    NoDup l /\ (forall n, n ∈ l <-> n ∈ tools \/ selected_by s selection catalog n) /\ (forall n, n ∈ l -> n ∈ catalog) /\
    exists builtin others, l = builtin ++ others /\ builtin `sublist_of` ROLE_TOOL_NAMES /\ Sorted string_le others /\ (forall n, n ∈ others -> n ∉ ROLE_TOOL_NAMES)) /\
  (forall catalog', catalog ≡ₚ catalog' -> resolve_role_tools tools selection catalog' config s = resolve_role_tools tools selection catalog config s).
Proof.
  intros Ho s. pose proof (identities_inj _ _ (registered_start config outcomes Ho)) as Hinj. fold s in Hinj.
  assert (Htable : forall names, exists servers, catalog_servers s names (fold_left (fun d c => dset (identifier c) [] d) (mcp_servers config) []) = Ok servers /\
    table_of s names servers /\ forall server, dhas server servers = dhas server (fold_left (fun d c => dset (identifier c) ([] : list (string * string)) d) (mcp_servers config) [])).
  { intros names. destruct (catalog_table s names [] _ Hinj (empty_table s config)) as (servers & H1 & H2 & H3); [|by exists servers].
    intros n server remote Hn. by eapply config_servers. }
  split.
  - intros l Hl. unfold resolve_role_tools in Hl. destruct (List.filter _ (remove_dups tools)) as [|? ?] eqn:Em; [|done].
    destruct (Htable catalog) as (servers & E & T & _). rewrite E in Hl. cbn [res_bind] in Hl.
    destruct (select_servers servers selection) as [more|] eqn:Es; [|done]. cbn [res_bind] in Hl. injection Hl as <-.
    fold (role_order (tools ++ more)).
    assert (Hmem : forall n, n ∈ role_order (tools ++ more) <-> n ∈ tools \/ selected_by s selection catalog n).
    { intros n. by rewrite in_role_order, elem_of_app, (select_servers_members _ _ _ _ _ T Es). }
    split_and!; [apply role_order_NoDup|done| |].
    + intros n [Hn|(? & ? & ? & _ & Hn & _)]%Hmem; [|done]. destruct (name_in n catalog) eqn:Hc; [by apply name_in_spec|].
      assert (Hbad : n ∈ @nil string) by (rewrite <- Em, elem_of_filter_bool, elem_of_remove_dups; by rewrite Hc). by apply elem_of_nil in Hbad.
    + exists (List.filter (fun name => name_in name (tools ++ more)) ROLE_TOOL_NAMES),
        (sorted (List.filter (fun name => negb (name_in name ROLE_TOOL_NAMES)) (remove_dups (tools ++ more)))). split_and!; [reflexivity| |apply Sorted_merge_sort, _|].
      * apply filter_sublist.
      * intros n. unfold sorted. rewrite merge_sort_Permutation, elem_of_filter_bool. intros [_ Hn] Hin%name_in_spec. by rewrite Hin in Hn.
  - intros catalog' Hp. assert (Hin : forall n, n ∈ catalog <-> n ∈ catalog') by (intros n; by rewrite Hp).
    unfold resolve_role_tools. rewrite (filter_ext (fun t => negb (name_in t catalog')) (fun t => negb (name_in t catalog)))
      by (intros n; f_equal; apply eq_true_iff_eq; rewrite !name_in_spec; symmetry; apply Hin).
    destruct (List.filter _ (remove_dups tools)); [|done]. destruct (Htable catalog) as (t1 & -> & T1 & D1), (Htable catalog') as (t2 & -> & T2 & D2).
    cbn [res_bind]. pose proof (same_selection s catalog catalog' t1 t2 selection T1 T2 Hin) as Hsame.
    specialize (Hsame (fun server => eq_trans (D1 server) (eq_sym (D2 server)))).
    destruct (select_servers t1 selection) as [m1|] eqn:E1, (select_servers t2 selection) as [m2|] eqn:E2; try done; [|by rewrite Hsame].
    cbn [res_bind]. f_equal. apply role_order_same. intros n. rewrite !elem_of_app, (select_servers_members _ _ _ _ _ T1 E1), (select_servers_members _ _ _ _ _ T2 E2).
    unfold selected_by. by setoid_rewrite Hin.
Qed.

Lemma role_tools_exact_witness :
  let s := start_servers demo_config demo_outcomes in
  let catalog := ["mcp__files__write"; "shell"; "mcp__files__read"; "read_file"] in
  let selection := [("files", SomeTools [("write", false)])] in
  resolve_role_tools ["read_file"] selection catalog demo_config s = Ok ["read_file"; "mcp__files__read"] /\
  resolve_role_tools ["read_file"] selection (reverse catalog) demo_config s = resolve_role_tools ["read_file"] selection catalog demo_config s.
Proof.
  intros s catalog selection. split; [vm_compute; reflexivity|].
  apply (role_tools_exact demo_config demo_outcomes ["read_file"] selection catalog demo_started). symmetry. apply reverse_Permutation.
Defined.
