(* ===== verification/Models.v ===== *)
(** * Model configuration: agent_core/providers/reasoning.py, agent_runtime/config.py

    The reasoning parameters of a request, and how provider_config.json and
    tool_config.json are read: which provider an agent or a role uses and the
    connection it has.  [environ] are the environment variables, [model_info] the
    metadata of a model (a library's table) and the path functions those of the
    file system.  Where the code loops over a set of field names the order of the
    model is the one written here: only which of two errors comes first depends on
    it. *)

From stdpp Require Import base list strings.
From Stdlib Require Import ZArith Lia Ascii.
From S2P Require Import Prelude PyData PyStr Json PyText Plan Authority Config.

(** ** Text *)

(** [str.lower] of the code points below 256 *)
Definition lower_char (c : ascii) : ascii :=
  let z := scode c in
  if ((65 <=? z) && (z <=? 90)) || ((192 <=? z) && (z <=? 222) && negb (z =? 215)) then ascii_of_nat (nat_of_ascii c + 32) else c.
Fixpoint lower (s : string) : string := match s with "" => "" | String c s' => String (lower_char c) (lower s') end.

(** [p in s] *)
Fixpoint substring (p s : string) : bool :=
  startswith p s || match s with "" => false | String _ s' => substring p s' end.

(** ** reasoning.py *)

Definition SEMANTIC_EFFORTS : list string := ["none"; "minimal"; "low"; "medium"; "high"; "xhigh"; "max"].
Definition CUSTOM_PARAMETER_NAMES : list string := ["reasoning_effort"; "thinking"; "thinking_level"; "reasoning"; "extra_body"].

Definition mistral_effort (effort : string) : string :=
  if name_in effort ["none"; "minimal"; "low"] then "none" else "high".

Definition normalize_semantic_effort (value : json) : res string :=
  match value with
  | JStr s =>
      if negb (nonempty (strip s)) then value_error "reasoning_effort must be a non-empty string" else
      let normalized := lower (strip s) in
      if name_in normalized SEMANTIC_EFFORTS then Ok normalized
      else value_error ("reasoning_effort must be one of " +:+ comma_list SEMANTIC_EFFORTS +:+ "; got " +:+ repr_string s)
  | _ => value_error "reasoning_effort must be a non-empty string"
  end.

Definition is_obj (j : json) : bool := match j with JObj _ => true | _ => false end.
Definition present (f : json -> bool) (d : cdict) (name : string) : bool := match dget name d with None => true | Some j => f j end.

Definition validate_reasoning_parameters (d : cdict) : res cdict :=
  match unknown_keys CUSTOM_PARAMETER_NAMES d with
  | (_ :: _) as unknown => value_error ("reasoning_parameters contains unsupported field(s): " +:+ comma_list unknown)
  | [] =>
      match List.filter (fun n => negb (present is_obj d n)) ["thinking"; "reasoning"; "extra_body"] with
      | name :: _ => value_error ("reasoning_parameters." +:+ name +:+ " must be an object")
      | [] =>
          match List.filter (fun n => negb (present (fun j => bool_decide (string_in j <> None)) d n)) ["reasoning_effort"; "thinking_level"] with
          | name :: _ => value_error ("reasoning_parameters." +:+ name +:+ " must be a non-empty string")
          | [] =>
              match get_or "extra_body" d (JObj []) with
              | JObj extra_body =>
                  if present is_obj extra_body "reasoning" then Ok d else value_error "reasoning_parameters.extra_body.reasoning must be an object"
              | _ => Ok d
              end
          end
      end
  end.

Definition anthropic_budget (effort : string) : Z :=
  if name_in effort ["none"; "minimal"] then 1024 else
  if String.eqb effort "low" then 2048 else if String.eqb effort "medium" then 4096 else if String.eqb effort "high" then 8192 else 16384.

(** [d.setdefault(k, v)] as a change of [d] *)
Definition setdefault (k : string) (v : json) (d : cdict) : cdict := if dhas k d then d else dset k v d.

Definition route_of (model : string) : string := default "" (head (split_char "/" (lower (strip model)))).
Definition base_name (model : string) : string := default "" (last (split_char "/" (lower model))).

Definition mapped_effort (route effort : string) : string :=
  if String.eqb route "mistral" then mistral_effort effort else
  if String.eqb route "dashscope" && String.eqb effort "minimal" then "minimum" else effort.

(** [arguments.setdefault("extra_body", {}).setdefault("reasoning", {}).setdefault("effort", mapped)] *)
Definition nested_effort (mapped : string) (arguments : cdict) : cdict :=
  match get_or "extra_body" arguments (JObj []) with
  | JObj extra =>
      match get_or "reasoning" extra (JObj []) with
      | JObj r => dset "extra_body" (JObj (dset "reasoning" (JObj (setdefault "effort" (JStr mapped) r)) extra)) arguments
      | _ => arguments
      end
  | _ => arguments
  end.

Definition reasoning_arguments (model : string) (effort : option json) (custom : cdict) : res cdict :=
  arguments <~ validate_reasoning_parameters custom ;;
  match effort with
  | None => Ok arguments
  | Some value =>
      semantic <~ normalize_semantic_effort value ;;
      let route := route_of model in
      let mapped := mapped_effort route semantic in
      Ok (if String.eqb route "openrouter" then nested_effort mapped arguments
          else if String.eqb route "anthropic" then
            setdefault "thinking"
              (if String.eqb semantic "none" then JObj [("type", JStr "disabled")]
               else JObj [("type", JStr "enabled"); ("budget_tokens", JInt (anthropic_budget semantic))]) arguments
          else if String.eqb route "bedrock" then
            setdefault "extra_body"
              (JObj [("additionalModelRequestFields", JObj [("thinking", JObj [("type", JStr "adaptive"); ("effort", JStr mapped)])])]) arguments
          else if String.eqb route "xai" then
            setdefault "extra_body" (JObj [("reasoning", JObj [("summary", JStr "concise"); ("effort", JStr mapped)])]) arguments
          else if name_in route ["gemini"; "vertex_ai"] then setdefault "thinking_level" (JStr mapped) arguments
          else if String.eqb route "moonshot" then
            (if substring "k3" (base_name model) then setdefault "reasoning_effort" (JStr "max") arguments else dpop "reasoning_effort" arguments)
          else setdefault "reasoning_effort" (JStr mapped) arguments)
  end.

(** ** agent_runtime/config.py *)

Definition OPENAI_APIS : list string := ["responses"; "chat_completions"].
Definition WEB_SEARCH_PROVIDERS : list string := ["duckduckgo"; "exa"; "deepseek"].
Definition WEB_FETCH_PROVIDERS : list string := ["direct"; "deepseek"].

Record ModelConfig := MkModel {
  mo_model : string;
  mo_url : option string;
  mo_key : option string;
  mo_max_context_tokens : option Z;
  mo_reasoning_effort : option string;
  mo_reasoning_parameters : cdict;
  mo_api : option string;
}.

Inductive ProviderClass := OpenAIProvider | LiteLLMProvider.
Definition provider_class (c : ModelConfig) : ProviderClass :=
  let parts := split_char "/" (mo_model c) in
  if bool_decide (mo_api c <> None) || (length parts <=? 1)%nat || name_in (default "" (head parts)) ["openai"; "deepseek"]
  then OpenAIProvider else LiteLLMProvider.

(** The parsed file as an object; [path] names it in the message. *)
Definition json_object (path : string) (document : json) : res cdict :=
  match document with JObj d => Ok d | _ => value_error ("configuration must be a JSON object: " +:+ path) end.

Section provider_config.
Variable environ : string -> option string.

(** *** tool_config.json *)

Fixpoint check_tool_providers (tool : string) (choices : list string) (providers : cdict) : res unit :=
  match providers with
  | [] => Ok tt
  | (name, settings) :: rest =>
      if negb (name_in name (tail choices)) then value_error ("unknown " +:+ tool +:+ " provider settings: " +:+ name) else
      match settings with
      | JObj s =>
          match jget "key" s with
          | JNull | JStr _ => check_tool_providers tool choices rest
          | _ => value_error (tool +:+ ".providers." +:+ name +:+ ".key must be a string")
          end
      | _ => value_error (tool +:+ ".providers." +:+ name +:+ " must be an object")
      end
  end.

Definition clean_key (key : option string) : option string :=
  match key with Some k => if nonempty (strip k) then Some (strip k) else None | None => None end.

Definition tool_key (tool : string) (key : json) : res (option string) :=
  match key with
  | JStr k =>
      if negb (nonempty k) then Ok None else
      match env_reference (strip k) with
      | Some variable =>
          if nonempty variable then Ok (clean_key (environ variable)) else value_error (tool +:+ " key has an empty environment variable reference")
      | None => Ok (clean_key (Some k))
      end
  | _ => Ok None
  end.

Definition load_tool_provider (value : json) (tool : string) (choices : list string) : res (string * option string) :=
  match value with
  | JObj d =>
      match jget "provider" d with
      | JStr provider =>
          if negb (name_in provider choices) then value_error (tool +:+ ".provider must be one of: " +:+ sjoin ", " choices) else
          match get_or "providers" d (JObj []) with
          | JObj providers =>
              _x <~ check_tool_providers tool choices providers ;;
              key <~ tool_key tool (match get_or provider providers (JObj []) with JObj s => jget "key" s | _ => JNull end) ;;
              Ok (provider, key)
          | _ => config_error (tool +:+ ".providers") "an object"
          end
      | _ => value_error (tool +:+ ".provider must be one of: " +:+ sjoin ", " choices)
      end
  | _ => config_error tool "an object"
  end.

Record ToolSettings := MkToolSettings { ts_web_search : string * option string; ts_web_fetch : string * option string }.
Definition load_tool_settings (path : string) (document : json) : res ToolSettings :=
  d <~ json_object path document ;;
  search <~ load_tool_provider (jget "web_search" d) "web_search" WEB_SEARCH_PROVIDERS ;;
  fetch <~ load_tool_provider (jget "web_fetch" d) "web_fetch" WEB_FETCH_PROVIDERS ;;
  Ok (MkToolSettings search fetch).

(** *** provider_config.json *)

Fixpoint check_roles (roles : cdict) : res unit :=
  match roles with
  | [] => Ok tt
  | (name, JObj _) :: rest => check_roles rest
  | (name, _) :: _ => config_error ("subagent_roles." +:+ name) "an object"
  end.

Record ProviderDocument := MkProviderDocument { pd_default : string; pd_providers : cdict; pd_main_agent : cdict; pd_subagent : cdict; pd_roles : cdict }.

Definition read_config (data : cdict) : res ProviderDocument :=
  match jget "main_agent" data with
  | JObj main_agent =>
      match get_or "subagent" data (JObj []) with
      | JObj subagent =>
          match get_or "subagent_roles" data (JObj []) with
          | JObj roles =>
              _x <~ check_roles roles ;;
              match string_in (jget "provider" main_agent) with
              | None => config_error "main_agent.provider" "a non-empty string"
              | Some provider =>
                  match jget "providers" data with
                  | JObj providers =>
                      if dhas provider providers then Ok (MkProviderDocument provider providers main_agent subagent roles)
                      else value_error ("provider '" +:+ provider +:+ "' is not configured")
                  | _ => config_error "providers" "an object"
                  end
              end
          | _ => config_error "subagent_roles" "an object"
          end
      | _ => config_error "subagent" "an object"
      end
  | _ => config_error "main_agent" "an object"
  end.

Definition configured_role_names (data : cdict) : res (list string) := doc <~ read_config data ;; Ok (dkeys (pd_roles doc)).

Fixpoint first_field (field : string) (sources : list (string * cdict)) : res (option string) :=
  match sources with
  | [] => Ok None
  | (label, source) :: rest =>
      match jget field source with
      | JNull => first_field field rest
      | j =>
          if bool_decide (j = JStr "") then first_field field rest else
          match string_in j with
          | Some s => Ok (Some s)
          | None => config_error (label +:+ "." +:+ field) "a non-empty string"
          end
      end
  end.

Definition resolve_field (field : string) (role : option string) (main_agent subagent roles : cdict) : res (option string) :=
  first_field field
    (match role with
     | None => []
     | Some r => match jget r roles with JObj settings => [("subagent_roles." +:+ r, settings)] | _ => [] end ++ [("subagent", subagent)]
     end ++ [("main_agent", main_agent)]).

Definition provider_entry (providers : cdict) (provider : string) : res cdict :=
  match jget provider providers with JObj selected => Ok selected | _ => value_error ("provider '" +:+ provider +:+ "' is not configured") end.

Definition model_name (selected : cdict) (provider : string) : res string :=
  match string_in (jget "model" selected) with
  | Some m => Ok m
  | None => value_error ("provider '" +:+ provider +:+ "' field 'model' must be a non-empty string")
  end.

Definition load_model_options (data : cdict) : res (string * list (string * string)) :=
  doc <~ read_config data ;;
  models <~ res_map (fun name => selected <~ provider_entry (pd_providers doc) name ;; m <~ model_name selected name ;; Ok (name, m)) (dkeys (pd_providers doc)) ;;
  Ok (pd_default doc, models).

Definition provider_string (selected : cdict) (field provider : string) : res (option string) :=
  match jget field selected with
  | JNull => Ok None
  | j => match string_in j with Some s => Ok (Some s) | None => value_error ("provider '" +:+ provider +:+ "' field '" +:+ field +:+ "' must be a non-empty string") end
  end.
Definition provider_positive (selected : cdict) (field provider : string) : res (option Z) :=
  match jget field selected with
  | JNull => Ok None
  | JInt z => if z <? 1 then value_error ("provider '" +:+ provider +:+ "' field '" +:+ field +:+ "' must be a positive integer") else Ok (Some z)
  | _ => value_error ("provider '" +:+ provider +:+ "' field '" +:+ field +:+ "' must be a positive integer")
  end.

Definition provider_key (provider : string) (key : option string) : res (option string) :=
  match key with
  | None => Ok None
  | Some k =>
      match env_reference k with
      | None => Ok (Some k)
      | Some key_env =>
          if negb (nonempty key_env) then value_error ("provider '" +:+ provider +:+ "' field 'key' has an empty environment variable reference") else
          match environ key_env with
          | Some v => if nonempty v then Ok (Some v) else value_error ("environment variable '" +:+ key_env +:+ "' is required for provider '" +:+ provider +:+ "'")
          | None => value_error ("environment variable '" +:+ key_env +:+ "' is required for provider '" +:+ provider +:+ "'")
          end
      end
  end.

Definition check_api (j : json) : res (option string) :=
  match j with
  | JNull => Ok None
  | JStr s => if name_in s OPENAI_APIS then Ok (Some s) else value_error "provider api must be responses or chat_completions"
  | _ => value_error "provider api must be responses or chat_completions"
  end.

Definition optional_effort (j : json) : res (option string) :=
  match j with JNull => Ok None | _ => e <~ normalize_semantic_effort j ;; Ok (Some e) end.

(** The connection of a provider: [load_config_with_name] from the point where it is
    chosen. *)
Definition connection (providers : cdict) (provider : string) : res ModelConfig :=
  selected <~ provider_entry providers provider ;;
  model <~ model_name selected provider ;;
  url <~ provider_string selected "url" provider ;;
  key <~ provider_string selected "key" provider ;;
  max_context_tokens <~ provider_positive selected "max_context_tokens" provider ;;
  reasoning_effort <~ optional_effort (jget "reasoning_effort" selected) ;;
  reasoning_parameters <~
    match get_or "reasoning_parameters" selected (JObj []) with
    | JObj d => validate_reasoning_parameters d
    | _ => value_error ("provider '" +:+ provider +:+ "' field 'reasoning_parameters' must be an object")
    end ;;
  api <~ check_api (jget "api" selected) ;;
  key <~ provider_key provider key ;;
  Ok (MkModel model url key max_context_tokens reasoning_effort reasoning_parameters api).

Definition load_config_with_name (data : cdict) (provider role : option string) : res (string * ModelConfig) :=
  doc <~ read_config data ;;
  configured <~ resolve_field "provider" role [] (pd_subagent doc) (pd_roles doc) ;;
  let chosen := match configured with Some c => c | None => default (pd_default doc) provider end in
  c <~ connection (pd_providers doc) chosen ;; Ok (chosen, c).

Definition load_config (data : cdict) (provider role : option string) : res ModelConfig :=
  x <~ load_config_with_name data provider role ;; Ok (snd x).

(** *** Vision, fast model, image generation *)

Variable model_info : ProviderClass -> string -> option string -> res cdict.

(** [ModelProvider.capabilities_for_model] *)
Definition input_modalities (cls : ProviderClass) (model : string) (base_url : option string) : list string :=
  "text" :: match model_info cls model base_url with
            | Ok info => if bool_decide (jget "supports_vision" info = JBool true) then ["image"] else []
            | Err _ => []
            end.

Definition is_vision_capable (c : ModelConfig) : bool := name_in "image" (input_modalities (provider_class c) (mo_model c) (mo_url c)).

Definition load_vision_config (data : cdict) (role : option string) : res (option ModelConfig) :=
  doc <~ read_config data ;;
  configured <~ resolve_field "vision_provider" role (pd_main_agent doc) (pd_subagent doc) (pd_roles doc) ;;
  match configured with
  | None => Ok None
  | Some provider =>
      c <~ load_config data (Some provider) None ;;
      if is_vision_capable c then Ok (Some c)
      else value_error ("provider '" +:+ provider +:+ "' configured as vision_provider does not support image input")
  end.

Definition load_fast_config (data : cdict) : res (option ModelConfig) :=
  match get_or "fast_model" data (JObj []) with
  | JObj route =>
      match get_or "provider" route (JStr "") with
      | JNull => Ok None
      | j =>
          if bool_decide (j = JStr "") then Ok None else
          match string_in j with
          | Some provider => c <~ load_config data (Some provider) None ;; Ok (Some c)
          | None => value_error "config field 'fast_model.provider' must name a configured provider"
          end
      end
  | _ => config_error "fast_model" "an object"
  end.

Record ImageGenerationConfig := MkImageGeneration {
  ig_provider : string;
  ig_model : string;
  ig_url : option string;
  ig_key : option string;
  ig_default_aspect_ratio : option string;
  ig_default_image_size : option string;
}.

Definition image_setting (d : cdict) (field : string) : res (option string) :=
  match jget field d with
  | JNull => Ok None
  | j => match string_in j with Some s => Ok (Some s) | None => config_error ("image_generation." +:+ field) "a non-empty string" end
  end.

Definition load_image_generation_config (data : cdict) : res (option ImageGenerationConfig) :=
  match jget "image_generation" data with
  | JNull => Ok None
  | JObj value =>
      match string_in (jget "provider" value), string_in (jget "model" value) with
      | None, _ => config_error "image_generation.provider" "a non-empty string"
      | _, None => config_error "image_generation.model" "a non-empty string"
      | Some provider, Some model =>
          c <~ load_config data (Some provider) None ;;
          ratio <~ image_setting value "default_aspect_ratio" ;;
          size <~ image_setting value "default_image_size" ;;
          Ok (Some (MkImageGeneration provider model (mo_url c) (mo_key c) ratio size))
      end
  | _ => config_error "image_generation" "an object"
  end.
End provider_config.

(** *** Paths *)

Section paths.
Variable expanduser resolve : string -> string.
Variable is_absolute : string -> bool.
Variable join_path : string -> string -> string.

Definition load_scratch_workspace_root (path : string) (document : json) : res string :=
  d <~ json_object path document ;;
  match jget "scratch_workspace_root" d with
  | JNull => value_error ("missing required config field 'scratch_workspace_root' in " +:+ path +:+ "; add an absolute path such as '~/.nosis/workspaces/scratch'")
  | j =>
      match string_in j with
      | None => value_error ("config field 'scratch_workspace_root' must be a non-empty path in " +:+ path)
      | Some s =>
          let root := expanduser s in
          if is_absolute root then Ok (resolve root)
          else value_error ("config field 'scratch_workspace_root' must resolve to an absolute path in " +:+ path)
      end
  end.

Definition resolve_skill_paths (paths : list string) (base : string) : list string :=
  map (fun value => let p := expanduser value in if is_absolute p then p else join_path base p) paths.

Fixpoint distinct_directories (seen directories : list string) : list string :=
  match directories with
  | [] => []
  | d :: rest =>
      let r := resolve (expanduser d) in
      if name_in r seen then distinct_directories seen rest else r :: distinct_directories (r :: seen) rest
  end.
Definition configured_skill_sources (config_directory : string) (c : AgentConfig) (workspace : option string) : list string :=
  distinct_directories []
    (resolve_skill_paths (ac_skill_global_paths c) config_directory ++
     match workspace with Some w => resolve_skill_paths (ac_skill_workspace_paths c) w | None => [] end).
End paths.
