(* ===== verification/Settings.v ===== *)
(** * Settings: agent_runtime/settings.py

    The configuration documents an interface inspects and changes.  The state is
    what [SettingsStore] works on: the two parsed documents, the text of .env and
    the environment of the process.  [dotenv] is the dotenv parser, [fingerprint]
    the digest of the files and [check_root] the check of the scratch root (it asks
    the file system).  Writing a document and reading it back gives the document;
    the temporary file a document is validated through is gone afterwards. *)

From stdpp Require Import base list strings.
From Stdlib Require Import ZArith Lia Ascii.
From S2P Require Import Prelude PyData PyStr Json PyText Plan Authority Config Models.

(** ** Names and references *)

Definition alpha (c : ascii) : bool := let z := scode c in ((65 <=? z) && (z <=? 90)) || ((97 <=? z) && (z <=? 122)).
Definition alnum (c : ascii) : bool := alpha c || ((48 <=? scode c) && (scode c <=? 57)).

(** [_PROVIDER_NAME] *)
Definition provider_name (s : string) : bool :=
  match s with "" => false | String c s' => alnum c && all_chars (fun c => alnum c || one_of ["."; "_"; "-"]%char c) s' end.

(** [_ENV_REFERENCE] *)
Definition variable_name (s : string) : bool :=
  match s with "" => false | String c s' => (alpha c || Ascii.eqb c "_") && all_chars (fun c => alnum c || Ascii.eqb c "_") s' end.
Definition environment_reference (value : json) : option string :=
  match value with
  | JStr s => match env_reference s with Some name => if variable_name name then Some name else None | None => None end
  | _ => None
  end.

(** [re.sub("[^A-Za-z0-9]+", "_", s)]; [run]: the character before was replaced. *)
Fixpoint replace_runs (run : bool) (s : string) : string :=
  match s with
  | "" => ""
  | String c s' => if alnum c then String c (replace_runs false s') else if run then replace_runs true s' else String "_" (replace_runs true s')
  end.
Definition upper_char (c : ascii) : ascii := let z := scode c in if (97 <=? z) && (z <=? 122) then ascii_of_nat (nat_of_ascii c - 32) else c.
Fixpoint upper (s : string) : string := match s with "" => "" | String c s' => String (upper_char c) (upper s') end.
Definition provider_env_name (provider_id : string) : string :=
  "NOSIS_" +:+ upper (strip_by (one_of ["_"%char]) (replace_runs false provider_id)) +:+ "_API_KEY".

(** ** .env *)

(** [^\s*(?:export\s+)?NAME\s*=] *)
Definition names_variable (name line : string) : bool :=
  let assigned s := startswith name s && startswith "=" (lstrip_by is_space (sdrop (String.length name) s)) in
  let line := lstrip_by is_space line in
  assigned line ||
  (startswith "export" line &&
   match sdrop 6 line with String c rest => is_space c && assigned (lstrip_by is_space rest) | "" => false end).

Fixpoint replace_lines (name : string) (replacement : option string) (replaced : bool) (lines : list string) : list string :=
  match lines with
  | [] => match replacement with Some r => if replaced then [] else [r] | None => [] end
  | line :: rest =>
      if names_variable name line
      then match replacement with Some r => if replaced then [] else [r] | None => [] end ++ replace_lines name replacement true rest
      else line :: replace_lines name replacement replaced rest
  end.

Definition update_dotenv (text : option string) (name : string) (value : option string) : string :=
  let lines := match text with Some t => splitlines t | None => [] end in
  let output := replace_lines name ((fun v => name +:+ "=" +:+ v) <$> value) false lines in
  sjoin NL output +:+ (if bool_decide (output = []) then "" else NL).

(** ** The environment of the process *)

Definition Environ : Type := list (string * string).

Record Reloader := MkReloader { rl_original : list (string * option string); rl_loaded : list string }.
Definition new_reloader : Reloader := MkReloader [] [].

(** A name that is gone from the file gets its value from before. *)
Definition restore_name (original : list (string * option string)) (environ : Environ) (name : string) : res Environ :=
  match dget name original with
  | None => key_error name
  | Some None => Ok (dpop name environ)
  | Some (Some v) => Ok (dset name v environ)
  end.
Definition apply_value (x : list (string * option string) * Environ) (kv : string * string) : list (string * option string) * Environ :=
  let '(original, environ) := x in
  (if dhas (fst kv) original then original else dset (fst kv) (dget (fst kv) environ) original, dset (fst kv) (snd kv) environ).

Definition reload (values : list (string * string)) (r : Reloader) (environ : Environ) : res (Reloader * Environ) :=
  environ1 <~ res_fold (restore_name (rl_original r)) environ (List.filter (fun name => negb (dhas name values)) (rl_loaded r)) ;;
  let '(original, environ2) := fold_left apply_value values (rl_original r, environ1) in
  Ok (MkReloader original (dkeys values), environ2).

(** ** Documents *)

(** [{**a, **b}] *)
Definition dmerge {V} (a b : list (string * V)) : list (string * V) := fold_left (fun d kv => dset (fst kv) (snd kv) d) b a.
(** [{**a, **b}] where both are objects, else [b] *)
Definition merge_value (a b : json) : json := match a, b with JObj x, JObj y => JObj (dmerge x y) | _, _ => b end.
(** [a or ""] *)
Definition or_empty (j : json) : json := if truthy j then j else JStr "".

Definition refuse_unknown (what : string) (allowed : list string) (d : cdict) : res unit :=
  match unknown_keys allowed d with [] => Ok tt | names => value_error ("unknown " +:+ what +:+ " setting(s): " +:+ comma_list names) end.

(** *** Validation *)

Definition blank_or_not_string (j : json) : bool := match j with JNull => false | _ => bool_decide (string_in j = None) end.
Definition not_positive (j : json) : bool := match j with JNull => false | JInt z => z <? 1 | _ => true end.

Fixpoint validate_routes (route providers : cdict) (path : string) (fields : list string) : res unit :=
  match fields with
  | [] => Ok tt
  | field :: rest =>
      match jget field route with
      | JNull => validate_routes route providers path rest
      | JStr s =>
          if negb (nonempty s) || dhas s providers then validate_routes route providers path rest
          else Err (field_error (path +:+ "." +:+ field) "name a configured provider")
      | _ => Err (field_error (path +:+ "." +:+ field) "name a configured provider")
      end
  end.
Definition ROUTE_FIELDS : list string := ["provider"; "vision_provider"].

Definition validate_provider (kv : string * json) : res unit :=
  let '(provider, value) := kv in
  if negb (provider_name provider) then value_error ("invalid provider id: " +:+ provider) else
  match value with
  | JObj d =>
      if blank_or_not_string (jget "url" d) then value_error ("provider '" +:+ provider +:+ "' url must be a non-empty string") else
      if blank_or_not_string (jget "key" d) then value_error ("provider '" +:+ provider +:+ "' key must be a non-empty string") else
      if not_positive (jget "max_context_tokens" d) then value_error ("provider '" +:+ provider +:+ "' max_context_tokens must be positive") else
      _e <~ optional_effort (jget "reasoning_effort" d) ;;
      _p <~ match jget "reasoning_parameters" d with
            | JNull => Ok []
            | JObj p => validate_reasoning_parameters p
            | _ => value_error ("provider '" +:+ provider +:+ "' reasoning_parameters must be an object")
            end ;;
      _a <~ check_api (jget "api" d) ;; Ok tt
  | _ => value_error ("provider '" +:+ provider +:+ "' must be an object")
  end.

Definition validate_route_of (document providers : cdict) (label : string) : res unit :=
  match get_or label document (JObj []) with
  | JObj route => validate_routes route providers label ROUTE_FIELDS
  | _ => config_error label "an object"
  end.

Definition validate_role_route (providers : cdict) (kv : string * json) : res unit :=
  let path := "subagent_roles." +:+ fst kv in
  match snd kv with JObj route => validate_routes route providers path ROUTE_FIELDS | _ => config_error path "an object" end.

Definition validate_image_generation (document providers : cdict) : res unit :=
  match jget "image_generation" document with
  | JNull => Ok tt
  | JObj d =>
      match jget "provider" d with
      | JStr p =>
          if negb (dhas p providers) then Err (field_error "image_generation.provider" "name a configured provider") else
          if bool_decide (string_in (jget "model" d) = None) then config_error "image_generation.model" "a non-empty string" else
          if blank_or_not_string (jget "default_aspect_ratio" d) then config_error "image_generation.default_aspect_ratio" "a non-empty string" else
          if blank_or_not_string (jget "default_image_size" d) then config_error "image_generation.default_image_size" "a non-empty string" else Ok tt
      | _ => Err (field_error "image_generation.provider" "name a configured provider")
      end
  | _ => config_error "image_generation" "an object"
  end.

Definition validate_provider_document (document : cdict) : res unit :=
  options <~ load_model_options document ;;
  if negb (dhas (fst options) (snd options)) then value_error "default provider is not configured" else
  match jget "providers" document with
  | JObj providers =>
      _v <~ res_map validate_provider providers ;;
      _r <~ res_map (validate_route_of document providers) ["main_agent"; "subagent"; "fast_model"] ;;
      match get_or "subagent_roles" document (JObj []) with
      | JObj roles => _s <~ res_map (validate_role_route providers) roles ;; validate_image_generation document providers
      | _ => config_error "subagent_roles" "an object"
      end
  | _ => raise EAssertion ""
  end.

(** *** The documents after a change *)

Definition PROVIDER_SETTINGS : list string :=
  ["model"; "url"; "max_context_tokens"; "reasoning_effort"; "reasoning_parameters"; "api"; "api_key"; "set_default"].

(** What is done with the key of a provider. *)
Inductive KeyAction := KeepKey | SetKey (value : json) | ClearKey.
Definition key_action (payload : cdict) : res KeyAction :=
  match get_or "api_key" payload (JObj [("action", JStr "keep")]) with
  | JObj d =>
      match jget "action" d with
      | JStr "keep" => Ok KeepKey
      | JStr "set" => Ok (SetKey (jget "value" d))
      | JStr "clear" => Ok ClearKey
      | JArr _ | JObj _ => raise ETypeError "unhashable type"
      | _ => value_error "api_key.action must be keep, set, or clear"
      end
  | _ => value_error "api_key.action must be keep, set, or clear"
  end.

(** The checked fields of a payload. *)
Record ProviderPayload := MkPayload {
  pp_model : string;
  pp_url : option string;
  pp_limit : option Z;
  pp_effort : option string;
  pp_parameters : option cdict;
  pp_api : option string;
  pp_key : KeyAction;
}.

Definition read_provider_payload (payload : cdict) : res ProviderPayload :=
  _u <~ refuse_unknown "provider" PROVIDER_SETTINGS payload ;;
  match string_in (jget "model" payload) with
  | None => value_error "model must be a non-empty string"
  | Some model =>
      if blank_or_not_string (jget "url" payload) then value_error "url must be a non-empty string or null" else
      if not_positive (jget "max_context_tokens" payload) then value_error "max_context_tokens must be a positive integer or null" else
      effort <~ optional_effort (jget "reasoning_effort" payload) ;;
      parameters <~ match jget "reasoning_parameters" payload with
                    | JNull => Ok None
                    | JObj p => x <~ validate_reasoning_parameters p ;; Ok (Some x)
                    | _ => value_error "reasoning_parameters must be an object"
                    end ;;
      api <~ check_api (jget "api" payload) ;;
      key <~ key_action payload ;;
      Ok (MkPayload model (string_in (jget "url" payload)) (jint (jget "max_context_tokens" payload)) effort parameters api key)
  end.

(** [entry.pop(k, None)] or [entry[k] = v] *)
Definition put {A} (f : A -> json) (k : string) (v : option A) (entry : cdict) : cdict :=
  match v with Some x => dset k (f x) entry | None => dpop k entry end.
Definition put_if {A} (given : bool) (f : A -> json) (k : string) (v : option A) (entry : cdict) : cdict := if given then put f k v entry else entry.

Definition provider_fields (payload : cdict) (p : ProviderPayload) (entry : cdict) : cdict :=
  let entry := dset "model" (JStr (pp_model p)) entry in
  let entry := put JStr "url" (pp_url p) entry in
  let entry := put JInt "max_context_tokens" (pp_limit p) entry in
  let entry := put_if (dhas "reasoning_effort" payload) JStr "reasoning_effort" (pp_effort p) entry in
  let entry := put_if (dhas "reasoning_parameters" payload) JObj "reasoning_parameters" (pp_parameters p) entry in
  put_if (dhas "api" payload) JStr "api" (pp_api p) entry.

(** What becomes of .env: a variable and its value, or that it is removed. *)
Definition EnvChange : Type := option (string * option string).

Definition key_change (provider_id : string) (action : KeyAction) (entry : cdict) : res (cdict * EnvChange) :=
  let old_reference := environment_reference (jget "key" entry) in
  match action with
  | KeepKey => Ok (entry, None)
  | SetKey (JStr value) =>
      if negb (nonempty value) then value_error "api_key.value must be a non-empty string" else
      if has_char LF value || has_char CR value then value_error "api_key.value must not contain line breaks" else
      let env_name := default (provider_env_name provider_id) old_reference in
      Ok (dset "key" (JStr ("${" +:+ env_name +:+ "}")) entry, Some (env_name, Some value))
  | SetKey _ => value_error "api_key.value must be a non-empty string"
  | ClearKey => Ok (dpop "key" entry, (fun name => (name, None)) <$> old_reference)
  end.

Definition set_default (payload : cdict) (provider_id : string) (document : cdict) : res cdict :=
  if bool_decide (jget "set_default" payload = JBool true) then
    match jget "main_agent" document with
    | JObj main_agent => Ok (dset "main_agent" (JObj (dset "provider" (JStr provider_id) main_agent)) document)
    | _ => config_error "main_agent" "an object"
    end
  else Ok document.

(** The new document of [_save_provider] and the change of .env. *)
Definition change_provider (document : cdict) (provider_id : string) (payload : json) : res (cdict * EnvChange) :=
  if negb (provider_name provider_id) then value_error "provider id may contain letters, numbers, '.', '_' and '-'" else
  match payload with
  | JObj payload =>
      p <~ read_provider_payload payload ;;
      match jget "providers" document with
      | JObj providers =>
          existing <~ match jget provider_id providers with
                      | JNull => Ok []
                      | JObj d => Ok d
                      | _ => value_error ("provider '" +:+ provider_id +:+ "' must be an object")
                      end ;;
          changed <~ key_change provider_id (pp_key p) (provider_fields payload p existing) ;;
          document' <~ set_default payload provider_id (dset "providers" (JObj (dset provider_id (JObj (fst changed)) providers)) document) ;;
          _v <~ validate_provider_document document' ;; Ok (document', snd changed)
      | _ => config_error "providers" "an object"
      end
  | _ => value_error "provider settings must be an object"
  end.

Definition ROUTING_SETTINGS : list string := ["main_agent"; "fast_model"; "vision_provider"; "subagent"; "subagent_vision_provider"; "roles"].

(** The entries of [new], each over the one of the same name in [current]. *)
Definition merge_entries (current new : cdict) : cdict :=
  map (fun kv => (fst kv, match dget (fst kv) current with Some c => merge_value c (snd kv) | None => snd kv end)) new.
Definition object_or_empty (j : json) : cdict := match j with JObj d => d | _ => [] end.

Definition change_routing (document : cdict) (payload : json) : res cdict :=
  match payload with
  | JObj payload =>
      _u <~ refuse_unknown "routing" ROUTING_SETTINGS payload ;;
      match jget "main_agent" document, jget "subagent" document with
      | JObj main, JObj subagent =>
          let main := dset "vision_provider" (or_empty (jget "vision_provider" payload)) (dset "provider" (jget "main_agent" payload) main) in
          let subagent := dset "vision_provider" (or_empty (jget "subagent_vision_provider" payload)) (dset "provider" (or_empty (jget "subagent" payload)) subagent) in
          let fast := dset "provider" (or_empty (jget "fast_model" payload)) (object_or_empty (jget "fast_model" document)) in
          match get_or "roles" payload (JObj []) with
          | JObj roles =>
              let document := dset "main_agent" (JObj main) (dset "subagent" (JObj subagent) (dset "fast_model" (JObj fast) document)) in
              let document := dset "subagent_roles" (JObj (merge_entries (object_or_empty (jget "subagent_roles" document)) roles)) document in
              _v <~ validate_provider_document document ;; Ok document
          | _ => value_error "routing roles must be an object"
          end
      | _, _ => value_error "provider routing blocks must be objects"
      end
  | _ => value_error "routing settings must be an object"
  end.

Definition AGENT_SETTINGS : list string :=
  ["max_same_tool_calls"; "output_reserve_tokens"; "max_generation_tokens"; "workspace_instruction_files"; "tools"; "context"; "memory";
   "subagent_roles"; "mcp_enabled"; "generate_session_title"].
Definition PLAIN_SETTINGS : list string :=
  ["max_same_tool_calls"; "output_reserve_tokens"; "max_generation_tokens"; "workspace_instruction_files"; "generate_session_title"].

(** [if field in payload: document[field] = change(document.get(field), payload[field])] *)
Definition change_field (field target : string) (change : json -> json -> json) (payload document : cdict) : cdict :=
  match dget field payload with Some j => dset target (change (jget target document) j) document | None => document end.

Definition merge_context (current new : json) : json :=
  match new with
  | JObj context =>
      let merged := match current with JObj c => dmerge c context | _ => context end in
      JObj (match jget "compression" context with
            | JObj _ as compression =>
                dset "compression" (merge_value (match current with JObj c => jget "compression" c | _ => JNull end) compression) merged
            | _ => merged
            end)
  | _ => new
  end.
Definition merge_roles (current new : json) : json :=
  match new with JObj roles => JObj (merge_entries (object_or_empty current) roles) | _ => new end.
Definition merge_tools (current new : json) : json := JObj (dset "tools" new (object_or_empty current)).
Definition merge_mcp (current new : json) : json :=
  JObj (dset "enabled" new (match current with JObj d => d | _ => [("servers", JObj [])] end)).

Definition merge_agent (payload document : cdict) : cdict :=
  let document := fold_left (fun d field => change_field field field (fun _ j => j) payload d) PLAIN_SETTINGS document in
  let document := change_field "context" "context" merge_context payload document in
  let document := change_field "memory" "memory" merge_value payload document in
  let document := change_field "subagent_roles" "subagent_roles" merge_roles payload document in
  let document := change_field "tools" "main_agent" merge_tools payload document in
  change_field "mcp_enabled" "mcp" merge_mcp payload document.

(** ** What is shown *)

(** One provider: of its key, where it comes from and whether there is one. *)
Definition provider_item (env : string -> option string) (name model : string) (raw : cdict) : json :=
  let key_value := jget "key" raw in
  let reference := environment_reference key_value in
  JObj [("id", JStr name); ("model", JStr model); ("url", jget "url" raw); ("max_context_tokens", jget "max_context_tokens" raw);
        ("reasoning_effort", jget "reasoning_effort" raw); ("reasoning_parameters", get_or "reasoning_parameters" raw (JObj [])); ("api", jget "api" raw);
        ("credential", JObj
          [("source", JStr (match reference with Some _ => "env" | None => if truthy key_value then "inline" else "none" end));
           ("env_name", ostr reference);
           ("configured", JBool (match reference with
                                 | Some r => match env r with Some v => nonempty v | None => false end
                                 | None => truthy key_value
                                 end))])].

(** The providers of [_snapshot]. *)
Definition provider_items (env : string -> option string) (document : cdict) : res (list json) :=
  options <~ load_model_options document ;;
  res_map (fun nm => match jget (fst nm) (object_or_empty (jget "providers" document)) with
                     | JObj raw => Ok (provider_item env (fst nm) (snd nm) raw)
                     | _ => raise EAssertion ""
                     end) (snd options).

(** [x or None] *)
Definition or_none (j : json) : json := if truthy j then j else JNull.
Definition routing_view (document : cdict) : res json :=
  match jget "main_agent" document, get_or "fast_model" document (JObj []), get_or "subagent" document (JObj []), get_or "subagent_roles" document (JObj []) with
  | JObj main_agent, JObj fast_model, JObj subagent, JObj roles =>
      Ok (JObj [("main_agent", jget "provider" main_agent); ("fast_model", or_none (jget "provider" fast_model));
                ("vision_provider", or_none (jget "vision_provider" main_agent)); ("subagent", or_none (jget "provider" subagent));
                ("subagent_vision_provider", or_none (jget "vision_provider" subagent)); ("roles", JObj roles)])
  | _, _, _, _ => raise EAssertion ""
  end.

Definition selection_json (x : McpSelection) : json :=
  match x with AllTools b => JBool b | SomeTools l => JObj (map (fun kv => (fst kv, JBool (snd kv))) l) end.
Definition switches (names enabled : list string) : json := JObj (map (fun n => (n, JBool (name_in n enabled))) names).
Definition role_view (r : SubagentRoleConfig) : json :=
  JObj [("enabled", JBool (rc_enabled r)); ("description", JStr (rc_description r)); ("tools", switches ROLE_TOOL_NAMES (rc_tools r));
        ("mcp", JObj (map (fun kv => (fst kv, selection_json (snd kv))) (rc_mcp r)))].

(** The agent settings of [_snapshot]. *)
Definition agent_view (c : AgentConfig) : cdict :=
  [("max_same_tool_calls", JInt (ac_max_same_tool_calls c)); ("output_reserve_tokens", JInt (ac_output_reserve_tokens c));
   ("max_generation_tokens", oint (ac_max_generation_tokens c)); ("generate_session_title", JBool (ac_generate_session_title c));
   ("workspace_instruction_files", JArr (map JStr (ac_workspace_instruction_files c)));
   ("tools", switches TOOL_NAMES (ac_tools c));
   ("context", JObj [("compression", JObj
      [("enabled", JBool (ac_compression_enabled c)); ("trigger_ratio", match ac_trigger_ratio c with Some bits => JFloat bits | None => JNull end);
       ("keep_recent_units", JInt (ac_keep_recent_units c)); ("user_anchor_token_budget", JInt (ac_user_anchor_token_budget c))])]);
   ("memory", JObj [("enabled", JBool (ac_memory_enabled c)); ("global_max_tokens", JInt (ac_global_max_tokens c));
                    ("workspace_max_tokens", JInt (ac_workspace_max_tokens c))]);
   ("subagent_roles", JObj (map (fun kv => (fst kv, role_view (snd kv))) (ac_subagent_roles c)));
   ("mcp_enabled", JBool (mcp_enabled (ac_mcp c)))].

Definition transport_str (t : McpTransport) : string := match t with Stdio => "stdio" | StreamableHttp => "streamable_http" end.
Definition mcp_snapshot (c : McpServerConfig) (source : string) : json :=
  JObj [("id", JStr (identifier c)); ("source", JStr source); ("enabled", JBool (ms_enabled c)); ("transport", JStr (transport_str (ms_transport c)));
        ("command", ostr (ms_command c)); ("args", JArr (map JStr (ms_args c))); ("cwd", ostr (ms_cwd c)); ("url", ostr (ms_url c));
        ("env_names", JArr (map JStr (sorted (dkeys (ms_env c))))); ("header_names", JArr (map JStr (sorted (dkeys (ms_headers c)))));
        ("startup_timeout_seconds", JInt (ms_startup_timeout_seconds c)); ("call_timeout_seconds", JInt (ms_call_timeout_seconds c))].

(** ** The store *)

Record SettingsState := MkSettings {
  se_provider : cdict;
  se_agent : cdict;
  se_dotenv : option string;
  se_reloader : Reloader;
  se_environ : Environ;
}.

Section store.
Variable dotenv : string -> list (string * string).
Variable fingerprint : SettingsState -> string.
Variable check_root : cdict -> res unit.

Definition dotenv_values (text : option string) : list (string * string) := match text with Some t => dotenv t | None => [] end.
Definition environ_of (s : SettingsState) : string -> option string := fun k => dget k (se_environ s).

(** [load_environment]: the values of .env over the environment *)
Definition load_environment (s : SettingsState) : Environ := dmerge (se_environ s) (dotenv_values (se_dotenv s)).

Definition reload_environment : M SettingsState unit :=
  fun s => match reload (dotenv_values (se_dotenv s)) (se_reloader s) (se_environ s) with
           | Ok (r, environ) => (MkSettings (se_provider s) (se_agent s) (se_dotenv s) r environ, Ok tt)
           | Err e => (s, Err e)
           end.

Definition check_revision (expected : option string) : M SettingsState unit :=
  fun s => match expected with
           | Some r => if String.eqb r (fingerprint s) then (s, Ok tt) else (s, value_error "configuration changed; reload settings before saving")
           | None => (s, Ok tt)
           end.

(** The parts of [_snapshot] that come from the two documents. *)
Record Snapshot := MkSnapshot { sn_revision : string; sn_default_provider : string; sn_providers : list json; sn_routing : json; sn_agent : cdict; sn_mcp : list json }.

Definition snapshot : M SettingsState Snapshot :=
  _ <- reload_environment ;;
  s <- get ;;
  options <- lift (load_model_options (se_provider s)) ;;
  c <- lift (load_agent_config (environ_of s) (JObj (se_agent s))) ;;
  items <- lift (provider_items (fun k => dget k (load_environment s)) (se_provider s)) ;;
  routing <- lift (routing_view (se_provider s)) ;;
  ret (MkSnapshot (fingerprint s) (fst options) items routing (agent_view c) (map (fun m => mcp_snapshot m "agent_config") (mcp_servers (ac_mcp c)))).

Definition write_provider (document : cdict) (s : SettingsState) : SettingsState :=
  MkSettings document (se_agent s) (se_dotenv s) (se_reloader s) (se_environ s).
Definition write_agent (document : cdict) (s : SettingsState) : SettingsState :=
  MkSettings (se_provider s) document (se_dotenv s) (se_reloader s) (se_environ s).
Definition write_dotenv (change : EnvChange) (s : SettingsState) : SettingsState :=
  match change with
  | Some (name, value) => MkSettings (se_provider s) (se_agent s) (Some (update_dotenv (se_dotenv s) name value)) (se_reloader s) (se_environ s)
  | None => s
  end.

Definition save_provider (provider_id : string) (payload : json) (expected : option string) : M SettingsState Snapshot :=
  _ <- check_revision expected ;;
  s <- get ;;
  changed <- lift (change_provider (se_provider s) provider_id payload) ;;
  _ <- modify (write_dotenv (snd changed)) ;;
  _ <- modify (write_provider (fst changed)) ;;
  _ <- reload_environment ;;
  snapshot.

Definition save_routing (payload : json) (expected : option string) : M SettingsState Snapshot :=
  _ <- check_revision expected ;;
  s <- get ;;
  document <- lift (change_routing (se_provider s) payload) ;;
  _ <- modify (write_provider document) ;;
  snapshot.

Definition validate_agent_document (environ : string -> option string) (document : cdict) : res unit :=
  _c <~ load_agent_config environ (JObj document) ;; check_root document.

Definition change_agent (environ : string -> option string) (document : cdict) (payload : json) : res cdict :=
  match payload with
  | JObj payload =>
      _u <~ refuse_unknown "agent" AGENT_SETTINGS payload ;;
      let document := merge_agent payload document in
      _v <~ validate_agent_document environ document ;; Ok document
  | _ => value_error "agent settings must be an object"
  end.

Definition save_agent (payload : json) (expected : option string) : M SettingsState Snapshot :=
  _ <- check_revision expected ;;
  s <- get ;;
  document <- lift (change_agent (environ_of s) (se_agent s) payload) ;;
  _ <- modify (write_agent document) ;;
  snapshot.

(** What an interface asks of the store. *)
Inductive SettingsRequest :=
| Inspect
| SaveProvider (provider_id : string) (payload : json) (expected : option string)
| SaveRouting (payload : json) (expected : option string)
| SaveAgent (payload : json) (expected : option string).

Definition serve_settings (r : SettingsRequest) : M SettingsState Snapshot :=
  match r with
  | Inspect => snapshot
  | SaveProvider id payload expected => save_provider id payload expected
  | SaveRouting payload expected => save_routing payload expected
  | SaveAgent payload expected => save_agent payload expected
  end.
End store.
