(* ===== verification/SettingsThms.v ===== *)
(** * Settings are safe to inspect and to save *)

From stdpp Require Import base list strings.
From Stdlib Require Import ZArith Lia Ascii.
From S2P Require Import Prelude PyData PyStr Json PyText Plan Content Authority TurnControl Config Models Settings.

(** ** The environment follows .env *)

(** The environment is [base] with [values] over it, and what was put aside is what
    [base] has. *)
Record overlay (base : string -> option string) (values : list (string * string)) (r : Reloader) (environ : Environ) : Prop := {
  ov_keys : NoDup (dkeys environ);
  ov_environ : forall k, dget k environ = match dget k values with Some v => Some v | None => base k end;
  ov_original : forall k o, dget k (rl_original r) = Some o -> o = base k;
  ov_loaded : forall k, k ∈ rl_loaded r -> dget k (rl_original r) <> None;
  ov_current : rl_loaded r = dkeys values;
}.

Lemma restore_names base original names : (forall k o, dget k original = Some o -> o = base k) -> forall environ,
  Forall (fun k => dget k original <> None) names -> NoDup (dkeys environ) ->
  exists environ', res_fold (restore_name original) environ names = Ok environ' /\ NoDup (dkeys environ') /\
    forall k, dget k environ' = if name_in k names then base k else dget k environ.
Proof.
  intros Ho. induction names as [|n names IH]; intros environ Hn Hd; [by exists environ|].
  inversion Hn as [|? ? H1 H2]; subst. cbn [res_fold]. unfold restore_name at 1. destruct (dget n original) as [o|] eqn:E; [|done]. apply Ho in E.
  assert (Hstep : exists e, match o with Some v => Ok (dset n v environ) | None => Ok (dpop n environ) end = Ok e /\ NoDup (dkeys e) /\
    forall k, dget k e = if String.eqb k n then base k else dget k environ).
  { destruct o as [v|]; eexists; (split; [reflexivity|]).
    - split; [by apply dset_NoDup|]. intros k. destruct (String.eqb_spec k n) as [->|]; [by rewrite dget_dset_eq|by rewrite dget_dset_ne by congruence].
    - split; [by apply dpop_NoDup|]. intros k. destruct (String.eqb_spec k n) as [->|]; [by rewrite dget_dpop_eq|by rewrite dget_dpop_ne by congruence]. }
  destruct Hstep as (e & He & Hnd & Hget). replace (match o with Some v => _ | None => _ end) with (Ok e) by (destruct o; done). cbn [res_bind].
  destruct (IH e H2 Hnd) as (e' & -> & Hnd' & Hget'). exists e'. split_and!; [done|done|]. intros k. rewrite Hget', Hget. cbn. fold (name_in k names).
  destruct (String.eqb k n), (name_in k names); done.
Qed.

Lemma apply_values base values : forall original (environ : Environ), NoDup (dkeys values) -> NoDup (dkeys environ) ->
  (forall k o, dget k original = Some o -> o = base k) -> (forall k, dget k original = None -> dget k environ = base k) ->
  let '(original', environ') := fold_left apply_value values (original, environ) in
  NoDup (dkeys environ') /\ (forall k o, dget k original' = Some o -> o = base k) /\
  (forall k, dget k original' <> None <-> dget k original <> None \/ k ∈ dkeys values) /\
  (forall k, dget k environ' = match dget k values with Some v => Some v | None => dget k environ end).
Proof.
  induction values as [|[n v] values IH]; intros original environ Hv He Ho Hb; cbn [fold_left].
  - split_and!; [done|done| |done]. intros k. rewrite elem_of_nil. tauto.
  - cbn in Hv. apply NoDup_cons in Hv as [Hn Hv]. unfold apply_value at 2. cbn [fst snd].
    set (original1 := if dhas n original then original else dset n (dget n environ) original).
    assert (Hget : forall k, dget k original1 = if String.eqb k n then match dget n original with Some o => Some o | None => Some (dget n environ) end else dget k original).
    { intros k. subst original1. unfold dhas. destruct (String.eqb_spec k n) as [->|]; destruct (dget n original) eqn:E; try done; [by rewrite dget_dset_eq|by rewrite dget_dset_ne by congruence]. }
    specialize (IH original1 (dset n v environ) Hv (dset_NoDup _ _ _ He)). destruct (fold_left _ values _) as [o' e'].
    destruct IH as (H1 & H2 & H3 & H4).
    + intros k o. rewrite Hget. destruct (String.eqb_spec k n) as [->|]; [|apply Ho]. destruct (dget n original) as [x|] eqn:E; intros [= <-]; [by apply Ho|by apply Hb].
    + intros k. rewrite Hget. destruct (String.eqb_spec k n) as [->|]; [by destruct (dget n original)|]. rewrite dget_dset_ne by congruence. apply Hb.
    + split_and!; [done|done| |].
      * intros k. rewrite H3, Hget. cbn. rewrite elem_of_cons. destruct (String.eqb_spec k n) as [->|]; [|by intuition].
        split; intros _; [right; by left|left]. by destruct (dget n original).
      * intros k. rewrite H4. cbn. destruct (String.eqb_spec k n) as [->|Hne].
        -- rewrite (proj2 (dget_None_not_in _ _) Hn). by rewrite dget_dset_eq.
        -- by rewrite dget_dset_ne by congruence.
Qed.

Lemma reload_overlay base values values' r environ : NoDup (dkeys values') -> overlay base values r environ ->
  exists r' environ', reload values' r environ = Ok (r', environ') /\ overlay base values' r' environ'.
Proof.
  intros Hn [K E O L C]. unfold reload. set (gone := List.filter _ (rl_loaded r)).
  destruct (restore_names base (rl_original r) gone O environ) as (e1 & -> & K1 & G1); [|done|].
  { apply Forall_forall. intros k Hk. apply list_elem_of_In, filter_In in Hk as [Hk _]. apply L. by apply list_elem_of_In. }
  assert (Hgone : forall k, name_in k gone = true <-> k ∈ dkeys values /\ dget k values' = None).
  { intros k. rewrite name_in_spec. subst gone. rewrite C. rewrite !list_elem_of_In, filter_In. unfold dhas. destruct (dget k values'); naive_solver. }
  assert (Hb : forall k, dget k (rl_original r) = None -> dget k e1 = base k).
  { intros k Hk. rewrite G1. destruct (name_in k gone) eqn:Eg; [done|]. rewrite E. destruct (dget k values) as [v|] eqn:Ev; [|done].
    exfalso. apply (L k); [|done]. rewrite C. apply dget_Some_in in Ev. apply list_elem_of_fmap. by exists (k, v). }
  cbn [res_bind]. pose proof (apply_values base values' (rl_original r) e1 Hn K1 O Hb) as Ha.
  revert Ha. destruct (fold_left apply_value values' (rl_original r, e1)) as [o2 e2].
  intros (H1 & H2 & H3 & H4).
  eexists _, _. split; [reflexivity|]. split; simpl; [done| |done| |done].
  - intros k. rewrite H4, G1. destruct (dget k values') as [v|] eqn:Ev; [done|]. destruct (name_in k gone) eqn:Eg; [done|]. rewrite E.
    destruct (dget k values) as [v|] eqn:Ev'; [|done]. assert (Hbad : name_in k gone = true); [|congruence].
    apply Hgone. split; [|done]. apply dget_Some_in in Ev'. apply list_elem_of_fmap. by exists (k, v).
  - intros k Hk. apply H3. by right.
Qed.

(** Reloading the files one after the other. *)
Fixpoint reload_all (files : list (list (string * string))) (r : Reloader) (environ : Environ) : res (Reloader * Environ) :=
  match files with [] => Ok (r, environ) | values :: rest => x <~ reload values r environ ;; reload_all rest (fst x) (snd x) end.

(** C28: whatever contents .env has had, after a reload the environment is the one
    the process started with, with the values of the last contents over it: a
    variable that was deleted from the file has its original value again, or none
    when it had none; no reload fails. *)
Theorem environment_follows_dotenv environ files last_values : NoDup (dkeys environ) -> Forall (fun values => NoDup (dkeys values)) (files ++ [last_values]) ->
  exists r environ', reload_all (files ++ [last_values]) new_reloader environ = Ok (r, environ') /\ rl_loaded r = dkeys last_values /\
    forall k, dget k environ' = match dget k last_values with Some v => Some v | None => dget k environ end.
Proof.
  intros He Hf. assert (H0 : overlay (fun k => dget k environ) [] new_reloader environ) by (split; try done; by intros k ?%elem_of_nil).
  assert (Hgo : forall files values r e, overlay (fun k => dget k environ) values r e -> Forall (fun values => NoDup (dkeys values)) files ->
    exists r' e', reload_all files r e = Ok (r', e') /\ overlay (fun k => dget k environ) (default values (last files)) r' e').
  { clear. induction files as [|v files IH]; intros values r e Ho Hf; [by exists r, e|]. inversion Hf as [|? ? Hv Hf']; subst. cbn [reload_all].
    destruct (reload_overlay _ _ v _ _ Hv Ho) as (r1 & e1 & -> & Ho1). cbn [res_bind fst snd]. destruct (IH v r1 e1 Ho1 Hf') as (r' & e' & -> & Ho').
    exists r', e'. split; [done|]. rewrite last_cons. by destruct (last files). }
  destruct (Hgo _ _ _ _ H0 Hf) as (r & e & -> & Ho). rewrite last_snoc in Ho. exists r, e. split_and!; [done|apply Ho|apply Ho].
Qed.

Lemma environment_follows_dotenv_witness :
  exists r environ', reload_all [[("A", "1"); ("B", "2")]; [("B", "3")]] new_reloader [("A", "0"); ("C", "9")] = Ok (r, environ') /\
    rl_loaded r = ["B"] /\ forall k, dget k environ' = match dget k [("B", "3")] with Some v => Some v | None => dget k [("A", "0"); ("C", "9")] end.
Proof.
  apply (environment_follows_dotenv [("A", "0"); ("C", "9")] [[("A", "1"); ("B", "2")]] [("B", "3")]);
    [by apply (bool_decide_unpack (NoDup ["A"; "C"]))|].
  by apply (bool_decide_unpack (Forall (fun values : list (string * string) => NoDup (dkeys values)) [[("A", "1"); ("B", "2")]; [("B", "3")]])).
Defined.

(** ** A saved document loads *)

Lemma res_map_in {A B} (f : A -> res B) l l' x : res_map f l = Ok l' -> x ∈ l -> exists y, f x = Ok y.
Proof.
  intros H Hx. apply res_map_Forall2 in H. apply list_elem_of_lookup in Hx as [i Hi]. destruct (Forall2_lookup_l _ _ _ _ _ H Hi) as (y & _ & Hy). by exists y.
Qed.

Lemma name_char c : (alnum c || one_of ["."; "_"; "-"]%char c) = true -> is_space c = false.
Proof. destruct c as [[] [] [] [] [] [] [] []]; vm_compute; done. Qed.

Lemma rstrip_chars p s : all_chars (fun c => negb (p c)) s = true -> rstrip_by p s = s.
Proof.
  induction s as [|c s IH]; [done|]. cbn. intros [Hc Hs]%andb_true_iff. rewrite (IH Hs). apply negb_true_iff in Hc. rewrite Hc. by destruct s.
Qed.

Lemma strip_name s : provider_name s = true -> strip s = s.
Proof.
  intros Hs. assert (Ha : all_chars (fun c => negb (is_space c)) s = true).
  { destruct s as [|c s]; [done|]. cbn in *. apply andb_true_iff in Hs as [Hc Hs]. rewrite (name_char c) by (by rewrite Hc). simpl.
    revert Hs. clear. induction s as [|c s IH]; [done|]. cbn. intros [Hc Hs]%andb_true_iff. rewrite (name_char c) by done. by apply IH. }
  unfold strip, strip_by. replace (lstrip_by is_space s) with s; [by apply rstrip_chars|].
  destruct s as [|c s]; [done|]. cbn in *. apply andb_true_iff in Ha as [Hc _]. apply negb_true_iff in Hc. by rewrite Hc.
Qed.

Definition names_ok (providers : cdict) : Prop := Forall (fun kv => provider_name (fst kv) = true) providers.

Lemma named providers s : names_ok providers -> dhas s providers = true -> string_in (JStr s) = Some s.
Proof.
  intros Hn Hs. unfold dhas in Hs. destruct (dget s providers) as [j|] eqn:E; [|done]. apply dget_Some_in in E.
  unfold names_ok in Hn. rewrite Forall_forall in Hn. specialize (Hn _ E). simpl in Hn. cbn. rewrite (strip_name s Hn). by destruct s.
Qed.

(** A block that names configured providers, or none. *)
Definition routes_ok (providers route : cdict) : Prop :=
  forall field, field ∈ ROUTE_FIELDS -> jget field route = JNull \/ exists s, jget field route = JStr s /\ (s = "" \/ dhas s providers = true).

Lemma validate_routes_ok route providers path u : validate_routes route providers path ROUTE_FIELDS = Ok u -> routes_ok providers route.
Proof.
  assert (Hgo : forall fields, validate_routes route providers path fields = Ok u ->
    forall field, field ∈ fields -> jget field route = JNull \/ exists s, jget field route = JStr s /\ (s = "" \/ dhas s providers = true)).
  { induction fields as [|f fields IH]; intros H field Hf; [by apply elem_of_nil in Hf|]. cbn [validate_routes] in H. apply elem_of_cons in Hf as [->|Hf].
    - destruct (jget f route) as [| | | |s| |] eqn:E; try done; [by left|]. right. exists s. split; [done|].
      destruct (nonempty s) eqn:Es; [|left; by apply nonempty_false]. simpl in H. right. by destruct (dhas s providers).
    - apply IH; [|done]. destruct (jget f route) as [| | | |s| |]; try done. by destruct (negb (nonempty s) || dhas s providers). }
  intros H field. by apply Hgo.
Qed.

(** The first block that names a provider. *)
Definition route_value (field : string) (route : cdict) : option string :=
  match jget field route with JStr s => if nonempty s then Some s else None | _ => None end.
Definition choice (field : string) (sources : list (string * cdict)) : option string := head (omap (fun x => route_value field (snd x)) sources).

Lemma first_field_choice providers field sources : names_ok providers -> field ∈ ROUTE_FIELDS -> Forall (fun x => routes_ok providers (snd x)) sources ->
  first_field field sources = Ok (choice field sources) /\ forall s, choice field sources = Some s -> dhas s providers = true.
Proof.
  intros Hn Hf. unfold choice. induction sources as [|[label route] sources IH]; intros Hs; [done|]. inversion Hs as [|? ? H1 H2]; subst.
  specialize (IH H2). simpl in H1. cbn [first_field omap list_omap snd].
  assert (Hcase : (jget field route = JNull \/ jget field route = JStr "") /\ route_value field route = None \/
    exists s, jget field route = JStr s /\ s <> "" /\ route_value field route = Some s /\ dhas s providers = true).
  { unfold route_value. destruct (H1 field Hf) as [E|(s & E & [->|Hd])]; rewrite E; [left; by auto..|]. destruct s as [|c s]; [left; by auto|]. right. by eexists. }
  destruct Hcase as [[[E|E] ->]|(s & E & Hne & -> & Hd)]; rewrite E; [done|done|].
  rewrite bool_decide_false by congruence. rewrite (named providers) by done. cbn. split; [done|]. by intros s' [= <-].
Qed.

(** What validation establishes. *)
Record validated (document : cdict) (pd : ProviderDocument) : Prop := {
  vd_read : read_config document = Ok pd;
  vd_names : names_ok (pd_providers pd);
  vd_entries : forall name j, dget name (pd_providers pd) = Some j ->
    exists d m, j = JObj d /\ validate_provider (name, j) = Ok tt /\ string_in (jget "model" d) = Some m;
  vd_default : dhas (pd_default pd) (pd_providers pd) = true;
  vd_subagent : routes_ok (pd_providers pd) (pd_subagent pd);
  vd_main : routes_ok (pd_providers pd) (pd_main_agent pd);
  vd_roles : forall r route, jget r (pd_roles pd) = JObj route -> routes_ok (pd_providers pd) route;
}.

Lemma read_config_spec document pd : read_config document = Ok pd ->
  jget "main_agent" document = JObj (pd_main_agent pd) /\ get_or "subagent" document (JObj []) = JObj (pd_subagent pd) /\
  get_or "subagent_roles" document (JObj []) = JObj (pd_roles pd) /\ jget "providers" document = JObj (pd_providers pd) /\
  dhas (pd_default pd) (pd_providers pd) = true.
Proof.
  unfold read_config. destruct (jget "main_agent" document) as [| | | | | |m]; try done. destruct (get_or "subagent" document _) as [| | | | | |s]; try done.
  destruct (get_or "subagent_roles" document _) as [| | | | | |r]; try done. destruct (check_roles r); [|done]. cbn [res_bind].
  destruct (string_in _) as [p|]; [|done]. destruct (jget "providers" document) as [| | | | | |ps]; try done. destruct (dhas p ps) eqn:E; [|done]. by intros [= <-].
Qed.

Lemma validate_provider_name name j u : validate_provider (name, j) = Ok u -> provider_name name = true /\ validate_provider (name, j) = Ok tt.
Proof. destruct u. intros H. split; [|done]. unfold validate_provider in H. by destruct (provider_name name). Qed.

Lemma validated_document document u : validate_provider_document document = Ok u -> exists pd, validated document pd.
Proof.
  unfold validate_provider_document, load_model_options. destruct (read_config document) as [pd|] eqn:Er; [|done]. cbn [res_bind].
  destruct (res_map _ (dkeys (pd_providers pd))) as [models|] eqn:Em; [|done]. cbn [res_bind fst snd]. destruct (negb _); [done|].
  destruct (read_config_spec _ _ Er) as (Hm & Hs & Hr & Hp & Hd). rewrite Hp, Hr.
  destruct (res_map validate_provider _) as [vs|] eqn:Ev; [|done]. cbn [res_bind].
  destruct (res_map (validate_route_of document _) _) as [rs|] eqn:Et; [|done]. cbn [res_bind].
  destruct (res_map (validate_role_route _) _) as [ss|] eqn:El; [|done]. intros _. exists pd. split; [done| | |done| | |].
  - apply Forall_forall. intros [name j] Hin. destruct (res_map_in _ _ _ _ Ev Hin) as [y Hy]. by apply validate_provider_name in Hy as [? _].
  - intros name j Hj. pose proof (dget_Some_in _ _ _ Hj) as Hin. destruct (res_map_in _ _ _ _ Ev Hin) as [y Hy]. apply validate_provider_name in Hy as [_ Hy].
    destruct (res_map_in _ _ _ name Em) as [x Hx]; [apply list_elem_of_fmap; by exists (name, j)|]. unfold provider_entry, jget in Hx. rewrite Hj in Hx. simpl in Hx.
    destruct j as [| | | | | |d]; try done. cbn [res_bind] in Hx. unfold model_name in Hx. destruct (string_in _) as [m|] eqn:Es; [|done]. by exists d, m.
  - destruct (res_map_in _ _ _ "subagent" Et) as [x Hx]; [by right; left|]. unfold validate_route_of in Hx. rewrite Hs in Hx. by eapply validate_routes_ok.
  - destruct (res_map_in _ _ _ "main_agent" Et) as [x Hx]; [by left|]. unfold validate_route_of, get_or in Hx. unfold jget in Hm.
    destruct (dget "main_agent" document) as [j|]; [|done]. cbn [default from_option] in Hm, Hx. unfold id in Hm, Hx. subst j. by eapply validate_routes_ok.
  - intros r route Hj. unfold jget in Hj. destruct (dget r (pd_roles pd)) as [j|] eqn:Ej; [|done]. simpl in Hj. subst j. apply dget_Some_in in Ej.
    destruct (res_map_in _ _ _ _ El Ej) as [x Hx]. unfold validate_role_route in Hx. cbn [fst snd] in Hx. by eapply validate_routes_ok.
Qed.

(** The variable a provider's key refers to is set. *)
Definition key_set (environ : string -> option string) (d : cdict) : Prop :=
  forall k v, string_in (jget "key" d) = Some k -> env_reference k = Some v -> nonempty v = true /\ exists x, environ v = Some x /\ nonempty x = true.

Lemma connection_ok environ providers name d m : dget name providers = Some (JObj d) -> validate_provider (name, JObj d) = Ok tt ->
  string_in (jget "model" d) = Some m -> ("reasoning_parameters", JNull) ∉ d -> key_set environ d ->
  exists c, connection environ providers name = Ok c /\ mo_model c = m.
Proof.
  intros Hg Hv Hm Hnull Hk. unfold connection, provider_entry, jget at 1. rewrite Hg. cbn [default from_option id res_bind]. unfold model_name. rewrite Hm. cbn [res_bind].
  unfold validate_provider in Hv. destruct (negb (provider_name name)); [done|]. destruct (blank_or_not_string (jget "url" d)) eqn:Eu; [done|].
  destruct (blank_or_not_string (jget "key" d)) eqn:Ek; [done|]. destruct (not_positive (jget "max_context_tokens" d)) eqn:El; [done|].
  assert (Hstr : forall field, blank_or_not_string (jget field d) = false -> exists o, provider_string d field name = Ok o /\ o = string_in (jget field d)).
  { intros field H. unfold provider_string. unfold blank_or_not_string in H. destruct (jget field d) as [| | | | | |] eqn:E; try done; [by eexists|].
    apply bool_decide_eq_false in H. destruct (string_in (JStr s)) eqn:Es; [by eexists|done]. }
  destruct (Hstr "url" Eu) as (url & -> & _). destruct (Hstr "key" Ek) as (key & -> & Hkey). cbn [res_bind].
  assert (Hpos : exists z, provider_positive d "max_context_tokens" name = Ok z).
  { unfold provider_positive. unfold not_positive in El. destruct (jget "max_context_tokens" d); try done; [by eexists|]. rewrite El. by eexists. }
  destruct Hpos as [z ->]. cbn [res_bind]. destruct (optional_effort _) as [e|]; [|done]. cbn [res_bind] in *.
  assert (Hpar : exists p, match get_or "reasoning_parameters" d (JObj []) with JObj x => validate_reasoning_parameters x
     | _ => value_error ("provider '" +:+ name +:+ "' field 'reasoning_parameters' must be an object") end = Ok p).
  { unfold get_or. unfold jget in Hv. destruct (dget "reasoning_parameters" d) as [j|] eqn:Ej; [|by eexists]. simpl in *.
    destruct j as [| | | | | |x]; try done; [by apply dget_Some_in in Ej|]. destruct (validate_reasoning_parameters x); [by eexists|done]. }
  destruct Hpar as [p ->]. cbn [res_bind]. destruct (match jget "reasoning_parameters" d with JNull => _ | JObj _ => _ | _ => _ end); [|done]. cbn [res_bind] in Hv.
  destruct (check_api _) as [api|]; [|done]. cbn [res_bind] in *.
  assert (Hpk : exists o, provider_key environ name key = Ok o).
  { unfold provider_key. destruct key as [k|]; [|by eexists]. destruct (env_reference k) as [v|] eqn:Ev; [|by eexists].
    destruct (Hk k v (eq_sym Hkey) Ev) as (-> & x & -> & ->). by eexists. }
  destruct Hpk as [o ->]. cbn [res_bind]. by eexists.
Qed.

(** No entry has a null in the place of its reasoning parameters. *)
Definition no_null (document : cdict) : Prop :=
  forall providers name d, jget "providers" document = JObj providers -> (name, JObj d) ∈ providers -> ("reasoning_parameters", JNull) ∉ d.

Definition loadable (document : cdict) : Prop := validate_provider_document document = Ok tt /\ no_null document.

(** The provider an agent gets: the one of its role, then of the subagents, then the
    one that is asked for, then the default. *)
Definition provider_of (pd : ProviderDocument) (provider role : option string) : string :=
  match choice "provider" (match role with
                           | None => []
                           | Some r => match jget r (pd_roles pd) with JObj settings => [("subagent_roles." +:+ r, settings)] | _ => [] end ++ [("subagent", pd_subagent pd)]
                           end) with
  | Some c => c
  | None => default (pd_default pd) provider
  end.

Definition keys_set (environ : string -> option string) (pd : ProviderDocument) : Prop :=
  forall name d, dget name (pd_providers pd) = Some (JObj d) -> key_set environ d.

Lemma loadable_loads document environ provider role : loadable document -> exists pd, read_config document = Ok pd /\
  (keys_set environ pd -> (forall p, provider = Some p -> dhas p (pd_providers pd) = true) ->
   exists c, load_config_with_name environ document provider role = Ok (provider_of pd provider role, c)).
Proof.
  intros [Hv Hnull]. apply validated_document in Hv as [pd V]. exists pd. split; [apply V|]. intros Hkeys Hp.
  unfold load_config_with_name. rewrite (vd_read _ _ V). cbn [res_bind]. unfold resolve_field.
  set (sources := match role with None => [] | Some r => _ end).
  assert (Hs : Forall (fun x => routes_ok (pd_providers pd) (snd x)) sources).
  { subst sources. destruct role as [r|]; [|constructor]. apply Forall_app. split; [|constructor; [apply V|constructor]].
    destruct (jget r (pd_roles pd)) eqn:E; try constructor; [|constructor]. by eapply vd_roles. }
  assert (Happ : first_field "provider" (sources ++ [("main_agent", [])]) = first_field "provider" sources).
  { clear. induction sources as [|[label route] sources IH]; [done|]. cbn [app first_field]. rewrite IH. done. }
  destruct (first_field_choice (pd_providers pd) "provider" sources (vd_names _ _ V)) as [Hf Hd]; [by left|done|].
  match goal with |- context [first_field "provider" ?l] => replace (first_field "provider" l) with (Ok (choice "provider" sources)) by (rewrite <- Hf; symmetry; apply Happ) end.
  cbn [res_bind]. unfold provider_of. fold sources.
  assert (Hin : dhas (match choice "provider" sources with Some c => c | None => default (pd_default pd) provider end) (pd_providers pd) = true).
  { destruct (choice "provider" sources) as [c|]; [by apply Hd|]. destruct provider as [p|]; [by apply Hp|apply V]. }
  set (chosen := match choice "provider" sources with Some c => c | None => _ end) in *. unfold dhas in Hin.
  destruct (dget chosen (pd_providers pd)) as [j|] eqn:Ej; [|done]. destruct (vd_entries _ _ V _ _ Ej) as (d & m & -> & He & Hm).
  destruct (connection_ok environ (pd_providers pd) chosen d m Ej He Hm) as (c & -> & _); [|by eapply Hkeys|by exists c].
  destruct (read_config_spec _ _ (vd_read _ _ V)) as (_ & _ & _ & Hpr & _). eapply Hnull; [done|]. by eapply dget_Some_in.
Qed.

(** ** Saving *)

Definition plain_entry (d : cdict) : Prop := ("reasoning_parameters", JNull) ∉ d.

Lemma plain_dset k v d : v <> JNull -> plain_entry d -> plain_entry (dset k v d).
Proof. intros Hv Hd Hin. apply dset_in in Hin as [[= <- <-]|Hin]; done. Qed.
Lemma plain_dpop k d : plain_entry d -> plain_entry (dpop k d).
Proof. intros Hd Hin. by apply dpop_in in Hin. Qed.
Lemma plain_put {A} (f : A -> json) k v d : (forall x, f x <> JNull) -> plain_entry d -> plain_entry (put f k v d).
Proof. intros Hf Hd. destruct v; [by apply plain_dset|by apply plain_dpop]. Qed.
Lemma plain_put_if {A} (f : A -> json) b k v d : (forall x, f x <> JNull) -> plain_entry d -> plain_entry (put_if b f k v d).
Proof. intros Hf Hd. destruct b; [by apply plain_put|done]. Qed.

Lemma plain_fields payload p d : plain_entry d -> plain_entry (provider_fields payload p d).
Proof. intros Hd. unfold provider_fields. repeat (apply plain_put_if; [done|]). repeat (apply plain_put; [done|]). by apply plain_dset. Qed.

Lemma plain_key id action d x : key_change id action d = Ok x -> plain_entry d -> plain_entry (fst x).
Proof.
  unfold key_change. intros H Hd. destruct action as [|j|]; [by injection H as <-| |injection H as <-; by apply plain_dpop].
  destruct j as [| | | |v| |]; try done. destruct (negb (nonempty v)); [done|]. destruct (has_char LF v || has_char CR v); [done|]. injection H as <-. by apply plain_dset.
Qed.

Lemma jget_dset_ne k k' v (d : cdict) : k <> k' -> jget k' (dset k v d) = jget k' d.
Proof. intros H. unfold jget. by rewrite dget_dset_ne. Qed.
Lemma jget_dset_eq k v (d : cdict) : jget k (dset k v d) = v.
Proof. unfold jget. by rewrite dget_dset_eq. Qed.

Lemma change_provider_loadable document id payload x : change_provider document id payload = Ok x -> no_null document -> loadable (fst x).
Proof.
  unfold change_provider. destruct (negb (provider_name id)); [done|]. destruct payload as [| | | | | |payload]; try done.
  destruct (read_provider_payload payload) as [p|]; [|done]. cbn [res_bind]. destruct (jget "providers" document) as [| | | | | |providers] eqn:Ep; try done.
  intros H Hnull.
  assert (Hex : exists existing, match jget id providers with JNull => Ok [] | JObj d => Ok d | _ => value_error ("provider '" +:+ id +:+ "' must be an object") end = Ok existing /\ plain_entry existing).
  { destruct (jget id providers) as [| | | | | |d] eqn:Ej; try done; [exists []; split; [done|by intros ?%elem_of_nil]|]. exists d. split; [done|].
    unfold jget in Ej. destruct (dget id providers) as [j|] eqn:Eg; [|done]. simpl in Ej. subst j. eapply Hnull; [done|]. by eapply dget_Some_in. }
  destruct Hex as (existing & Hex & Hplain). rewrite Hex in H. cbn [res_bind] in H. destruct (key_change id (pp_key p) _) as [c|] eqn:Ek; [|done]. cbn [res_bind] in H.
  apply plain_key in Ek; [|by apply plain_fields]. destruct (set_default payload id _) as [document'|] eqn:Es; [|done]. cbn [res_bind] in H.
  destruct (validate_provider_document document') as [[]|] eqn:Ev; [|done]. injection H as <-. split; [done|]. simpl.
  assert (Hp : jget "providers" document' = JObj (dset id (JObj (fst c)) providers)).
  { unfold set_default in Es. case_bool_decide; [|injection Es as <-; apply jget_dset_eq]. destruct (jget "main_agent" _) as [| | | | | |m]; try done.
    injection Es as <-. rewrite jget_dset_ne by done. apply jget_dset_eq. }
  intros ps name d Hps Hin. rewrite Hp in Hps. injection Hps as <-. apply dset_in in Hin as [[= -> ->]|Hin]; [done|]. by eapply Hnull.
Qed.

Lemma change_routing_loadable document payload document' : change_routing document payload = Ok document' -> no_null document -> loadable document'.
Proof.
  unfold change_routing. destruct payload as [| | | | | |payload]; try done. destruct (refuse_unknown "routing" _ _); [|done]. cbn [res_bind].
  destruct (jget "main_agent" document) as [| | | | | |main]; try done. destruct (jget "subagent" document) as [| | | | | |subagent]; try done.
  destruct (get_or "roles" payload _) as [| | | | | |roles]; try done. set (doc := dset "subagent_roles" _ _).
  destruct (validate_provider_document doc) as [[]|] eqn:Ev; [|done]. intros [= <-] Hnull. split; [done|].
  intros ps name d Hps. apply Hnull. rewrite <- Hps. symmetry. subst doc. by rewrite !jget_dset_ne.
Qed.

Section store.
Variable dotenv : string -> list (string * string).
Variable fingerprint : SettingsState -> string.
Variable check_root : cdict -> res unit.

(** The providers load and the agent settings were valid when they were saved. *)
Definition valid_settings (s : SettingsState) : Prop :=
  loadable (se_provider s) /\ exists environ, validate_agent_document check_root environ (se_agent s) = Ok tt.

Lemma reload_documents s : se_provider (fst (reload_environment dotenv s)) = se_provider s /\ se_agent (fst (reload_environment dotenv s)) = se_agent s.
Proof. unfold reload_environment. by destruct (reload _ _ _) as [[r e]|]. Qed.

Lemma snapshot_documents s : se_provider (fst (snapshot dotenv fingerprint s)) = se_provider s /\ se_agent (fst (snapshot dotenv fingerprint s)) = se_agent s.
Proof.
  pose proof (reload_documents s) as H. unfold snapshot, bind. destruct (reload_environment dotenv s) as [s1 [u|e]]; [|done]. simpl in H.
  cbn [get lift ret]. destruct (load_model_options _); [|done]. destruct (load_agent_config _ _); [|done]. destruct (provider_items _ _); [|done]. by destruct (routing_view _).
Qed.

Lemma snapshot_valid s : valid_settings s -> valid_settings (fst (snapshot dotenv fingerprint s)).
Proof. unfold valid_settings. destruct (snapshot_documents s) as [-> ->]. done. Qed.
Lemma reload_valid s : valid_settings s -> valid_settings (fst (reload_environment dotenv s)).
Proof. unfold valid_settings. destruct (reload_documents s) as [-> ->]. done. Qed.

Lemma serve_valid r s : valid_settings s -> valid_settings (fst (serve_settings dotenv fingerprint check_root r s)).
Proof.
  intros Hs. assert (Hrev : forall e, exists x, check_revision fingerprint e s = (s, x)).
  { intros [e|]; unfold check_revision; [destruct (String.eqb _ _)|]; by eexists. }
  destruct r as [|id payload e|payload e|payload e]; cbn [serve_settings]; [by apply snapshot_valid|..].
  - unfold save_provider, bind, get, lift, modify. destruct (Hrev e) as [[u|x] ->]; [|done].
    destruct (change_provider (se_provider s) id payload) as [c|] eqn:Ec; [|done]. apply change_provider_loadable in Ec; [|apply Hs].
    set (s1 := write_provider (fst c) (write_dotenv (snd c) s)). assert (H1 : valid_settings s1).
    { split; [done|]. destruct Hs as [_ Ha]. subst s1. unfold write_dotenv. by destruct (snd c) as [[n v]|]. }
    pose proof (reload_valid s1 H1) as H2. destruct (reload_environment dotenv s1) as [s2 [u2|e2]]; [|done]. by apply snapshot_valid.
  - unfold save_routing, bind, get, lift, modify. destruct (Hrev e) as [[u|x] ->]; [|done].
    destruct (change_routing (se_provider s) payload) as [d|] eqn:Ec; [|done]. apply change_routing_loadable in Ec; [|apply Hs]. apply snapshot_valid. by split; [|apply Hs].
  - unfold save_agent, bind, get, lift, modify. destruct (Hrev e) as [[u|x] ->]; [|done].
    destruct (change_agent check_root (environ_of s) (se_agent s) payload) as [d|] eqn:Ec; [|done]. apply snapshot_valid. split; [apply Hs|]. simpl.
    unfold change_agent in Ec. destruct payload as [| | | | | |payload]; try done. destruct (refuse_unknown "agent" _ _); [|done]. cbn [res_bind] in Ec.
    exists (environ_of s). destruct (validate_agent_document _ _ _) as [[]|] eqn:Ev; [|done]. by injection Ec as <-.
Qed.

(** Why a request is refused: the files have changed since the interface looked at
    them, or what it asks for is not valid. *)
Definition refusal {A} (expected : option string) (s : SettingsState) (c : res A) : option exn :=
  if match expected with Some x => negb (String.eqb x (fingerprint s)) | None => false end
  then Some (Exn EValueError "configuration changed; reload settings before saving")
  else match c with Ok _ => None | Err x => Some x end.
Definition refused (r : SettingsRequest) (s : SettingsState) : option exn :=
  match r with
  | Inspect => None
  | SaveProvider id payload e => refusal e s (change_provider (se_provider s) id payload)
  | SaveRouting payload e => refusal e s (change_routing (se_provider s) payload)
  | SaveAgent payload e => refusal e s (change_agent check_root (environ_of s) (se_agent s) payload)
  end.

Lemma refused_unchanged r s e : refused r s = Some e -> serve_settings dotenv fingerprint check_root r s = (s, Err e).
Proof.
  destruct r as [|id payload x|payload x|payload x]; [done|..]; cbn [refused serve_settings];
    unfold refusal, save_provider, save_routing, save_agent, bind, check_revision, get, lift, modify;
    (destruct x as [x|]; [destruct (String.eqb x (fingerprint s)); [simpl negb; cbn iota|by intros [= <-]]|]).
  1-2: destruct (change_provider _ _ _); [done|by intros [= <-]].
  1-2: destruct (change_routing _ _); [done|by intros [= <-]].
  all: destruct (change_agent _ _ _ _); [done|by intros [= <-]].
Qed.
End store.

Definition serve_all (dotenv : string -> list (string * string)) (fingerprint : SettingsState -> string) (check_root : cdict -> res unit)
    (requests : list SettingsRequest) (s : SettingsState) : SettingsState :=
  fold_left (fun s r => fst (serve_settings dotenv fingerprint check_root r s)) requests s.

(** C21: whatever interfaces save, the configuration stays one the runtime can start
    from: after any sequence of requests on a valid configuration the providers
    document is valid, and as long as the variables its keys refer to are set every
    role loads the provider the routes give it (its own, then that of the subagents,
    then the one asked for, then the default); and a request from a stale view or
    with invalid settings is an error that changes nothing. *)
Theorem settings_stay_valid dotenv fingerprint check_root requests s : valid_settings check_root s ->
  let s' := serve_all dotenv fingerprint check_root requests s in
  valid_settings check_root s' /\
  (forall environ provider role, exists pd, read_config (se_provider s') = Ok pd /\
     (keys_set environ pd -> (forall p, provider = Some p -> dhas p (pd_providers pd) = true) ->
      exists c, load_config_with_name environ (se_provider s') provider role = Ok (provider_of pd provider role, c))) /\
  (forall r e, refused fingerprint check_root r s' = Some e -> serve_settings dotenv fingerprint check_root r s' = (s', Err e)).
Proof.
  intros Hs s'. assert (Hv : valid_settings check_root s').
  { subst s'. unfold serve_all. revert s Hs. induction requests as [|r rs IH]; intros s Hs; cbn [fold_left]; [done|]. by apply IH, serve_valid. }
  split_and!; [done|intros environ provider role; apply loadable_loads; apply Hv|intros r e; apply refused_unchanged].
Qed.

(** A configuration with one provider. *)
Definition demo_provider_document : cdict :=
  [("main_agent", JObj [("provider", JStr "main")]); ("subagent", JObj []);
   ("providers", JObj [("main", JObj [("model", JStr "gpt"); ("key", JStr "${KEY}")]); ("fast", JObj [("model", JStr "mini")])])].
Definition demo_agent_document : cdict :=
  [("max_same_tool_calls", JInt 3); ("output_reserve_tokens", JInt 100); ("skills", JObj [("global_paths", JArr []); ("workspace_paths", JArr [])]);
   ("workspace_instruction_files", JArr [JStr "AGENTS.md"]); ("main_agent", JObj [("tools", JObj [("shell", JBool true)])]); ("mcp", JObj [])].
Definition demo_settings : SettingsState := MkSettings demo_provider_document demo_agent_document None new_reloader [("KEY", "k")].
Definition demo_routing : json := JObj [("main_agent", JStr "main"); ("roles", JObj [("helper", JObj [("provider", JStr "fast")])])].

Lemma settings_stay_valid_witness :
  let s' := serve_all (fun _ => []) (fun _ => "r") (fun _ => Ok tt) [SaveRouting demo_routing (Some "r"); SaveRouting demo_routing (Some "old"); SaveRouting JNull None] demo_settings in
  valid_settings (fun _ => Ok tt) s' /\
  (fst <$> (match load_config_with_name (environ_of s') (se_provider s') None (Some "helper") with Ok x => Some x | Err _ => None end)) = Some "fast".
Proof.
  intros s'. split; [|vm_compute; reflexivity].
  apply (settings_stay_valid (fun _ => []) (fun _ => "r") (fun _ => Ok tt) [SaveRouting demo_routing (Some "r"); SaveRouting demo_routing (Some "old"); SaveRouting JNull None] demo_settings).
  split; [split; [vm_compute; reflexivity|]|exists (fun _ => None); vm_compute; reflexivity].
  intros providers name d Hp Hin. injection Hp as <-. apply (bool_decide_unpack (("reasoning_parameters", JNull) ∉ d)).
  apply elem_of_cons in Hin as [[= -> ->]|Hin]; [vm_compute; exact I|]. apply elem_of_cons in Hin as [[= -> ->]|Hin]; [vm_compute; exact I|].
  by apply elem_of_nil in Hin.
Defined.

(** ** What is shown can be saved *)

Lemma dget_dmerge {V} (a b : list (string * V)) k : NoDup (dkeys b) -> dget k (dmerge a b) = match dget k b with Some v => Some v | None => dget k a end.
Proof.
  unfold dmerge. revert a. induction b as [|[k' v] b IH]; intros a Hn; [done|]. cbn in Hn. apply NoDup_cons in Hn as [Hk Hn]. cbn [fold_left fst snd]. rewrite IH by done.
  cbn. destruct (String.eqb_spec k k') as [->|Hne]; [by rewrite (proj2 (dget_None_not_in _ _) Hk), dget_dset_eq|by rewrite dget_dset_ne by congruence].
Qed.

Lemma enabled_tools_filter allowed d l : enabled_tools allowed d = Ok l -> l = List.filter (fun n => bool_decide (get_or n d (JBool false) = JBool true)) allowed.
Proof.
  revert l. induction allowed as [|n allowed IH]; intros l; cbn [enabled_tools List.filter]; [by intros [= <-]|].
  destruct (get_or n d (JBool false)) as [|b| | | | |]; try done. destruct (enabled_tools allowed d) as [l'|]; [|done]. intros [= <-].
  rewrite <- (IH l' eq_refl). destruct b; [by rewrite bool_decide_true|by rewrite bool_decide_false].
Qed.

Lemma enabled_tools_by g allowed d : Forall (fun n => get_or n d (JBool false) = JBool (g n)) allowed -> enabled_tools allowed d = Ok (List.filter g allowed).
Proof. induction 1 as [|n allowed Hn _ IH]; cbn [enabled_tools List.filter]; [done|]. rewrite Hn, IH. by destruct (g n). Qed.

Lemma switches_load allowed d l : enabled_tools allowed d = Ok l -> load_tool_config allowed (switches allowed l) = Ok l.
Proof.
  intros H. unfold load_tool_config, switches. set (sw := map _ allowed).
  assert (Hk : dkeys sw = allowed). { subst sw. unfold dkeys. rewrite map_map. apply map_id. }
  replace (unknown_keys allowed sw) with (@nil string).
  2:{ unfold unknown_keys. rewrite Hk. symmetry. destruct (List.filter _ allowed) as [|x r] eqn:E; [done|]. exfalso. assert (Hx : x ∈ List.filter (fun k => negb (name_in k allowed)) allowed) by (rewrite E; by left).
      apply elem_of_filter_bool in Hx as [Hx Hn]. apply name_in_spec in Hx. by rewrite Hx in Hn. }
  rewrite (enabled_tools_by (fun n => name_in n l)).
  - apply enabled_tools_filter in H. f_equal. etransitivity; [|symmetry; exact H]. apply filter_ext_in. intros n Hn. apply list_elem_of_In in Hn. apply eq_true_iff_eq.
    rewrite name_in_spec, H, elem_of_filter_bool. tauto.
  - apply Forall_forall. intros n Hn. unfold get_or. subst sw. clear Hk H. induction allowed as [|m allowed IH]; [by apply elem_of_nil in Hn|]. cbn.
    destruct (String.eqb_spec n m) as [->|Hne]; [done|]. apply elem_of_cons in Hn as [->|Hn]; [done|by apply IH].
Qed.

Lemma string_in_strip j s : string_in j = Some s -> string_in (JStr s) = Some s.
Proof. destruct j as [| | | |x| |]; try done. cbn. destruct (nonempty (strip x)) eqn:E; [|done]. intros [= <-]. by rewrite strip_idem, E. Qed.

Lemma distinct_again blank duplicate check l : forall seen r, distinct_strings blank duplicate check seen l = Ok r ->
  exists new, r = seen ++ new /\ distinct_strings blank duplicate check seen (map JStr new) = Ok r.
Proof.
  induction l as [|j l IH]; intros seen r; cbn [distinct_strings]; [intros [= <-]; exists []; by rewrite app_nil_r|].
  destruct (string_in j) as [s|] eqn:Es; [|done]. destruct (check s) as [u|] eqn:Ec; [|done]. cbn [res_bind]. destruct (name_in s seen) eqn:En; [done|].
  intros H. apply IH in H as (new & -> & H). exists (s :: new). split; [by rewrite <- app_assoc|]. cbn [map distinct_strings].
  by rewrite (string_in_strip _ _ Es), Ec, En.
Qed.

Lemma instruction_files_again v l : workspace_instruction_files v = Ok l -> workspace_instruction_files (JArr (map JStr l)) = Ok l.
Proof. unfold workspace_instruction_files. destruct v as [| | | | |x|]; try done. intros H. apply distinct_again in H as (new & -> & H). exact H. Qed.

Lemma switches_again path l x : tool_switches path l = Ok x -> tool_switches path (map (fun kv => (fst kv, JBool (snd kv))) x) = Ok x.
Proof.
  revert x. induction l as [|[t j] l IH]; intros x; cbn [tool_switches]; [by intros [= <-]|]. destruct (negb (nonempty (strip t))) eqn:E; [done|].
  destruct j as [|b| | | | |]; try done. destruct (tool_switches path l) as [y|]; [|done]. intros [= <-]. cbn [map fst snd tool_switches]. by rewrite E, (IH y eq_refl).
Qed.

Lemma selection_again path server v x : server_selection path server v = Ok x -> server_selection path server (selection_json x) = Ok x.
Proof.
  unfold server_selection. destruct (negb (nonempty (strip server))); [done|]. destruct v as [|b| | | | |d]; try done; [by intros [= <-]|].
  destruct d as [|kv d]; [done|]. destruct (tool_switches _ (kv :: d)) as [sw|] eqn:E; [|done]. cbn [res_bind]. destruct (all_alike sw) eqn:Ea; [|done]. intros [= <-].
  apply switches_again in E. cbn [selection_json]. destruct sw as [|s sw]; [done|]. cbn [map] in *. rewrite E. cbn [res_bind]. by rewrite Ea.
Qed.

Lemma res_map_again {A B} (f : string -> A -> res B) (g : B -> A) (d : list (string * A)) l :
  (forall k v x, f k v = Ok x -> f k (g x) = Ok x) ->
  res_map (fun kv => x <~ f (fst kv) (snd kv) ;; Ok (fst kv, x)) d = Ok l ->
  res_map (fun kv => x <~ f (fst kv) (snd kv) ;; Ok (fst kv, x)) (map (fun kv => (fst kv, g (snd kv))) l) = Ok l.
Proof.
  intros Hf. revert l. induction d as [|[k v] d IH]; intros l; cbn [res_map]; [by intros [= <-]|]. cbn [fst snd]. destruct (f k v) as [x|] eqn:E; [|done]. cbn [res_bind].
  destruct (res_map _ d) as [l'|]; [|done]. intros [= <-]. cbn [map res_map fst snd]. rewrite (Hf _ _ _ E). cbn [res_bind]. by rewrite (IH l' eq_refl).
Qed.

Lemma mcp_again v path l : subagent_mcp v path = Ok l -> subagent_mcp (JObj (map (fun kv => (fst kv, selection_json (snd kv))) l)) path = Ok l.
Proof. unfold subagent_mcp. destruct v as [| | | | | |d]; try done. apply res_map_again. intros k v x. apply selection_again. Qed.

Lemma positive_integer_bound d f p v z : positive_integer d f p v = Ok z -> (z <? 1) = false.
Proof. unfold positive_integer. destruct (get_or f d _); try done. destruct (z0 <? 1) eqn:E; [done|]. by intros [= <-]. Qed.

(** Every field of the new object is in the merged one. *)
Lemma merge_value_over v view : NoDup (dkeys view) ->
  exists x, merge_value v (JObj view) = JObj x /\ forall k j, dget k view = Some j -> dget k x = Some j.
Proof.
  intros Hn. unfold merge_value. destruct v as [| | | | | |c]; (eexists; split; [reflexivity|]); intros k j Hj; try done. by rewrite dget_dmerge, Hj.
Qed.

(** The view of a role over what the document has of it. *)
Definition role_over (current : option json) (r : SubagentRoleConfig) : json := match current with Some c => merge_value c (role_view r) | None => role_view r end.

Lemma role_again name v r current : subagent_role name v = Ok r -> subagent_role name (role_over current r) = Ok r.
Proof.
  unfold subagent_role. destruct (negb (nonempty (strip name))); [done|]. destruct v as [| | | | | |d]; try done.
  destruct (string_in (jget "description" d)) as [desc|] eqn:Ed; [|done]. destruct (boolean d "enabled" _ true) as [en|] eqn:Ee; [|done]. cbn [res_bind].
  destruct (load_tool_config ROLE_TOOL_NAMES _) as [tools|] eqn:Et; [|done]. cbn [res_bind]. destruct (subagent_mcp _ _) as [m|] eqn:Em; [|done]. intros [= <-].
  set (r := MkRoleConfig desc tools en m).
  assert (Hv : exists x, role_over current r = JObj x /\ forall k j, dget k (object_or_empty (role_view r)) = Some j -> dget k x = Some j).
  { unfold role_over. destruct current as [c|]; [|by eexists]. apply merge_value_over. by apply (bool_decide_unpack (NoDup ["enabled"; "description"; "tools"; "mcp"])). }
  destruct Hv as (x & -> & Hx). unfold jget, boolean, get_or.
  rewrite (Hx "description" _ eq_refl), (Hx "enabled" _ eq_refl), (Hx "tools" _ eq_refl), (Hx "mcp" _ eq_refl). cbn [default from_option id rc_description rc_enabled rc_tools rc_mcp r].
  rewrite (string_in_strip _ _ Ed). cbn [res_bind]. unfold load_tool_config in Et. destruct (get_or "tools" d _) as [| | | | | |td]; try done.
  destruct (unknown_keys _ td); [|done]. rewrite (switches_load _ _ _ Et). cbn [res_bind]. by rewrite (mcp_again _ _ _ Em).
Qed.

Lemma roles_again v l : subagent_roles v = Ok l -> subagent_roles (merge_roles v (JObj (map (fun kv => (fst kv, role_view (snd kv))) l))) = Ok l.
Proof.
  intros H. cbn [merge_roles]. unfold subagent_roles. unfold merge_entries. rewrite map_map. cbn [fst snd].
  change (res_map (fun kv => r <~ subagent_role (fst kv) (snd kv) ;; Ok (fst kv, r)) (map (fun kv => (fst kv, role_over (dget (fst kv) (object_or_empty v)) (snd kv))) l) = Ok l).
  generalize (object_or_empty v) as current. intros current. unfold subagent_roles in H. destruct v as [| | | | | |d]; try done; [by injection H as <-|].
  apply res_map_Forall2 in H. induction H as [|[k v] [k' r] d l Hr _ IH]; [done|]. cbn [map res_map fst snd] in *.
  destruct (subagent_role k v) as [r'|] eqn:E; [|done]. injection Hr as <- <-. rewrite (role_again _ _ _ _ E). cbn [res_bind]. by rewrite IH.
Qed.

Lemma context_again v x : context_config v = Ok x ->
  let '(enabled, trigger, keep, budget) := x in
  context_config (merge_context v (JObj [("compression", JObj
    [("enabled", JBool enabled); ("trigger_ratio", match trigger with Some bits => JFloat bits | None => JNull end);
     ("keep_recent_units", JInt keep); ("user_anchor_token_budget", JInt budget)])])) = Ok x.
Proof.
  destruct x as [[[enabled trigger] keep] budget]. intros H.
  assert (Hx : match trigger with Some b => (0 <? b) && (b <? ONE_BITS) = true | None => True end /\ (keep <? 1) = false /\ (budget <? 1) = false).
  { unfold context_config in H. destruct v as [| | | | | |d]; try done; [by injection H as <- <- <- <-|].
    destruct (jget "compression" d) as [| | | | | |c]; try done; [by injection H as <- <- <- <-|].
    destruct (boolean c "enabled" _ true); [|done]. cbn [res_bind] in H. unfold optional_ratio in H.
    destruct (jget "trigger_ratio" c) as [| | |bits| | |]; try done; [|destruct ((0 <? bits) && (bits <? ONE_BITS)) eqn:Eb; [|done]]; cbn [res_bind] in H;
      (destruct (positive_integer c "keep_recent_units" _ 6) eqn:E1; [|done]; cbn [res_bind] in H; destruct (positive_integer c "user_anchor_token_budget" _ 2000) eqn:E2; [|done];
       injection H as <- <- <- <-; split_and!; [done|by eapply positive_integer_bound|by eapply positive_integer_bound]). }
  destruct Hx as (Ht & Hk & Hb). set (view := [("enabled", JBool enabled); _; _; _]).
  assert (Hv : exists m x, merge_context v (JObj [("compression", JObj view)]) = JObj m /\ jget "compression" m = JObj x /\ forall k j, dget k view = Some j -> dget k x = Some j).
  { set (compression := merge_value (match v with JObj c => jget "compression" c | _ => JNull end) (JObj view)).
    exists (dset "compression" compression (match v with JObj c => dmerge c [("compression", JObj view)] | _ => [("compression", JObj view)] end)).
    assert (Hc : exists x, compression = JObj x /\ forall k j, dget k view = Some j -> dget k x = Some j).
    { apply merge_value_over. by apply (bool_decide_unpack (NoDup ["enabled"; "trigger_ratio"; "keep_recent_units"; "user_anchor_token_budget"])). }
    destruct Hc as (x & Hc & Hx). exists x. rewrite jget_dset_eq. split_and!; [reflexivity|done|done]. }
  destruct Hv as (m & x & -> & Hm & Hx). unfold context_config. rewrite Hm. unfold boolean, optional_ratio, positive_integer, get_or, jget.
  rewrite (Hx "enabled" _ eq_refl), (Hx "trigger_ratio" _ eq_refl), (Hx "keep_recent_units" _ eq_refl), (Hx "user_anchor_token_budget" _ eq_refl).
  cbn [default from_option id res_bind]. rewrite Hk, Hb. destruct trigger as [bits|]; [|done]. by rewrite Ht.
Qed.

Lemma memory_again v x : memory_config v = Ok x ->
  let '(enabled, g, w) := x in
  memory_config (merge_value v (JObj [("enabled", JBool enabled); ("global_max_tokens", JInt g); ("workspace_max_tokens", JInt w)])) = Ok x.
Proof.
  destruct x as [[enabled g] w]. intros H.
  assert (Hx : (g <? 1) = false /\ (w <? 1) = false).
  { unfold memory_config in H. destruct v as [| | | | | |d]; try done; [by injection H as <- <- <-|]. destruct (boolean d "enabled" _ true); [|done]. cbn [res_bind] in H.
    destruct (positive_integer d "global_max_tokens" _ _) eqn:E1; [|done]. cbn [res_bind] in H. destruct (positive_integer d "workspace_max_tokens" _ _) eqn:E2; [|done].
    injection H as <- <- <-. split; by eapply positive_integer_bound. }
  destruct Hx as (Hg & Hw). set (view := [("enabled", JBool enabled); _; _]).
  assert (Hv : exists x, merge_value v (JObj view) = JObj x /\ forall k j, dget k view = Some j -> dget k x = Some j).
  { apply merge_value_over. by apply (bool_decide_unpack (NoDup ["enabled"; "global_max_tokens"; "workspace_max_tokens"])). }
  destruct Hv as (x & -> & Hx). unfold memory_config, boolean, positive_integer, get_or.
  rewrite (Hx "enabled" _ eq_refl), (Hx "global_max_tokens" _ eq_refl), (Hx "workspace_max_tokens" _ eq_refl). cbn [default from_option id res_bind]. by rewrite Hg, Hw.
Qed.

Lemma mcp_config_again environ v c : load_mcp_config environ v = Ok c -> load_mcp_config environ (merge_mcp v (JBool (mcp_enabled c))) = Ok c.
Proof.
  unfold load_mcp_config. destruct v as [| | | | | |d]; try done; [by intros [= <-]|]. cbn [merge_mcp].
  unfold reject_unknown. destruct (unknown_keys ["enabled"; "servers"] d) eqn:Eu; [|done]. cbn [res_bind]. unfold boolean at 1.
  destruct (get_or "enabled" d _) as [|b| | | | |]; try done. cbn [res_bind]. destruct (get_or "servers" d _) as [| | | | | |servers] eqn:Es; try done.
  destruct (res_map _ servers) as [l|] eqn:El; [|done]. intros [= <-]. cbn [mcp_enabled].
  replace (unknown_keys ["enabled"; "servers"] (dset "enabled" (JBool b) d)) with (@nil string).
  - cbn [res_bind]. unfold boolean, get_or. rewrite dget_dset_eq, dget_dset_ne by done. cbn [default from_option id res_bind].
    unfold get_or in Es. rewrite Es, El. done.
  - symmetry. unfold unknown_keys in *. rewrite dkeys_dset. destruct (dhas "enabled" d); [done|]. by rewrite List.filter_app, Eu.
Qed.

Lemma change_field_some field target change payload document j : dget field payload = Some j ->
  change_field field target change payload document = dset target (change (jget target document) j) document.
Proof. unfold change_field. by intros ->. Qed.

Lemma required_positive_bound d f z : required_positive d f = Ok z -> (z <? 1) = false.
Proof. unfold required_positive. destruct (jget f d); try done. destruct (z0 <? 1) eqn:E; [done|]. by intros [= <-]. Qed.

Lemma optional_positive_bound d f z : optional_positive d f = Ok (Some z) -> (z <? 1) = false.
Proof. unfold optional_positive. destruct (jget f d); try done. destruct (z0 <? 1) eqn:E; [done|]. by intros [= <-]. Qed.

Lemma main_tools_again v l : main_agent_tools v = Ok l -> main_agent_tools (merge_tools v (switches TOOL_NAMES l)) = Ok l.
Proof.
  unfold main_agent_tools, merge_tools, load_tool_config at 1. destruct v as [| | | | | |d]; try done. destruct (jget "tools" d) as [| | | | | |td]; try done.
  destruct (unknown_keys _ td); [|done]. intros H. cbn [object_or_empty]. rewrite jget_dset_eq. by eapply switches_load.
Qed.

Ltac fields := repeat first [rewrite jget_dset_eq | rewrite jget_dset_ne by done].



(** ** What is not shown *)

(** Two values of a key that cannot be told apart: the same reference, or both written
    in the file, or both missing. *)
Definition key_alike (j j' : json) : Prop := environment_reference j = environment_reference j' /\ truthy j = truthy j'.
Definition entry_alike (x x' : string * json) : Prop :=
  fst x = fst x' /\
  match snd x, snd x' with
  | JObj d, JObj d' => (forall k, k <> "key" -> dget k d = dget k d') /\ key_alike (jget "key" d) (jget "key" d')
  | j, j' => j = j'
  end.
(** The documents differ in the secrets of their providers only. *)
Definition documents_alike (document document' : cdict) : Prop :=
  (forall k, k <> "providers" -> dget k document = dget k document') /\
  match jget "providers" document, jget "providers" document' with
  | JObj p, JObj p' => Forall2 entry_alike p p'
  | j, j' => j = j'
  end.
(** The same variables are set. *)
Definition environments_alike (env env' : string -> option string) : Prop :=
  forall k, match env k with Some v => nonempty v | None => false end = match env' k with Some v => nonempty v | None => false end.

Lemma alike_get p p' : Forall2 entry_alike p p' -> forall name,
  match dget name p, dget name p' with Some j, Some j' => entry_alike (name, j) (name, j') | None, None => True | _, _ => False end.
Proof.
  induction 1 as [|[k j] [k' j'] p p' He _ IH]; intros name; [done|]. cbn. destruct He as [Hk He]. simpl in Hk. subst k'.
  destruct (String.eqb name k); [by split|apply IH].
Qed.

Lemma alike_keys p p' : Forall2 entry_alike p p' -> dkeys p = dkeys p'.
Proof. induction 1 as [|x x' p p' [He _] _ IH]; [done|]. unfold dkeys in *. cbn. by rewrite He, IH. Qed.

Lemma alike_options document document' : documents_alike document document' -> load_model_options document = load_model_options document'.
Proof.
  intros [Hd Hp].
  assert (Hj : forall k v, k <> "providers" -> jget k document' = jget k document /\ get_or k document' v = get_or k document v).
  { intros k v Hk. unfold jget, get_or. by rewrite (Hd k Hk). }
  unfold load_model_options, read_config. destruct (Hj "main_agent" JNull) as [-> _]; [done|]. destruct (Hj "subagent" (JObj [])) as [_ ->]; [done|].
  destruct (Hj "subagent_roles" (JObj [])) as [_ ->]; [done|].
  destruct (jget "main_agent" document) as [| | | | | |m]; try done. destruct (get_or "subagent" document _) as [| | | | | |sub]; try done.
  destruct (get_or "subagent_roles" document _) as [| | | | | |roles]; try done. destruct (check_roles roles); [|done]. cbn [res_bind].
  destruct (string_in (jget "provider" m)) as [p|]; [|done].
  destruct (jget "providers" document) as [| | | | | |ps], (jget "providers" document') as [| | | | | |ps']; try done.
  pose proof (alike_get _ _ Hp) as Hg. assert (Hh : dhas p ps = dhas p ps').
  { specialize (Hg p). unfold dhas. by destruct (dget p ps), (dget p ps'). }
  rewrite Hh. destruct (dhas p ps'); [|done]. cbn [res_bind pd_providers pd_default]. rewrite (alike_keys _ _ Hp).
  assert (Hm : forall l, res_map (fun name => selected <~ provider_entry ps name ;; x <~ model_name selected name ;; Ok (name, x)) l =
                         res_map (fun name => selected <~ provider_entry ps' name ;; x <~ model_name selected name ;; Ok (name, x)) l).
  { induction l as [|name l IH]; [done|]. cbn [res_map]. rewrite IH. f_equal. specialize (Hg name). unfold provider_entry, jget.
    destruct (dget name ps) as [j|], (dget name ps') as [j'|]; try done. simpl. destruct Hg as [_ Hg]. simpl in Hg.
    destruct j as [| | | | | |d], j' as [| | | | | |d']; try done. cbn [res_bind]. unfold model_name, jget. by rewrite (proj1 Hg). }
  by rewrite Hm.
Qed.

(** C25: no secret is shown: the providers of a snapshot are the same for documents that
    differ in the keys written in them only, and for environments in which the same
    variables are set; and of an MCP server no value of a variable or of a header is
    shown. *)
Theorem snapshot_hides_secrets env env' document document' : documents_alike document document' -> environments_alike env env' ->
  provider_items env document = provider_items env' document' /\
  (forall c values headers source, dkeys values = dkeys (ms_env c) -> dkeys headers = dkeys (ms_headers c) ->
    mcp_snapshot (MkMcpServer (ms_name c) (ms_transport c) (ms_enabled c) (ms_command c) (ms_args c) (ms_cwd c) values (ms_url c) headers (ms_tools c)
                    (ms_startup_timeout_seconds c) (ms_call_timeout_seconds c) (ms_namespace c)) source = mcp_snapshot c source).
Proof.
  intros Hd He. split.
  - unfold provider_items. rewrite (alike_options _ _ Hd). destruct (load_model_options document') as [[def models]|]; [|done]. cbn [res_bind snd].
    destruct Hd as [_ Hp]. assert (Hg : forall name, match dget name (object_or_empty (jget "providers" document)), dget name (object_or_empty (jget "providers" document')) with
      Some j, Some j' => entry_alike (name, j) (name, j') | None, None => True | _, _ => False end).
    { destruct (jget "providers" document), (jget "providers" document'); try done. by apply alike_get. }
    revert Hg. generalize (object_or_empty (jget "providers" document)), (object_or_empty (jget "providers" document')). intros P P' Hg.
    induction models as [|[name m] models IH]; [done|]. cbn [res_map fst snd]. rewrite IH. f_equal. specialize (Hg name). unfold jget.
    destruct (dget name P) as [j|], (dget name P') as [j'|]; try done. simpl.
    destruct Hg as [_ Hg]. simpl in Hg. destruct j as [| | | | | |d], j' as [| | | | | |d']; try done. destruct Hg as [Hf [Hr Ht]]. f_equal.
    unfold provider_item. rewrite Hr, Ht. unfold jget, get_or. rewrite !Hf by done.
    destruct (environment_reference (match dget "key" d' with Some v => v | None => JNull end)) as [r|]; [by rewrite (He r)|reflexivity].
  - intros c values headers source Hv Hh. unfold mcp_snapshot, dkeys in *. cbn. by rewrite Hv, Hh.
Qed.

Lemma snapshot_hides_secrets_witness :
  let document key := [("main_agent", JObj [("provider", JStr "main")]); ("providers", JObj [("main", JObj [("model", JStr "gpt"); ("key", JStr key)])])] in
  documents_alike (document "sk-one") (document "sk-two") /\ is_ok (provider_items (fun _ => None) (document "sk-one")) = true /\
  provider_items (fun _ => None) (document "sk-one") = provider_items (fun _ => None) (document "sk-two").
Proof.
  intros document. assert (H : documents_alike (document "sk-one") (document "sk-two")).
  { split; [|repeat constructor; intros k Hk; simpl; by destruct (String.eqb_spec k "key")]. intros k Hk. simpl. by destruct (String.eqb_spec k "providers"). }
  split_and!; [exact H|vm_compute; reflexivity|]. apply (snapshot_hides_secrets (fun _ => None) (fun _ => None) _ _ H). by intros k.
Defined.

(** ** The lines of .env *)

Lemma splitlines_one_line s : forall cur pending, one_line cur = true -> Forall (fun l => one_line l = true) (splitlines_go cur pending s).
Proof.
  remember (String.length s) as n eqn:Hn. revert s Hn. induction (lt_wf n) as [n _ IH]. intros s -> cur pending Hc.
  destruct s as [|c s]; cbn [splitlines_go]; [destruct pending; by repeat constructor|]. destruct (is_line_boundary c) eqn:Eb.
  - destruct s as [|c' s]; [by repeat constructor|]. destruct (Ascii.eqb c CR && Ascii.eqb c' LF); (constructor; [done|]); eapply IH; try reflexivity; cbn; lia.
  - eapply IH; [|reflexivity|]; [cbn; lia|]. rewrite one_line_app, Hc. cbn. by rewrite Eb.
Qed.

Lemma splitlines_joined lines : Forall (fun l => one_line l = true) lines -> lines <> [] -> splitlines (sjoin NL lines +:+ NL) = lines.
Proof.
  unfold splitlines. induction 1 as [|l lines Hl Hr IH]; [done|]. intros _. destruct lines as [|l' lines].
  - unfold sjoin. cbn [String.concat]. change NL with (String LF ""). by rewrite splitlines_line.
  - rewrite sjoin_cons by done. rewrite !sapp_assoc. change (NL +:+ ?x) with (String LF x). rewrite splitlines_line by done. cbn [String.append]. f_equal. by apply IH.
Qed.

Lemma names_assigned name v : variable_name name = true -> names_variable name (name +:+ "=" +:+ v) = true.
Proof.
  intros Hn. unfold names_variable. assert (Hs : lstrip_by is_space (name +:+ "=" +:+ v) = name +:+ "=" +:+ v).
  { destruct name as [|c name]; [done|]. cbn in *. apply andb_true_iff in Hn as [Hc _]. rewrite (name_char c); [done|]. unfold alnum.
    apply orb_true_iff in Hc as [->|Hc]; [done|]. apply Ascii.eqb_eq in Hc as ->. done. }
  rewrite Hs, startswith_app, sdrop_app. done.
Qed.

Lemma replace_others name replacement : match replacement with Some r => names_variable name r = true | None => True end -> forall lines replaced,
  List.filter (fun l => negb (names_variable name l)) (replace_lines name replacement replaced lines) = List.filter (fun l => negb (names_variable name l)) lines.
Proof.
  intros Hr. induction lines as [|l lines IH]; intros replaced; cbn [replace_lines].
  - destruct replacement as [r|]; [|done]. destruct replaced; [done|]. cbn [List.filter]. by rewrite Hr.
  - destruct (names_variable name l) eqn:El; cbn [List.filter]; rewrite El; cbn [negb].
    + rewrite List.filter_app, IH. destruct replacement as [r|]; [|done]. destruct replaced; [done|]. cbn [List.filter]. by rewrite Hr.
    + by rewrite IH.
Qed.

Lemma replace_named name replacement : match replacement with Some r => names_variable name r = true | None => True end -> forall lines replaced,
  List.filter (names_variable name) (replace_lines name replacement replaced lines) = match replacement with Some r => if replaced then [] else [r] | None => [] end.
Proof.
  intros Hr. induction lines as [|l lines IH]; intros replaced; cbn [replace_lines].
  - destruct replacement as [r|]; [|done]. destruct replaced; [done|]. cbn [List.filter]. by rewrite Hr.
  - destruct (names_variable name l) eqn:El.
    + rewrite List.filter_app, IH. destruct replacement as [r|]; [|done]. destruct replaced; [done|]. cbn [List.filter]. by rewrite Hr.
    + cbn [List.filter]. by rewrite El, IH.
Qed.

(** Writing a variable to .env: afterwards the file has exactly one line that
    assigns the variable, with the new value (none when it is removed), however
    many there were and however they were written, and every other line is as it
    was, in the same order. *)
Theorem dotenv_update_exact text name value : variable_name name = true -> match value with Some v => one_line (name +:+ "=" +:+ v) = true | None => True end ->
  let before := match text with Some t => splitlines t | None => [] end in
  let after := splitlines (update_dotenv text name value) in
  List.filter (names_variable name) after = match value with Some v => [name +:+ "=" +:+ v] | None => [] end /\
  List.filter (fun l => negb (names_variable name l)) after = List.filter (fun l => negb (names_variable name l)) before.
Proof.
  intros Hn Hv before after. set (replacement := (fun v => name +:+ "=" +:+ v) <$> value).
  assert (Hr : match replacement with Some r => names_variable name r = true | None => True end) by (subst replacement; destruct value; [by apply names_assigned|done]).
  assert (Hafter : after = replace_lines name replacement false before).
  { subst after. unfold update_dotenv. fold before. fold replacement. set (output := replace_lines _ _ _ _). case_bool_decide as E; [by rewrite E|]. apply splitlines_joined; [|done].
    assert (Hb : Forall (fun l => one_line l = true) before) by (subst before; destruct text as [t|]; [by apply splitlines_one_line|constructor]).
    assert (Hone : match replacement with Some r => one_line r = true | None => True end) by (subst replacement; by destruct value).
    subst output. clear -Hb Hone. generalize false. induction Hb as [|l lines Hl _ IH]; intros replaced; cbn [replace_lines].
    - destruct replacement as [r|]; [|constructor]. destruct replaced; by repeat constructor.
    - destruct (names_variable name l); [|by constructor]. apply Forall_app. split; [|done]. destruct replacement as [r|]; [|constructor]. destruct replaced; by repeat constructor. }
  rewrite Hafter. split; [|by apply replace_others]. rewrite replace_named by done. subst replacement. by destruct value.
Qed.

Lemma dotenv_update_exact_witness :
  update_dotenv (Some ("# keys" +:+ NL +:+ "export  KEY = old" +:+ NL +:+ "KEYS=1" +:+ NL +:+ " KEY=older")) "KEY" (Some "new") = "# keys" +:+ NL +:+ "KEY=new" +:+ NL +:+ "KEYS=1" +:+ NL /\
  List.filter (names_variable "KEY") (splitlines (update_dotenv (Some ("# keys" +:+ NL +:+ "export  KEY = old" +:+ NL +:+ "KEYS=1" +:+ NL +:+ " KEY=older")) "KEY" (Some "new"))) = ["KEY=new"].
Proof.
  split; [vm_compute; reflexivity|].
  apply (dotenv_update_exact (Some ("# keys" +:+ NL +:+ "export  KEY = old" +:+ NL +:+ "KEYS=1" +:+ NL +:+ " KEY=older")) "KEY" (Some "new")); vm_compute; reflexivity.
Defined.
