(* ===== verification/ChunkStream.v ===== *)
(** * Cancellable provider streams: _cancellable_chunks of providers/base.py

    A thread reads the stream of a provider and hands its chunks over through a
    queue of one place; the consumer polls the queue and the cancellation.  The
    state has both program counters; a step is one access to what the two share.
    [Source] is what the stream does: it is refused, or gives chunks and then ends
    or raises; closing it may raise as well. *)

From stdpp Require Import base list relations.
From Stdlib Require Import ZArith Lia.
From S2P Require Import Prelude.

Section chunk_stream.
Context {C : Type}.

Inductive Source :=
| Refused (e : exn)
| Stream (chunks : list C) (ending : option exn) (close : option exn) (consumer_close : option exn) (generator : bool).

Inductive Item := Chunk (c : C) | Failed (e : exn) | StreamEnd.

(** [read_stream]: where the reader is. *)
Inductive ReaderPc :=
| RCreate
| RRead (k : nat)
| RPutChunk (k : nat) (c : C)
| RPutError (e : exn)
| RClose
| RPutCloseError (e : exn)
| RPutEnd
| RDone.

(** How the generator ends. *)
Inductive Outcome := OReturned | OFailed (e : exn) | OCancelled (e : exn) | OAbandoned.

Inductive ConsumerPc :=
| CCheck
| CGet
| CGot (item : Item)
| CYield
| CStopping (o : Outcome)
| CDone (o : Outcome) (close_error : option exn).

Record ChunkState := MkChunks {
  ch_queue : option Item;
  ch_stopped : bool;
  ch_reader : ReaderPc;
  ch_consumer : ConsumerPc;
  ch_yielded : list C;
  ch_cancelled : option exn;
}.

Definition start_chunks : ChunkState := MkChunks None false RCreate CCheck [] None.

Definition at_reader (pc : ReaderPc) (s : ChunkState) : ChunkState :=
  MkChunks (ch_queue s) (ch_stopped s) pc (ch_consumer s) (ch_yielded s) (ch_cancelled s).
Definition at_consumer (pc : ConsumerPc) (s : ChunkState) : ChunkState :=
  MkChunks (ch_queue s) (ch_stopped s) (ch_reader s) pc (ch_yielded s) (ch_cancelled s).
Definition set_queue (q : option Item) (s : ChunkState) : ChunkState :=
  MkChunks q (ch_stopped s) (ch_reader s) (ch_consumer s) (ch_yielded s) (ch_cancelled s).

(** [publish(item)], one round of its loop, for the two places it goes on from: the
    item was put, or the consumer has stopped.  The flag is read before the item is
    put, so that an item may still be put when it is set in between ([late]). *)
Definition publish_item (late : bool) (item : Item) (put given_up : ReaderPc) (s : ChunkState) : ChunkState :=
  if ch_stopped s && negb late then at_reader given_up s
  else match ch_queue s with
       | None => at_reader put (set_queue (Some item) s)
       | Some _ => s
       end.

Definition close_error_of (src : Source) : option exn := match src with Refused _ => None | Stream _ _ close _ _ => close end.

Definition reader_round (src : Source) (late : bool) (s : ChunkState) : ChunkState :=
  match ch_reader s with
  | RCreate => at_reader (match src with Refused e => RPutError e | Stream _ _ _ _ _ => RRead 0 end) s
  | RRead k =>
      match src with
      | Refused e => at_reader (RPutError e) s
      | Stream chunks ending _ _ _ =>
          at_reader (match chunks !! k, ending with Some c, _ => RPutChunk k c | None, Some e => RPutError e | None, None => RClose end) s
      end
  | RPutChunk k c => publish_item late (Chunk c) (RRead (S k)) RClose s
  | RPutError e => publish_item late (Failed e) RClose RClose s
  | RClose =>
      at_reader (match close_error_of src with Some e => if is_exception e then RPutCloseError e else RPutEnd | None => RPutEnd end) s
  | RPutCloseError e => publish_item late (Failed e) RPutEnd RPutEnd s
  | RPutEnd => publish_item late StreamEnd RDone RDone s
  | RDone => s
  end.

Definition deliver_item (item : Item) (s : ChunkState) : ChunkState :=
  match item with
  | Chunk c => MkChunks (ch_queue s) (ch_stopped s) (ch_reader s) CYield (ch_yielded s ++ [c]) (ch_cancelled s)
  | Failed e => at_consumer (CStopping (OFailed e)) s
  | StreamEnd => at_consumer (CStopping OReturned) s
  end.

(** The stream, when it is there and is not a generator, is closed by the consumer
    too. *)
Definition consumer_close (src : Source) (s : ChunkState) : option exn :=
  match src, ch_reader s with
  | Refused _, _ | _, RCreate => None
  | Stream _ _ _ close generator, _ => if generator then None else close
  end.

(** One step of the generator; [resume] says what whoever iterates over it does at a
    yield: it takes the next chunk or drops the generator. *)
Definition consumer_round (src : Source) (resume : bool) (s : ChunkState) : ChunkState :=
  match ch_consumer s with
  | CCheck => at_consumer (match ch_cancelled s with Some e => CStopping (OCancelled e) | None => CGet end) s
  | CGet => match ch_queue s with Some item => at_consumer (CGot item) (set_queue None s) | None => at_consumer CCheck s end
  | CGot item => match ch_cancelled s with Some e => at_consumer (CStopping (OCancelled e)) s | None => deliver_item item s end
  | CYield => at_consumer (if resume then CCheck else CStopping OAbandoned) s
  | CStopping o => MkChunks (ch_queue s) true (ch_reader s) (CDone o (consumer_close src s)) (ch_yielded s) (ch_cancelled s)
  | CDone _ _ => s
  end.

Inductive chunk_step (src : Source) : ChunkState -> ChunkState -> Prop :=
| step_reader late s : chunk_step src s (reader_round src late s)
| step_consumer resume s : chunk_step src s (consumer_round src resume s)
| step_cancel e s : ch_cancelled s = None ->
    chunk_step src s (MkChunks (ch_queue s) (ch_stopped s) (ch_reader s) (ch_consumer s) (ch_yielded s) (Some e)).

(** ** What is handed over *)

(** What the reader publishes when nobody stops it. *)
Definition close_items (src : Source) : list Item :=
  match close_error_of src with Some e => if is_exception e then [Failed e] else [] | None => [] end.
Definition end_items (src : Source) : list Item :=
  match src with Refused e => [Failed e] | Stream _ ending _ _ _ => match ending with Some e => [Failed e] | None => [] end end.
Definition source_chunks (src : Source) : list C := match src with Refused _ => [] | Stream chunks _ _ _ _ => chunks end.
Definition items (src : Source) : list Item := map Chunk (source_chunks src) ++ end_items src ++ close_items src ++ [StreamEnd].

Definition reader_rest (src : Source) (pc : ReaderPc) : list Item :=
  match pc with
  | RCreate => items src
  | RRead k | RPutChunk k _ => map Chunk (drop k (source_chunks src)) ++ end_items src ++ close_items src ++ [StreamEnd]
  | RPutError _ => end_items src ++ close_items src ++ [StreamEnd]
  | RClose => close_items src ++ [StreamEnd]
  | RPutCloseError _ => close_items src ++ [StreamEnd]
  | RPutEnd => [StreamEnd]
  | RDone => []
  end.

(** The program counter fits the source. *)
Definition reader_ok (src : Source) (pc : ReaderPc) : Prop :=
  match pc with
  | RPutChunk k c => source_chunks src !! k = Some c
  | RPutError e => end_items src = [Failed e]
  | RPutCloseError e => close_items src = [Failed e]
  | _ => True
  end.

Definition held (pc : ConsumerPc) : list Item := match pc with CGot item => [item] | _ => [] end.

Record handing_over (src : Source) (s : ChunkState) : Prop := {
  ho_reader : reader_ok src (ch_reader s);
  ho_items : match ch_consumer s with
             | CStopping o | CDone o _ =>
                 match o with
                 | OReturned => items src = map Chunk (ch_yielded s) ++ [StreamEnd]
                 | OFailed e => map Chunk (ch_yielded s) ++ [Failed e] `prefix_of` items src
                 | OCancelled e => ch_cancelled s = Some e /\ map Chunk (ch_yielded s) `prefix_of` items src
                 | OAbandoned => map Chunk (ch_yielded s) `prefix_of` items src
                 end
             | pc => ch_stopped s = false /\ map Chunk (ch_yielded s) ++ held pc ++ option_list (ch_queue s) ++ reader_rest src (ch_reader s) = items src
             end;
  ho_stopped : ch_stopped s = match ch_consumer s with CDone _ _ => true | _ => false end;
}.
End chunk_stream.
