(* ===== verification/ChunkThms.v ===== *)
(** * A cancellable stream hands over what the provider sends *)

From stdpp Require Import base list relations strings.
From Stdlib Require Import ZArith Lia.
From S2P Require Import Prelude ChunkStream.

Section chunk_thms.
Context {C : Type}.
Implicit Types (src : @Source C) (s : @ChunkState C).

Lemma end_items_no_end src : StreamEnd ∉ map Chunk (source_chunks src) ++ end_items src ++ close_items src.
Proof.
  rewrite !elem_of_app. intros [H|[H|H]].
  - apply list_elem_of_fmap in H as (c & Hc & _). done.
  - destruct src as [e|ch [e|] cl cc g]; simpl in H; [by apply list_elem_of_singleton in H|by apply list_elem_of_singleton in H|by apply elem_of_nil in H].
  - unfold close_items in H. destruct (close_error_of src) as [e|]; [|by apply elem_of_nil in H]. destruct (is_exception e); [by apply list_elem_of_singleton in H|by apply elem_of_nil in H].
Qed.

Lemma last_item {A} (x : A) l a b : x ∉ l -> a ++ x :: b = l ++ [x] -> b = [] /\ a = l.
Proof.
  intros Hx. revert l Hx. induction a as [|y a IH]; intros l Hx Heq.
  - destruct l as [|z l]; [by injection Heq as ->|]. injection Heq as -> _. exfalso. apply Hx. by left.
  - destruct l as [|z l]; simpl in Heq; [injection Heq as _ Hn; by destruct a|]. injection Heq as -> Heq. apply IH in Heq as [-> ->]; [done|]. intros H. apply Hx. by right.
Qed.

(** The reader keeps what it has to publish in order. *)
Lemma reader_publishes src late s q rest : ch_stopped s = false -> reader_ok src (ch_reader s) ->
  option_list (ch_queue s) = q -> reader_rest src (ch_reader s) = rest ->
  let s' := reader_round src late s in
  reader_ok src (ch_reader s') /\ option_list (ch_queue s') ++ reader_rest src (ch_reader s') = q ++ rest.
Proof.
  intros Hs Hok <- <-. unfold reader_round. destruct (ch_reader s) as [|k|k c|e| |e| |] eqn:Er; unfold publish_item; rewrite ?Hs; cbn [andb].
  - destruct src as [e|ch en cl cc g]; by split.
  - destruct src as [e|ch en cl cc g]; [split; [done|]; cbn; by rewrite drop_nil|].
    cbn [ch_reader at_reader]. destruct (ch !! k) as [c|] eqn:Ek; [by split|]. apply lookup_ge_None in Ek.
    destruct en as [e|]; (split; [done|]); cbn; by rewrite drop_ge.
  - destruct (ch_queue s) as [x|] eqn:Eq; [by rewrite Eq, Er|]. cbn. split; [done|]. simpl in Hok. by rewrite (drop_S _ _ _ Hok).
  - destruct (ch_queue s) as [x|] eqn:Eq; [by rewrite Eq, Er|]. cbn. split; [done|]. simpl in Hok. by rewrite Hok.
  - cbn. unfold close_items. destruct (close_error_of src) as [e|] eqn:Ec; [destruct (is_exception e) eqn:Ee|]; cbn; unfold close_items; by rewrite ?Ec, ?Ee.
  - destruct (ch_queue s) as [x|] eqn:Eq; [by rewrite Eq, Er|]. cbn. split; [done|]. simpl in Hok. by rewrite Hok.
  - destruct (ch_queue s) as [x|] eqn:Eq; [by rewrite Eq, Er|]. by cbn.
  - by rewrite Er.
Qed.

Lemma reader_frame src late s : let s' := reader_round src late s in
  ch_stopped s' = ch_stopped s /\ ch_consumer s' = ch_consumer s /\ ch_yielded s' = ch_yielded s /\ ch_cancelled s' = ch_cancelled s.
Proof.
  unfold reader_round. destruct (ch_reader s); unfold publish_item; try (destruct src; done); try done; destruct (ch_stopped s && negb late); try done; by destruct (ch_queue s).
Qed.

Lemma reader_ok_round src late s : reader_ok src (ch_reader s) -> reader_ok src (ch_reader (reader_round src late s)).
Proof.
  intros Hok. unfold reader_round. destruct (ch_reader s) as [|k|k c|e| |e| |] eqn:Er; unfold publish_item.
  - by destruct src.
  - destruct src as [e|ch en cl cc g]; [done|]. cbn. destruct (ch !! k) eqn:Ek; [done|]. by destruct en.
  - destruct (ch_stopped s && negb late); [done|]. destruct (ch_queue s); [by rewrite Er|done].
  - destruct (ch_stopped s && negb late); [done|]. destruct (ch_queue s); [by rewrite Er|done].
  - cbn. destruct (close_error_of src) as [e|] eqn:Ec; [|done]. destruct (is_exception e) eqn:Ee; [|done]. cbn. unfold close_items. by rewrite Ec, Ee.
  - destruct (ch_stopped s && negb late); [done|]. destruct (ch_queue s); [by rewrite Er|done].
  - destruct (ch_stopped s && negb late); [done|]. destruct (ch_queue s); [by rewrite Er|done].
  - by rewrite Er.
Qed.

Lemma handing_over_reader src late s : handing_over src s -> handing_over src (reader_round src late s).
Proof.
  intros [Hr Hi Hs]. destruct (reader_frame src late s) as (F1 & F2 & F3 & F4). split; [by apply reader_ok_round| |by rewrite F1, F2].
  rewrite F2, F3, F4, F1. destruct (ch_consumer s) as [| |item| |o|o ce]; try done; destruct Hi as [Hst Hi]; (split; [done|]);
    destruct (reader_publishes src late s _ _ Hst Hr eq_refl eq_refl) as [_ Hp]; rewrite Hp; by rewrite <- Hi.
Qed.

Lemma running_prefix (a b c : list (@Item C)) : a ++ b = c -> a `prefix_of` c.
Proof. intros <-. by exists b. Qed.

Lemma handing_over_consumer src resume s : handing_over src s -> handing_over src (consumer_round src resume s).
Proof.
  intros [Hr Hi Hs]. unfold consumer_round. destruct (ch_consumer s) as [| |item| |o|o ce] eqn:Ec.
  - destruct Hi as [Hst Hi]. destruct (ch_cancelled s) as [e|] eqn:Ek; split; cbn; try done. split; [done|]. by eapply running_prefix.
  - destruct Hi as [Hst Hi]. destruct (ch_queue s) as [item|] eqn:Eq; split; cbn; try done; (split; [done|]); rewrite ?Eq in *; done.
  - destruct Hi as [Hst Hi]. destruct (ch_cancelled s) as [e|] eqn:Ek; [split; cbn; try done; split; [done|]; by eapply running_prefix|].
    destruct item as [c|e|]; split; cbn; try done.
    + split; [done|]. rewrite map_app, <- app_assoc. exact Hi.
    + rewrite <- Hi. cbn [held]. rewrite app_assoc. by eexists.
    + assert (Hx : map Chunk (ch_yielded s) ++ StreamEnd :: (option_list (ch_queue s) ++ reader_rest src (ch_reader s)) =
        (map Chunk (source_chunks src) ++ end_items src ++ close_items src) ++ [StreamEnd]) by (rewrite <- !app_assoc; exact Hi).
      apply last_item in Hx as [_ Hx]; [|apply end_items_no_end]. unfold items. rewrite Hx. by rewrite <- !app_assoc.
  - destruct Hi as [Hst Hi]. destruct resume; split; cbn; try done. by eapply running_prefix.
  - split; cbn; done.
  - split; cbn; rewrite ?Ec; done.
Qed.

Lemma handing_over_reachable src s : rtc (chunk_step src) start_chunks s -> handing_over src s.
Proof.
  intros H. assert (H0 : handing_over src start_chunks) by (split; cbn; done). revert H0. induction H as [|s s1 s2 Hst _ IH]; [done|]. intros H0. apply IH. clear IH.
  destruct Hst as [late s|resume s|e s Hc]; [by apply handing_over_reader|by apply handing_over_consumer|].
  destruct H0 as [Hr Hi Hs]. split; cbn; try done. destruct (ch_consumer s) as [| |item| |o|o ce]; try done; destruct o; try done; destruct Hi as [Hx _]; congruence.
Qed.

Lemma tail_items_not_chunk src : Forall (fun i => match i with Chunk _ => False | _ => True end) (end_items src ++ close_items src ++ [StreamEnd]).
Proof.
  apply Forall_app. split; [destruct src as [e|ch [e|] cl cc g]; by repeat constructor|]. apply Forall_app. split; [|by repeat constructor].
  unfold close_items. destruct (close_error_of src) as [e|]; [destruct (is_exception e)|]; by repeat constructor.
Qed.

Lemma chunks_prefix (y l : list C) r : Forall (fun i => match i with Chunk _ => False | _ => True end) r -> map Chunk y `prefix_of` map Chunk l ++ r -> y `prefix_of` l.
Proof.
  intros Hr. revert l. induction y as [|c y IH]; intros l H; [apply prefix_nil|]. destruct l as [|c' l]; simpl in H.
  - destruct H as [t H]. destruct r as [|i r]; [done|]. inversion Hr; subst. simpl in H. by injection H as -> _.
  - destruct H as [t H]. simpl in H. injection H as -> H. apply prefix_cons, IH. by exists t.
Qed.

Lemma chunks_then (y l : list C) x r : match x with Chunk _ => False | _ => True end ->
  forall r0, Forall (fun i => match i with Chunk _ => False | _ => True end) r0 -> map Chunk l ++ r0 = map Chunk y ++ x :: r -> y = l /\ r0 = x :: r.
Proof.
  intros Hx. revert l. induction y as [|c y IH]; intros l r0 Hr H; destruct l as [|c' l]; simpl in H.
  - done.
  - by injection H as <- _.
  - subst r0. by inversion Hr.
  - injection H as -> H. apply IH in H as [-> ->]; done.
Qed.

(** The rounds the consumer needs to notice a cancellation; it is not asked while whoever
    iterates has the chunk. *)
Definition cancel_rank (pc : @ConsumerPc C) : nat :=
  match pc with CGet => 3 | CCheck | CGot _ => 2 | CStopping _ => 1 | CDone _ _ => 0 | CYield => 4 end.

(** Rounds of the two threads in some order: [inl late] of the reader, [inr resume] of
    the consumer. *)
Definition run_rounds src (rounds : list (bool + bool)) s : ChunkState :=
  fold_left (fun s r => match r with inl late => reader_round src late s | inr resume => consumer_round src resume s end) rounds s.
Definition consumer_rounds (rounds : list (bool + bool)) : nat := length (List.filter (fun r => match r with inr _ => true | inl _ => false end) rounds).

Lemma rounds_reachable src rounds : forall s, rtc (chunk_step src) s (run_rounds src rounds s).
Proof. unfold run_rounds. induction rounds as [|[late|resume] rounds IH]; intros s; cbn [fold_left]; [done| |]; (eapply rtc_l; [|apply IH]); constructor. Qed.

Lemma cancel_progress src rounds : forall s e, ch_cancelled s = Some e -> ch_consumer s <> CYield ->
  let s' := run_rounds src rounds s in
  (cancel_rank (ch_consumer s') <= cancel_rank (ch_consumer s) - consumer_rounds rounds)%nat /\ ch_yielded s' = ch_yielded s /\ ch_consumer s' <> CYield.
Proof.
  unfold run_rounds, consumer_rounds. induction rounds as [|r rounds IH]; intros s e Hc Hy; cbn [fold_left List.filter length]; [split_and!; [lia|done|done]|].
  destruct r as [late|resume].
  - destruct (reader_frame src late s) as (_ & F2 & F3 & F4). rewrite <- F4 in Hc. rewrite <- F2 in Hy. rewrite <- F3, <- F2. by apply (IH _ e).
  - set (s1 := consumer_round src resume s). cbn [length].
    assert (H1 : ch_cancelled s1 = Some e /\ ch_consumer s1 <> CYield /\ ch_yielded s1 = ch_yielded s /\ (cancel_rank (ch_consumer s1) <= cancel_rank (ch_consumer s) - 1)%nat).
    { subst s1. unfold consumer_round. destruct (ch_consumer s) as [| |item| |o|o ce] eqn:Ec; rewrite ?Hc; cbn; try done; [|rewrite Ec; by split_and!].
      destruct (ch_queue s); cbn; by split_and!; [| | |lia]. }
    destruct H1 as (H1 & H2 & H3 & H4). destruct (IH s1 e H1 H2) as (H5 & H6 & H7). split_and!; [lia|by rewrite H6|done].
Qed.

Definition reader_rank (pc : @ReaderPc C) : nat :=
  match pc with RCreate => 6 | RRead _ => 5 | RPutChunk _ _ | RPutError _ => 4 | RClose => 3 | RPutCloseError _ => 2 | RPutEnd => 1 | RDone => 0 end.

Lemma reader_ends src n : forall s, ch_stopped s = true -> (reader_rank (ch_reader s) <= n)%nat -> ch_reader (Nat.iter n (reader_round src false) s) = RDone.
Proof.
  induction n as [|n IH]; intros s Hst Hn; [cbn; destruct (ch_reader s); cbn in Hn; first [lia|done]|]. rewrite Nat.iter_succ_r. apply IH; [by rewrite (proj1 (reader_frame src false s))|].
  unfold reader_round, publish_item. rewrite Hst. cbn [andb negb].
  destruct (ch_reader s) as [|k|k c|e| |e| |] eqn:Er; cbn in Hn |- *; try lia; [by destruct src; cbn; lia| |destruct (close_error_of src) as [e|]; [destruct (is_exception e)|]; cbn; lia|rewrite Er; cbn; lia].
  destruct src as [e|ch en cl cc g]; [cbn; lia|]. cbn. destruct (ch !! k); [cbn; lia|]. destruct en; cbn; lia.
Qed.

Lemma yielded_prefix src s : handing_over src s -> map Chunk (ch_yielded s) `prefix_of` items src.
Proof.
  intros [_ Hi _]. assert (Ho : forall o, match o with
      | OReturned => items src = map Chunk (ch_yielded s) ++ [StreamEnd]
      | OFailed e => map Chunk (ch_yielded s) ++ [Failed e] `prefix_of` items src
      | OCancelled e => ch_cancelled s = Some e /\ map Chunk (ch_yielded s) `prefix_of` items src
      | OAbandoned => map Chunk (ch_yielded s) `prefix_of` items src end -> map Chunk (ch_yielded s) `prefix_of` items src).
  { intros [|e|e|] H; [rewrite H; by eexists|destruct H as [t ->]; rewrite <- app_assoc; by eexists|apply H|done]. }
  destruct (ch_consumer s) as [| |item| |o|o ce]; try (by apply (Ho o)); destruct Hi as [_ Hi]; by eapply running_prefix.
Qed.

(** C22: whatever the two threads of a provider stream do, and whenever the turn is
    cancelled or the generator dropped: the chunks that are yielded are the first
    of the stream, in order; the generator returns only when all of them were
    yielded and neither the stream nor its closing raised, and it raises the error
    of the stream (or of closing it) only behind the last chunk; a cancellation is
    noticed within three polls, however silent the stream is, and nothing is
    yielded after it; and once the consumer has stopped, the reader ends without
    waiting for room in the queue. *)
Theorem chunks_handed_over src s : rtc (chunk_step src) start_chunks s ->
  ch_yielded s `prefix_of` source_chunks src /\
  (forall ce, ch_consumer s = CDone OReturned ce -> ch_yielded s = source_chunks src /\ end_items src ++ close_items src = []) /\
  (forall e ce, ch_consumer s = CDone (OFailed e) ce -> ch_yielded s = source_chunks src /\ head (end_items src ++ close_items src) = Some (Failed e)) /\
  (forall e ce, ch_consumer s = CDone (OCancelled e) ce -> ch_cancelled s = Some e) /\
  (forall e rounds, ch_cancelled s = Some e -> ch_consumer s <> CYield -> (3 <= consumer_rounds rounds)%nat ->
    ch_yielded (run_rounds src rounds s) = ch_yielded s /\ exists o ce, ch_consumer (run_rounds src rounds s) = CDone o ce) /\
  (ch_stopped s = true -> ch_reader (Nat.iter 6 (reader_round src false) s) = RDone).
Proof.
  intros H. apply handing_over_reachable in H as Hinv. destruct Hinv as [Hr Hi Hs] eqn:E. clear E. pose proof (tail_items_not_chunk src) as Ht. split_and!.
  - eapply chunks_prefix; [exact Ht|]. apply yielded_prefix. by split.
  - intros ce Ec. rewrite Ec in Hi. unfold items in Hi. apply chunks_then in Hi as [-> Hi]; [|done|done]. split; [done|].
    rewrite app_assoc in Hi. destruct (end_items src ++ close_items src) as [|i r]; [done|]. injection Hi as _ Hn. by destruct r.
  - intros e ce Ec. rewrite Ec in Hi. destruct Hi as [t Hi]. unfold items in Hi. rewrite <- app_assoc in Hi. cbn [app] in Hi.
    apply chunks_then in Hi as [-> Hi]; [|done|done]. split; [done|]. rewrite app_assoc in Hi.
    destruct (end_items src ++ close_items src) as [|i r]; [done|]. by injection Hi as -> _.
  - intros e ce Ec. rewrite Ec in Hi. by destruct Hi.
  - intros e rounds Hc Hy Hn. destruct (cancel_progress src rounds s e Hc Hy) as (H1 & H2 & H3). split; [done|].
    assert (Hrank : (cancel_rank (ch_consumer s) <= 3)%nat) by (by destruct (ch_consumer s); cbn; try lia).
    destruct (ch_consumer (run_rounds src rounds s)) as [| |item| |o|o ce]; cbn in H1; try lia; by exists o, ce.
  - intros Hst. apply reader_ends; [done|]. destruct (ch_reader s); cbn; lia.
Qed.
End chunk_thms.

(** A stream of two chunks that is cancelled after the first. *)
Definition demo_source : @Source nat := Stream [1; 2]%nat None None None false.
Definition demo_cancelled : Prelude.exn := Exn EAgentCancelled "".
Definition demo_rounds : list (bool + bool) := [inr true; inl false; inl false; inl false; inr true; inr true; inr true].

Lemma chunks_handed_over_witness :
  let s := run_rounds demo_source demo_rounds start_chunks in
  let c := MkChunks (ch_queue s) (ch_stopped s) (ch_reader s) (ch_consumer s) (ch_yielded s) (Some demo_cancelled) in
  ch_yielded c = [1]%nat /\ ch_yielded (run_rounds demo_source [inr true; inl false; inr true; inr true] c) = [1]%nat /\
  exists o ce, ch_consumer (run_rounds demo_source [inr true; inl false; inr true; inr true] c) = CDone o ce.
Proof.
  intros s c. split; [vm_compute; reflexivity|]. change [1]%nat with (ch_yielded c).
  assert (Hc : rtc (chunk_step demo_source) start_chunks c).
  { eapply rtc_r; [apply rounds_reachable|]. apply step_cancel. vm_compute. reflexivity. }
  destruct (chunks_handed_over demo_source c Hc) as (_ & _ & _ & _ & H & _). apply (H demo_cancelled); [reflexivity|vm_compute; discriminate|vm_compute; lia].
Defined.
