(* ===== verification/Subagent.v ===== *)
(** * Subagents: agent_core/subagent.py, tools/builtin/subagent.py

    The roles, the context and the tools a child agent gets, the tool that starts
    one, what its progress shows and which attachments it inherits.  The providers
    are of any type; a context has of every dependency whether it is there.  Running
    the child is running an agent (Agent.v). *)

From stdpp Require Import base list strings.
From Stdlib Require Import ZArith Lia Ascii.
From S2P Require Import Prelude PyData PyStr Json Content Plan Authority Message Session Config Agent.

(** ** Roles *)

Section subagents.
Context {P : Type}.
(** [provider.capabilities.input_modalities] has "image" *)
Variable sees_images : P -> bool.

Definition vision_aware_tool_names (configured : list string) (provider : P) (vision_provider : option P) : list string :=
  if sees_images provider then configured ++ ["read_image"]
  else match vision_provider with None => configured | Some _ => configured ++ ["analyze_image"] end.

(** [skills]: the identifiers of the registry, when there is one. *)
Definition skill_aware_tool_names (configured : list string) (skills : option (list string)) : list string :=
  match skills with Some (_ :: _) => configured ++ ["read_skill"] | _ => configured end.

Record SubagentRole := MkRole {
  sr_name : string;
  sr_description : string;
  sr_tools : list string;
  sr_provider : P;
  sr_instructions : string;
  sr_vision_provider : option P;
}.

Definition register_role (roles : list (string * SubagentRole)) (role : SubagentRole) : res (list (string * SubagentRole)) :=
  if dhas (sr_name role) roles then value_error ("subagent role '" +:+ sr_name role +:+ "' is already registered")
  else Ok (dset (sr_name role) role roles).
Definition role_registry (roles : list SubagentRole) : res (list (string * SubagentRole)) := res_fold register_role [] roles.

Definition get_role (roles : list (string * SubagentRole)) (name : string) : res SubagentRole :=
  match dget name roles with
  | Some role => Ok role
  | None =>
      let known := sjoin ", " (dkeys roles) in
      value_error ("unknown subagent role '" +:+ name +:+ "'; available roles: " +:+ (if nonempty known then known else "none"))
  end.

(** ** Contexts *)

Record ToolContext := MkContext {
  tx_session_id : string;
  tx_authority : option ExecutionAuthority;
  tx_execution : bool;
  tx_vision_input : bool;
  tx_vision_provider : option P;
  tx_image_generator : bool;
  tx_mcp : bool;
  tx_subagents : option (list (string * SubagentRole));
  tx_jobs : bool;
  tx_cancellation : bool;
  tx_skills : option (list string);
  tx_plan : bool;
  tx_ask_user : bool;
  tx_scheduler : bool;
  tx_memory : bool;
  tx_agent_role : string;
  tx_parent_session_id : option string;
  tx_artifact_directory : option string;
  tx_screenshot : bool;
  tx_computer : bool;
}.

(** [Tool.available] of the built-in tools and of the tools of MCP servers, whose names
    begin with mcp__. *)
Definition tool_available (c : ToolContext) (name : string) : bool :=
  let host := allows (default WORKSPACE_ACCESS_AUTHORITY (tx_authority c)) HOST in
  if String.eqb name "analyze_image" then bool_decide (is_Some (tx_vision_provider c)) && negb (tx_vision_input c) else
  if String.eqb name "read_image" then tx_vision_input c else
  if String.eqb name "ask_user" then tx_ask_user c else
  if String.eqb name "computer_action" then tx_computer c && tx_vision_input c && host else
  if String.eqb name "computer_screenshot" then tx_screenshot c && tx_vision_input c && host else
  if String.eqb name "generate_image" then tx_image_generator c else
  if String.eqb name "job_control" then tx_jobs c else
  if String.eqb name "read_skill" then match tx_skills c with Some (_ :: _) => true | _ => false end else
  if String.eqb name "remember" then tx_memory c else
  if String.eqb name "scheduled_task" then tx_scheduler c && bool_decide (is_Some (tx_authority c)) else
  if String.eqb name "shell" then bool_decide (is_Some (tx_authority c)) else
  if String.eqb name "subagent" then match tx_subagents c with Some (_ :: _) => true | _ => false end else
  if String.eqb name "update_plan" then tx_plan c else
  if startswith "mcp__" name then tx_mcp c else true.

(** The context of [SubagentRuntime.run]. *)
Definition child_context (parent : ToolContext) (role : SubagentRole) (session_id : string) (memory cancellation : bool) (directory : string) : ToolContext :=
  MkContext session_id (tx_authority parent) false (sees_images (sr_provider role)) (sr_vision_provider role) (tx_image_generator parent) (tx_mcp parent)
    None false cancellation (tx_skills parent) false (tx_ask_user parent) (tx_scheduler parent) memory (sr_name role) (Some (tx_session_id parent))
    (Some directory) (tx_screenshot parent) (tx_computer parent).

(** The names the child's tools are selected by. *)
Definition child_tool_names (role : SubagentRole) (parent : ToolContext) (memory : bool) : list string :=
  skill_aware_tool_names (vision_aware_tool_names (sr_tools role) (sr_provider role) (sr_vision_provider role)) (tx_skills parent) ++
  (if memory then ["remember"] else []).

(** [ToolCatalog.select]: the names the catalog knows and the context can offer. *)
Definition child_tools (catalog : list string) (role : SubagentRole) (parent : ToolContext) (session_id : string) (memory cancellation : bool) (directory : string) : list string :=
  List.filter (fun name => name_in name catalog && tool_available (child_context parent role session_id memory cancellation directory) name) (child_tool_names role parent memory).

(** ** The tool *)

Inductive Delegation :=
| RunNow (role task : string)
| RunInBackground (turn_id role task : string).

(** [SubagentTool.execute] up to the point where the child is run or the job is
    submitted. *)
Definition execute_subagent (arguments : list (string * json)) (c : ToolContext) (current_turn_id : option string) : res Delegation :=
  match string_in (jget "role" arguments) with
  | None => value_error "subagent requires a non-empty string 'role'"
  | Some role =>
      match string_in (jget "task" arguments) with
      | None => value_error "subagent requires a non-empty string 'task'"
      | Some task =>
          match get_or "background" arguments (JBool false) with
          | JBool background =>
              match unknown_keys ["role"; "task"; "background"] arguments with
              | _ :: _ => value_error "subagent accepts only 'role', 'task' and 'background'"
              | [] =>
                  if bool_decide (tx_subagents c = None) then value_error "this runtime has no sub-agent roles" else
                  if background then
                    match current_turn_id with
                    | Some turn_id => if tx_jobs c then Ok (RunInBackground turn_id role task) else value_error "background subagent requires an active JobManager turn"
                    | None => value_error "background subagent requires an active JobManager turn"
                    end
                  else Ok (RunNow role task)
              end
          | _ => value_error "subagent requires 'background' to be a boolean"
          end
      end
  end.
End subagents.

(** ** Progress *)

Record ProgressTool := MkProgressTool { pt_id : string; pt_name : string; pt_status : string }.
Record Progress := MkProgress { pg_recent_tools : list ProgressTool; pg_pending_text : option (Z * string); pg_text : option string }.
Definition new_progress : Progress := MkProgress [] None None.
Definition ProgressSnapshot : Type := list ProgressTool * option string.

(** The first call with the id gets the status; [None] when there is none. *)
Fixpoint set_status (id status : string) (l : list ProgressTool) : option (list ProgressTool) :=
  match l with
  | [] => None
  | t :: l' => if String.eqb (pt_id t) id then Some (MkProgressTool (pt_id t) (pt_name t) status :: l') else (fun r => t :: r) <$> set_status id status l'
  end.

(** [_SubagentProgress.__call__]: the new state and what is published. *)
Definition progress_event (p : Progress) (event : AgentEvent) : Progress * option ProgressSnapshot :=
  match event with
  | AssistantMessageEvent content _ index => (MkProgress (pg_recent_tools p) (Some (index, stake 1000 content)) (pg_text p), None)
  | ToolBatchStartedEvent index _ =>
      let text := match pg_pending_text p with Some (i, t) => if i =? index then Some t else pg_text p | None => pg_text p end in
      (MkProgress (pg_recent_tools p) None text, None)
  | ToolCallEvent call _ _ =>
      let tools := slice_from (-5) (pg_recent_tools p ++ [MkProgressTool (tc_id call) (tc_name call) "running"]) in
      (MkProgress tools (pg_pending_text p) (pg_text p), Some (tools, pg_text p))
  | ToolResultEvent result _ _ =>
      match set_status (tr_tool_call_id result) (match tr_error result with Some _ => "failed" | None => "completed" end) (pg_recent_tools p) with
      | Some tools => (MkProgress tools (pg_pending_text p) (pg_text p), Some (tools, pg_text p))
      | None => (p, None)
      end
  | _ => (p, None)
  end.

(** What is published for the events of a run. *)
Fixpoint progress_run (p : Progress) (events : list AgentEvent) : list ProgressSnapshot :=
  match events with
  | [] => []
  | e :: rest => let '(p', out) := progress_event p e in option_list out ++ progress_run p' rest
  end.

(** ** Attachments *)

Definition latest_attachments (items : list Message) : list ContentPart :=
  match List.find (fun m => bool_decide (m_role m = RUser) && bool_decide (m_origin m = OConversation)) (rev items) with
  | Some m => List.filter is_attachment (m_parts m)
  | None => []
  end.
