(* ===== verification/SubagentThms.v ===== *)
(** * A child agent is kept apart from its parent *)

From stdpp Require Import base list strings sets.
From Stdlib Require Import ZArith Lia Ascii.
From S2P Require Import Prelude PyData PyStr Json Content Plan Authority TurnControl Message Session Config Agent Subagent.

Section isolation.
Context {P : Type}.
Variable sees_images : P -> bool.

(** C27: whatever its role asks for and whatever its parent has, a child agent can neither
    start agents of its own nor manage background jobs or the plan of its parent; it
    has read_image exactly when its model sees images, analyze_image when it does
    not but its role has a vision provider, remember exactly when it has a memory
    and read_skill exactly when there are skills (as far as the catalog has them);
    and of the other tools it has those of its role that the catalog knows and the
    parent's runtime can offer. *)
Theorem child_tools_isolated catalog (role : SubagentRole) (parent : ToolContext) session_id memory cancellation directory :
  let tools := child_tools sees_images catalog role parent session_id memory cancellation directory in
  let context := child_context sees_images parent role session_id memory cancellation directory in
  tx_subagents context = None /\ (forall n, n ∈ ["subagent"; "job_control"; "update_plan"] -> n ∉ tools) /\
  ("read_image" ∈ tools <-> "read_image" ∈ catalog /\ sees_images (sr_provider role) = true) /\
  ("analyze_image" ∈ tools <-> "analyze_image" ∈ catalog /\ sees_images (sr_provider role) = false /\ is_Some (sr_vision_provider role)) /\
  ("remember" ∈ tools <-> "remember" ∈ catalog /\ memory = true) /\
  ("read_skill" ∈ tools <-> "read_skill" ∈ catalog /\ exists s l, tx_skills parent = Some (s :: l)) /\
  (forall n, n ∉ ["read_image"; "analyze_image"; "remember"; "read_skill"] -> n ∈ tools <-> n ∈ sr_tools role /\ n ∈ catalog /\ tool_available context n = true).
Proof.
  intros tools context.
  assert (Hin : forall n, n ∈ tools <-> n ∈ child_tool_names sees_images role parent memory /\ n ∈ catalog /\ tool_available context n = true).
  { intros n. subst tools. unfold child_tools. rewrite elem_of_filter_bool. fold context. rewrite andb_true_iff, name_in_spec. done. }
  assert (Hnames : forall n, n ∈ child_tool_names sees_images role parent memory <->
    n ∈ sr_tools role \/ (n = "read_image" /\ sees_images (sr_provider role) = true) \/
    (n = "analyze_image" /\ sees_images (sr_provider role) = false /\ is_Some (sr_vision_provider role)) \/
    (n = "read_skill" /\ exists s l, tx_skills parent = Some (s :: l)) \/ (n = "remember" /\ memory = true)).
  { intros n. unfold child_tool_names, skill_aware_tool_names, vision_aware_tool_names. rewrite elem_of_app.
    assert (Hm : n ∈ (if memory then ["remember"] else []) <-> n = "remember" /\ memory = true)
      by (destruct memory; [rewrite list_elem_of_singleton; tauto|rewrite elem_of_nil; intuition congruence]). rewrite Hm.
    set (v := if sees_images (sr_provider role) then _ else _).
    assert (Hv : n ∈ v <-> n ∈ sr_tools role \/ (n = "read_image" /\ sees_images (sr_provider role) = true) \/
      (n = "analyze_image" /\ sees_images (sr_provider role) = false /\ is_Some (sr_vision_provider role))).
    { subst v. destruct (sees_images (sr_provider role)); [rewrite elem_of_app, list_elem_of_singleton; intuition congruence|].
      destruct (sr_vision_provider role) as [x|]; [rewrite elem_of_app, list_elem_of_singleton; intuition; by left|].
      intuition; try congruence. match goal with H : is_Some None |- _ => by destruct H end. }
    destruct (tx_skills parent) as [[|s l]|]; rewrite ?elem_of_app, ?list_elem_of_singleton, Hv; split; try tauto;
      try (intros [|[|[|[(_ & ? & ? & ?)|]]]]; [tauto|tauto|tauto|congruence|tauto]).
    intros [[?| ->]|?]; [tauto|do 3 right; left; split; [done|by eexists _, _]|tauto]. }
  split_and!.
  - done.
  - intros n Hn Ht. apply Hin in Ht as (_ & _ & Ht). repeat (apply elem_of_cons in Hn as [->|Hn]; [done|]). by apply elem_of_nil in Hn.
  - rewrite Hin, Hnames. change (tool_available context "read_image") with (sees_images (sr_provider role)). intuition congruence.
  - rewrite Hin, Hnames. change (tool_available context "analyze_image") with (bool_decide (is_Some (sr_vision_provider role)) && negb (sees_images (sr_provider role))).
    rewrite andb_true_iff, bool_decide_eq_true, negb_true_iff. intuition congruence.
  - rewrite Hin, Hnames. change (tool_available context "remember") with memory. intuition congruence.
  - rewrite Hin, Hnames. change (tool_available context "read_skill") with (match tx_skills parent with Some (_ :: _) => true | _ => false end).
    split; [|intros (H1 & s & l & ->); split_and!; [do 3 right; left; split; [done|by eexists _, _]|done|done]].
    intros (_ & H1 & H2). split; [done|]. destruct (tx_skills parent) as [[|s l]|]; try done. by eexists _, _.
  - intros n Hn. rewrite Hin, Hnames. assert (Hx : n <> "read_image" /\ n <> "analyze_image" /\ n <> "remember" /\ n <> "read_skill") by set_solver. tauto.
Qed.
End isolation.

(** ** Progress *)

(** A text that was followed by a tool batch of the same model call. *)
Definition before_batch (seen : list AgentEvent) (text : string) : Prop :=
  exists a b c content t index calls, seen = a ++ AssistantMessageEvent content t index :: b ++ ToolBatchStartedEvent index calls :: c /\
    Forall (fun e => match e with AssistantMessageEvent _ _ _ | ToolBatchStartedEvent _ _ => False | _ => True end) b /\ text = stake 1000 content.

Record progress_ok (seen : list AgentEvent) (p : Progress) : Prop := {
  pr_tools : (length (pg_recent_tools p) <= 5)%nat;
  pr_text : forall text, pg_text p = Some text -> before_batch seen text;
  pr_pending : forall i text, pg_pending_text p = Some (i, text) ->
    exists a b content t, seen = a ++ AssistantMessageEvent content t i :: b /\
      Forall (fun e => match e with AssistantMessageEvent _ _ _ | ToolBatchStartedEvent _ _ => False | _ => True end) b /\ text = stake 1000 content;
}.

Lemma before_batch_snoc seen e text : before_batch seen text -> before_batch (seen ++ [e]) text.
Proof.
  intros (a & b & c & content & t & i & calls & -> & Hb & Ht). exists a, b, (c ++ [e]), content, t, i, calls. split_and!; [|done|done].
  rewrite <- app_assoc. cbn. rewrite <- app_assoc. done.
Qed.

Lemma set_status_length id status l l' : set_status id status l = Some l' -> length l' = length l.
Proof.
  revert l'. induction l as [|t l IH]; intros l'; cbn; [done|]. destruct (String.eqb _ _); [by intros [= <-]|]. destruct (set_status id status l) as [r|]; [|done].
  intros [= <-]. cbn. by rewrite (IH r eq_refl).
Qed.

Lemma last_five {A} (l : list A) : (length (slice_from (-5) l) <= 5)%nat.
Proof.
  unfold slice_from, slice, slice_bound, zlen. cbn [Z.ltb]. change (-5 <? 0) with true. cbn iota.
  destruct (Z.of_nat (length l) <? 0) eqn:E; [apply Z.ltb_lt in E; lia|]. rewrite length_take, length_drop. lia.
Qed.

Lemma progress_keeps seen p e : progress_ok seen p -> progress_ok (seen ++ [e]) (fst (progress_event p e)) /\
  forall tools text, snd (progress_event p e) = Some (tools, text) -> (length tools <= 5)%nat /\ forall t, text = Some t -> before_batch seen t.
Proof.
  intros [H1 H2 H3].
  assert (Hquiet : (match e with AssistantMessageEvent _ _ _ | ToolBatchStartedEvent _ _ => False | _ => True end) -> forall tools, (length tools <= 5)%nat ->
    progress_ok (seen ++ [e]) (MkProgress tools (pg_pending_text p) (pg_text p))).
  { intros He tools Ht. split; [done|intros t Htext; by apply before_batch_snoc, H2|]. intros i t Hp. destruct (H3 i t Hp) as (a & b & content & ts & -> & Hb & Hc).
    exists a, (b ++ [e]), content, ts. split_and!; [by rewrite <- app_assoc|apply Forall_app; split; [done|by constructor]|done]. }
  assert (Hsame : (match e with AssistantMessageEvent _ _ _ | ToolBatchStartedEvent _ _ => False | _ => True end) -> progress_ok (seen ++ [e]) p).
  { intros He. destruct p as [tools pending text]. by apply (Hquiet He). }
  destruct e as [| |content ts i| | | |i calls|call k n|result k n| | |]; cbn [progress_event fst snd]; try (split; [by apply Hsame|done]).
  - split; [|done]. split; simpl; [done|intros t Ht; by apply before_batch_snoc, H2|]. intros i' t [= <- <-]. exists seen, [], content, ts. by split_and!.
  - split; [|done]. split; simpl; [done| |done]. intros t. destruct (pg_pending_text p) as [[j t']|] eqn:Ep; [|intros Ht; by apply before_batch_snoc, H2].
    destruct (Z.eqb_spec j i) as [->|]; [|intros Ht; by apply before_batch_snoc, H2]. intros [= <-]. destruct (H3 i t' eq_refl) as (a & b & content & ts & -> & Hb & Hc).
    exists a, b, [], content, ts, i, calls. split_and!; [|done|done]. rewrite <- app_assoc. done.
  - split; [apply Hquiet; [done|apply last_five]|]. intros tools text [= <- <-]. split; [apply last_five|done].
  - destruct (set_status _ _ _) as [l|] eqn:Es; [|split; [by apply Hsame|done]]. apply set_status_length in Es.
    split; [apply Hquiet; [done|lia]|]. intros tools text [= <- <-]. split; [lia|done].
Qed.

(** What the parent sees of a running subagent: every snapshot has at most the five
    latest tool calls, and its text, if any, is the beginning (at most a thousand
    characters) of a message of the child that was followed by tool calls of the
    same model call; so the answer of the child, which no tool call follows, is never in a
    snapshot. *)
Theorem progress_hides_answer events tools text : (tools, text) ∈ progress_run new_progress events ->
  (length tools <= 5)%nat /\ forall t, text = Some t -> (String.length t <= 1000)%nat /\ exists seen rest, events = seen ++ rest /\ before_batch seen t.
Proof.
  intros Hin. assert (Hgo : forall events seen p, progress_ok seen p -> (tools, text) ∈ progress_run p events ->
    (length tools <= 5)%nat /\ forall t, text = Some t -> exists rest1 rest2, events = rest1 ++ rest2 /\ before_batch (seen ++ rest1) t).
  { clear. induction events as [|e events IH]; intros seen p Hp Hin; [by apply elem_of_nil in Hin|]. cbn [progress_run] in Hin.
    destruct (progress_keeps seen p e Hp) as [Hp' Hout]. destruct (progress_event p e) as [p' out]. simpl in *. apply elem_of_app in Hin as [Hin|Hin].
    - destruct out as [[tools' text']|]; [|by apply elem_of_nil in Hin]. apply list_elem_of_singleton in Hin as [= <- <-].
      destruct (Hout tools text eq_refl) as [H1 H2]. split; [done|]. intros t Ht. exists [], (e :: events). rewrite app_nil_r. split; [done|by apply H2].
    - destruct (IH (seen ++ [e]) p' Hp' Hin) as [H1 H2]. split; [done|]. intros t Ht. destruct (H2 t Ht) as (r1 & r2 & -> & Hb). exists (e :: r1), r2. split; [done|].
      rewrite <- app_assoc in Hb. exact Hb. }
  destruct (Hgo events [] new_progress) as [H1 H2]; [split; simpl; [lia|done|done]|done|]. split; [done|]. intros t Ht. destruct (H2 t Ht) as (r1 & r2 & -> & Hb).
  split; [|by exists r1, r2]. destruct Hb as (a & b & c & content & ts & i & calls & _ & _ & ->). apply slen_stake.
Qed.

(** A child that says what it does, calls a tool and answers. *)
Definition demo_child_events : list AgentEvent :=
  [AssistantMessageEvent "Looking." 0 1; ToolBatchStartedEvent 1 []; ToolCallEvent (MkToolCall "c1" "read_file" (ArgsDict []) None) 0 1;
   AssistantMessageEvent "The secret answer." 0 2].

Lemma progress_hides_answer_witness :
  progress_run new_progress demo_child_events = [([MkProgressTool "c1" "read_file" "running"], Some "Looking.")] /\
  exists seen rest, demo_child_events = seen ++ rest /\ before_batch seen "Looking.".
Proof.
  split; [vm_compute; reflexivity|]. apply (progress_hides_answer demo_child_events [MkProgressTool "c1" "read_file" "running"] (Some "Looking.")); [|reflexivity].
  vm_compute. apply list_elem_of_here.
Defined.
