(* ===== verification/Skills.v ===== *)
(** * Skills: agent_core/skills.py

    Locations, front matter, the loader and the registry.  The YAML parser and what
    the file system answers are arguments. *)

From stdpp Require Import base list strings sorting.
From Stdlib Require Import ZArith Lia Ascii.
From S2P Require Import Prelude PyData PyStr Json Config.

Record SkillLocation := MkLocation { sl_path : string; sl_namespace : option string }.

(** An entry of a directory: its name, whether it is a directory and whether it has a
    SKILL.md. *)
Record DirectoryEntry := MkDirEntry { de_name : string; de_is_dir : bool; de_has_skill : bool }.

Definition entry_le (a b : DirectoryEntry) : Prop := string_le (de_name a) (de_name b).
#[export] Instance entry_le_dec : RelDecision entry_le.
Proof. intros a b. unfold entry_le. apply _. Defined.

(** [DirectorySkillSource.skill_locations]; [None]: the root is not a directory. *)
Definition skill_locations (root : string) (namespace : option string) (children : option (list DirectoryEntry)) : list SkillLocation :=
  match children with
  | None => []
  | Some l => map (fun c => MkLocation (root +:+ "/" +:+ de_name c +:+ "/SKILL.md") namespace)
                (List.filter (fun c => de_is_dir c && de_has_skill c) (merge_sort entry_le l))
  end.

Record Skill := MkSkill { sk_name : string; sk_description : string; sk_directory : string; sk_namespace : option string }.
Definition skill_identifier (s : Skill) : string := match sk_namespace s with None => sk_name s | Some n => n +:+ ":" +:+ sk_name s end.

(** ** The registry *)

Record SkillRegistry := MkSkillRegistry { sg_skills : list (string * Skill); sg_warnings : list string }.

Definition register_skill (skills : list (string * Skill)) (s : Skill) : res (list (string * Skill)) :=
  if dhas (skill_identifier s) skills then value_error ("skill '" +:+ skill_identifier s +:+ "' is already registered")
  else Ok (dset (skill_identifier s) s skills).
Definition skill_registry (skills : list Skill) (warnings : list string) : res SkillRegistry :=
  d <~ res_fold register_skill [] skills ;; Ok (MkSkillRegistry d warnings).

Definition get_skill (r : SkillRegistry) (name : string) : res Skill :=
  match dget name (sg_skills r) with
  | Some s => Ok s
  | None =>
      let known := sjoin ", " (dkeys (sg_skills r)) in
      value_error ("unknown skill '" +:+ name +:+ "'; available skills: " +:+ (if nonempty known then known else "none"))
  end.

Definition skill_prompt_section (r : SkillRegistry) : string :=
  match sg_skills r with
  | [] => ""
  | l => "## Available Skills" +:+ NL +:+ NL +:+
         "Load a skill's instructions with `read_skill` when it is relevant. Only the catalog is provided initially; skill files are loaded progressively." +:+ NL +:+ NL +:+
         sjoin NL (map (fun kv => "- " +:+ skill_identifier (snd kv) +:+ ": " +:+ sk_description (snd kv)) l)
  end.

(** ** Loading *)

Section loading.
(** The YAML document of a text, or the message of the error. *)
Variable safe_load : string -> json + string.
(** The text of a file, or what reading it raises. *)
Variable read_skill_text : string -> res string.
Variable parent_directory : string -> string.

Definition is_fence (line : string) : bool := String.eqb (strip line) "---".

(** The lines before the next fence. *)
Fixpoint until_fence (lines : list string) : option (list string) :=
  match lines with
  | [] => None
  | l :: rest => if is_fence l then Some [] else (fun r => l :: r) <$> until_fence rest
  end.

Definition front_matter (text path : string) : res (list (string * json)) :=
  match splitlines text with
  | [] => value_error ("skill file is missing YAML front matter: " +:+ path)
  | first :: rest =>
      if negb (is_fence first) then value_error ("skill file is missing YAML front matter: " +:+ path) else
      match until_fence rest with
      | None => value_error ("skill front matter is not closed: " +:+ path)
      | Some lines =>
          match safe_load (sjoin NL lines) with
          | inr error => value_error ("invalid skill front matter in " +:+ path +:+ ": " +:+ error)
          | inl (JObj data) => Ok data
          | inl _ => value_error ("skill front matter must be an object: " +:+ path)
          end
      end
  end.

Definition skill_string (data : list (string * json)) (field path : string) : res string :=
  match string_in (jget field data) with
  | Some s => Ok s
  | None => value_error ("skill field '" +:+ field +:+ "' must be a non-empty string: " +:+ path)
  end.

Definition registration_enabled (metadata : json) (path : string) : res bool :=
  match metadata with
  | JNull => Ok true
  | JObj m =>
      match jget "nosis" m with
      | JNull => Ok true
      | JObj nosis =>
          match get_or "register" nosis (JBool true) with
          | JBool b => Ok b
          | _ => value_error ("skill field 'metadata.nosis.register' must be a boolean: " +:+ path)
          end
      | _ => value_error ("skill field 'metadata.nosis' must be an object: " +:+ path)
      end
  | _ => value_error ("skill field 'metadata' must be an object: " +:+ path)
  end.

Definition load_skill (l : SkillLocation) : res (Skill * bool) :=
  let path := sl_path l in
  text <~ match read_skill_text path with
          | Err e => if is_class EUnicodeDecode e then value_error ("skill file must be UTF-8: " +:+ path) else Err e
          | Ok t => Ok t
          end ;;
  data <~ front_matter text path ;;
  name <~ skill_string data "name" path ;;
  description <~ skill_string data "description" path ;;
  registered <~ registration_enabled (jget "metadata" data) path ;;
  Ok (MkSkill name description (parent_directory path) (sl_namespace l), registered).

(** [except (OSError, ValueError)] *)
Definition skipped_error (e : exn) : bool :=
  match exn_class e with
  | EValueError | EUnicodeDecode | EJSONDecode | EOSError | EFileNotFound | EFileExists | ENotADirectory | EIsADirectory | EPermissionError | EBlockingIO => true
  | _ => false
  end.

(** One round of [SkillLoader.load]. *)
Definition load_location (x : list (string * Skill) * list string) (l : SkillLocation) : res (list (string * Skill) * list string) :=
  let '(skills, warnings) := x in
  match load_skill l with
  | Err e => if skipped_error e then Ok (skills, warnings ++ ["Skipping skill at '" +:+ sl_path l +:+ "': " +:+ exn_msg e]) else Err e
  | Ok (skill, registered) =>
      if negb registered then Ok x else
      match dget (skill_identifier skill) skills with
      | Some existing =>
          Ok (skills, warnings ++ ["Skipping duplicate skill '" +:+ skill_identifier skill +:+ "' at '" +:+ sk_directory skill +:+
                                   "'; already registered from '" +:+ sk_directory existing +:+ "'"])
      | None => Ok (dset (skill_identifier skill) skill skills, warnings)
      end
  end.

Definition load_skills (sources : list (list SkillLocation)) (warnings : list string) : res SkillRegistry :=
  x <~ res_fold load_location ([], warnings) (concat sources) ;;
  skill_registry (dvalues (fst x)) (snd x).
End loading.

(** ** The registry of what is loaded *)

Lemma registry_of_distinct (d : list (string * Skill)) : NoDup (dkeys d) -> Forall (fun kv => fst kv = skill_identifier (snd kv)) d ->
  res_fold register_skill [] (dvalues d) = Ok d.
Proof.
  intros Hn Hf. assert (Hgo : forall d acc, NoDup (dkeys (acc ++ d)) -> Forall (fun kv => fst kv = skill_identifier (snd kv)) d ->
    res_fold register_skill acc (dvalues d) = Ok (acc ++ d)).
  { clear. induction d as [|[k s] d IH]; intros acc Hn Hf; cbn; [by rewrite app_nil_r|]. inversion Hf as [|? ? Hk Hf']; subst. simpl in Hk. subst k.
    assert (Hfresh : dget (skill_identifier s) acc = None).
    { apply dget_None_not_in. intros Hin. unfold dkeys in *. rewrite map_app in Hn. apply NoDup_app in Hn as (_ & Hn & _). apply (Hn _ Hin). by left. }
    unfold register_skill at 1, dhas. rewrite Hfresh. cbn [res_bind]. rewrite dset_fresh by done. change (res_fold register_skill (acc ++ [(skill_identifier s, s)]) (dvalues d) = Ok (acc ++ (skill_identifier s, s) :: d)).
    rewrite IH; [by rewrite <- app_assoc|by rewrite <- app_assoc|done]. }
  by apply (Hgo d []).
Qed.

Section loaded.
Variable safe_load : string -> json + string.
Variable read_text : string -> res string.
Variable parent : string -> string.
Local Notation ld := (load_skill safe_load read_text parent).

(** The first location that has a skill with the identifier. *)
Definition first_skill (id : string) (locations : list SkillLocation) : option Skill :=
  head (omap (fun l => match ld l with Ok (s, true) => if String.eqb (skill_identifier s) id then Some s else None | _ => None end) locations).

Lemma load_locations ls : forall skills ws, Forall (fun l => match ld l with Ok _ => True | Err e => skipped_error e = true end) ls ->
  NoDup (dkeys skills) -> Forall (fun kv => fst kv = skill_identifier (snd kv)) skills ->
  exists skills' ws', res_fold (load_location safe_load read_text parent) (skills, ws) ls = Ok (skills', ws ++ ws') /\ NoDup (dkeys skills') /\
    Forall (fun kv => fst kv = skill_identifier (snd kv)) skills' /\
    forall id, dget id skills' = match dget id skills with Some s => Some s | None => first_skill id ls end.
Proof.
  unfold first_skill. induction ls as [|l ls IH]; intros skills ws Hall Hn Hf; cbn [res_fold].
  - exists skills, []. rewrite app_nil_r. split_and!; [done|done|done|]. intros id. by destruct (dget id skills).
  - inversion Hall as [|? ? Hl Hls]; subst. unfold load_location at 1. cbn [omap list_omap]. destruct (ld l) as [[s reg]|e] eqn:El.
    + destruct reg; cbn [negb].
      * destruct (dget (skill_identifier s) skills) as [old|] eqn:Ed; cbn [res_bind].
        -- match goal with |- context [res_fold _ (_, ws ++ ?w) ls] => destruct (IH skills (ws ++ w) Hls Hn Hf) as (sk & ws' & -> & H1 & H2 & H3) end. exists sk. eexists. split_and!; [by rewrite <- app_assoc|done|done|].
           intros id. rewrite H3. destruct (dget id skills) as [x|] eqn:Ex; [done|]. destruct (String.eqb_spec (skill_identifier s) id) as [<-|]; [congruence|done].
        -- destruct (IH (dset (skill_identifier s) s skills) ws Hls) as (sk & ws' & -> & H1 & H2 & H3); [by apply dset_NoDup|by apply Forall_dset|].
           exists sk, ws'. split_and!; [done|done|done|]. intros id. rewrite H3. destruct (String.eqb_spec (skill_identifier s) id) as [<-|Hne].
           ++ by rewrite dget_dset_eq, Ed.
           ++ by rewrite dget_dset_ne.
      * cbn [res_bind]. destruct (IH skills ws Hls Hn Hf) as (sk & ws' & H0 & H). by exists sk, ws'.
    + rewrite Hl. cbn [res_bind]. match goal with |- context [res_fold _ (_, ws ++ ?w) ls] => destruct (IH skills (ws ++ w) Hls Hn Hf) as (sk & ws' & -> & H1 & H2 & H3) end. exists sk. eexists. split_and!; [by rewrite <- app_assoc|done|done|done].
Qed.

(** Loading registers every identifier once, from the first location that has it: a
    later one, and one that cannot be read, adds a warning and nothing else, and the
    loader raises only what is neither an OSError nor a ValueError. *)
Theorem first_skill_wins sources warnings :
  Forall (fun l => match ld l with Ok _ => True | Err e => skipped_error e = true end) (concat sources) ->
  exists r, load_skills safe_load read_text parent sources warnings = Ok r /\ NoDup (dkeys (sg_skills r)) /\ warnings `prefix_of` sg_warnings r /\
    forall id, dget id (sg_skills r) = first_skill id (concat sources).
Proof.
  intros Hall. unfold load_skills. destruct (load_locations (concat sources) [] warnings Hall) as (sk & ws & -> & H1 & H2 & H3); [constructor|constructor|].
  cbn [res_bind fst snd]. unfold skill_registry. rewrite registry_of_distinct by done. cbn [res_bind]. eexists. split_and!; [reflexivity|done|by exists ws|done].
Qed.
End loaded.
